(* ===== verification/_CoqProject ===== *)
-Q . S2P
Prelude.v
CString.v
Bytes.v
Sprintf.v
Ring.v
Kbd.v
Seg.v
Monad.v
Kstate.v
Spinlock.v
Sched.v
Cons.v
Bio.v
Log.v
Fs.v
Icache.v
Tx.v
Balloc.v
Inode.v
Dinode.v
Writei.v
Dir.v
Kalloc.v
Panic.v
Vm.v
Paging.v
Uvm.v
Uspace.v
Pipe.v
File.v
Proc.v
Fork.v
Console.v
Syscall.v
Umode.v
Sysfile.v
Exec.v
Trap.v
Fb.v
Boot.v
BootProc.v
FsImage.v
Ucall.v
Ulib.v
System.v
Grep.v
Uprog.v
Umalloc.v
Usertests.v
Sh.v
ShParse.v
Mkfs.v
MkfsSpec.v
Bus.v
Apic.v
Uart.v
Ide.v
Mp.v
Mb2.v
Kinit.v
Start.v
Hardware.v
Asm.v
Session.v
