(* ===== verification/Prelude.v ===== *)
(** * A verification of xv6-modded

    The program is a Unix-like teaching kernel for 64-bit x86 (kernel/), its
    user programs and their library (user/), and the builder of its file system
    image (mkfs.c). Paths below are relative to src/.

    ** How the code is modelled

    Machine integers are [Z] with the wrap-around of their C type written out
    ([u8] .. [u64], [s8] .. [s64]); memory is a function from addresses to
    bytes; a pointer into a static table is an index, null is [None]; structs
    are records. Kernel code is a computation of the monad of Monad.v over the
    record [kstate] of all global variables (Kstate.v). Its outcomes are [Ret],
    [Panic], [Spin] (waiting for a lock for ever), [Swtch] (the CPU is given up,
    with the continuation of the thread, which runs in whatever state the other
    threads leave) and [NoFuel]. Driver code that talks to devices adds the bus
    (Bus.v): what the devices do is not the program's code, so a bus is any type
    with the accesses of include/xv6/x86.h, and the laws of a data sheet that a
    driver relies on are the classes [IoApic], [Lapic], [Com] and [Ata]. User
    programs are trees of system calls (Ucall.v), which System.v runs on the
    kernel. The font, the symbols of the linker and the tables of the boot
    loader are parameters.

    ** Which file models what

    - Common: Prelude, Bytes (fields of structs in byte arrays), Ring (buffers
      with running counters), Monad, Kstate.
    - kernel/string.c: CString. kernel/sprintf.c: Sprintf. kernel/kbd.c: Kbd.
    - kernel/spinlock.c: Spinlock, with [Smp] for many processors.
      kernel/sleeplock.c and [sched], [sleep], [wakeup], [kill] of
      kernel/proc.c: Sched. The rest of kernel/proc.c: Proc, with theorems in
      Fork.
    - kernel/bio.c and kernel/ide/memide.c: Bio. kernel/log.c: Log.
    - kernel/fs.c: the code in Fs; theorems in Icache (inode cache), Balloc
      (block bitmap), Inode and Writei (contents), Dinode (inodes on disk), Dir
      (directories, paths), all in terms of the transactions of Tx.
    - kernel/kalloc.c: Kalloc, Kinit. kernel/vm.c: Vm, with theorems
      in Paging (tables), Uvm and Uspace (address spaces); the descriptor tables
      of include/xv6/seg.h and include/xv6/trap.h: Seg; what the processor lets
      a program in user mode do: Umode.
    - kernel/pipe.c: Pipe. kernel/file.c: File. kernel/console.c: Cons (output),
      Console (input), Panic. kernel/fb.c: Fb.
    - kernel/syscall.c and kernel/sysproc.c: Syscall. kernel/sysfile.c: Sysfile.
      kernel/exec.c: Exec. kernel/trap.c: Trap.
    - kernel/ioapic.c, kernel/lapic.c, kernel/picirq.c: Apic. kernel/uart.c:
      Uart. kernel/ide/ide.c: Ide. kernel/mp.c: Mp. kernel/mb2.c: Mb2.
      kernel/main.c and kernel/bin/entryother.S: Start. kernel/swtch.S,
      kernel/trapasm.S, kernel/vectors.pl, kernel/entry.S: Asm.
    - user/ulib: Ulib, Umalloc. user/sh.c: Sh, ShParse. user/grep.c: Grep.
      user/usertests.c: Usertests. The other programs: Uprog. mkfs.c: Mkfs,
      MkfsSpec.
    - The kernel and its programs together, with kernel/bin/initcode.S and the
      stubs of user/ulib/usys.S: System.
    - Boot, BootProc, FsImage and Hardware hold concrete machines, disks and
      boards to which the theorems are applied; Session boots one and runs
      programs on it.

    ** What is shown

    - Crash safety: [commit], cut off after any of its disk writes, is all or
      nothing after recovery, and recovery may be cut off too (Log). The
      buffer cache is an abstract write-back cache (Bio).
    - File system: the bitmap is a set of free blocks (Balloc), a file an array
      of bytes that [writei] and [readi] access and no other file shares
      (Inode, Writei), a directory a map from names to inodes (Dir), an inode in
      use has one cache entry (Icache), and a write by [filewrite] fits the log
      space it reserved (Writei). mkfs.c builds exactly such a file system
      (MkfsSpec).
    - Concurrency: mutual exclusion of spinlocks for all interleavings
      (Spinlock.Smp), no lost wakeup (Sched), the pipe is a bounded FIFO for any
      readers and writers (Pipe), every disk request completes (Ide).
    - Memory: the page allocator hands out a page at most once (Kalloc), from
      exactly the memory the boot loader reports as free (Kinit); [mappages]
      changes what the processor's walk finds as asked and nowhere else
      (Paging); a program in user mode changes nothing but the pages of its
      process (Umode); the descriptor tables mean to the processor what the
      kernel intends (Vm, Trap).
    - Processes: [fork] copies the address space, the files and the registers,
      [wait] gives every page of a child back, [growproc] adds and removes
      pages, and each of them undoes what it did when it fails (Fork).
    - The system: Session boots it from the disk of mkfs, and init and the shell
      do what is typed; it passes tests of its own suite. These are evaluations
      of the whole model on one input each, done when the file is compiled: they
      say that the parts fit together, not that every run goes well.
    - Assembly: [swtch] comes back to where it left with the registers a C
      function keeps; the words a trap pushes are struct trapframe, and a trap
      is transparent but for two registers (Asm).
    - Console: the interrupt handler is a line editor (Console), on the serial
      port as it is (Uart); a panic freezes the kernel (Panic).
    - User level: the shell's parser ends and inverts printing (ShParse),
      [malloc] and [free] keep the heap (Umalloc), grep matches by the meaning
      of its patterns and prints the matching lines (Grep).

    ** Fuel

    Loops with a counter are structural recursion. The other loops take the
    fuel of the monad, and a theorem about them either holds for every fuel
    above a bound that is given in its statement (the length of a list or
    chain the loop walks) or says that the outcome is not [NoFuel]. The parser
    of the shell takes the length of the line, by ShParse's theorem enough. The
    runs of Session have 5000 for the loops of the kernel, which is more than
    the bytes of a page, and as many steps as they need to come to their end.

    ** What is not modelled

    - The switch to long mode in kernel/entry.S and kernel/bin/entryother.S,
      and the multiboot header, which is data.
    - The machine code of user programs: in System a file on the disk stands for
      its tree of calls, and a program's memory holds what it passes to the
      kernel. System has one CPU, and interrupts only when every process waits
      or one loops.
    - The array [pcs] of a spinlock, which only messages show.
    - Caches, the translation buffer and weak memory ordering: memory
      operations take effect at once and in order.
    - The host side of mkfs.c: opening and writing its files succeeds. *)

From stdpp Require Import base list gmap strings.
From Stdlib Require Import ZArith Lia.

#[global] Open Scope Z_scope.

(** * Lists *)

(** Items that can be told apart by names are no more than the names. *)
Lemma length_by_names {A B} (R : A → B → Prop) (l : list A) (L : list B) :
  NoDup l → (∀ a, a ∈ l → ∃ b, b ∈ L ∧ R a b) → (∀ a a' b, R a b → R a' b → a = a') → (length l ≤ length L)%nat.
Proof.
  intros Hnd Hl HR. revert L Hl. induction Hnd as [|a l Ha Hnd IH]; intros L Hl; [simpl; lia|].
  destruct (Hl a) as (b & (L1 & L2 & ->)%list_elem_of_split & Hb); [left|]. rewrite length_app. simpl.
  rewrite Nat.add_succ_r, <- length_app. apply le_n_S, IH. intros a' Ha'. destruct (Hl a') as (b' & Hb' & Hr'); [by right|].
  exists b'. split; [|done]. assert (b' ≠ b) by (intros ->; rewrite (HR _ _ _ Hr' Hb) in Ha'; done). set_solver.
Qed.

(** * Machine integers *)

(** The C integer types of include/xv6/types.h are kept as [Z] with their
    wrap-around written out. *)
Definition u8 (x : Z) : Z := x mod 2 ^ 8.
Definition u16 (x : Z) : Z := x mod 2 ^ 16.
Definition u32 (x : Z) : Z := x mod 2 ^ 32.
Definition u64 (x : Z) : Z := x mod 2 ^ 64.

(** Conversion to a signed type of [2 ^ w] values. *)
Definition swrap (w x : Z) : Z := (x + 2 ^ (w - 1)) mod 2 ^ w - 2 ^ (w - 1).
Definition s8 (x : Z) : Z := swrap 8 x.
Definition s16 (x : Z) : Z := swrap 16 x.
Definition s32 (x : Z) : Z := swrap 32 x.
Definition s64 (x : Z) : Z := swrap 64 x.

Lemma swrap_small w x :
  0 < w → - 2 ^ (w - 1) ≤ x < 2 ^ (w - 1) → swrap w x = x.
Proof.
  intros Hw Hx. unfold swrap.
  assert (2 ^ w = 2 * 2 ^ (w - 1)) as E.
  { rewrite <- (Z.pow_succ_r 2 (w - 1)) by lia. f_equal. lia. }
  rewrite Z.mod_small; lia.
Qed.

Lemma u32_small x : 0 ≤ x < 2 ^ 32 → u32 x = x.
Proof. apply Z.mod_small. Qed.

Lemma s32_u32_small x : 0 ≤ x < 2 ^ 31 → s32 (u32 x) = x.
Proof. intros. rewrite u32_small by lia. apply swrap_small; lia. Qed.

Lemma u32_bound x : 0 ≤ u32 x < 2 ^ 32.
Proof. apply Z.mod_pos_bound. lia. Qed.

Lemma u64_small x : 0 ≤ x < 2 ^ 64 → u64 x = x.
Proof. apply Z.mod_small. Qed.

Lemma u64_bound x : 0 ≤ u64 x < 2 ^ 64.
Proof. apply Z.mod_pos_bound. lia. Qed.

Lemma u8_bound x : 0 ≤ u8 x < 2 ^ 8.
Proof. apply Z.mod_pos_bound. lia. Qed.

(** * Byte memory *)

(** Addressable memory: a finite map from addresses to bytes; bytes never
    written read as 0. *)
Definition mem := gmap Z Z.

Definition rd (m : mem) (a : Z) : Z := default 0 ((m : gmap Z Z) !! a).
Definition wr (m : mem) (a v : Z) : mem := <[a := v]> (m : gmap Z Z).

Lemma rd_wr m a v b : rd (wr m a v) b = if decide (a = b) then v else rd m b.
Proof.
  unfold rd, wr. rewrite lookup_insert. by destruct (decide (a = b)).
Qed.

Lemma rd_wr_eq m a v : rd (wr m a v) a = v.
Proof. rewrite rd_wr. by destruct (decide (a = a)). Qed.

Lemma rd_wr_ne m a v b : a ≠ b → rd (wr m a v) b = rd m b.
Proof. intros. rewrite rd_wr. by destruct (decide (a = b)). Qed.

(** The [n] bytes at [a]. *)
Fixpoint rd_bytes (m : mem) (a : Z) (n : nat) : list Z :=
  match n with
  | O => []
  | S n => rd m a :: rd_bytes m (a + 1) n
  end.

Lemma length_rd_bytes m a n : length (rd_bytes m a n) = n.
Proof. revert a. induction n; simpl; auto. Qed.

Lemma lookup_rd_bytes m a n i :
  (i < n)%nat → rd_bytes m a n !! i = Some (rd m (a + Z.of_nat i)).
Proof.
  revert a i. induction n as [|n IH]; intros a [|i] Hi; try lia; simpl.
  - by rewrite Z.add_0_r.
  - rewrite IH by lia. do 2 f_equal. lia.
Qed.

Lemma rd_bytes_ext m1 m2 a n :
  (∀ x, a ≤ x < a + Z.of_nat n → rd m1 x = rd m2 x) → rd_bytes m1 a n = rd_bytes m2 a n.
Proof.
  revert a. induction n as [|n IH]; intros a Hx; [done|]. simpl.
  rewrite Hx by lia. f_equal. apply IH. intros. apply Hx. lia.
Qed.

(** * Bit masks *)

(** Masking with [~(2 ^ k - 1)] in a 64-bit word rounds down to a multiple of
    [2 ^ k]. *)
Lemma land_mask64 x k :
  0 ≤ k ≤ 64 → 0 ≤ x < 2 ^ 64 → Z.land x (2 ^ 64 - 2 ^ k) = x / 2 ^ k * 2 ^ k.
Proof.
  intros Hk Hx.
  replace (2 ^ 64 - 2 ^ k) with (Z.shiftl (Z.ones (64 - k)) k).
  2:{ rewrite Z.shiftl_mul_pow2, Z.ones_equiv by lia.
      replace (2 ^ 64) with (2 ^ (64 - k) * 2 ^ k) by (rewrite <- Z.pow_add_r by lia; f_equal; lia).
      lia. }
  rewrite <- Z.shiftr_div_pow2, <- Z.shiftl_mul_pow2 by lia.
  apply Z.bits_inj'; intros i Hi.
  rewrite Z.land_spec, !Z.shiftl_spec by lia.
  destruct (Z.ltb_spec i k).
  - rewrite !(Z.testbit_neg_r _ (i - k)) by lia. apply andb_false_r.
  - rewrite Z.shiftr_spec by lia. replace (i - k + k) with i by lia.
    destruct (Z.ltb_spec i 64).
    + rewrite Z.ones_spec_low by lia. apply andb_true_r.
    + rewrite Z.ones_spec_high by lia. rewrite andb_false_r. symmetry.
      destruct (decide (x = 0)) as [->|]; [apply Z.bits_0|].
      apply Z.bits_above_log2; [lia|].
      apply Z.lt_le_trans with 64; [apply Z.log2_lt_pow2; lia|lia].
Qed.

(** [x & 0xff] and its relatives: a low mask is a remainder. *)
Lemma land_low x k : 0 ≤ k → Z.land x (2 ^ k - 1) = x mod 2 ^ k.
Proof. intros. rewrite <- Z.land_ones by lia. by rewrite Z.ones_equiv, Z.sub_1_r. Qed.
