(* ===== verification/CString.v ===== *)
(** The kernel's string and memory routines, kernel/string.c, over byte
    memory: one definition per routine, the loops as structural recursions on
    their counters (on explicit fuel for [strlen], whose loop has no counter).

    The theorems give each routine its contract: [memset] on both of its code
    paths, [memmove] on overlapping ranges, [memcpy_fast] against a plain copy
    (with the counts for which it runs past its buffer), the comparison
    routines as "first difference", and the string copies as padded or
    NUL-terminated prefixes. *)

From stdpp Require Import base list gmap.
From Stdlib Require Import ZArith Lia.
From S2P Require Import Prelude.

(** * The x86 string instructions (include/xv6/x86.h) *)

(** [rep stosb]: [cnt] copies of the low byte of [data]. *)
Fixpoint stosb (m : mem) (addr data : Z) (cnt : nat) : mem :=
  match cnt with
  | O => m
  | S cnt => stosb (wr m addr (u8 data)) (addr + 1) data cnt
  end.

(** One 32-bit little-endian store. *)
Definition st32 (m : mem) (addr data : Z) : mem :=
  wr (wr (wr (wr m addr (u8 data))
             (addr + 1) (u8 (Z.shiftr data 8)))
         (addr + 2) (u8 (Z.shiftr data 16)))
     (addr + 3) (u8 (Z.shiftr data 24)).

(** [rep stosl]: [cnt] copies of the 32-bit word [data]. *)
Fixpoint stosl (m : mem) (addr data : Z) (cnt : nat) : mem :=
  match cnt with
  | O => m
  | S cnt => stosl (st32 m addr data) (addr + 4) data cnt
  end.

(** * The routines *)

Definition memset (m : mem) (dst c n : Z) : mem :=
  if ((dst mod 4 =? 0) && (n mod 4 =? 0))%bool then
    let c := Z.land c 255 in
    stosl m dst
      (Z.lor (Z.lor (Z.lor (Z.shiftl c 24) (Z.shiftl c 16)) (Z.shiftl c 8)) c)
      (Z.to_nat (n / 4))
  else stosb m dst c (Z.to_nat n).

Fixpoint memcmp_loop (m : mem) (s1 s2 : Z) (n : nat) : Z :=
  match n with
  | O => 0
  | S n =>
      if rd m s1 =? rd m s2 then memcmp_loop m (s1 + 1) (s2 + 1) n
      else rd m s1 - rd m s2
  end.

Definition memcmp (m : mem) (v1 v2 n : Z) : Z := memcmp_loop m v1 v2 (Z.to_nat n).

(** The byte loop copying upwards from [s] to [d]. *)
Fixpoint copy_up (m : mem) (d s : Z) (n : nat) : mem :=
  match n with
  | O => m
  | S n => copy_up (wr m d (rd m s)) (d + 1) (s + 1) n
  end.

(** The byte loop copying downwards, [d] and [s] one past the ranges. *)
Fixpoint copy_down (m : mem) (d s : Z) (n : nat) : mem :=
  match n with
  | O => m
  | S n => copy_down (wr m (d - 1) (rd m (s - 1))) (d - 1) (s - 1) n
  end.

Definition memmove (m : mem) (dst src n : Z) : mem :=
  if ((src <? dst) && (dst <? src + n))%bool
  then copy_down m (dst + n) (src + n) (Z.to_nat n)
  else copy_up m dst src (Z.to_nat n).

Definition memcpy (m : mem) (dst src n : Z) : mem := memmove m dst src n.

(** One [movsd] and [rep movsd]. *)
Definition movsd (m : mem) (d s : Z) : mem :=
  let b0 := rd m s in let b1 := rd m (s + 1) in
  let b2 := rd m (s + 2) in let b3 := rd m (s + 3) in
  wr (wr (wr (wr m d b0) (d + 1) b1) (d + 2) b2) (d + 3) b3.

Fixpoint rep_movsd (m : mem) (d s : Z) (cnt : nat) : mem :=
  match cnt with
  | O => m
  | S cnt => rep_movsd (movsd m d s) (d + 4) (s + 4) cnt
  end.

(** [ALIGNUP(src, 4UL)]. *)
Definition aligned_start (src : Z) : Z := Z.land (u64 (src + 4 - 1)) (u64 (Z.lnot (4 - 1))).

(** The count [memcpy_fast] loads into [rcx]: [(end - s) >> 2] with [s] where
    the byte loop before it stops. *)
Definition movsd_count (src n : Z) : Z :=
  u64 (Z.shiftr (src + n - Z.max src (aligned_start src)) 2).

Definition memcpy_fast (m : mem) (dst src n : Z) : mem :=
  let k := Z.max 0 (aligned_start src - src) in
  let m1 := copy_up m dst src (Z.to_nat k) in
  let s := src + k in
  let d := dst + k in
  let c := movsd_count src n in
  let m2 := rep_movsd m1 d s (Z.to_nat c) in
  let s := s + 4 * c in
  let d := d + 4 * c in
  copy_up m2 d s (Z.to_nat (src + n - s)).

Fixpoint strncmp_loop (m : mem) (p q : Z) (n : nat) : Z :=
  match n with
  | O => 0
  | S n' =>
      if (negb (rd m p =? 0) && (rd m p =? rd m q))%bool
      then strncmp_loop m (p + 1) (q + 1) n'
      else u8 (rd m p) - u8 (rd m q)
  end.

Definition strncmp (m : mem) (p q n : Z) : Z := strncmp_loop m p q (Z.to_nat n).

(** The NUL-padding loop of [strncpy]. *)
Fixpoint zero_fill (m : mem) (s : Z) (n : nat) : mem :=
  match n with
  | O => m
  | S n => zero_fill (wr m s 0) (s + 1) n
  end.

(** The first loop of [strncpy] copies until the count or the string ends
    (NUL included); the second pads with NULs. *)
Fixpoint strncpy_loop (m : mem) (s t : Z) (n : nat) : mem :=
  match n with
  | O => m
  | S n =>
      let c := rd m t in
      let m := wr m s c in
      if c =? 0 then zero_fill m (s + 1) n else strncpy_loop m (s + 1) (t + 1) n
  end.

Definition strncpy (m : mem) (s t n : Z) : mem := strncpy_loop m s t (Z.to_nat n).

(** The loop copies bytes until a NUL has been copied or [n] bytes have; the
    store of 0 after the loop goes where the loop stopped. *)
Fixpoint safestrcpy_loop (m : mem) (s t : Z) (n : nat) : mem :=
  match n with
  | O => wr m s 0
  | S n =>
      let c := rd m t in
      let m := wr m s c in
      if c =? 0 then wr m (s + 1) 0 else safestrcpy_loop m (s + 1) (t + 1) n
  end.

Definition safestrcpy (m : mem) (s t n : Z) : mem :=
  if n <=? 0 then m else safestrcpy_loop m s t (Z.to_nat (n - 1)).

(** * The same string routines on byte sequences

    Names in directories and paths are arrays local to their functions; their
    model is a list of bytes, and these are [strncmp] and [strncpy] on lists
    (an index past the end reads as NUL). *)
Fixpoint strncmp_list (p q : list Z) (n : nat) : Z :=
  match n with
  | O => 0
  | S n' =>
      let a := default 0 (head p) in
      let b := default 0 (head q) in
      if (negb (a =? 0) && (a =? b))%bool
      then strncmp_list (tail p) (tail q) n'
      else u8 a - u8 b
  end.

Fixpoint strncpy_list (t : list Z) (n : nat) : list Z :=
  match n with
  | O => []
  | S n' =>
      let c := default 0 (head t) in
      if c =? 0 then replicate n 0 else c :: strncpy_list (tail t) n'
  end.

(** The characters of a C string of at most [n] bytes: those before its NUL. *)
Fixpoint cstr (s : list Z) (n : nat) {struct n} : list Z :=
  match n, s with
  | S n, c :: s => if c =? 0 then [] else c :: cstr s n
  | _, _ => []
  end.

Fixpoint strlen_loop (m : mem) (s n : Z) (fuel : nat) : option Z :=
  match fuel with
  | O => None
  | S fuel => if rd m (s + n) =? 0 then Some n else strlen_loop m s (n + 1) fuel
  end.

Definition strlen (m : mem) (s : Z) (fuel : nat) : option Z := strlen_loop m s 0 fuel.

(** * Contracts *)

Section specs.
Implicit Types (m : mem) (x : Z).

Lemma rd_stosb m a d n x :
  rd (stosb m a d n) x =
    if decide (a ≤ x < a + Z.of_nat n) then u8 d else rd m x.
Proof.
  revert m a. induction n as [|n IH]; intros m a; cbn [stosb].
  - case_decide; [lia|done].
  - rewrite IH, rd_wr. repeat case_decide; auto; lia.
Qed.

Lemma rd_stosl m a d c n x :
  u8 d = c → u8 (Z.shiftr d 8) = c → u8 (Z.shiftr d 16) = c → u8 (Z.shiftr d 24) = c →
  rd (stosl m a d n) x =
    if decide (a ≤ x < a + 4 * Z.of_nat n) then c else rd m x.
Proof.
  intros H0 H1 H2 H3. revert m a. induction n as [|n IH]; intros m a; cbn [stosl].
  - case_decide; [lia|done].
  - rewrite IH. unfold st32. rewrite !rd_wr, H0, H1, H2, H3.
    repeat case_decide; auto; lia.
Qed.

(** The word [memset] stores has the byte [c] in each of its four lanes. *)
Lemma memset_word c k :
  0 ≤ c < 2 ^ 8 → k = 0 ∨ k = 8 ∨ k = 16 ∨ k = 24 →
  u8 (Z.shiftr (Z.lor (Z.lor (Z.lor (Z.shiftl c 24) (Z.shiftl c 16)) (Z.shiftl c 8)) c) k) = c.
Proof.
  intros Hc Hk. unfold u8. rewrite <- Z.land_ones by lia.
  apply Z.bits_inj'; intros i Hi. rewrite Z.land_spec.
  destruct (Z.ltb_spec i 8).
  2:{ rewrite Z.ones_spec_high, andb_false_r by lia. symmetry.
      rewrite <- (Z.mod_small c (2 ^ 8)) by lia. by apply Z.mod_pow2_bits_high. }
  rewrite Z.ones_spec_low, andb_true_r by lia.
  assert (Hout : ∀ j, j < 0 ∨ 8 ≤ j → Z.testbit c j = false).
  { intros j [?|?]; [by apply Z.testbit_neg_r|].
    rewrite <- (Z.mod_small c (2 ^ 8)) by lia. by apply Z.mod_pow2_bits_high. }
  rewrite Z.shiftr_spec, !Z.lor_spec, !Z.shiftl_spec by lia.
  destruct Hk as [->|[->|[->| ->]]];
    repeat match goal with
      | |- context [Z.testbit c ?j] => rewrite (Hout j) by lia
      end; rewrite ?orb_false_r; simpl; f_equal; lia.
Qed.

Lemma rd_copy_up m d s n x :
  d ≤ s ∨ s + Z.of_nat n ≤ d →
  rd (copy_up m d s n) x =
    if decide (d ≤ x < d + Z.of_nat n) then rd m (s + (x - d)) else rd m x.
Proof.
  revert m d s. induction n as [|n IH]; intros m d s Hov; cbn [copy_up].
  - case_decide; [lia|done].
  - rewrite IH by lia. rewrite !rd_wr.
    repeat case_decide; subst; rewrite ?Z.sub_diag, ?Z.add_0_r; try lia; auto.
    f_equal. lia.
Qed.

Lemma rd_copy_down m d s n x :
  s ≤ d ∨ d ≤ s - Z.of_nat n →
  rd (copy_down m d s n) x =
    if decide (d - Z.of_nat n ≤ x < d) then rd m (s + (x - d)) else rd m x.
Proof.
  revert m d s. induction n as [|n IH]; intros m d s Hov; cbn [copy_down].
  - case_decide; [lia|done].
  - rewrite IH by lia. rewrite !rd_wr.
    repeat case_decide; subst; try lia; auto; f_equal; lia.
Qed.

(** [memset] stores the byte [c] at every address of [dst .. dst+n) and
    nowhere else, on the 32-bit path ([stosl]) and on the byte path alike. *)
Lemma memset_spec m dst c n x :
  0 ≤ n →
  rd (memset m dst c n) x =
    if decide (dst ≤ x < dst + n) then u8 c else rd m x.
Proof.
  intros Hn. unfold memset. destruct (andb _ _) eqn:E.
  - apply andb_true_iff in E as [_ E]. apply Z.eqb_eq in E.
    assert (Hc : Z.land c 255 = u8 c) by (apply (land_low c 8); lia).
    rewrite Hc. pose proof (u8_bound c).
    rewrite (rd_stosl _ _ _ (u8 c)).
    + rewrite Z2Nat.id by (apply Z.div_pos; lia).
      assert (4 * (n / 4) = n) as -> by (rewrite (Z.div_mod n 4) at 2; lia). done.
    + rewrite <- (memset_word (u8 c) 0) at 5; [|done|lia]. by rewrite Z.shiftr_0_r.
    + apply memset_word; [done|lia].
    + apply memset_word; [done|lia].
    + apply memset_word; [done|lia].
  - rewrite rd_stosb. by rewrite Z2Nat.id by lia.
Qed.

Lemma rd_memmove m dst src n x :
  0 ≤ n →
  rd (memmove m dst src n) x =
    if decide (dst ≤ x < dst + n) then rd m (src + (x - dst)) else rd m x.
Proof.
  intros Hn. unfold memmove.
  destruct (Z.ltb_spec src dst), (Z.ltb_spec dst (src + n)); simpl;
    rewrite ?rd_copy_up, ?rd_copy_down by lia; rewrite ?Z2Nat.id by lia; try done.
  rewrite Z.add_simpl_r. case_decide; [|done]. f_equal. lia.
Qed.

(** After a copy of [n] bytes from [src] in [m] to [dst], [m'] holds the bytes
    there and is unchanged elsewhere. *)
Definition copied (m m' : mem) (dst src n : Z) : Prop :=
  rd_bytes m' dst (Z.to_nat n) = rd_bytes m src (Z.to_nat n) ∧
  ∀ x, ¬ (dst ≤ x < dst + n) → rd m' x = rd m x.

(** [memmove] copies the bytes that were at [src] before the call, for every
    overlap of the two ranges, and touches nothing else. *)
Theorem memmove_spec m dst src n : 0 ≤ n → copied m (memmove m dst src n) dst src n.
Proof.
  intros Hn. split.
  - apply list_eq. intros i. destruct (decide (i < Z.to_nat n)%nat).
    + rewrite !lookup_rd_bytes, rd_memmove, decide_True by lia. do 2 f_equal. lia.
    + rewrite !lookup_ge_None_2; rewrite ?length_rd_bytes; try done; lia.
  - intros x Hx. by rewrite rd_memmove, decide_False.
Qed.

Lemma memmove_spec_witness : copied {[0 := 65; 1 := 66]} (memmove {[0 := 65; 1 := 66]} 1 0 2) 1 0 2.
Proof. apply (memmove_spec {[0 := 65; 1 := 66]} 1 0 2). lia. Defined.

Lemma aligned_start_spec src :
  0 ≤ src < 2 ^ 64 - 4 →
  src ≤ aligned_start src < src + 4 ∧ aligned_start src mod 4 = 0.
Proof.
  intros Hs. unfold aligned_start. rewrite u64_small by lia.
  change (u64 (Z.lnot (4 - 1))) with (2 ^ 64 - 2 ^ 2).
  rewrite land_mask64 by lia. change (2 ^ 2) with 4.
  pose proof (Z.div_mod (src + 4 - 1) 4). pose proof (Z.mod_pos_bound (src + 4 - 1) 4).
  split; [lia|apply Z.mod_mul; lia].
Qed.

Lemma copy_up_add m d s n1 n2 :
  copy_up m d s (n1 + n2) =
    copy_up (copy_up m d s n1) (d + Z.of_nat n1) (s + Z.of_nat n1) n2.
Proof.
  revert m d s. induction n1 as [|n1 IH]; intros m d s; cbn [copy_up Nat.add].
  - by rewrite !Z.add_0_r.
  - rewrite IH. f_equal; lia.
Qed.

Lemma rep_movsd_copy_up m d s c :
  d + 4 * Z.of_nat c ≤ s ∨ s + 4 * Z.of_nat c ≤ d →
  rep_movsd m d s c = copy_up m d s (4 * c).
Proof.
  revert m d s. induction c as [|c IH]; intros m d s Hov; [done|].
  cbn [rep_movsd]. rewrite IH by lia.
  replace (4 * S c)%nat with (4 + 4 * c)%nat by lia. rewrite copy_up_add.
  f_equal. unfold movsd. cbn [copy_up].
  rewrite !rd_wr_ne by lia.
  replace (d + 1 + 1) with (d + 2) by lia. replace (s + 1 + 1) with (s + 2) by lia.
  replace (d + 2 + 1) with (d + 3) by lia. replace (s + 2 + 1) with (s + 3) by lia.
  done.
Qed.

Lemma memcpy_fast_eq m dst src n :
  0 ≤ src → 0 ≤ n → src + n < 2 ^ 64 - 4 →
  aligned_start src - src ≤ n →
  dst + n ≤ src ∨ src + n ≤ dst →
  memcpy_fast m dst src n = memcpy m dst src n.
Proof.
  intros Hs Hn0 Hn Hal Hov.
  destruct (aligned_start_spec src) as [Ha _]; [lia|].
  set (k := aligned_start src - src) in *.
  assert (Hc : movsd_count src n = (n - k) / 4).
  { unfold movsd_count. replace (Z.max src (aligned_start src)) with (src + k) by lia.
    rewrite Z.shiftr_div_pow2 by lia. change (2 ^ 2) with 4.
    replace (src + n - (src + k)) with (n - k) by lia.
    apply u64_small. split; [apply Z.div_pos; lia|].
    apply Z.le_lt_trans with (n - k); [apply Z.div_le_upper_bound; lia|lia]. }
  pose proof (Z.div_mod (n - k) 4 ltac:(lia)) as Hdm.
  pose proof (Z.mod_pos_bound (n - k) 4 ltac:(lia)).
  assert (0 ≤ (n - k) / 4) by (apply Z.div_pos; lia).
  unfold memcpy_fast, memcpy, memmove. rewrite Hc, Z.max_r by lia. fold k.
  replace (andb _ _) with false.
  2:{ symmetry. apply andb_false_iff. destruct Hov; [left|right]; apply Z.ltb_ge; lia. }
  rewrite rep_movsd_copy_up by lia.
  replace (Z.to_nat n) with (Z.to_nat k + (4 * Z.to_nat ((n - k) / 4) +
    Z.to_nat (src + n - (src + k + 4 * ((n - k) / 4)))))%nat by lia.
  rewrite !copy_up_add. f_equal; [|lia|lia].
  f_equal; lia.
Qed.

(** The optimised [memcpy_fast] computes the same memory as [memcpy] on
    disjoint ranges, provided the copy reaches the first 4-byte boundary at or
    after [src]. *)
Theorem memcpy_fast_memcpy m dst src n :
  0 ≤ src → 0 ≤ n → src + n < 2 ^ 64 - 4 → aligned_start src - src ≤ n →
  dst + n ≤ src ∨ src + n ≤ dst →
  memcpy_fast m dst src n = memcpy m dst src n ∧
  ∀ x, rd (memcpy_fast m dst src n) x =
    if decide (dst ≤ x < dst + n) then rd m (src + (x - dst)) else rd m x.
Proof.
  intros. rewrite memcpy_fast_eq by done. split; [done|]. intros x. by apply rd_memmove.
Qed.

Lemma memcpy_fast_memcpy_witness :
  memcpy_fast {[5 := 65]} 100 5 11 = memcpy {[5 := 65]} 100 5 11 ∧
  ∀ x, rd (memcpy_fast {[5 := 65]} 100 5 11) x =
    if decide (100 ≤ x < 100 + 11) then rd {[5 := 65]} (5 + (x - 100)) else rd {[5 := 65]} x.
Proof. apply memcpy_fast_memcpy; try lia; vm_compute; congruence. Defined.

(** Below that bound the routine runs away: the byte loop alone passes the
    end of the buffer and the negative remainder becomes a [rep movsd] count of
    [2 ^ 64 - 1]. *)
Theorem memcpy_fast_short_overrun src n :
  0 ≤ src < 2 ^ 64 - 4 → 0 ≤ n < aligned_start src - src →
  movsd_count src n = 2 ^ 64 - 1.
Proof.
  intros Hs Hn. destruct (aligned_start_spec src) as [Ha _]; [lia|].
  unfold movsd_count. rewrite Z.max_r, Z.shiftr_div_pow2 by lia. change (2 ^ 2) with 4.
  replace (_ / 4) with (-1); [done|].
  apply (Z.div_unique_pos _ 4 _ (src + n - aligned_start src + 4)); lia.
Qed.

Lemma memcpy_fast_short_overrun_witness : movsd_count 5 2 = 2 ^ 64 - 1.
Proof. apply memcpy_fast_short_overrun; [lia|]. split; [lia|]. vm_compute. reflexivity. Defined.

Lemma strncmp_refines m p q n :
  strncmp m p q n = strncmp_list (rd_bytes m p (Z.to_nat n)) (rd_bytes m q (Z.to_nat n)) (Z.to_nat n).
Proof.
  unfold strncmp. generalize (Z.to_nat n). clear n. intros n. revert p q.
  induction n as [|n IH]; intros p q; [done|].
  cbn [strncmp_loop strncmp_list rd_bytes head tail default]. simpl.
  by rewrite IH.
Qed.

Lemma strncmp_list_eq p q n :
  Forall (λ c, 0 ≤ c < 2 ^ 8) p → Forall (λ c, 0 ≤ c < 2 ^ 8) q →
  strncmp_list p q n = 0 ↔ cstr p n = cstr q n.
Proof.
  revert p q. induction n as [|n IH]; intros p q Hp Hq; [done|].
  assert (U : ∀ c, 0 ≤ c < 2 ^ 8 → u8 c = c) by (intros; apply Z.mod_small; lia).
  destruct p as [|a p], q as [|b q]; cbn [strncmp_list cstr head tail default];
    simpl; repeat match goal with H : Forall _ (_ :: _) |- _ => apply Forall_cons in H as [? ?] end;
    rewrite ?U by done.
  - done.
  - destruct (Z.eqb_spec b 0); simpl; split; intros; try done; lia.
  - destruct (Z.eqb_spec a 0); simpl; [split; intros; try done; lia|].
    rewrite ?U by done. split; intros; try done; lia.
  - destruct (Z.eqb_spec a 0), (Z.eqb_spec b 0); simpl; subst.
    + done.
    + rewrite ?U by done. split; intros; try done; lia.
    + destruct (Z.eqb_spec a 0); [lia|]. simpl. rewrite ?U by done. split; intros; try done; lia.
    + destruct (Z.eqb_spec a b); simpl; subst.
      * rewrite IH by done. split; congruence.
      * split; [lia|congruence].
Qed.

Lemma length_strncpy_list t n : length (strncpy_list t n) = n.
Proof.
  revert t. induction n as [|n IH]; intros t; [done|].
  cbn [strncpy_list]. destruct (_ =? 0); [apply length_replicate|].
  simpl. by rewrite IH.
Qed.

Lemma cstr_replicate_0 n k : cstr (replicate k 0) n = [].
Proof. by destruct n, k. Qed.

(** [strncpy] keeps the C string it copies. *)
Lemma cstr_strncpy_list t n : cstr (strncpy_list t n) n = cstr t n.
Proof.
  revert t. induction n as [|n IH]; intros t; [done|].
  destruct t as [|c t]; cbn [strncpy_list head tail default cstr]; simpl.
  - done.
  - destruct (Z.eqb_spec c 0); simpl; subst; [done|].
    destruct (Z.eqb_spec c 0); [done|]. by rewrite IH.
Qed.

Lemma rd_zero_fill m s n x :
  rd (zero_fill m s n) x = if decide (s ≤ x < s + Z.of_nat n) then 0 else rd m x.
Proof.
  revert m s. induction n as [|n IH]; intros m s; cbn [zero_fill].
  - case_decide; [lia|done].
  - rewrite IH, rd_wr. repeat case_decide; auto; lia.
Qed.

Lemma rd_strncpy_loop m s t n x :
  t + Z.of_nat n ≤ s ∨ s + Z.of_nat n ≤ t →
  rd (strncpy_loop m s t n) x =
    if decide (s ≤ x < s + Z.of_nat n)
    then strncpy_list (rd_bytes m t n) n !!! Z.to_nat (x - s) else rd m x.
Proof.
  revert m s t. induction n as [|n IH]; intros m s t Hov.
  { cbn. case_decide; [lia|done]. }
  cbn [strncpy_loop rd_bytes strncpy_list head tail default]. simpl.
  destruct (Z.eqb_spec (rd m t) 0) as [E|E].
  - rewrite rd_zero_fill, rd_wr, E. change (0 :: replicate n 0) with (replicate (S n) 0).
    repeat case_decide; try lia; auto;
      rewrite lookup_total_replicate_2 by lia; done.
  - rewrite IH by lia. rewrite rd_wr.
    rewrite (rd_bytes_ext (wr m s (rd m t)) m) by (intros; rewrite rd_wr_ne by lia; done).
    repeat case_decide; try lia; auto.
    + replace (Z.to_nat (x - s)) with (S (Z.to_nat (x - (s + 1)))) by lia. done.
    + subst. by rewrite Z.sub_diag.
Qed.

(** The array [strncpy] fills holds [strncpy_list] of the source bytes. *)
Lemma strncpy_refines m s t n :
  0 ≤ n → t + n ≤ s ∨ s + n ≤ t →
  rd_bytes (strncpy m s t n) s (Z.to_nat n) =
    strncpy_list (rd_bytes m t (Z.to_nat n)) (Z.to_nat n).
Proof.
  intros Hn Hov. apply list_eq. intros i.
  destruct (decide (i < Z.to_nat n)%nat) as [Hi|Hi].
  - rewrite lookup_rd_bytes by done. unfold strncpy.
    rewrite rd_strncpy_loop by lia. case_decide; [|lia].
    replace (Z.to_nat (s + Z.of_nat i - s)) with i by lia.
    symmetry. apply list_lookup_lookup_total_lt. by rewrite length_strncpy_list.
  - rewrite !lookup_ge_None_2; rewrite ?length_strncpy_list, ?length_rd_bytes; try done; lia.
Qed.

Lemma strlen_loop_first m s n k fuel :
  rd m (s + n + Z.of_nat k) = 0 →
  (∀ i, 0 ≤ i < Z.of_nat k → rd m (s + n + i) ≠ 0) →
  (k < fuel)%nat →
  strlen_loop m s n fuel = Some (n + Z.of_nat k).
Proof.
  revert n fuel. induction k as [|k IH]; intros n [|fuel] H0 Hn Hf; try lia; cbn [strlen_loop].
  - rewrite Z.add_0_r in H0. rewrite H0. simpl. f_equal. lia.
  - destruct (Z.eqb_spec (rd m (s + n)) 0) as [E|E].
    { destruct (Hn 0); [lia|]. by rewrite Z.add_0_r. }
    rewrite IH; [f_equal; lia| | |lia].
    + rewrite <- H0. f_equal. lia.
    + intros i Hi. replace (s + (n + 1) + i) with (s + n + (i + 1)) by lia. apply Hn. lia.
Qed.

(** [strlen] returns the distance to the first NUL as soon as the fuel exceeds it. *)
Lemma strlen_first m s k fuel :
  rd m (s + Z.of_nat k) = 0 → (∀ i, 0 ≤ i < Z.of_nat k → rd m (s + i) ≠ 0) →
  (k < fuel)%nat → strlen m s fuel = Some (Z.of_nat k).
Proof.
  intros H0 Hn Hf. unfold strlen.
  rewrite (strlen_loop_first m s 0 k) by (rewrite ?Z.add_0_r; auto). done.
Qed.

(** [safestrcpy] writes only inside its [n] bytes and leaves a NUL there. *)
Theorem safestrcpy_terminates m s t n :
  0 < n →
  (∃ k, 0 ≤ k < n ∧ rd (safestrcpy m s t n) (s + k) = 0) ∧
  (∀ x, x < s ∨ s + n ≤ x → rd (safestrcpy m s t n) x = rd m x).
Proof.
  intros Hn. unfold safestrcpy. destruct (Z.leb_spec n 0); [lia|].
  assert (∀ k m s t,
    (∃ j, 0 ≤ j ≤ Z.of_nat k ∧ rd (safestrcpy_loop m s t k) (s + j) = 0) ∧
    (∀ x, x < s ∨ s + Z.of_nat k < x → rd (safestrcpy_loop m s t k) x = rd m x)) as L.
  { clear. induction k as [|k IH]; intros m s t; cbn [safestrcpy_loop].
    - split; [exists 0; split; [lia|rewrite Z.add_0_r; apply rd_wr_eq]|].
      intros. apply rd_wr_ne. lia.
    - destruct (rd m t =? 0).
      + split; [exists 1; split; [lia|apply rd_wr_eq]|]. intros. by rewrite !rd_wr_ne by lia.
      + destruct (IH (wr m s (rd m t)) (s + 1) (t + 1)) as [(j&Hj&E) Hf]. split.
        * exists (1 + j). split; [lia|]. by rewrite Z.add_assoc.
        * intros. rewrite Hf by lia. rewrite rd_wr_ne by lia. done. }
  destruct (L (Z.to_nat (n - 1)) m s t) as [(j&Hj&E) Hf]. split.
  - exists j. split; [lia|done].
  - intros. apply Hf. lia.
Qed.

Lemma safestrcpy_terminates_witness :
  (∃ k, 0 ≤ k < 3 ∧ rd (safestrcpy {[0 := 65; 1 := 66; 2 := 67; 3 := 68]} 100 0 3) (100 + k) = 0) ∧
  (∀ x, x < 100 ∨ 100 + 3 ≤ x →
    rd (safestrcpy {[0 := 65; 1 := 66; 2 := 67; 3 := 68]} 100 0 3) x = rd {[0 := 65; 1 := 66; 2 := 67; 3 := 68]} x).
Proof. apply safestrcpy_terminates. lia. Defined.

Definition byte_mem (m : mem) : Prop := ∀ x, 0 ≤ rd m x < 2 ^ 8.

Lemma rd_bytes_range m a n : byte_mem m → Forall (λ c, 0 ≤ c < 2 ^ 8) (rd_bytes m a n).
Proof. intros H. revert a. induction n; intros a; simpl; constructor; auto. Qed.

(** A name that [strncpy] has put into a fixed-size field compares equal under
    [strncmp] to exactly the strings that agree with the original in their first
    [n] characters: what dirlink stores is what dirlookup finds. *)
Theorem strncpy_strncmp m s t q n :
  0 ≤ n → t + n ≤ s ∨ s + n ≤ t → q + n ≤ s ∨ s + n ≤ q → byte_mem m → byte_mem (strncpy m s t n) →
  strncmp (strncpy m s t n) s q n = 0 ↔
  cstr (rd_bytes m t (Z.to_nat n)) (Z.to_nat n) = cstr (rd_bytes m q (Z.to_nat n)) (Z.to_nat n).
Proof.
  intros Hn Ht Hq Hm Hm'. rewrite strncmp_refines, strncmp_list_eq by (by apply rd_bytes_range).
  rewrite strncpy_refines, cstr_strncpy_list by done.
  rewrite (rd_bytes_ext (strncpy m s t n) m q); [done|]. intros x Hx. unfold strncpy.
  rewrite rd_strncpy_loop by lia. rewrite decide_False by lia. done.
Qed.

Lemma strncpy_strncmp_witness :
  strncmp (strncpy ∅ 100 0 14) 100 50 14 = 0 ↔ cstr (rd_bytes ∅ 0 14) 14 = cstr (rd_bytes ∅ 50 14) 14.
Proof.
  apply (strncpy_strncmp ∅ 100 0 50 14); [lia|lia|lia|by intros x|].
  intros x. unfold strncpy. rewrite rd_strncpy_loop by lia. case_decide as Hx; [|done].
  change (strncpy_list _ _) with (replicate 14 0). rewrite lookup_total_replicate_2 by lia. lia.
Defined.
End specs.
