(* ===== verification/Bytes.v ===== *)
(** Integers and structs inside byte arrays: little-endian fields of a block
    or a page, read and written at an offset, with the round trips the file
    system's on-disk formats rest on. *)

From stdpp Require Import base list strings.
From Stdlib Require Import Ascii String ZArith Lia.
From stdpp Require Import base list.
From S2P Require Import Prelude.

(** * Little-endian integers *)

Fixpoint le_bytes (n : nat) (v : Z) : list Z :=
  match n with
  | O => []
  | S n => v mod 256 :: le_bytes n (v / 256)
  end.

Fixpoint le_val (l : list Z) : Z :=
  match l with
  | [] => 0
  | b :: l => b + 256 * le_val l
  end.

(** * String literals *)

Definition str (s : string) : list Z := (λ c, Z.of_nat (nat_of_ascii c)) <$> list_ascii_of_string s.

(** * Fields of a byte array *)

Definition slice (off n : nat) (l : list Z) : list Z := take n (drop off l).
Definition splice (off : nat) (bs l : list Z) : list Z := list_inserts off bs l.

Definition get16 (l : list Z) (off : Z) : Z := le_val (slice (Z.to_nat off) 2 l).
Definition get32 (l : list Z) (off : Z) : Z := le_val (slice (Z.to_nat off) 4 l).
Definition get64 (l : list Z) (off : Z) : Z := le_val (slice (Z.to_nat off) 8 l).
Definition put16 (off v : Z) (l : list Z) : list Z := splice (Z.to_nat off) (le_bytes 2 v) l.
Definition put32 (off v : Z) (l : list Z) : list Z := splice (Z.to_nat off) (le_bytes 4 v) l.

Section facts.
Implicit Types (l bs : list Z) (v : Z).

Lemma length_le_bytes n v : length (le_bytes n v) = n.
Proof. revert v. induction n; simpl; auto. Qed.

Lemma le_val_bytes n v : le_val (le_bytes n v) = v mod 2 ^ (8 * Z.of_nat n).
Proof.
  revert v. induction n as [|n IH]; intros v; [by rewrite Z.mod_1_r|].
  cbn [le_bytes le_val]. rewrite IH.
  replace (8 * Z.of_nat (S n)) with (8 + 8 * Z.of_nat n) by lia.
  rewrite Z.pow_add_r by lia. change (2 ^ 8) with 256.
  assert (0 < 2 ^ (8 * Z.of_nat n)) by (apply Z.pow_pos_nonneg; lia).
  rewrite Z.rem_mul_r by lia. lia.
Qed.

Lemma le_val_bound l : Forall (λ b, 0 ≤ b < 256) l → 0 ≤ le_val l < 2 ^ (8 * Z.of_nat (length l)).
Proof.
  induction 1 as [|b l Hb Hl IH]; [simpl; lia|]. cbn [le_val length].
  replace (8 * Z.of_nat (S (length l))) with (8 + 8 * Z.of_nat (length l)) by lia.
  rewrite Z.pow_add_r by lia. change (2 ^ 8) with 256. nia.
Qed.

Lemma le_bytes_val l : Forall (λ b, 0 ≤ b < 256) l → le_bytes (length l) (le_val l) = l.
Proof.
  induction 1 as [|b l Hb Hl IH]; [done|]. cbn [le_val length le_bytes].
  rewrite Z.mul_comm, Z.mod_add, Z.mod_small by lia. f_equal.
  rewrite Z.div_add by lia. by rewrite Z.div_small by lia.
Qed.

Lemma length_splice off bs l : length (splice off bs l) = length l.
Proof. apply length_inserts. Qed.

Lemma slice_splice_eq off bs l :
  (off + length bs ≤ length l)%nat → slice off (length bs) (splice off bs l) = bs.
Proof.
  intros H. apply list_eq_same_length with (length bs); [done| |].
  - unfold slice. rewrite length_take, length_drop, length_splice. lia.
  - intros i x y Hi. unfold slice. rewrite lookup_take_lt, lookup_drop by done.
    unfold splice. rewrite list_lookup_inserts by lia.
    replace (off + i - off)%nat with i by lia. naive_solver.
Qed.

Lemma slice_splice_ne off n off' bs l :
  (off + n ≤ off' ∨ off' + length bs ≤ off)%nat → slice off n (splice off' bs l) = slice off n l.
Proof.
  intros H. unfold slice. apply list_eq. intros i. destruct (decide (i < n)%nat).
  - rewrite !lookup_take_lt, !lookup_drop by done. unfold splice. destruct H.
    + by rewrite list_lookup_inserts_lt by lia.
    + by rewrite list_lookup_inserts_ge by lia.
  - by rewrite !lookup_take_ge by lia.
Qed.

Lemma length_put16 off v l : length (put16 off v l) = length l.
Proof. apply length_splice. Qed.
Lemma length_put32 off v l : length (put32 off v l) = length l.
Proof. apply length_splice. Qed.

Lemma get16_put16 off v l :
  0 ≤ off → off + 2 ≤ Z.of_nat (length l) → get16 (put16 off v l) off = u16 v.
Proof.
  intros. unfold get16, put16. change 2%nat with (length (le_bytes 2 v)) at 1.
  rewrite slice_splice_eq by (rewrite length_le_bytes; lia). by rewrite le_val_bytes.
Qed.
Lemma get32_put32 off v l :
  0 ≤ off → off + 4 ≤ Z.of_nat (length l) → get32 (put32 off v l) off = u32 v.
Proof.
  intros. unfold get32, put32. change 4%nat with (length (le_bytes 4 v)) at 1.
  rewrite slice_splice_eq by (rewrite length_le_bytes; lia). by rewrite le_val_bytes.
Qed.

Lemma get32_put32_ne off off' v l :
  0 ≤ off → 0 ≤ off' → off + 4 ≤ off' ∨ off' + 4 ≤ off → get32 (put32 off' v l) off = get32 l off.
Proof. intros. unfold get32, put32. rewrite slice_splice_ne; [done|]. rewrite length_le_bytes. lia. Qed.
End facts.

Create HintDb bytes.
#[export] Hint Rewrite length_le_bytes length_splice length_put16 length_put32 : bytes.
