(* ===== verification/Sprintf.v ===== *)
(** Formatted output, kernel/sprintf.c.

    Strings are lists of character codes without their NUL. A function returns
    [None] where the C code has no defined result: a conversion that runs past
    its local buffer, a conversion character [read_spec] does not know (the
    type it leaves is uninitialised), or a missing argument. *)

From stdpp Require Import base list sets.
From Stdlib Require Import ZArith Lia.
From S2P Require Import Prelude.

Inductive format_type := CHAR | DECIMAL | HEX | STRING | PERCENT.

Record spec := mkSpec {
  zero_padding : bool;
  width : Z;
  type : option format_type
}.

(** A variadic argument as the caller passed it. *)
Inductive va_arg := VInt (x : Z) | VLong (x : Z) | VStr (s : list Z).

(** The characters copied; the NUL after them is overwritten by the caller. *)
Fixpoint copy_str_loop (n : nat) (src : list Z) : list Z :=
  match n, src with
  | S n, c :: src => if c =? 0 then [] else c :: copy_str_loop n src
  | _, _ => []
  end.
Definition copy_str (src : list Z) : list Z := copy_str_loop 257 src.

(** [for (i = 18; src; i--)]: the digits are stored from the end backwards. *)
Fixpoint long2str_loop (fuel : nat) (src : Z) (buf : list Z) : list Z :=
  match fuel with
  | O => buf
  | S fuel =>
      if src =? 0 then buf
      else long2str_loop fuel (Z.quot src 10) (48 + Z.rem src 10 :: buf)
  end.

(** [for (; last - i < width; i--) buf[i] = c]. *)
Definition pad (w : Z) (zp : bool) (buf : list Z) : list Z :=
  if w =? 0 then buf
  else replicate (Z.to_nat w - length buf) (if zp then 48 else 32) ++ buf.

(** The local buffer has room for [n] characters. *)
Definition fits (n : Z) (buf : list Z) : option (list Z) :=
  if Z.of_nat (length buf) <=? n then Some (copy_str buf) else None.

Definition long2str (src w : Z) (zp : bool) : option (list Z) :=
  let buf := long2str_loop 19 src [] in
  let buf := match buf with [] => [48] | _ => buf end in
  fits 19 (pad w zp buf).

Definition hexdigit (nibble : Z) : Z := if nibble <? 10 then nibble + 48 else nibble - 10 + 97.

Fixpoint ulong2hexstr_loop (fuel : nat) (src : Z) (buf : list Z) : list Z :=
  match fuel with
  | O => buf
  | S fuel =>
      if src =? 0 then buf
      else ulong2hexstr_loop fuel (Z.shiftr src 4) (hexdigit (Z.land src 15) :: buf)
  end.

Definition ulong2hexstr (src w : Z) (zp : bool) : option (list Z) :=
  let buf := ulong2hexstr_loop 16 src [] in
  let buf := match buf with [] => [48] | _ => buf end in
  fits 16 (pad w zp buf).

Definition is_digit (c : Z) : bool := ((48 <=? c) && (c <=? 57))%bool.

(** The number read and what follows it. *)
Fixpoint str2int_loop (w : Z) (src : list Z) : Z * list Z :=
  match src with
  | c :: src' => if is_digit c then str2int_loop (w * 10 + (c - 48)) src' else (w, src)
  | [] => (w, [])
  end.
Definition str2int (src : list Z) : Z * list Z := str2int_loop 0 src.

(** The specification and what follows it; [None] when the format ends inside
    it and the code reads past the NUL. *)
Definition read_spec (src : list Z) : option (spec * list Z) :=
  let '(zp, src) := match src with 48 :: src' => (true, src') | _ => (false, src) end in
  let '(w, src) :=
    match src with
    | c :: _ => if ((49 <=? c) && (c <=? 57))%bool then str2int src else (0, src)
    | [] => (0, src)
    end in
  match src with
  | [] => None
  | c :: src =>
      let t := if c =? 37 then Some PERCENT
               else if c =? 99 then Some CHAR
               else if c =? 115 then Some STRING
               else if c =? 100 then Some DECIMAL
               else if ((c =? 120) || (c =? 112))%bool then Some HEX
               else None in
      Some (mkSpec zp w t, src)
  end.

(** The text one conversion produces and the arguments left. An unsigned long
    passed for [%d] is read as an int: arguments are passed in 8-byte slots. *)
Definition convert (sp : spec) (args : list va_arg) : option (list Z * list va_arg) :=
  match type sp, args with
  | Some PERCENT, _ => Some ([37], args)
  | Some CHAR, VInt x :: args => Some ([u8 x], args)
  | Some STRING, VStr s :: args => Some (copy_str s, args)
  | Some DECIMAL, (VInt x | VLong x) :: args =>
      out ← long2str (s32 x) (width sp) (zero_padding sp); Some (out, args)
  | Some HEX, VLong x :: args =>
      out ← ulong2hexstr (u64 x) (width sp) (zero_padding sp); Some (out, args)
  | _, _ => None
  end.

Fixpoint vsprintf_loop (fuel : nat) (fmt : list Z) (args : list va_arg) : option (list Z) :=
  match fuel with
  | O => None
  | S fuel =>
      match fmt with
      | [] => Some []
      | c :: fmt =>
          if negb (c =? 37) then out ← vsprintf_loop fuel fmt args; Some (c :: out)
          else
            r ← read_spec fmt;
            let '(sp, fmt) := r in
            cv ← convert sp args;
            let '(s, args) := cv in
            out ← vsprintf_loop fuel fmt args;
            Some (s ++ out)
      end
  end.

(** A round consumes at least one character of the format. *)
Definition vsprintf (fmt : list Z) (args : list va_arg) : option (list Z) :=
  vsprintf_loop (S (length fmt)) fmt args.

(** * What the conversions print *)

Definition dec_val (l : list Z) : Z := foldl (λ a c, a * 10 + (c - 48)) 0 l.
Definition hexval (c : Z) : Z := if c <? 58 then c - 48 else c - 87.
Definition hex_val (l : list Z) : Z := foldl (λ a c, a * 16 + hexval c) 0 l.
Definition is_hexdigit (c : Z) : bool := (is_digit c || ((97 <=? c) && (c <=? 102)))%bool.

(** [digits] is the canonical numeral of [x]: its value, valid digits, and no
    leading zero. *)
Definition numeral (val : list Z → Z) (valid : Z → bool) (x : Z) (digits : list Z) : Prop :=
  val digits = x ∧ Forall (λ c, valid c = true) digits ∧ digits ≠ [] ∧
  (0 < x → head digits ≠ Some 48).

Section conversions.
Implicit Types (x w : Z) (buf : list Z).

Lemma long2str_loop_spec fuel x buf :
  0 ≤ x < 10 ^ Z.of_nat fuel →
  ∃ ds, long2str_loop fuel x buf = ds ++ buf ∧ dec_val ds = x ∧
    Forall (λ c, is_digit c = true) ds ∧ (length ds ≤ fuel)%nat ∧ (ds = [] ↔ x = 0) ∧
    (0 < x → head ds ≠ Some 48).
Proof.
  revert x buf. induction fuel as [|fuel IH]; intros x buf Hx.
  - simpl in Hx. assert (x = 0) as -> by lia. exists []. split_and!; done || (simpl; lia).
  - simpl long2str_loop. destruct (Z.eqb_spec x 0) as [->|Hne].
    { exists []. split_and!; done || (simpl; lia). }
    rewrite Z.quot_div_nonneg, Z.rem_mod_nonneg by lia.
    rewrite Nat2Z.inj_succ, Z.pow_succ_r in Hx by lia.
    destruct (IH (x / 10) (48 + x mod 10 :: buf)) as (ds&E&Hv&Hd&Hl&H0&Hh).
    { split; [apply Z.div_pos; lia|apply Z.div_lt_upper_bound; lia]. }
    pose proof (Z.mod_pos_bound x 10 ltac:(lia)). pose proof (Z.div_mod x 10 ltac:(lia)).
    exists (ds ++ [48 + x mod 10]). rewrite E, <- app_assoc. split_and!; try done.
    + unfold dec_val in *. rewrite foldl_app. simpl. lia.
    + apply Forall_app. split; [done|]. repeat constructor. unfold is_digit.
      apply andb_true_iff. split; apply Z.leb_le; lia.
    + rewrite length_app. simpl. lia.
    + split; intros; [by destruct ds|lia].
    + intros _. destruct ds as [|c ds]; simpl; [|apply Hh].
      * intros [=]. assert (x / 10 = 0) by (by apply H0). lia.
      * destruct (decide (0 < x / 10)); [done|]. assert (x / 10 = 0) as Ez by lia.
        apply H0 in Ez. done.
Qed.

Lemma hexdigit_spec n : 0 ≤ n < 16 → is_hexdigit (hexdigit n) = true ∧ hexval (hexdigit n) = n ∧
  (hexdigit n = 48 → n = 0).
Proof.
  intros Hn. unfold is_hexdigit, is_digit, hexdigit, hexval. destruct (Z.ltb_spec n 10).
  - rewrite (proj2 (Z.ltb_lt _ _)) by lia. rewrite !(proj2 (Z.leb_le _ _)) by lia. simpl. lia.
  - rewrite (proj2 (Z.ltb_ge _ _)) by lia. rewrite orb_true_iff, !andb_true_iff, !Z.leb_le. lia.
Qed.

Lemma ulong2hexstr_loop_spec fuel x buf :
  0 ≤ x < 16 ^ Z.of_nat fuel →
  ∃ ds, ulong2hexstr_loop fuel x buf = ds ++ buf ∧ hex_val ds = x ∧
    Forall (λ c, is_hexdigit c = true) ds ∧ (length ds ≤ fuel)%nat ∧ (ds = [] ↔ x = 0) ∧
    (0 < x → head ds ≠ Some 48).
Proof.
  revert x buf. induction fuel as [|fuel IH]; intros x buf Hx.
  - simpl in Hx. assert (x = 0) as -> by lia. exists []. split_and!; done || (simpl; lia).
  - simpl ulong2hexstr_loop. destruct (Z.eqb_spec x 0) as [->|Hne].
    { exists []. split_and!; done || (simpl; lia). }
    rewrite Z.shiftr_div_pow2 by lia. change (2 ^ 4) with 16.
    change 15 with (Z.ones 4). rewrite Z.land_ones by lia. change (2 ^ 4) with 16.
    rewrite Nat2Z.inj_succ, Z.pow_succ_r in Hx by lia.
    destruct (IH (x / 16) (hexdigit (x mod 16) :: buf)) as (ds&E&Hv&Hd&Hl&H0&Hh).
    { split; [apply Z.div_pos; lia|apply Z.div_lt_upper_bound; lia]. }
    pose proof (Z.mod_pos_bound x 16 ltac:(lia)) as Hm. pose proof (Z.div_mod x 16 ltac:(lia)).
    destruct (hexdigit_spec _ Hm) as (Hd1&Hd2&Hd3).
    exists (ds ++ [hexdigit (x mod 16)]). rewrite E, <- app_assoc. split_and!; try done.
    + unfold hex_val in *. rewrite foldl_app. simpl. lia.
    + apply Forall_app. split; [done|]. by repeat constructor.
    + rewrite length_app. simpl. lia.
    + split; intros; [by destruct ds|lia].
    + intros _. destruct ds as [|c ds]; simpl; [|apply Hh].
      * intros [= E']. apply Hd3 in E'. assert (x / 16 = 0) by (by apply H0). lia.
      * destruct (decide (0 < x / 16)); [done|]. assert (x / 16 = 0) as Ez by lia.
        apply H0 in Ez. done.
Qed.

Lemma copy_str_id l : (length l ≤ 257)%nat → 0 ∉ l → copy_str l = l.
Proof.
  unfold copy_str. generalize 257%nat as n. induction l as [|c l IH]; intros [|n] Hn H0; simpl in *; try done; try lia.
  destruct (Z.eqb_spec c 0); [set_solver|]. rewrite IH; [done|lia|set_solver].
Qed.

Definition padding w (zp : bool) (ds : list Z) : list Z :=
  replicate (Z.to_nat w - length ds) (if zp then 48 else 32).

Lemma pad_fits n w zp ds :
  0 ≤ w ≤ n → n ≤ 100 → Z.of_nat (length ds) ≤ n → 0 ∉ ds →
  fits n (pad w zp ds) = Some (padding w zp ds ++ ds).
Proof.
  intros Hw Hn Hl H0. unfold fits, pad, padding.
  assert (E : (if w =? 0 then ds else replicate (Z.to_nat w - length ds) (if zp then 48 else 32) ++ ds) =
              replicate (Z.to_nat w - length ds) (if zp then 48 else 32) ++ ds).
  { destruct (Z.eqb_spec w 0) as [->|]; done. }
  rewrite E, length_app, length_replicate. rewrite (proj2 (Z.leb_le _ _)) by lia.
  rewrite copy_str_id; [done|rewrite length_app, length_replicate; lia|].
  rewrite not_elem_of_app. split; [|done]. intros Hin%elem_of_replicate. by destruct zp, Hin.
Qed.

(** The conversions share this shape: the digits, "0" if there are none. *)
Lemma nonempty_digits val valid x ds :
  val ds = x → val [48] = 0 → valid 48 = true → Forall (λ c, valid c = true) ds →
  (ds = [] ↔ x = 0) → (0 < x → head ds ≠ Some 48) →
  numeral val valid x (match ds with [] => [48] | _ => ds end).
Proof.
  intros Hv H0 Hz Hd He Hh. destruct ds as [|c ds].
  - assert (x = 0) as -> by (by apply He). split_and!; try done; by repeat constructor.
  - by split_and!.
Qed.

Lemma valid_nonzero (valid : Z → bool) ds :
  valid 0 = false → Forall (λ c, valid c = true) ds → 0 ∉ ds.
Proof. intros Hz Hd Hin. rewrite Forall_forall in Hd. specialize (Hd _ Hin). congruence. Qed.

(** [long2str] of a non-negative long prints its decimal numeral, without
    leading zeros, padded on the left with blanks or zeros to the width, for
    every width its buffer has room for. *)
Theorem long2str_spec x w zp :
  0 ≤ x < 2 ^ 63 → 0 ≤ w ≤ 19 →
  ∃ ds, long2str x w zp = Some (padding w zp ds ++ ds) ∧ numeral dec_val is_digit x ds.
Proof.
  intros Hx Hw. destruct (long2str_loop_spec 19 x []) as (ds&E&Hv&Hd&Hl&He&Hh).
  { change (10 ^ Z.of_nat 19) with 10000000000000000000. lia. }
  exists (match ds with [] => [48] | _ => ds end).
  assert (numeral dec_val is_digit x (match ds with [] => [48] | _ => ds end)) as Hn
    by (by apply nonempty_digits).
  split; [|done]. unfold long2str. rewrite E, app_nil_r. apply pad_fits; [lia|lia| |].
  - clear E. destruct ds; cbn [length] in *; lia.
  - destruct Hn as (_&Hd'&_). by apply (valid_nonzero is_digit).
Qed.

(** [ulong2hexstr] prints the hexadecimal numeral of any unsigned long,
    without leading zeros, padded to the width. *)
Theorem ulong2hexstr_spec x w zp :
  0 ≤ x < 2 ^ 64 → 0 ≤ w ≤ 16 →
  ∃ ds, ulong2hexstr x w zp = Some (padding w zp ds ++ ds) ∧ numeral hex_val is_hexdigit x ds.
Proof.
  intros Hx Hw. destruct (ulong2hexstr_loop_spec 16 x []) as (ds&E&Hv&Hd&Hl&He&Hh).
  { change (16 ^ Z.of_nat 16) with 18446744073709551616. lia. }
  exists (match ds with [] => [48] | _ => ds end).
  assert (numeral hex_val is_hexdigit x (match ds with [] => [48] | _ => ds end)) as Hn
    by (by apply nonempty_digits).
  split; [|done]. unfold ulong2hexstr. rewrite E, app_nil_r. apply pad_fits; [lia|lia| |].
  - clear E. destruct ds; cbn [length] in *; lia.
  - destruct Hn as (_&Hd'&_). by apply (valid_nonzero is_hexdigit).
Qed.

(** A negative number is printed wrong: every digit comes out as a
    character below '0', because the C remainder is negative, and there is no
    sign. *)
Theorem long2str_negative x :
  - 10 < x < 0 → long2str x 0 false = Some [48 + x] ∧ 48 + x < 48.
Proof.
  intros Hx. split; [|lia]. unfold long2str. cbn [long2str_loop].
  rewrite (proj2 (Z.eqb_neq _ _)) by lia.
  assert (Z.quot x 10 = 0 ∧ Z.rem x 10 = x) as [-> ->].
  { replace x with (- (- x)) by lia. rewrite Z.quot_opp_l, Z.rem_opp_l by lia.
    rewrite Z.quot_small, Z.rem_small by lia. lia. }
  simpl. unfold pad, fits. simpl. rewrite copy_str_id; [done|simpl; lia|].
  intros ?%list_elem_of_singleton. lia.
Qed.
End conversions.

Lemma long2str_spec_witness :
  ∃ ds, long2str 1234 6 true = Some (padding 6 true ds ++ ds) ∧ numeral dec_val is_digit 1234 ds.
Proof. apply (long2str_spec 1234 6 true); lia. Defined.

Lemma ulong2hexstr_spec_witness :
  ∃ ds, ulong2hexstr 0xbeef 16 true = Some (padding 16 true ds ++ ds) ∧ numeral hex_val is_hexdigit 0xbeef ds.
Proof. apply (ulong2hexstr_spec 0xbeef 16 true); lia. Defined.

Lemma long2str_negative_witness : long2str (-1) 0 false = Some [47] ∧ 47 < 48.
Proof. apply (long2str_negative (-1)). lia. Defined.

(** * How long the text can get *)

(** A bound on the text of a format, for arguments of these kinds; [None] where
    the code has no defined result. *)
Fixpoint fmt_bound (fuel : nat) (fmt : list Z) (args : list va_arg) : option nat :=
  match fuel with
  | O => None
  | S fuel =>
      match fmt with
      | [] => Some 0%nat
      | c :: fmt =>
          if negb (c =? 37) then n ← fmt_bound fuel fmt args; Some (S n)
          else
            r ← read_spec fmt;
            let '(sp, fmt) := r in
            let next n args := m ← fmt_bound fuel fmt args; Some (n + m)%nat in
            match type sp, args with
            | Some PERCENT, _ => next 1%nat args
            | Some CHAR, VInt _ :: args => next 1%nat args
            | Some STRING, VStr s :: args => next (length s) args
            | Some DECIMAL, (VInt _ | VLong _) :: args => if width sp <=? 19 then next 19%nat args else None
            | Some HEX, VLong _ :: args => if width sp <=? 16 then next 16%nat args else None
            | _, _ => None
            end
      end
  end.

Lemma length_copy_str l : (length (copy_str l) ≤ length l)%nat.
Proof.
  unfold copy_str. generalize 257%nat. induction l as [|c l IH]; intros [|n]; simpl; try lia.
  destruct (c =? 0); simpl; [lia|]. specialize (IH n). lia.
Qed.

Lemma fits_some n w zp buf :
  (0 < length buf ≤ n)%nat → w ≤ Z.of_nat n → ∃ out, fits (Z.of_nat n) (pad w zp buf) = Some out ∧ (length out ≤ n)%nat.
Proof.
  intros Hl Hw. assert (length (pad w zp buf) ≤ n)%nat.
  { unfold pad. destruct (w =? 0); [lia|]. rewrite length_app, length_replicate. lia. }
  unfold fits. rewrite (proj2 (Z.leb_le _ _)) by lia. eexists. split; [done|]. pose proof (length_copy_str (pad w zp buf)). lia.
Qed.

Lemma long2str_some x w zp : w ≤ 19 → ∃ out, long2str x w zp = Some out ∧ (length out ≤ 19)%nat.
Proof.
  intros Hw. assert (H : ∀ n y buf, (length (long2str_loop n y buf) ≤ n + length buf)%nat).
  { induction n as [|n IH]; intros y buf; simpl; [lia|]. destruct (y =? 0); [lia|]. etransitivity; [apply IH|]. simpl. lia. }
  specialize (H 19%nat x []). unfold long2str. apply (fits_some 19); [|lia]. destruct (long2str_loop 19 x []); cbn [length] in *; lia.
Qed.

Lemma ulong2hexstr_some x w zp : w ≤ 16 → ∃ out, ulong2hexstr x w zp = Some out ∧ (length out ≤ 16)%nat.
Proof.
  intros Hw. assert (H : ∀ n y buf, (length (ulong2hexstr_loop n y buf) ≤ n + length buf)%nat).
  { induction n as [|n IH]; intros y buf; simpl; [lia|]. destruct (y =? 0); [lia|]. etransitivity; [apply IH|]. simpl. lia. }
  specialize (H 16%nat x []). unfold ulong2hexstr. apply (fits_some 16); [|lia]. destruct (ulong2hexstr_loop 16 x []); cbn [length] in *; lia.
Qed.

Lemma vsprintf_bound fuel fmt args b :
  fmt_bound fuel fmt args = Some b → ∃ text, vsprintf_loop fuel fmt args = Some text ∧ (length text ≤ b)%nat.
Proof.
  revert fmt args b. induction fuel as [|fuel IH]; intros fmt args b; simpl; [done|].
  destruct fmt as [|c fmt]; [intros [= <-]; exists []; done|]. destruct (c =? 37); simpl.
  - destruct (read_spec fmt) as [[sp fmt']|]; simpl; [|done].
    assert (Hn : ∀ n s args', (length s ≤ n)%nat → (m ← fmt_bound fuel fmt' args'; Some (n + m)%nat) = Some b →
      ∃ text, (out ← vsprintf_loop fuel fmt' args'; Some (s ++ out)) = Some text ∧ (length text ≤ b)%nat).
    { intros n s args' Hs. destruct (fmt_bound fuel fmt' args') as [m|] eqn:Em; simpl; [|done]. intros [= <-].
      destruct (IH _ _ _ Em) as (t & -> & Ht). simpl. eexists. split; [done|]. rewrite length_app. lia. }
    unfold convert. destruct (type sp) as [[]|]; [..|done]; [destruct args as [|[x|x|s] args]; try done; apply (Hn 1%nat [_]); simpl; lia|..].
    + destruct args as [|[x|x|s] args]; try done; (destruct (Z.leb_spec (width sp) 19); [|done]);
        (destruct (long2str_some (s32 x) (width sp) (zero_padding sp)) as (out & -> & Ho); [done|]); simpl; by apply (Hn 19%nat).
    + destruct args as [|[x|x|s] args]; try done. destruct (Z.leb_spec (width sp) 16); [|done].
      destruct (ulong2hexstr_some (u64 x) (width sp) (zero_padding sp)) as (out & -> & Ho); [done|]. simpl. by apply (Hn 16%nat).
    + destruct args as [|[x|x|s] args]; try done. apply Hn, length_copy_str.
    + apply (Hn 1%nat [_]). simpl. lia.
  - destruct (fmt_bound fuel fmt args) as [n|] eqn:En; simpl; [|done]. intros [= <-].
    destruct (IH _ _ _ En) as (t & -> & Ht). simpl. eexists. split; [done|]. simpl. lia.
Qed.
