(* ===== verification/Ring.v ===== *)
(** Ring buffers indexed by free-running 32-bit counters: the shape shared by
    the pipe's [data] and the console's [input]. An element is stored at slot
    [w % N] for the running write counter [w], and the counters wrap at 2^32;
    this works because [N] divides 2^32. *)

From stdpp Require Import base list.
From Stdlib Require Import ZArith Lia.
From S2P Require Import Prelude.

(** What makes [N] a size for which it works. *)
Class RingSize (N : Z) : Prop := {
  ring_pos : 0 < N;
  ring_small : N < 2 ^ 31;
  ring_div : (N | 2 ^ 32)
}.

(** The counters [r] and [w] delimit the elements [q], oldest first. *)
Definition ring_of (N : Z) (data : list Z) (r w : Z) (q : list Z) : Prop :=
  length data = Z.to_nat N ∧ 0 ≤ r < 2 ^ 32 ∧ Z.of_nat (length q) ≤ N ∧ w = u32 (r + Z.of_nat (length q)) ∧
  ∀ k, (k < length q)%nat → q !! k = data !! Z.to_nat ((r + Z.of_nat k) mod N).

Section ring.
Context (N : Z) `{!RingSize N}.
Implicit Types (data q : list Z) (r w c : Z).

(** The counters wrap at a multiple of the size, so slots do not. *)
Lemma slot_u32 x : u32 x mod N = x mod N.
Proof.
  pose proof ring_pos. destruct ring_div as [m E]. unfold u32. rewrite E.
  assert (0 < m) by lia. rewrite (Z.mul_comm m N), Z.rem_mul_r by lia.
  rewrite Z.add_mod, Z.mul_comm, Z.mod_mul, Z.add_0_r, !Z.mod_mod by lia. done.
Qed.

Lemma slot_inj x j k :
  0 ≤ j < N → 0 ≤ k < N → (x + j) mod N = (x + k) mod N → j = k.
Proof.
  intros Hj Hk E. pose proof (Z.div_mod (x + j) N ltac:(lia)).
  pose proof (Z.div_mod (x + k) N ltac:(lia)).
  assert ((x + j) / N = (x + k) / N) by nia. lia.
Qed.

(** The distance between two counters, whatever wrapped. *)
Lemma counter_sub r n : 0 ≤ n < 2 ^ 32 → u32 (u32 (r + n) - r) = n.
Proof.
  intros Hn. unfold u32. rewrite Zminus_mod_idemp_l. replace (r + n - r) with n by lia.
  by apply Z.mod_small.
Qed.

Lemma counter_eq r m n :
  0 ≤ m < 2 ^ 32 → 0 ≤ n < 2 ^ 32 → u32 (r + m) = u32 (r + n) ↔ m = n.
Proof.
  intros Hm Hn. split; [|by intros ->]. intros E.
  by rewrite <- (counter_sub r m), E, counter_sub.
Qed.

Lemma ring_length data r w q : ring_of N data r w q → 0 ≤ Z.of_nat (length q) ≤ N ∧ N < 2 ^ 31.
Proof. pose proof ring_small. intros (_&_&?&_). lia. Qed.

Lemma ring_empty data r w q : ring_of N data r w q → (r =? w) = true ↔ q = [].
Proof.
  intros Hq. pose proof (ring_length _ _ _ _ Hq). destruct Hq as (_&Hr&_&->&_).
  rewrite Z.eqb_eq, <- length_zero_iff_nil.
  rewrite <- (u32_small r) at 1 by lia. rewrite <- (Z.add_0_r r) at 1.
  rewrite counter_eq by lia. lia.
Qed.

Lemma ring_full data r w q : ring_of N data r w q → (w =? u32 (r + N)) = true ↔ Z.of_nat (length q) = N.
Proof.
  intros Hq. pose proof (ring_length _ _ _ _ Hq). pose proof ring_pos. destruct Hq as (_&Hr&_&->&_).
  rewrite Z.eqb_eq. apply counter_eq; lia.
Qed.

(** A ring with room takes an element at the end, also when a counter wraps. *)
Lemma ring_push data r w q c :
  ring_of N data r w q → Z.of_nat (length q) < N →
  ring_of N (<[Z.to_nat (w mod N) := c]> data) r (u32 (w + 1)) (q ++ [c]).
Proof.
  intros (Hd&Hr&Hl&Hw&Hk) Hlt. pose proof ring_pos.
  assert (Hmod : ∀ x, 0 ≤ x mod N < N) by (intros; apply Z.mod_pos_bound; done).
  unfold ring_of. rewrite length_insert, length_app. simpl. split_and!; try lia.
  - rewrite Hw. unfold u32. rewrite Zplus_mod_idemp_l. f_equal. lia.
  - rewrite Hw, slot_u32. intros k Hkl.
    destruct (decide (k = length q)) as [->|Hne].
    + rewrite list_lookup_middle by done. rewrite list_lookup_insert_eq; [done|].
      rewrite Hd. specialize (Hmod (r + Z.of_nat (length q))). lia.
    + rewrite lookup_app_l by lia. rewrite list_lookup_insert_ne; [apply Hk; lia|].
      intros E. apply Z2Nat.inj in E; [|apply Hmod..]. apply slot_inj in E; lia.
Qed.

(** The oldest element, and the ring without it. *)
Lemma ring_pop data r w c q :
  ring_of N data r w (c :: q) → data !!! Z.to_nat (r mod N) = c ∧ ring_of N data (u32 (r + 1)) w q.
Proof.
  intros (Hd&Hr&Hl&Hw&Hk). simpl in *. split.
  - specialize (Hk 0%nat ltac:(lia)). rewrite Z.add_0_r in Hk. simpl in Hk.
    by apply list_lookup_total_correct.
  - unfold ring_of. split_and!; try done; try apply u32_bound; try lia.
    + rewrite Hw. unfold u32. rewrite Zplus_mod_idemp_l. f_equal. lia.
    + intros k Hkl. specialize (Hk (S k) ltac:(lia)). simpl in Hk. rewrite Hk. do 2 f_equal.
      rewrite <- (Zplus_mod_idemp_l (u32 _)), slot_u32, Zplus_mod_idemp_l. f_equal. lia.
Qed.

(** The newest element, and the ring without it. *)
Lemma ring_unpush data r w q c :
  ring_of N data r w (q ++ [c]) →
  data !!! Z.to_nat (u32 (w - 1) mod N) = c ∧ ring_of N data r (u32 (w - 1)) q.
Proof.
  intros (Hd&Hr&Hl&Hw&Hk). rewrite length_app in *. simpl in *.
  assert (Hw1 : u32 (w - 1) = u32 (r + Z.of_nat (length q))).
  { rewrite Hw. unfold u32. rewrite Zminus_mod_idemp_l. f_equal. lia. }
  rewrite Hw1, slot_u32. split.
  - specialize (Hk (length q) ltac:(lia)). rewrite list_lookup_middle in Hk by done.
    by apply list_lookup_total_correct.
  - unfold ring_of. split_and!; try done; try lia. intros k Hkl.
    rewrite <- (Hk k) by lia. by rewrite lookup_app_l.
Qed.
End ring.
