(* ===== verification/Kbd.v ===== *)
(** The keyboard's scan codes, kernel/kbd.c. *)

From stdpp Require Import base list strings.
From Stdlib Require Import ZArith Lia.
From S2P Require Import Prelude Bytes.

Definition KBS_DIB : Z := 1.

Definition NO : Z := 0.
Definition SHIFT : Z := 1.
Definition CTL : Z := 2.
Definition ALT : Z := 4.
Definition CAPSLOCK : Z := 8.
Definition NUMLOCK : Z := 16.
Definition SCROLLLOCK : Z := 32.
Definition E0ESC : Z := 64.

Definition KEY_HOME : Z := 0xE0.
Definition KEY_END : Z := 0xE1.
Definition KEY_UP : Z := 0xE2.
Definition KEY_DN : Z := 0xE3.
Definition KEY_LF : Z := 0xE4.
Definition KEY_RT : Z := 0xE5.
Definition KEY_PGUP : Z := 0xE6.
Definition KEY_PGDN : Z := 0xE7.
Definition KEY_INS : Z := 0xE8.
Definition KEY_DEL : Z := 0xE9.

(** [C('A')] is Control-A. *)
Definition C (x : Z) : Z := x - 64.

(** A static array of 256 bytes with an initialiser: the first entries in
    order, then designated ones, zero elsewhere; values are converted to
    uchar. *)
Definition table (l : list Z) (inits : list (Z * Z)) : list Z :=
  foldl (λ t '(i, v), <[Z.to_nat i := u8 v]> t) ((u8 <$> l) ++ replicate (256 - length l) 0) inits.

Definition shiftcode : list Z :=
  table [] [(0x1D, CTL); (0x2A, SHIFT); (0x36, SHIFT); (0x38, ALT); (0x9D, CTL); (0xB8, ALT)].

Definition togglecode : list Z := table [] [(0x3A, CAPSLOCK); (0x45, NUMLOCK); (0x46, SCROLLLOCK)].

(** The keys of the cursor block, the same in the three maps. *)
Definition cursor_keys : list (Z * Z) :=
  [(0xC8, KEY_UP); (0xD0, KEY_DN); (0xC9, KEY_PGUP); (0xD1, KEY_PGDN); (0xCB, KEY_LF); (0xCD, KEY_RT);
   (0x97, KEY_HOME); (0xCF, KEY_END); (0xD2, KEY_INS); (0xD3, KEY_DEL)].

Definition normalmap : list Z :=
  table ([NO; 0x1B] ++ str "1234567890-=" ++ [8; 9] ++ str "qwertyuiop[]" ++ [10; NO] ++ str "asdfghjkl;'`" ++
         [NO] ++ str "\zxcvbnm,./" ++ [NO] ++ str "*" ++ [NO] ++ str " " ++ replicate 13 NO ++
         str "789-456+1230." ++ [NO; NO; NO; NO])
    ([(0x9C, 10); (0xB5, 47)] ++ cursor_keys).

Definition shiftmap : list Z :=
  table ([NO; 27] ++ str "!@#$%^&*()_+" ++ [8; 9] ++ str "QWERTYUIOP{}" ++ [10; NO] ++ str "ASDFGHJKL:" ++ [34] ++
         str "~" ++ [NO] ++ str "|ZXCVBNM<>?" ++ [NO] ++ str "*" ++ [NO] ++ str " " ++ replicate 13 NO ++
         str "789-456+1230." ++ [NO; NO; NO; NO])
    ([(0x9C, 10); (0xB5, 47)] ++ cursor_keys).

Definition ctlmap : list Z :=
  table (replicate 16 NO ++ (C <$> str "QWERTYUIOP") ++ [NO; NO; 13; NO] ++ (C <$> str "ASDFGHJKL") ++
         [NO; NO; NO; NO] ++ (C <$> str "\ZXCVBNM") ++ [NO; NO; C 47; NO; NO])
    ([(0x9C, 13); (0xB5, C 47)] ++ cursor_keys).

Definition charcode : list (list Z) := [normalmap; shiftmap; ctlmap; ctlmap].

Definition capitalise (c : Z) : Z :=
  if (97 <=? c) && (c <=? 122) then u32 (c + (65 - 97))
  else if (65 <=? c) && (c <=? 90) then u32 (c + (97 - 65)) else c.

(** The key code [data] read from the data port, with the modifiers in [shift];
    the new [shift] and the character. *)
Definition kbd_code (shift data : Z) : Z * Z :=
  if data =? 0xE0 then (Z.lor shift E0ESC, 0) else
  if negb (Z.land data 0x80 =? 0) then
    let data := if Z.land shift E0ESC =? 0 then Z.land data 0x7F else data in
    (Z.land shift (u32 (Z.lnot (Z.lor (shiftcode !!! Z.to_nat data) E0ESC))), 0)
  else
    let '(data, shift) :=
      if Z.land shift E0ESC =? 0 then (data, shift)
      else (Z.lor data 0x80, Z.land shift (u32 (Z.lnot E0ESC))) in
    let shift := Z.lor shift (shiftcode !!! Z.to_nat data) in
    let shift := Z.lxor shift (togglecode !!! Z.to_nat data) in
    let c := charcode !!! Z.to_nat (Z.land shift (Z.lor CTL SHIFT)) !!! Z.to_nat data in
    (shift, if Z.land shift CAPSLOCK =? 0 then c else capitalise c).

(** * Properties *)

(** The shift states and key codes there are. *)
Definition all_below (n : nat) (P : Z → bool) : bool := forallb P (seqZ 0 (Z.of_nat n)).

Lemma all_below_spec n P x : all_below n P = true → 0 ≤ x < Z.of_nat n → P x = true.
Proof.
  unfold all_below. rewrite forallb_forall. intros H Hx. apply H.
  apply list_elem_of_In. apply elem_of_seqZ. lia.
Qed.

Definition in_bytes (x : Z) : bool := (0 <=? x) && (x <? 256).

Definition kbd_in_range (shift data : Z) : bool :=
  let r := kbd_code shift data in
  (0 <=? r.1) && (r.1 <? 128) && in_bytes r.2.

(** Whatever bytes the keyboard sends, the modifier state stays within its
    seven flags and the character is a byte; in particular no table is ever
    indexed out of range and no special key reads as an error (a negative
    value). *)
Theorem kbd_code_range shift data :
  0 ≤ shift < 128 → 0 ≤ data < 256 →
  0 ≤ (kbd_code shift data).1 < 128 ∧ 0 ≤ (kbd_code shift data).2 < 256.
Proof.
  intros Hs Hd.
  assert (all_below 128 (λ s, all_below 256 (kbd_in_range s)) = true) as H by (vm_compute; reflexivity).
  pose proof (all_below_spec _ _ data (all_below_spec _ _ shift H Hs) Hd) as R.
  unfold kbd_in_range, in_bytes in R. rewrite !andb_true_iff, !Z.leb_le, !Z.ltb_lt in R. lia.
Qed.

(** The scan code of a letter's key, from its row on the keyboard. *)
Definition letter_key (c : Z) : option Z :=
  Z.of_nat <$> (fst <$> list_find (λ d, d = c) normalmap).

Definition letter_ok (shift c : Z) : bool :=
  match letter_key c with
  | None => false
  | Some d =>
      let up := xorb (Z.testbit shift 0) (Z.testbit shift 3) in
      let expect := if Z.testbit shift 1 then c - 96 else if up then c - 32 else c in
      bool_decide (kbd_code shift d = (shift, expect))
  end.

(** The key of the letter [c] gives the capital letter exactly when one of
    Shift and Caps Lock is on, and Control with the letter gives its control
    character; the modifiers do not change. *)
Theorem kbd_letters shift c :
  0 ≤ shift < 64 → 97 ≤ c ≤ 122 →
  ∃ d, letter_key c = Some d ∧
    kbd_code shift d =
      (shift, if Z.testbit shift 1 then C (c - 32)
              else if xorb (Z.testbit shift 0) (Z.testbit shift 3) then c - 32 else c).
Proof.
  intros Hs Hc.
  assert (all_below 64 (λ s, all_below 26 (λ k, letter_ok s (97 + k))) = true) as H by (vm_compute; reflexivity).
  pose proof (all_below_spec _ _ (c - 97) (all_below_spec _ _ shift H Hs) ltac:(lia)) as R.
  clear H. cbn beta in R. replace (97 + (c - 97)) with c in R by lia. unfold letter_ok in R.
  revert R. destruct (letter_key c) as [d|]; intros R; [|discriminate R]. exists d. split; [reflexivity|].
  apply bool_decide_eq_true in R. rewrite R. unfold C. replace (c - 32 - 64) with (c - 96) by lia. reflexivity.
Qed.

(** The state after the bytes [ds] of key codes. *)
Definition kbd_codes (shift : Z) (ds : list Z) : Z := foldl (λ s d, (kbd_code s d).1) shift ds.

(** The modifier keys with the codes they send when pressed and released: the
    right-hand Control and Alt with an E0 prefix. *)
Definition modifiers : list (list Z * list Z * Z) :=
  [([0x1D], [0x9D], CTL); ([0x2A], [0xAA], SHIFT); ([0x36], [0xB6], SHIFT); ([0x38], [0xB8], ALT);
   ([0xE0; 0x1D], [0xE0; 0x9D], CTL); ([0xE0; 0x38], [0xE0; 0xB8], ALT)].

Definition modifier_ok (shift : Z) : bool :=
  forallb (λ '(down, up, m),
    bool_decide (kbd_codes shift down = Z.lor shift m) &&
    bool_decide (kbd_codes (kbd_codes shift down) up = Z.ldiff shift m)) modifiers.

(** Pressing a modifier key sets its flag and releasing it clears it, for
    the keys on both sides of the keyboard; no other flag changes. *)
Theorem kbd_modifiers shift down up m :
  0 ≤ shift < 64 → (down, up, m) ∈ modifiers →
  kbd_codes shift down = Z.lor shift m ∧ kbd_codes (kbd_codes shift down) up = Z.ldiff shift m.
Proof.
  intros Hs Hm. assert (all_below 64 modifier_ok = true) as H by (vm_compute; reflexivity).
  pose proof (all_below_spec _ _ shift H Hs) as R. clear H. unfold modifier_ok in R.
  rewrite forallb_forall in R. apply list_elem_of_In in Hm. specialize (R _ Hm). cbn beta iota in R.
  rewrite andb_true_iff, !bool_decide_eq_true in R. exact R.
Qed.

Lemma kbd_code_range_witness : 0 ≤ (kbd_code 64 0x35).1 < 128 ∧ 0 ≤ (kbd_code 64 0x35).2 < 256.
Proof. apply kbd_code_range; lia. Defined.

Lemma kbd_letters_witness :
  ∃ d, letter_key 97 = Some d ∧ kbd_code 9 d = (9, 97).
Proof. apply (kbd_letters 9 97); lia. Defined.

Lemma kbd_modifiers_witness :
  kbd_codes 8 [0xE0; 0x1D] = Z.lor 8 CTL ∧ kbd_codes (kbd_codes 8 [0xE0; 0x1D]) [0xE0; 0x9D] = Z.ldiff 8 CTL.
Proof. apply kbd_modifiers; [lia|]. apply list_elem_of_In. vm_compute. tauto. Defined.
