(* ===== verification/Seg.v ===== *)
(** Descriptors: the segment descriptors and the task state segment of
    include/xv6/seg.h, the gates of include/xv6/trap.h, and how the processor
    reads them.

    A descriptor is written field by field by the kernel and read byte by byte
    by the processor: [seg_bytes], [gate_bytes] and [ts_bytes] are the layouts
    the C structs have in memory, [hw_segment], [hw_gate] and the [hw_ts_]
    functions what the processor makes of those bytes (for a segment the
    drawing at the top of seg.h). *)

From stdpp Require Import base list.
From Stdlib Require Import ZArith Lia.
From S2P Require Import Prelude Bytes.

(** * Segments *)

(** struct segdesc: the two views of its union. *)
Inductive segdesc :=
| SegLow (lim_15_0 base_15_0 base_23_16 access flags_and_lim_19_16 base_31_24 : Z)
| SegHigh (base_63_32 reserved : Z).

Definition SEGDESC (base limit access flags : Z) : segdesc :=
  SegLow (Z.land (u64 limit) 0xffff) (Z.land (u64 base) 0xffff) (Z.land (Z.shiftr (u64 base) 16) 0xff) (u8 access)
    (u8 (Z.lor (Z.shiftl flags 4) (Z.land (Z.shiftr (u64 limit) 16) 0xf))) (Z.land (Z.shiftr (u64 base) 24) 0xff).

Definition SEGDESC_NULL : segdesc := SegLow 0 0 0 0 0 0.

(** [sizeof(struct taskstate)]. *)
Definition taskstate_size : Z := 108.

Definition TSSDESC_LO (base : Z) : segdesc := SEGDESC base (taskstate_size - 1) 0x89 0.
Definition TSSDESC_HI (base : Z) : segdesc := SegHigh (u32 (Z.shiftr (u64 base) 32)) 0.

Definition SEGDESC_FLAT (access flags : Z) : segdesc := SEGDESC 0 0x000fffff access flags.
Definition SEGDESC32_CODE (dpl : Z) : segdesc := SEGDESC_FLAT (Z.lor 0x9a (Z.shiftl dpl 5)) 0xc.
Definition SEGDESC32_DATA (dpl : Z) : segdesc := SEGDESC_FLAT (Z.lor 0x92 (Z.shiftl dpl 5)) 0xc.
Definition SEGDESC64_CODE (dpl : Z) : segdesc := SEGDESC_FLAT (Z.lor 0x9a (Z.shiftl dpl 5)) 0xa.

Definition DPL_USER : Z := 3.
Definition NSEGS : nat := 7.
Definition SEG_KCODE : Z := 1.
Definition SEG_KDATA : Z := 2.
Definition SEG_UCODE : Z := 3.
Definition SEG_UDATA : Z := 4.
Definition SEG_TSS : Z := 5.
Definition SEG_TSS_HI : Z := 6.

Definition seg_bytes (d : segdesc) : list Z :=
  match d with
  | SegLow lim base b2 access fl b3 => le_bytes 2 lim ++ le_bytes 2 base ++ [b2; access; fl; b3]
  | SegHigh base reserved => le_bytes 4 base ++ le_bytes 4 reserved
  end.

(** The processor's reading of eight bytes of a descriptor table. *)
Record segment := mkSegment { seg_base : Z; seg_limit : Z; seg_access : Z; seg_flags : Z }.

Definition hw_segment (l : list Z) : segment :=
  mkSegment (le_val (slice 2 3 l ++ slice 7 1 l)) (le_val (slice 0 2 l) + 2 ^ 16 * (l !!! 6%nat mod 16)) (l !!! 5%nat) (l !!! 6%nat / 16).

(** In long mode a system descriptor has sixteen bytes. *)
Definition hw_system_segment (l : list Z) : segment :=
  let s := hw_segment l in mkSegment (seg_base s + 2 ^ 32 * le_val (slice 8 4 l)) (seg_limit s) (seg_access s) (seg_flags s).

Definition seg_present (s : segment) : bool := Z.testbit (seg_access s) 7.
Definition seg_dpl (s : segment) : Z := seg_access s / 32 mod 4.
Definition seg_code (s : segment) : bool := Z.testbit (seg_access s) 4 && Z.testbit (seg_access s) 3.
Definition seg_long (s : segment) : bool := Z.testbit (seg_flags s) 1.

#[global] Instance segdesc_inhabited : Inhabited segdesc := populate SEGDESC_NULL.

(** * Gates *)

Record gatedesc := mkGate {
  g_off_15_0 : Z; g_cs : Z; g_ist : Z; g_rsv1 : Z; g_type : Z; g_s : Z; g_dpl : Z; g_p : Z;
  g_off_31_16 : Z; g_off_63_32 : Z; g_rsv2 : Z
}.
Definition gate_zero : gatedesc := mkGate 0 0 0 0 0 0 0 0 0 0 0.

#[global] Instance gatedesc_inhabited : Inhabited gatedesc := populate gate_zero.

Definition STS_IG32 : Z := 0xE.
Definition STS_TG32 : Z := 0xF.

Definition SETGATE (istrap : bool) (sel off d : Z) (gate : gatedesc) : gatedesc :=
  mkGate (Z.land (u64 off) 0xffff) (u16 sel) 0 0 (if istrap then STS_TG32 else STS_IG32) 0 (d mod 4) 1
    (Z.land (Z.shiftr (u64 off) 16) 0xffff) (Z.land (Z.shiftr (u64 off) 32) 0xffffffff) (g_rsv2 gate).

(** The bit-fields of the struct fill two bytes, from the lowest bit. *)
Definition gate_bytes (g : gatedesc) : list Z :=
  le_bytes 2 (g_off_15_0 g) ++ le_bytes 2 (g_cs g) ++
  [g_ist g + 2 ^ 3 * g_rsv1 g; g_type g + 2 ^ 4 * g_s g + 2 ^ 5 * g_dpl g + 2 ^ 7 * g_p g] ++
  le_bytes 2 (g_off_31_16 g) ++ le_bytes 4 (g_off_63_32 g) ++ le_bytes 4 (g_rsv2 g).

Record gate := mkGateView { gt_target : Z; gt_selector : Z; gt_present : bool; gt_dpl : Z; gt_type : Z }.

Definition hw_gate (l : list Z) : gate :=
  mkGateView (le_val (slice 0 2 l ++ slice 6 6 l)) (le_val (slice 2 2 l)) (Z.testbit (l !!! 5%nat) 7) (l !!! 5%nat / 32 mod 4) (l !!! 5%nat mod 16).

(** [int n] in code of privilege level [cpl] reaches the gate. *)
Definition gate_callable (cpl : Z) (g : gate) : bool := gt_present g && (cpl <=? gt_dpl g).
(** An interrupt gate turns interrupts off. *)
Definition gate_masks (g : gate) : bool := gt_type g =? STS_IG32.

(** * The task state segment *)

Record taskstate := mkTs {
  ts_reserved1 : Z; ts_rsp0 : Z; ts_rsp1 : Z; ts_rsp2 : Z; ts_reserved2 : Z;
  ts_ist1 : Z; ts_ist2 : Z; ts_ist3 : Z; ts_ist4 : Z; ts_ist5 : Z; ts_ist6 : Z; ts_ist7 : Z;
  ts_reserved3 : Z; ts_reserved4 : Z; ts_iopb : Z
}.
Definition ts_zero : taskstate := mkTs 0 0 0 0 0 0 0 0 0 0 0 0 0 0 0.

(** Assignment to [rsp0] and [iopb]. *)
Definition ts_set (rsp0 iopb : Z) (t : taskstate) : taskstate :=
  mkTs (ts_reserved1 t) rsp0 (ts_rsp1 t) (ts_rsp2 t) (ts_reserved2 t)
    (ts_ist1 t) (ts_ist2 t) (ts_ist3 t) (ts_ist4 t) (ts_ist5 t) (ts_ist6 t) (ts_ist7 t)
    (ts_reserved3 t) (ts_reserved4 t) iopb.

Definition ts_bytes (t : taskstate) : list Z :=
  le_bytes 4 (ts_reserved1 t) ++ le_bytes 8 (ts_rsp0 t) ++ le_bytes 8 (ts_rsp1 t) ++ le_bytes 8 (ts_rsp2 t) ++ le_bytes 8 (ts_reserved2 t) ++
  le_bytes 8 (ts_ist1 t) ++ le_bytes 8 (ts_ist2 t) ++ le_bytes 8 (ts_ist3 t) ++ le_bytes 8 (ts_ist4 t) ++ le_bytes 8 (ts_ist5 t) ++
  le_bytes 8 (ts_ist6 t) ++ le_bytes 8 (ts_ist7 t) ++ le_bytes 8 (ts_reserved3 t) ++ le_bytes 4 (ts_reserved4 t) ++ le_bytes 4 (ts_iopb t).

(** The processor takes the kernel stack from offset 4 of the segment and the
    offset of the I/O permission map from offset 102, two bytes. Code of
    privilege level 3 (with I/O privilege level 0) may access a port when the
    map's bit for it lies within the segment's limit and is clear; two bytes
    of the map are read at a time. *)
Definition hw_ts_rsp0 (l : list Z) : Z := get64 l 4.
Definition hw_ts_iomap (l : list Z) : Z := get16 l 102.
Definition user_may_access (limit : Z) (l : list Z) (port : Z) : bool :=
  let at_ := hw_ts_iomap l + port / 8 in
  (at_ + 1 <=? limit) && negb (Z.testbit (l !!! Z.to_nat at_) (port mod 8)).

(** * What the processor sees *)

Lemma land_shiftr_mod v k n : 0 ≤ n → 0 ≤ k → Z.land (Z.shiftr v k) (2 ^ n - 1) = v / 2 ^ k mod 2 ^ n.
Proof. intros. by rewrite land_low, Z.shiftr_div_pow2. Qed.

Lemma lor_shiftl_add f x k : 0 ≤ k → 0 ≤ x < 2 ^ k → Z.lor (Z.shiftl f k) x = 2 ^ k * f + x.
Proof.
  intros Hk Hx. rewrite <- Z.lxor_lor, <- Z.add_nocarry_lxor, Z.shiftl_mul_pow2; try lia.
  all: apply Z.bits_inj'; intros n Hn; rewrite Z.land_spec, Z.bits_0; destruct (decide (n < k)).
  1, 3: by rewrite Z.shiftl_spec_low.
  all: rewrite <- (Z.mod_small x (2 ^ k)), Z.mod_pow2_bits_high by lia; apply andb_false_r.
Qed.

Lemma div_bound x a b : 0 < a → 0 ≤ x < a * b → 0 ≤ x / a < b.
Proof. intros. split; [apply Z.div_pos|apply Z.div_lt_upper_bound]; lia. Qed.

(** The fields in terms of division. *)
Lemma SEGDESC_fields base limit access flags :
  0 ≤ base < 2 ^ 64 → 0 ≤ limit < 2 ^ 20 → 0 ≤ access < 2 ^ 8 → 0 ≤ flags < 2 ^ 4 →
  SEGDESC base limit access flags =
    SegLow (limit mod 2 ^ 16) (base mod 2 ^ 16) (base / 2 ^ 16 mod 2 ^ 8) access (2 ^ 4 * flags + limit / 2 ^ 16) (base / 2 ^ 24 mod 2 ^ 8).
Proof.
  intros Hb Hl Ha Hf. assert (0 ≤ limit / 2 ^ 16 < 2 ^ 4) by (apply div_bound; lia).
  unfold SEGDESC. rewrite !u64_small by lia. change 0xffff with (2 ^ 16 - 1). change 0xff with (2 ^ 8 - 1). change 0xf with (2 ^ 4 - 1).
  rewrite !land_shiftr_mod, !land_low, (Z.mod_small (limit / 2 ^ 16)) by lia.
  rewrite lor_shiftl_add by lia. unfold u8. by rewrite (Z.mod_small access), (Z.mod_small (2 ^ 4 * flags + _)) by lia.
Qed.

(** What [SEGDESC] packs the processor unpacks. *)
Lemma hw_segment_SEGDESC base limit access flags :
  0 ≤ base < 2 ^ 64 → 0 ≤ limit < 2 ^ 20 → 0 ≤ access < 2 ^ 8 → 0 ≤ flags < 2 ^ 4 →
  hw_segment (seg_bytes (SEGDESC base limit access flags)) = mkSegment (base mod 2 ^ 32) limit access flags.
Proof.
  intros Hb Hl Ha Hf. rewrite SEGDESC_fields by done. unfold hw_segment. cbn -[Z.pow Z.div Z.modulo Z.add Z.mul].
  f_equal; Z.to_euclidean_division_equations; lia.
Qed.

(** The descriptor of the task state segment, whatever its address. *)
Lemma hw_tss base :
  0 ≤ base < 2 ^ 64 →
  hw_system_segment (seg_bytes (TSSDESC_LO base) ++ seg_bytes (TSSDESC_HI base)) = mkSegment base (taskstate_size - 1) 0x89 0.
Proof.
  intros Hb. unfold TSSDESC_LO, TSSDESC_HI. rewrite SEGDESC_fields by (unfold taskstate_size; lia).
  rewrite u64_small, Z.shiftr_div_pow2, u32_small by (try apply div_bound; lia).
  unfold hw_system_segment, hw_segment. cbn -[Z.pow Z.div Z.modulo Z.add Z.mul Z.sub taskstate_size].
  unfold taskstate_size. f_equal; Z.to_euclidean_division_equations; lia.
Qed.

(** The processor's busy mark in a descriptor of the task state segment. *)
Definition set_busy (d : segdesc) : segdesc :=
  match d with
  | SegLow lim base b2 access fl b3 => SegLow lim base b2 (Z.lor access 2) fl b3
  | SegHigh _ _ => d
  end.

Lemma hw_tss_busy base :
  0 ≤ base < 2 ^ 64 →
  hw_system_segment (seg_bytes (set_busy (TSSDESC_LO base)) ++ seg_bytes (TSSDESC_HI base)) = mkSegment base (taskstate_size - 1) 0x8b 0.
Proof.
  intros Hb. pose proof (hw_tss base Hb) as E. unfold TSSDESC_LO, TSSDESC_HI in *. rewrite SEGDESC_fields in * by (unfold taskstate_size; lia).
  unfold hw_system_segment, hw_segment, set_busy in *. cbn -[Z.pow Z.div Z.modulo Z.add Z.mul Z.sub taskstate_size Z.lor Z.shiftr] in *.
  injection E as E. by rewrite E.
Qed.

Lemma hw_gate_SETGATE istrap sel off d g :
  0 ≤ sel < 2 ^ 16 → 0 ≤ off < 2 ^ 64 → 0 ≤ d < 4 →
  hw_gate (gate_bytes (SETGATE istrap sel off d g)) = mkGateView off sel true d (if istrap then STS_TG32 else STS_IG32).
Proof.
  intros Hs Ho Hd. unfold SETGATE. rewrite u64_small by lia.
  change 0xffffffff with (2 ^ 32 - 1). change 0xffff with (2 ^ 16 - 1).
  rewrite !land_shiftr_mod, !land_low by lia. rewrite (Z.mod_small d) by lia. unfold u16. rewrite (Z.mod_small sel) by lia.
  assert (d = 0 ∨ d = 1 ∨ d = 2 ∨ d = 3) as Hd' by lia.
  unfold hw_gate. cbn -[Z.pow Z.div Z.modulo Z.add Z.mul STS_TG32 STS_IG32].
  f_equal; first [solve [destruct istrap, Hd' as [->|[->|[->| ->]]]; reflexivity] | Z.to_euclidean_division_equations; lia].
Qed.

Lemma hw_ts_rsp0_set rsp0 iopb t : 0 ≤ rsp0 < 2 ^ 64 → hw_ts_rsp0 (ts_bytes (ts_set rsp0 iopb t)) = rsp0.
Proof.
  intros H. assert (E : hw_ts_rsp0 (ts_bytes (ts_set rsp0 iopb t)) = le_val (le_bytes 8 rsp0)) by (cbn; reflexivity).
  rewrite E, le_val_bytes. by apply Z.mod_small.
Qed.

(** The struct puts [iopb] at offset 104, two bytes past where the processor
    looks for it; the processor finds a zero there, takes the segment itself
    for the permission map, and so lets user programs access, among others, the
    ports of the keyboard (0x60) and of the disk (0x1f0 to 0x1f7). *)
Theorem user_ports_open rsp0 port :
  96 ≤ port < 816 → user_may_access (taskstate_size - 1) (ts_bytes (ts_set rsp0 0xFFFFFFFF ts_zero)) port = true.
Proof.
  intros Hp. assert (12 ≤ port / 8 < 102) by (split; [apply Z.div_le_lower_bound|apply Z.div_lt_upper_bound]; lia).
  set (l := ts_bytes _). assert (El : l = (le_bytes 4 0 ++ le_bytes 8 rsp0) ++ replicate 92 0 ++ le_bytes 4 0xFFFFFFFF) by reflexivity.
  unfold user_may_access. assert (hw_ts_iomap l = 0) as -> by reflexivity. rewrite Z.add_0_l.
  rewrite (proj2 (Z.leb_le _ _)) by (unfold taskstate_size; lia).
  assert (l !!! Z.to_nat (port / 8) = 0) as ->; [|by rewrite Z.bits_0].
  rewrite El, lookup_total_app_r by (cbn; lia). rewrite lookup_total_app_l by (cbn [length app le_bytes]; rewrite length_replicate; lia).
  apply lookup_total_replicate_2. cbn [length app le_bytes]. lia.
Qed.
