(* ===== verification/Monad.v ===== *)
(** The monad in which stateful kernel code is written.

    A computation takes fuel and a state and ends in one of the outcomes of
    [out]: it returns, it panics (a call of [panic], which never returns), it
    spins forever on a lock another CPU holds, it runs out of fuel in a loop
    with no bound of its own, or it gives up the CPU ([Swtch], a call of
    [swtch]) with the continuation that runs when the thread is switched to
    again, in whatever state the other threads have left by then.

    The loops of the C code are [forM] (a counter with an early exit) and
    [whileM] (anything else, on fuel). *)

From stdpp Require Import base list strings.
From Stdlib Require Import ZArith Lia.
From S2P Require Import Prelude.

Inductive out (S A : Type) : Type :=
| Ret (a : A) (s : S)
| Panic (msg : string) (s : S)
| Spin (s : S)
| NoFuel (s : S)
| Swtch (s : S) (k : S → out S A).
Arguments Ret {S A} a s.
Arguments Panic {S A} msg s.
Arguments Spin {S A} s.
Arguments NoFuel {S A} s.
Arguments Swtch {S A} s k.

Definition M (S A : Type) : Type := nat → S → out S A.

Fixpoint obind {S A B} (f : A → S → out S B) (o : out S A) : out S B :=
  match o with
  | Ret a s => f a s
  | Panic msg s => Panic msg s
  | Spin s => Spin s
  | NoFuel s => NoFuel s
  | Swtch s k => Swtch s (λ s', obind f (k s'))
  end.

#[global] Instance M_ret {S} : MRet (M S) := λ A a fuel s, Ret a s.
#[global] Instance M_bind {S} : MBind (M S) :=
  λ A B f m fuel s, obind (λ a s', f a fuel s') (m fuel s).

Section ops.
Context {S : Type}.

Definition gets {A} (f : S → A) : M S A := λ fuel s, Ret (f s) s.
Definition modify (f : S → S) : M S unit := λ fuel s, Ret tt (f s).
Definition panic {A} (msg : string) : M S A := λ fuel s, Panic msg s.
Definition spin {A} : M S A := λ fuel s, Spin s.

(** The context switch away from this thread and back. *)
Definition swtch : M S unit := λ fuel s, Swtch s (λ s', Ret tt s').

Definition whenM (b : bool) (m : M S unit) : M S unit := if b then m else mret tt.

(** [for (i = i; n more rounds; i++) body], left early when the body gives a
    result. *)
Fixpoint forM {R} (n : nat) (i : Z) (body : Z → M S (option R)) : M S (option R) :=
  match n with
  | O => mret None
  | Datatypes.S n =>
      r ← body i;
      match r with
      | Some r => mret (Some r)
      | None => forM n (i + 1) body
      end
  end.

(** A loop over loop variables [X] that ends with a result [R]. *)
Fixpoint loop_fuel {X R} (n : nat) (body : X → M S (X + R)) (x : X) : M S R :=
  match n with
  | O => λ fuel s, NoFuel s
  | Datatypes.S n =>
      r ← body x;
      match r with
      | inl x => loop_fuel n body x
      | inr r => mret r
      end
  end.

Definition whileM {X R} (body : X → M S (X + R)) (x : X) : M S R :=
  λ fuel s, loop_fuel fuel body x fuel s.
End ops.

(** * Running computations *)

Section run.
Context {S : Type}.
Implicit Types (s : S) (fuel : nat).

Lemma obind_obind {A B C} (o : out S A) (f : A → S → out S B) (g : B → S → out S C) :
  (∀ s (k : S → out S A), o ≠ Swtch s k) →
  obind g (obind f o) = obind (λ a s, obind g (f a s)) o.
Proof. intros H. destruct o; try done. by destruct (H s k). Qed.

Lemma run_bind {A B} (m : M S A) (f : A → M S B) fuel s a s' :
  m fuel s = Ret a s' → (m ≫= f) fuel s = f a fuel s'.
Proof. intros H. unfold mbind, M_bind. by rewrite H. Qed.

Lemma run_bind_panic {A B} (m : M S A) (f : A → M S B) fuel s msg s' :
  m fuel s = Panic msg s' → (m ≫= f) fuel s = Panic msg s'.
Proof. intros H. unfold mbind, M_bind. by rewrite H. Qed.

Lemma run_bind_inv {A B} (m : M S A) (f : A → M S B) fuel s b s2 :
  (m ≫= f) fuel s = Ret b s2 →
  ∃ a s1, m fuel s = Ret a s1 ∧ f a fuel s1 = Ret b s2.
Proof. unfold mbind, M_bind. destruct (m fuel s); simpl; intros; try done. eauto. Qed.

Lemma loop_fuel_S {X R} (body : X → M S (X + R)) n x fuel s :
  loop_fuel (Datatypes.S n) body x fuel s =
    obind (λ r s', match r with inl x => loop_fuel n body x | inr r => mret r end fuel s')
      (body x fuel s).
Proof. done. Qed.

(** A loop whose body keeps an invariant and has a decreasing measure returns,
    given fuel above the measure. *)
Lemma loop_fuel_ok {X R} (body : X → M S (X + R)) (I : X → S → Prop) (Q : R → S → Prop)
    (μ : X → nat) fuel :
  (∀ x s, I x s →
     ∃ r s', body x fuel s = Ret r s' ∧
       match r with inl x' => I x' s' ∧ (μ x' < μ x)%nat | inr r => Q r s' end) →
  ∀ n x s, I x s → (μ x < n)%nat →
  ∃ r s', loop_fuel n body x fuel s = Ret r s' ∧ Q r s'.
Proof.
  intros Hb. induction n as [|n IH]; intros x s HI Hn; [lia|].
  destruct (Hb x s HI) as (r&s'&E&Hr). cbn [loop_fuel].
  rewrite (run_bind _ _ _ _ _ _ E). destruct r as [x'|r].
  - destruct Hr. apply IH; [done|lia].
  - exists r, s'. done.
Qed.

(** A counted loop none of whose rounds exits, with an invariant. *)
Lemma forM_ok {R} (body : Z → M S (option R)) (I : Z → S → Prop) fuel n i s :
  I i s →
  (∀ j s, i ≤ j < i + Z.of_nat n → I j s →
     ∃ s', body j fuel s = Ret None s' ∧ I (j + 1) s') →
  ∃ s', forM n i body fuel s = Ret None s' ∧ I (i + Z.of_nat n) s'.
Proof.
  revert i s. induction n as [|n IH]; intros i s HI Hb.
  - exists s. by rewrite Z.add_0_r.
  - destruct (Hb i s) as (s'&E&HI'); [lia|done|]. cbn [forM].
    rewrite (run_bind _ _ _ _ _ _ E).
    destruct (IH (i + 1) s' HI') as (s''&E'&HI''); [intros; apply Hb; [lia|done]|].
    exists s''. split; [done|]. by replace (i + Z.of_nat (Datatypes.S n)) with (i + 1 + Z.of_nat n) by lia.
Qed.
End run.

(** Evaluate the monad's plumbing at the head of a run, leaving continuations
    folded. *)
Ltac mred1 :=
  match goal with
  | |- context [@mbind ?X ?Y ?A ?B ?f ?m ?fuel ?s] =>
      change (@mbind X Y A B f m fuel s) with (obind (λ a s', f a fuel s') (m fuel s))
  | |- context [@mret ?X ?Y ?A ?a ?fuel ?s] => change (@mret X Y A a fuel s) with (Ret a s)
  | |- context [gets ?f ?fuel ?s] => change (gets f fuel s) with (Ret (f s) s)
  | |- context [modify ?f ?fuel ?s] => change (modify f fuel s) with (Ret tt (f s))
  | |- context [panic ?m ?fuel ?s] => change (panic m fuel s) with (Panic m s)
  end; cbn [obind whenM].
Ltac mred := repeat first [mred1 | progress (cbn [obind whenM])].

Section pure_loops.
Context {S : Type}.

(** A loop whose first [k] rounds do nothing and whose next one exits. *)
Lemma forM_exit {R} (body : Z → M S (option R)) n i k r fuel (s s' : S) :
  (∀ j, i ≤ j < i + Z.of_nat k → body j fuel s = Ret None s) →
  body (i + Z.of_nat k) fuel s = Ret (Some r) s' → (k < n)%nat →
  forM n i body fuel s = Ret (Some r) s'.
Proof.
  revert i n. induction k as [|k IH]; intros i [|n] Hn Hk Hlt; try lia; cbn [forM]; mred.
  - rewrite Z.add_0_r in Hk. by rewrite Hk.
  - rewrite Hn by lia. mred. apply IH; [intros; apply Hn; lia| |lia].
    rewrite <- Hk. f_equal. lia.
Qed.

(** A loop none of whose rounds does anything. *)
Lemma forM_idle {R} (body : Z → M S (option R)) n i fuel (s : S) :
  (∀ j, i ≤ j < i + Z.of_nat n → body j fuel s = Ret None s) →
  forM n i body fuel s = Ret None s.
Proof.
  revert i. induction n as [|n IH]; intros i Hn; [done|]. cbn [forM]; mred.
  rewrite Hn by lia. mred. apply IH. intros. apply Hn. lia.
Qed.

(** A search loop whose body only looks at the counter. *)
Lemma forM_find {R} (g : Z → option R) n i k r fuel (s : S) :
  (∀ j, i ≤ j < i + Z.of_nat k → g j = None) → g (i + Z.of_nat k) = Some r → (k < n)%nat →
  forM n i (λ i, mret (g i)) fuel s = Ret (Some r) s.
Proof.
  revert i n. induction k as [|k IH]; intros i [|n] Hn Hk Hlt; try lia; cbn [forM]; mred.
  - rewrite Z.add_0_r in Hk. by rewrite Hk.
  - rewrite Hn by lia. apply IH; [intros; apply Hn; lia| |lia].
    rewrite <- Hk. f_equal. lia.
Qed.

Lemma forM_none {R} (g : Z → option R) n i fuel (s : S) :
  (∀ j, i ≤ j < i + Z.of_nat n → g j = None) →
  forM n i (λ i, mret (g i)) fuel s = Ret None s.
Proof.
  revert i. induction n as [|n IH]; intros i Hn; [done|]. cbn [forM]; mred.
  rewrite Hn by lia. apply IH. intros. apply Hn. lia.
Qed.

(** Such a loop finds a match if there is one. *)
Lemma forM_search {R} (g : Z → option R) n i fuel (s : S) :
  ∃ r, forM n i (λ i, mret (g i)) fuel s = Ret r s ∧
    match r with
    | Some x => ∃ j, i ≤ j < i + Z.of_nat n ∧ g j = Some x
    | None => ∀ j, i ≤ j < i + Z.of_nat n → g j = None
    end.
Proof.
  revert i. induction n as [|n IH]; intros i; cbn [forM]; mred.
  - exists None. split; [done|lia].
  - destruct (g i) as [x|] eqn:E.
    + exists (Some x). split; [done|]. exists i. split; [lia|done].
    + destruct (IH (i + 1)) as (r&Er&Hr). exists r. split; [done|]. destruct r as [x|].
      * destruct Hr as (j&Hj&?). exists j. split; [lia|done].
      * intros j Hj. destruct (decide (j = i)) as [->|]; [done|]. apply Hr. lia.
Qed.
End pure_loops.
