(* ===== verification/Kstate.v ===== *)
(** The kernel's global state: the constants of include/xv6/param.h and its
    companions, the structs of the headers as records, the static tables as
    lists indexed by what the C code uses as pointers (a [struct buf *] is an
    index into the buffer array, a null pointer is [None]), and the record
    [kstate] of every global variable the model reads or writes. *)

From stdpp Require Import base list gmap strings countable.
From Stdlib Require Import ZArith Lia.
From S2P Require Import Prelude Seg Monad.

(** * Constants *)

Definition NPROC : nat := 64.
Definition KSTACKSIZE : Z := 4096.
Definition NCPU : Z := 8.
Definition NOFILE : nat := 16.
Definition NFILE : nat := 100.
Definition NINODE : nat := 50.
Definition NDEV : Z := 10.
Definition ROOTDEV : Z := 1.
Definition MAXARG : Z := 32.
Definition MAXOPBLOCKS : Z := 10.
Definition LOGSIZE : Z := MAXOPBLOCKS * 3.
Definition NBUF : nat := Z.to_nat (MAXOPBLOCKS * 3).
Definition FSSIZE : Z := 1000.

Definition BSIZE : Z := 512.
Definition B_VALID : Z := 2.
Definition B_DIRTY : Z := 4.

Definition ROOTINO : Z := 1.
Definition NDIRECT : Z := 12.
Definition NINDIRECT : Z := BSIZE / 4.
Definition MAXFILE : Z := NDIRECT + NINDIRECT.
Definition IPB : Z := BSIZE / 64.
Definition BPB : Z := BSIZE * 8.
Definition DIRSIZ : Z := 14.

Definition T_DIR : Z := 1.
Definition T_FILE : Z := 2.
Definition T_DEV : Z := 3.

Definition O_RDONLY : Z := 0.
Definition O_WRONLY : Z := 1.
Definition O_RDWR : Z := 2.
Definition O_CREATE : Z := 512.

Definition PGSIZE : Z := 4096.
Definition PIPESIZE : Z := 512.
Definition FL_IF : Z := 512.
Definition CONSOLE : Z := 1.

(** * Locks *)

(** The spinlocks of the kernel, by the object they are embedded in. *)
Inductive lockid :=
| LkPtable | LkBcache | LkIcache | LkFtable | LkLog | LkIde | LkCons | LkKmem | LkTicks
| LkBuf (b : nat) | LkInode (i : nat) | LkPipe (p : Z).

#[global] Instance lockid_eq_dec : EqDecision lockid.
Proof. solve_decision. Defined.

#[global] Instance lockid_countable : Countable lockid.
Proof.
  refine (inj_countable'
    (λ l, match l with
     | LkPtable => (0%nat, 0) | LkBcache => (1%nat, 0) | LkIcache => (2%nat, 0)
     | LkFtable => (3%nat, 0) | LkLog => (4%nat, 0) | LkIde => (5%nat, 0)
     | LkCons => (6%nat, 0) | LkKmem => (7%nat, 0) | LkTicks => (8%nat, 0)
     | LkBuf b => (9%nat, Z.of_nat b) | LkInode i => (10%nat, Z.of_nat i)
     | LkPipe p => (11%nat, p) end)
    (λ x, match x with
     | (0%nat, _) => LkPtable | (1%nat, _) => LkBcache | (2%nat, _) => LkIcache
     | (3%nat, _) => LkFtable | (4%nat, _) => LkLog | (5%nat, _) => LkIde
     | (6%nat, _) => LkCons | (7%nat, _) => LkKmem | (8%nat, _) => LkTicks
     | (9%nat, b) => LkBuf (Z.to_nat b) | (10%nat, i) => LkInode (Z.to_nat i)
     | (_, p) => LkPipe p end) _).
  intros []; simpl; f_equal; lia.
Defined.

(** struct spinlock; [pcs], written for a debugger and never read, is left
    out. *)
Record spinlock := mkSpin {
  lk_locked : Z;
  lk_name : string;
  lk_cpu : option nat
}.

(** struct sleeplock; its [lk] is the spinlock [LkBuf] or [LkInode] of its
    owner. *)
Record sleeplock := mkSleep {
  slk_locked : Z;
  slk_name : string;
  slk_pid : Z
}.

Inductive slid := SlBuf (b : nat) | SlInode (i : nat).

Definition sl_lk (l : slid) : lockid :=
  match l with SlBuf b => LkBuf b | SlInode i => LkInode i end.

(** What a process can sleep on: the addresses passed to [sleep]. *)
Inductive chan :=
| ChProc (p : nat) | ChLog | ChSleep (l : slid) | ChBuf (b : nat) | ChTicks | ChInput
| ChPipeR (p : Z) | ChPipeW (p : Z).

#[global] Instance slid_eq_dec : EqDecision slid.
Proof. solve_decision. Defined.
#[global] Instance chan_eq_dec : EqDecision chan.
Proof. solve_decision. Defined.

(** * CPUs and processes *)

(** struct cpu (the saved scheduler context is left out); [c_addr] is the
    address of the struct. *)
Record cpu := mkCpu {
  c_addr : Z;
  c_apicid : Z;
  c_ts : taskstate;
  c_gdt : list segdesc;
  c_started : Z;
  c_ncli : Z;
  c_intena : bool;
  c_proc : option nat
}.

(** The segment registers, the task register, and the base and limit of the
    descriptor tables. *)
Record sysregs := mkSys {
  sr_cs : Z; sr_ds : Z; sr_es : Z; sr_ss : Z; sr_fs : Z; sr_gs : Z;
  sr_tr : Z;
  sr_gdtr : Z * Z;
  sr_idtr : Z * Z
}.

(** The registers of the CPU that runs the modelled thread. *)
Record hwcpu := mkHw {
  hw_apicid : Z;
  hw_if : bool;
  hw_cr3 : Z;
  hw_sys : sysregs
}.

Inductive procstate := UNUSED | EMBRYO | SLEEPING | RUNNABLE | RUNNING | ZOMBIE.

#[global] Instance procstate_eq_dec : EqDecision procstate.
Proof. solve_decision. Defined.

(** struct trapframe (padding left out). *)
Record trapframe := mkTf {
  tf_gs : Z; tf_fs : Z; tf_es : Z; tf_ds : Z;
  tf_r9 : Z; tf_r8 : Z; tf_rcx : Z; tf_rdx : Z; tf_rsi : Z; tf_rdi : Z;
  tf_rax : Z;
  tf_r15 : Z; tf_r14 : Z; tf_r13 : Z; tf_r12 : Z; tf_rbp : Z; tf_rbx : Z;
  tf_trapno : Z; tf_err : Z; tf_rip : Z; tf_cs : Z; tf_rflags : Z;
  tf_rsp : Z; tf_ss : Z
}.

Definition tf_zero : trapframe :=
  mkTf 0 0 0 0 0 0 0 0 0 0 0 0 0 0 0 0 0 0 0 0 0 0 0 0.

(** struct proc; [context] is the continuation of the thread's [Swtch]. *)
Record proc := mkProc {
  p_sz : Z;
  p_pml4 : Z;
  p_kstack : Z;
  p_state : procstate;
  p_pid : Z;
  p_parent : option nat;
  p_tf : trapframe;
  p_chan : option chan;
  p_killed : Z;
  p_ofile : list (option nat);
  p_cwd : option nat;
  p_name : list Z
}.

Definition proc_zero : proc :=
  mkProc 0 0 0 UNUSED 0 None tf_zero None 0 (replicate NOFILE None) None (replicate 16 0).

(** The process table, [initproc] and [nextpid]. *)
Record ptab := mkPtab {
  pt_proc : list proc;
  pt_initproc : option nat;
  pt_nextpid : Z
}.

(** * Memory *)

Record kmapent := mkKmap {
  km_phys_start : Z;
  km_phys_end : Z;
  km_perm : Z;
  km_heap : Z
}.

(** [kmem], [kmap], [kmap_cur] and [kpml4]; [kmem_end] is the linker's symbol
    [end]. *)
Record kmemrec := mkKmem {
  kmem_use_lock : Z;
  kmem_freelist : Z;
  kmem_end : Z;
  kmap_tab : list kmapent;
  kmap_cur : Z;
  kpml4 : Z
}.

(** * Disk, buffer cache and log *)

(** The in-memory disk image of kernel/ide/memide.c, one list of bytes per
    block. [d_trace] records the block writes in order; the code never reads
    it, theorems on crashes do. *)
Record diskrec := mkDisk {
  d_blocks : list (list Z);
  d_trace : list (Z * list Z)
}.

(** struct buf; [qnext], the request queue of kernel/ide/ide.c, is with that
    driver's state. *)
Record buf := mkBuf {
  b_flags : Z;
  b_dev : Z;
  b_blockno : Z;
  b_lock : sleeplock;
  b_refcnt : Z;
  b_prev : nat;
  b_next : nat;
  b_data : list Z
}.

(** struct log with its struct logheader. *)
Record logrec := mkLog {
  l_start : Z;
  l_size : Z;
  l_outstanding : Z;
  l_committing : Z;
  l_dev : Z;
  lh_n : Z;
  lh_block : list Z
}.

(** * File system *)

Record superblock := mkSb {
  sb_size : Z;
  sb_nblocks : Z;
  sb_ninodes : Z;
  sb_nlog : Z;
  sb_logstart : Z;
  sb_inodestart : Z;
  sb_bmapstart : Z
}.

(** struct dinode. *)
Record dinode := mkDinode {
  di_type : Z;
  di_major : Z;
  di_minor : Z;
  di_nlink : Z;
  di_size : Z;
  di_addrs : list Z
}.

(** struct inode. *)
Record inode := mkInode {
  i_dev : Z;
  i_inum : Z;
  i_ref : Z;
  i_lock : sleeplock;
  i_valid : Z;
  i_type : Z;
  i_major : Z;
  i_minor : Z;
  i_nlink : Z;
  i_size : Z;
  i_addrs : list Z
}.

(** struct dirent. *)
Record dirent := mkDirent {
  de_inum : Z;
  de_name : list Z
}.

(** struct stat. *)
Record stat := mkStat {
  st_type : Z;
  st_dev : Z;
  st_ino : Z;
  st_nlink : Z;
  st_size : Z
}.

Inductive filetype := FD_NONE | FD_PIPE | FD_INODE.

#[global] Instance filetype_eq_dec : EqDecision filetype.
Proof. solve_decision. Defined.

(** struct file; [f_pipe] is the address of the pipe's page. *)
Record file := mkFile {
  f_type : filetype;
  f_ref : Z;
  f_readable : Z;
  f_writable : Z;
  f_pipe : Z;
  f_ip : option nat;
  f_off : Z
}.

(** struct pipe. *)
Record pipe := mkPipe {
  pi_data : list Z;
  pi_nread : Z;
  pi_nwrite : Z;
  pi_readopen : Z;
  pi_writeopen : Z
}.

(** The console's [input] buffer, [cons.locking] and [panicked]; [cn_out] is
    the sequence of characters handed to the UART and the framebuffer. Then the
    input devices: [shift] of kernel/kbd.c and the bytes waiting behind the
    keyboard's data port, [uart] of kernel/uart.c and the bytes waiting in the
    serial port. *)
Record consrec := mkCons {
  cn_buf : list Z;
  cn_r : Z;
  cn_w : Z;
  cn_e : Z;
  cn_locking : Z;
  cn_panicked : Z;
  cn_out : list Z;
  cn_shift : Z;
  cn_kbd : list Z;
  cn_uart : Z;
  cn_rx : list Z
}.

(** * The state *)

(** The CPUs, the registers of the one the modelled thread runs on, and the
    spinlocks: what taking and releasing a spinlock changes. *)
Record cpuctx := mkCtx {
  x_hw : hwcpu;
  x_cpus : list cpu;
  x_locks : gmap lockid spinlock
}.

Record kstate := mkK {
  k_ctx : cpuctx;
  k_pt : ptab;
  k_km : kmemrec;
  k_mem : mem;
  k_disk : diskrec;
  k_bc : list buf;
  k_log : logrec;
  k_sb : superblock;
  k_ic : list inode;
  k_ft : list file;
  k_pipes : gmap Z pipe;
  k_ticks : Z;
  k_cons : consrec;
  k_idt : list gatedesc
}.

(** Assignment to one component. *)
Definition set_ctx (v : cpuctx) (s : kstate) : kstate :=
  mkK v (k_pt s) (k_km s) (k_mem s) (k_disk s) (k_bc s) (k_log s) (k_sb s) (k_ic s) (k_ft s) (k_pipes s) (k_ticks s) (k_cons s) (k_idt s).
Definition set_pt (v : ptab) (s : kstate) : kstate :=
  mkK (k_ctx s) v (k_km s) (k_mem s) (k_disk s) (k_bc s) (k_log s) (k_sb s) (k_ic s) (k_ft s) (k_pipes s) (k_ticks s) (k_cons s) (k_idt s).
Definition set_km (v : kmemrec) (s : kstate) : kstate :=
  mkK (k_ctx s) (k_pt s) v (k_mem s) (k_disk s) (k_bc s) (k_log s) (k_sb s) (k_ic s) (k_ft s) (k_pipes s) (k_ticks s) (k_cons s) (k_idt s).
Definition set_mem (v : mem) (s : kstate) : kstate :=
  mkK (k_ctx s) (k_pt s) (k_km s) v (k_disk s) (k_bc s) (k_log s) (k_sb s) (k_ic s) (k_ft s) (k_pipes s) (k_ticks s) (k_cons s) (k_idt s).
Definition set_disk (v : diskrec) (s : kstate) : kstate :=
  mkK (k_ctx s) (k_pt s) (k_km s) (k_mem s) v (k_bc s) (k_log s) (k_sb s) (k_ic s) (k_ft s) (k_pipes s) (k_ticks s) (k_cons s) (k_idt s).
Definition set_bc (v : list buf) (s : kstate) : kstate :=
  mkK (k_ctx s) (k_pt s) (k_km s) (k_mem s) (k_disk s) v (k_log s) (k_sb s) (k_ic s) (k_ft s) (k_pipes s) (k_ticks s) (k_cons s) (k_idt s).
Definition set_log (v : logrec) (s : kstate) : kstate :=
  mkK (k_ctx s) (k_pt s) (k_km s) (k_mem s) (k_disk s) (k_bc s) v (k_sb s) (k_ic s) (k_ft s) (k_pipes s) (k_ticks s) (k_cons s) (k_idt s).
Definition set_sb (v : superblock) (s : kstate) : kstate :=
  mkK (k_ctx s) (k_pt s) (k_km s) (k_mem s) (k_disk s) (k_bc s) (k_log s) v (k_ic s) (k_ft s) (k_pipes s) (k_ticks s) (k_cons s) (k_idt s).
Definition set_ic (v : list inode) (s : kstate) : kstate :=
  mkK (k_ctx s) (k_pt s) (k_km s) (k_mem s) (k_disk s) (k_bc s) (k_log s) (k_sb s) v (k_ft s) (k_pipes s) (k_ticks s) (k_cons s) (k_idt s).
Definition set_ft (v : list file) (s : kstate) : kstate :=
  mkK (k_ctx s) (k_pt s) (k_km s) (k_mem s) (k_disk s) (k_bc s) (k_log s) (k_sb s) (k_ic s) v (k_pipes s) (k_ticks s) (k_cons s) (k_idt s).
Definition set_pipes (v : gmap Z pipe) (s : kstate) : kstate :=
  mkK (k_ctx s) (k_pt s) (k_km s) (k_mem s) (k_disk s) (k_bc s) (k_log s) (k_sb s) (k_ic s) (k_ft s) v (k_ticks s) (k_cons s) (k_idt s).
Definition set_ticks (v : Z) (s : kstate) : kstate :=
  mkK (k_ctx s) (k_pt s) (k_km s) (k_mem s) (k_disk s) (k_bc s) (k_log s) (k_sb s) (k_ic s) (k_ft s) (k_pipes s) v (k_cons s) (k_idt s).
Definition set_cons (v : consrec) (s : kstate) : kstate :=
  mkK (k_ctx s) (k_pt s) (k_km s) (k_mem s) (k_disk s) (k_bc s) (k_log s) (k_sb s) (k_ic s) (k_ft s) (k_pipes s) (k_ticks s) v (k_idt s).
Definition set_idt (v : list gatedesc) (s : kstate) : kstate :=
  mkK (k_ctx s) (k_pt s) (k_km s) (k_mem s) (k_disk s) (k_bc s) (k_log s) (k_sb s) (k_ic s) (k_ft s) (k_pipes s) (k_ticks s) (k_cons s) v.

Lemma set_ctx_set_ctx x y s : set_ctx x (set_ctx y s) = set_ctx x s.
Proof. done. Qed.

Lemma set_ctx_id s : set_ctx (k_ctx s) s = s.
Proof. by destruct s. Qed.

Lemma set_log_id s : set_log (k_log s) s = s.
Proof. by destruct s. Qed.

(** Table entries: an index outside a table reads as the zeroed struct the
    loader puts there. *)
Definition sleep_zero : sleeplock := mkSleep 0 "" 0.
#[global] Instance cpu_inhabited : Inhabited cpu := populate (mkCpu 0 0 ts_zero [] 0 0 false None).
#[global] Instance proc_inhabited : Inhabited proc := populate proc_zero.
#[global] Instance buf_inhabited : Inhabited buf :=
  populate (mkBuf 0 0 0 sleep_zero 0 0 0 []).
#[global] Instance inode_inhabited : Inhabited inode :=
  populate (mkInode 0 0 0 sleep_zero 0 0 0 0 0 0 []).
#[global] Instance file_inhabited : Inhabited file :=
  populate (mkFile FD_NONE 0 0 0 0 None 0).
#[global] Instance pipe_inhabited : Inhabited pipe := populate (mkPipe [] 0 0 0 0).
#[global] Instance kmapent_inhabited : Inhabited kmapent := populate (mkKmap 0 0 0 0).

Abbreviation K := (M kstate).
