(* ===== verification/Spinlock.v ===== *)
(** Spinlocks and the interrupt-disable nesting of kernel/spinlock.c, with the
    [mycpu] and [myproc] of kernel/proc.c they rest on.

    The first part is the code on one CPU: [acquire] of a free lock and
    [release] of a held one, with their panics; acquiring a lock another CPU
    holds is the outcome [Spin]. The second part, [Smp], runs the memory
    operations of [acquire] and [release] of any number of CPUs in every
    interleaving and proves mutual exclusion. *)

From stdpp Require Import base list gmap strings functions.
From Stdlib Require Import ZArith Lia.
From S2P Require Import Prelude Monad Kstate.

(** * The CPU this thread runs on *)

Definition getx {A} (f : cpuctx → A) : K A := gets (λ s, f (k_ctx s)).
Definition modx (f : cpuctx → cpuctx) : K unit := modify (λ s, set_ctx (f (k_ctx s)) s).

(** [readrflags() & FL_IF]. *)
Definition intr_on : K bool := getx (λ x, hw_if (x_hw x)).

Definition set_if (b : bool) : K unit :=
  modx (λ x, mkCtx (mkHw (hw_apicid (x_hw x)) b (hw_cr3 (x_hw x)) (hw_sys (x_hw x))) (x_cpus x) (x_locks x)).
Definition cli : K unit := set_if false.
Definition sti : K unit := set_if true.

(** The index of the current CPU in [cpus]; [ncpu] is the length of the list. *)
Definition mycpu : K nat :=
  on ← intr_on;
  if (on : bool) then panic "mycpu called with interrupts enabled\n" else
  apicid ← getx (λ x, hw_apicid (x_hw x));
  cpus ← getx x_cpus;
  r ← forM (length cpus) 0 (λ i,
        mret (if c_apicid (cpus !!! Z.to_nat i) =? apicid then Some (Z.to_nat i) else None));
  match r with
  | Some i => mret i
  | None => panic "unknown apicid\n"
  end.

Definition cpuid : K nat := mycpu.

Definition upd_cpu (i : nat) (f : cpu → cpu) : K unit :=
  modx (λ x, mkCtx (x_hw x) (alter f i (x_cpus x)) (x_locks x)).
Definition get_cpu (i : nat) : K cpu := getx (λ x, x_cpus x !!! i).

Definition cpu_set_ncli (v : Z) (c : cpu) : cpu :=
  mkCpu (c_addr c) (c_apicid c) (c_ts c) (c_gdt c) (c_started c) v (c_intena c) (c_proc c).
Definition cpu_set_intena (v : bool) (c : cpu) : cpu :=
  mkCpu (c_addr c) (c_apicid c) (c_ts c) (c_gdt c) (c_started c) (c_ncli c) v (c_proc c).
Definition cpu_set_proc (v : option nat) (c : cpu) : cpu :=
  mkCpu (c_addr c) (c_apicid c) (c_ts c) (c_gdt c) (c_started c) (c_ncli c) (c_intena c) v.

(** * Interrupt-disable nesting *)

Definition pushcli : K unit :=
  rflags ← intr_on;
  cli;;
  i ← mycpu;
  c ← get_cpu i;
  whenM (c_ncli c =? 0) (upd_cpu i (cpu_set_intena rflags));;
  upd_cpu i (λ c, cpu_set_ncli (c_ncli c + 1) c).

Definition popcli : K unit :=
  on ← intr_on;
  if (on : bool) then panic "popcli - interruptible" else
  i ← mycpu;
  upd_cpu i (λ c, cpu_set_ncli (c_ncli c - 1) c);;
  c ← get_cpu i;
  if c_ncli c <? 0 then panic "popcli" else
  whenM ((c_ncli c =? 0) && c_intena c)%bool sti.

Definition myproc : K (option nat) :=
  pushcli;;
  i ← mycpu;
  c ← get_cpu i;
  popcli;;
  mret (c_proc c).

(** * Spinlocks *)

Definition get_lock (l : lockid) : K spinlock :=
  getx (λ x, default (mkSpin 0 "" None) (x_locks x !! l)).
Definition put_lock (l : lockid) (v : spinlock) : K unit :=
  modx (λ x, mkCtx (x_hw x) (x_cpus x) (<[l := v]> (x_locks x))).

Definition initlock (l : lockid) (name : string) : K unit :=
  put_lock l (mkSpin 0 name None).

Definition holding (l : lockid) : K bool :=
  pushcli;;
  lk ← get_lock l;
  i ← mycpu;
  popcli;;
  mret (negb (lk_locked lk =? 0) && bool_decide (lk_cpu lk = Some i))%bool.

(** [xchg(&lk->locked, 1)]: store 1, give the old value. *)
Definition xchg_locked (l : lockid) : K Z :=
  lk ← get_lock l;
  put_lock l (mkSpin 1 (lk_name lk) (lk_cpu lk));;
  mret (lk_locked lk).

Definition acquire (l : lockid) : K unit :=
  pushcli;;
  h ← holding l;
  if (h : bool) then panic "acquire" else
  old ← xchg_locked l;
  if old =? 0 then
    i ← mycpu;
    lk ← get_lock l;
    put_lock l (mkSpin (lk_locked lk) (lk_name lk) (Some i))
  else spin.

Definition release (l : lockid) : K unit :=
  h ← holding l;
  if negb h then panic "release" else
  lk ← get_lock l;
  put_lock l (mkSpin (lk_locked lk) (lk_name lk) None);;
  put_lock l (mkSpin 0 (lk_name lk) None);;
  popcli.

(** * Running them *)

Section run.
Implicit Types (s : kstate) (x : cpuctx) (fuel : nat).

(** [i] is the CPU [mycpu] finds: the first entry with this APIC id. *)
Definition oncpu (x : cpuctx) (i : nat) (c : cpu) : Prop :=
  x_cpus x !! i = Some c ∧ c_apicid c = hw_apicid (x_hw x) ∧
  ∀ j c', (j < i)%nat → x_cpus x !! j = Some c' → c_apicid c' ≠ hw_apicid (x_hw x).

(** The nesting counter of CPU [i] is consistent with the interrupt flag. *)
Definition cpu_ok (x : cpuctx) (i : nat) : Prop :=
  ∃ c, oncpu x i c ∧ 0 ≤ c_ncli c ∧
       (0 < c_ncli c → hw_if (x_hw x) = false) ∧ (c_ncli c = 0 → c_intena c = hw_if (x_hw x)).

Lemma mycpu_run fuel s i c :
  oncpu (k_ctx s) i c → hw_if (x_hw (k_ctx s)) = false → mycpu fuel s = Ret i s.
Proof.
  intros (Hi&Ha&Hmin) Hif. unfold mycpu, intr_on, getx. mred. rewrite Hif. mred.
  rewrite (forM_find _ _ _ i i).
  - done.
  - intros j Hj. rewrite Z.add_0_l in Hj.
    destruct (lookup_lt_is_Some_2 (x_cpus (k_ctx s)) (Z.to_nat j)) as [c' Hc'].
    { apply lookup_lt_Some in Hi. lia. }
    rewrite (list_lookup_total_correct _ _ _ Hc').
    destruct (Z.eqb_spec (c_apicid c') (hw_apicid (x_hw (k_ctx s)))); [|done].
    by destruct (Hmin (Z.to_nat j) c'); [lia| |].
  - rewrite Z.add_0_l, Nat2Z.id, (list_lookup_total_correct _ _ _ Hi), Ha.
    by rewrite Z.eqb_refl.
  - by apply lookup_lt_Some in Hi.
Qed.

Lemma upd_cpu_run fuel s i c f :
  x_cpus (k_ctx s) !! i = Some c →
  upd_cpu i f fuel s =
    Ret tt (set_ctx (mkCtx (x_hw (k_ctx s)) (<[i := f c]> (x_cpus (k_ctx s))) (x_locks (k_ctx s))) s).
Proof.
  intros Hi. unfold upd_cpu, modx. mred. do 3 f_equal. apply list_eq. intros j.
  rewrite list_lookup_alter, list_lookup_insert.
  pose proof (lookup_lt_Some _ _ _ Hi). repeat case_decide; subst; try tauto.
  by rewrite Hi.
Qed.

Lemma get_cpu_run fuel s i c : x_cpus (k_ctx s) !! i = Some c → get_cpu i fuel s = Ret c s.
Proof.
  intros Hi. unfold get_cpu, getx. mred. by rewrite (list_lookup_total_correct _ _ _ Hi).
Qed.

(** CPU [i] set to [c] and the interrupt flag to [on]. *)
Definition x_cpu (i : nat) (c : cpu) (on : bool) (x : cpuctx) : cpuctx :=
  mkCtx (mkHw (hw_apicid (x_hw x)) on (hw_cr3 (x_hw x)) (hw_sys (x_hw x))) (<[i := c]> (x_cpus x)) (x_locks x).

Lemma oncpu_x_cpu x i c c' on :
  oncpu x i c → c_apicid c' = c_apicid c → oncpu (x_cpu i c' on x) i c'.
Proof.
  intros (Hi&Ha&Hmin) E. pose proof (lookup_lt_Some _ _ _ Hi). split_and!; simpl.
  - by apply list_lookup_insert_eq.
  - congruence.
  - intros j d Hj. rewrite list_lookup_insert_ne by lia. eauto.
Qed.

Lemma x_cpu_x_cpu i c c' on on' x : x_cpu i c on (x_cpu i c' on' x) = x_cpu i c on x.
Proof. unfold x_cpu. simpl. by rewrite list_insert_insert_eq. Qed.

Lemma x_cpu_id x i c : oncpu x i c → x_cpu i c (hw_if (x_hw x)) x = x.
Proof.
  intros (Hi&_&_). unfold x_cpu. rewrite list_insert_id by done. by destruct x as [[]].
Qed.

(** The effect of [pushcli] on the CPU it runs on. *)
Definition push_cpu (on : bool) (c : cpu) : cpu :=
  cpu_set_ncli (c_ncli c + 1) (if c_ncli c =? 0 then cpu_set_intena on c else c).
Definition x_push (i : nat) (x : cpuctx) : cpuctx :=
  x_cpu i (push_cpu (hw_if (x_hw x)) (x_cpus x !!! i)) false x.

Lemma apicid_push_cpu on c : c_apicid (push_cpu on c) = c_apicid c.
Proof. unfold push_cpu. by destruct (c_ncli c =? 0). Qed.

Lemma ncli_push_cpu on c : c_ncli (push_cpu on c) = c_ncli c + 1.
Proof. done. Qed.

Lemma pushcli_run fuel s i c :
  oncpu (k_ctx s) i c → pushcli fuel s = Ret tt (set_ctx (x_push i (k_ctx s)) s).
Proof.
  intros H. pose proof H as (Hi&Ha&Hmin). unfold pushcli, intr_on, cli, set_if, getx. mred.
  unfold modx. mred. rewrite (mycpu_run _ _ i c) by done. mred.
  rewrite (get_cpu_run _ _ i c) by done. mred. unfold x_push, push_cpu.
  rewrite (list_lookup_total_correct _ _ _ Hi).
  destruct (c_ncli c =? 0); mred.
  - rewrite (upd_cpu_run _ _ i c) by done. mred.
    erewrite upd_cpu_run by (simpl; apply list_lookup_insert_eq; by eapply lookup_lt_Some).
    unfold x_cpu. simpl. by rewrite list_insert_insert_eq.
  - by erewrite upd_cpu_run by done.
Qed.

(** [popcli] when the counter is positive. *)
Definition pop_cpu (c : cpu) : cpu := cpu_set_ncli (c_ncli c - 1) c.

Lemma popcli_run fuel s i c :
  oncpu (k_ctx s) i c → hw_if (x_hw (k_ctx s)) = false → 0 < c_ncli c →
  popcli fuel s =
    Ret tt (set_ctx (x_cpu i (pop_cpu c) (bool_decide (c_ncli c = 1) && c_intena c) (k_ctx s)) s).
Proof.
  intros H Hif Hn. pose proof H as (Hi&Ha&Hmin). unfold popcli, intr_on, getx. mred. rewrite Hif.
  mred. rewrite (mycpu_run _ _ i c) by done. mred. rewrite (upd_cpu_run _ _ i c) by done. mred.
  erewrite get_cpu_run by (simpl; apply list_lookup_insert_eq; by eapply lookup_lt_Some). mred.
  simpl. destruct (Z.ltb_spec (c_ncli c - 1) 0); [lia|].
  unfold x_cpu, sti, set_if, modx.
  case_bool_decide as E; destruct (Z.eqb_spec (c_ncli c - 1) 0); try lia; simpl.
  - destruct (c_intena c); mred; [done|].
    simpl. rewrite <- Hif. by destruct s as [[[]]].
  - mred. rewrite <- Hif. by destruct s as [[[]]].
Qed.

(** A [pushcli] undone by a [popcli] gives the CPU back as it was. *)
Lemma x_push_pop x i c :
  oncpu x i c → 0 ≤ c_ncli c → (0 < c_ncli c → hw_if (x_hw x) = false) →
  (c_ncli c = 0 → c_intena c = hw_if (x_hw x)) →
  x_cpu i (pop_cpu (push_cpu (hw_if (x_hw x)) c))
    (bool_decide (c_ncli (push_cpu (hw_if (x_hw x)) c) = 1) &&
     c_intena (push_cpu (hw_if (x_hw x)) c)) x = x.
Proof.
  intros H Hn Hpos Hz. transitivity (x_cpu i c (hw_if (x_hw x)) x); [|by apply x_cpu_id]. f_equal.
  - unfold pop_cpu, push_cpu. destruct (Z.eqb_spec (c_ncli c) 0) as [E|E]; destruct c; simpl in *.
    + unfold cpu_set_ncli, cpu_set_intena. simpl. f_equal; first [lia|by rewrite Hz].
    + unfold cpu_set_ncli. simpl. f_equal. lia.
  - rewrite ncli_push_cpu. case_bool_decide as E.
    + unfold push_cpu. destruct (Z.eqb_spec (c_ncli c) 0); [done|lia].
    + rewrite Hpos by lia. done.
Qed.

(** * Acquire and release *)

(** The context after [acquire l] on CPU [i]. *)
Definition x_acq (i : nat) (l : lockid) (x : cpuctx) : cpuctx :=
  let x' := x_push i x in
  mkCtx (x_hw x') (x_cpus x')
    (<[l := mkSpin 1 (default "" (lk_name <$> x_locks x !! l)) (Some i)]> (x_locks x)).

(** Lock [l] has been initialised and nobody holds it. *)
Definition lock_free (x : cpuctx) (l : lockid) : Prop :=
  ∃ nm, x_locks x !! l = Some (mkSpin 0 nm None).

Lemma cpu_ok_push x i : cpu_ok x i → cpu_ok (x_push i x) i.
Proof.
  intros (c&H&Hn&Hp&Hz). exists (push_cpu (hw_if (x_hw x)) c). unfold x_push.
  rewrite (list_lookup_total_correct _ _ _ (proj1 H)). split_and!.
  - apply (oncpu_x_cpu _ _ c); [done|apply apicid_push_cpu].
  - rewrite ncli_push_cpu. lia.
  - done.
  - rewrite ncli_push_cpu. lia.
Qed.

Lemma cpu_ok_acq x i l : cpu_ok x i → cpu_ok (x_acq i l x) i.
Proof. intros H. apply cpu_ok_push in H. exact H. Qed.

(** [holding] reads the lock and leaves everything as it was. *)
Lemma holding_run fuel s i l :
  cpu_ok (k_ctx s) i →
  holding l fuel s =
    Ret (let lk := default (mkSpin 0 "" None) (x_locks (k_ctx s) !! l) in
         negb (lk_locked lk =? 0) && bool_decide (lk_cpu lk = Some i)) s.
Proof.
  intros (c&H&Hn&Hp&Hz). pose proof H as (Hi&_&_). unfold holding, get_lock, getx.
  mred. rewrite (pushcli_run _ _ i c) by done. mred. simpl.
  assert (Hx : oncpu (x_push i (k_ctx s)) i (push_cpu (hw_if (x_hw (k_ctx s))) c)).
  { unfold x_push. rewrite (list_lookup_total_correct _ _ _ Hi).
    apply (oncpu_x_cpu _ _ c); [done|apply apicid_push_cpu]. }
  erewrite mycpu_run by done. mred.
  erewrite popcli_run; [|exact Hx|done|rewrite ncli_push_cpu; lia]. mred.
  do 2 f_equal. simpl. unfold x_push. rewrite (list_lookup_total_correct _ _ _ Hi).
  rewrite x_cpu_x_cpu, x_push_pop by done. by destruct s.
Qed.

Lemma acquire_run fuel s i l :
  cpu_ok (k_ctx s) i → lock_free (k_ctx s) l →
  acquire l fuel s = Ret tt (set_ctx (x_acq i l (k_ctx s)) s).
Proof.
  intros Hok [nm Hl]. pose proof Hok as (c&H&_). unfold acquire.
  mred. rewrite (pushcli_run _ _ i c) by done. mred.
  rewrite (holding_run _ _ i) by (by apply cpu_ok_push). mred. simpl. rewrite Hl. simpl.
  unfold xchg_locked, get_lock, put_lock, getx, modx. mred. simpl. rewrite Hl. simpl. mred.
  destruct (cpu_ok_push _ _ Hok) as (c'&H'&_).
  rewrite (mycpu_run _ _ i c') by done. mred. simpl. rewrite lookup_insert_eq. simpl.
  unfold x_acq. simpl. rewrite Hl. simpl. by rewrite insert_insert_eq.
Qed.

(** [release] of a lock this CPU acquired in context [x], whatever other
    state has changed since, restores [x]. *)
Lemma release_run fuel s x i l :
  cpu_ok x i → lock_free x l → k_ctx s = x_acq i l x →
  release l fuel s = Ret tt (set_ctx x s).
Proof.
  intros Hok [nm Hl] Hs. pose proof Hok as (c&H&Hn&Hp&Hz). pose proof H as (Hi&_&_).
  unfold release. mred. rewrite (holding_run _ _ i) by (rewrite Hs; by apply cpu_ok_acq).
  mred. rewrite Hs. simpl. rewrite lookup_insert_eq. simpl. rewrite bool_decide_true by done.
  simpl. unfold get_lock, put_lock, getx, modx. mred. rewrite Hs. simpl.
  rewrite lookup_insert_eq. simpl.
  erewrite (popcli_run _ _ i (push_cpu (hw_if (x_hw x)) c)).
  - simpl. rewrite !insert_insert_eq, Hl. simpl. rewrite insert_id by done.
    rewrite !set_ctx_set_ctx. do 2 f_equal. etrans; [|by apply (x_push_pop x i c)].
    unfold x_cpu. simpl. rewrite (list_lookup_total_correct _ _ _ Hi).
    by rewrite list_insert_insert_eq.
  - simpl. rewrite (list_lookup_total_correct _ _ _ Hi).
    apply (oncpu_x_cpu x i c); [done|apply apicid_push_cpu].
  - done.
  - rewrite ncli_push_cpu. lia.
Qed.
End run.

(** * Nesting *)

(** [n] calls in a row. *)
Fixpoint repM (n : nat) (m : K unit) : K unit :=
  match n with
  | O => mret tt
  | S n => m;; repM n m
  end.

Lemma repM_snoc n m fuel s s1 s2 :
  repM n m fuel s = Ret tt s1 → m fuel s1 = Ret tt s2 → repM (S n) m fuel s = Ret tt s2.
Proof.
  revert s. induction n as [|n IH]; intros s H1 H2.
  - injection H1 as ->. cbn [repM]. mred. by rewrite H2.
  - cbn [repM] in H1. apply run_bind_inv in H1 as ([]&s'&E&H1).
    specialize (IH s' H1 H2). change (repM (S (S n)) m) with (m;; repM (S n) m).
    mred. rewrite E. mred. done.
Qed.

Lemma popcli_x_push fuel s i :
  cpu_ok (k_ctx s) i → popcli fuel (set_ctx (x_push i (k_ctx s)) s) = Ret tt s.
Proof.
  intros (c&H&Hn&Hp&Hz).
  rewrite (popcli_run _ _ i (push_cpu (hw_if (x_hw (k_ctx s))) c)).
  - simpl. unfold x_push. rewrite (list_lookup_total_correct _ _ _ (proj1 H)).
    rewrite x_cpu_x_cpu, set_ctx_set_ctx, x_push_pop by done. by rewrite set_ctx_id.
  - simpl. unfold x_push. rewrite (list_lookup_total_correct _ _ _ (proj1 H)).
    apply (oncpu_x_cpu _ _ c); [done|apply apicid_push_cpu].
  - done.
  - rewrite ncli_push_cpu. lia.
Qed.

(** [pushcli] and [popcli] are matched: after [n] calls of the first and [n]
    of the second the CPU is as it was, its interrupt flag included; in between
    interrupts are off. *)
Theorem pushcli_popcli_nest n fuel s i :
  cpu_ok (k_ctx s) i →
  ∃ s1, repM n pushcli fuel s = Ret tt s1 ∧
        (n ≠ 0%nat → hw_if (x_hw (k_ctx s1)) = false) ∧
        repM n popcli fuel s1 = Ret tt s.
Proof.
  revert s. induction n as [|n IH]; intros s Hok.
  { exists s. done. }
  pose proof Hok as (c&H&_).
  destruct (IH (set_ctx (x_push i (k_ctx s)) s)) as (s1&E&Hif&Hpop); [by apply cpu_ok_push|].
  exists s1. split_and!.
  - cbn [repM]. mred. rewrite (pushcli_run _ _ i c) by done. mred. done.
  - intros _. destruct n; [|by apply Hif]. by injection E as <-.
  - eapply repM_snoc; [exact Hpop|]. by apply popcli_x_push.
Qed.

(** C39: [acquire] of a free lock returns with the lock held by this CPU, the
    matching [release] undoes it; acquiring a lock this CPU holds, or releasing
    one it does not hold, panics; acquiring one another CPU holds spins. *)
Theorem acquire_release_cases fuel s i l :
  cpu_ok (k_ctx s) i →
  (lock_free (k_ctx s) l →
     ∃ s1, acquire l fuel s = Ret tt s1 ∧ holding l fuel s1 = Ret true s1 ∧
           hw_if (x_hw (k_ctx s1)) = false ∧
           (∃ s2, acquire l fuel s1 = Panic "acquire" s2) ∧
           release l fuel s1 = Ret tt s) ∧
  (∀ nm v o, x_locks (k_ctx s) !! l = Some (mkSpin v nm o) → v = 0 ∨ o ≠ Some i →
     release l fuel s = Panic "release" s) ∧
  (∀ nm j, x_locks (k_ctx s) !! l = Some (mkSpin 1 nm (Some j)) → j ≠ i →
     ∃ s2, acquire l fuel s = Spin s2).
Proof.
  intros Hok. split_and!.
  - intros Hl. pose proof (cpu_ok_acq _ _ l Hok) as Hok1.
    exists (set_ctx (x_acq i l (k_ctx s)) s). split_and!.
    + by apply acquire_run.
    + rewrite (holding_run _ _ i) by done. simpl. rewrite lookup_insert_eq. simpl.
      by rewrite bool_decide_true.
    + done.
    + destruct Hok1 as (c&H&?). eexists. unfold acquire. mred.
      erewrite pushcli_run by exact H. mred. rewrite (holding_run _ _ i).
      * simpl. rewrite lookup_insert_eq. simpl. rewrite bool_decide_true by done. done.
      * apply cpu_ok_push. exists c. done.
    + rewrite (release_run _ _ (k_ctx s) i) by done. by rewrite set_ctx_set_ctx, set_ctx_id.
  - intros nm v o Hl Hno. unfold release. mred. rewrite (holding_run _ _ i) by done. mred.
    rewrite Hl. simpl. destruct Hno as [->|?]; [done|].
    rewrite bool_decide_false, andb_false_r by done. done.
  - intros nm j Hl Hj. pose proof Hok as (c&H&?). eexists. unfold acquire. mred.
    erewrite pushcli_run by exact H. mred. rewrite (holding_run _ _ i) by (by apply cpu_ok_push).
    simpl. rewrite Hl. simpl. rewrite bool_decide_false by congruence. mred.
    unfold xchg_locked, get_lock, put_lock, getx, modx. mred. simpl. rewrite Hl. simpl. done.
Qed.

(** * Many CPUs *)

Module Smp.

(** Where a CPU is in a run of [acquire] and [release] calls on one lock: at
    the two reads of [holding] ([AcqLocked], [AcqCpu]), spinning on the [xchg],
    about to store [lk->cpu], in its critical section, at the reads of the
    [holding] of [release], about to clear [lk->cpu], about to clear
    [lk->locked]; [Panicked] after a failed check. *)
Inductive pc :=
| Idle | AcqLocked | AcqCpu | AcqXchg | AcqSet | Crit | RelLocked | RelCpu | RelClear | RelUnlock
| Panicked.

Record state := mkSmp { locked : Z; owner : option nat; pcs : nat → pc }.

Definition goto (i : nat) (q : pc) (s : state) : state :=
  mkSmp (locked s) (owner s) (<[i := q]> (pcs s)).

(** One memory operation of CPU [i]. *)
Inductive step : state → state → Prop :=
| step_call s i : pcs s i = Idle → step s (goto i AcqLocked s)
| step_acq_locked s i : pcs s i = AcqLocked →
    step s (goto i (if locked s =? 0 then AcqXchg else AcqCpu) s)
| step_acq_cpu s i : pcs s i = AcqCpu →
    step s (goto i (if bool_decide (owner s = Some i) then Panicked else AcqXchg) s)
| step_xchg s i : pcs s i = AcqXchg →
    step s (goto i (if locked s =? 0 then AcqSet else AcqXchg) (mkSmp 1 (owner s) (pcs s)))
| step_set s i : pcs s i = AcqSet → step s (goto i Crit (mkSmp (locked s) (Some i) (pcs s)))
| step_crit s i : pcs s i = Crit → step s (goto i RelLocked s)
| step_rel_locked s i : pcs s i = RelLocked →
    step s (goto i (if locked s =? 0 then Panicked else RelCpu) s)
| step_rel_cpu s i : pcs s i = RelCpu →
    step s (goto i (if bool_decide (owner s = Some i) then RelClear else Panicked) s)
| step_clear s i : pcs s i = RelClear → step s (goto i RelUnlock (mkSmp (locked s) None (pcs s)))
| step_unlock s i : pcs s i = RelUnlock → step s (goto i Idle (mkSmp 0 (owner s) (pcs s))).

Definition init : state := mkSmp 0 None (λ _, Idle).

Inductive reach : state → Prop :=
| reach_init : reach init
| reach_step s s' : reach s → step s s' → reach s'.

(** Between a successful [xchg] and the store that clears [lk->locked]. *)
Definition inside (q : pc) : bool :=
  match q with
  | AcqSet | Crit | RelLocked | RelCpu | RelClear | RelUnlock => true
  | _ => false
  end.
(** With [lk->cpu] naming this CPU. *)
Definition named (q : pc) : bool :=
  match q with Crit | RelLocked | RelCpu | RelClear => true | _ => false end.

Definition inv (s : state) : Prop :=
  (locked s = 0 ∧ owner s = None ∧ (∀ i, inside (pcs s i) = false) ∨
   locked s = 1 ∧ ∃ h, inside (pcs s h) = true ∧ (∀ i, inside (pcs s i) = true → i = h) ∧
     owner s = if named (pcs s h) then Some h else None) ∧
  ∀ i, pcs s i ≠ Panicked.

Lemma pcs_goto i q s j : pcs (goto i q s) j = if decide (i = j) then q else pcs s j.
Proof.
  simpl. destruct (decide (i = j)) as [->|]; [apply fn_lookup_insert|by apply fn_lookup_insert_ne].
Qed.

(** A move that crosses none of the boundaries of [inside] and [named]. *)
Lemma goto_inv i q s :
  inv s → inside q = inside (pcs s i) → named q = named (pcs s i) → q ≠ Panicked →
  inv (goto i q s).
Proof.
  intros [Hl P] Hin Hna Hq.
  assert (Ein : ∀ j, inside (pcs (goto i q s) j) = inside (pcs s j)).
  { intros j. rewrite pcs_goto. case_decide; by subst. }
  assert (Ena : ∀ j, named (pcs (goto i q s) j) = named (pcs s j)).
  { intros j. rewrite pcs_goto. case_decide; by subst. }
  split; [|intros j; rewrite pcs_goto; by case_decide].
  destruct Hl as [(L&O&N)|(L&h&Hh&U&O)]; [left|right].
  - split_and!; [done..|]. intros j. by rewrite Ein.
  - split; [done|]. exists h. rewrite Ein, Ena. split_and!; [done| |done].
    intros j. rewrite Ein. apply U.
Qed.

(** The holder [i] of the lock moves on to [q], still inside. *)
Lemma holder_inv i q s o :
  inv s → inside (pcs s i) = true → inside q = true →
  o = (if named q then Some i else None) →
  inv (goto i q (mkSmp (locked s) o (pcs s))).
Proof.
  intros [[(L&O&N)|(L&h&Hh&U&O)] P] Hi Hq ->; [by rewrite N in Hi|].
  assert (i = h) as -> by auto. split.
  - right. split; [done|]. exists h. rewrite pcs_goto, decide_True by done. split_and!; [done| |done].
    intros j. rewrite pcs_goto. case_decide; [by intros|]. apply U.
  - intros j. rewrite pcs_goto. case_decide; [by destruct q|apply P].
Qed.

Lemma inv_locked s i : inv s → inside (pcs s i) = true → locked s = 1.
Proof. intros [[(L&O&N)|(L&h&Hh&U&O)] P] Hi; [by rewrite N in Hi|done]. Qed.

Lemma inv_owner s i : inv s → owner s = Some i → named (pcs s i) = true.
Proof.
  intros [[(L&O&N)|(L&h&Hh&U&O)] P] Hi; [congruence|].
  rewrite O in Hi. destruct (named (pcs s h)) eqn:E; [|done]. by injection Hi as ->.
Qed.

Lemma inv_named s i : inv s → named (pcs s i) = true → owner s = Some i.
Proof.
  intros [[(L&O&N)|(L&h&Hh&U&O)] P] Hi.
  - specialize (N i). by destruct (pcs s i).
  - assert (i = h) as -> by (apply U; by destruct (pcs s i)). by rewrite O, Hi.
Qed.

Lemma step_inv s s' : inv s → step s s' → inv s'.
Proof.
  intros Hi Hs.
  destruct Hs as [s i E|s i E|s i E|s i E|s i E|s i E|s i E|s i E|s i E|s i E].
  - apply goto_inv; by rewrite ?E.
  - apply goto_inv; rewrite ?E; by destruct (locked s =? 0).
  - destruct (bool_decide_reflect (owner s = Some i)) as [O|O].
    { apply inv_owner in O; [|done]. by rewrite E in O. }
    apply goto_inv; by rewrite ?E.
  - destruct Hi as [[(L&O&N)|(L&h&Hh&U&O)] P]; rewrite L; simpl.
    + split; [right; split; [done|]; exists i|].
      * rewrite pcs_goto, decide_True by done. split_and!; [done| |done].
        intros j. rewrite pcs_goto. case_decide; [done|]. simpl. by rewrite N.
      * intros j. rewrite pcs_goto. case_decide; [done|apply P].
    + rewrite <- L. apply (goto_inv i AcqXchg (mkSmp (locked s) (owner s) (pcs s))); simpl;
        rewrite ?E; try done. split; [right|done]. eauto 10.
  - apply holder_inv; by rewrite ?E.
  - apply goto_inv; by rewrite ?E.
  - rewrite (inv_locked s i) by (by rewrite ?E). apply goto_inv; by rewrite ?E.
  - rewrite bool_decide_true by (apply inv_named; by rewrite ?E). apply goto_inv; by rewrite ?E.
  - apply holder_inv; by rewrite ?E.
  - destruct Hi as [[(L&O&N)|(L&h&Hh&U&O)] P]; [specialize (N i); by rewrite E in N|].
    assert (i = h) as -> by (apply U; by rewrite E). split.
    + left. rewrite E in O. split_and!; [done|done|]. intros j. rewrite pcs_goto.
      case_decide; [done|]. simpl. destruct (inside (pcs s j)) eqn:I; [|done]. by apply U in I.
    + intros j. rewrite pcs_goto. case_decide; [done|apply P].
Qed.

(** C6: mutual exclusion: in every interleaving of the memory operations of
    [acquire] and [release] by any number of CPUs, at most one CPU is between
    its successful [xchg] and the store that frees the lock, and no check of
    [holding] fails. *)
Theorem mutual_exclusion s i j :
  reach s → inside (pcs s i) = true → inside (pcs s j) = true →
  i = j ∧ locked s = 1 ∧ ∀ k, pcs s k ≠ Panicked.
Proof.
  intros Hr Hi Hj.
  assert (Hinv : inv s).
  { clear Hi Hj. induction Hr as [|s s' _ IH Hs]; [|by eapply step_inv].
    split; [left|]; done. }
  pose proof (inv_locked s i Hinv Hi). destruct Hinv as [[(L&O&N)|(L&h&Hh&U&O)] P]; [lia|].
  split_and!; [|done..]. by rewrite (U i Hi), (U j Hj).
Qed.

(** CPU 3 goes through [acquire] into its critical section. *)
Definition in_crit : state :=
  goto 3 Crit (mkSmp 1 (Some 3%nat) (pcs (goto 3 AcqSet (mkSmp 1 None
    (pcs (goto 3 AcqXchg (goto 3 AcqLocked init))))))).

Lemma mutual_exclusion_witness : 3%nat = 3%nat ∧ locked in_crit = 1 ∧ ∀ k, pcs in_crit k ≠ Panicked.
Proof.
  apply (mutual_exclusion in_crit 3 3); [|reflexivity|reflexivity].
  eapply reach_step; [eapply reach_step; [eapply reach_step; [eapply reach_step; [apply reach_init|]|]|]|].
  - apply (step_call init 3). reflexivity.
  - apply (step_acq_locked (goto 3 AcqLocked init) 3). reflexivity.
  - apply (step_xchg (goto 3 AcqXchg (goto 3 AcqLocked init)) 3). reflexivity.
  - apply (step_set (goto 3 AcqSet (mkSmp 1 None (pcs (goto 3 AcqXchg (goto 3 AcqLocked init))))) 3). reflexivity.
Defined.
End Smp.
