(* ===== verification/Sched.v ===== *)
(** Giving up the CPU: [sched], [yield], [sleep], [wakeup] and [kill] of
    kernel/proc.c, and the sleep locks of kernel/sleeplock.c built on them.

    A thread that calls [sched] ends in the outcome [Swtch] with the state it
    leaves and its continuation. A null [myproc()] that the code dereferences
    is a kernel page fault, for which [trap] panics: [Panic "trap"]. *)

From stdpp Require Import base list gmap strings.
From Stdlib Require Import ZArith Lia.
From S2P Require Import Prelude Monad Kstate Spinlock.

(** * The process table *)

Definition get_proc (i : nat) : K proc := gets (λ s, pt_proc (k_pt s) !!! i).

Definition pt_upd (f : list proc → list proc) (t : ptab) : ptab :=
  mkPtab (f (pt_proc t)) (pt_initproc t) (pt_nextpid t).

Definition upd_procs (f : list proc → list proc) : K unit :=
  modify (λ s, set_pt (pt_upd f (k_pt s)) s).
Definition upd_proc (i : nat) (f : proc → proc) : K unit := upd_procs (alter f i).

(** [myproc()] where the code dereferences it. *)
Definition curproc : K nat :=
  p ← myproc;
  match p with
  | Some p => mret p
  | None => panic "trap"
  end.

Definition proc_set_state (v : procstate) (p : proc) : proc :=
  mkProc (p_sz p) (p_pml4 p) (p_kstack p) v (p_pid p) (p_parent p) (p_tf p) (p_chan p)
    (p_killed p) (p_ofile p) (p_cwd p) (p_name p).
Definition proc_set_chan (v : option chan) (p : proc) : proc :=
  mkProc (p_sz p) (p_pml4 p) (p_kstack p) (p_state p) (p_pid p) (p_parent p) (p_tf p) v
    (p_killed p) (p_ofile p) (p_cwd p) (p_name p).
Definition proc_set_killed (v : Z) (p : proc) : proc :=
  mkProc (p_sz p) (p_pml4 p) (p_kstack p) (p_state p) (p_pid p) (p_parent p) (p_tf p) (p_chan p)
    v (p_ofile p) (p_cwd p) (p_name p).

(** * Scheduling *)

Definition sched : K unit :=
  p ← curproc;
  h ← holding LkPtable;
  if negb h then panic "sched ptable.lock" else
  i ← mycpu;
  c ← get_cpu i;
  if negb (c_ncli c =? 1) then panic "sched locks" else
  pr ← get_proc p;
  if bool_decide (p_state pr = RUNNING) then panic "sched running" else
  on ← intr_on;
  if (on : bool) then panic "sched interruptible" else
  swtch;;
  j ← mycpu;
  upd_cpu j (cpu_set_intena (c_intena c)).

Definition yield : K unit :=
  acquire LkPtable;;
  p ← curproc;
  upd_proc p (proc_set_state RUNNABLE);;
  sched;;
  release LkPtable.

(** [sleep(chan, lk)]; [lk] is a null pointer when [None]. *)
Definition sleep (ch : chan) (lk : option lockid) : K unit :=
  p ← myproc;
  match p, lk with
  | None, _ => panic "sleep"
  | Some _, None => panic "sleep without lk"
  | Some p, Some lk =>
      whenM (bool_decide (lk ≠ LkPtable)) (acquire LkPtable;; release lk);;
      upd_proc p (proc_set_chan (Some ch));;
      upd_proc p (proc_set_state SLEEPING);;
      sched;;
      upd_proc p (proc_set_chan None);;
      whenM (bool_decide (lk ≠ LkPtable)) (release LkPtable;; acquire lk)
  end.

(** The loop of [wakeup1] over the table. *)
Definition wake_proc (ch : chan) (p : proc) : proc :=
  if bool_decide (p_state p = SLEEPING ∧ p_chan p = Some ch)
  then proc_set_state RUNNABLE p else p.
Definition wakeup1 (ch : chan) : K unit := upd_procs (map (wake_proc ch)).

Definition wakeup (ch : chan) : K unit :=
  acquire LkPtable;;
  wakeup1 ch;;
  release LkPtable.

Definition kill (pid : Z) : K Z :=
  acquire LkPtable;;
  n ← gets (λ s, length (pt_proc (k_pt s)));
  r ← forM n 0 (λ i,
    let i := Z.to_nat i in
    p ← get_proc i;
    if p_pid p =? pid then
      upd_proc i (proc_set_killed 1);;
      whenM (bool_decide (p_state p = SLEEPING)) (upd_proc i (proc_set_state RUNNABLE));;
      release LkPtable;;
      mret (Some 0)
    else mret None);
  match r with
  | Some r => mret r
  | None => release LkPtable;; mret (-1)
  end.

(** * Sleep locks *)

Definition inode_set_lock (v : sleeplock) (n : inode) : inode :=
  mkInode (i_dev n) (i_inum n) (i_ref n) v (i_valid n) (i_type n) (i_major n) (i_minor n)
    (i_nlink n) (i_size n) (i_addrs n).
Definition buf_set_lock (v : sleeplock) (b : buf) : buf :=
  mkBuf (b_flags b) (b_dev b) (b_blockno b) v (b_refcnt b) (b_prev b) (b_next b) (b_data b).

(** The struct sleeplock inside a buffer or an inode. *)
Definition sl_of (s : kstate) (l : slid) : sleeplock :=
  match l with
  | SlBuf b => b_lock (k_bc s !!! b)
  | SlInode i => i_lock (k_ic s !!! i)
  end.
Definition set_sl (l : slid) (v : sleeplock) (s : kstate) : kstate :=
  match l with
  | SlBuf b => set_bc (alter (buf_set_lock v) b (k_bc s)) s
  | SlInode i => set_ic (alter (inode_set_lock v) i (k_ic s)) s
  end.

Definition initsleeplock (l : slid) (name : string) : K unit :=
  initlock (sl_lk l) "sleep lock";;
  modify (set_sl l (mkSleep 0 name 0)).

Definition acquiresleep (l : slid) : K unit :=
  acquire (sl_lk l);;
  whileM (λ _ : unit,
    sl ← gets (λ s, sl_of s l);
    if negb (slk_locked sl =? 0)
    then sleep (ChSleep l) (Some (sl_lk l));; mret (inl tt)
    else mret (inr tt)) tt;;
  p ← curproc;
  pr ← get_proc p;
  modify (λ s, set_sl l (mkSleep 1 (slk_name (sl_of s l)) (p_pid pr)) s);;
  release (sl_lk l).

Definition releasesleep (l : slid) : K unit :=
  acquire (sl_lk l);;
  modify (λ s, set_sl l (mkSleep 0 (slk_name (sl_of s l)) 0) s);;
  wakeup (ChSleep l);;
  release (sl_lk l).

(** [lk->locked && lk->pid == myproc()->pid]. *)
Definition holdingsleep (l : slid) : K bool :=
  acquire (sl_lk l);;
  sl ← gets (λ s, sl_of s l);
  r ← (if slk_locked sl =? 0 then mret false else
       p ← curproc;
       pr ← get_proc p;
       mret (slk_pid sl =? p_pid pr));
  release (sl_lk l);;
  mret r.

(** * Running them *)

Section run.
Implicit Types (s : kstate) (x : cpuctx) (fuel : nat).

(** The thread runs process [p] on CPU [i]. *)
Definition thread (x : cpuctx) (i p : nat) : Prop :=
  cpu_ok x i ∧ c_proc (x_cpus x !!! i) = Some p.

Lemma thread_ok x i p : thread x i p → cpu_ok x i.
Proof. by intros []. Qed.

Lemma thread_acq x i p l : thread x i p → thread (x_acq i l x) i p.
Proof.
  intros [Hok Hp]. split; [by apply cpu_ok_acq|]. simpl.
  destruct Hok as (c&(Hi&_)&_). rewrite list_lookup_total_insert_eq by (by eapply lookup_lt_Some).
  unfold push_cpu. by destruct (_ =? 0).
Qed.

Lemma lock_free_acq x i l l' : lock_free x l' → l ≠ l' → lock_free (x_acq i l x) l'.
Proof. intros [nm H] ?. exists nm. simpl. by rewrite lookup_insert_ne. Qed.

Lemma sl_lk_ne_ptable l : sl_lk l ≠ LkPtable.
Proof. by destruct l. Qed.

Lemma myproc_run fuel s i p : thread (k_ctx s) i p → myproc fuel s = Ret (Some p) s.
Proof.
  intros [Hok Hp]. pose proof Hok as (c&H&?). unfold myproc. mred.
  rewrite (pushcli_run _ _ i c) by done. mred.
  destruct (cpu_ok_push _ _ Hok) as (c'&H'&_).
  rewrite (mycpu_run _ _ i c') by done. mred.
  rewrite (get_cpu_run _ _ i c') by apply H'. mred.
  rewrite (popcli_x_push _ s i) by done. mred.
  destruct H' as (Hi'&_). simpl in Hi'.
  rewrite list_lookup_insert_eq in Hi' by (by eapply lookup_lt_Some, (proj1 H)).
  injection Hi' as <-. rewrite <- Hp. unfold push_cpu. by destruct (_ =? 0).
Qed.

Lemma curproc_run fuel s i p : thread (k_ctx s) i p → curproc fuel s = Ret p s.
Proof. intros H. unfold curproc. mred. by rewrite (myproc_run _ _ i p). Qed.

Lemma wakeup_run fuel s i ch :
  cpu_ok (k_ctx s) i → lock_free (k_ctx s) LkPtable →
  wakeup ch fuel s = Ret tt (set_pt (pt_upd (map (wake_proc ch)) (k_pt s)) s).
Proof.
  intros Hok Hl. unfold wakeup. mred. rewrite (acquire_run _ _ i) by done. mred.
  unfold wakeup1, upd_procs. mred.
  by rewrite (release_run _ _ (k_ctx s) i) by done.
Qed.

Lemma k_ctx_set_sl l v s : k_ctx (set_sl l v s) = k_ctx s.
Proof. by destruct l. Qed.
Lemma k_pt_set_sl l v s : k_pt (set_sl l v s) = k_pt s.
Proof. by destruct l. Qed.
Lemma set_sl_set_ctx l v x s : set_sl l v (set_ctx x s) = set_ctx x (set_sl l v s).
Proof. by destruct l. Qed.
Lemma sl_of_set_ctx l x s : sl_of (set_ctx x s) l = sl_of s l.
Proof. by destruct l. Qed.

Lemma acquiresleep_run fuel s i p l :
  thread (k_ctx s) i p → lock_free (k_ctx s) (sl_lk l) →
  slk_locked (sl_of s l) = 0 → (0 < fuel)%nat →
  acquiresleep l fuel s =
    Ret tt (set_sl l (mkSleep 1 (slk_name (sl_of s l)) (p_pid (pt_proc (k_pt s) !!! p))) s).
Proof.
  intros Ht Hl H0 Hf. unfold acquiresleep. mred.
  rewrite (acquire_run _ _ i) by (done || by eapply thread_ok). mred.
  destruct fuel as [|fuel]; [lia|]. unfold whileM. cbn [loop_fuel]. mred.
  rewrite sl_of_set_ctx, H0. simpl. mred.
  rewrite (curproc_run _ _ i p) by (by apply thread_acq). mred.
  unfold get_proc. mred. rewrite sl_of_set_ctx.
  rewrite (release_run _ _ (k_ctx s) i); [|by eapply thread_ok|done|by rewrite k_ctx_set_sl].
  rewrite set_sl_set_ctx, set_ctx_set_ctx. rewrite <- (k_ctx_set_sl l) at 1.
  by rewrite set_ctx_id.
Qed.

Lemma releasesleep_run fuel s i l :
  cpu_ok (k_ctx s) i → lock_free (k_ctx s) (sl_lk l) → lock_free (k_ctx s) LkPtable →
  releasesleep l fuel s =
    Ret tt (set_pt (pt_upd (map (wake_proc (ChSleep l))) (k_pt s))
              (set_sl l (mkSleep 0 (slk_name (sl_of s l)) 0) s)).
Proof.
  intros Hok Hl Hp. unfold releasesleep. mred. rewrite (acquire_run _ _ i) by done. mred.
  rewrite sl_of_set_ctx, set_sl_set_ctx.
  rewrite (wakeup_run _ _ i).
  2:{ by apply cpu_ok_acq. }
  2:{ apply lock_free_acq; [done|apply sl_lk_ne_ptable]. }
  mred. rewrite (release_run _ _ (k_ctx s) i) by done. f_equal.
  destruct l; done.
Qed.

Lemma holdingsleep_run fuel s i p l :
  thread (k_ctx s) i p → lock_free (k_ctx s) (sl_lk l) →
  holdingsleep l fuel s =
    Ret (negb (slk_locked (sl_of s l) =? 0) &&
         (slk_pid (sl_of s l) =? p_pid (pt_proc (k_pt s) !!! p))) s.
Proof.
  intros Ht Hl. unfold holdingsleep. mred.
  rewrite (acquire_run _ _ i) by (done || by eapply thread_ok). mred.
  rewrite sl_of_set_ctx. destruct (slk_locked (sl_of s l) =? 0); simpl; mred.
  - rewrite (release_run _ _ (k_ctx s) i) by (try done; by eapply thread_ok).
    mred. by rewrite set_ctx_set_ctx, set_ctx_id.
  - rewrite (curproc_run _ _ i p) by (by apply thread_acq). mred. unfold get_proc. mred.
    rewrite (release_run _ _ (k_ctx s) i) by (try done; by eapply thread_ok).
    mred. by rewrite set_ctx_set_ctx, set_ctx_id.
Qed.

(** * Going to sleep *)

(** Two locks taken in either order give the same context. *)
Lemma x_acq_comm x i l1 l2 :
  cpu_ok x i → l1 ≠ l2 → x_acq i l1 (x_acq i l2 x) = x_acq i l2 (x_acq i l1 x).
Proof.
  intros (c&(Hi&_)&Hn&_) Hne. unfold x_acq, x_push, x_cpu. simpl. pose proof (lookup_lt_Some _ _ _ Hi).
  rewrite !list_lookup_total_insert_eq, !lookup_insert_ne by done. by rewrite insert_insert_ne.
Qed.

Lemma x_acq_ncli x i l : cpu_ok x i → c_ncli (x_cpus (x_acq i l x) !!! i) = c_ncli (x_cpus x !!! i) + 1.
Proof.
  intros (c&(Hi&_)&_). simpl. rewrite list_lookup_total_insert_eq by (by eapply lookup_lt_Some). apply ncli_push_cpu.
Qed.

Lemma x_acq_intena x i l : cpu_ok x i → c_ncli (x_cpus x !!! i) = 0 → c_intena (x_cpus (x_acq i l x) !!! i) = hw_if (x_hw x).
Proof.
  intros (c&(Hi&_)&_) H0. simpl. rewrite list_lookup_total_insert_eq by (by eapply lookup_lt_Some). unfold push_cpu. by rewrite H0.
Qed.

Lemma cpu_ok_lookup x i : cpu_ok x i → x_cpus x !! i = Some (x_cpus x !!! i) ∧ oncpu x i (x_cpus x !!! i).
Proof.
  intros (c&H&_). pose proof H as (Hi&_). rewrite (list_lookup_total_correct _ _ _ Hi). done.
Qed.

(** [sched] by a process that holds only the process table's lock. *)
Lemma sched_run fuel s x i p :
  thread x i p → c_ncli (x_cpus x !!! i) = 0 → k_ctx s = x_acq i LkPtable x → p_state (pt_proc (k_pt s) !!! p) ≠ RUNNING →
  sched fuel s = Swtch s (λ s', (j ← mycpu; upd_cpu j (cpu_set_intena (hw_if (x_hw x)))) fuel s').
Proof.
  intros Ht H0 Hs Hr. pose proof (thread_ok _ _ _ Ht) as Hok. pose proof (thread_acq _ _ _ LkPtable Ht) as Ht'. rewrite <- Hs in Ht'.
  pose proof (thread_ok _ _ _ Ht') as Hok'. destruct (cpu_ok_lookup _ _ Hok') as [Hi Hon].
  assert (∃ nm, x_locks (k_ctx s) !! LkPtable = Some (mkSpin 1 nm (Some i))) as [nm Hlk] by (rewrite Hs; simpl; rewrite lookup_insert_eq; by eexists).
  assert (Hif : hw_if (x_hw (k_ctx s)) = false) by (by rewrite Hs).
  assert (E1 : c_ncli (x_cpus (k_ctx s) !!! i) = 1) by (rewrite Hs, x_acq_ncli by done; lia).
  assert (E2 : c_intena (x_cpus (k_ctx s) !!! i) = hw_if (x_hw x)) by (rewrite Hs, x_acq_intena by done; done).
  unfold sched. mred. rewrite (curproc_run _ _ i p) by done. mred. rewrite (holding_run _ _ i) by done. mred.
  rewrite Hlk. cbn [default lk_locked lk_cpu]. rewrite bool_decide_true by done. change (negb (_ && true)) with false. mred.
    rewrite (mycpu_run _ _ i _ Hon) by done. mred. rewrite (get_cpu_run _ _ _ _ Hi). mred. rewrite E1, E2. cbn [negb Z.eqb Pos.eqb].
  unfold get_proc. mred. rewrite bool_decide_false by done. unfold intr_on, getx. mred. rewrite Hif. mred. done.
Qed.

Definition asleep (ch : chan) (p : proc) : proc := proc_set_state SLEEPING (proc_set_chan (Some ch) p).

(** Setting the saved interrupt flag to what it is. *)
Lemma intena_run fuel s x j on :
  cpu_ok x j → c_ncli (x_cpus x !!! j) = 0 → hw_if (x_hw x) = on → k_ctx s = x_acq j LkPtable x →
  (j ← mycpu; upd_cpu j (cpu_set_intena on)) fuel s = Ret tt s.
Proof.
  intros Hok H0 Hon Hs. assert (Hok' : cpu_ok (k_ctx s) j) by (rewrite Hs; by apply cpu_ok_acq).
  destruct (cpu_ok_lookup _ _ Hok') as [Hj Honj]. mred. rewrite (mycpu_run _ _ j _ Honj) by (by rewrite Hs). mred.
  rewrite (upd_cpu_run _ _ _ _ _ Hj). f_equal. rewrite list_insert_id; [by destruct s as [[]]|]. rewrite Hj. f_equal.
  assert (E : c_intena (x_cpus (k_ctx s) !!! j) = on) by (rewrite Hs, x_acq_intena by done; done). rewrite <- E. by destruct (x_cpus (k_ctx s) !!! j).
Qed.

Lemma alter_asleep ch p s :
  set_pt (pt_upd (alter (proc_set_state SLEEPING) p) (pt_upd (alter (proc_set_chan (Some ch)) p) (k_pt s))) s =
  set_pt (pt_upd (alter (asleep ch) p) (k_pt s)) s.
Proof.
  unfold set_pt, pt_upd. simpl. do 2 f_equal. apply list_eq. intros q. rewrite !list_lookup_alter. destruct (decide _); [|done].
  rewrite decide_True by done. by destruct (pt_proc (k_pt s) !! p).
Qed.

(** [sleep] under the process table's lock itself keeps it. *)
Lemma sleep_ptable_run fuel s x i p ch :
  thread x i p → c_ncli (x_cpus x !!! i) = 0 → k_ctx s = x_acq i LkPtable x → (p < length (pt_proc (k_pt s)))%nat →
  ∃ k, sleep ch (Some LkPtable) fuel s = Swtch (set_pt (pt_upd (alter (asleep ch) p) (k_pt s)) s) k ∧
    ∀ s2 x2 j, cpu_ok x2 j → c_ncli (x_cpus x2 !!! j) = 0 → hw_if (x_hw x2) = hw_if (x_hw x) → k_ctx s2 = x_acq j LkPtable x2 →
      k s2 = Ret tt (set_pt (pt_upd (alter (proc_set_chan None) p) (k_pt s2)) s2).
Proof.
  intros Ht H0 Hs Hlen. pose proof (thread_acq _ _ _ LkPtable Ht) as Ht'. rewrite <- Hs in Ht'.
  unfold sleep. mred. rewrite (myproc_run _ _ i p) by done. cbn [obind]. rewrite bool_decide_false by (by intros []). cbn [whenM]. mred.
  unfold upd_proc, upd_procs. mred. set (s1 := set_pt _ _).
  assert (E1 : s1 = set_pt (pt_upd (alter (asleep ch) p) (k_pt s)) s) by exact (alter_asleep ch p s).
  rewrite (sched_run _ s1 x i p Ht H0); [|by rewrite E1|].
  - rewrite E1. eexists. split; [reflexivity|]. intros s2 x2 j Hok2 H02 Hif Hs2. cbn [obind].
    rewrite (intena_run _ _ x2 j) by done. cbn [obind]. mred. done.
  - rewrite E1. simpl. rewrite list_lookup_total_alter, decide_True by done. discriminate.
Qed.

Lemma sleep_run fuel s x i p ch lk :
  thread x i p → c_ncli (x_cpus x !!! i) = 0 → lk ≠ LkPtable → lock_free x lk → lock_free x LkPtable → k_ctx s = x_acq i lk x →
  (p < length (pt_proc (k_pt s)))%nat →
  ∃ k, sleep ch (Some lk) fuel s =
         Swtch (set_pt (pt_upd (alter (asleep ch) p) (k_pt s)) (set_ctx (x_acq i LkPtable x) s)) k ∧
    ∀ s2 x2 j, cpu_ok x2 j → c_ncli (x_cpus x2 !!! j) = 0 → lock_free x2 lk → lock_free x2 LkPtable → hw_if (x_hw x2) = hw_if (x_hw x) →
      k_ctx s2 = x_acq j LkPtable x2 →
      k s2 = Ret tt (set_ctx (x_acq j lk x2) (set_pt (pt_upd (alter (proc_set_chan None) p) (k_pt s2)) s2)).
Proof.
  intros Ht H0 Hne Hl Hp Hs Hlen. pose proof (thread_ok _ _ _ Ht) as Hok. pose proof (thread_acq _ _ _ lk Ht) as Ht'. rewrite <- Hs in Ht'.
  unfold sleep. mred. rewrite (myproc_run _ _ i p) by done. cbn [obind]. rewrite bool_decide_true by done. cbn [whenM]. mred.
  rewrite (acquire_run _ _ i); [|by eapply thread_ok|rewrite Hs; by apply lock_free_acq]. mred.
  rewrite (release_run _ _ (x_acq i LkPtable x) i); [|by apply cpu_ok_acq|by apply lock_free_acq|simpl; rewrite Hs; by apply x_acq_comm].
  mred. unfold upd_proc, upd_procs. mred.
  set (s1 := set_pt _ _). assert (E1 : s1 = set_pt (pt_upd (alter (asleep ch) p) (k_pt s)) (set_ctx (x_acq i LkPtable x) s)) by exact (alter_asleep ch p (set_ctx (x_acq i LkPtable x) s)).
  rewrite (sched_run _ s1 x i p Ht H0); [|by rewrite E1|].
  - rewrite E1. eexists. split; [reflexivity|]. intros s2 x2 j Hok2 H02 Hl2 Hp2 Hif Hs2. cbn [obind].
    rewrite (intena_run _ _ x2 j) by done. cbn [obind]. mred.
    rewrite (release_run _ _ x2 j); [|done|done|by rewrite <- Hs2]. mred. rewrite (acquire_run _ _ j); [|done|done]. done.
  - rewrite E1. simpl. rewrite list_lookup_total_alter, decide_True by done. discriminate.
Qed.

(** CPU [i] holds the process table's lock and no other. *)
Definition in_sched (s : kstate) (x : cpuctx) (i : nat) (lk : lockid) : Prop :=
  cpu_ok x i ∧ c_ncli (x_cpus x !!! i) = 0 ∧ lock_free x lk ∧ lock_free x LkPtable ∧ k_ctx s = x_acq i LkPtable x.

End run.
