(* ===== verification/Cons.v ===== *)
(** Console output: [consputc] and [cprintf] of kernel/console.c.

    What is handed to the serial port and the framebuffer, the same characters
    to both, is recorded in [cn_out]. *)

From stdpp Require Import base list gmap strings.
From Stdlib Require Import ZArith Lia.
From S2P Require Import Prelude Bytes Sprintf Monad Kstate Spinlock.

Definition BACKSPACE : Z := 256.

Definition getcons {A} (f : consrec → A) : K A := gets (λ s, f (k_cons s)).
Definition modcons (f : consrec → consrec) : K unit := modify (λ s, set_cons (f (k_cons s)) s).

Definition cons_put (cs : list Z) (c : consrec) : consrec :=
  mkCons (cn_buf c) (cn_r c) (cn_w c) (cn_e c) (cn_locking c) (cn_panicked c) (cn_out c ++ cs)
    (cn_shift c) (cn_kbd c) (cn_uart c) (cn_rx c).

(** The bytes that [uartputc] and [fb_putc] are given for a character. *)
Definition echo (c : Z) : list Z := if c =? BACKSPACE then [8; 32; 8] else [u8 c].

Definition consputc (c : Z) : K unit :=
  p ← getcons cn_panicked;
  if negb (p =? 0) then cli;; spin else
  modcons (cons_put (echo c)).

(** [while ((c = *p++)) consputc(c)]. *)
Fixpoint consputs (p : list Z) : K unit :=
  match p with
  | [] => mret tt
  | c :: p => if c =? 0 then mret tt else consputc c;; consputs p
  end.

(** The text goes through a buffer of 512 bytes. *)
Definition cprintf (fmt : list Z) (args : list va_arg) : K unit :=
  locking ← getcons cn_locking;
  whenM (negb (locking =? 0)) (acquire LkCons);;
  match vsprintf fmt args with
  | Some text =>
      if 512 <=? Z.of_nat (length text) then panic "buffer overflow" else
      consputs text;;
      whenM (negb (locking =? 0)) (release LkCons)
  | None => panic "undefined format"
  end.

(** * Printing *)

Section print.
Implicit Types (s : kstate) (fuel : nat).

(** The console can print: nothing has panicked, and its lock is free or not in
    use yet. *)
Definition can_print s : Prop :=
  cn_panicked (k_cons s) = 0 ∧ (cn_locking (k_cons s) = 0 ∨ ∃ i, cpu_ok (k_ctx s) i ∧ lock_free (k_ctx s) LkCons).

Definition printed (cs : list Z) s : kstate := set_cons (cons_put cs (k_cons s)) s.

Lemma printed_printed a b s : printed b (printed a s) = printed (a ++ b) s.
Proof. unfold printed, cons_put. simpl. by rewrite <- app_assoc. Qed.

Lemma can_print_printed cs s : can_print s → can_print (printed cs s).
Proof. done. Qed.

Lemma consputs_run text fuel s : cn_panicked (k_cons s) = 0 → ∃ cs, consputs text fuel s = Ret tt (printed cs s).
Proof.
  revert s. induction text as [|c text IH]; intros s Hp.
  - exists []. cbn [consputs]. mred. unfold printed, cons_put. rewrite app_nil_r. by destruct s as [???????????? [] ?].
  - cbn [consputs]. destruct (c =? 0).
    { exists []. mred. unfold printed, cons_put. rewrite app_nil_r. by destruct s as [???????????? [] ?]. }
    assert (E : consputc c fuel s = Ret tt (printed (echo c) s)).
    { unfold consputc, getcons, modcons. mred. rewrite Hp. done. }
    rewrite (run_bind _ _ _ _ _ _ E). destruct (IH (printed (echo c) s) Hp) as [cs E']. exists (echo c ++ cs). by rewrite E', printed_printed.
Qed.

Lemma printed_ctx cs x s : set_ctx x (printed cs s) = printed cs (set_ctx x s).
Proof. done. Qed.

(** A format whose text is sure to fit is printed, and that is all. *)
Lemma cprintf_run fmt args b fuel s :
  fmt_bound (S (length fmt)) fmt args = Some b → (b < 512)%nat → can_print s →
  ∃ cs, cprintf fmt args fuel s = Ret tt (printed cs s).
Proof.
  intros Hb Hlt [Hp Hl]. destruct (vsprintf_bound _ _ _ _ Hb) as (text & Et & Htext). unfold cprintf.
  assert (E0 : ∀ c, getcons c fuel s = Ret (A := Z) (c (k_cons s)) s) by done. rewrite (run_bind _ _ _ _ _ _ (E0 _)).
  unfold vsprintf. rewrite Et, (proj2 (Z.leb_gt _ _)) by lia. destruct (Z.eqb_spec (cn_locking (k_cons s)) 0) as [E|E]; cbn [negb whenM].
  - rewrite (run_bind _ _ _ _ tt s) by done. destruct (consputs_run text fuel s Hp) as [cs Ec]. rewrite (run_bind _ _ _ _ _ _ Ec). eauto.
  - destruct Hl as [|(i & Hok & Hfree)]; [done|]. rewrite (run_bind _ _ _ _ _ _ (acquire_run _ _ _ _ Hok Hfree)).
    destruct (consputs_run text fuel (set_ctx (x_acq i LkCons (k_ctx s)) s) Hp) as [cs Ec]. rewrite (run_bind _ _ _ _ _ _ Ec).
    exists cs. rewrite (release_run _ _ (k_ctx s) i) by done. by rewrite printed_ctx, set_ctx_set_ctx, set_ctx_id.
Qed.
End print.
