(* ===== verification/Bio.v ===== *)
(** The buffer cache, kernel/bio.c, over the in-memory disk of
    kernel/ide/memide.c.

    A [struct buf *] is an index into the buffer array; index [NBUF] is
    [bcache.head], and the doubly linked LRU list runs through [b_prev] and
    [b_next] as in the code. *)

From stdpp Require Import functions base list gmap strings.
From Stdlib Require Import ZArith Lia.
From S2P Require Import Prelude Monad Kstate Spinlock Sched.

(** * Buffers *)

Definition bc_head : nat := NBUF.

Definition get_buf (b : nat) : K buf := gets (λ s, k_bc s !!! b).
Definition upd_buf (b : nat) (f : buf → buf) : K unit :=
  modify (λ s, set_bc (alter f b (k_bc s)) s).

Definition buf_set_flags (v : Z) (b : buf) : buf :=
  mkBuf v (b_dev b) (b_blockno b) (b_lock b) (b_refcnt b) (b_prev b) (b_next b) (b_data b).
Definition buf_set_refcnt (v : Z) (b : buf) : buf :=
  mkBuf (b_flags b) (b_dev b) (b_blockno b) (b_lock b) v (b_prev b) (b_next b) (b_data b).
Definition buf_set_prev (v : nat) (b : buf) : buf :=
  mkBuf (b_flags b) (b_dev b) (b_blockno b) (b_lock b) (b_refcnt b) v (b_next b) (b_data b).
Definition buf_set_next (v : nat) (b : buf) : buf :=
  mkBuf (b_flags b) (b_dev b) (b_blockno b) (b_lock b) (b_refcnt b) (b_prev b) v (b_data b).
Definition buf_set_data (v : list Z) (b : buf) : buf :=
  mkBuf (b_flags b) (b_dev b) (b_blockno b) (b_lock b) (b_refcnt b) (b_prev b) (b_next b) v.
(** The assignments that recycle a buffer. *)
Definition buf_recycle (dev blockno : Z) (b : buf) : buf :=
  mkBuf 0 dev blockno (b_lock b) 1 (b_prev b) (b_next b) (b_data b).

(** * The in-memory disk *)

(** [ideinit] points the disk at the file system image [img] the linker put in
    the kernel. *)
Definition ideinit (img : list (list Z)) : K unit := modify (set_disk (mkDisk img [])).

Definition ideintr : K unit := mret tt.

Definition disksize (s : kstate) : Z := Z.of_nat (length (d_blocks (k_disk s))).

Definition disk_write (bno : Z) (data : list Z) (d : diskrec) : diskrec :=
  mkDisk (<[Z.to_nat bno := data]> (d_blocks d)) (d_trace d ++ [(bno, data)]).

Definition iderw (b : nat) : K unit :=
  h ← holdingsleep (SlBuf b);
  if negb h then panic "iderw: buf not locked" else
  bf ← get_buf b;
  if Z.land (b_flags bf) (Z.lor B_VALID B_DIRTY) =? B_VALID then panic "iderw: nothing to do" else
  if negb (b_dev bf =? 1) then panic "iderw: request not for disk 1" else
  n ← gets disksize;
  if n <=? b_blockno bf then panic "iderw: block out of range" else
  (if negb (Z.land (b_flags bf) B_DIRTY =? 0) then
     upd_buf b (λ bf, buf_set_flags (Z.land (b_flags bf) (Z.lnot B_DIRTY)) bf);;
     modify (λ s, set_disk (disk_write (b_blockno bf) (b_data bf) (k_disk s)) s)
   else
     p ← gets (λ s, d_blocks (k_disk s) !!! Z.to_nat (b_blockno bf));
     upd_buf b (buf_set_data p));;
  upd_buf b (λ bf, buf_set_flags (Z.lor (b_flags bf) B_VALID) bf).

(** * The cache *)

(** The body of the loop over the buffers. *)
Definition binit_buf (i : Z) : K (option unit) :=
  let b := Z.to_nat i in
  h ← get_buf bc_head;
  upd_buf b (buf_set_next (b_next h));;
  upd_buf b (buf_set_prev bc_head);;
  initsleeplock (SlBuf b) "buffer";;
  upd_buf (b_next h) (buf_set_prev b);;
  upd_buf bc_head (buf_set_next b);;
  mret None.

Definition binit : K unit :=
  initlock LkBcache "bcache";;
  upd_buf bc_head (buf_set_prev bc_head);;
  upd_buf bc_head (buf_set_next bc_head);;
  forM NBUF 0 binit_buf;;
  mret tt.

(** The walks over the list: from [b] along [nx] until [bc_head], stopping at the
    first buffer that passes the test. *)
Definition walk (test : buf → bool) (nx : buf → nat) (found : nat → K unit) :
    nat → K (option nat) :=
  whileM (λ b,
    if bool_decide (b = bc_head) then mret (inr None) else
    bf ← get_buf b;
    if test bf then found b;; mret (inr (Some b)) else mret (inl (nx bf))).

Definition caches (dev blockno : Z) (bf : buf) : bool :=
  ((b_dev bf =? dev) && (b_blockno bf =? blockno))%bool.
Definition recyclable (bf : buf) : bool :=
  ((b_refcnt bf =? 0) && (Z.land (b_flags bf) B_DIRTY =? 0))%bool.

Definition bget (dev blockno : Z) : K nat :=
  acquire LkBcache;;
  h ← get_buf bc_head;
  r ← walk (caches dev blockno) b_next (λ b,
        upd_buf b (λ bf, buf_set_refcnt (u32 (b_refcnt bf + 1)) bf);;
        release LkBcache;;
        acquiresleep (SlBuf b)) (b_next h);
  match r with
  | Some b => mret b
  | None =>
      h ← get_buf bc_head;
      r ← walk recyclable b_prev (λ b,
            upd_buf b (buf_recycle dev blockno);;
            release LkBcache;;
            acquiresleep (SlBuf b)) (b_prev h);
      match r with
      | Some b => mret b
      | None => panic "bget: no buffers"
      end
  end.

Definition bread (dev blockno : Z) : K nat :=
  b ← bget dev blockno;
  bf ← get_buf b;
  whenM (Z.land (b_flags bf) B_VALID =? 0) (iderw b);;
  mret b.

Definition bwrite (b : nat) : K unit :=
  h ← holdingsleep (SlBuf b);
  if negb h then panic "bwrite" else
  upd_buf b (λ bf, buf_set_flags (Z.lor (b_flags bf) B_DIRTY) bf);;
  iderw b.

Definition brelse (b : nat) : K unit :=
  h ← holdingsleep (SlBuf b);
  if negb h then panic "brelse" else
  releasesleep (SlBuf b);;
  acquire LkBcache;;
  upd_buf b (λ bf, buf_set_refcnt (u32 (b_refcnt bf - 1)) bf);;
  bf ← get_buf b;
  whenM (b_refcnt bf =? 0)
    (upd_buf (b_next bf) (buf_set_prev (b_prev bf));;
     upd_buf (b_prev bf) (buf_set_next (b_next bf));;
     h ← get_buf bc_head;
     upd_buf b (buf_set_next (b_next h));;
     upd_buf b (buf_set_prev bc_head);;
     upd_buf (b_next h) (buf_set_prev b);;
     upd_buf bc_head (buf_set_next b));;
  release LkBcache.

(** * The LRU ring

    [ring bc l]: following [b_next] from [bc_head] visits the buffers [l], most
    recently used first, and [b_prev] visits them backwards. *)

Section ring.
Implicit Types (bc : list buf) (b : nat) (l c : list nat).

Fixpoint chain bc c : Prop :=
  match c with
  | x :: (y :: _) as c' => b_next (bc !!! x) = y ∧ b_prev (bc !!! y) = x ∧ chain bc c'
  | _ => True
  end.

Definition ring bc l : Prop :=
  length bc = S NBUF ∧ l ≡ₚ seq 0 NBUF ∧ chain bc (bc_head :: l ++ [bc_head]).

Lemma chain_app bc c1 x c2 : chain bc (c1 ++ x :: c2) ↔ chain bc (c1 ++ [x]) ∧ chain bc (x :: c2).
Proof.
  induction c1 as [|y c1 IH]; [simpl; tauto|].
  destruct c1 as [|z c1]; [simpl; tauto|].
  change (chain bc ((y :: z :: c1) ++ x :: c2)) with
    (b_next (bc !!! y) = z ∧ b_prev (bc !!! z) = y ∧ chain bc ((z :: c1) ++ x :: c2)).
  rewrite IH. simpl. tauto.
Qed.

Lemma chain_ext bc bc' c :
  (∀ x, x ∈ removelast c → b_next (bc' !!! x) = b_next (bc !!! x)) →
  (∀ y, y ∈ tail c → b_prev (bc' !!! y) = b_prev (bc !!! y)) →
  chain bc c → chain bc' c.
Proof.
  induction c as [|x [|y c] IH]; [done..|]. intros Hn Hp (H1&H2&H3). split_and!.
  - rewrite Hn by (simpl; set_solver). done.
  - rewrite Hp by set_solver. done.
  - apply IH; [intros; apply Hn|intros; apply Hp|done]; simpl in *; set_solver.
Qed.

(** The nodes a walk visits. *)
Fixpoint path bc (nx : buf → nat) b c : Prop :=
  match c with
  | [] => b = bc_head
  | x :: c => b = x ∧ x ≠ bc_head ∧ path bc nx (nx (bc !!! x)) c
  end.

Lemma chain_path_next bc x l :
  bc_head ∉ l → chain bc (x :: l ++ [bc_head]) → path bc b_next (b_next (bc !!! x)) l.
Proof.
  revert x. induction l as [|y l IH]; intros x Hl (?&?&Hc); [done|].
  split_and!; [done|set_solver|]. apply IH; [set_solver|done].
Qed.

Lemma chain_path_prev bc x l :
  bc_head ∉ l → chain bc (bc_head :: l ++ [x]) → path bc b_prev (b_prev (bc !!! x)) (reverse l).
Proof.
  revert x. induction l as [|y l IH] using rev_ind; intros x Hl Hc.
  - simpl in *. naive_solver.
  - rewrite reverse_snoc. rewrite <- app_assoc in Hc. simpl in Hc.
    change (chain bc ((bc_head :: l) ++ y :: [x])) in Hc.
    apply chain_app in Hc as [Hc (?&?&_)].
    split_and!; [done|set_solver|]. apply IH; [set_solver|done].
Qed.

Lemma ring_elem bc l b : ring bc l → b ∈ l ↔ (b < NBUF)%nat.
Proof. intros (_&Hp&_). rewrite Hp, elem_of_seq. lia. Qed.

Lemma ring_head bc l : ring bc l → bc_head ∉ l.
Proof. intros Hr. rewrite (ring_elem _ _ _ Hr). unfold bc_head. lia. Qed.

Lemma ring_NoDup bc l : ring bc l → NoDup l.
Proof. intros (_&Hp&_). rewrite Hp. apply NoDup_seq. Qed.

(** Changes of other fields keep the ring. *)
Lemma ring_alter bc l b f :
  (∀ bf, b_next (f bf) = b_next bf) → (∀ bf, b_prev (f bf) = b_prev bf) →
  ring bc l → ring (alter f b bc) l.
Proof.
  intros Hn Hp (Hlen&Hperm&Hc). split_and!; [by rewrite length_alter|done|].
  assert (∀ x, b_next (alter f b bc !!! x) = b_next (bc !!! x) ∧
               b_prev (alter f b bc !!! x) = b_prev (bc !!! x)) as H.
  { intros x. rewrite list_lookup_total_alter. case_decide as Hx; [|done].
    destruct Hx as [<- _]. by rewrite Hn, Hp. }
  eapply chain_ext, Hc; intros; apply H.
Qed.

(** The assignments of [brelse] that move [b] to the front. *)
Definition unlink b bc : list buf :=
  let bc' := alter (buf_set_prev (b_prev (bc !!! b))) (b_next (bc !!! b)) bc in
  alter (buf_set_next (b_next (bc !!! b))) (b_prev (bc !!! b)) bc'.
Definition push_front b bc : list buf :=
  let n := b_next (bc !!! bc_head) in
  alter (buf_set_next b) bc_head (alter (buf_set_prev b) n
    (alter (buf_set_prev bc_head) b (alter (buf_set_next n) b bc))).

Lemma next_set_prev bc x v y : b_next (alter (buf_set_prev v) x bc !!! y) = b_next (bc !!! y).
Proof. rewrite list_lookup_total_alter. by case_decide as H; [destruct H as [<- _]|]. Qed.
Lemma prev_set_next bc x v y : b_prev (alter (buf_set_next v) x bc !!! y) = b_prev (bc !!! y).
Proof. rewrite list_lookup_total_alter. by case_decide as H; [destruct H as [<- _]|]. Qed.
Lemma next_set_lock bc x v y : b_next (alter (buf_set_lock v) x bc !!! y) = b_next (bc !!! y).
Proof. rewrite list_lookup_total_alter. by case_decide as H; [destruct H as [<- _]|]. Qed.
Lemma prev_set_lock bc x v y : b_prev (alter (buf_set_lock v) x bc !!! y) = b_prev (bc !!! y).
Proof. rewrite list_lookup_total_alter. by case_decide as H; [destruct H as [<- _]|]. Qed.
Lemma next_set_next bc x v y :
  (x < length bc)%nat →
  b_next (alter (buf_set_next v) x bc !!! y) = if decide (x = y) then v else b_next (bc !!! y).
Proof. intros. rewrite list_lookup_total_alter. by repeat case_decide; try tauto. Qed.
Lemma prev_set_prev bc x v y :
  (x < length bc)%nat →
  b_prev (alter (buf_set_prev v) x bc !!! y) = if decide (x = y) then v else b_prev (bc !!! y).
Proof. intros. rewrite list_lookup_total_alter. by repeat case_decide; try tauto. Qed.

End ring.

Ltac links :=
  repeat first
    [ rewrite next_set_prev | rewrite prev_set_next | rewrite next_set_lock | rewrite prev_set_lock
    | rewrite next_set_next by (by rewrite ?length_alter)
    | rewrite prev_set_prev by (by rewrite ?length_alter) ].

Section relink.
Implicit Types (bc : list buf) (b : nat) (l c : list nat).

Lemma cons_snoc (x : nat) l : ∃ c p, x :: l = c ++ [p].
Proof. destruct l as [|p l _] using rev_ind; [by exists [], x|by exists (x :: l), p]. Qed.
Lemma snoc_cons (x : nat) l : ∃ n c, l ++ [x] = n :: c.
Proof. destruct l as [|n l]; [by exists x, []|by exists n, (l ++ [x])]. Qed.

Lemma NoDup_snoc_cons (x n : nat) l c : NoDup (x :: l) → l ++ [x] = n :: c → n ∉ c.
Proof. intros Hnd E. rewrite Permutation_cons_append, E in Hnd. by apply NoDup_cons in Hnd as [? _]. Qed.

Lemma chain_unlink bc l1 b l2 :
  NoDup (bc_head :: l1 ++ b :: l2) → (∀ x, x ∈ bc_head :: l1 ++ b :: l2 → (x < length bc)%nat) →
  chain bc (bc_head :: (l1 ++ b :: l2) ++ [bc_head]) →
  chain (unlink b bc) (bc_head :: (l1 ++ l2) ++ [bc_head]).
Proof.
  intros Hnd Hlt Hc. destruct (cons_snoc bc_head l1) as (c1&p&E1), (snoc_cons bc_head l2) as (n&c2&E2).
  assert (E : ∀ l, bc_head :: l1 ++ l = c1 ++ p :: l).
  { intros l. change (p :: l) with ([p] ++ l). by rewrite app_assoc, <- E1. }
  rewrite <- app_assoc, E in Hc. rewrite <- app_assoc, E, E2. simpl in Hc. rewrite E2 in Hc.
  rename Hc into Hc'.
  apply chain_app in Hc' as [Hc1 (Hpb&Hbp&Hbn&Hnb&Hc2)]. unfold unlink. rewrite Hbn, Hbp.
  assert (Hp : p ∈ bc_head :: l1) by (rewrite E1; set_solver).
  assert (Hn : n ∈ l2 ++ [bc_head]) by (rewrite E2; set_solver).
  assert (Hnd1 : NoDup (c1 ++ [p])).
  { rewrite <- E1. apply NoDup_app with (k := b :: l2). by rewrite <- app_comm_cons. }
  assert (p < length bc ∧ n < length bc)%nat as [Hpl Hnl] by (split; apply Hlt; set_solver).
  apply chain_app. split; [|split_and!].
  - eapply chain_ext, Hc1.
    + intros x. rewrite removelast_last. intros Hx. rewrite next_set_next by (by rewrite length_alter).
      rewrite next_set_prev, decide_False; [done|]. intros <-.
      clear -Hnd1 Hx. apply NoDup_app in Hnd1. set_solver.
    + intros x. rewrite <- E1. simpl. intros Hx. rewrite prev_set_next, prev_set_prev by done.
      rewrite decide_False; [done|]. intros <-. clear -Hnd Hn Hx.
      apply NoDup_cons in Hnd as [Hh Hnd]. apply NoDup_app in Hnd. set_solver.
  - rewrite next_set_next by (by rewrite length_alter). by rewrite decide_True.
  - rewrite prev_set_next, prev_set_prev by done. by rewrite decide_True.
  - eapply chain_ext, Hc2.
    + intros x. rewrite <- E2, removelast_last. intros Hx.
      rewrite next_set_next by (by rewrite length_alter).
      rewrite next_set_prev, decide_False; [done|]. intros <-. clear -Hnd Hp Hx.
      rewrite app_comm_cons in Hnd. apply NoDup_app in Hnd. set_solver.
    + intros x. simpl. intros Hx. rewrite prev_set_next, prev_set_prev by done.
      rewrite decide_False; [done|]. intros <-. eapply NoDup_snoc_cons; [|done..].
      apply (sublist_NoDup _ _ Hnd). by apply sublist_skip, sublist_inserts_l, sublist_cons.
Qed.

Lemma chain_push_front bc b l :
  NoDup (bc_head :: b :: l) → (∀ x, x ∈ bc_head :: b :: l → (x < length bc)%nat) →
  chain bc (bc_head :: l ++ [bc_head]) → chain (push_front b bc) (bc_head :: (b :: l) ++ [bc_head]).
Proof.
  intros Hnd Hlt Hc. destruct (snoc_cons bc_head l) as (n&c&E). unfold push_front.
  simpl. rewrite E in *. destruct Hc as (Hn&Hp&Hc). rewrite Hn.
  assert (Hnin : n ∈ l ++ [bc_head]) by (rewrite E; set_solver).
  assert (n < length bc ∧ b < length bc ∧ bc_head < length bc)%nat as (?&?&?)
    by (split_and!; apply Hlt; set_solver).
  apply NoDup_cons in Hnd as [Hh Hnd]. apply NoDup_cons in Hnd as [Hb Hnd].
  assert (b ≠ bc_head ∧ n ≠ b) as [Hbh Hnb].
  { split; [set_solver|]. intros ->. clear -Hh Hb Hnin. set_solver. }
  split_and!; links.
  - by rewrite decide_True.
  - by rewrite decide_False, decide_True.
  - by rewrite decide_False, decide_True.
  - by rewrite decide_True.
  - eapply chain_ext, Hc.
    + intros x. rewrite <- E, removelast_last. intros Hx. links.
      by rewrite !decide_False by set_solver.
    + intros x. simpl. intros Hx. links.
      assert (x ∈ l ++ [bc_head]) by (rewrite E; set_solver).
      rewrite !decide_False; [done| |]; intros ->; [set_solver|].
      eapply NoDup_snoc_cons; [|done..]. apply NoDup_cons. set_solver.
Qed.
End relink.

(** * Representation

    What the cache promises its clients, for a thread that runs without
    interference: a block number maps to its contents [v], whether they come
    from the disk or from a buffer, a set [D] of blocks modified in memory and
    pinned there, and the buffers [h] the thread holds. *)

(** Wakeups, all a release does to the process table. *)
Definition wake_all (chs : list chan) (t : ptab) : ptab :=
  pt_upd (map (λ p, foldr wake_proc p chs)) t.
Definition woken (t t' : ptab) : Prop := ∃ chs, t' = wake_all chs t.

(** The parts of the state the cache and the disk leave alone. *)
Record bframe (s s' : kstate) : Prop := mkBframe {
  bf_ctx : k_ctx s' = k_ctx s;
  bf_pt : woken (k_pt s) (k_pt s');
  bf_km : k_km s' = k_km s;
  bf_mem : k_mem s' = k_mem s;
  bf_log : k_log s' = k_log s;
  bf_sb : k_sb s' = k_sb s;
  bf_ic : k_ic s' = k_ic s;
  bf_ft : k_ft s' = k_ft s;
  bf_pipes : k_pipes s' = k_pipes s;
  bf_ticks : k_ticks s' = k_ticks s;
  bf_cons : k_cons s' = k_cons s
}.

Definition static_lock (l : lockid) : Prop :=
  match l with
  | LkBuf b => (b < NBUF)%nat
  | LkInode i => (i < NINODE)%nat
  | LkPipe _ => False
  | _ => True
  end.

(** Process [p] runs on CPU [i] and no static spinlock is held. *)
Definition ready (s : kstate) (i p : nat) : Prop :=
  thread (k_ctx s) i p ∧ ∀ l, static_lock l → lock_free (k_ctx s) l.

Definition pid_of (s : kstate) (p : nat) : Z := p_pid (pt_proc (k_pt s) !!! p).

Section rep.
Implicit Types (s : kstate) (p b : nat) (bno : Z) (v : Z → list Z) (D : gset Z) (h : gmap Z nat).

Definition buf_rep (nd P : Z) v D h b (bf : buf) : Prop :=
  (b_dev bf ≠ 1 ∧ b_flags bf = 0 ∧ b_refcnt bf = 0 ∧ slk_locked (b_lock bf) = 0) ∨
  (b_dev bf = 1 ∧ 0 ≤ b_blockno bf < nd ∧ b_data bf = v (b_blockno bf) ∧
   b_flags bf = (if decide (b_blockno bf ∈ D) then 6 else 2) ∧
   match h !! b_blockno bf with
   | Some b' => b' = b ∧ b_refcnt bf = 1 ∧ slk_locked (b_lock bf) = 1 ∧ slk_pid (b_lock bf) = P
   | None => b_refcnt bf = 0 ∧ slk_locked (b_lock bf) = 0
   end).

Definition disk_blk s bno : list Z := d_blocks (k_disk s) !!! Z.to_nat bno.

Record bio_rep s p v D h : Prop := mkRep {
  br_ring : ∃ l, ring (k_bc s) l;
  br_uniq : ∀ b b', (b < NBUF)%nat → (b' < NBUF)%nat →
    b_dev (k_bc s !!! b) = 1 → b_dev (k_bc s !!! b') = 1 →
    b_blockno (k_bc s !!! b) = b_blockno (k_bc s !!! b') → b = b';
  br_buf : ∀ b, (b < NBUF)%nat → buf_rep (disksize s) (pid_of s p) v D h b (k_bc s !!! b);
  br_in : ∀ bno, bno ∈ D ∪ dom h →
    ∃ b, (b < NBUF)%nat ∧ b_dev (k_bc s !!! b) = 1 ∧ b_blockno (k_bc s !!! b) = bno;
  br_home : ∀ bno, 0 ≤ bno < disksize s → bno ∉ D → bno ∉ dom h → v bno = disk_blk s bno;
  br_size : ∀ bno, 0 ≤ bno < disksize s → length (v bno) = Z.to_nat BSIZE
}.

(** Changing one buffer, and what is known of its block with it. *)
Lemma rep_alter s s' p v D h v' D' h' b f :
  bio_rep s p v D h → (b < NBUF)%nat → k_bc s' = alter f b (k_bc s) →
  (∀ bf, b_next (f bf) = b_next bf) → (∀ bf, b_prev (f bf) = b_prev bf) →
  disksize s' = disksize s → pid_of s' p = pid_of s p →
  let bf := k_bc s !!! b in
  let bno := b_blockno (f bf) in
  b_dev (f bf) = 1 → 0 ≤ bno < disksize s →
  (∀ b', (b' < NBUF)%nat → b' ≠ b → b_dev (k_bc s !!! b') = 1 → b_blockno (k_bc s !!! b') ≠ bno) →
  (b_dev bf = 1 → b_blockno bf ≠ bno → b_blockno bf ∉ D ∪ dom h) →
  (∀ bno', bno' ≠ bno → v' bno' = v bno' ∧ (bno' ∈ D' ↔ bno' ∈ D) ∧ h' !! bno' = h !! bno' ∧
     (0 ≤ bno' → disk_blk s' bno' = disk_blk s bno')) →
  buf_rep (disksize s) (pid_of s p) v' D' h' b (f bf) →
  (bno ∉ D' → bno ∉ dom h' → v' bno = disk_blk s' bno) →
  length (v' bno) = Z.to_nat BSIZE →
  bio_rep s' p v' D' h'.
Proof.
  intros [[l Hring] Hu Hb Hin Hhome Hsz] Hlt Ebc Hn Hp Ends Epid bf bno Hdev Hrange Huniq Hold Hoth
    Hrep Hnew Hlen.
  assert (Hlk : ∀ b', (b' < NBUF)%nat →
    k_bc s' !!! b' = if decide (b = b') then f (k_bc s !!! b) else k_bc s !!! b').
  { intros b' ?. rewrite Ebc, list_lookup_total_alter. destruct Hring as [Hl _].
    repeat case_decide; try done; lia. }
  assert (Hdom : ∀ bno', bno' ≠ bno → bno' ∈ D' ∪ dom h' ↔ bno' ∈ D ∪ dom h).
  { intros bno' Hne. destruct (Hoth bno' Hne) as (_&HD&Hh&_).
    rewrite !elem_of_union, HD, !elem_of_dom, Hh. done. }
  split.
  - exists l. rewrite Ebc. by apply ring_alter.
  - intros b1 b2 H1 H2. rewrite !Hlk by done. intros.
    repeat case_decide; subst b1 || subst b2 || idtac; try done; [..|by eapply Hu]; exfalso.
    + by apply (Huniq b2).
    + by apply (Huniq b1).
  - intros b' ?. rewrite Ends, Epid, Hlk by done. case_decide; [by subst|].
    destruct (Hb b') as [?|(Hd'&Hr&Hda&Hf&Hh)]; [done|by left|]. right.
    destruct (Hoth (b_blockno (k_bc s !!! b'))) as (->&HD&->&_); [by apply Huniq|].
    split_and!; try (done || lia). rewrite Hf. by rewrite (decide_ext _ _ _ _ HD).
  - intros bno' Hbno. destruct (decide (bno' = bno)) as [->|Hne].
    + exists b. rewrite Hlk, decide_True by done. done.
    + apply Hdom in Hbno; [|done]. destruct (Hin _ Hbno) as (b'&?&?&E). exists b'.
      rewrite Hlk by done. case_decide; [|done]. subst b'. exfalso.
      unfold bf in Hold. rewrite E in Hold. by apply Hold.
  - intros bno' ? HD Hh. destruct (decide (bno' = bno)) as [->|Hne]; [by apply Hnew|].
    destruct (Hoth bno' Hne) as (->&HD'&Hh'&Hdk). rewrite Hdk by lia. apply Hhome; [by rewrite <- Ends|..].
    + by rewrite <- HD'.
    + by rewrite not_elem_of_dom, <- Hh', <- not_elem_of_dom.
  - intros bno' ?. destruct (decide (bno' = bno)) as [->|Hne]; [done|].
    destruct (Hoth bno' Hne) as (->&_). apply Hsz. by rewrite <- Ends.
Qed.
End rep.

(** * Running the operations *)

Lemma woken_refl t : woken t t.
Proof. exists []. unfold wake_all, pt_upd. simpl. rewrite map_id. by destruct t. Qed.

Ltac bframe := split; [done|apply woken_refl|done..].

Ltac bred :=
  repeat first
    [ mred1
    | match goal with
      | |- context [get_buf ?b ?n ?s] => change (get_buf b n s) with (Ret (k_bc s !!! b) s)
      | |- context [upd_buf ?b ?f ?n ?s] =>
          change (upd_buf b f n s) with (Ret tt (set_bc (alter f b (k_bc s)) s))
      end
    | progress (cbn [obind whenM negb]) ].

Section run.
Implicit Types (s : kstate) (p b : nat) (bno : Z) (v : Z → list Z) (D : gset Z) (h : gmap Z nat).

Lemma walk_find test nx found s s' fuel c b r :
  path (k_bc s) nx b c → (length c < fuel)%nat →
  find (λ x, test (k_bc s !!! x)) c = r →
  match r with Some x => found x fuel s = Ret tt s' | None => s' = s end →
  walk test nx found b fuel s = Ret r s'.
Proof.
  intros Hp Hn Hr Hs. unfold walk, whileM. set (body := λ b, _).
  revert Hp Hn. generalize fuel at 1 2 as n. intros n. revert b n Hr.
  induction c as [|x c IH]; intros b [|n] Hr Hp Hn; simpl in Hn; try lia; rewrite loop_fuel_S.
  - simpl in Hp, Hr. subst b r s'. unfold body at 2. by rewrite bool_decide_true.
  - destruct Hp as (->&Hx&Hp). unfold body at 2. rewrite bool_decide_false by done.
    bred. cbn [find] in Hr. destruct (test (k_bc s !!! x)); mred.
    + subst r. by rewrite Hs.
    + apply IH; [done|done|lia].
Qed.

(** What [bget] does to the buffer it returns: [f], then the sleep lock. *)
Definition taken (P : Z) (f : buf → buf) (bf : buf) : buf :=
  buf_set_lock (mkSleep 1 (slk_name (b_lock bf)) P) (f bf).
Definition incr_ref (bf : buf) : buf := buf_set_refcnt (u32 (b_refcnt bf + 1)) bf.

Lemma ready_free s i p l : ready s i p → static_lock l → lock_free (k_ctx s) l.
Proof. intros [_ H]. apply H. Qed.
Lemma ready_ok s i p : ready s i p → cpu_ok (k_ctx s) i.
Proof. intros [H _]. by eapply thread_ok. Qed.

Lemma list_alter_alter {A} (f g : A → A) k (l : list A) :
  alter f k (alter g k l) = alter (f ∘ g) k l.
Proof.
  apply list_eq. intros j. destruct (decide (k = j)) as [->|].
  - rewrite !list_lookup_alter_eq. by destruct (l !! j).
  - by rewrite !list_lookup_alter_ne.
Qed.

Lemma alter_ext_at {A} `{!Inhabited A} (f g : A → A) k (l : list A) :
  f (l !!! k) = g (l !!! k) → alter f k l = alter g k l.
Proof.
  intros H. apply list_eq. intros j. destruct (decide (k = j)) as [->|].
  - rewrite !list_lookup_alter_eq. destruct (l !! j) eqn:E; [|done]. simpl.
    apply list_lookup_total_correct in E as <-. by rewrite H.
  - by rewrite !list_lookup_alter_ne.
Qed.

Lemma bget_take s i p f b fuel :
  ready s i p → (b < NBUF)%nat → length (k_bc s) = S NBUF →
  (∀ bf, b_lock (f bf) = b_lock bf) → slk_locked (b_lock (k_bc s !!! b)) = 0 → (0 < fuel)%nat →
  (upd_buf b f;; release LkBcache;; acquiresleep (SlBuf b)) fuel
    (set_ctx (x_acq i LkBcache (k_ctx s)) s) =
  Ret tt (set_bc (alter (taken (pid_of s p) f) b (k_bc s)) s).
Proof.
  intros Hr Hb Hlen Hf H0 Hfuel. bred.
  rewrite (release_run _ _ (k_ctx s) i); [|by eapply ready_ok|by eapply ready_free|done].
  mred. simpl k_bc. rewrite (acquiresleep_run _ _ i p).
  - simpl. f_equal. unfold set_bc. simpl. f_equal. rewrite list_alter_alter.
    apply alter_ext_at. simpl. rewrite list_lookup_total_alter_eq by lia. by rewrite Hf.
  - apply Hr.
  - apply Hr. done.
  - simpl. rewrite list_lookup_total_alter_eq by lia. by rewrite Hf.
  - done.
Qed.

(** The buffer cache as a list in LRU order: a hit returns the buffer that
    caches the block, a miss the least recently used one that is neither
    referenced nor dirty, and the panic is for when there is none. *)
Lemma bget_run s i p l dev bno fuel :
  ready s i p → ring (k_bc s) l → (NBUF < fuel)%nat →
  (∀ b, (b < NBUF)%nat → caches dev bno (k_bc s !!! b) = true ∨ recyclable (k_bc s !!! b) = true →
        slk_locked (b_lock (k_bc s !!! b)) = 0) →
  bget dev bno fuel s =
    match find (λ b, caches dev bno (k_bc s !!! b)) l with
    | Some b => Ret b (set_bc (alter (taken (pid_of s p) incr_ref) b (k_bc s)) s)
    | None =>
        match find (λ b, recyclable (k_bc s !!! b)) (reverse l) with
        | Some b => Ret b (set_bc (alter (taken (pid_of s p) (buf_recycle dev bno)) b (k_bc s)) s)
        | None => Panic "bget: no buffers" (set_ctx (x_acq i LkBcache (k_ctx s)) s)
        end
    end.
Proof.
  intros Hr Hring Hfuel Hun. pose proof Hring as (Hlen&Hperm&Hc).
  assert (Hll : length l = NBUF) by (by rewrite Hperm, length_seq).
  unfold bget. mred. rewrite (acquire_run _ _ i);
    [|by eapply ready_ok|by eapply ready_free]. bred.
  destruct (find (λ b, caches dev bno (k_bc s !!! b)) l) as [b|] eqn:Ef.
  - pose proof Ef as [Hin Ht]%find_some. apply list_elem_of_In, (ring_elem _ _ _ Hring) in Hin.
    rewrite walk_find with (c := l) (r := Some b)
      (s' := set_bc (alter (taken (pid_of s p) incr_ref) b (k_bc s)) s); [done|..].
    + apply chain_path_next; [by eapply ring_head|done].
    + by rewrite Hll.
    + exact Ef.
    + apply (bget_take _ _ p); auto; lia.
  - rewrite walk_find with (c := l) (r := None) (s' := set_ctx (x_acq i LkBcache (k_ctx s)) s);
      [|by apply chain_path_next; [by eapply ring_head|]|by rewrite Hll|exact Ef|done].
    bred. destruct (find (λ b, recyclable (k_bc s !!! b)) (reverse l)) as [b|] eqn:Eg.
    + pose proof Eg as [Hin Ht]%find_some. apply list_elem_of_In in Hin.
      rewrite elem_of_reverse in Hin. apply (ring_elem _ _ _ Hring) in Hin.
      rewrite walk_find with (c := reverse l) (r := Some b)
        (s' := set_bc (alter (taken (pid_of s p) (buf_recycle dev bno)) b (k_bc s)) s); [done|..].
      * apply chain_path_prev; [by eapply ring_head|done].
      * by rewrite length_reverse, Hll.
      * exact Eg.
      * apply (bget_take _ _ p); auto; lia.
    + rewrite walk_find with (c := reverse l) (r := None)
        (s' := set_ctx (x_acq i LkBcache (k_ctx s)) s);
        [|by apply chain_path_prev; [by eapply ring_head|]
        |by rewrite length_reverse, Hll|exact Eg|done]. done.
Qed.

Definition holds s p b : Prop :=
  slk_locked (b_lock (k_bc s !!! b)) = 1 ∧ slk_pid (b_lock (k_bc s !!! b)) = pid_of s p.

Lemma holdingsleep_true s i p b fuel :
  ready s i p → (b < NBUF)%nat → holds s p b → holdingsleep (SlBuf b) fuel s = Ret true s.
Proof.
  intros Hr Hb [H1 H2]. rewrite (holdingsleep_run _ _ i p); [|apply Hr|by apply Hr].
  simpl. rewrite H1, H2. simpl. by rewrite Z.eqb_refl.
Qed.

Lemma iderw_read s i p b fuel :
  ready s i p → (b < NBUF)%nat → holds s p b →
  b_flags (k_bc s !!! b) = 0 → b_dev (k_bc s !!! b) = 1 →
  0 ≤ b_blockno (k_bc s !!! b) < disksize s →
  iderw b fuel s =
    Ret tt (set_bc (alter (λ bf, buf_set_flags B_VALID
      (buf_set_data (disk_blk s (b_blockno (k_bc s !!! b))) bf)) b (k_bc s)) s).
Proof.
  intros Hr Hb Hh Hfl Hd Hn. unfold iderw. bred. rewrite (holdingsleep_true _ i p) by done. bred.
  rewrite Hfl, Hd. simpl. bred. rewrite (proj2 (Z.leb_gt _ _)) by lia. bred.
  f_equal. simpl. rewrite list_alter_alter. unfold set_bc. simpl. f_equal. apply alter_ext_at.
  unfold compose, buf_set_flags, buf_set_data. simpl. by rewrite Hfl.
Qed.

Lemma iderw_write s i p b fuel :
  ready s i p → (b < NBUF)%nat → holds s p b →
  b_flags (k_bc s !!! b) = 6 → b_dev (k_bc s !!! b) = 1 →
  0 ≤ b_blockno (k_bc s !!! b) < disksize s →
  iderw b fuel s =
    Ret tt (set_bc (alter (buf_set_flags B_VALID) b (k_bc s))
      (set_disk (disk_write (b_blockno (k_bc s !!! b)) (b_data (k_bc s !!! b)) (k_disk s)) s)).
Proof.
  intros Hr Hb Hh Hfl Hd Hn. unfold iderw. bred. rewrite (holdingsleep_true _ i p) by done. bred.
  rewrite Hfl, Hd. simpl. bred. rewrite (proj2 (Z.leb_gt _ _)) by lia. bred.
  f_equal. simpl. rewrite list_alter_alter. unfold set_bc, set_disk. simpl. f_equal. apply alter_ext_at.
  unfold compose, buf_set_flags. simpl. by rewrite Hfl.
Qed.

(** A buffer whose block is not cached is there to be recycled, by counting. *)
Lemma rep_recyclable s p v D h l :
  bio_rep s p v D h → ring (k_bc s) l → (size (D ∪ dom h) < NBUF)%nat →
  ∃ b, find (λ b, recyclable (k_bc s !!! b)) (reverse l) = Some b.
Proof.
  intros Hrep Hring Hsz. destruct (find _ _) as [b|] eqn:E; [by eauto|]. exfalso.
  assert (Hbusy : ∀ b, (b < NBUF)%nat → b_dev (k_bc s !!! b) = 1 ∧ b_blockno (k_bc s !!! b) ∈ D ∪ dom h).
  { intros b Hb. pose proof (find_none _ _ E b) as Hn. rewrite <- list_elem_of_In in Hn.
    rewrite elem_of_reverse, (ring_elem _ _ _ Hring) in Hn. specialize (Hn Hb).
    unfold recyclable in Hn. destruct (br_buf _ _ _ _ _ Hrep b Hb) as [(_&Hf&Hc&_)|(Hd&_&_&Hf&Hh)].
    - rewrite Hf, Hc in Hn. done.
    - split; [done|]. apply elem_of_union. case_decide; [by left|right]. apply elem_of_dom.
      destruct (h !! _); [by eauto|]. destruct Hh as [Hc _]. rewrite Hf, Hc in Hn. done. }
  set (X := (λ b, b_blockno (k_bc s !!! b)) <$> seq 0 NBUF).
  assert (NoDup X) as HX.
  { apply NoDup_fmap_2_strong; [|apply NoDup_seq]. intros b b'. rewrite !elem_of_seq. intros.
    eapply (br_uniq _ _ _ _ _ Hrep); try lia; try done; apply Hbusy; lia. }
  assert (list_to_set X ⊆ D ∪ dom h) as Hsub.
  { intros bno. rewrite elem_of_list_to_set. unfold X. rewrite list_elem_of_fmap.
    intros (b&->&Hb). rewrite elem_of_seq in Hb. apply Hbusy. lia. }
  apply subseteq_size in Hsub. rewrite size_list_to_set in Hsub by done.
  unfold X in Hsub. rewrite length_fmap, length_seq in Hsub. lia.
Qed.

Lemma bframe_refl s : bframe s s.
Proof. bframe. Qed.

Lemma bframe_trans s s1 s2 : bframe s s1 → bframe s1 s2 → bframe s s2.
Proof.
  intros [] []. split; try congruence. destruct bf_pt0 as [c1 E1], bf_pt1 as [c2 E2].
  exists (c2 ++ c1). rewrite E2, E1. unfold wake_all, pt_upd. simpl. f_equal.
  rewrite map_map. apply map_ext. intros. by rewrite foldr_app.
Qed.

Lemma bframe_bc s bc : bframe s (set_bc bc s).
Proof. bframe. Qed.

Lemma pid_wake_proc ch pr : p_pid (wake_proc ch pr) = p_pid pr.
Proof. unfold wake_proc. by case_bool_decide. Qed.

Lemma bframe_pid s s' p : bframe s s' → pid_of s' p = pid_of s p.
Proof.
  intros H. destruct (bf_pt _ _ H) as [chs E]. unfold pid_of. rewrite E. simpl.
  rewrite !list_lookup_total_alt, list_lookup_fmap. destruct (pt_proc (k_pt s) !! p) as [pr|]; [|done].
  simpl. clear E. induction chs as [|ch chs IH]; [done|]. simpl. by rewrite pid_wake_proc.
Qed.

Lemma bframe_ready s s' i p : bframe s s' → ready s i p → ready s' i p.
Proof. intros H. unfold ready. by rewrite (bf_ctx _ _ H). Qed.

Lemma rep_ring_len s p v D h : bio_rep s p v D h → length (k_bc s) = S NBUF.
Proof. by intros [[l [Hl _]] _]. Qed.

(** What the representation says of a buffer the thread holds. *)
Lemma rep_held s p v D h bno b :
  bio_rep s p v D h → h !! bno = Some b →
  (b < NBUF)%nat ∧ b_dev (k_bc s !!! b) = 1 ∧ b_blockno (k_bc s !!! b) = bno ∧
  0 ≤ bno < disksize s ∧ b_data (k_bc s !!! b) = v bno ∧
  b_flags (k_bc s !!! b) = (if decide (bno ∈ D) then 6 else 2) ∧
  b_refcnt (k_bc s !!! b) = 1 ∧ holds s p b.
Proof.
  intros Hrep Hh. destruct (br_in _ _ _ _ _ Hrep bno) as (b'&Hb&Hd&Hn).
  { apply elem_of_union_r, elem_of_dom. eauto. }
  destruct (br_buf _ _ _ _ _ Hrep b' Hb) as [(?&_)|(_&Hr&Hda&Hf&Hm)]; [done|].
  rewrite Hn in *. rewrite Hh in Hm. destruct Hm as (->&?&?&?).
  done.
Qed.

Lemma rep_uniq s p v D h b bno :
  bio_rep s p v D h → (b < NBUF)%nat → b_dev (k_bc s !!! b) = 1 → b_blockno (k_bc s !!! b) = bno →
  ∀ b', (b' < NBUF)%nat → b' ≠ b → b_dev (k_bc s !!! b') = 1 → b_blockno (k_bc s !!! b') ≠ bno.
Proof. intros Hrep ? Hd <- b' ? Hne Hd' E. apply Hne. by eapply br_uniq. Qed.

Lemma bread_hit s i p v D h b bno :
  ready s i p → bio_rep s p v D h → (b < NBUF)%nat → h !! bno = None →
  b_dev (k_bc s !!! b) = 1 → b_blockno (k_bc s !!! b) = bno →
  bio_rep (set_bc (alter (taken (pid_of s p) incr_ref) b (k_bc s)) s) p v D (<[bno := b]> h) ∧
  Z.land (b_flags (alter (taken (pid_of s p) incr_ref) b (k_bc s) !!! b)) B_VALID ≠ 0.
Proof.
  intros Hr Hrep Hb Hh Hd Hn. pose proof (rep_ring_len _ _ _ _ _ Hrep) as Hlen.
  destruct (br_buf _ _ _ _ _ Hrep b Hb) as [(?&_)|(_&Hrg&Hda&Hf&Hm)]; [done|].
  rewrite Hn, Hh in *. destruct Hm as [Hm1 Hm2].
  split.
  - eapply (rep_alter s _ _ _ _ _ _ _ _ b); try done; simpl; rewrite ?Hn; try done.
    + by eapply rep_uniq.
    + intros bno' Hne. rewrite lookup_insert_ne by done. done.
    + right. simpl. rewrite Hn, lookup_insert_eq, Hm1. done.
    + rewrite dom_insert. set_solver.
    + by eapply br_size.
  - rewrite list_lookup_total_alter_eq by lia. simpl. rewrite Hf. by case_decide.
Qed.

Lemma bread_miss s i p v D h b bno fuel :
  ready s i p → bio_rep s p v D h → (b < NBUF)%nat → h !! bno = None → bno ∉ D →
  0 ≤ bno < disksize s → recyclable (k_bc s !!! b) = true →
  (∀ b', (b' < NBUF)%nat → b_dev (k_bc s !!! b') = 1 → b_blockno (k_bc s !!! b') ≠ bno) →
  ∃ s', iderw b fuel (set_bc (alter (taken (pid_of s p) (buf_recycle 1 bno)) b (k_bc s)) s) = Ret tt s' ∧
    bframe s s' ∧ k_disk s' = k_disk s ∧ bio_rep s' p v D (<[bno := b]> h).
Proof.
  intros Hr Hrep Hb Hh HD Hrg Hrec Hun. pose proof (rep_ring_len _ _ _ _ _ Hrep) as Hlen.
  rewrite (iderw_read _ i p); [|done|done|..]; simpl;
    unfold holds; simpl; rewrite ?list_lookup_total_alter_eq by lia; [|done..].
  eexists. split; [done|]. split; [bframe|]. split; [done|]. simpl.
  rewrite list_alter_alter. eapply (rep_alter s _ _ _ _ _ _ _ _ b); try done; simpl.
  - by intros; apply Hun.
  - intros Hd Hne. unfold recyclable in Hrec. apply andb_true_iff in Hrec as [H0 H1].
    apply Z.eqb_eq in H0, H1. destruct (br_buf _ _ _ _ _ Hrep b Hb) as [(?&_)|(_&_&_&Hf&Hm)]; [done|].
    rewrite not_elem_of_union, not_elem_of_dom. split.
    + intros Hin. rewrite decide_True in Hf by done. by rewrite Hf in H1.
    + destruct (h !! b_blockno (k_bc s !!! b)); [|done]. destruct Hm as (_&Hm&_). by rewrite Hm in H0.
  - intros bno' Hne. by rewrite lookup_insert_ne by done.
  - right. simpl. rewrite lookup_insert_eq. rewrite decide_False by done. split_and!; try (done || lia).
    symmetry. apply (br_home _ _ _ _ _ Hrep); [done|done|by apply not_elem_of_dom].
  - rewrite dom_insert. set_solver.
  - by eapply br_size.
Qed.

Lemma bread_rep s i p v D h bno fuel :
  ready s i p → bio_rep s p v D h → 0 ≤ bno < disksize s → h !! bno = None →
  bno ∈ D ∨ (size (D ∪ dom h) < NBUF)%nat → (NBUF < fuel)%nat →
  ∃ b s', bread 1 bno fuel s = Ret b s' ∧ bframe s s' ∧ k_disk s' = k_disk s ∧
    bio_rep s' p v D (<[bno := b]> h).
Proof.
  intros Hr Hrep Hrg Hh Hroom Hfuel. pose proof (br_ring _ _ _ _ _ Hrep) as [l Hring].
  unfold bread. bred. rewrite (bget_run _ i p l); [|done..|].
  2:{ intros b Hb Hor. destruct (br_buf _ _ _ _ _ Hrep b Hb) as [(_&_&_&?)|(Hd&_&_&_&Hm)]; [done|].
      unfold caches, recyclable in Hor. destruct (h !! b_blockno (k_bc s !!! b)) eqn:E; [|by destruct Hm].
      destruct Hm as (_&Hm&_). rewrite Hm in Hor. destruct Hor as [Hor|Hor]; [|done].
      apply andb_true_iff in Hor as [_ Hn%Z.eqb_eq]. by rewrite Hn, Hh in E. }
  destruct (find (λ b, caches 1 bno (k_bc s !!! b)) l) as [b|] eqn:Ef.
  - apply find_some in Ef as [Hin Ht]. apply list_elem_of_In, (ring_elem _ _ _ Hring) in Hin.
    apply andb_true_iff in Ht as [Hd%Z.eqb_eq Hn%Z.eqb_eq].
    destruct (bread_hit s i p v D h b bno) as [Hrep' Hfl]; [done..|]. exists b. eexists. bred.
    simpl k_bc. rewrite (proj2 (Z.eqb_neq _ _) Hfl). bred.
    split; [done|]. split; [apply bframe_bc|]. done.
  - assert (Hun : ∀ b', (b' < NBUF)%nat → b_dev (k_bc s !!! b') = 1 → b_blockno (k_bc s !!! b') ≠ bno).
    { intros b' Hb' Hd Hn. pose proof (find_none _ _ Ef b') as Hnone. simpl in Hnone.
      rewrite <- list_elem_of_In, (ring_elem _ _ _ Hring) in Hnone. specialize (Hnone Hb').
      unfold caches in Hnone. by rewrite Hd, Hn, !Z.eqb_refl in Hnone. }
    assert (HD : bno ∉ D).
    { intros HD. destruct (br_in _ _ _ _ _ Hrep bno) as (b&?&?&?); [set_solver|]. by eapply Hun. }
    destruct (rep_recyclable s p v D h l) as [b Eg]; [done|done|by destruct Hroom|].
    rewrite Eg. pose proof Eg as [Hin Ht]%find_some. apply list_elem_of_In in Hin.
    rewrite elem_of_reverse, (ring_elem _ _ _ Hring) in Hin.
    destruct (bread_miss s i p v D h b bno fuel) as (s'&E&Hfr&Hdk&Hrep'); [done..|].
    exists b, s'. bred. simpl k_bc. rewrite list_lookup_total_alter_eq
      by (rewrite (rep_ring_len _ _ _ _ _ Hrep); lia).
    simpl. bred. by rewrite E.
Qed.

(** Assigning to the data of a buffer the thread holds. *)
Lemma set_data_rep s p v D h bno b w :
  bio_rep s p v D h → h !! bno = Some b → length w = Z.to_nat BSIZE →
  bio_rep (set_bc (alter (buf_set_data w) b (k_bc s)) s) p (<[bno := w]> v) D h.
Proof.
  intros Hrep Hh Hw. destruct (rep_held _ _ _ _ _ _ _ Hrep Hh) as (Hb&Hd&Hn&Hrg&Hda&Hf&Hrc&Hl1&Hl2).
  eapply (rep_alter s _ _ _ _ _ _ _ _ b); try done; simpl; rewrite ?Hn; try done.
  - by eapply rep_uniq.
  - intros bno' Hne. by rewrite fn_lookup_insert_ne by done.
  - right. simpl. by rewrite Hn, Hh, fn_lookup_insert, Hd, Hf.
  - intros _ []. apply elem_of_dom. eauto.
  - by rewrite fn_lookup_insert.
Qed.

(** Pinning it, as [log_write] does. *)
Lemma set_dirty_rep s p v D h bno b :
  bio_rep s p v D h → h !! bno = Some b →
  bio_rep (set_bc (alter (λ bf, buf_set_flags (Z.lor (b_flags bf) B_DIRTY) bf) b (k_bc s)) s) p v
    ({[bno]} ∪ D) h.
Proof.
  intros Hrep Hh. destruct (rep_held _ _ _ _ _ _ _ Hrep Hh) as (Hb&Hd&Hn&Hrg&Hda&Hf&Hrc&Hl1&Hl2).
  eapply (rep_alter s _ _ _ _ _ _ _ _ b); try done; simpl; rewrite ?Hn; try done.
  - by eapply rep_uniq.
  - intros bno' Hne. set_solver.
  - right. simpl. rewrite Hn, Hh. split_and!; try (done || lia).
    rewrite Hf, (decide_True (P := bno ∈ {[bno]} ∪ D)) by set_solver. by case_decide.
  - intros _ []. apply elem_of_dom. eauto.
  - by eapply br_size.
Qed.

Lemma bwrite_rep s i p v D h bno b fuel :
  ready s i p → bio_rep s p v D h → h !! bno = Some b →
  ∃ s', bwrite b fuel s = Ret tt s' ∧ bframe s s' ∧ k_disk s' = disk_write bno (v bno) (k_disk s) ∧
    bio_rep s' p v (D ∖ {[bno]}) h.
Proof.
  intros Hr Hrep Hh. pose proof (rep_ring_len _ _ _ _ _ Hrep) as Hlen.
  destruct (rep_held _ _ _ _ _ _ _ Hrep Hh) as (Hb&Hd&Hn&Hrg&Hda&Hf&Hrc&Hl1&Hl2).
  unfold bwrite. bred. rewrite (holdingsleep_true _ i p) by done. bred.
  rewrite (iderw_write _ i p); [|done|done|..]; simpl;
    rewrite ?list_lookup_total_alter_eq by lia; simpl; rewrite ?Hn, ?Hda; try done.
  2:{ unfold holds. simpl. by rewrite list_lookup_total_alter_eq by lia. }
  2:{ rewrite Hf. by case_decide. }
  eexists. split; [done|]. split; [bframe|]. split; [done|].
  rewrite list_alter_alter. eapply (rep_alter s _ _ _ _ _ _ _ _ b); try done; simpl; rewrite ?Hn; try done.
  - unfold disksize. simpl. by rewrite length_insert.
  - by eapply rep_uniq.
  - intros bno' Hne. split_and!; [done|set_solver|done|]. intros Hpos. unfold disk_blk. simpl.
    rewrite list_lookup_total_insert_ne by lia. done.
  - right. simpl. rewrite Hn, Hh, Hd. rewrite decide_False by set_solver.
    split_and!; try (done || lia).
  - intros _ []. apply elem_of_dom. eauto.
  - by eapply br_size.
Qed.

(** [bf'] is [bf] with other links. *)
Definition relinked (bf bf' : buf) : Prop :=
  bf' = buf_set_prev (b_prev bf') (buf_set_next (b_next bf') bf).

Lemma relinked_trans (a b c : buf) : relinked a b → relinked b c → relinked a c.
Proof. destruct a, b, c. by intros [=] [=]; subst. Qed.

Lemma relinked_alter (bc bc' : list buf) f b x :
  (∀ bf, relinked bf (f bf)) → relinked (bc !!! x) (bc' !!! x) →
  relinked (bc !!! x) (alter f b bc' !!! x).
Proof.
  intros Hf H. rewrite list_lookup_total_alter. case_decide as E; [destruct E as [-> _]|done].
  by eapply relinked_trans.
Qed.

Lemma relinked_touch (bc : list buf) b x : relinked (bc !!! x) (push_front b (unlink b bc) !!! x).
Proof.
  unfold push_front, unlink. repeat (apply relinked_alter; [by intros|]).
  unfold relinked. by destruct (bc !!! x).
Qed.

(** A release moves the buffer to the front of the LRU order. *)
Lemma ring_touch bc l1 b l2 :
  ring bc (l1 ++ b :: l2) → ring (push_front b (unlink b bc)) (b :: l1 ++ l2).
Proof.
  intros Hring. pose proof Hring as (Hlen&Hperm&Hc).
  assert (Hnd : NoDup (bc_head :: l1 ++ b :: l2)).
  { apply NoDup_cons. split; [by eapply ring_head|by eapply ring_NoDup]. }
  assert (Hlt : ∀ x, x ∈ bc_head :: l1 ++ b :: l2 → (x < length bc)%nat).
  { intros x [->|Hx]%elem_of_cons; [unfold bc_head; lia|].
    rewrite (ring_elem _ _ _ Hring) in Hx. lia. }
  assert (length (unlink b bc) = length bc) as Hlu by (unfold unlink; by rewrite !length_alter).
  split_and!.
  - unfold push_front. rewrite !length_alter. by rewrite Hlu.
  - by rewrite <- Hperm, Permutation_middle.
  - apply chain_push_front.
    + by rewrite Permutation_middle.
    + intros x Hx. rewrite Hlu. apply Hlt. by rewrite <- Permutation_middle.
    + by apply chain_unlink.
Qed.

Lemma rep_touch s s' p v D h b :
  bio_rep s p v D h → (b < NBUF)%nat → k_bc s' = push_front b (unlink b (k_bc s)) →
  k_disk s' = k_disk s → pid_of s' p = pid_of s p → bio_rep s' p v D h.
Proof.
  intros [[l Hring] Hu Hb Hin Hhome Hsz] Hlt Ebc Edk Epid.
  assert (Hx : ∀ x, relinked (k_bc s !!! x) (k_bc s' !!! x)) by (intros; rewrite Ebc; apply relinked_touch).
  assert (Hd : ∀ x, b_dev (k_bc s' !!! x) = b_dev (k_bc s !!! x)) by (intros x; by rewrite (Hx x)).
  assert (Hn : ∀ x, b_blockno (k_bc s' !!! x) = b_blockno (k_bc s !!! x)) by (intros x; by rewrite (Hx x)).
  assert (Hds : disksize s' = disksize s) by (unfold disksize; by rewrite Edk).
  split.
  - rewrite <- (ring_elem _ _ _ Hring) in Hlt. apply list_elem_of_split in Hlt as (l1&l2&->).
    exists (b :: l1 ++ l2). rewrite Ebc. by apply ring_touch.
  - intros b1 b2. rewrite !Hd, !Hn. apply Hu.
  - intros x Hxl. rewrite Hds, Epid. rewrite (Hx x). apply (Hb x Hxl).
  - intros bno. setoid_rewrite Hd. setoid_rewrite Hn. apply Hin.
  - intros bno. rewrite Hds. unfold disk_blk. rewrite Edk. apply Hhome.
  - intros bno. rewrite Hds. apply Hsz.
Qed.

Lemma brelse_run s i p b fuel :
  ready s i p → (b < NBUF)%nat → length (k_bc s) = S NBUF → holds s p b →
  b_refcnt (k_bc s !!! b) = 1 →
  brelse b fuel s =
    Ret tt (set_pt (wake_all [ChSleep (SlBuf b)] (k_pt s))
      (set_bc (push_front b (unlink b
        (alter (λ bf, buf_set_refcnt 0 (buf_set_lock (mkSleep 0 (slk_name (b_lock bf)) 0) bf)) b
          (k_bc s)))) s)).
Proof.
  intros Hr Hb Hlen Hh Hrc. unfold brelse. bred. rewrite (holdingsleep_true _ i p) by done. bred.
  rewrite (releasesleep_run _ _ i); [|by eapply ready_ok|by apply Hr|by apply Hr]. bred.
  rewrite (acquire_run _ _ i); [|by eapply ready_ok|by apply Hr]. bred. simpl k_bc.
  rewrite list_alter_alter. set (bc1 := alter _ b (k_bc s)).
  assert (E : bc1 = alter (λ bf, buf_set_refcnt 0
    (buf_set_lock (mkSleep 0 (slk_name (b_lock bf)) 0) bf)) b (k_bc s)).
  { apply alter_ext_at. simpl. unfold buf_set_refcnt. simpl. by rewrite Hrc. }
  rewrite <- E. assert (Hz : b_refcnt (bc1 !!! b) = 0).
  { rewrite E, list_lookup_total_alter_eq by lia. done. }
  rewrite Hz. cbn [whenM Z.eqb]. bred.
  rewrite (release_run _ _ (k_ctx s) i); [|by eapply ready_ok|by apply Hr|done]. done.
Qed.

Lemma brelse_rep s i p v D h bno b fuel :
  ready s i p → bio_rep s p v D h → h !! bno = Some b → bno ∈ D ∨ v bno = disk_blk s bno →
  ∃ s', brelse b fuel s = Ret tt s' ∧ bframe s s' ∧ k_disk s' = k_disk s ∧
    bio_rep s' p v D (delete bno h).
Proof.
  intros Hr Hrep Hh Hc. pose proof (rep_ring_len _ _ _ _ _ Hrep) as Hlen.
  destruct (rep_held _ _ _ _ _ _ _ Hrep Hh) as (Hb&Hd&Hn&Hrg&Hda&Hf&Hrc&Hl).
  rewrite (brelse_run _ i p) by done. eexists. split; [done|].
  match goal with |- bframe s ?t ∧ _ => assert (Hfr : bframe s t) by (split; try done; by eexists) end.
  split; [done|]. split; [done|]. set (f := λ bf, _) in *.
  eapply (rep_touch (set_bc (alter f b (k_bc s)) s)); [|done|done|done|by rewrite (bframe_pid _ _ p Hfr)].
  eapply (rep_alter s _ _ _ _ _ _ _ _ b); try done; simpl; rewrite ?Hn; try done.
  - by eapply rep_uniq.
  - intros bno' Hne. by rewrite lookup_delete_ne.
  - right. simpl. by rewrite Hn, lookup_delete_eq.
  - intros HnD _. by destruct Hc.
  - by eapply br_size.
Qed.
End run.

(** * Initialisation *)

Section binit.
Implicit Types (s : kstate).

(** The buffers as [binit] leaves them: on the ring, free, of no device. *)
Definition blank (bf : buf) : Prop :=
  b_flags bf = 0 ∧ b_dev bf = 0 ∧ b_refcnt bf = 0 ∧ slk_locked (b_lock bf) = 0.

Lemma blank_alter f (b : nat) (bc : list buf) :
  (∀ bf, blank bf → blank (f bf)) → (∀ x : nat, blank (bc !!! x)) → ∀ x, blank (alter f b bc !!! x).
Proof. intros Hf Hb x. rewrite list_lookup_total_alter. case_decide; auto. Qed.

(** Locks have been initialised, and nothing else of the CPUs has changed. *)
Definition more_free (x0 x : cpuctx) : Prop :=
  x_hw x = x_hw x0 ∧ x_cpus x = x_cpus x0 ∧ ∀ l, lock_free x0 l → lock_free x l.

Lemma more_free_init l nm x0 x :
  more_free x0 x → more_free x0 (mkCtx (x_hw x) (x_cpus x) (<[l := mkSpin 0 nm None]> (x_locks x))).
Proof.
  intros (Hh&Hc&Hf). split_and!; [done..|]. intros l' Hl'. destruct (decide (l = l')) as [->|].
  - exists nm. simpl. by rewrite lookup_insert_eq.
  - destruct (Hf l' Hl') as [nm' E]. exists nm'. simpl. by rewrite lookup_insert_ne.
Qed.

Lemma more_free_refl x : more_free x x.
Proof. by split_and!. Qed.

Lemma more_free_ready s s' i p :
  more_free (k_ctx s) (k_ctx s') → ready s i p → ready s' i p.
Proof.
  intros (Hh&Hc&Hf) [[(c&Hon&Hok) Hp] Hl]. split; [split|by auto]; [|by rewrite Hc].
  exists c. unfold oncpu in *. by rewrite Hh, Hc.
Qed.

Definition binit_inv s0 (j : Z) s : Prop :=
  length (k_bc s) = S NBUF ∧ (∀ x, blank (k_bc s !!! x)) ∧
  chain (k_bc s) (bc_head :: reverse (seq 0 (Z.to_nat j)) ++ [bc_head]) ∧
  ∃ x bc, s = set_ctx x (set_bc bc s0) ∧ more_free (k_ctx s0) x.

Lemma binit_round s0 j s fuel :
  0 ≤ j < Z.of_nat NBUF → binit_inv s0 j s →
  ∃ s', binit_buf j fuel s = Ret None s' ∧ binit_inv s0 (j + 1) s'.
Proof.
  intros Hj (Hlen&Hbl&Hc&x&bc&Es&Hx). unfold binit_buf. cbn zeta. set (b := Z.to_nat j) in *.
  unfold initsleeplock, initlock, put_lock, modx. bred. eexists. split; [done|].
  simpl. set (lk := mkSleep 0 "buffer" 0). unfold binit_inv.
  split_and!; cbn [k_bc set_bc set_ctx].
  - by rewrite !length_alter.
  - by repeat (apply blank_alter; [by intros ? (?&?&?&?)|]).
  - replace (Z.to_nat (j + 1)) with (S b) by lia. rewrite seq_S, reverse_snoc.
    replace (bc_head :: (_ :: _) ++ _) with (bc_head :: (b :: reverse (seq 0 b)) ++ [bc_head]) by done.
    assert (Hb : b ∉ reverse (seq 0 b)) by (rewrite elem_of_reverse, elem_of_seq; lia).
    assert (Hh : bc_head ∉ reverse (seq 0 b)) by (rewrite elem_of_reverse, elem_of_seq; unfold bc_head; lia).
    assert (b_next (k_bc s !!! bc_head) < length (k_bc s))%nat.
    { destruct (snoc_cons bc_head (reverse (seq 0 b))) as (n&c&E). rewrite E in Hc.
      destruct Hc as (->&_&_). assert (n ∈ reverse (seq 0 b) ++ [bc_head]) as Hn by (rewrite E; set_solver).
      rewrite elem_of_app, elem_of_reverse, elem_of_seq, list_elem_of_singleton in Hn. unfold bc_head in Hn. lia. }
    assert (b < length (k_bc s) ∧ bc_head < length (k_bc s))%nat as [? ?] by (unfold bc_head; lia).
    eapply chain_ext, (chain_push_front (k_bc s) b); unfold push_front; try done.
    + intros y _. by links.
    + intros y _. by links.
    + rewrite !NoDup_cons, not_elem_of_cons. split_and!; try done; [unfold bc_head; lia|].
      rewrite reverse_Permutation. apply NoDup_seq.
    + intros y Hy. rewrite !elem_of_cons, elem_of_reverse, elem_of_seq in Hy. unfold bc_head in Hy. lia.
  - subst s. eexists _, _. split; [done|]. by apply more_free_init.
Qed.

(** After [binit] on the zeroed table the cache holds nothing and every block
    has its contents from the disk. *)
Lemma binit_rep s p fuel :
  length (k_bc s) = S NBUF → (∀ x, blank (k_bc s !!! x)) →
  (∀ bno, 0 ≤ bno < disksize s → length (disk_blk s bno) = Z.to_nat BSIZE) →
  ∃ s', binit fuel s = Ret tt s' ∧ k_disk s' = k_disk s ∧ k_pt s' = k_pt s ∧
    k_log s' = k_log s ∧ more_free (k_ctx s) (k_ctx s') ∧ bio_rep s' p (disk_blk s) ∅ ∅.
Proof.
  intros Hlen Hbl Hdk.
  assert (∃ s1, binit fuel s = obind (λ _ s', Ret tt s') (forM NBUF 0 binit_buf fuel s1) ∧
    k_bc s1 = alter (buf_set_next bc_head) bc_head (alter (buf_set_prev bc_head) bc_head (k_bc s)) ∧
    ∃ x bc, s1 = set_ctx x (set_bc bc s) ∧ more_free (k_ctx s) x) as (s1&Eb&Ebc&Hs1).
  { unfold binit. generalize (forM NBUF 0 binit_buf). intros m. eexists; split; [done|split; [done|eexists _, _]].
    split; [done|]. apply more_free_init, more_free_refl. }
  rewrite Eb. clear Eb. destruct (forM_ok binit_buf (binit_inv s) fuel NBUF 0 s1) as (s'&E&HI).
  - unfold binit_inv. rewrite Ebc. split_and!.
    + by rewrite !length_alter.
    + by repeat (apply blank_alter; [by intros ? (?&?&?&?)|]).
    + simpl. assert (bc_head < length (k_bc s))%nat by (unfold bc_head; lia). links. by rewrite !decide_True.
    + done.
  - intros j s2 Hj HI. apply binit_round; [lia|done].
  - rewrite E. clear E. destruct HI as (Hlen'&Hbl'&Hc&x&bc&->&Hx). eexists.
    split; [reflexivity|]. do 4 (split; [done|]). split.
    + exists (reverse (seq 0 NBUF)). split_and!; [done|apply reverse_Permutation|].
      by rewrite Z.add_0_l, Nat2Z.id in Hc.
    + intros b b' _ _ Hd. destruct (Hbl' b) as (_&H0&_). congruence.
    + intros b _. left. destruct (Hbl' b) as (?&Hd&?&?). split_and!; try done. by rewrite Hd.
    + set_solver.
    + done.
    + done.
Qed.
End binit.

(** * The cache as its clients see it

    An abstract cache and the five things a client does with it. [astep] says
    when each is allowed and what it does; [cstep] is the code. *)

Inductive bop :=
| Read (bno : Z) | Modify (bno : Z) (w : list Z) | Pin (bno : Z) | Write (bno : Z) | Release (bno : Z).

Record acache := mkAc {
  a_disk : list (list Z);
  a_v : Z → list Z;
  a_dirty : gset Z;
  a_held : gset Z
}.

Definition astep (o : bop) (a : acache) : option acache :=
  let '(mkAc d v D H) := a in
  match o with
  | Read bno =>
      if decide (0 ≤ bno < Z.of_nat (length d) ∧ bno ∉ H ∧
                 (bno ∈ D ∨ (size (D ∪ H) < NBUF)%nat))
      then Some (mkAc d v D ({[bno]} ∪ H)) else None
  | Modify bno w =>
      if decide (bno ∈ H ∧ length w = Z.to_nat BSIZE) then Some (mkAc d (<[bno := w]> v) D H) else None
  | Pin bno => if decide (bno ∈ H) then Some (mkAc d v ({[bno]} ∪ D) H) else None
  | Write bno =>
      if decide (bno ∈ H) then Some (mkAc (<[Z.to_nat bno := v bno]> d) v (D ∖ {[bno]}) H) else None
  | Release bno =>
      if decide (bno ∈ H ∧ (bno ∈ D ∨ v bno = d !!! Z.to_nat bno))
      then Some (mkAc d v D (H ∖ {[bno]})) else None
  end.

Fixpoint asteps (os : list bop) (a : acache) : option acache :=
  match os with
  | [] => Some a
  | o :: os => a' ← astep o a; asteps os a'
  end.

(** The client keeps the pointers it got in a table of its own. *)
Definition cstep (o : bop) (h : gmap Z nat) : K (gmap Z nat) :=
  match o with
  | Read bno => b ← bread 1 bno; mret (<[bno := b]> h)
  | Modify bno w => upd_buf (h !!! bno) (buf_set_data w);; mret h
  | Pin bno => upd_buf (h !!! bno) (λ bf, buf_set_flags (Z.lor (b_flags bf) B_DIRTY) bf);; mret h
  | Write bno => bwrite (h !!! bno);; mret h
  | Release bno => brelse (h !!! bno);; mret (delete bno h)
  end.

Fixpoint csteps (os : list bop) (h : gmap Z nat) : K (gmap Z nat) :=
  match os with
  | [] => mret h
  | o :: os => h' ← cstep o h; csteps os h'
  end.

Definition ac_rep (s : kstate) (p : nat) (h : gmap Z nat) (a : acache) : Prop :=
  bio_rep s p (a_v a) (a_dirty a) h ∧ a_disk a = d_blocks (k_disk s) ∧ a_held a = dom h.

Lemma cstep_refines o s i p h a a' fuel :
  ready s i p → ac_rep s p h a → (NBUF < fuel)%nat → astep o a = Some a' →
  ∃ h' s', cstep o h fuel s = Ret h' s' ∧ bframe s s' ∧ ac_rep s' p h' a'.
Proof.
  intros Hr (Hrep&Hd&Hh) Hf. destruct a as [d v D H]; simpl in *. subst d H.
  assert (Hl : ∀ bno, bno ∈ dom h → h !! bno = Some (h !!! bno)).
  { intros bno [b Hb]%elem_of_dom. by rewrite (lookup_total_correct _ _ _ Hb). }
  destruct o as [bno|bno w|bno|bno|bno]; simpl; case_decide as Hc; try done; intros [= <-]; bred.
  - destruct Hc as (Hrg&Hnh%not_elem_of_dom&Hroom).
    destruct (bread_rep s i p v D h bno fuel) as (b&s'&E&Hfr&Hdk&Hrep'); try done.
    rewrite E. bred. eexists _, _. split; [done|]. split; [done|].
    split; [done|]. simpl. rewrite Hdk, dom_insert_L. done.
  - destruct Hc as [Hin Hw]. eexists _, _. split; [done|]. split; [apply bframe_bc|].
    split; [|done]. by apply set_data_rep; [|apply Hl|].
  - eexists _, _. split; [done|]. split; [apply bframe_bc|]. split; [|done].
    by apply set_dirty_rep; [|apply Hl].
  - destruct (bwrite_rep s i p v D h bno (h !!! bno) fuel) as (s'&E&Hfr&Hdk&Hrep'); auto.
    rewrite E. bred. eexists _, _. split; [done|]. split; [done|]. split; [done|]. simpl. by rewrite Hdk.
  - destruct Hc as [Hin Hc].
    destruct (brelse_rep s i p v D h bno (h !!! bno) fuel) as (s'&E&Hfr&Hdk&Hrep'); auto.
    rewrite E. bred. eexists _, _. split; [done|]. split; [done|]. split; [done|]. simpl.
    by rewrite Hdk, dom_delete_L.
Qed.

Lemma csteps_refines os s i p h a a' fuel :
  ready s i p → ac_rep s p h a → (NBUF < fuel)%nat → asteps os a = Some a' →
  ∃ h' s', csteps os h fuel s = Ret h' s' ∧ bframe s s' ∧ ac_rep s' p h' a'.
Proof.
  intros Hr Ha Hf. revert s h a Hr Ha. induction os as [|o os IH]; intros s h a Hr Ha Hs; simpl in Hs.
  - injection Hs as <-. exists h, s. split; [done|]. split; [apply bframe_refl|done].
  - destruct (astep o a) as [a1|] eqn:Ea; [|done]. simpl in Hs.
    destruct (cstep_refines o s i p h a a1 fuel) as (h1&s1&E1&Hfr1&Ha1); [done..|].
    destruct (IH s1 h1 a1) as (h2&s2&E2&Hfr2&Ha2); [by eapply bframe_ready|done|done|].
    exists h2, s2. cbn [csteps]. rewrite (run_bind _ _ _ _ _ _ E1). split; [done|].
    split; [by eapply bframe_trans|done].
Qed.

(** C3: The buffer cache is the disk with a write-back layer. On a zeroed
    buffer table [binit] succeeds, and from then on every sequence of reads,
    modifications, pins, writes and releases that the abstract cache allows
    runs to its end without a panic and leaves the cache representing the
    abstract result: bread returns the current contents of the block, whatever
    was evicted and recycled in between. *)
Theorem cache_refines s i p fuel :
  ready s i p → length (k_bc s) = S NBUF → (∀ x, blank (k_bc s !!! x)) →
  (∀ bno, 0 ≤ bno < disksize s → length (disk_blk s bno) = Z.to_nat BSIZE) → (NBUF < fuel)%nat →
  ∃ s0, binit fuel s = Ret tt s0 ∧
    ∀ os a', asteps os (mkAc (d_blocks (k_disk s)) (disk_blk s) ∅ ∅) = Some a' →
    ∃ h' s', csteps os ∅ fuel s0 = Ret h' s' ∧ bframe s0 s' ∧ ac_rep s' p h' a'.
Proof.
  intros Hr Hlen Hbl Hdk Hf. destruct (binit_rep s p fuel) as (s0&E&Hd&_&_&Hx&Hrep); [done..|].
  exists s0. split; [exact E|]. clear E. intros os a' Ha.
  eapply csteps_refines; [by eapply more_free_ready| |exact Hf|exact Ha].
  split; [exact Hrep|]. by rewrite <- Hd.
Qed.
