(* ===== verification/Log.v ===== *)
(** The redo log, kernel/log.c, with [readsb] of kernel/fs.c.

    The first part is the code. The second part is what the log is for: a
    crash at any point of [commit], and of the recovery that follows it, leaves
    a disk from which recovery restores either every block of the transaction
    or none of them. *)

From stdpp Require Import functions base list gmap strings.
From Stdlib Require Import ZArith Lia.
From S2P Require Import Prelude Bytes Monad Kstate Spinlock Sched Bio.

(** * Code *)

(** An array index outside the array, undefined in C. *)
Definition out_of_bounds {A} : K A := panic "array index out of bounds".

Definition decode_sb (l : list Z) : superblock :=
  mkSb (get32 l 0) (get32 l 4) (get32 l 8) (get32 l 12) (get32 l 16) (get32 l 20) (get32 l 24).

Definition readsb (dev : Z) : K superblock :=
  bp ← bread dev 1;
  bf ← get_buf bp;
  brelse bp;;
  mret (decode_sb (b_data bf)).

Definition getlog {A} (f : logrec → A) : K A := gets (λ s, f (k_log s)).
Definition modlog (f : logrec → logrec) : K unit := modify (λ s, set_log (f (k_log s)) s).

Definition log_set_geometry (start size dev : Z) (l : logrec) : logrec :=
  mkLog start size (l_outstanding l) (l_committing l) dev (lh_n l) (lh_block l).
Definition log_set_outstanding (v : Z) (l : logrec) : logrec :=
  mkLog (l_start l) (l_size l) v (l_committing l) (l_dev l) (lh_n l) (lh_block l).
Definition log_set_committing (v : Z) (l : logrec) : logrec :=
  mkLog (l_start l) (l_size l) (l_outstanding l) v (l_dev l) (lh_n l) (lh_block l).
Definition log_set_n (v : Z) (l : logrec) : logrec :=
  mkLog (l_start l) (l_size l) (l_outstanding l) (l_committing l) (l_dev l) v (lh_block l).
Definition log_set_block (i v : Z) (l : logrec) : logrec :=
  mkLog (l_start l) (l_size l) (l_outstanding l) (l_committing l) (l_dev l) (lh_n l)
    (<[Z.to_nat i := v]> (lh_block l)).

Definition lh_at (i : Z) (l : logrec) : Z := lh_block l !!! Z.to_nat i.

(** Copy committed blocks from log to their home location. *)
Definition install_block (tail : Z) : K (option unit) :=
  l ← getlog id;
  lbuf ← bread (l_dev l) (u32 (l_start l + tail + 1));
  dbuf ← bread (l_dev l) (u32 (lh_at tail l));
  bf ← get_buf lbuf;
  upd_buf dbuf (buf_set_data (b_data bf));;
  bwrite dbuf;;
  brelse lbuf;;
  brelse dbuf;;
  mret None.

Definition install_trans : K unit :=
  n ← getlog lh_n;
  forM (Z.to_nat n) 0 install_block;;
  mret tt.

(** Read the log header from disk into the in-memory log header. *)
Definition read_head_entry (b : nat) (i : Z) : K (option unit) :=
  if LOGSIZE <=? i then out_of_bounds else
  bf ← get_buf b;
  modlog (log_set_block i (s32 (get32 (b_data bf) (4 * (i + 1)))));;
  mret None.

Definition read_head : K unit :=
  l ← getlog id;
  b ← bread (l_dev l) (u32 (l_start l));
  bf ← get_buf b;
  modlog (log_set_n (s32 (get32 (b_data bf) 0)));;
  n ← getlog lh_n;
  forM (Z.to_nat n) 0 (read_head_entry b);;
  brelse b.

(** Write in-memory log header to disk. *)
Definition write_head_entry (b : nat) (i : Z) : K (option unit) :=
  v ← getlog (lh_at i);
  upd_buf b (λ bf, buf_set_data (put32 (4 * (i + 1)) v (b_data bf)) bf);;
  mret None.

Definition write_head : K unit :=
  l ← getlog id;
  b ← bread (l_dev l) (u32 (l_start l));
  upd_buf b (λ bf, buf_set_data (put32 0 (lh_n l) (b_data bf)) bf);;
  forM (Z.to_nat (lh_n l)) 0 (write_head_entry b);;
  bwrite b;;
  brelse b.

Definition recover_from_log : K unit :=
  read_head;;
  install_trans;;
  modlog (log_set_n 0);;
  write_head.

Definition initlog (dev : Z) : K unit :=
  if BSIZE <=? 4 * (1 + LOGSIZE) then panic "initlog: too big logheader" else
  initlock LkLog "log";;
  sb ← readsb dev;
  modlog (log_set_geometry (s32 (sb_logstart sb)) (s32 (sb_nlog sb)) dev);;
  recover_from_log.

(** Called at the start of each FS system call. *)
Definition begin_op_full (l : logrec) : bool :=
  LOGSIZE <? lh_n l + (l_outstanding l + 1) * MAXOPBLOCKS.

Definition begin_op : K unit :=
  acquire LkLog;;
  whileM (λ _ : unit,
    l ← getlog id;
    if negb (l_committing l =? 0) then sleep ChLog (Some LkLog);; mret (inl tt) else
    if begin_op_full l then sleep ChLog (Some LkLog);; mret (inl tt) else
    modlog (log_set_outstanding (l_outstanding l + 1));;
    release LkLog;;
    mret (inr tt)) tt.

(** Copy modified blocks from cache to log. *)
Definition write_log_block (tail : Z) : K (option unit) :=
  l ← getlog id;
  to ← bread (l_dev l) (u32 (l_start l + tail + 1));
  from ← bread (l_dev l) (u32 (lh_at tail l));
  bf ← get_buf from;
  upd_buf to (buf_set_data (b_data bf));;
  bwrite to;;
  brelse from;;
  brelse to;;
  mret None.

Definition write_log : K unit :=
  n ← getlog lh_n;
  forM (Z.to_nat n) 0 write_log_block;;
  mret tt.

Definition commit : K unit :=
  n ← getlog lh_n;
  whenM (0 <? n)
    (write_log;;
     write_head;;
     install_trans;;
     modlog (log_set_n 0);;
     write_head).

(** Called at the end of each FS system call. *)
Definition end_op : K unit :=
  acquire LkLog;;
  l ← getlog id;
  modlog (log_set_outstanding (l_outstanding l - 1));;
  if negb (l_committing l =? 0) then panic "log.committing" else
  do_commit ← (if l_outstanding l - 1 =? 0 then modlog (log_set_committing 1);; mret true
               else wakeup ChLog;; mret false);
  release LkLog;;
  whenM do_commit
    (commit;;
     acquire LkLog;;
     modlog (log_set_committing 0);;
     wakeup ChLog;;
     release LkLog).

(** Caller has modified b->data and is done with the buffer. *)
Definition log_write (b : nat) : K unit :=
  l ← getlog id;
  if ((LOGSIZE <=? lh_n l) || (l_size l - 1 <=? lh_n l))%bool then panic "too big a transaction" else
  if l_outstanding l <? 1 then panic "log_write outside of trans" else
  acquire LkLog;;
  bf ← get_buf b;
  l ← getlog id;
  r ← forM (Z.to_nat (lh_n l)) 0 (λ i,
        mret (if u32 (lh_at i l) =? b_blockno bf then Some i else None));
  let i := default (lh_n l) r in
  modlog (log_set_block i (s32 (b_blockno bf)));;
  whenM (i =? lh_n l) (modlog (log_set_n (lh_n l + 1)));;
  upd_buf b (λ bf, buf_set_flags (Z.lor (b_flags bf) B_DIRTY) bf);;
  release LkLog.

(** * Sequences of disk writes *)

Definition disk_writes (τ : list (Z * list Z)) (d : diskrec) : diskrec :=
  foldl (λ d w, disk_write w.1 w.2 d) d τ.
Definition upd_writes (τ : list (Z * list Z)) (v : Z → list Z) : Z → list Z :=
  foldl (λ v w, <[w.1 := w.2]> v) v τ.

(** [n] writes, the [t]-th of [g t] to block [f t]. *)
Definition seg (f : nat → Z) (g : nat → list Z) (n : nat) : list (Z * list Z) :=
  (λ t, (f t, g t)) <$> seq 0 n.

Section writes.
Implicit Types (τ : list (Z * list Z)) (d : diskrec) (v : Z → list Z) (x : Z).

Definition blk d x : list Z := d_blocks d !!! Z.to_nat x.

Lemma seg_S f g n : seg f g (S n) = seg f g n ++ [(f n, g n)].
Proof. unfold seg. by rewrite seq_S, fmap_app. Qed.

Lemma length_seg f g n : length (seg f g n) = n.
Proof. unfold seg. by rewrite length_fmap, length_seq. Qed.

Lemma take_seg f g n k : take k (seg f g n) = seg f g (k `min` n).
Proof. unfold seg. by rewrite <- fmap_take, take_seq. Qed.

Lemma seg_ext f g g' n : (∀ t, (t < n)%nat → g t = g' t) → seg f g n = seg f g' n.
Proof.
  intros H. unfold seg. apply list_fmap_ext. intros ? t Ht%list_elem_of_lookup_2%elem_of_seq.
  by rewrite H by lia.
Qed.

Lemma disk_writes_app τ τ' d : disk_writes (τ ++ τ') d = disk_writes τ' (disk_writes τ d).
Proof. apply foldl_app. Qed.
Lemma upd_writes_app τ τ' v : upd_writes (τ ++ τ') v = upd_writes τ' (upd_writes τ v).
Proof. apply foldl_app. Qed.

Lemma d_trace_writes τ d : d_trace (disk_writes τ d) = d_trace d ++ τ.
Proof.
  revert d. induction τ as [|[b w] τ IH]; intros d; simpl; [by rewrite app_nil_r|].
  rewrite IH. simpl. by rewrite <- app_assoc.
Qed.

Lemma length_disk_writes τ d : length (d_blocks (disk_writes τ d)) = length (d_blocks d).
Proof. revert d. induction τ as [|[b w] τ IH]; intros d; simpl; [done|]. rewrite IH. apply length_insert. Qed.

Definition wrote x τ : Prop := x ∈ τ.*1.

Lemma upd_writes_miss τ v x : ¬ wrote x τ → upd_writes τ v x = v x.
Proof.
  revert v. induction τ as [|[b w] τ IH]; intros v Hx; simpl; [done|]. unfold wrote in Hx. simpl in Hx.
  rewrite IH by (unfold wrote; set_solver). apply fn_lookup_insert_ne. set_solver.
Qed.

Lemma wrote_seg x f g n : wrote x (seg f g n) ↔ ∃ t, (t < n)%nat ∧ x = f t.
Proof.
  unfold wrote, seg. rewrite <- list_fmap_compose, list_elem_of_fmap. simpl.
  setoid_rewrite elem_of_seq. split; intros (t&?&?); exists t; split; auto; lia.
Qed.

Lemma upd_writes_seg f g n t v :
  (∀ t1 t2, (t1 < n)%nat → (t2 < n)%nat → f t1 = f t2 → t1 = t2) → (t < n)%nat →
  upd_writes (seg f g n) v (f t) = g t.
Proof.
  induction n as [|n IH]; intros Hinj Ht; [lia|]. rewrite seg_S, upd_writes_app. simpl.
  destruct (decide (t = n)) as [->|]; [by rewrite fn_lookup_insert|].
  rewrite fn_lookup_insert_ne by (intros E; apply Hinj in E; lia).
  apply IH; [|lia]. intros. apply Hinj; lia.
Qed.

(** The disk after a sequence of writes, block by block. *)
Lemma blk_writes τ d x :
  0 ≤ x < Z.of_nat (length (d_blocks d)) → Forall (λ w, 0 ≤ w.1) τ →
  blk (disk_writes τ d) x = upd_writes τ (blk d) x.
Proof.
  intros Hx. induction τ as [|[b w] τ IH] using rev_ind; intros Hpos; [done|].
  apply Forall_app in Hpos as [Hpos [Hb _]%Forall_cons]. simpl in Hb.
  rewrite disk_writes_app, upd_writes_app. simpl. unfold blk at 1. simpl.
  destruct (decide (x = b)) as [->|].
  - rewrite fn_lookup_insert, list_lookup_total_insert_eq; [done|]. rewrite length_disk_writes. lia.
  - rewrite fn_lookup_insert_ne, list_lookup_total_insert_ne by (done || lia). by apply IH.
Qed.
End writes.

(** * The shape of the log *)

(** A block outside the log's region of the disk. *)
Definition home (l : logrec) (nd x : Z) : Prop :=
  0 ≤ x < nd ∧ ¬ (l_start l ≤ x < l_start l + l_size l).

(** The [t]-th block of the log, and the block it is a copy of. *)
Definition lbno (l : logrec) (t : nat) : Z := l_start l + Z.of_nat t + 1.
Definition hbno (l : logrec) (t : nat) : Z := lh_block l !!! t.

Record log_ok (l : logrec) (nd : Z) : Prop := mkLogOk {
  lo_dev : l_dev l = 1;
  lo_range : 0 ≤ l_start l ∧ l_start l + l_size l ≤ nd ∧ nd ≤ 2 ^ 31;
  lo_size : l_size l ≤ LOGSIZE;
  lo_n : 0 ≤ lh_n l < l_size l;
  lo_len : length (lh_block l) = Z.to_nat LOGSIZE;
  lo_home : ∀ t, (t < Z.to_nat (lh_n l))%nat → home l nd (hbno l t);
  lo_inj : ∀ t1 t2, (t1 < Z.to_nat (lh_n l))%nat → (t2 < Z.to_nat (lh_n l))%nat →
    hbno l t1 = hbno l t2 → t1 = t2
}.

(** The header block with the first [t] entries of [bl] stored. *)
Definition hdr_upto (n : Z) (bl data : list Z) (t : nat) : list Z :=
  foldl (λ d t, put32 (4 * (Z.of_nat t + 1)) (bl !!! t) d) (put32 0 n data) (seq 0 t).
Definition enc_head (l : logrec) (data : list Z) : list Z :=
  hdr_upto (lh_n l) (lh_block l) data (Z.to_nat (lh_n l)).

Definition dec_n (data : list Z) : Z := s32 (get32 data 0).
Definition dec_block (data : list Z) (t : nat) : Z := s32 (get32 data (4 * (Z.of_nat t + 1))).

Lemma hdr_upto_S n bl data t :
  hdr_upto n bl data (S t) = put32 (4 * (Z.of_nat t + 1)) (bl !!! t) (hdr_upto n bl data t).
Proof. unfold hdr_upto. by rewrite seq_S, foldl_app. Qed.

Lemma length_hdr_upto n bl data t : length (hdr_upto n bl data t) = length data.
Proof.
  induction t as [|t IH]; [apply length_put32|]. by rewrite hdr_upto_S, length_put32.
Qed.

Lemma get_hdr_upto n bl data t :
  4 * (Z.of_nat t + 1) ≤ Z.of_nat (length data) →
  get32 (hdr_upto n bl data t) 0 = u32 n ∧
  ∀ j, (j < t)%nat → get32 (hdr_upto n bl data t) (4 * (Z.of_nat j + 1)) = u32 (bl !!! j).
Proof.
  induction t as [|t IH]; intros Ht.
  - split; [|lia]. unfold hdr_upto. simpl. rewrite get32_put32; [done|lia|lia].
  - destruct IH as [IH0 IH]; [lia|]. rewrite hdr_upto_S. split.
    + rewrite get32_put32_ne by lia. done.
    + intros j Hj. destruct (decide (j = t)) as [->|].
      * rewrite get32_put32; [done|lia|]. rewrite length_hdr_upto. lia.
      * rewrite get32_put32_ne by lia. apply IH. lia.
Qed.

(** The in-memory header after the first [t] entries of the block are read. *)
Definition blocks_upto (bl data : list Z) (t : nat) : list Z :=
  foldl (λ bl t, <[t := dec_block data t]> bl) bl (seq 0 t).
Definition dec_head (data : list Z) (l : logrec) : logrec :=
  mkLog (l_start l) (l_size l) (l_outstanding l) (l_committing l) (l_dev l) (dec_n data)
    (blocks_upto (lh_block l) data (Z.to_nat (dec_n data))).

Lemma blocks_upto_S bl data t :
  blocks_upto bl data (S t) = <[t := dec_block data t]> (blocks_upto bl data t).
Proof. unfold blocks_upto. by rewrite seq_S, foldl_app. Qed.

Lemma length_blocks_upto bl data t : length (blocks_upto bl data t) = length bl.
Proof. induction t as [|t IH]; [done|]. by rewrite blocks_upto_S, length_insert. Qed.

Lemma lookup_blocks_upto bl data t j :
  (t ≤ length bl)%nat → (j < t)%nat → blocks_upto bl data t !!! j = dec_block data j.
Proof.
  induction t as [|t IH]; intros Ht Hj; [lia|]. rewrite blocks_upto_S.
  destruct (decide (j = t)) as [->|].
  - rewrite list_lookup_total_insert_eq; [done|]. rewrite length_blocks_upto. lia.
  - rewrite list_lookup_total_insert_ne by done. apply IH; lia.
Qed.

(** What recovery reads of a header is what was written. *)
Lemma dec_enc_head l nd data :
  log_ok l nd → length data = Z.to_nat BSIZE →
  dec_n (enc_head l data) = lh_n l ∧
  ∀ t, (t < Z.to_nat (lh_n l))%nat → dec_block (enc_head l data) t = hbno l t.
Proof.
  intros Hl Hlen. pose proof (lo_n _ _ Hl). pose proof (lo_size _ _ Hl). unfold LOGSIZE, MAXOPBLOCKS in *.
  destruct (get_hdr_upto (lh_n l) (lh_block l) data (Z.to_nat (lh_n l))) as [E0 E].
  { rewrite Hlen. unfold BSIZE. lia. }
  unfold dec_n, dec_block, enc_head. rewrite E0. split; [apply s32_u32_small; lia|].
  intros t Ht. rewrite E by done. destruct (lo_home _ _ Hl t Ht) as [? _].
  pose proof (lo_range _ _ Hl). apply s32_u32_small. unfold hbno in *. lia.
Qed.

Section shape.
Implicit Types (s : kstate) (v : Z → list Z) (D : gset Z) (l : logrec).

Lemma lbno_in l nd t :
  log_ok l nd → (t < Z.to_nat (lh_n l))%nat → l_start l < lbno l t < l_start l + l_size l ∧ 0 ≤ lbno l t < nd.
Proof. intros [] Ht. unfold lbno. lia. Qed.

Lemma lbno_ne l nd x t :
  log_ok l nd → (t < Z.to_nat (lh_n l))%nat → home l nd x → lbno l t ≠ x.
Proof. intros H Ht [_ Hx] E. pose proof (lbno_in _ _ _ H Ht). lia. Qed.

Lemma u32_lbno l nd t :
  log_ok l nd → (t < Z.to_nat (lh_n l))%nat → u32 (l_start l + Z.of_nat t + 1) = lbno l t.
Proof. intros H Ht. pose proof (lbno_in _ _ _ H Ht) as [_ ?]. destruct H. apply Z.mod_small. unfold lbno in *. lia. Qed.

Lemma u32_hbno l nd t :
  log_ok l nd → (t < Z.to_nat (lh_n l))%nat → u32 (lh_at (Z.of_nat t) l) = hbno l t.
Proof.
  intros H Ht. destruct (lo_home _ _ H t Ht) as [? _]. destruct H. unfold lh_at. rewrite Nat2Z.id.
  apply Z.mod_small. unfold hbno in *. lia.
Qed.

Lemma u32_start l nd : log_ok l nd → u32 (l_start l) = l_start l.
Proof. intros []. apply u32_small. lia. Qed.

Lemma start_in l nd : log_ok l nd → 0 ≤ l_start l < nd.
Proof. intros []. lia. Qed.

Lemma start_not_home l nd : log_ok l nd → ¬ home l nd (l_start l).
Proof. intros [] [_ H]. lia. Qed.

Lemma delete2 (A B : Z) (a b : nat) :
  delete A (delete B (<[B := b]> (<[A := a]> ∅))) = (∅ : gmap Z nat) ∧
  delete B (delete A (<[B := b]> (<[A := a]> ∅))) = (∅ : gmap Z nat).
Proof.
  split; apply map_eq; intros x; rewrite !lookup_delete, !lookup_insert, lookup_empty;
    by repeat case_decide.
Qed.

Lemma disksize_writes s s' τ : k_disk s' = disk_writes τ (k_disk s) → disksize s' = disksize s.
Proof. intros E. unfold disksize. by rewrite E, length_disk_writes. Qed.

Lemma bframe_log_ok s s' :
  bframe s s' → disksize s' = disksize s → log_ok (k_log s) (disksize s) → log_ok (k_log s') (disksize s').
Proof. intros F Hd. by rewrite (bf_log _ _ F), Hd. Qed.

Lemma size_empty_lt : (size (∅ : gset Z) < NBUF)%nat.
Proof. rewrite size_empty. vm_compute. lia. Qed.

Lemma log_ok_n0 l nd : log_ok l nd → log_ok (log_set_n 0 l) nd.
Proof. intros []. split; simpl; try done; try lia. Qed.

Lemma home_n l m nd x : home (log_set_n m l) nd x ↔ home l nd x.
Proof. done. Qed.

(** The blocks pinned by a transaction. *)
Definition pinned l : gset Z := list_to_set (hbno l <$> seq 0 (Z.to_nat (lh_n l))).

Lemma elem_of_pinned l x : x ∈ pinned l ↔ ∃ t, (t < Z.to_nat (lh_n l))%nat ∧ x = hbno l t.
Proof.
  unfold pinned. rewrite elem_of_list_to_set, list_elem_of_fmap. setoid_rewrite elem_of_seq.
  split; intros (t&?&?); exists t; split; auto; lia.
Qed.

Lemma size_pinned l nd : log_ok l nd → (size (pinned l) < NBUF)%nat.
Proof.
  intros []. unfold pinned.
  eapply Nat.le_lt_trans with (length (hbno l <$> seq 0 (Z.to_nat (lh_n l)))).
  - generalize (hbno l <$> seq 0 (Z.to_nat (lh_n l))). intros xs. induction xs as [|x xs IH]; simpl; [done|].
    pose proof (size_union_alt {[x]} (list_to_set xs : gset Z)). rewrite size_singleton in *.
    pose proof (subseteq_size (list_to_set xs ∖ {[x]} : gset Z) (list_to_set xs) ltac:(set_solver)). lia.
  - rewrite length_fmap, length_seq. unfold NBUF, LOGSIZE, MAXOPBLOCKS in *. lia.
Qed.

Lemma pinned_home l nd x : log_ok l nd → x ∈ pinned l → home l nd x.
Proof. intros Hl (t&Ht&->)%elem_of_pinned. by apply lo_home. Qed.

Lemma start_not_pinned l nd : log_ok l nd → l_start l ∉ pinned l.
Proof. intros Hl Hin. eapply start_not_home; [done|]. by eapply pinned_home. Qed.

Lemma set_log_set_log l l' s : set_log l (set_log l' s) = set_log l s.
Proof. done. Qed.

(** The home blocks still dirty after [t] rounds. *)
Definition uninstalled l D (t : nat) : gset Z := D ∖ list_to_set (hbno l <$> seq 0 t).

(** The writes of installing the log [l] and clearing its header. *)
Definition install_writes l v : list (Z * list Z) :=
  seg (hbno l) (λ t, v (lbno l t)) (Z.to_nat (lh_n l)) ++ [(l_start l, put32 0 0 (v (l_start l)))].

(** The writes of [commit] up to the header, which is the commit point. *)
Definition logging_writes l v : list (Z * list Z) :=
  seg (lbno l) (λ t, v (hbno l t)) (Z.to_nat (lh_n l)) ++ [(l_start l, enc_head l (v (l_start l)))].

Definition commit_writes l v : list (Z * list Z) :=
  logging_writes l v ++ install_writes l (upd_writes (logging_writes l v) v).
End shape.

(** * Running the log's operations *)

Section run.
Context (i p fuel : nat) (Hfuel : (NBUF < fuel)%nat).
Implicit Types (s : kstate) (v : Z → list Z) (D : gset Z) (l : logrec).

Lemma bread2 s v D A B :
  ready s i p → bio_rep s p v D ∅ → 0 ≤ A < disksize s → 0 ≤ B < disksize s → A ≠ B →
  (size D < NBUF)%nat → B ∈ D ∨ D = ∅ →
  ∃ a b s1 s2, bread 1 A fuel s = Ret a s1 ∧ bread 1 B fuel s1 = Ret b s2 ∧
    bframe s s1 ∧ bframe s s2 ∧ k_disk s2 = k_disk s ∧ bio_rep s2 p v D (<[B := b]> (<[A := a]> ∅)).
Proof.
  intros Hr Hrep HA HB Hne Hsz Hroom.
  destruct (bread_rep s i p v D ∅ A fuel) as (a&s1&E1&F1&K1&R1); try done.
  { right. by rewrite dom_empty_L, union_empty_r_L. }
  destruct (bread_rep s1 i p v D (<[A := a]> ∅) B fuel) as (b&s2&E2&F2&K2&R2); try done.
  - by eapply bframe_ready.
  - unfold disksize. by rewrite K1.
  - by rewrite lookup_insert_ne.
  - destruct Hroom as [|HD]; [by left|right]. rewrite HD, dom_insert_L, dom_empty_L, !union_empty_l_L,
      union_empty_r_L, size_singleton. unfold NBUF. vm_compute. lia.
  - exists a, b, s1, s2. split_and!; try done; [by eapply bframe_trans|congruence].
Qed.

(** The second half of [install_block] and [write_log_block]. *)
Lemma copy_tail s v D h src dst bs bd :
  ready s i p → bio_rep s p v D h → h !! src = Some bs → h !! dst = Some bd → src ≠ dst →
  src ∈ D ∨ v src = disk_blk s src →
  ∃ s', (bf ← get_buf bs;
         upd_buf bd (buf_set_data (b_data bf));;
         bwrite bd;; brelse bs;; brelse bd;; mret (None (A := unit))) fuel s = Ret None s' ∧
    bframe s s' ∧ k_disk s' = disk_write dst (v src) (k_disk s) ∧
    bio_rep s' p (<[dst := v src]> v) (D ∖ {[dst]}) (delete dst (delete src h)).
Proof.
  intros Hr Hrep Hs Hd Hne Hc.
  destruct (rep_held _ _ _ _ _ _ _ Hrep Hs) as (_&_&_&Hrs&Hda&_).
  destruct (rep_held _ _ _ _ _ _ _ Hrep Hd) as (_&_&_&Hrd&_). bred. rewrite Hda.
  pose proof (set_data_rep s p v D h dst bd (v src) Hrep Hd (br_size _ _ _ _ _ Hrep _ Hrs)) as R1.
  set (s1 := set_bc _ s) in *. assert (F1 : bframe s s1) by apply bframe_bc.
  destruct (bwrite_rep s1 i p (<[dst:=v src]> v) D h dst bd fuel) as (s2&E2&F2&K2&R2); [by eapply bframe_ready|done..|].
  rewrite E2. bred. rewrite fn_lookup_insert in K2.
  destruct (brelse_rep s2 i p (<[dst:=v src]> v) (D ∖ {[dst]}) h src bs fuel) as (s3&E3&F3&K3&R3); [|done..| |].
  { eapply bframe_ready, bframe_ready, Hr; eassumption. }
  { rewrite fn_lookup_insert_ne by done. destruct Hc as [|Hc]; [left; set_solver|right].
    rewrite Hc. unfold disk_blk. rewrite K2. simpl. by rewrite list_lookup_total_insert_ne by lia. }
  rewrite E3. bred.
  destruct (brelse_rep s3 i p (<[dst:=v src]> v) (D ∖ {[dst]}) (delete src h) dst bd fuel)
    as (s4&E4&F4&K4&R4); [|done|by rewrite lookup_delete_ne| |].
  { eapply bframe_ready, bframe_ready, bframe_ready, Hr; eassumption. }
  { right. rewrite fn_lookup_insert. unfold disk_blk. rewrite K3, K2. simpl.
    rewrite list_lookup_total_insert_eq; [done|]. unfold disksize in Hrd. lia. }
  rewrite E4. bred. exists s4. split_and!; try done; [|by rewrite K4, K3, K2].
  eapply bframe_trans, bframe_trans, bframe_trans; eassumption.
Qed.

Lemma write_log_block_run s v D t :
  ready s i p → log_ok (k_log s) (disksize s) → bio_rep s p v D ∅ → (size D < NBUF)%nat →
  (∀ x, x ∈ D → home (k_log s) (disksize s) x) → (t < Z.to_nat (lh_n (k_log s)))%nat →
  hbno (k_log s) t ∈ D →
  ∃ s', write_log_block (Z.of_nat t) fuel s = Ret None s' ∧ bframe s s' ∧
    k_disk s' = disk_write (lbno (k_log s) t) (v (hbno (k_log s) t)) (k_disk s) ∧
    bio_rep s' p (<[lbno (k_log s) t := v (hbno (k_log s) t)]> v) D ∅.
Proof.
  intros Hr Hl Hrep Hsz HD Ht Hin. unfold write_log_block, getlog. bred. unfold id.
  set (l := k_log s) in *. rewrite (lo_dev _ _ Hl), (u32_lbno _ _ _ Hl Ht), (u32_hbno _ _ _ Hl Ht).
  pose proof (lbno_ne _ _ _ _ Hl Ht (HD _ Hin)) as Hne. pose proof (lbno_in _ _ _ Hl Ht) as [_ Hrl].
  destruct (bread2 s v D (lbno l t) (hbno l t)) as (a&b&s1&s2&E1&E2&F1&F2&K2&R2); auto.
  { apply HD, Hin. }
  rewrite E1. bred. rewrite E2. bred.
  destruct (copy_tail s2 v D (<[hbno l t:=b]> (<[lbno l t:=a]> ∅)) (hbno l t) (lbno l t) b a)
    as (s3&E3&F3&K3&R3); [by eapply bframe_ready|done|by simplify_map_eq..|done|by left|].
  exists s3. split; [exact E3|]. split; [by eapply bframe_trans|]. split; [by rewrite K3, K2|].
  rewrite (proj1 (delete2 _ _ _ _)) in R3.
  rewrite difference_disjoint_L in R3; [done|]. intros x Hx ->%elem_of_singleton.
  by eapply (lbno_ne _ _ _ _ Hl Ht (HD _ Hx)).
Qed.

Lemma install_block_run s v D t :
  ready s i p → log_ok (k_log s) (disksize s) → bio_rep s p v D ∅ → (size D < NBUF)%nat →
  (∀ x, x ∈ D → home (k_log s) (disksize s) x) → (t < Z.to_nat (lh_n (k_log s)))%nat →
  hbno (k_log s) t ∈ D ∨ D = ∅ →
  ∃ s', install_block (Z.of_nat t) fuel s = Ret None s' ∧ bframe s s' ∧
    k_disk s' = disk_write (hbno (k_log s) t) (v (lbno (k_log s) t)) (k_disk s) ∧
    bio_rep s' p (<[hbno (k_log s) t := v (lbno (k_log s) t)]> v) (D ∖ {[hbno (k_log s) t]}) ∅.
Proof.
  intros Hr Hl Hrep Hsz HD Ht Hin. unfold install_block, getlog. bred. unfold id.
  set (l := k_log s) in *. rewrite (lo_dev _ _ Hl), (u32_lbno _ _ _ Hl Ht), (u32_hbno _ _ _ Hl Ht).
  pose proof (lo_home _ _ Hl t Ht) as Hh. pose proof (lbno_ne _ _ _ _ Hl Ht Hh) as Hne.
  pose proof (lbno_in _ _ _ Hl Ht) as [_ Hrl].
  destruct (bread2 s v D (lbno l t) (hbno l t)) as (a&b&s1&s2&E1&E2&F1&F2&K2&R2); auto.
  { apply Hh. }
  rewrite E1. bred. rewrite E2. bred.
  destruct (copy_tail s2 v D (<[hbno l t:=b]> (<[lbno l t:=a]> ∅)) (lbno l t) (hbno l t) a b)
    as (s3&E3&F3&K3&R3); [by eapply bframe_ready|done|by simplify_map_eq..|done| |].
  { right. unfold disk_blk. rewrite K2. eapply br_home; [done..| |done].
    intros Hx. by eapply (lbno_ne _ _ _ _ Hl Ht (HD _ Hx)). }
  exists s3. split; [exact E3|]. split; [by eapply bframe_trans|]. split; [by rewrite K3, K2|].
  by rewrite (proj2 (delete2 _ _ _ _)) in R3.
Qed.

(** A loop over the log's entries, each round writing one block. *)
Lemma log_loop (body : Z → K (option unit)) s v D (f : nat → Z) (g : nat → list Z) (Dt : nat → gset Z) n :
  bio_rep s p v D ∅ → Dt 0%nat = D →
  (∀ t s', (t < n)%nat → bframe s s' → disksize s' = disksize s →
     bio_rep s' p (upd_writes (seg f g t) v) (Dt t) ∅ →
     ∃ s'', body (Z.of_nat t) fuel s' = Ret None s'' ∧ bframe s' s'' ∧
       k_disk s'' = disk_write (f t) (g t) (k_disk s') ∧
       bio_rep s'' p (<[f t := g t]> (upd_writes (seg f g t) v)) (Dt (S t)) ∅) →
  ∃ s', forM n 0 body fuel s = Ret None s' ∧ bframe s s' ∧
    k_disk s' = disk_writes (seg f g n) (k_disk s) ∧
    bio_rep s' p (upd_writes (seg f g n) v) (Dt n) ∅.
Proof.
  intros Hrep HD Hbody.
  destruct (forM_ok body (λ j s', let t := Z.to_nat j in bframe s s' ∧
      k_disk s' = disk_writes (seg f g t) (k_disk s) ∧
      bio_rep s' p (upd_writes (seg f g t) v) (Dt t) ∅) fuel n 0 s) as (s'&E&F&K&R).
  - split; [apply bframe_refl|]. split; [done|]. subst D. exact Hrep.
  - intros j s' Hj (F&K&R). destruct (Hbody (Z.to_nat j) s') as (s''&E&F'&K'&R');
      [lia|done|by eapply disksize_writes|done|].
    rewrite Z2Nat.id in E by lia. exists s''. split; [exact E|]. cbn zeta.
    replace (Z.to_nat (j + 1)) with (S (Z.to_nat j)) by lia. rewrite seg_S.
    split; [by eapply bframe_trans|]. split; [by rewrite disk_writes_app, <- K|].
    by rewrite upd_writes_app.
  - exists s'. rewrite Z.add_0_l, Nat2Z.id in *. done.
Qed.

Lemma write_log_run s v D :
  ready s i p → log_ok (k_log s) (disksize s) → bio_rep s p v D ∅ → (size D < NBUF)%nat →
  (∀ x, x ∈ D → home (k_log s) (disksize s) x) →
  (∀ t, (t < Z.to_nat (lh_n (k_log s)))%nat → hbno (k_log s) t ∈ D) →
  let τ := seg (lbno (k_log s)) (λ t, v (hbno (k_log s) t)) (Z.to_nat (lh_n (k_log s))) in
  ∃ s', write_log fuel s = Ret tt s' ∧ bframe s s' ∧ k_disk s' = disk_writes τ (k_disk s) ∧
    bio_rep s' p (upd_writes τ v) D ∅.
Proof.
  intros Hr Hl Hrep Hsz HD Hin. cbn zeta.
  destruct (log_loop write_log_block s v D (lbno (k_log s)) (λ t, v (hbno (k_log s) t)) (λ _, D)
    (Z.to_nat (lh_n (k_log s)))) as (s'&E&F&K&R); [done..| |].
  - intros t s' Ht F Hd. set (vt := upd_writes _ v). intros R.
    destruct (write_log_block_run s' vt D t) as (s''&E&F'&K&R');
      rewrite ?(bf_log _ _ F), ?Hd; auto; [by eapply bframe_ready|].
    rewrite (bf_log _ _ F) in K, R'. assert (Hv : vt (hbno (k_log s) t) = v (hbno (k_log s) t)).
    { apply upd_writes_miss. rewrite wrote_seg. intros (t'&?&E').
      by eapply (lbno_ne _ _ (hbno (k_log s) t) t'); eauto with lia. }
    rewrite Hv in K, R'. by exists s''.
  - exists s'. split; [|done]. unfold write_log, getlog. bred. by rewrite E.
Qed.

Lemma install_trans_run s v D :
  ready s i p → log_ok (k_log s) (disksize s) → bio_rep s p v D ∅ → (size D < NBUF)%nat →
  (∀ x, x ∈ D → home (k_log s) (disksize s) x) →
  (∀ t, (t < Z.to_nat (lh_n (k_log s)))%nat → hbno (k_log s) t ∈ D) ∨ D = ∅ →
  let τ := seg (hbno (k_log s)) (λ t, v (lbno (k_log s) t)) (Z.to_nat (lh_n (k_log s))) in
  ∃ s', install_trans fuel s = Ret tt s' ∧ bframe s s' ∧ k_disk s' = disk_writes τ (k_disk s) ∧
    bio_rep s' p (upd_writes τ v) (uninstalled (k_log s) D (Z.to_nat (lh_n (k_log s)))) ∅.
Proof.
  intros Hr Hl Hrep Hsz HD Hin. cbn zeta.
  destruct (log_loop install_block s v D (hbno (k_log s)) (λ t, v (lbno (k_log s) t))
    (uninstalled (k_log s) D) (Z.to_nat (lh_n (k_log s)))) as (s'&E&F&K&R); [done|..].
  - unfold uninstalled. simpl. by rewrite difference_empty_L.
  - intros t s' Ht F Hd. set (vt := upd_writes _ v). intros R. set (Dt := uninstalled (k_log s) D t) in *.
    assert (Dt ⊆ D) by (unfold Dt, uninstalled; set_solver).
    destruct (install_block_run s' vt Dt t) as (s''&E&F'&K&R');
      rewrite ?(bf_log _ _ F), ?Hd; auto; [by eapply bframe_ready|..].
    + eapply Nat.le_lt_trans, Hsz. by apply subseteq_size.
    + destruct Hin as [Hin| ->]; [left|right; unfold Dt, uninstalled; set_solver].
      unfold Dt, uninstalled. rewrite elem_of_difference, elem_of_list_to_set, list_elem_of_fmap.
      split; [auto|]. intros (t'&Et&Ht'%elem_of_seq). apply (lo_inj _ _ Hl) in Et; lia.
    + rewrite (bf_log _ _ F) in K, R'. assert (Hv : vt (lbno (k_log s) t) = v (lbno (k_log s) t)).
      { apply upd_writes_miss. rewrite wrote_seg. intros (t'&?&E').
        by eapply (lbno_ne _ _ (hbno (k_log s) t') t); eauto using lo_home with lia. }
      rewrite Hv in K, R'. exists s''. split_and!; try done. revert R'. unfold Dt, uninstalled.
      rewrite seq_S, fmap_app, list_to_set_app_L. simpl.
      by rewrite union_empty_r_L, difference_difference_l_L.
  - exists s'. split; [|done]. unfold install_trans, getlog. bred. by rewrite E.
Qed.

(** A field of a held buffer's data. *)
Lemma upd_data_rep s v D h bno b f :
  bio_rep s p v D h → h !! bno = Some b → length (f (v bno)) = Z.to_nat BSIZE →
  bio_rep (set_bc (alter (λ bf, buf_set_data (f (b_data bf)) bf) b (k_bc s)) s) p (<[bno := f (v bno)]> v) D h.
Proof.
  intros Hrep Hh Hlen. destruct (rep_held _ _ _ _ _ _ _ Hrep Hh) as (_&_&_&_&Hda&_).
  rewrite (alter_ext_at _ (buf_set_data (f (v bno)))) by (by rewrite Hda). by apply set_data_rep.
Qed.

Lemma rep_ext s v v' D h :
  bio_rep s p v D h → (∀ x, v' x = v x) → bio_rep s p v' D h.
Proof.
  intros [Hri Hu Hbuf Hin Hho Hsz] Hv. split; try done.
  - intros b Hb. destruct (Hbuf b Hb) as [?|?]; [by left|right]. by rewrite Hv.
  - intros. rewrite Hv. auto.
  - intros. rewrite Hv. auto.
Qed.

Lemma write_head_run s v D :
  ready s i p → log_ok (k_log s) (disksize s) → bio_rep s p v D ∅ → (size D < NBUF)%nat →
  l_start (k_log s) ∉ D →
  let hd := enc_head (k_log s) (v (l_start (k_log s))) in
  ∃ s', write_head fuel s = Ret tt s' ∧ bframe s s' ∧
    k_disk s' = disk_write (l_start (k_log s)) hd (k_disk s) ∧
    bio_rep s' p (<[l_start (k_log s) := hd]> v) D ∅.
Proof.
  intros Hr Hl Hrep Hsz HnD. cbn zeta. set (l := k_log s) in *. set (LS := l_start l).
  destruct (bread_rep s i p v D ∅ LS fuel) as (b&s1&E1&F1&K1&R1); try done.
  { by eapply start_in. }
  { right. by rewrite dom_empty_L, union_empty_r_L. }
  assert (Hlen : length (v LS) = Z.to_nat BSIZE) by (by apply (br_size _ _ _ _ _ Hrep), (start_in _ _ Hl)).
  pose proof (upd_data_rep s1 v D _ LS b (put32 0 (lh_n l)) R1 (lookup_insert_eq _ _ _)) as R2.
  rewrite length_put32 in R2. specialize (R2 Hlen). set (s2 := set_bc _ s1) in *.
  destruct (forM_ok (write_head_entry b) (λ j s', bframe s1 s' ∧ k_disk s' = k_disk s1 ∧
      bio_rep s' p (<[LS := hdr_upto (lh_n l) (lh_block l) (v LS) (Z.to_nat j)]> v) D (<[LS := b]> ∅))
      fuel (Z.to_nat (lh_n l)) 0 s2) as (s3&E3&F3&K3&R3).
  - split; [apply bframe_bc|]. split; [done|]. exact R2.
  - intros j s' Hj (F&K&R). unfold write_head_entry, getlog. bred.
    rewrite (bf_log _ _ F), (bf_log _ _ F1). eexists. split; [done|].
    split; [eapply bframe_trans, bframe_bc; done|]. split; [done|].
    eapply rep_ext; [eapply upd_data_rep; [exact R|apply lookup_insert_eq|]|].
    + rewrite fn_lookup_insert, length_put32, length_hdr_upto. done.
    + intros x. replace (Z.to_nat (j + 1)) with (S (Z.to_nat j)) by lia. rewrite hdr_upto_S.
      destruct (decide (x = LS)) as [->|]; [rewrite !fn_lookup_insert|by rewrite !fn_lookup_insert_ne].
      by rewrite Z2Nat.id by lia.
  - rewrite Z.add_0_l, Z2Nat.id in R3 by (destruct (lo_n _ _ Hl); lia).
    destruct (bwrite_rep s3 i p _ D _ LS b fuel ltac:(eapply bframe_ready, bframe_ready, Hr; eassumption)
      R3 (lookup_insert_eq _ _ _)) as (s4&E4&F4&K4&R4). rewrite fn_lookup_insert in K4.
    fold (enc_head l (v LS)) in *.
    destruct (brelse_rep s4 i p _ _ _ LS b fuel
      ltac:(eapply bframe_ready, bframe_ready, bframe_ready, Hr; eassumption) R4
      (lookup_insert_eq _ _ _)) as (s5&E5&F5&K5&R5).
    { right. rewrite fn_lookup_insert. unfold disk_blk. rewrite K4. simpl.
      rewrite list_lookup_total_insert_eq; [done|]. rewrite K3, K1. pose proof (start_in _ _ Hl) as Hin.
      unfold disksize in Hin. fold l LS in Hin. lia. }
    exists s5. unfold write_head, getlog. bred. unfold id. fold l.
    rewrite (lo_dev _ _ Hl), (u32_start _ _ Hl). fold LS. rewrite E1. bred.
    match goal with |- context [set_bc ?bc s1] => change (set_bc bc s1) with s2 end. rewrite E3. bred. rewrite E4. bred.
    split; [done|]. split; [eapply bframe_trans, bframe_trans, bframe_trans; eassumption|].
    split; [by rewrite K5, K4, K3, K1|].
    rewrite delete_insert_id in R5 by done. by rewrite difference_disjoint_L in R5 by set_solver.
Qed.

Lemma rep_set_log s v D h l : bio_rep s p v D h → bio_rep (set_log l s) p v D h.
Proof. intros []. by split. Qed.

Lemma bframe_set_log s s' l : bframe s s' → bframe (set_log l s) (set_log l s').
Proof. intros []. by split. Qed.

Lemma ready_set_log s l : ready s i p → ready (set_log l s) i p.
Proof. done. Qed.

Lemma read_entries_run s b data n :
  b_data (k_bc s !!! b) = data → (Z.of_nat n ≤ LOGSIZE) →
  forM n 0 (read_head_entry b) fuel s =
    Ret None (set_log (mkLog (l_start (k_log s)) (l_size (k_log s)) (l_outstanding (k_log s))
      (l_committing (k_log s)) (l_dev (k_log s)) (lh_n (k_log s))
      (blocks_upto (lh_block (k_log s)) data n)) s).
Proof.
  intros Hda Hn.
  destruct (forM_ok (read_head_entry b) (λ j s', s' = set_log (mkLog (l_start (k_log s)) (l_size (k_log s))
      (l_outstanding (k_log s)) (l_committing (k_log s)) (l_dev (k_log s)) (lh_n (k_log s))
      (blocks_upto (lh_block (k_log s)) data (Z.to_nat j))) s) fuel n 0 s) as (s'&E&E').
  - by destruct s as [? ? ? ? ? ? []].
  - intros j s' Hj ->. unfold read_head_entry. rewrite (proj2 (Z.leb_gt _ _)) by lia.
    unfold modlog. bred. eexists. split; [done|]. cbn [k_bc set_log]. rewrite Hda.
    unfold log_set_block. simpl. rewrite set_log_set_log. do 2 f_equal.
    replace (Z.to_nat (j + 1)) with (S (Z.to_nat j)) by lia. rewrite blocks_upto_S.
    unfold dec_block. by rewrite Z2Nat.id by lia.
  - by rewrite E, E', Z.add_0_l, Nat2Z.id.
Qed.

Lemma read_head_run s v D :
  ready s i p → log_ok (k_log s) (disksize s) → bio_rep s p v D ∅ → (size D < NBUF)%nat →
  l_start (k_log s) ∉ D → dec_n (v (l_start (k_log s))) ≤ LOGSIZE →
  ∃ s', read_head fuel s = Ret tt s' ∧
    bframe (set_log (dec_head (v (l_start (k_log s))) (k_log s)) s) s' ∧ k_disk s' = k_disk s ∧
    bio_rep s' p v D ∅.
Proof.
  intros Hr Hl Hrep Hsz HnD Hn. set (l := k_log s) in *. set (LS := l_start l) in *.
  destruct (bread_rep s i p v D ∅ LS fuel) as (b&s1&E1&F1&K1&R1); try done.
  { by eapply start_in. }
  { right. by rewrite dom_empty_L, union_empty_r_L. }
  destruct (rep_held _ _ _ _ _ LS b R1 (lookup_insert_eq _ _ _)) as (_&_&_&_&Hda&_).
  destruct (brelse_rep (set_log (dec_head (v LS) l) s1) i p v D (<[LS := b]> ∅) LS b fuel)
    as (s2&E2&F2&K2&R2).
  { eapply ready_set_log, bframe_ready, Hr; done. }
  { by apply rep_set_log. }
  { apply lookup_insert_eq. }
  { right. unfold disk_blk. simpl. rewrite K1. eapply br_home; [exact Hrep|by eapply start_in|done|done]. }
  exists s2. split; [|split; [eapply bframe_trans, F2; by apply bframe_set_log|]].
  2:{ split; [by rewrite K2|]. by rewrite delete_insert_id in R2 by done. }
  unfold read_head, getlog, modlog. bred. unfold id. fold l.
  rewrite (lo_dev _ _ Hl), (u32_start _ _ Hl). fold LS. rewrite E1. bred.
  rewrite (bf_log _ _ F1). fold l. rewrite Hda. fold (dec_n (v LS)). simpl lh_n.
  rewrite (read_entries_run _ _ (v LS)); [|done|].
  2:{ destruct (decide (0 ≤ dec_n (v LS))); [|unfold LOGSIZE, MAXOPBLOCKS]; lia. }
  bred. rewrite set_log_set_log. simpl. unfold dec_head in E2. exact E2.
Qed.

(** The second half of [commit] and of [recover_from_log]. *)
Lemma install_clear_run s v D :
  ready s i p → log_ok (k_log s) (disksize s) → bio_rep s p v D ∅ → D = pinned (k_log s) ∨ D = ∅ →
  ∃ s', (install_trans;; modlog (log_set_n 0);; write_head) fuel s = Ret tt s' ∧
    bframe (set_log (log_set_n 0 (k_log s)) s) s' ∧
    k_disk s' = disk_writes (install_writes (k_log s) v) (k_disk s) ∧
    bio_rep s' p (upd_writes (install_writes (k_log s) v) v) ∅ ∅.
Proof.
  intros Hr Hl Hrep HD. set (l := k_log s) in *. set (LS := l_start l).
  destruct (install_trans_run s v D) as (s3&E3&F3&K3&R3); try done.
  { destruct HD as [->| ->]; [by eapply size_pinned|apply size_empty_lt]. }
  { intros x Hx. destruct HD as [->| ->]; [by apply pinned_home|done]. }
  { destruct HD as [->| ->]; [left|by right]. intros t Ht. apply elem_of_pinned. eauto. }
  fold l in K3, R3. set (τ3 := seg (hbno l) _ _) in K3, R3.
  replace (uninstalled l D (Z.to_nat (lh_n l))) with (∅ : gset Z) in R3.
  2:{ unfold uninstalled, pinned in *. destruct HD as [->| ->]; set_solver. }
  assert (v3LS : upd_writes τ3 v LS = v LS).
  { apply upd_writes_miss. unfold τ3. rewrite wrote_seg.
    intros (t&Ht&E). eapply (start_not_home _ _ Hl). fold LS. rewrite E. by apply lo_home. }
  pose proof (rep_set_log _ _ _ _ (log_set_n 0 l) R3) as R3'.
  assert (L3 : k_log s3 = l) by (by rewrite (bf_log _ _ F3)).
  destruct (write_head_run (set_log (log_set_n 0 l) s3) (upd_writes τ3 v) ∅) as (s4&E4&F4&K4&R4); try done.
  { eapply ready_set_log, bframe_ready, Hr; eassumption. }
  { simpl. change (disksize (set_log _ s3)) with (disksize s3).
    rewrite (disksize_writes _ _ _ K3). by apply log_ok_n0. }
  { apply size_empty_lt. }
  simpl in K4, R4. fold LS in K4, R4. rewrite v3LS in K4, R4.
  change (enc_head (log_set_n 0 l) (v LS)) with (put32 0 0 (v LS)) in K4, R4.
  exists s4. unfold install_writes. fold l LS. split; [|split; [|split]].
  - unfold modlog. bred. rewrite E3. bred. rewrite L3. exact E4.
  - eapply bframe_trans, F4. by apply bframe_set_log.
  - rewrite K4, K3. by rewrite !disk_writes_app.
  - rewrite !upd_writes_app. exact R4.
Qed.

Lemma commit_run s v :
  ready s i p → log_ok (k_log s) (disksize s) → bio_rep s p v (pinned (k_log s)) ∅ → 0 < lh_n (k_log s) →
  ∃ s', commit fuel s = Ret tt s' ∧ bframe (set_log (log_set_n 0 (k_log s)) s) s' ∧
    k_disk s' = disk_writes (commit_writes (k_log s) v) (k_disk s) ∧
    bio_rep s' p (upd_writes (commit_writes (k_log s) v) v) ∅ ∅.
Proof.
  intros Hr Hl Hrep Hn. set (l := k_log s) in *. set (LS := l_start l).
  pose proof (size_pinned _ _ Hl) as Hsz. pose proof (start_not_pinned _ _ Hl) as Hst.
  destruct (write_log_run s v (pinned l)) as (s1&E1&F1&K1&R1); try done.
  { intros x. by apply pinned_home. }
  { intros t Ht. apply elem_of_pinned. eauto. }
  fold l in E1, F1, K1, R1. set (τ1 := seg _ _ _) in K1, R1. pose proof (disksize_writes _ _ _ K1) as D1.
  assert (v1LS : upd_writes τ1 v LS = v LS).
  { apply upd_writes_miss. unfold τ1. rewrite wrote_seg. intros (t&Ht&E). unfold lbno, LS in E. lia. }
  destruct (write_head_run s1 (upd_writes τ1 v) (pinned l)) as (s2&E2&F2&K2&R2);
    rewrite ?(bf_log _ _ F1), ?D1; try done; [by eapply bframe_ready|].
  rewrite (bf_log _ _ F1) in K2, R2. fold l LS in K2, R2. rewrite v1LS in K2, R2.
  assert (L2 : k_log s2 = l) by (by rewrite (bf_log _ _ F2), (bf_log _ _ F1)).
  assert (Hτ : k_disk s2 = disk_writes (logging_writes l v) (k_disk s)).
  { unfold logging_writes. by rewrite disk_writes_app, K2, K1. }
  change (<[LS:=enc_head l (v LS)]> (upd_writes τ1 v)) with
    (upd_writes [(LS, enc_head l (v LS))] (upd_writes τ1 v)) in R2.
  rewrite <- upd_writes_app in R2. fold (logging_writes l v) in R2.
  destruct (install_clear_run s2 (upd_writes (logging_writes l v) v) (pinned l)) as (s3&E3&F3&K3&R3);
    rewrite ?L2, ?(disksize_writes _ _ _ Hτ); auto.
  { eapply bframe_ready, bframe_ready, Hr; eassumption. }
  rewrite L2 in K3, R3, F3. exists s3. unfold commit_writes. split; [|split; [|split]].
  - unfold commit, getlog. bred. fold l. rewrite (proj2 (Z.ltb_lt _ _)) by done. bred.
    rewrite E1. bred. rewrite E2. bred. exact E3.
  - eapply bframe_trans, F3. apply bframe_set_log. by eapply bframe_trans.
  - by rewrite K3, Hτ, disk_writes_app.
  - by rewrite upd_writes_app.
Qed.

Lemma recover_run s v :
  ready s i p → log_ok (k_log s) (disksize s) → bio_rep s p v ∅ ∅ →
  let l := dec_head (v (l_start (k_log s))) (k_log s) in log_ok l (disksize s) →
  ∃ s', recover_from_log fuel s = Ret tt s' ∧ bframe (set_log (log_set_n 0 l) s) s' ∧
    k_disk s' = disk_writes (install_writes l v) (k_disk s) ∧
    bio_rep s' p (upd_writes (install_writes l v) v) ∅ ∅.
Proof.
  intros Hr Hl0 Hrep l Hl. destruct (read_head_run s v ∅) as (s1&E1&F1&K1&R1); try done.
  { apply size_empty_lt. }
  { pose proof (lo_n _ _ Hl). pose proof (lo_size _ _ Hl). unfold l in *. simpl in *. lia. }
  pose proof (bf_log _ _ F1) as L1. simpl in L1. fold l in L1, F1.
  destruct (install_clear_run s1 v ∅) as (s2&E2&F2&K2&R2); rewrite ?L1; auto.
  { eapply bframe_ready; [done|]. by apply ready_set_log. }
  { unfold disksize. by rewrite K1. }
  rewrite L1 in F2, K2, R2. exists s2. split; [|split; [|split]].
  - unfold recover_from_log. bred. rewrite E1. bred. exact E2.
  - eapply bframe_trans, F2. by apply (bframe_set_log _ _ (log_set_n 0 l)) in F1.
  - by rewrite K2, K1.
  - done.
Qed.
End run.

(** * Crashes

    A crash loses memory and keeps the disk as some prefix of the writes left
    it. The contents of the blocks of such a disk are again a function from
    block numbers, and what recovery makes of it is [recovered]. *)

Section crash.
Implicit Types (v : Z → list Z) (l lb : logrec) (x nd : Z).

Definition recovered lb v : Z → list Z :=
  upd_writes (install_writes (dec_head (v (l_start lb)) lb) v) v.

(** The log's geometry, which [initlog] reads from the superblock. *)
Definition same_geometry l lb : Prop :=
  l_start lb = l_start l ∧ l_size lb = l_size l ∧ l_dev lb = l_dev l ∧
  length (lh_block lb) = Z.to_nat LOGSIZE.

(** The header block of [v] is that of the log [l]. *)
Definition says v l : Prop :=
  dec_n (v (l_start l)) = lh_n l ∧
  ∀ t, (t < Z.to_nat (lh_n l))%nat → dec_block (v (l_start l)) t = hbno l t.

Lemma dec_head_says v l lb nd :
  log_ok l nd → same_geometry l lb → says v l →
  log_ok (dec_head (v (l_start lb)) lb) nd ∧
  install_writes (dec_head (v (l_start lb)) lb) v = install_writes l v.
Proof.
  intros Hl (Es&Ez&Ed&El) [Hn Hb]. rewrite Es. set (l' := dec_head _ lb).
  assert (Eh : ∀ t, (t < Z.to_nat (lh_n l))%nat → hbno l' t = hbno l t).
  { intros t Ht. unfold hbno, l', dec_head. simpl. rewrite Hn. rewrite lookup_blocks_upto; [by apply Hb| |done].
    rewrite El. pose proof (lo_n _ _ Hl). pose proof (lo_size _ _ Hl). lia. }
  assert (Eq : ∀ x, home l' nd x ↔ home l nd x) by (intros x; unfold home; simpl; by rewrite Es, Ez).
  split.
  - destruct Hl. split; simpl; rewrite ?Es, ?Ez, ?Ed; try done.
    + by rewrite Hn.
    + by rewrite length_blocks_upto.
    + rewrite Hn. intros t Ht. rewrite Eq, Eh by done. auto.
    + rewrite Hn. intros t1 t2 H1 H2. rewrite !Eh by done. auto.
  - unfold install_writes. simpl. rewrite Hn, Es. f_equal. unfold seg. apply list_fmap_ext.
    intros ? t Ht%list_elem_of_lookup_2%elem_of_seq. rewrite Eh by lia.
    unfold lbno. simpl. by rewrite Es.
Qed.

(** Recovery from a disk whose header is empty. *)
Lemma recovered_empty v lb nd x :
  log_ok (log_set_n 0 lb) nd → dec_n (v (l_start lb)) = 0 → home lb nd x → recovered lb v x = v x.
Proof.
  intros Hl Hn Hx. unfold recovered, install_writes. simpl. rewrite Hn. simpl.
  apply fn_lookup_insert_ne. intros E. by apply (start_not_home _ _ Hl); simpl; rewrite E.
Qed.

Lemma install_hit l nd v t :
  log_ok l nd → (t < Z.to_nat (lh_n l))%nat →
  upd_writes (install_writes l v) v (hbno l t) = v (lbno l t).
Proof.
  intros Hl Ht. unfold install_writes. rewrite upd_writes_app. simpl.
  rewrite fn_lookup_insert_ne.
  - apply (upd_writes_seg (hbno l) (λ t, v (lbno l t))); [|done]. apply (lo_inj _ _ Hl).
  - intros E. apply (start_not_home _ _ Hl). rewrite E. by apply lo_home.
Qed.

Lemma install_miss l nd v τ x :
  log_ok l nd → home l nd x → x ∉ pinned l → Forall (λ w, w ∈ install_writes l v) τ →
  upd_writes τ v x = v x.
Proof.
  intros Hl Hx Hp Hτ. apply upd_writes_miss. intros ([b w]&->&Hin)%list_elem_of_fmap. simpl in *.
  rewrite Forall_forall in Hτ. apply Hτ in Hin. unfold install_writes in Hin.
  apply elem_of_app in Hin as [Hin|Hin%list_elem_of_singleton].
  - apply Hp, elem_of_pinned. unfold seg in Hin. apply list_elem_of_fmap in Hin as (t&[= -> _]&Ht%elem_of_seq).
    exists t. split; [lia|done].
  - injection Hin as ->. by apply (start_not_home _ _ Hl).
Qed.

Lemma install_log_block l nd v τ t :
  log_ok l nd → (t < Z.to_nat (lh_n l))%nat → Forall (λ w, w ∈ install_writes l v) τ →
  upd_writes τ v (lbno l t) = v (lbno l t).
Proof.
  intros Hl Ht Hτ. apply upd_writes_miss. intros ([b w]&E&Hin)%list_elem_of_fmap. simpl in *.
  rewrite Forall_forall in Hτ. apply Hτ in Hin. unfold install_writes in Hin.
  apply elem_of_app in Hin as [Hin|Hin%list_elem_of_singleton].
  - unfold seg in Hin. apply list_elem_of_fmap in Hin as (t'&[= -> _]&Ht'%elem_of_seq).
    eapply (lbno_ne _ _ _ _ Hl Ht); [|done]. apply (lo_home _ _ Hl). lia.
  - injection Hin as ->. unfold lbno in E. lia.
Qed.

Lemma length_install_writes l v : length (install_writes l v) = S (Z.to_nat (lh_n l)).
Proof. unfold install_writes. rewrite length_app, length_seg. simpl. lia. Qed.

Lemma take_install_start l nd v j :
  log_ok l nd → (j ≤ Z.to_nat (lh_n l))%nat →
  upd_writes (take j (install_writes l v)) v (l_start l) = v (l_start l).
Proof.
  intros Hl Hj. unfold install_writes. rewrite take_app_le by (by rewrite length_seg).
  rewrite take_seg. apply upd_writes_miss. rewrite wrote_seg. intros (t&Ht&E).
  apply (start_not_home _ _ Hl). rewrite E. apply (lo_home _ _ Hl). lia.
Qed.

(** A crash while the log is being installed, then another recovery. *)
Lemma install_prefix l lb nd v j :
  log_ok l nd → same_geometry l lb → says v l → length (v (l_start l)) = Z.to_nat BSIZE →
  let vj := upd_writes (take j (install_writes l v)) v in
  log_ok (dec_head (vj (l_start lb)) lb) nd ∧
  ∀ x, home l nd x → recovered lb vj x = upd_writes (install_writes l v) v x.
Proof.
  intros Hl Hg Hs Hlen vj. pose proof Hg as (Es&Ez&Ed&El).
  assert (Hsub : Forall (λ w, w ∈ install_writes l v) (take j (install_writes l v))).
  { apply Forall_forall. intros w. apply subseteq_take. }
  destruct (decide (j ≤ Z.to_nat (lh_n l))%nat) as [Hj|Hj].
  - assert (vj (l_start l) = v (l_start l)) as Hst by (by eapply take_install_start).
    assert (says vj l) as Hs' by (unfold says; by rewrite Hst).
    destruct (dec_head_says vj l lb nd) as [Hok Ew]; [done..|]. split; [done|].
    intros x Hx. unfold recovered. rewrite Ew.
    destruct (decide (x ∈ pinned l)) as [(t&Ht&->)%elem_of_pinned|Hp].
    + rewrite !(install_hit l nd) by done. by eapply install_log_block.
    + assert (∀ w : Z → list Z, upd_writes (install_writes l w) w x = w x) as Hm.
      { intros w. apply (install_miss l nd w); [done..|]. by apply Forall_forall. }
      rewrite !Hm. by apply (install_miss l nd v).
  - unfold vj. rewrite take_ge by (rewrite length_install_writes; lia).
    set (w := upd_writes (install_writes l v) v).
    assert (Hz : dec_n (w (l_start lb)) = 0).
    { rewrite Es. unfold w, install_writes. rewrite upd_writes_app. simpl.
      rewrite fn_lookup_insert. unfold dec_n. rewrite get32_put32 by (rewrite ?Hlen; unfold BSIZE; lia). done. }
    assert (log_ok (log_set_n 0 lb) nd) as Hl0.
    { destruct Hl. split; simpl; rewrite ?Es, ?Ez, ?Ed; try done; try lia. }
    split.
    + destruct Hl0 as [? ? ? ? ? _ _]. split; simpl; rewrite ?Hz; try done; try lia.
    + intros x Hx. apply (recovered_empty _ _ nd); [done..|]. unfold home in *. by rewrite Es, Ez.
Qed.

(** The blocks of the disk at the commit point. *)
Lemma logging_values l nd v v0 :
  log_ok l nd → length (v (l_start l)) = Z.to_nat BSIZE →
  let w := upd_writes (logging_writes l v) v0 in
  says w l ∧ w (l_start l) = enc_head l (v (l_start l)) ∧
  (∀ t, (t < Z.to_nat (lh_n l))%nat → w (lbno l t) = v (hbno l t)) ∧
  ∀ x, home l nd x → w x = v0 x.
Proof.
  intros Hl Hlen w. assert (Hst : w (l_start l) = enc_head l (v (l_start l))).
  { unfold w, logging_writes. rewrite upd_writes_app. simpl. apply fn_lookup_insert. }
  split_and!.
  - unfold says. rewrite Hst. by eapply dec_enc_head.
  - done.
  - intros t Ht. unfold w, logging_writes. rewrite upd_writes_app. simpl.
    rewrite fn_lookup_insert_ne by (unfold lbno; lia).
    apply (upd_writes_seg (lbno l) (λ t, v (hbno l t))); [|done]. intros ???? E. unfold lbno in E. lia.
  - intros x Hx. apply upd_writes_miss. unfold logging_writes, wrote. rewrite fmap_app, elem_of_app.
    intros [(t&Ht&->)%wrote_seg|E%list_elem_of_singleton].
    + by eapply (lbno_ne _ _ _ _ Hl Ht Hx).
    + subst x. by eapply start_not_home.
Qed.

(** A crash during [commit], on the disk that held [v0]. *)
Lemma commit_prefix l lb nd v v0 k :
  log_ok l nd → same_geometry l lb → dec_n (v0 (l_start l)) = 0 →
  length (v (l_start l)) = Z.to_nat BSIZE → (∀ x, 0 ≤ x < nd → x ∉ pinned l → v x = v0 x) →
  let vk := upd_writes (take k (commit_writes l v)) v0 in
  log_ok (dec_head (vk (l_start lb)) lb) nd ∧
  ∀ x, home l nd x →
    recovered lb vk x = if decide (k ≤ Z.to_nat (lh_n l))%nat then v0 x else v x.
Proof.
  intros Hl Hg H0 Hlen Hv vk. pose proof Hg as (Es&Ez&Ed&El). unfold vk, commit_writes.
  destruct (logging_values l nd v v0) as (Hsays&Hst&Hlog&Hhome); [done..|].
  destruct (logging_values l nd v v) as (_&Hst'&Hlog'&_); [done..|].
  set (w0 := upd_writes (logging_writes l v) v0) in *. set (w := upd_writes _ v) in *.
  assert (Hll : length (logging_writes l v) = S (Z.to_nat (lh_n l))).
  { unfold logging_writes. rewrite length_app, length_seg. simpl. lia. }
  case_decide as Hk.
  - rewrite take_app_le by lia. unfold logging_writes.
    rewrite take_app_le, take_seg by (by rewrite length_seg). set (u := upd_writes _ v0).
    assert (Hu : ∀ x, (∀ t, (t < Z.to_nat (lh_n l))%nat → x ≠ lbno l t) → u x = v0 x).
    { intros x Hx. apply upd_writes_miss. rewrite wrote_seg. intros (t&Ht&E). by apply (Hx t); [lia|]. }
    assert (Hust : dec_n (u (l_start lb)) = 0).
    { rewrite Es, Hu; [done|]. intros t _. unfold lbno. lia. }
    assert (log_ok (log_set_n 0 lb) nd) as Hl0.
    { destruct Hl. split; simpl; rewrite ?Es, ?Ez, ?Ed; try done; try lia. }
    split.
    + destruct Hl0 as [? ? ? ? ? _ _]. split; simpl; rewrite ?Hust; try done; try lia.
    + intros x Hx. rewrite (recovered_empty _ _ nd); [|done..|unfold home in *; by rewrite Es, Ez].
      apply Hu. intros t Ht E. by eapply (lbno_ne _ _ _ _ Hl Ht Hx).
  - rewrite take_app_ge by lia. rewrite upd_writes_app. fold w0.
    replace (install_writes l w) with (install_writes l w0).
    2:{ unfold install_writes. rewrite Hst, Hst'. f_equal. apply seg_ext. intros t Ht. by rewrite Hlog, Hlog'. }
    destruct (install_prefix l lb nd w0 (k - length (logging_writes l v))) as [Hok Hrec]; [done..| |].
    { rewrite Hst. unfold enc_head. by rewrite length_hdr_upto. }
    split; [done|]. intros x Hx. rewrite Hrec by done.
    destruct (decide (x ∈ pinned l)) as [(t&Ht&->)%elem_of_pinned|Hp].
    + rewrite (install_hit l nd) by done. by apply Hlog.
    + rewrite (install_miss l nd w0) by (try done; by apply Forall_forall).
      rewrite Hhome by done. symmetry. apply Hv; [apply Hx|done].
Qed.
End crash.

(** A state after a reboot: the cache is empty, the disk is [d], and the log
    has the geometry of [l] and no transaction. *)
Definition booted (s : kstate) (i p : nat) (d : diskrec) (l : logrec) : Prop :=
  ready s i p ∧ d_blocks (k_disk s) = d_blocks d ∧ bio_rep s p (disk_blk s) ∅ ∅ ∧
  same_geometry l (k_log s) ∧ lh_n (k_log s) = 0.

Section recovery.
Implicit Types (v : Z → list Z) (l lb : logrec) (x nd : Z) (s : kstate).

Lemma upd_writes_at τ v v' x : v x = v' x → upd_writes τ v x = upd_writes τ v' x.
Proof.
  revert v v'. induction τ as [|[b w] τ IH]; intros v v' E; [done|]. simpl. apply IH.
  destruct (decide (x = b)) as [->|]; [by rewrite !fn_lookup_insert|by rewrite !fn_lookup_insert_ne].
Qed.

(** Only the contents of the blocks of the disk matter to recovery. *)
Lemma install_writes_ext l nd v v' :
  log_ok l nd → (∀ x, 0 ≤ x < nd → v x = v' x) → install_writes l v = install_writes l v'.
Proof.
  intros Hl Hv. unfold install_writes. rewrite (Hv (l_start l)) by (by eapply start_in). f_equal.
  apply seg_ext. intros t Ht. apply Hv. by eapply lbno_in.
Qed.

Lemma booted_log_ok l s i p d nd : log_ok l nd → booted s i p d l → log_ok (k_log s) nd.
Proof.
  intros [] (_&_&_&(Es&Ez&Ed&El)&En). split; rewrite ?Es, ?Ez, ?Ed, ?En; try done; try lia.
Qed.

(** Recovery of a booted state whose disk has the contents [v]. *)
Lemma booted_recover s i p d l v fuel :
  (NBUF < fuel)%nat → log_ok l (disksize s) → booted s i p d l →
  (∀ x, 0 ≤ x < disksize s → disk_blk s x = v x) →
  log_ok (dec_head (v (l_start (k_log s))) (k_log s)) (disksize s) →
  ∃ s', recover_from_log fuel s = Ret tt s' ∧
    k_disk s' = disk_writes (install_writes (dec_head (v (l_start (k_log s))) (k_log s)) v) (k_disk s) ∧
    ∀ x, 0 ≤ x < disksize s → disk_blk s' x = recovered (k_log s) v x.
Proof.
  intros Hf Hl Hb Hv Hok. pose proof Hb as (Hr&_&Hrep&_). pose proof (booted_log_ok _ _ _ _ _ _ Hl Hb) as Hlb.
  pose proof (start_in _ _ Hlb) as Hst. rewrite <- (Hv _ Hst) in Hok |- *.
  destruct (recover_run i p fuel Hf s (disk_blk s)) as (s'&E&_&K&R); [done..|].
  rewrite (install_writes_ext _ _ _ v Hok Hv) in K, R. exists s'. split; [done|]. split; [done|].
  intros x Hx. unfold recovered. rewrite <- (Hv _ Hst).
  erewrite <- br_home; [|exact R|by erewrite disksize_writes|done|done]. by apply upd_writes_at, Hv.
Qed.

Lemma recovered_start lb v nd :
  log_ok (dec_head (v (l_start lb)) lb) nd → length (v (l_start lb)) = Z.to_nat BSIZE →
  dec_n (recovered lb v (l_start lb)) = 0.
Proof.
  intros Hl Hlen. unfold recovered, install_writes. rewrite upd_writes_app. simpl.
  rewrite fn_lookup_insert. unfold dec_n. by rewrite get32_put32 by (rewrite ?Hlen; unfold BSIZE; lia).
Qed.

Lemma commit_writes_pos l nd v : log_ok l nd → Forall (λ w, 0 ≤ w.1) (commit_writes l v).
Proof.
  intros Hl. pose proof (start_in _ _ Hl) as [? _]. unfold commit_writes, logging_writes, install_writes.
  assert (∀ f g, (∀ t, (t < Z.to_nat (lh_n l))%nat → 0 ≤ f t) →
    Forall (λ w : Z * list Z, 0 ≤ w.1) (seg f g (Z.to_nat (lh_n l)))) as Hseg.
  { intros f g Hfg. unfold seg. apply Forall_fmap, Forall_forall. intros t Ht%elem_of_seq. apply Hfg. lia. }
  repeat (apply Forall_app; split); try (by repeat constructor); apply Hseg; intros t Ht.
  - by eapply lbno_in.
  - by eapply lo_home.
Qed.

(** C1: The commit of a transaction is atomic with respect to crashes. [commit]
    writes every pinned block to its home, and if the machine stops after any
    number [k] of its disk writes and reboots, [recover_from_log] on the disk
    as it then is returns and restores, outside the log, either exactly the
    contents before the transaction (while the header block is not written)
    or exactly those after it, and leaves an empty log. *)
Theorem commit_crash_atomic s i p v fuel :
  ready s i p → log_ok (k_log s) (disksize s) → bio_rep s p v (pinned (k_log s)) ∅ →
  0 < lh_n (k_log s) → dec_n (disk_blk s (l_start (k_log s))) = 0 → (NBUF < fuel)%nat →
  ∃ s' τ, commit fuel s = Ret tt s' ∧ d_trace (k_disk s') = d_trace (k_disk s) ++ τ ∧
    (∀ x, home (k_log s) (disksize s) x → disk_blk s' x = v x) ∧
    ∀ k sb ib pb, booted sb ib pb (disk_writes (take k τ) (k_disk s)) (k_log s) →
      ∃ sr, recover_from_log fuel sb = Ret tt sr ∧ dec_n (disk_blk sr (l_start (k_log s))) = 0 ∧
        ∀ x, home (k_log s) (disksize s) x →
          disk_blk sr x = if decide (Z.of_nat k ≤ lh_n (k_log s)) then disk_blk s x else v x.
Proof.
  intros Hr Hl Hrep Hn H0 Hf. set (l := k_log s) in *. set (nd := disksize s) in *.
  destruct (commit_run i p fuel Hf s v) as (s'&E&F&K&R); [done..|]. fold l in K, R.
  pose proof (start_in _ _ Hl) as Hst.
  assert (Hlen : length (v (l_start l)) = Z.to_nat BSIZE) by (by apply (br_size _ _ _ _ _ Hrep)).
  assert (Hv : ∀ x, 0 ≤ x < nd → x ∉ pinned l → v x = disk_blk s x).
  { intros x ??. by apply (br_home _ _ _ _ _ Hrep). }
  exists s', (commit_writes l v). split; [done|]. split; [by rewrite K, d_trace_writes|]. split.
  - intros x Hx. erewrite <- br_home; [|exact R| |done|done].
    2:{ rewrite (disksize_writes _ _ _ K). apply Hx. }
    destruct (logging_values l nd v v) as (_&_&Hlog&Hhome); [done..|]. unfold commit_writes.
    rewrite upd_writes_app. destruct (decide (x ∈ pinned l)) as [(t&Ht&->)%elem_of_pinned|Hp].
    + rewrite (install_hit l nd) by done. auto.
    + rewrite (install_miss l nd) by (try done; by apply Forall_forall). auto.
  - intros k sb ib pb Hb. pose proof Hb as (_&Eb&Hrepb&Hg&_).
    set (vk := upd_writes (take k (commit_writes l v)) (disk_blk s)).
    assert (Hnd : disksize sb = nd) by (unfold disksize; by rewrite Eb, length_disk_writes).
    assert (Hvk : ∀ x, 0 ≤ x < disksize sb → disk_blk sb x = vk x).
    { intros x Hx. unfold disk_blk at 1. rewrite Eb. apply blk_writes; [by rewrite Hnd in Hx|].
      apply Forall_take. by eapply commit_writes_pos. }
    destruct (commit_prefix l (k_log sb) nd v (disk_blk s) k) as [Hok Hrec]; [done..|]. fold vk in Hok, Hrec.
    destruct (booted_recover sb ib pb (disk_writes (take k (commit_writes l v)) (k_disk s)) l vk fuel Hf)
      as (sr&Er&_&Hsr); [by rewrite Hnd|done|done|by rewrite Hnd|].
    exists sr. split; [done|]. destruct Hg as (Es&_). split.
    + rewrite Hsr by (by rewrite Hnd). rewrite <- Es. eapply recovered_start; [done|].
      rewrite <- Hvk by (rewrite Hnd, Es; done). apply (br_size _ _ _ _ _ Hrepb). by rewrite Hnd, Es.
    + intros x Hx. rewrite Hsr by (rewrite Hnd; apply Hx). rewrite Hrec by done.
      by repeat case_decide; try lia.
Qed.

Lemma dec_head_says_self lb v nd :
  log_ok (dec_head (v (l_start lb)) lb) nd → length (lh_block lb) = Z.to_nat LOGSIZE →
  says v (dec_head (v (l_start lb)) lb).
Proof.
  intros Hl El. split; [done|]. intros t Ht. unfold hbno. simpl in *. rewrite lookup_blocks_upto; [done| |done].
  pose proof (lo_n _ _ Hl). pose proof (lo_size _ _ Hl). simpl in *. lia.
Qed.

(** C2: Recovery tolerates crashes of its own. If the machine stops after any
    number [j] of the disk writes of [recover_from_log] and reboots, running
    [recover_from_log] again gives every block outside the log the contents
    the uninterrupted recovery gives it. *)
Theorem recovery_crash_safe s i p l fuel :
  log_ok l (disksize s) → booted s i p (k_disk s) l → (NBUF < fuel)%nat →
  log_ok (dec_head (disk_blk s (l_start l)) (k_log s)) (disksize s) →
  ∃ s' τ, recover_from_log fuel s = Ret tt s' ∧ d_trace (k_disk s') = d_trace (k_disk s) ++ τ ∧
    ∀ j sb ib pb, booted sb ib pb (disk_writes (take j τ) (k_disk s)) l →
      ∃ sr, recover_from_log fuel sb = Ret tt sr ∧
        ∀ x, home l (disksize s) x → disk_blk sr x = disk_blk s' x.
Proof.
  intros Hl Hb Hf Hok. pose proof Hb as (_&_&Hrep&(Es&Ez&Ed&El)&_). set (nd := disksize s) in *.
  rewrite <- Es in Hok. set (v := disk_blk s) in *. set (l' := dec_head (v (l_start (k_log s))) (k_log s)) in *.
  destruct (booted_recover s i p (k_disk s) l v fuel Hf) as (s'&E&K&Hs'); [done..|]. fold l' in K.
  exists s', (install_writes l' v). split; [done|]. split; [by rewrite K, d_trace_writes|].
  intros j sb ib pb Hbb. pose proof Hbb as (_&Eb&Hrepb&(Esb&Ezb&Edb&Elb)&_).
  set (vj := upd_writes (take j (install_writes l' v)) v).
  assert (Hnd : disksize sb = nd) by (unfold disksize; by rewrite Eb, length_disk_writes).
  assert (Hvj : ∀ x, 0 ≤ x < disksize sb → disk_blk sb x = vj x).
  { intros x Hx. unfold disk_blk at 1. rewrite Eb. apply blk_writes; [by rewrite Hnd in Hx|].
    apply Forall_take. apply (commit_writes_pos _ _ v) in Hok. unfold commit_writes in Hok.
    apply Forall_app in Hok as [_ Hpos]. unfold install_writes in *. apply Forall_app in Hpos as [Hp1 Hp2].
    apply Forall_app. split; [|by inversion_clear Hp2; repeat constructor].
    unfold seg in *. rewrite Forall_fmap in *. done. }
  destruct (install_prefix l' (k_log sb) nd v j) as [Hokj Hrec].
  { done. }
  { unfold l', same_geometry. simpl. by rewrite Esb, Ezb, Edb, Es, Ez, Ed. }
  { by eapply dec_head_says_self. }
  { simpl. apply (br_size _ _ _ _ _ Hrep). rewrite Es. by eapply start_in. }
  fold vj in Hokj, Hrec.
  destruct (booted_recover sb ib pb (disk_writes (take j (install_writes l' v)) (k_disk s)) l vj fuel Hf)
    as (sr&Er&_&Hsr); [by rewrite Hnd|done|done|by rewrite Hnd|].
  exists sr. split; [done|]. intros x Hx. rewrite Hsr by (rewrite Hnd; apply Hx).
  rewrite Hs' by apply Hx. apply Hrec. unfold l', home. simpl. by rewrite Es, Ez.
Qed.
End recovery.
