(* ===== verification/Fs.v ===== *)
(** The file system, kernel/fs.c: block allocator, inodes, inode content,
    directories and paths.

    A [struct inode *] is an index into [icache.inode]. Buffers a function
    fills or reads through a [char *] are lists of bytes: [readi] returns the
    bytes with its count, [writei] takes them. The device switch [devsw], a
    table of function pointers, is a parameter of the operations that go
    through it. *)

From stdpp Require Import base list gmap strings.
From Stdlib Require Import ZArith Lia.
From S2P Require Import Prelude CString Bytes Sprintf Monad Kstate Spinlock Sched Cons Bio Log.

(** * Blocks *)

Definition getsb : K superblock := gets k_sb.

Definition IBLOCK (i : Z) (sb : superblock) : Z := u32 (i / IPB + sb_inodestart sb).
Definition BBLOCK (b : Z) (sb : superblock) : Z := u32 (b / BPB + sb_bmapstart sb).

Definition upd_data (b : nat) (f : list Z → list Z) : K unit :=
  upd_buf b (λ bf, buf_set_data (f (b_data bf)) bf).

Definition bzero (dev bno : Z) : K unit :=
  bp ← bread dev bno;
  upd_data bp (λ _, replicate (Z.to_nat BSIZE) 0);;
  log_write bp;;
  brelse bp.

(** The bit of block [bi] in its bitmap block, as byte index and mask. *)
Definition bit_byte (bi : Z) : nat := Z.to_nat (bi / 8).
Definition bit_mask (bi : Z) : Z := Z.shiftl 1 (bi mod 8).
Definition bit_free (data : list Z) (bi : Z) : bool := Z.land (data !!! bit_byte bi) (bit_mask bi) =? 0.
Definition bit_set (bi : Z) (data : list Z) : list Z :=
  alter (λ x, u8 (Z.lor x (bit_mask bi))) (bit_byte bi) data.
Definition bit_clear (bi : Z) (data : list Z) : list Z :=
  alter (λ x, u8 (Z.land x (Z.lnot (bit_mask bi)))) (bit_byte bi) data.

(** The inner loop of [balloc], over the bits of one bitmap block. *)
Definition balloc_bit (dev b : Z) (bp : nat) (bi : Z) : K (option Z) :=
  bf ← get_buf bp;
  if bit_free (b_data bf) bi then
    upd_data bp (bit_set bi);;
    log_write bp;;
    brelse bp;;
    bzero dev (b + bi);;
    mret (Some (b + bi))
  else mret None.

(** The outer loop, over the bitmap blocks. *)
Definition balloc_block (dev b : Z) : K (Z + Z) :=
  sb ← getsb;
  if negb (b <? sb_size sb) then panic "balloc: out of blocks" else
  bp ← bread dev (BBLOCK b sb);
  r ← forM (Z.to_nat (Z.min BPB (sb_size sb - b))) 0 (balloc_bit dev b bp);
  match r with
  | Some a => mret (inr a)
  | None => brelse bp;; mret (inl (b + BPB))
  end.

Definition balloc (dev : Z) : K Z := whileM (balloc_block dev) 0.

Definition bfree (dev b : Z) : K unit :=
  sb ← getsb;
  bp ← bread dev (BBLOCK b sb);
  bf ← get_buf bp;
  let bi := b mod BPB in
  if bit_free (b_data bf) bi then panic "freeing free block" else
  upd_data bp (bit_clear bi);;
  log_write bp;;
  brelse bp.

(** * Inodes *)

Definition get_inode (ip : nat) : K inode := gets (λ s, k_ic s !!! ip).
Definition upd_inode (ip : nat) (f : inode → inode) : K unit :=
  modify (λ s, set_ic (alter f ip (k_ic s)) s).

Definition inode_set_ref (v : Z) (n : inode) : inode :=
  mkInode (i_dev n) (i_inum n) v (i_lock n) (i_valid n) (i_type n) (i_major n) (i_minor n)
    (i_nlink n) (i_size n) (i_addrs n).
Definition inode_set_valid (v : Z) (n : inode) : inode :=
  mkInode (i_dev n) (i_inum n) (i_ref n) (i_lock n) v (i_type n) (i_major n) (i_minor n)
    (i_nlink n) (i_size n) (i_addrs n).
Definition inode_set_type (v : Z) (n : inode) : inode :=
  mkInode (i_dev n) (i_inum n) (i_ref n) (i_lock n) (i_valid n) v (i_major n) (i_minor n)
    (i_nlink n) (i_size n) (i_addrs n).
Definition inode_set_dev (major minor nlink : Z) (n : inode) : inode :=
  mkInode (i_dev n) (i_inum n) (i_ref n) (i_lock n) (i_valid n) (i_type n) major minor
    nlink (i_size n) (i_addrs n).
Definition inode_set_nlink (v : Z) (n : inode) : inode :=
  mkInode (i_dev n) (i_inum n) (i_ref n) (i_lock n) (i_valid n) (i_type n) (i_major n) (i_minor n)
    v (i_size n) (i_addrs n).
Definition inode_set_size (v : Z) (n : inode) : inode :=
  mkInode (i_dev n) (i_inum n) (i_ref n) (i_lock n) (i_valid n) (i_type n) (i_major n) (i_minor n)
    (i_nlink n) v (i_addrs n).
Definition inode_set_addr (k v : Z) (n : inode) : inode :=
  mkInode (i_dev n) (i_inum n) (i_ref n) (i_lock n) (i_valid n) (i_type n) (i_major n) (i_minor n)
    (i_nlink n) (i_size n) (<[Z.to_nat k := v]> (i_addrs n)).
(** The assignments of [iget] to a recycled entry. *)
Definition inode_recycle (dev inum : Z) (n : inode) : inode :=
  mkInode dev inum 1 (i_lock n) 0 (i_type n) (i_major n) (i_minor n) (i_nlink n) (i_size n) (i_addrs n).
(** The assignments of [ilock] from the disk inode. *)
Definition inode_load (d : dinode) (n : inode) : inode :=
  mkInode (i_dev n) (i_inum n) (i_ref n) (i_lock n) (i_valid n) (di_type d) (di_major d) (di_minor d)
    (di_nlink d) (di_size d) (di_addrs d).

(** A struct dinode at byte [off] of a block. *)
Definition get_dinode (off : Z) (l : list Z) : dinode :=
  mkDinode (s16 (get16 l off)) (s16 (get16 l (off + 2))) (s16 (get16 l (off + 4)))
    (s16 (get16 l (off + 6))) (get32 l (off + 8))
    ((λ k, get32 l (off + 12 + 4 * Z.of_nat k)) <$> seq 0 13).
Definition put_addrs (off : Z) (addrs : list Z) (l : list Z) : list Z :=
  foldl (λ l k, put32 (off + 4 * Z.of_nat k) (addrs !!! k) l) l (seq 0 13).
Definition put_dinode (off : Z) (d : dinode) (l : list Z) : list Z :=
  put_addrs (off + 12) (di_addrs d)
    (put32 (off + 8) (di_size d) (put16 (off + 6) (di_nlink d) (put16 (off + 4) (di_minor d)
      (put16 (off + 2) (di_major d) (put16 off (di_type d) l))))).

(** The byte offset of the struct dinode of [inum] in its block. *)
Definition dinode_off (inum : Z) : Z := (inum mod IPB) * 64.

Definition iinit (dev : Z) : K unit :=
  initlock LkIcache "icache";;
  forM NINODE 0 (λ i, initsleeplock (SlInode (Z.to_nat i)) "inode";; mret (None (A := unit)));;
  sb ← readsb dev;
  modify (set_sb sb);;
  cprintf (str "sb: size %d nblocks %d ninodes %d nlog %d logstart %d inodestart %d bmap start %d" ++ [10])
    [VInt (sb_size sb); VInt (sb_nblocks sb); VInt (sb_ninodes sb); VInt (sb_nlog sb);
     VInt (sb_logstart sb); VInt (sb_inodestart sb); VInt (sb_bmapstart sb)].

(** The loop of [iget] over the cache; [inl] an entry found, [inr] the first
    empty one. *)
Fixpoint iget_loop (dev inum : Z) (n : nat) (ip : nat) (empty : option nat) : K (nat + option nat) :=
  match n with
  | O => mret (inr empty)
  | S n =>
      i ← get_inode ip;
      if ((0 <? i_ref i) && (i_dev i =? dev) && (i_inum i =? inum))%bool then
        upd_inode ip (inode_set_ref (i_ref i + 1));;
        release LkIcache;;
        mret (inl ip)
      else
        iget_loop dev inum n (S ip)
          (if (bool_decide (empty = None) && (i_ref i =? 0))%bool then Some ip else empty)
  end.

Definition iget (dev inum : Z) : K nat :=
  acquire LkIcache;;
  r ← iget_loop dev inum NINODE 0 None;
  match r with
  | inl ip => mret ip
  | inr None => panic "iget: no inodes"
  | inr (Some ip) =>
      upd_inode ip (inode_recycle dev inum);;
      release LkIcache;;
      mret ip
  end.

Definition ialloc (dev type : Z) : K nat :=
  sb ← getsb;
  r ← forM (Z.to_nat (sb_ninodes sb - 1)) 1 (λ inum,
    bp ← bread dev (IBLOCK inum sb);
    bf ← get_buf bp;
    if di_type (get_dinode (dinode_off inum) (b_data bf)) =? 0 then
      upd_data bp (λ l, put16 (dinode_off inum) type
        (splice (Z.to_nat (dinode_off inum)) (replicate 64 0) l));;
      log_write bp;;
      brelse bp;;
      ip ← iget dev inum;
      mret (Some ip)
    else brelse bp;; mret None);
  match r with
  | Some ip => mret ip
  | None => panic "ialloc: no inodes"
  end.

Definition iupdate (ip : nat) : K unit :=
  i ← get_inode ip;
  sb ← getsb;
  bp ← bread (i_dev i) (IBLOCK (i_inum i) sb);
  upd_data bp (put_dinode (dinode_off (i_inum i))
    (mkDinode (i_type i) (i_major i) (i_minor i) (i_nlink i) (i_size i) (i_addrs i)));;
  log_write bp;;
  brelse bp.

Definition idup (ip : nat) : K nat :=
  acquire LkIcache;;
  upd_inode ip (λ i, inode_set_ref (i_ref i + 1) i);;
  release LkIcache;;
  mret ip.

Definition ilock (ip : option nat) : K unit :=
  match ip with
  | None => panic "ilock"
  | Some ip =>
      i ← get_inode ip;
      if i_ref i <? 1 then panic "ilock" else
      acquiresleep (SlInode ip);;
      i ← get_inode ip;
      whenM (i_valid i =? 0)
        (sb ← getsb;
         bp ← bread (i_dev i) (IBLOCK (i_inum i) sb);
         bf ← get_buf bp;
         upd_inode ip (inode_load (get_dinode (dinode_off (i_inum i)) (b_data bf)));;
         brelse bp;;
         upd_inode ip (inode_set_valid 1);;
         i ← get_inode ip;
         if i_type i =? 0 then panic "ilock: no type" else mret tt)
  end.

Definition iunlock (ip : option nat) : K unit :=
  match ip with
  | None => panic "iunlock"
  | Some ip =>
      h ← holdingsleep (SlInode ip);
      if negb h then panic "iunlock" else
      i ← get_inode ip;
      if i_ref i <? 1 then panic "iunlock" else
      releasesleep (SlInode ip)
  end.

(** * Inode content *)

(** The block number in [addrs[k]], allocated if there is none. *)
Definition bmap_slot (ip : nat) (k : Z) : K Z :=
  i ← get_inode ip;
  let addr := i_addrs i !!! Z.to_nat k in
  if addr =? 0 then
    addr ← balloc (i_dev i);
    upd_inode ip (inode_set_addr k addr);;
    mret addr
  else mret addr.

(** Entry [bn] of the indirect block [addr], allocated if there is none. *)
Definition bmap_entry (dev addr bn : Z) : K Z :=
  bp ← bread dev addr;
  bf ← get_buf bp;
  let addr := get32 (b_data bf) (4 * bn) in
  addr ← (if addr =? 0 then
            addr ← balloc dev;
            upd_data bp (put32 (4 * bn) addr);;
            log_write bp;;
            mret addr
          else mret addr);
  brelse bp;;
  mret addr.

Definition bmap (ip : nat) (bn : Z) : K Z :=
  if bn <? NDIRECT then bmap_slot ip bn
  else
    let bn := bn - NDIRECT in
    if bn <? NINDIRECT then
      addr ← bmap_slot ip NDIRECT;
      i ← get_inode ip;
      bmap_entry (i_dev i) addr bn
    else panic "bmap: out of range".

Definition itrunc_direct (ip : nat) (k : Z) : K (option unit) :=
  i ← get_inode ip;
  let addr := i_addrs i !!! Z.to_nat k in
  whenM (negb (addr =? 0)) (bfree (i_dev i) addr;; upd_inode ip (inode_set_addr k 0));;
  mret None.

Definition itrunc_indirect (ip bp : nat) (j : Z) : K (option unit) :=
  i ← get_inode ip;
  bf ← get_buf bp;
  let a := get32 (b_data bf) (4 * j) in
  whenM (negb (a =? 0)) (bfree (i_dev i) a);;
  mret None.

Definition itrunc (ip : nat) : K unit :=
  forM (Z.to_nat NDIRECT) 0 (itrunc_direct ip);;
  i ← get_inode ip;
  let addr := i_addrs i !!! Z.to_nat NDIRECT in
  whenM (negb (addr =? 0))
    (bp ← bread (i_dev i) addr;
     forM (Z.to_nat NINDIRECT) 0 (itrunc_indirect ip bp);;
     brelse bp;;
     bfree (i_dev i) addr;;
     upd_inode ip (inode_set_addr NDIRECT 0));;
  upd_inode ip (inode_set_size 0);;
  iupdate ip.

Definition iput (ip : nat) : K unit :=
  acquiresleep (SlInode ip);;
  i ← get_inode ip;
  whenM (negb (i_valid i =? 0) && (i_nlink i =? 0))
    (acquire LkIcache;;
     i ← get_inode ip;
     let r := i_ref i in
     release LkIcache;;
     whenM (r =? 1)
       (itrunc ip;;
        upd_inode ip (inode_set_type 0);;
        iupdate ip;;
        upd_inode ip (inode_set_valid 0)));;
  releasesleep (SlInode ip);;
  acquire LkIcache;;
  upd_inode ip (λ i, inode_set_ref (i_ref i - 1) i);;
  release LkIcache.

Definition iunlockput (ip : nat) : K unit :=
  iunlock (Some ip);;
  iput ip.

Definition stati (ip : nat) : K stat :=
  i ← get_inode ip;
  mret (mkStat (i_type i) (i_dev i) (i_inum i) (i_nlink i) (i_size i)).

(** struct devsw: what the entries read and write, null when [None]. *)
Record devops := mkDevops {
  dev_read : option (nat → Z → K (Z * list Z));
  dev_write : option (nat → list Z → Z → K Z)
}.

Section content.
Context (devsw : Z → devops).

(** One round of the copy loops: the bytes of this block that are in range. *)
Definition chunk (n tot off : Z) : Z := Z.min (u32 (n - tot)) (BSIZE - off mod BSIZE).

(** The loop of [readi]; [dst] is what has been copied out so far. *)
Definition readi_round (ip : nat) (n : Z) (x : Z * Z * list Z) : K (Z * Z * list Z + list Z) :=
  let '(tot, off, dst) := x in
  if tot <? n then
    i ← get_inode ip;
    addr ← bmap ip (off / BSIZE);
    bp ← bread (i_dev i) addr;
    let m := chunk n tot off in
    bf ← get_buf bp;
    let got := slice (Z.to_nat (off mod BSIZE)) (Z.to_nat m) (b_data bf) in
    brelse bp;;
    mret (inl (u32 (tot + m), u32 (off + m), dst ++ got))
  else mret (inr dst).

Definition readi_loop (ip : nat) (n : Z) : Z * Z * list Z → K (list Z) := whileM (readi_round ip n).

Definition readi (ip : nat) (off n : Z) : K (Z * list Z) :=
  i ← get_inode ip;
  if i_type i =? T_DEV then
    if ((i_major i <? 0) || (NDEV <=? i_major i))%bool then mret (-1, []) else
    match dev_read (devsw (i_major i)) with
    | None => mret (-1, [])
    | Some rd => rd ip (s32 n)
    end
  else if ((i_size i <? off) || (u32 (off + n) <? off))%bool then mret (-1, []) else
  let n := if i_size i <? u32 (off + n) then u32 (i_size i - off) else n in
  dst ← readi_loop ip n (0, off, []);
  mret (s32 n, dst).

(** The loop of [writei]; it ends with the offset after the last byte. *)
Definition writei_round (ip : nat) (n : Z) (x : Z * Z * list Z) : K (Z * Z * list Z + Z) :=
  let '(tot, off, src) := x in
  if tot <? n then
    i ← get_inode ip;
    addr ← bmap ip (off / BSIZE);
    bp ← bread (i_dev i) addr;
    let m := chunk n tot off in
    upd_data bp (splice (Z.to_nat (off mod BSIZE)) (take (Z.to_nat m) src));;
    log_write bp;;
    brelse bp;;
    mret (inl (u32 (tot + m), u32 (off + m), drop (Z.to_nat m) src))
  else mret (inr off).

Definition writei_loop (ip : nat) (n : Z) : Z * Z * list Z → K Z := whileM (writei_round ip n).

Definition writei (ip : nat) (src : list Z) (off n : Z) : K Z :=
  i ← get_inode ip;
  if i_type i =? T_DEV then
    if ((i_major i <? 0) || (NDEV <=? i_major i))%bool then mret (-1) else
    match dev_write (devsw (i_major i)) with
    | None => mret (-1)
    | Some wr => wr ip src (s32 n)
    end
  else if ((i_size i <? off) || (u32 (off + n) <? off))%bool then mret (-1)
  else if MAXFILE * BSIZE <? u32 (off + n) then mret (-1) else
  off ← writei_loop ip n (0, off, src);
  i ← get_inode ip;
  whenM ((0 <? n) && (i_size i <? off))
    (upd_inode ip (inode_set_size off);;
     iupdate ip);;
  mret (s32 n).

(** * Directories *)

Definition namecmp (s t : list Z) : Z := strncmp_list s t (Z.to_nat DIRSIZ).

(** struct dirent, 16 bytes. *)
Definition dirent_size : Z := 16.
Definition decode_dirent (l : list Z) : dirent := mkDirent (get16 l 0) (slice 2 14 l).
Definition encode_dirent (d : dirent) : list Z := le_bytes 2 (de_inum d) ++ de_name d.

(** The entry found, with its offset. *)
Definition dirlookup_round (dp : nat) (name : list Z) (off : Z) : K (Z + option (nat * Z)) :=
  i ← get_inode dp;
  if negb (off <? i_size i) then mret (inr None) else
  r ← readi dp off dirent_size;
  if negb (r.1 =? dirent_size) then panic "dirlookup read" else
  let de := decode_dirent r.2 in
  if de_inum de =? 0 then mret (inl (u32 (off + dirent_size))) else
  if namecmp name (de_name de) =? 0 then
    ip ← iget (i_dev i) (de_inum de);
    mret (inr (Some (ip, off)))
  else mret (inl (u32 (off + dirent_size))).

Definition dirlookup (dp : nat) (name : list Z) : K (option (nat * Z)) :=
  i ← get_inode dp;
  if negb (i_type i =? T_DIR) then panic "dirlookup not DIR" else
  whileM (dirlookup_round dp name) 0.

(** The first free entry of a directory, or its end. *)
Definition dirlink_round (dp : nat) (off : Z) : K (Z + Z) :=
  i ← get_inode dp;
  if negb (u32 off <? i_size i) then mret (inr off) else
  r ← readi dp (u32 off) dirent_size;
  if negb (r.1 =? dirent_size) then panic "dirlink read" else
  if de_inum (decode_dirent r.2) =? 0 then mret (inr off) else mret (inl (s32 (off + dirent_size))).
Definition dirlink_slot (dp : nat) : K Z := whileM (dirlink_round dp) 0.

Definition dirlink (dp : nat) (name : list Z) (inum : Z) : K Z :=
  r ← dirlookup dp name;
  match r with
  | Some (ip, _) => iput ip;; mret (-1)
  | None =>
      off ← dirlink_slot dp;
      let de := mkDirent (u16 inum) (strncpy_list name (Z.to_nat DIRSIZ)) in
      w ← writei dp (encode_dirent de) (u32 off) dirent_size;
      if negb (w =? dirent_size) then panic "dirlink" else mret 0
  end.

(** * Paths *)

(** A path is the list of its characters; its NUL is the end of the list. *)
Fixpoint skip_slashes (path : list Z) : list Z :=
  match path with
  | c :: path' => if c =? 47 then skip_slashes path' else path
  | [] => []
  end.

(** The characters up to the next slash, and what follows them. *)
Fixpoint span_elem (path : list Z) : list Z * list Z :=
  match path with
  | c :: path' =>
      if ((c =? 47) || (c =? 0))%bool then ([], path)
      else let '(s, rest) := span_elem path' in (c :: s, rest)
  | [] => ([], [])
  end.

Definition skipelem (path name : list Z) : option (list Z * list Z) :=
  let path := skip_slashes path in
  if default 0 (head path) =? 0 then None else
  let '(s, path) := span_elem path in
  let name := if DIRSIZ <=? Z.of_nat (length s) then splice 0 (take (Z.to_nat DIRSIZ) s) name
              else splice 0 (s ++ [0]) name in
  Some (skip_slashes path, name).

Definition namex (path : list Z) (nameiparent : bool) (name : list Z) : K (option nat * list Z) :=
  ip ← (if bool_decide (head path = Some 47) then iget ROOTDEV ROOTINO else
        p ← curproc;
        pr ← get_proc p;
        match p_cwd pr with
        | Some cwd => idup cwd
        | None => panic "trap"
        end);
  whileM (λ '(path, name, ip),
    match skipelem path name with
    | None =>
        if (nameiparent : bool) then iput ip;; mret (inr (None, name)) else mret (inr (Some ip, name))
    | Some (path, name) =>
        ilock (Some ip);;
        i ← get_inode ip;
        if negb (i_type i =? T_DIR) then iunlockput ip;; mret (inr (None, name)) else
        if (nameiparent && (default 0 (head path) =? 0))%bool then
          iunlock (Some ip);;
          mret (inr (Some ip, name))
        else
          next ← dirlookup ip name;
          match next with
          | None => iunlockput ip;; mret (inr (None, name))
          | Some (next, _) => iunlockput ip;; mret (inl (path, name, next))
          end
    end) (path, name, ip).

Definition namei (path : list Z) : K (option nat) :=
  r ← namex path false (replicate (Z.to_nat DIRSIZ) 0);
  mret r.1.

Definition nameiparent (path name : list Z) : K (option nat * list Z) := namex path true name.
End content.
