(* ===== verification/Icache.v ===== *)
(** The inode cache, kernel/fs.c: [iget], [idup].

    The cache holds at most one entry in use for each inode: that is what makes
    its locks and reference counts mean anything. *)

From stdpp Require Import base list gmap strings.
From Stdlib Require Import ZArith Lia.
From S2P Require Import Prelude Monad Kstate Spinlock Sched Bio Log Fs.

Definition caches (dev inum : Z) (n : inode) : Prop := 0 < i_ref n ∧ i_dev n = dev ∧ i_inum n = inum.

Record icache_ok (ic : list inode) : Prop := mkIc {
  ico_len : length ic = NINODE;
  ico_ref ip n : ic !! ip = Some n → 0 ≤ i_ref n;
  ico_uniq ip jp n m dev inum : ic !! ip = Some n → ic !! jp = Some m →
    caches dev inum n → caches dev inum m → ip = jp
}.

(** What the loop of [iget] finds, from entry [ip] on. *)
Definition hit (dev inum : Z) (n : inode) : bool :=
  (0 <? i_ref n) && (i_dev n =? dev) && (i_inum n =? inum).
Fixpoint search (dev inum : Z) (ic : list inode) (n ip : nat) (empty : option nat) : nat + option nat :=
  match n with
  | O => inr empty
  | S n =>
      if hit dev inum (ic !!! ip) then inl ip else
      search dev inum ic n (S ip)
        (if bool_decide (empty = None) && (i_ref (ic !!! ip) =? 0) then Some ip else empty)
  end.

Lemma alter_insert_at {A} (f : A → A) (j : nat) (l : list A) x : l !! j = Some x → alter f j l = <[j := f x]> l.
Proof.
  revert j. induction l as [|y l IH]; intros [|j]; simpl; intros E; try done; [by injection E as ->|].
  f_equal. by apply IH.
Qed.

Section cache.
Context (fuel : nat).
Implicit Types (s : kstate) (ic : list inode) (n m : inode) (ip jp : nat) (dev inum : Z).

Lemma hit_spec dev inum n : hit dev inum n = true ↔ caches dev inum n.
Proof. unfold hit, caches. rewrite !andb_true_iff, Z.ltb_lt, !Z.eqb_eq. tauto. Qed.

Lemma search_spec dev inum ic k ip empty :
  match search dev inum ic k ip empty with
  | inl jp => (ip ≤ jp < ip + k)%nat ∧ caches dev inum (ic !!! jp)
  | inr e => (∀ jp, (ip ≤ jp < ip + k)%nat → ¬ caches dev inum (ic !!! jp)) ∧
      match e with
      | Some jp => empty = Some jp ∨ empty = None ∧ (ip ≤ jp < ip + k)%nat ∧ i_ref (ic !!! jp) = 0
      | None => empty = None ∧ ∀ jp, (ip ≤ jp < ip + k)%nat → i_ref (ic !!! jp) ≠ 0
      end
  end.
Proof.
  revert ip empty. induction k as [|k IH]; intros ip empty; cbn [search].
  - split; [lia|]. destruct empty; [by left|]. split; [done|lia].
  - destruct (hit dev inum (ic !!! ip)) eqn:Hh.
    + apply hit_spec in Hh. split; [lia|done].
    + assert (Hn : ¬ caches dev inum (ic !!! ip)) by (rewrite <- hit_spec; by rewrite Hh).
      set (e1 := if bool_decide (empty = None) && (i_ref (ic !!! ip) =? 0) then Some ip else empty).
      specialize (IH (S ip) e1). destruct (search dev inum ic k (S ip) e1) as [jp|e].
      { destruct IH. split; [lia|done]. }
      destruct IH as [Hno He]. split.
      { intros jp Hj. destruct (decide (jp = ip)) as [->|]; [done|]. apply Hno. lia. }
      unfold e1 in He. destruct empty as [e0|]; cbn [bool_decide andb] in He.
      { rewrite bool_decide_eq_false_2 in He by done. destruct e as [jp|]; [|naive_solver].
        left. destruct He as [?|[? _]]; [done|done]. }
      rewrite bool_decide_eq_true_2 in He by done. cbn [andb] in He.
      destruct (Z.eqb_spec (i_ref (ic !!! ip)) 0) as [E0|E0]; destruct e as [jp|].
      * right. split; [done|]. destruct He as [[= <-]|[? _]]; [|done]. split; [lia|done].
      * by destruct He.
      * right. split; [done|]. destruct He as [?|(_&?&?)]; [done|]. split; [lia|done].
      * split; [done|]. intros jp Hj. destruct (decide (jp = ip)) as [->|]; [done|]. apply He. lia.
Qed.

Lemma iget_loop_run s s0 i dev inum k ip empty :
  cpu_ok (k_ctx s) i → lock_free (k_ctx s) LkIcache → s0 = set_ctx (x_acq i LkIcache (k_ctx s)) s →
  iget_loop dev inum k ip empty fuel s0 =
    match search dev inum (k_ic s) k ip empty with
    | inl jp => Ret (inl jp) (set_ic (alter (inode_set_ref (i_ref (k_ic s !!! jp) + 1)) jp (k_ic s)) s)
    | inr e => Ret (inr e) s0
    end.
Proof.
  intros Hok Hl ->. revert ip empty. induction k as [|k IH]; intros ip empty; [done|].
  cbn [iget_loop search]. unfold get_inode, hit. mred.
  change (k_ic (set_ctx (x_acq i LkIcache (k_ctx s)) s)) with (k_ic s). case_match; [|apply IH].
  unfold upd_inode. mred. rewrite (release_run _ _ (k_ctx s) i) by done. by destruct s.
Qed.

(** Changing one entry to stand for [dev], [inum]. *)
Lemma icache_put ic ip n' dev inum :
  icache_ok ic → (ip < NINODE)%nat → 0 ≤ i_ref n' → i_dev n' = dev → i_inum n' = inum →
  (∀ jp m, ic !! jp = Some m → caches dev inum m → jp = ip) → icache_ok (<[ip := n']> ic).
Proof.
  intros Hok Hip H0 Hd Hi Hu. split.
  - by rewrite length_insert, (ico_len _ Hok).
  - intros jp m [(->&->&_)|[Hne Hm]]%list_lookup_insert_Some; [done|]. by eapply (ico_ref _ Hok).
  - intros jp kp m m' d j [(->&->&_)|[Hne Hm]]%list_lookup_insert_Some
      [(->&->&_)|[Hne' Hm']]%list_lookup_insert_Some Hc Hc'; try done.
    + destruct Hc as (_&<-&<-). symmetry. subst. by eapply Hu.
    + destruct Hc' as (_&<-&<-). subst. by eapply Hu.
    + by eapply (ico_uniq _ Hok).
Qed.

(** [iget] in full: an entry in use for the inode is shared, otherwise the first
    free entry is taken, and with none free it is a panic. *)
Lemma iget_run s i p dev inum :
  ready s i p →
  match search dev inum (k_ic s) NINODE 0 None with
  | inl ip => iget dev inum fuel s = Ret ip (set_ic (alter (inode_set_ref (i_ref (k_ic s !!! ip) + 1)) ip (k_ic s)) s)
  | inr (Some ip) => iget dev inum fuel s = Ret ip (set_ic (alter (inode_recycle dev inum) ip (k_ic s)) s)
  | inr None => ∃ s', iget dev inum fuel s = Panic "iget: no inodes" s'
  end.
Proof.
  intros [Hth Hfree]. assert (Hok : cpu_ok (k_ctx s) i) by (by eapply thread_ok).
  assert (Hl : lock_free (k_ctx s) LkIcache) by (by apply Hfree).
  pose proof (iget_loop_run s _ i dev inum NINODE 0 None Hok Hl eq_refl) as E.
  unfold iget. revert E. generalize NINODE. intros N E. mred. rewrite (acquire_run _ _ i) by done. mred. rewrite E. clear E.
  destruct (search dev inum (k_ic s) N 0 None) as [ip|[ip|]]; mred; [done| |by eexists].
  unfold upd_inode. mred. rewrite (release_run _ _ (k_ctx s) i) by done. mred. by destruct s.
Qed.

Lemma iget_no_swtch s i p dev inum : ready s i p → ∀ s' k, iget dev inum fuel s ≠ Swtch s' k.
Proof.
  intros Hr s' k E'. pose proof (iget_run s i p dev inum Hr) as E. rewrite E' in E.
  destruct (search _ _ _ _ _ _) as [?|[?|]]; [done|done|]. by destruct E.
Qed.

End cache.
