(* ===== verification/Tx.v ===== *)
(** Transactions as file system code sees them.

    Between [begin_op] and [end_op] the code changes blocks only in the buffer
    cache and registers them with [log_write]. [tx s i p v h] says that process
    [p] is in a transaction in state [s], that block [b] now contains [v b],
    wherever it is stored, and that [p] holds the buffers [h]. The lemmas give
    each step of file system code in these terms. *)

From stdpp Require Import functions base list gmap strings.
From Stdlib Require Import ZArith Lia.
From S2P Require Import Prelude Bytes Monad Kstate Spinlock Sched Bio Log Fs.

(** What a step inside a transaction leaves alone: everything but the buffers,
    the log's list of blocks and wakeups. Nothing is written to disk. *)
Definition txframe (s s' : kstate) : Prop :=
  bframe (set_log (k_log s') s) s' ∧ k_disk s' = k_disk s ∧
  l_start (k_log s') = l_start (k_log s) ∧ l_size (k_log s') = l_size (k_log s) ∧
  l_outstanding (k_log s') = l_outstanding (k_log s).

Record tx (s : kstate) (i p : nat) (v : Z → list Z) (h : gmap Z nat) : Prop := mkTx {
  tx_ready : ready s i p;
  tx_log : log_ok (k_log s) (disksize s);
  tx_rep : bio_rep s p v (pinned (k_log s)) h;
  tx_open : 1 ≤ l_outstanding (k_log s);
  tx_clean : ∀ b, b ∈ dom h → b ∈ pinned (k_log s) ∨ v b = disk_blk s b
}.

(** The number of blocks the transaction may still add. *)
Definition budget (s : kstate) : Z := l_size (k_log s) - 1 - lh_n (k_log s).

Section frame.
Implicit Types (s : kstate) (l : logrec) (bno : Z).

Lemma txframe_refl s : txframe s s.
Proof. split_and!; try done. destruct s. apply bframe_refl. Qed.

Lemma txframe_trans s s1 s2 : txframe s s1 → txframe s1 s2 → txframe s s2.
Proof.
  intros (F1&K1&A1&B1&C1) (F2&K2&A2&B2&C2). split_and!; try congruence.
  eapply bframe_trans; [|exact F2]. apply (bframe_set_log _ _ (k_log s2)) in F1. exact F1.
Qed.

Lemma bframe_txframe s s' : bframe s s' → k_disk s' = k_disk s → txframe s s'.
Proof.
  intros F K. pose proof (bf_log _ _ F) as E. unfold txframe. rewrite E, set_log_id. done.
Qed.
Lemma txframe_size s s' : txframe s s' → disksize s' = disksize s.
Proof. intros (_&K&_). unfold disksize. by rewrite K. Qed.

Lemma txframe_home s s' x : txframe s s' → home (k_log s) (disksize s) x → home (k_log s') (disksize s') x.
Proof. intros F. rewrite (txframe_size _ _ F). destruct F as (_&_&E1&E2&_). unfold home. by rewrite E1, E2. Qed.

(** The log after a block has been registered: unchanged if it was already. *)
Definition log_add (bno : Z) l : logrec :=
  if decide (bno ∈ pinned l) then l else log_set_n (lh_n l + 1) (log_set_block (lh_n l) bno l).

Lemma pinned_log_add bno l nd :
  log_ok l nd → lh_n l < l_size l - 1 → pinned (log_add bno l) = {[bno]} ∪ pinned l.
Proof.
  intros Hl Hn. unfold log_add. case_decide as Hin; [set_solver|].
  pose proof (lo_n _ _ Hl). pose proof (lo_size _ _ Hl). pose proof (lo_len _ _ Hl) as Hlen.
  unfold LOGSIZE, MAXOPBLOCKS in *. unfold pinned. simpl. replace (Z.to_nat (lh_n l + 1)) with (S (Z.to_nat (lh_n l))) by lia.
  rewrite seq_S, fmap_app, list_to_set_app_L. simpl. unfold hbno. simpl.
  rewrite list_lookup_total_insert_eq by lia.
  replace ((λ t, <[Z.to_nat (lh_n l):=bno]> (lh_block l) !!! t) <$> seq 0 (Z.to_nat (lh_n l)))
    with ((λ t, lh_block l !!! t) <$> seq 0 (Z.to_nat (lh_n l))); [set_solver|].
  apply list_fmap_ext. intros k t Ht. apply lookup_seq in Ht as [-> Ht].
  by rewrite list_lookup_total_insert_ne by lia.
Qed.

Lemma log_add_ok bno l nd :
  log_ok l nd → lh_n l < l_size l - 1 → home l nd bno → log_ok (log_add bno l) nd.
Proof.
  intros Hl Hn Hh. unfold log_add. case_decide as Hin; [done|].
  pose proof (lo_n _ _ Hl). pose proof (lo_size _ _ Hl). pose proof (lo_len _ _ Hl) as Hlen.
  unfold LOGSIZE, MAXOPBLOCKS in *.
  assert (Hat : ∀ t, (t < Z.to_nat (lh_n l + 1))%nat →
    hbno (log_set_n (lh_n l + 1) (log_set_block (lh_n l) bno l)) t =
      if decide (t = Z.to_nat (lh_n l)) then bno else hbno l t).
  { intros t Ht. unfold hbno. simpl. case_decide as Et.
    - subst t. apply list_lookup_total_insert_eq. lia.
    - by apply list_lookup_total_insert_ne. }
  assert (Hnew : ∀ t, (t < Z.to_nat (lh_n l))%nat → hbno l t ≠ bno).
  { intros t Ht E. apply Hin, elem_of_pinned. eauto. }
  split; [apply Hl|apply Hl|apply Hl|simpl; lia|simpl; by rewrite length_insert|..].
  - intros t Ht. rewrite Hat by done. simpl in Ht. case_decide; [done|]. apply (lo_home _ _ Hl). lia.
  - intros t1 t2 H1 H2. rewrite !Hat by done. simpl in H1, H2. repeat case_decide; subst; try done.
    + intros E. symmetry in E. by apply Hnew in E; [|lia].
    + intros E. by apply Hnew in E; [|lia].
    + intros E. apply (lo_inj _ _ Hl); [lia|lia|done].
Qed.

(** The transaction's budget in terms of the set of its blocks. *)
Lemma size_pinned_n l nd : log_ok l nd → Z.of_nat (size (pinned l)) = lh_n l.
Proof.
  intros Hl. pose proof (lo_n _ _ Hl). unfold pinned. rewrite size_list_to_set.
  - rewrite length_fmap, length_seq. lia.
  - apply NoDup_fmap_2_strong; [|apply NoDup_seq]. intros t1 t2 H1%elem_of_seq H2%elem_of_seq.
    apply (lo_inj _ _ Hl); lia.
Qed.

(** A transaction with budget for [k] more blocks leaves room in the cache for
    the [k] buffers its code holds. *)
Lemma room_for s (X : gset Z) :
  log_ok (k_log s) (disksize s) → Z.of_nat (size X) ≤ budget s →
  (size (pinned (k_log s) ∪ X) < NBUF)%nat.
Proof.
  intros Hl HX. pose proof (size_pinned_n _ _ Hl). pose proof (lo_size _ _ Hl).
  pose proof (size_union_alt (pinned (k_log s)) X).
  pose proof (subseteq_size (X ∖ pinned (k_log s)) X ltac:(set_solver)).
  unfold budget, NBUF, LOGSIZE, MAXOPBLOCKS in *. lia.
Qed.
End frame.

Section run.
Context (i p fuel : nat) (Hfuel : (NBUF < fuel)%nat).
Implicit Types (s : kstate) (v : Z → list Z) (h : gmap Z nat) (l : logrec).

(** Reading a block. *)
Lemma tx_bread s v h bno :
  tx s i p v h → 0 ≤ bno < disksize s → h !! bno = None →
  bno ∈ pinned (k_log s) ∨ (size (pinned (k_log s) ∪ dom h) < NBUF)%nat →
  ∃ b s', bread 1 bno fuel s = Ret b s' ∧ tx s' i p v (<[bno := b]> h) ∧ txframe s s' ∧
    k_log s' = k_log s ∧ b_data (k_bc s' !!! b) = v bno.
Proof.
  intros [Hr Hl Hrep Ho Hc] Hb Hh Hroom.
  destruct (bread_rep s i p v (pinned (k_log s)) h bno fuel) as (b&s'&E&F&K&R); [done..|].
  pose proof (bf_log _ _ F) as El.
  assert (Hd : disksize s' = disksize s) by (unfold disksize; by rewrite K).
  exists b, s'. split; [done|]. split_and!; [|by apply bframe_txframe|done|].
  - split; rewrite ?El, ?Hd; try done; [by eapply bframe_ready|].
    intros x. rewrite dom_insert_L. unfold disk_blk. rewrite K.
    intros [->%elem_of_singleton|?]%elem_of_union; [|by apply Hc].
    destruct (decide (bno ∈ pinned (k_log s))); [by left|right].
    apply (br_home _ _ _ _ _ Hrep); [done|done|]. by apply not_elem_of_dom.
  - by eapply (rep_held _ _ _ _ _ bno b R), lookup_insert_eq.
Qed.

(** Done with a block. *)
Lemma tx_brelse s v h bno b :
  tx s i p v h → h !! bno = Some b →
  ∃ s', brelse b fuel s = Ret tt s' ∧ tx s' i p v (delete bno h) ∧ txframe s s' ∧ k_log s' = k_log s.
Proof.
  intros [Hr Hl Hrep Ho Hc] Hh.
  destruct (brelse_rep s i p v (pinned (k_log s)) h bno b fuel) as (s'&E&F&K&R); [done..| |].
  { apply Hc, elem_of_dom. eauto. }
  pose proof (bf_log _ _ F) as El.
  assert (Hd : disksize s' = disksize s) by (unfold disksize; by rewrite K).
  exists s'. split; [done|]. split_and!; [|by apply bframe_txframe|done].
  split; rewrite ?El, ?Hd; try done; [by eapply bframe_ready|].
  intros x. rewrite dom_delete_L. unfold disk_blk. rewrite K. intros Hx. apply Hc. set_solver.
Qed.

Lemma log_write_run s v h bno b :
  ready s i p → log_ok (k_log s) (disksize s) → bio_rep s p v (pinned (k_log s)) h →
  1 ≤ l_outstanding (k_log s) → h !! bno = Some b → lh_n (k_log s) < l_size (k_log s) - 1 →
  log_write b fuel s =
    Ret tt (set_log (log_add bno (k_log s))
      (set_bc (alter (λ bf, buf_set_flags (Z.lor (b_flags bf) B_DIRTY) bf) b (k_bc s)) s)).
Proof.
  intros Hr Hl Hrep Ho Hh Hn. destruct (rep_held _ _ _ _ _ _ _ Hrep Hh) as (Hb&Hd&Hbn&Hrg&_).
  pose proof (lo_n _ _ Hl). pose proof (lo_size _ _ Hl). pose proof (lo_range _ _ Hl). pose proof (lo_len _ _ Hl).
  unfold LOGSIZE, MAXOPBLOCKS in *.
  unfold log_write, getlog, modlog. bred. unfold id.
  assert ((LOGSIZE <=? lh_n (k_log s)) || (l_size (k_log s) - 1 <=? lh_n (k_log s)) = false) as ->.
  { apply orb_false_iff. unfold LOGSIZE, MAXOPBLOCKS. split; apply Z.leb_gt; lia. }
  assert ((l_outstanding (k_log s) <? 1) = false) as -> by (apply Z.ltb_ge; lia). bred.
  rewrite (acquire_run _ _ i); [|by eapply ready_ok|by apply Hr]. bred. simpl k_bc. simpl k_log. rewrite Hbn.
  destruct (forM_search (λ j, if u32 (lh_at j (k_log s)) =? bno then Some j else None)
    (Z.to_nat (lh_n (k_log s))) 0 fuel (set_ctx (x_acq i LkLog (k_ctx s)) s)) as (r&->&Hres). bred.
  assert (Hs32 : s32 bno = bno) by (apply swrap_small; lia). rewrite Hs32.
  assert (Hat : ∀ j, 0 ≤ j < lh_n (k_log s) → u32 (lh_at j (k_log s)) = hbno (k_log s) (Z.to_nat j)).
  { intros j Hj. destruct (lo_home _ _ Hl (Z.to_nat j)) as [Hx _]; [lia|].
    unfold lh_at. fold (hbno (k_log s) (Z.to_nat j)). apply u32_small. lia. }
  unfold log_add. destruct r as [j|]; simpl default.
  - destruct Hres as (j'&Hj&E). case_match eqn:Hq; [|done]. injection E as ->. apply Z.eqb_eq in Hq.
    rewrite Hat in Hq by lia.
    rewrite decide_True by (apply elem_of_pinned; exists (Z.to_nat j); split; [lia|done]).
    assert ((j =? lh_n (k_log s)) = false) as -> by (apply Z.eqb_neq; lia). bred.
    rewrite (release_run _ _ (k_ctx s) i); [|by eapply ready_ok|by apply Hr|done]. f_equal.
    change (k_log (set_ctx _ s)) with (k_log s).
    replace (log_set_block j bno (k_log s)) with (k_log s); [by destruct s|].
    unfold log_set_block. rewrite list_insert_id; [by destruct (k_log s)|].
    rewrite <- Hq. unfold hbno. apply list_lookup_lookup_total_lt. lia.
  - rewrite decide_False.
    2:{ intros (t&Ht&E)%elem_of_pinned. specialize (Hres (Z.of_nat t) ltac:(lia)).
        rewrite Hat, Nat2Z.id, <- E, Z.eqb_refl in Hres by lia. done. }
    rewrite Z.eqb_refl. bred.
    rewrite (release_run _ _ (k_ctx s) i); [|by eapply ready_ok|by apply Hr|done]. by destruct s.
Qed.

(** Changing a block and registering it. *)
Lemma tx_update s v h bno b f :
  tx s i p v h → h !! bno = Some b → home (k_log s) (disksize s) bno → 1 ≤ budget s →
  length (f (v bno)) = Z.to_nat BSIZE →
  ∃ s', log_write b fuel (set_bc (alter (λ bf, buf_set_data (f (b_data bf)) bf) b (k_bc s)) s) = Ret tt s' ∧
    tx s' i p (<[bno := f (v bno)]> v) h ∧ txframe s s' ∧ pinned (k_log s') = {[bno]} ∪ pinned (k_log s).
Proof.
  intros [Hr Hl Hrep Ho Hc] Hh Hhome Hb Hlen. unfold budget in Hb.
  pose proof (upd_data_rep p s v _ h bno b f Hrep Hh Hlen) as R1.
  set (s1 := set_bc (alter _ b (k_bc s)) s) in *.
  assert (Hn1 : lh_n (k_log s1) < l_size (k_log s1) - 1) by (change (k_log s1) with (k_log s); lia).
  rewrite (log_write_run s1 (<[bno := f (v bno)]> v) h bno b) by done.
  change (k_log s1) with (k_log s).
  eexists. split; [done|]. simpl k_log. rewrite (pinned_log_add _ _ (disksize s)) by (done || lia).
  split_and!; try done.
  - split; simpl k_log; try done.
    + by apply log_add_ok; [|lia|].
    + rewrite (pinned_log_add _ _ (disksize s)) by (done || lia).
      apply (set_dirty_rep s1 p _ _ h bno b) in R1; [|done]. by apply rep_set_log.
    + unfold log_add. by case_decide.
    + intros x Hx. simpl. rewrite (pinned_log_add _ _ (disksize s)) by (done || lia).
      destruct (decide (x = bno)) as [->|Hne]; [left; set_solver|].
      rewrite fn_lookup_insert_ne by done. destruct (Hc x Hx) as [?|?]; [left; set_solver|by right].
  - unfold txframe. simpl. split_and!; try done; try (unfold log_add; by case_decide).
    apply (bframe_bc (set_log _ s)).
Qed.

(** The whole sequence on a block that is not held. *)
Lemma tx_modify s v h bno f :
  tx s i p v h → home (k_log s) (disksize s) bno → h !! bno = None → 1 ≤ budget s →
  Z.of_nat (size (dom h)) ≤ budget s → length (f (v bno)) = Z.to_nat BSIZE →
  ∃ s', (bp ← bread 1 bno; upd_data bp f;; log_write bp;; brelse bp) fuel s = Ret tt s' ∧
    tx s' i p (<[bno := f (v bno)]> v) h ∧ txframe s s' ∧ pinned (k_log s') = {[bno]} ∪ pinned (k_log s).
Proof.
  intros Ht Hhome Hh Hb Hroom Hlen.
  destruct (tx_bread s v h bno) as (b&s1&E1&T1&F1&L1&_); try done.
  { apply Hhome. } { right. by apply room_for; [apply Ht|]. }
  destruct (tx_update s1 v (<[bno := b]> h) bno b f) as (s2&E2&T2&F2&P2); try done.
  { apply lookup_insert_eq. } { by eapply txframe_home. } { unfold budget. by rewrite L1. }
  destruct (tx_brelse s2 (<[bno := f (v bno)]> v) (<[bno := b]> h) bno b) as (s3&E3&T3&F3&L3);
    [done|apply lookup_insert_eq|].
  unfold upd_data. bred. rewrite E1. bred. rewrite E2. bred. exists s3. split; [done|].
  rewrite delete_insert_id in T3 by done. split; [done|].
  split; [by eapply txframe_trans, txframe_trans|]. by rewrite L3, P2, L1.
Qed.

(** Looking at a block. *)
Lemma tx_look s v h bno :
  tx s i p v h → 0 ≤ bno < disksize s → h !! bno = None → Z.of_nat (size (dom h)) ≤ budget s →
  ∃ b s', bread 1 bno fuel s = Ret b s' ∧ tx s' i p v (<[bno := b]> h) ∧ txframe s s' ∧
    k_log s' = k_log s ∧ b_data (k_bc s' !!! b) = v bno.
Proof. intros Ht Hb Hh Hroom. apply tx_bread; try done. right. by apply room_for; [apply Ht|]. Qed.

Lemma bzero_tx s v h bno :
  tx s i p v h → home (k_log s) (disksize s) bno → h !! bno = None → 1 ≤ budget s →
  Z.of_nat (size (dom h)) ≤ budget s →
  ∃ s', bzero 1 bno fuel s = Ret tt s' ∧ tx s' i p (<[bno := replicate (Z.to_nat BSIZE) 0]> v) h ∧
    txframe s s' ∧ pinned (k_log s') = {[bno]} ∪ pinned (k_log s).
Proof. intros. apply (tx_modify s v h bno (λ _, replicate (Z.to_nat BSIZE) 0)); done. Qed.
End run.
