(* ===== verification/Balloc.v ===== *)
(** The block allocator of kernel/fs.c ([bzero], [balloc], [bfree]) against its
    contract: a set of free blocks.

    [free v sb b] reads block [b]'s bit in the bitmap that the logical disk [v]
    holds. [balloc] takes the lowest free block out of the set and zeroes it,
    [bfree] puts a block back; both touch nothing else. *)

From stdpp Require Import functions base list gmap strings.
From Stdlib Require Import ZArith Lia.
From S2P Require Import Prelude Bytes Monad Kstate Spinlock Sched Bio Log Fs Tx.

(** * Bits *)

Section bits.
Implicit Types (data : list Z) (bi bj : Z).

Lemma bit_free_testbit data bi :
  0 ≤ bi → bit_free data bi = negb (Z.testbit (data !!! bit_byte bi) (bi mod 8)).
Proof.
  intros Hb. unfold bit_free, bit_mask. pose proof (Z.mod_pos_bound bi 8 ltac:(lia)).
  rewrite Z.shiftl_1_l. destruct (Z.testbit (data !!! bit_byte bi) (bi mod 8)) eqn:E; simpl.
  - apply Z.eqb_neq. intros E0. apply (f_equal (λ x, Z.testbit x (bi mod 8))) in E0.
    rewrite Z.land_spec, E, Z.pow2_bits_true, Z.bits_0 in E0 by lia. done.
  - apply Z.eqb_eq, Z.bits_inj'. intros k Hk. rewrite Z.land_spec, Z.bits_0.
    destruct (decide (k = bi mod 8)) as [->|]; [by rewrite E|].
    rewrite Z.pow2_bits_false by lia. apply andb_false_r.
Qed.

Lemma testbit_u8 x k : 0 ≤ k < 8 → Z.testbit (u8 x) k = Z.testbit x k.
Proof. intros. unfold u8. by rewrite Z.mod_pow2_bits_low by lia. Qed.

Lemma same_bit bi bj : 0 ≤ bi → 0 ≤ bj → bit_byte bi = bit_byte bj → bi mod 8 = bj mod 8 → bi = bj.
Proof.
  unfold bit_byte. intros Hi Hj Hb Hm.
  pose proof (Z.div_mod bi 8 ltac:(lia)). pose proof (Z.div_mod bj 8 ltac:(lia)).
  pose proof (Z.div_pos bi 8 Hi). pose proof (Z.div_pos bj 8 Hj). lia.
Qed.

Lemma bit_free_set data bi bj :
  0 ≤ bi < 8 * Z.of_nat (length data) → 0 ≤ bj →
  bit_free (bit_set bi data) bj = if decide (bi = bj) then false else bit_free data bj.
Proof.
  intros Hi Hj. rewrite !bit_free_testbit by lia. unfold bit_set, bit_mask.
  rewrite list_lookup_total_alter. rewrite Z.shiftl_1_l.
  pose proof (Z.mod_pos_bound bi 8 ltac:(lia)). pose proof (Z.mod_pos_bound bj 8 ltac:(lia)).
  assert (bit_byte bi < length data)%nat.
  { unfold bit_byte. pose proof (Z.div_lt_upper_bound bi 8 (Z.of_nat (length data)) ltac:(lia) ltac:(lia)).
    pose proof (Z.div_pos bi 8). lia. }
  destruct (decide (bi = bj)) as [->|Hne].
  - rewrite decide_True by done. rewrite testbit_u8, Z.lor_spec, Z.pow2_bits_true by lia.
    by rewrite orb_true_r.
  - case_decide as Hb; [|done]. destruct Hb as [Hb _]. rewrite testbit_u8, Z.lor_spec by lia.
    rewrite Z.pow2_bits_false, orb_false_r, Hb; [done|]. intros E. apply Hne, same_bit; try done; lia.
Qed.

Lemma bit_free_clear data bi bj :
  0 ≤ bi < 8 * Z.of_nat (length data) → 0 ≤ bj →
  bit_free (bit_clear bi data) bj = if decide (bi = bj) then true else bit_free data bj.
Proof.
  intros Hi Hj. rewrite !bit_free_testbit by lia. unfold bit_clear, bit_mask.
  rewrite list_lookup_total_alter. rewrite Z.shiftl_1_l.
  pose proof (Z.mod_pos_bound bi 8 ltac:(lia)). pose proof (Z.mod_pos_bound bj 8 ltac:(lia)).
  assert (bit_byte bi < length data)%nat.
  { unfold bit_byte. pose proof (Z.div_lt_upper_bound bi 8 (Z.of_nat (length data)) ltac:(lia) ltac:(lia)).
    pose proof (Z.div_pos bi 8). lia. }
  destruct (decide (bi = bj)) as [->|Hne].
  - rewrite decide_True by done. rewrite testbit_u8, Z.land_spec, Z.lnot_spec, Z.pow2_bits_true by lia.
    by rewrite andb_false_r.
  - case_decide as Hb; [|done]. destruct Hb as [Hb _]. rewrite testbit_u8, Z.land_spec, Z.lnot_spec by lia.
    rewrite Z.pow2_bits_false, andb_true_r, Hb; [done|]. intros E. apply Hne, same_bit; try done; lia.
Qed.
End bits.

(** * The layout of the disk and its free blocks *)

(** Boot block, superblock, log, inodes, bitmap, data, in this order. *)
Record geometry (sb : superblock) (l : logrec) (nd : Z) : Prop := mkGeom {
  g_nd : sb_size sb ≤ nd ∧ nd ≤ 2 ^ 31;
  g_log : l_start l + l_size l ≤ sb_inodestart sb ∧ 0 ≤ l_start l ∧ 0 < l_size l;
  g_ino : 0 ≤ sb_ninodes sb ∧ sb_inodestart sb + sb_ninodes sb / IPB + 1 ≤ sb_bmapstart sb;
  g_bm : 0 ≤ sb_size sb ∧ sb_bmapstart sb + sb_size sb / BPB + 1 ≤ sb_size sb
}.

Definition data_start (sb : superblock) : Z := sb_bmapstart sb + sb_size sb / BPB + 1.

Definition free (v : Z → list Z) (sb : superblock) (b : Z) : bool := bit_free (v (BBLOCK b sb)) (b mod BPB).

(** Blocks before the data blocks are never free. *)
Definition meta_used (v : Z → list Z) (sb : superblock) : Prop :=
  ∀ b, 0 ≤ b < data_start sb → free v sb b = false.

(** The logical disk after a block is taken or given back. *)
Definition take_block (sb : superblock) (b : Z) (v : Z → list Z) : Z → list Z :=
  <[b := replicate (Z.to_nat BSIZE) 0]> (<[BBLOCK b sb := bit_set (b mod BPB) (v (BBLOCK b sb))]> v).
Definition give_block (sb : superblock) (b : Z) (v : Z → list Z) : Z → list Z :=
  <[BBLOCK b sb := bit_clear (b mod BPB) (v (BBLOCK b sb))]> v.

Section layout.
Context (sb : superblock) (l : logrec) (nd : Z) (Hg : geometry sb l nd).
Implicit Types (v : Z → list Z) (b : Z).

Lemma BBLOCK_eq b : 0 ≤ b < sb_size sb → BBLOCK b sb = b / BPB + sb_bmapstart sb.
Proof.
  intros Hb. destruct Hg as [? ? ? ?]. unfold BBLOCK. apply u32_small.
  pose proof (Z.div_pos b BPB ltac:(lia) ltac:(done)).
  pose proof (Z.div_le_mono b (sb_size sb) BPB ltac:(done) ltac:(lia)).
  pose proof (Z.div_pos (sb_ninodes sb) IPB ltac:(lia) ltac:(done)). lia.
Qed.

Lemma BBLOCK_range b : 0 ≤ b < sb_size sb →
  l_start l + l_size l ≤ BBLOCK b sb < data_start sb ∧ 0 ≤ BBLOCK b sb < nd.
Proof.
  intros Hb. rewrite BBLOCK_eq by done. destruct Hg as [? ? ? ?]. unfold data_start.
  pose proof (Z.div_pos b BPB ltac:(lia) ltac:(done)).
  pose proof (Z.div_le_mono b (sb_size sb) BPB ltac:(done) ltac:(lia)).
  pose proof (Z.div_pos (sb_ninodes sb) IPB ltac:(lia) ltac:(done)). lia.
Qed.

Lemma BBLOCK_home b : 0 ≤ b < sb_size sb → home l nd (BBLOCK b sb).
Proof. intros Hb. destruct (BBLOCK_range b Hb). split; lia. Qed.

Lemma data_home b : data_start sb ≤ b < sb_size sb → home l nd b.
Proof.
  intros Hb. destruct Hg as [? ? ? ?]. unfold data_start in Hb.
  pose proof (Z.div_pos (sb_ninodes sb) IPB ltac:(lia) ltac:(done)).
  pose proof (Z.div_pos (sb_size sb) BPB ltac:(lia) ltac:(done)). split; lia.
Qed.

Lemma data_start_pos : 0 < data_start sb.
Proof.
  destruct Hg as [? ? ? ?]. unfold data_start.
  pose proof (Z.div_pos (sb_ninodes sb) IPB ltac:(lia) ltac:(done)).
  pose proof (Z.div_pos (sb_size sb) BPB ltac:(lia) ltac:(done)). lia.
Qed.

(** Two blocks with the same bit are the same block. *)
Lemma bit_inj b b' :
  0 ≤ b < sb_size sb → 0 ≤ b' < sb_size sb → BBLOCK b sb = BBLOCK b' sb → b mod BPB = b' mod BPB → b = b'.
Proof.
  intros Hb Hb'. rewrite !BBLOCK_eq by done. intros E Em.
  pose proof (Z.div_mod b BPB ltac:(done)). pose proof (Z.div_mod b' BPB ltac:(done)). lia.
Qed.

(** Writing data blocks does not change what is free. *)
Lemma free_data v b w b' :
  data_start sb ≤ b → 0 ≤ b' < sb_size sb → free (<[b := w]> v) sb b' = free v sb b'.
Proof.
  intros Hb Hb'. unfold free. rewrite fn_lookup_insert_ne; [done|].
  pose proof (BBLOCK_range b' Hb'). lia.
Qed.

Lemma free_take v b b' :
  length (v (BBLOCK b sb)) = Z.to_nat BSIZE → data_start sb ≤ b < sb_size sb → 0 ≤ b' < sb_size sb →
  free (take_block sb b v) sb b' = if decide (b' = b) then false else free v sb b'.
Proof.
  intros Hlen Hb Hb'. pose proof data_start_pos. unfold take_block. rewrite free_data by (done || lia). unfold free.
  assert (0 ≤ b mod BPB < 8 * Z.of_nat (length (v (BBLOCK b sb)))).
  { rewrite Hlen. apply Z.mod_pos_bound. done. }
  pose proof (Z.mod_pos_bound b' BPB ltac:(done)).
  destruct (decide (BBLOCK b sb = BBLOCK b' sb)) as [E|E].
  - rewrite <- E, fn_lookup_insert, bit_free_set by lia.
    destruct (decide (b' = b)) as [->|]; [by rewrite decide_True|]. rewrite decide_False; [done|].
    intros Em. by assert (b = b') by (apply bit_inj; lia || done).
  - rewrite fn_lookup_insert_ne by done. rewrite decide_False; [done|]. congruence.
Qed.

Lemma free_give v b b' :
  length (v (BBLOCK b sb)) = Z.to_nat BSIZE → 0 ≤ b < sb_size sb → 0 ≤ b' < sb_size sb →
  free (give_block sb b v) sb b' = if decide (b' = b) then true else free v sb b'.
Proof.
  intros Hlen Hb Hb'. unfold give_block, free.
  assert (0 ≤ b mod BPB < 8 * Z.of_nat (length (v (BBLOCK b sb)))).
  { rewrite Hlen. apply Z.mod_pos_bound. done. }
  pose proof (Z.mod_pos_bound b' BPB ltac:(done)).
  destruct (decide (BBLOCK b sb = BBLOCK b' sb)) as [E|E].
  - rewrite <- E, fn_lookup_insert, bit_free_clear by lia.
    destruct (decide (b' = b)) as [->|]; [by rewrite decide_True|]. rewrite decide_False; [done|].
    intros Em. by assert (b = b') by (apply bit_inj; lia || done).
  - rewrite fn_lookup_insert_ne by done. rewrite decide_False; [done|]. congruence.
Qed.
End layout.

(** * The operations *)

Section run.
Context (i p fuel : nat) (Hfuel : (NBUF < fuel)%nat).
Implicit Types (s : kstate) (v : Z → list Z) (h : gmap Z nat) (b : Z).

Definition fs_geometry s : Prop := geometry (k_sb s) (k_log s) (disksize s).

Lemma txframe_sb s s' : txframe s s' → k_sb s' = k_sb s.
Proof. intros (F&_). exact (bf_sb _ _ F). Qed.

Lemma txframe_geometry s s' : txframe s s' → fs_geometry s → fs_geometry s'.
Proof.
  intros F [? ? ? ?]. unfold fs_geometry. rewrite (txframe_sb _ _ F), (txframe_size _ _ F).
  destruct F as (_&_&E1&E2&_). by split; rewrite ?E1, ?E2.
Qed.

(** Registering the blocks [X] uses up at most [size X] of the budget. *)
Lemma budget_pinned s s' (X : gset Z) :
  log_ok (k_log s) (disksize s) → log_ok (k_log s') (disksize s') → txframe s s' →
  pinned (k_log s') ⊆ X ∪ pinned (k_log s) → budget s - Z.of_nat (size X) ≤ budget s'.
Proof.
  clear Hfuel. intros Hl Hl' F HX. pose proof (size_pinned_n _ _ Hl). pose proof (size_pinned_n _ _ Hl').
  apply subseteq_size in HX. rewrite size_union_alt in HX.
  pose proof (subseteq_size (pinned (k_log s) ∖ X) (pinned (k_log s)) ltac:(set_solver)).
  destruct F as (_&_&_&E&_). unfold budget. rewrite E. lia.
Qed.

Lemma tx_block_length s v h b : tx s i p v h → 0 ≤ b < disksize s → length (v b) = Z.to_nat BSIZE.
Proof. intros T. apply (br_size _ _ _ _ _ (tx_rep _ _ _ _ _ T)). Qed.

(** A round of the inner loop on a bit that is in use, and on a free one. *)
Lemma balloc_bit_used s b bp bi data :
  b_data (k_bc s !!! bp) = data → bit_free data bi = false →
  balloc_bit 1 b bp bi fuel s = Ret None s.
Proof. intros Hd Hf. unfold balloc_bit. bred. by rewrite Hd, Hf. Qed.

(** The blocks a caller of [balloc] may hold: data blocks that are in use. *)
Definition holds_used sb v h : Prop := ∀ x, x ∈ dom h → data_start sb ≤ x < sb_size sb ∧ free v sb x = false.

Lemma holds_none sb v h b : holds_used sb v h → free v sb b = true → h !! b = None.
Proof. intros H Hb. apply not_elem_of_dom. intros Hx. destruct (H b Hx). congruence. Qed.

Lemma holds_meta sb v h b : holds_used sb v h → b < data_start sb → h !! b = None.
Proof. intros H Hb. apply not_elem_of_dom. intros Hx. destruct (H b Hx). lia. Qed.

Lemma balloc_bit_free s v h b bp bi :
  let sb := k_sb s in let a := b + bi in
  tx s i p v (<[BBLOCK a sb := bp]> h) → fs_geometry s → holds_used sb v h →
  data_start sb ≤ a < sb_size sb → free v sb a = true → bi = a mod BPB →
  2 ≤ budget s → Z.of_nat (size (dom h)) < budget s →
  ∃ s', balloc_bit 1 b bp bi fuel s = Ret (Some a) s' ∧ tx s' i p (take_block sb a v) h ∧ txframe s s' ∧
    pinned (k_log s') = {[a]} ∪ ({[BBLOCK a sb]} ∪ pinned (k_log s)).
Proof.
  intros sb a Ht Hg Hu Ha Hf Hbi Hb Hroom. pose proof (data_start_pos _ _ _ Hg) as Hpos.
  fold sb in Hpos. assert (Ha0 : 0 ≤ a < sb_size sb) by lia.
  pose proof (BBLOCK_home _ _ _ Hg a Ha0) as Hbm. fold sb in Hbm.
  pose proof (BBLOCK_range _ _ _ Hg a Ha0) as Hrg. fold sb in Hrg.
  pose proof (tx_block_length _ _ _ (BBLOCK a sb) Ht ltac:(apply Hrg)) as Hlen.
  assert (Hd : b_data (k_bc s !!! bp) = v (BBLOCK a sb)).
  { eapply (rep_held _ _ _ _ _ _ bp (tx_rep _ _ _ _ _ Ht)), lookup_insert_eq. }
  unfold balloc_bit. bred. rewrite Hd. unfold free in Hf. rewrite <- Hbi in Hf. rewrite Hf. unfold upd_data. bred.
  destruct (tx_update i p fuel Hfuel s v _ (BBLOCK a sb) bp (bit_set bi) Ht) as (s1&E1&T1&F1&P1);
    [apply lookup_insert_eq|done|lia|by unfold bit_set; rewrite length_alter|].
  rewrite E1. bred.
  destruct (tx_brelse i p fuel Hfuel s1 _ _ (BBLOCK a sb) bp T1) as (s2&E2&T2&F2&L2); [apply lookup_insert_eq|].
  rewrite E2. bred. rewrite delete_insert_id in T2 by (eapply holds_meta; [exact Hu|lia]).
  assert (F12 : txframe s s2) by (by eapply txframe_trans).
  assert (Hb2 : budget s - 1 ≤ budget s2).
  { pose proof (budget_pinned s s2 {[BBLOCK a sb]}) as B. rewrite size_singleton in B.
    apply B; [apply Ht|apply T2|done|]. rewrite L2, P1. done. }
  destruct (bzero_tx i p fuel Hfuel s2 _ _ a T2) as (s3&E3&T3&F3&P3).
  { eapply txframe_home; [exact F12|]. exact (data_home _ _ _ Hg a Ha). }
  { eapply holds_none; [done|]. unfold free. by rewrite <- Hbi. }
  { lia. } { lia. }
  fold a. rewrite E3. bred. exists s3. split; [done|]. split; [unfold take_block; by rewrite <- Hbi|].
  split; [by eapply txframe_trans|]. by rewrite P3, L2, P1.
Qed.

(** The bits of the bitmap block that starts with block [b]. *)
Lemma same_bitmap sb b bi :
  b mod BPB = 0 → 0 ≤ bi < BPB → BBLOCK (b + bi) sb = BBLOCK b sb ∧ (b + bi) mod BPB = bi.
Proof.
  intros Hb Hbi. pose proof (Z.div_mod b BPB ltac:(done)) as E. rewrite Hb, Z.add_0_r in E.
  assert (b + bi = bi + b / BPB * BPB) as -> by lia.
  unfold BBLOCK. rewrite Z.div_add, (Z.div_small bi), Z_mod_plus_full, Z.mod_small by (done || lia).
  by rewrite Z.add_0_l.
Qed.

(** A bitmap block with no free bit below [a]: the inner loop passes over it. *)
Lemma balloc_bits_used s v h b bp n :
  let sb := k_sb s in
  tx s i p v (<[BBLOCK b sb := bp]> h) → b mod BPB = 0 → 0 ≤ n ≤ BPB →
  (∀ b', b ≤ b' < b + n → free v sb b' = false) →
  ∀ j, 0 ≤ j < n → balloc_bit 1 b bp j fuel s = Ret None s.
Proof.
  intros sb Ht Hb Hn Hu j Hj. destruct (same_bitmap sb b j) as [E1 E2]; [done|lia|].
  eapply balloc_bit_used.
  - eapply (rep_held _ _ _ _ _ _ bp (tx_rep _ _ _ _ _ Ht)), lookup_insert_eq.
  - specialize (Hu (b + j) ltac:(lia)). unfold free in Hu. by rewrite E1, E2 in Hu.
Qed.

Lemma balloc_round s v h b :
  let sb := k_sb s in
  tx s i p v h → fs_geometry s → holds_used sb v h → b mod BPB = 0 → 0 ≤ b < sb_size sb →
  1 ≤ budget s → Z.of_nat (size (dom h)) ≤ budget s →
  ∃ bp s', bread 1 (BBLOCK b sb) fuel s = Ret bp s' ∧ tx s' i p v (<[BBLOCK b sb := bp]> h) ∧
    h !! BBLOCK b sb = None ∧ txframe s s' ∧ k_log s' = k_log s.
Proof.
  intros sb Ht Hg Hu Hb Hrg Hbd Hroom.
  pose proof (BBLOCK_range _ _ _ Hg b Hrg) as Hr. fold sb in Hr.
  assert (Hh : h !! BBLOCK b sb = None) by (eapply holds_meta; [exact Hu|lia]).
  destruct (tx_look i p fuel Hfuel s v h (BBLOCK b sb)) as (bp&s1&E1&T1&F1&L1&_); [done|lia|done|lia|].
  by exists bp, s1.
Qed.

Lemma balloc_loop n s v h b a :
  let sb := k_sb s in
  tx s i p v h → fs_geometry s → holds_used sb v h → b mod BPB = 0 → 0 ≤ b ≤ a →
  data_start sb ≤ a < sb_size sb → free v sb a = true → (∀ b', b ≤ b' < a → free v sb b' = false) →
  2 ≤ budget s → Z.of_nat (size (dom h)) < budget s → (a - b) / BPB < Z.of_nat n →
  ∃ s', loop_fuel n (balloc_block 1) b fuel s = Ret a s' ∧ tx s' i p (take_block sb a v) h ∧ txframe s s' ∧
    pinned (k_log s') = {[a]} ∪ ({[BBLOCK a sb]} ∪ pinned (k_log s)).
Proof.
  revert s b. induction n as [|n IH]; intros s b sb Ht Hg Hu Hb Hba Ha Hf Hused Hbd Hroom Hn.
  { pose proof (Z.div_pos (a - b) BPB ltac:(lia) ltac:(done)). lia. }
  assert (0 < BPB) by done.
  destruct (balloc_round s v h b) as (bp&s1&E1&T1&Hh&F1&L1); try done; try (fold sb; lia). fold sb in E1, T1, Hh.
  assert (Hsb1 : k_sb s1 = sb) by (by apply txframe_sb).
  assert (Hbd1 : budget s1 = budget s) by (unfold budget; by rewrite L1).
  rewrite loop_fuel_S. unfold balloc_block at 2, getsb. bred. fold sb.
  assert ((b <? sb_size sb) = true) as -> by (apply Z.ltb_lt; lia). bred. rewrite E1. bred.
  destruct (decide (a < b + BPB)) as [Hin|Hout].
  - destruct (same_bitmap sb b (a - b)) as [Eb Em]; [done|lia|]. replace (b + (a - b)) with a in * by lia.
    destruct (balloc_bit_free s1 v h b bp (a - b)) as (s2&E2&T2&F2&P2); rewrite ?Hsb1, ?Hbd1;
      replace (b + (a - b)) with a by lia; try done; try lia; [by rewrite Eb|by eapply txframe_geometry|].
    replace (b + (a - b)) with a in * by lia. rewrite Hsb1 in *.
    rewrite (forM_exit _ _ _ (Z.to_nat (a - b)) a _ _ s2).
    + bred. exists s2. split; [done|]. split; [done|]. split; [by eapply txframe_trans|]. by rewrite P2, L1.
    + intros j Hj. apply (balloc_bits_used s1 v h b bp (a - b)); rewrite ?Hsb1; try done; try lia.
      intros b' Hb'. apply Hused. lia.
    + by replace (0 + Z.of_nat (Z.to_nat (a - b))) with (a - b) by lia.
    + unfold BPB, BSIZE in *. lia.
  - rewrite Z.min_l by lia. rewrite forM_idle.
    2:{ intros j Hj. apply (balloc_bits_used s1 v h b bp BPB); rewrite ?Hsb1; try done; try lia.
        intros b' Hb'. apply Hused. lia. }
    bred. destruct (tx_brelse i p fuel Hfuel s1 v _ (BBLOCK b sb) bp T1) as (s2&E2&T2&F2&L2);
      [apply lookup_insert_eq|].
    rewrite E2. bred. rewrite delete_insert_id in T2 by done.
    assert (F12 : txframe s s2) by (by eapply txframe_trans).
    assert (Hsb2 : k_sb s2 = sb) by (by apply txframe_sb).
    assert (L12 : k_log s2 = k_log s) by congruence.
    destruct (IH s2 (b + BPB)) as (s3&E3&T3&F3&P3); rewrite ?Hsb2; try done; try lia.
    + by eapply txframe_geometry.
    + by rewrite <- Z.add_mod_idemp_r, Z.mod_same, Z.add_0_r by done.
    + intros. apply Hused. unfold BPB, BSIZE in *. lia.
    + unfold budget in *. by rewrite L12.
    + unfold budget in *. by rewrite L12.
    + replace (a - b) with (a - (b + BPB) + 1 * BPB) in Hn by lia. rewrite Z.div_add in Hn by done. lia.
    + rewrite Hsb2, L12 in *. exists s3. split; [done|]. split; [done|]. split; [by eapply txframe_trans|done].
Qed.

Lemma balloc_full n s v h b :
  let sb := k_sb s in
  tx s i p v h → fs_geometry s → holds_used sb v h → b mod BPB = 0 → 0 ≤ b →
  (∀ b', b ≤ b' < sb_size sb → free v sb b' = false) →
  1 ≤ budget s → Z.of_nat (size (dom h)) ≤ budget s → (1 ≤ n)%nat → sb_size sb - b ≤ BPB * (Z.of_nat n - 1) →
  ∃ s', loop_fuel n (balloc_block 1) b fuel s = Panic "balloc: out of blocks" s'.
Proof.
  assert (0 < BPB) by done.
  revert s b. induction n as [|n IH]; intros s b sb Ht Hg Hu Hb Hb0 Hused Hbd Hroom Hn1 Hn; [lia|].
  rewrite loop_fuel_S. unfold balloc_block at 2, getsb. bred. fold sb.
  destruct (Z.ltb_spec b (sb_size sb)); bred; [|by exists s].
  destruct (balloc_round s v h b) as (bp&s1&E1&T1&Hh&F1&L1); try done; try (fold sb; lia). fold sb in E1, T1, Hh.
  assert (Hsb1 : k_sb s1 = sb) by (by apply txframe_sb).
  rewrite E1. bred. rewrite forM_idle.
  2:{ intros j Hj. apply (balloc_bits_used s1 v h b bp (Z.min BPB (sb_size sb - b))); rewrite ?Hsb1; try done; try lia.
      intros b' Hb'. apply Hused. lia. }
  bred. destruct (tx_brelse i p fuel Hfuel s1 v _ (BBLOCK b sb) bp T1) as (s2&E2&T2&F2&L2);
    [apply lookup_insert_eq|].
  rewrite E2. bred. rewrite delete_insert_id in T2 by done.
  assert (F12 : txframe s s2) by (by eapply txframe_trans).
  assert (Hsb2 : k_sb s2 = sb) by (by apply txframe_sb).
  assert (L12 : k_log s2 = k_log s) by congruence.
  apply IH; rewrite ?Hsb2; try done; try nia.
  - by eapply txframe_geometry.
  - by rewrite <- Z.add_mod_idemp_r, Z.mod_same, Z.add_0_r by done.
  - intros. apply Hused. lia.
  - unfold budget in *. by rewrite L12.
  - unfold budget in *. by rewrite L12.
Qed.

(** The lowest free block, if there is one. *)
Lemma least_free v sb n :
  (∀ b, 0 ≤ b < Z.of_nat n → free v sb b = false) ∨
  ∃ a, 0 ≤ a < Z.of_nat n ∧ free v sb a = true ∧ ∀ b, 0 ≤ b < a → free v sb b = false.
Proof.
  induction n as [|n [IH|(a&Ha&?)]]; [left; lia| |right; exists a; split; [lia|done]].
  destruct (free v sb (Z.of_nat n)) eqn:E.
  - right. exists (Z.of_nat n). split; [lia|done].
  - left. intros b Hb. destruct (decide (b = Z.of_nat n)) as [->|]; [done|]. apply IH. lia.
Qed.

(** Fuel for the loop over the bitmap blocks. *)
Definition bitmap_fuel s : Prop := sb_size (k_sb s) ≤ BPB * (Z.of_nat fuel - 1).

Lemma balloc_run s v h :
  let sb := k_sb s in
  tx s i p v h → fs_geometry s → meta_used v sb → holds_used sb v h → bitmap_fuel s →
  2 ≤ budget s → Z.of_nat (size (dom h)) < budget s →
  (∃ a s', data_start sb ≤ a < sb_size sb ∧ free v sb a = true ∧ (∀ b, 0 ≤ b < a → free v sb b = false) ∧
     balloc 1 fuel s = Ret a s' ∧ tx s' i p (take_block sb a v) h ∧ txframe s s' ∧
     pinned (k_log s') = {[a]} ∪ ({[BBLOCK a sb]} ∪ pinned (k_log s))) ∨
  (∀ b, 0 ≤ b < sb_size sb → free v sb b = false) ∧
     ∃ s', balloc 1 fuel s = Panic "balloc: out of blocks" s'.
Proof.
  intros sb Ht Hg Hm Hu Hf Hbd Hroom. pose proof (g_bm _ _ _ Hg) as Hsz. fold sb in Hsz.
  unfold bitmap_fuel in Hf. fold sb in Hf. assert (0 < BPB) by done.
  destruct (least_free v sb (Z.to_nat (sb_size sb))) as [Hnone|(a&Ha&Hfa&Hmin)].
  - right. split; [intros; apply Hnone; lia|]. unfold balloc, whileM.
    apply (balloc_full fuel s v h 0); fold sb; try done; try lia. intros; apply Hnone; lia.
  - assert (data_start sb ≤ a < sb_size sb).
    { destruct (decide (a < data_start sb)); [|lia]. rewrite Hm in Hfa by lia. done. }
    destruct (balloc_loop fuel s v h 0 a) as (s'&E&T&F&P); fold sb; try done; try lia.
    { rewrite Z.sub_0_r. apply Z.div_lt_upper_bound; lia. }
    left. by exists a, s'.
Qed.

(** [bfree] of a block in use. *)
Lemma bfree_run s v h b :
  let sb := k_sb s in
  tx s i p v h → fs_geometry s → holds_used sb v h → 0 ≤ b < sb_size sb → free v sb b = false →
  1 ≤ budget s → Z.of_nat (size (dom h)) ≤ budget s →
  ∃ s', bfree 1 b fuel s = Ret tt s' ∧ tx s' i p (give_block sb b v) h ∧ txframe s s' ∧
    pinned (k_log s') = {[BBLOCK b sb]} ∪ pinned (k_log s).
Proof.
  intros sb Ht Hg Hu Hb Hf Hbd Hroom.
  pose proof (BBLOCK_range _ _ _ Hg b Hb) as Hr. fold sb in Hr.
  pose proof (BBLOCK_home _ _ _ Hg b Hb) as Hhome. fold sb in Hhome.
  assert (Hh : h !! BBLOCK b sb = None) by (eapply holds_meta; [exact Hu|lia]).
  destruct (tx_look i p fuel Hfuel s v h (BBLOCK b sb)) as (bp&s1&E1&T1&F1&L1&D1); [done|lia|done|lia|].
  unfold bfree, getsb. bred. fold sb. rewrite E1. bred. rewrite D1. unfold free in Hf. rewrite Hf.
  unfold upd_data. bred.
  destruct (tx_update i p fuel Hfuel s1 v _ (BBLOCK b sb) bp (bit_clear (b mod BPB)) T1) as (s2&E2&T2&F2&P2).
  { apply lookup_insert_eq. } { by eapply txframe_home. } { unfold budget. rewrite L1. exact Hbd. }
  { unfold bit_clear. rewrite length_alter. eapply (tx_block_length _ _ _ _ Ht). lia. }
  rewrite E2. bred.
  destruct (tx_brelse i p fuel Hfuel s2 _ _ (BBLOCK b sb) bp T2) as (s3&E3&T3&F3&L3); [apply lookup_insert_eq|].
  rewrite delete_insert_id in T3 by done. exists s3. split; [done|]. split; [done|].
  split; [by eapply txframe_trans, txframe_trans|]. by rewrite L3, P2, L1.
Qed.

(** [bfree] of a block that is free already. *)
Lemma bfree_panic s v h b :
  let sb := k_sb s in
  tx s i p v h → fs_geometry s → holds_used sb v h → 0 ≤ b < sb_size sb → free v sb b = true →
  Z.of_nat (size (dom h)) ≤ budget s →
  ∃ s', bfree 1 b fuel s = Panic "freeing free block" s'.
Proof.
  intros sb Ht Hg Hu Hb Hf Hroom. pose proof (BBLOCK_range _ _ _ Hg b Hb) as Hr. fold sb in Hr.
  assert (Hh : h !! BBLOCK b sb = None) by (eapply holds_meta; [exact Hu|lia]).
  destruct (tx_look i p fuel Hfuel s v h (BBLOCK b sb)) as (bp&s1&E1&T1&F1&L1&D1); [done|lia|done|lia|].
  unfold bfree, getsb. bred. fold sb. rewrite E1. bred. rewrite D1. unfold free in Hf. rewrite Hf. by exists s1.
Qed.

Lemma take_block_other sb v a x : x ≠ a → x ≠ BBLOCK a sb → take_block sb a v x = v x.
Proof. intros. unfold take_block. by rewrite !fn_lookup_insert_ne. Qed.

(** C27: Inside a transaction [balloc] takes the lowest free block: afterwards
    exactly that block is no longer free, it is all zeroes, and every other
    block but the bitmap has its old contents. When no block is free it
    panics. *)
Theorem balloc_spec s v h :
  let sb := k_sb s in
  tx s i p v h → fs_geometry s → meta_used v sb → holds_used sb v h → bitmap_fuel s →
  2 ≤ budget s → Z.of_nat (size (dom h)) < budget s →
  (∃ a s' v', balloc 1 fuel s = Ret a s' ∧ tx s' i p v' h ∧ txframe s s' ∧
     data_start sb ≤ a < sb_size sb ∧ free v sb a = true ∧ (∀ b, 0 ≤ b < a → free v sb b = false) ∧
     (∀ b, 0 ≤ b < sb_size sb → free v' sb b = if decide (b = a) then false else free v sb b) ∧
     v' a = replicate (Z.to_nat BSIZE) 0 ∧ (∀ x, x ≠ a → x ≠ BBLOCK a sb → v' x = v x)) ∨
  (∀ b, 0 ≤ b < sb_size sb → free v sb b = false) ∧
     ∃ s', balloc 1 fuel s = Panic "balloc: out of blocks" s'.
Proof.
  intros sb Ht Hg Hm Hu Hf Hbd Hroom.
  destruct (balloc_run s v h Ht Hg Hm Hu Hf Hbd Hroom) as [(a&s'&Ha&Hfa&Hmin&E&T&F&_)|?]; [left|by right].
  fold sb in Ha, Hfa, Hmin, T. pose proof (data_start_pos _ _ _ Hg) as Hpos. fold sb in Hpos.
  exists a, s', (take_block sb a v). split_and!; try done; try lia.
  - intros b Hb. apply (free_take _ _ _ Hg); try done.
    eapply (tx_block_length _ _ _ _ Ht), (BBLOCK_range _ _ _ Hg). fold sb. lia.
  - apply fn_lookup_insert.
  - intros. by apply take_block_other.
Qed.

(** Inside a transaction [bfree] of a block in use makes exactly that block
    free and changes only the bitmap; of a free block it panics. *)
Theorem bfree_spec s v h b :
  let sb := k_sb s in
  tx s i p v h → fs_geometry s → holds_used sb v h → 0 ≤ b < sb_size sb →
  1 ≤ budget s → Z.of_nat (size (dom h)) ≤ budget s →
  if free v sb b then ∃ s', bfree 1 b fuel s = Panic "freeing free block" s'
  else ∃ s' v', bfree 1 b fuel s = Ret tt s' ∧ tx s' i p v' h ∧ txframe s s' ∧
    (∀ b', 0 ≤ b' < sb_size sb → free v' sb b' = if decide (b' = b) then true else free v sb b') ∧
    (∀ x, x ≠ BBLOCK b sb → v' x = v x).
Proof.
  intros sb Ht Hg Hu Hb Hbd Hroom. destruct (free v sb b) eqn:Hf; [by eapply bfree_panic|].
  destruct (bfree_run s v h b) as (s'&E&T&F&_); try done. exists s', (give_block sb b v).
  split_and!; try done.
  - intros b' Hb'. apply (free_give _ _ _ Hg); try done.
    eapply (tx_block_length _ _ _ _ Ht), (BBLOCK_range _ _ _ Hg). done.
  - intros. unfold give_block. by rewrite fn_lookup_insert_ne.
Qed.
End run.
