(* ===== verification/Inode.v ===== *)
(** Inode contents, kernel/fs.c: [bmap] and [readi] against the file as an
    array of bytes.

    A file's blocks are named by its [addrs]: twelve direct ones and an indirect
    block. [fbyte v addrs k] is byte [k] of the file on the logical disk [v]. *)

From stdpp Require Import functions base list gmap strings.
From Stdlib Require Import ZArith Lia.
From S2P Require Import Prelude Bytes Monad Kstate Spinlock Sched Bio Log Fs Tx Balloc.

(** * Files as arrays of bytes *)

(** The indirect block, and the block that holds block [bn] of the file; 0 when
    there is none. *)
Definition ind (addrs : list Z) : Z := addrs !!! Z.to_nat NDIRECT.
Definition faddr (v : Z → list Z) (addrs : list Z) (bn : Z) : Z :=
  if bn <? NDIRECT then addrs !!! Z.to_nat bn
  else if ind addrs =? 0 then 0 else get32 (v (ind addrs)) (4 * (bn - NDIRECT)).

Definition fbyte (v : Z → list Z) (addrs : list Z) (k : Z) : Z :=
  v (faddr v addrs (k / BSIZE)) !!! Z.to_nat (k mod BSIZE).
(** The [n] bytes at offset [off]. *)
Definition fbytes (v : Z → list Z) (addrs : list Z) (off n : Z) : list Z := fbyte v addrs <$> seqZ off n.

(** All the block numbers a file holds: the indirect block as slot -1, then the
    blocks of the file. *)
Definition slot (v : Z → list Z) (addrs : list Z) (j : Z) : Z := if j <? 0 then ind addrs else faddr v addrs j.

(** The blocks of the file are data blocks in use, each used once. *)
Record file_ok (v : Z → list Z) (sb : superblock) (addrs : list Z) : Prop := mkFileOk {
  fo_len : length addrs = 13%nat;
  fo_slot j : -1 ≤ j < MAXFILE → slot v addrs j ≠ 0 →
    data_start sb ≤ slot v addrs j < sb_size sb ∧ free v sb (slot v addrs j) = false;
  fo_inj j1 j2 : -1 ≤ j1 < MAXFILE → -1 ≤ j2 < MAXFILE → slot v addrs j1 ≠ 0 →
    slot v addrs j1 = slot v addrs j2 → j1 = j2
}.

Section slots.
Context (v : Z → list Z) (sb : superblock) (addrs : list Z) (Hok : file_ok v sb addrs).

Lemma slot_faddr j : 0 ≤ j → slot v addrs j = faddr v addrs j.
Proof. intros. unfold slot. by destruct (Z.ltb_spec j 0); [lia|]. Qed.

Lemma fo_ind : ind addrs ≠ 0 → data_start sb ≤ ind addrs < sb_size sb ∧ free v sb (ind addrs) = false.
Proof using Hok. intros. by apply (fo_slot _ _ _ Hok (-1)). Qed.

Lemma fo_used bn : 0 ≤ bn < MAXFILE → faddr v addrs bn ≠ 0 →
  data_start sb ≤ faddr v addrs bn < sb_size sb ∧ free v sb (faddr v addrs bn) = false.
Proof using Hok. intros. rewrite <- slot_faddr in * by lia. apply (fo_slot _ _ _ Hok); [lia|done]. Qed.

Lemma fo_ind_ne bn : 0 ≤ bn < MAXFILE → faddr v addrs bn ≠ 0 → faddr v addrs bn ≠ ind addrs.
Proof using Hok.
  intros Hb Hn E. rewrite <- slot_faddr in * by lia. change (ind addrs) with (slot v addrs (-1)) in E.
  apply (fo_inj _ _ _ Hok) in E; [lia|lia|done|done].
Qed.
End slots.

(** The first [n] blocks are there. *)
Definition mapped (v : Z → list Z) (addrs : list Z) (n : Z) : Prop := ∀ bn, 0 ≤ bn < n → faddr v addrs bn ≠ 0.

Section bytes.
Implicit Types (v : Z → list Z) (addrs : list Z) (off n k : Z).

Lemma length_fbytes v addrs off n : length (fbytes v addrs off n) = Z.to_nat n.
Proof. unfold fbytes. by rewrite length_fmap, length_seqZ. Qed.

Lemma fbytes_app v addrs off n m :
  0 ≤ n → 0 ≤ m → fbytes v addrs off (n + m) = fbytes v addrs off n ++ fbytes v addrs (off + n) m.
Proof. intros. unfold fbytes. by rewrite seqZ_app, fmap_app. Qed.

(** Part of a block is part of the file. *)
Lemma slice_fbytes v addrs off m :
  0 ≤ off → 0 ≤ m → off mod BSIZE + m ≤ BSIZE → length (v (faddr v addrs (off / BSIZE))) = Z.to_nat BSIZE →
  slice (Z.to_nat (off mod BSIZE)) (Z.to_nat m) (v (faddr v addrs (off / BSIZE))) = fbytes v addrs off m.
Proof.
  intros Ho Hm Hle Hlen. pose proof (Z.mod_pos_bound off BSIZE ltac:(done)).
  apply list_eq_same_length with (n := Z.to_nat m).
  - by rewrite length_fbytes.
  - unfold slice. rewrite length_take, length_drop, Hlen. lia.
  - intros j x y Hj. unfold slice. rewrite lookup_take_lt by done. rewrite lookup_drop.
    unfold fbytes. rewrite list_lookup_fmap, lookup_seqZ_lt by lia. simpl. unfold fbyte.
    assert (Hq : (off + Z.of_nat j) / BSIZE = off / BSIZE ∧ (off + Z.of_nat j) mod BSIZE = off mod BSIZE + Z.of_nat j).
    { pose proof (Z.div_mod off BSIZE ltac:(done)) as E.
      assert (off + Z.of_nat j = off mod BSIZE + Z.of_nat j + off / BSIZE * BSIZE) as -> by lia.
      rewrite Z.div_add, Z_mod_plus_full, Z.div_small, Z.mod_small by (done || lia). lia. }
    destruct Hq as [-> ->]. intros Hx [= <-].
    replace (Z.to_nat (off mod BSIZE + Z.of_nat j)) with (Z.to_nat (off mod BSIZE) + j)%nat by lia.
    symmetry. by apply list_lookup_total_correct.
Qed.
End bytes.

(** * Reading *)

Section read.
Context (i p fuel : nat) (Hfuel : (NBUF < fuel)%nat).
Implicit Types (s : kstate) (v : Z → list Z) (I : inode) (ip : nat) (bn : Z).

Lemma budget_pos s v h : tx s i p v h → 0 ≤ budget s.
Proof. clear Hfuel. intros T. pose proof (lo_n _ _ (tx_log _ _ _ _ _ T)). unfold budget. lia. Qed.

Lemma txframe_ic s s' : txframe s s' → k_ic s' = k_ic s.
Proof. intros (F&_). exact (bf_ic _ _ F). Qed.

(** [bread] and [brelse] of a block that is only looked at. *)
Lemma tx_read1 s v bno :
  tx s i p v ∅ → 0 ≤ bno < disksize s →
  ∃ b s1 s2, bread 1 bno fuel s = Ret b s1 ∧ b_data (k_bc s1 !!! b) = v bno ∧ txframe s s1 ∧
    brelse b fuel s1 = Ret tt s2 ∧ tx s2 i p v ∅ ∧ txframe s s2 ∧ k_log s2 = k_log s.
Proof.
  intros Ht Hb. pose proof (budget_pos _ _ _ Ht).
  destruct (tx_look i p fuel Hfuel s v ∅ bno) as (b&s1&E1&T1&F1&L1&D1); try done.
  destruct (tx_brelse i p fuel Hfuel s1 v _ bno b T1) as (s2&E2&T2&F2&L2); [apply lookup_insert_eq|].
  rewrite delete_insert_id in T2 by done. exists b, s1, s2. split_and!; try done.
  - by eapply txframe_trans.
  - congruence.
Qed.

Lemma data_in s v b : fs_geometry s → data_start (k_sb s) ≤ b < sb_size (k_sb s) → 0 ≤ b < disksize s.
Proof. intros Hg Hb. by destruct (data_home _ _ _ Hg b Hb). Qed.

(** [bmap] of a block that is there. *)
Lemma bmap_found s v ip I bn :
  tx s i p v ∅ → k_ic s !!! ip = I → i_dev I = 1 → fs_geometry s → file_ok v (k_sb s) (i_addrs I) →
  0 ≤ bn < MAXFILE → faddr v (i_addrs I) bn ≠ 0 →
  ∃ s', bmap ip bn fuel s = Ret (faddr v (i_addrs I) bn) s' ∧ tx s' i p v ∅ ∧ txframe s s' ∧ k_log s' = k_log s.
Proof.
  intros Ht HI Hdev Hg Hok Hbn Hne. unfold bmap, bmap_slot, bmap_entry, get_inode.
  unfold faddr in *. destruct (Z.ltb_spec bn NDIRECT).
  - bred. rewrite HI. rewrite (proj2 (Z.eqb_neq _ _) Hne). bred. exists s. split; [done|]. split; [done|].
    split; [apply txframe_refl|done].
  - fold (ind (i_addrs I)) in *. destruct (ind (i_addrs I) =? 0) eqn:Hi; [done|].
    apply Z.eqb_neq in Hi. unfold MAXFILE in Hbn.
    assert ((bn - NDIRECT <? NINDIRECT) = true) as -> by (apply Z.ltb_lt; lia). bred. rewrite HI.
    fold (ind (i_addrs I)). rewrite (proj2 (Z.eqb_neq _ _) Hi). bred. rewrite HI, Hdev.
    destruct (fo_ind _ _ _ Hok Hi) as [Hrg _].
    destruct (tx_read1 s v (ind (i_addrs I)) Ht) as (b&s1&s2&E1&D1&F1&E2&T2&F2&L2); [by eapply data_in|].
    rewrite E1. bred. rewrite D1, (proj2 (Z.eqb_neq _ _) Hne). bred. rewrite E2. bred.
    exists s2. by split_and!.
Qed.

(** One round's piece of the file: it ends at a block boundary or where the
    request ends. *)
Lemma chunk_spec n tot off :
  0 ≤ tot < n → n < 2 ^ 32 → 0 ≤ off →
  0 < chunk n tot off ≤ n - tot ∧ off mod BSIZE + chunk n tot off ≤ BSIZE ∧
  (chunk n tot off = n - tot ∨ off + chunk n tot off = BSIZE * (off / BSIZE + 1)).
Proof.
  clear Hfuel. intros Ht Hn Ho. pose proof (Z.mod_pos_bound off BSIZE ltac:(done)). pose proof (Z.div_mod off BSIZE ltac:(done)).
  unfold chunk. rewrite u32_small by lia. lia.
Qed.

Lemma next_block off q : off = BSIZE * q → off / BSIZE = q.
Proof. intros ->. rewrite Z.mul_comm. by apply Z.div_mul. Qed.

Lemma readi_loop_run nf s v ip I nb n tot off dst :
  tx s i p v ∅ → k_ic s !!! ip = I → i_dev I = 1 → fs_geometry s → file_ok v (k_sb s) (i_addrs I) →
  mapped v (i_addrs I) nb → nb ≤ MAXFILE → 0 ≤ tot ≤ n → 0 ≤ off → off + (n - tot) ≤ BSIZE * nb →
  n ≤ BSIZE * MAXFILE → (1 ≤ nf)%nat → (tot < n → off + (n - tot) ≤ BSIZE * (off / BSIZE + Z.of_nat nf - 1)) →
  ∃ s', loop_fuel nf (readi_round ip n) (tot, off, dst) fuel s =
      Ret (dst ++ fbytes v (i_addrs I) off (n - tot)) s' ∧ tx s' i p v ∅ ∧ txframe s s' ∧ k_log s' = k_log s.
Proof.
  assert (HB : 0 < BSIZE) by done. assert (HM : BSIZE * MAXFILE = 71680) by done.
  revert s tot off dst. induction nf as [|nf IH]; intros s tot off dst Ht HI Hdev Hg Hok Hmap Hnb Htot Hoff Hend Hn Hnf Hf; [lia|].
  assert (off + (n - tot) ≤ 71680) by (change MAXFILE with 140 in Hnb; unfold BSIZE in *; lia).
  rewrite loop_fuel_S. unfold readi_round at 2. destruct (Z.ltb_spec tot n).
  - pose proof (Z.div_mod off BSIZE ltac:(lia)). pose proof (Z.mod_pos_bound off BSIZE HB).
    pose proof (Z.div_pos off BSIZE Hoff HB).
    destruct (chunk_spec n tot off) as (Hc1&Hc2&Hc3); [lia|lia|lia|]. set (m := chunk n tot off) in *.
    assert (Hbn : 0 ≤ off / BSIZE < nb) by (unfold BSIZE in *; lia).
    destruct (bmap_found s v ip I (off / BSIZE)) as (s1&E1&T1&F1&L1); try done; [lia|by apply Hmap|].
    destruct (fo_used _ _ _ Hok (off / BSIZE)) as [Hrg _]; [lia|by apply Hmap|].
    assert (Hin : 0 ≤ faddr v (i_addrs I) (off / BSIZE) < disksize s1).
    { rewrite (txframe_size _ _ F1). by eapply data_in. }
    destruct (tx_read1 s1 v _ T1 Hin) as (b&s2&s3&E2&D2&F2&E3&T3&F3&L3).
    unfold get_inode. bred. rewrite HI, Hdev. bred. rewrite E1. bred. rewrite E2. bred. rewrite E3. bred. rewrite D2.
    rewrite slice_fbytes; [|lia|lia|lia|by eapply (tx_block_length i p _ _ _ _ T1)].
    assert (F13 : txframe s s3) by (by eapply txframe_trans).
    rewrite (u32_small (tot + m)), (u32_small (off + m)) by lia.
    destruct (IH s3 (tot + m) (off + m) (dst ++ fbytes v (i_addrs I) off m)) as (s4&E4&T4&F4&L4);
      rewrite ?(txframe_ic _ _ F13), ?(txframe_sb _ _ F13); try done; try lia.
    + by eapply txframe_geometry.
    + intros Hlt. specialize (Hf ltac:(lia)). destruct Hc3 as [Hc3|Hc3]; [lia|]. rewrite (next_block _ _ Hc3). lia.
    + rewrite E4. exists s4. split_and!; try done; [|by eapply txframe_trans|congruence].
      replace (n - tot) with (m + (n - (tot + m))) by lia. rewrite fbytes_app, app_assoc by lia. done.
  - bred. exists s. replace (n - tot) with 0 by lia. unfold fbytes. simpl. rewrite app_nil_r.
    split; [done|]. split; [done|]. split; [apply txframe_refl|done].
Qed.

(** An inode of the cache with its file. *)
Record inode_ok v sb I : Prop := mkInodeOk {
  io_dev : i_dev I = 1;
  io_type : i_type I ≠ T_DEV;
  io_file : file_ok v sb (i_addrs I);
  io_size : 0 ≤ i_size I ≤ BSIZE * MAXFILE;
  io_mapped : mapped v (i_addrs I) ((i_size I + BSIZE - 1) / BSIZE)
}.

(** The number of blocks of a file of [n] bytes. *)
Lemma blocks_bound n : 0 ≤ n ≤ BSIZE * MAXFILE →
  (n + BSIZE - 1) / BSIZE ≤ MAXFILE ∧ n ≤ BSIZE * ((n + BSIZE - 1) / BSIZE).
Proof.
  clear Hfuel. change MAXFILE with 140. unfold BSIZE. intros Hn. pose proof (Z.div_mod (n + 512 - 1) 512 ltac:(lia)).
  pose proof (Z.mod_pos_bound (n + 512 - 1) 512 ltac:(lia)). lia.
Qed.

Lemma readi_run devsw s v ip I off n :
  tx s i p v ∅ → k_ic s !!! ip = I → fs_geometry s → inode_ok v (k_sb s) I →
  0 ≤ off ≤ i_size I → 0 ≤ n → off + n < 2 ^ 32 → MAXFILE + 1 < Z.of_nat fuel →
  let m := Z.min n (i_size I - off) in
  ∃ s', readi devsw ip off n fuel s = Ret (m, fbytes v (i_addrs I) off m) s' ∧ tx s' i p v ∅ ∧
    txframe s s' ∧ k_log s' = k_log s.
Proof.
  intros Ht HI Hg [Hdev Hty Hok Hsz Hmap] Hoff Hn Hon Hf m. unfold readi, get_inode. bred. rewrite HI.
  rewrite (proj2 (Z.eqb_neq _ _) Hty). rewrite (u32_small (off + n)) by lia.
  assert ((i_size I <? off) || (off + n <? off) = false) as ->.
  { apply orb_false_iff. split; apply Z.ltb_ge; lia. }
  assert (HM : BSIZE * MAXFILE = 71680) by done.
  assert ((if i_size I <? off + n then u32 (i_size I - off) else n) = m) as ->.
  { unfold m. destruct (Z.ltb_spec (i_size I) (off + n)); [rewrite u32_small by lia; lia|lia]. }
  destruct (blocks_bound (i_size I) Hsz) as [Hb1 Hb2].
  destruct (readi_loop_run fuel s v ip I ((i_size I + BSIZE - 1) / BSIZE) m 0 off []) as (s'&E&T&F&L);
    try done; try lia.
  { intros _. pose proof (Z.div_pos off BSIZE ltac:(lia) ltac:(done)). unfold BSIZE in *.
    change MAXFILE with 140 in *. lia. }
  rewrite Z.sub_0_r in E. unfold readi_loop, whileM. bred. rewrite E. bred. exists s'. split; [|done].
  do 2 f_equal. apply swrap_small; lia.
Qed.

(** C33: [readi] of a regular file: -1 for an offset beyond the end or a range that
    wraps around, otherwise the bytes of the file at [off], as many as asked
    for and there are; nothing changes. *)
Theorem readi_spec devsw s v ip I off n :
  tx s i p v ∅ → k_ic s !!! ip = I → fs_geometry s → inode_ok v (k_sb s) I →
  0 ≤ off < 2 ^ 32 → 0 ≤ n < 2 ^ 32 → MAXFILE + 1 < Z.of_nat fuel →
  if (i_size I <? off) || (2 ^ 32 <=? off + n)
  then readi devsw ip off n fuel s = Ret (-1, []) s
  else let m := Z.min n (i_size I - off) in
    ∃ s', readi devsw ip off n fuel s = Ret (m, fbytes v (i_addrs I) off m) s' ∧ tx s' i p v ∅ ∧ txframe s s'.
Proof.
  intros Ht HI Hg Hok Hoff Hn Hf. destruct ((i_size I <? off) || (2 ^ 32 <=? off + n)) eqn:E.
  - pose proof Hok as [_ Hty _ _ _]. unfold readi, get_inode. bred. rewrite HI, (proj2 (Z.eqb_neq _ _) Hty).
    apply orb_true_iff in E as [->|E%Z.leb_le]; [done|].
    assert (u32 (off + n) = off + n - 2 ^ 32) as ->.
    { unfold u32. replace (off + n) with (off + n - 2 ^ 32 + 1 * 2 ^ 32) by lia.
      rewrite Z_mod_plus_full, Z.mod_small by lia. lia. }
    assert ((off + n - 2 ^ 32 <? off) = true) as -> by (apply Z.ltb_lt; lia). by rewrite orb_true_r.
  - apply orb_false_iff in E as [?%Z.ltb_ge ?%Z.leb_gt].
    destruct (readi_run devsw s v ip I off n) as (s'&E'&T&F&_); try done; try lia. by exists s'.
Qed.
End read.
