(* ===== verification/Dinode.v ===== *)
(** Inodes on disk, kernel/fs.c: [iupdate] writes the cached inode to its struct
    dinode, [ilock] reads it back.

    [ondisk v sb inum] is inode [inum] on the logical disk [v]. *)

From stdpp Require Import functions base list gmap strings.
From Stdlib Require Import ZArith Lia.
From S2P Require Import Prelude Bytes Monad Kstate Spinlock Sched Bio Log Fs Icache Tx Balloc Inode.

(** * The encoding *)

Definition s16_ok (x : Z) : Prop := - 2 ^ 15 ≤ x < 2 ^ 15.

(** A struct dinode whose members fit their C types. *)
Record dinode_ok (d : dinode) : Prop := mkDiOk {
  dk_type : s16_ok (di_type d);
  dk_major : s16_ok (di_major d);
  dk_minor : s16_ok (di_minor d);
  dk_nlink : s16_ok (di_nlink d);
  dk_size : 0 ≤ di_size d < 2 ^ 32;
  dk_len : length (di_addrs d) = 13%nat;
  dk_addrs k : (k < 13)%nat → 0 ≤ di_addrs d !!! k < 2 ^ 32
}.

Section encoding.
Implicit Types (l bs : list Z) (off o : Z) (d : dinode).

Lemma s16_u16 x : s16_ok x → s16 (u16 x) = x.
Proof.
  unfold s16_ok. intros Hx. unfold s16, swrap, u16. rewrite Z.add_mod_idemp_l by lia.
  rewrite Z.mod_small by lia. lia.
Qed.

Lemma get16_splice_ne off o bs l :
  0 ≤ off → 0 ≤ o → off + 2 ≤ o ∨ o + Z.of_nat (length bs) ≤ off → get16 (splice (Z.to_nat o) bs l) off = get16 l off.
Proof. intros. unfold get16. rewrite slice_splice_ne; [done|]. lia. Qed.

Lemma get32_splice_ne off o bs l :
  0 ≤ off → 0 ≤ o → off + 4 ≤ o ∨ o + Z.of_nat (length bs) ≤ off → get32 (splice (Z.to_nat o) bs l) off = get32 l off.
Proof. intros. unfold get32. rewrite slice_splice_ne; [done|]. lia. Qed.

(** The array of block numbers, as far as entry [n]. *)
Definition put_upto (off : Z) (addrs : list Z) (l : list Z) (n : nat) : list Z :=
  foldl (λ l k, put32 (off + 4 * Z.of_nat k) (addrs !!! k) l) l (seq 0 n).

Lemma put_upto_S off a l n :
  put_upto off a l (S n) = put32 (off + 4 * Z.of_nat n) (a !!! n) (put_upto off a l n).
Proof. unfold put_upto. by rewrite seq_S, foldl_app. Qed.

Lemma length_put_upto off a l n : length (put_upto off a l n) = length l.
Proof. induction n as [|n IH]; [done|]. by rewrite put_upto_S, length_put32. Qed.

Lemma put_upto_at off a l n k :
  0 ≤ off → off + 4 * Z.of_nat n ≤ Z.of_nat (length l) → (k < n)%nat →
  get32 (put_upto off a l n) (off + 4 * Z.of_nat k) = u32 (a !!! k).
Proof.
  intros Ho Hl Hk. induction n as [|n IH]; [lia|]. rewrite put_upto_S.
  destruct (decide (k = n)) as [->|].
  - apply get32_put32; [lia|]. rewrite length_put_upto. lia.
  - rewrite get32_put32_ne by lia. apply IH; lia.
Qed.

Lemma put_upto_out off a l n o c :
  0 ≤ off → 0 ≤ o → (o + Z.of_nat c ≤ off ∨ off + 4 * Z.of_nat n ≤ o) →
  slice (Z.to_nat o) c (put_upto off a l n) = slice (Z.to_nat o) c l.
Proof.
  intros Ho Ho' Hout. induction n as [|n IH]; [done|]. rewrite put_upto_S. unfold put32.
  rewrite slice_splice_ne; [apply IH; lia|]. rewrite length_le_bytes. lia.
Qed.

Lemma put_addrs_upto off a l : put_addrs off a l = put_upto off a l 13.
Proof. done. Qed.

Lemma length_put_dinode off d l : length (put_dinode off d l) = length l.
Proof. unfold put_dinode. by rewrite put_addrs_upto, length_put_upto, !length_put32, !length_put16. Qed.

(** Reading back what was written. *)
Lemma get_put_dinode off d l :
  0 ≤ off → off + 64 ≤ Z.of_nat (length l) → dinode_ok d → get_dinode off (put_dinode off d l) = d.
Proof.
  intros Ho Hl [H1 H2 H3 H4 H5 H6 H7].
  set (l5 := put32 (off + 8) (di_size d) (put16 (off + 6) (di_nlink d) (put16 (off + 4) (di_minor d)
      (put16 (off + 2) (di_major d) (put16 off (di_type d) l))))).
  assert (Hl5 : length l5 = length l) by (unfold l5; by rewrite length_put32, !length_put16).
  assert (E : put_dinode off d l = put_upto (off + 12) (di_addrs d) l5 13) by done.
  assert (H16 : ∀ o, off ≤ o ≤ off + 10 → get16 (put_dinode off d l) o = get16 l5 o).
  { intros o Hx. rewrite E. unfold get16. rewrite put_upto_out; [done|lia|lia|lia]. }
  assert (H32 : get32 (put_dinode off d l) (off + 8) = get32 l5 (off + 8)).
  { rewrite E. unfold get32. rewrite put_upto_out; [done|lia|lia|lia]. }
  unfold get_dinode. rewrite !H16, H32 by lia. destruct d as [ty ma mi nl sz ad];
    cbn [di_type di_major di_minor di_nlink di_size di_addrs] in *. f_equal.
  - unfold l5, put32, put16. rewrite !get16_splice_ne by (rewrite ?length_le_bytes; lia).
    fold (put16 off ty l). rewrite get16_put16 by lia. by apply s16_u16.
  - unfold l5, put32. rewrite get16_splice_ne by (rewrite ?length_le_bytes; lia). unfold put16 at 1 2.
    rewrite !get16_splice_ne by (rewrite ?length_le_bytes; lia).
    rewrite get16_put16 by (rewrite ?length_put16; lia). by apply s16_u16.
  - unfold l5, put32. rewrite get16_splice_ne by (rewrite ?length_le_bytes; lia). unfold put16 at 1.
    rewrite !get16_splice_ne by (rewrite ?length_le_bytes; lia).
    rewrite get16_put16 by (rewrite ?length_put16; lia). by apply s16_u16.
  - unfold l5, put32. rewrite get16_splice_ne by (rewrite ?length_le_bytes; lia).
    rewrite get16_put16 by (rewrite ?length_put16; lia). by apply s16_u16.
  - unfold l5. rewrite get32_put32 by (rewrite ?length_put16; lia). by apply u32_small.
  - apply list_eq_same_length with 13%nat; [done|done|]. intros k x y Hk.
    rewrite list_lookup_fmap, lookup_seq_lt by done. cbn [fmap option_fmap option_map]. intros [= <-] Hy. rewrite E.
    rewrite put_upto_at by lia. apply list_lookup_total_correct in Hy. rewrite Hy. subst y. apply u32_small, H7, Hk.
Qed.

(** Other inodes of the block. *)
Lemma get_put_dinode_ne off o d l :
  0 ≤ off → 0 ≤ o → o + 64 ≤ off ∨ off + 64 ≤ o → get_dinode o (put_dinode off d l) = get_dinode o l.
Proof.
  intros Ho Ho' Hne.
  assert (Hsl : ∀ o' c, o ≤ o' → o' + Z.of_nat c ≤ o + 64 →
    slice (Z.to_nat o') c (put_dinode off d l) = slice (Z.to_nat o') c l).
  { intros o' c H1 H2. unfold put_dinode. rewrite put_addrs_upto, put_upto_out by lia. unfold put32, put16.
    rewrite !slice_splice_ne by (rewrite ?length_le_bytes; lia). done. }
  unfold get_dinode, get16, get32. rewrite !Hsl by lia. f_equal.
  apply list_fmap_ext. intros k x [-> Hk]%lookup_seq. f_equal. apply Hsl; lia.
Qed.
End encoding.

(** * The operations *)

Definition dinode_of (n : inode) : dinode :=
  mkDinode (i_type n) (i_major n) (i_minor n) (i_nlink n) (i_size n) (i_addrs n).
Definition ondisk (v : Z → list Z) (sb : superblock) (inum : Z) : dinode :=
  get_dinode (dinode_off inum) (v (IBLOCK inum sb)).

(** The logical disk with inode [n] stored. *)
Definition store (sb : superblock) (n : inode) (v : Z → list Z) : Z → list Z :=
  <[IBLOCK (i_inum n) sb := put_dinode (dinode_off (i_inum n)) (dinode_of n) (v (IBLOCK (i_inum n) sb))]> v.

Section layout.
Context (sb : superblock) (l : logrec) (nd : Z) (Hg : geometry sb l nd).
Implicit Types (v : Z → list Z) (inum : Z) (n : inode).

Lemma IBLOCK_eq inum : 0 ≤ inum < sb_ninodes sb → IBLOCK inum sb = inum / IPB + sb_inodestart sb.
Proof.
  intros Hi. destruct Hg as [? ? ? ?]. unfold IBLOCK. apply u32_small.
  pose proof (Z.div_pos inum IPB ltac:(lia) ltac:(done)).
  pose proof (Z.div_le_mono inum (sb_ninodes sb) IPB ltac:(done) ltac:(lia)).
  pose proof (Z.div_pos (sb_size sb) BPB ltac:(lia) ltac:(done)). lia.
Qed.

Lemma IBLOCK_range inum : 0 ≤ inum < sb_ninodes sb →
  l_start l + l_size l ≤ IBLOCK inum sb < sb_bmapstart sb ∧ home l nd (IBLOCK inum sb).
Proof.
  intros Hi. rewrite IBLOCK_eq by done. destruct Hg as [? ? ? ?].
  pose proof (Z.div_pos inum IPB ltac:(lia) ltac:(done)).
  pose proof (Z.div_le_mono inum (sb_ninodes sb) IPB ltac:(done) ltac:(lia)).
  pose proof (Z.div_pos (sb_size sb) BPB ltac:(lia) ltac:(done)). unfold home. lia.
Qed.

Lemma dinode_off_range inum : 0 ≤ inum → 0 ≤ dinode_off inum ∧ dinode_off inum + 64 ≤ BSIZE.
Proof.
  intros Hi. unfold dinode_off. pose proof (Z.mod_pos_bound inum IPB ltac:(done)).
  assert (IPB = 8 ∧ BSIZE = 512) as [E1 E2] by done. rewrite E1, E2 in *. lia.
Qed.

Lemma ondisk_store v n :
  0 ≤ i_inum n → length (v (IBLOCK (i_inum n) sb)) = Z.to_nat BSIZE → dinode_ok (dinode_of n) →
  ondisk (store sb n v) sb (i_inum n) = dinode_of n.
Proof.
  intros Hi Hl Hd. unfold ondisk, store. rewrite fn_lookup_insert. pose proof (dinode_off_range _ Hi).
  apply get_put_dinode; [lia|lia|done].
Qed.

Lemma ondisk_store_ne v n inum :
  0 ≤ i_inum n < sb_ninodes sb → 0 ≤ inum < sb_ninodes sb → inum ≠ i_inum n →
  ondisk (store sb n v) sb inum = ondisk v sb inum.
Proof.
  intros Hi Hj Hne. unfold ondisk, store.
  destruct (decide (IBLOCK (i_inum n) sb = IBLOCK inum sb)) as [E|E]; [|by rewrite fn_lookup_insert_ne].
  rewrite E, fn_lookup_insert. rewrite !IBLOCK_eq in E by done.
  pose proof (Z.div_mod inum IPB ltac:(done)). pose proof (Z.div_mod (i_inum n) IPB ltac:(done)).
  pose proof (Z.mod_pos_bound inum IPB ltac:(done)). pose proof (Z.mod_pos_bound (i_inum n) IPB ltac:(done)).
  apply get_put_dinode_ne; unfold dinode_off; lia.
Qed.

Lemma store_other v n x : 0 ≤ i_inum n < sb_ninodes sb → sb_bmapstart sb ≤ x → store sb n v x = v x.
Proof.
  intros Hi Hx. unfold store. rewrite fn_lookup_insert_ne; [done|]. destruct (IBLOCK_range _ Hi). lia.
Qed.
End layout.

Lemma tx_set_ic s i p v h x : tx s i p v h → tx (set_ic x s) i p v h.
Proof. intros [? ? [] ? ?]. by split. Qed.

Lemma txframe_set_ic s s' x : txframe s s' → txframe (set_ic x s) (set_ic x s').
Proof. intros ([]&?&?&?&?). split_and!; try done. Qed.

Section run.
Context (i p fuel : nat) (Hfuel : (NBUF < fuel)%nat).
Implicit Types (s : kstate) (v : Z → list Z) (n : inode) (ip : nat).

Lemma iupdate_run s v ip n :
  tx s i p v ∅ → k_ic s !!! ip = n → i_dev n = 1 → fs_geometry s → 0 ≤ i_inum n < sb_ninodes (k_sb s) →
  1 ≤ budget s →
  ∃ s', iupdate ip fuel s = Ret tt s' ∧ tx s' i p (store (k_sb s) n v) ∅ ∧ txframe s s' ∧
    pinned (k_log s') = {[IBLOCK (i_inum n) (k_sb s)]} ∪ pinned (k_log s).
Proof.
  intros T Hn Hdev Hg Hi Hb. destruct (IBLOCK_range _ _ _ Hg _ Hi) as [_ Hh].
  destruct (tx_modify i p fuel Hfuel s v ∅ (IBLOCK (i_inum n) (k_sb s))
    (put_dinode (dinode_off (i_inum n)) (dinode_of n)) T Hh) as (s'&E&T'&F&P); try done.
  - rewrite dom_empty_L, size_empty. lia.
  - rewrite length_put_dinode. by eapply tx_block_length, Hh.
  - exists s'. unfold iupdate, get_inode, getsb. do 4 mred1. rewrite Hn, Hdev. by split_and!.
Qed.

(** The inode as [ilock] leaves it, holder's pid [pid]. *)
Definition locked_by (pid : Z) (n : inode) : inode := inode_set_lock (mkSleep 1 (slk_name (i_lock n)) pid) n.
Definition loaded v sb (n : inode) : inode :=
  if i_valid n =? 0 then inode_set_valid 1 (inode_load (ondisk v sb (i_inum n)) n) else n.

Lemma ilock_run s v ip n :
  let n1 := locked_by (pid_of s p) n in let n' := loaded v (k_sb s) n1 in
  tx s i p v ∅ → (ip < NINODE)%nat → k_ic s !! ip = Some n → i_dev n = 1 → 1 ≤ i_ref n →
  slk_locked (i_lock n) = 0 → fs_geometry s → 0 ≤ i_inum n < sb_ninodes (k_sb s) →
  (i_valid n = 0 ∧ di_type (ondisk v (k_sb s) (i_inum n)) = 0 ∧
     ∃ s', ilock (Some ip) fuel s = Panic "ilock: no type" s') ∨
  ((i_valid n = 0 → di_type (ondisk v (k_sb s) (i_inum n)) ≠ 0) ∧
     ∃ s', ilock (Some ip) fuel s = Ret tt s' ∧ k_ic s' = <[ip := n']> (k_ic s) ∧ tx s' i p v ∅ ∧
       txframe (set_ic (k_ic s') s) s' ∧ k_log s' = k_log s).
Proof.
  intros n1 n' T Hip Hn Hdev Href Hl Hg Hi. pose proof (tx_ready _ _ _ _ _ T) as [Hth Hfree].
  pose proof (list_lookup_total_correct _ _ _ Hn) as Hn'. pose proof (lookup_lt_Some _ _ _ Hn) as Hlt.
  unfold ilock, get_inode. do 2 mred1. rewrite Hn'. rewrite (proj2 (Z.ltb_ge _ _)) by lia.
  erewrite run_bind by (apply (acquiresleep_run _ s i p (SlInode ip)); [done|by apply Hfree|by simpl; rewrite Hn'|lia]).
  simpl sl_of. rewrite Hn'. fold (pid_of s p). simpl set_sl.
  set (s1 := set_ic (alter _ ip (k_ic s)) s).
  assert (E1 : k_ic s1 = <[ip := n1]> (k_ic s)).
  { simpl. by rewrite (alter_insert_at _ _ _ n). }
  assert (T1 : tx s1 i p v ∅) by (by apply tx_set_ic).
  do 2 mred1. rewrite E1, list_lookup_total_insert_eq by done.
  change (i_valid n1) with (i_valid n). unfold n', loaded. change (i_valid n1) with (i_valid n).
  destruct (Z.eqb_spec (i_valid n) 0) as [H0|H0].
  2:{ right. split; [done|]. exists s1. bred. split_and!; try done. apply txframe_refl. }
  destruct (IBLOCK_range _ _ _ Hg _ Hi) as [_ Hh].
  pose proof (budget_pos _ _ _ _ _ T1) as Hbud.
  destruct (tx_look i p fuel Hfuel s1 v ∅ (IBLOCK (i_inum n) (k_sb s)) T1) as (b&s2&E2&T2&F2&L2&D2);
    [apply Hh|done|rewrite dom_empty_L, size_empty; lia|].
  unfold getsb. bred. change (k_sb s1) with (k_sb s). change (i_inum n1) with (i_inum n).
  change (i_dev n1) with (i_dev n). rewrite Hdev, E2. bred. rewrite D2. unfold upd_inode. bred.
  fold (ondisk v (k_sb s) (i_inum n)). set (d := ondisk v (k_sb s) (i_inum n)).
  rewrite (txframe_ic _ _ F2), E1, (alter_insert_at _ _ _ n1) by (by apply list_lookup_insert_eq).
  rewrite list_insert_insert_eq. set (s2' := set_ic _ s2).
  destruct (tx_brelse i p fuel Hfuel s2' v _ (IBLOCK (i_inum n) (k_sb s)) b (tx_set_ic _ _ _ _ _ _ T2))
    as (s3&E3&T3&F3&L3); [apply lookup_insert_eq|]. rewrite delete_insert_id in T3 by done.
  rewrite E3. bred. rewrite (txframe_ic _ _ F3).
  change (k_ic s2') with (<[ip := inode_load d n1]> (k_ic s)).
  rewrite (alter_insert_at _ _ _ (inode_load d n1)) by (by apply list_lookup_insert_eq).
  rewrite list_insert_insert_eq. set (l' := <[ip := _]> (k_ic s)). change (k_ic (set_ic l' s3)) with l'. unfold l' at 1 3. rewrite list_lookup_total_insert_eq by done.
  change (i_type (inode_set_valid 1 (inode_load d n1))) with (di_type d).
  destruct (Z.eqb_spec (di_type d) 0) as [Hd|Hd]; [left; split_and!; [done|done|by eexists]|right].
  split; [done|]. eexists. split; [done|]. split; [done|]. split; [by apply tx_set_ic|]. split; [|exact (eq_trans L3 L2)].
  eapply txframe_trans; [exact (txframe_set_ic s1 s2 _ F2)|exact (txframe_set_ic s2' s3 _ F3)].
Qed.


(** What [iupdate] writes is what [ilock] reads: through a second cache entry,
    the inode has the type, device numbers, link count, size and blocks it was
    stored with. *)
Theorem iupdate_ilock s v ip n :
  tx s i p v ∅ → k_ic s !!! ip = n → i_dev n = 1 → fs_geometry s → 0 ≤ i_inum n < sb_ninodes (k_sb s) →
  1 ≤ budget s → dinode_ok (dinode_of n) → i_type n ≠ 0 →
  ∃ s1, iupdate ip fuel s = Ret tt s1 ∧
    ∀ jp m, (jp < NINODE)%nat → k_ic s !! jp = Some m → i_dev m = 1 → i_inum m = i_inum n → i_valid m = 0 →
      1 ≤ i_ref m → slk_locked (i_lock m) = 0 →
      ∃ s2, ilock (Some jp) fuel s1 = Ret tt s2 ∧ dinode_of (k_ic s2 !!! jp) = dinode_of n ∧
        i_valid (k_ic s2 !!! jp) = 1.
Proof.
  intros T Hn Hdev Hg Hi Hb Hd Hty. destruct (iupdate_run s v ip n) as (s1&E1&T1&F1&_); try done.
  exists s1. split; [done|]. intros jp m Hjp Hm Hdm Him Hvm Hrm Hlm.
  pose proof (txframe_sb _ _ F1) as Es. pose proof (txframe_ic _ _ F1) as Ei.
  assert (Hod : ondisk (store (k_sb s) n v) (k_sb s1) (i_inum m) = dinode_of n).
  { rewrite Es, Him. apply ondisk_store; [lia| |done]. eapply tx_block_length; [done|].
    destruct (IBLOCK_range _ _ _ Hg _ Hi) as [_ [? _]]. done. }
  destruct (ilock_run s1 (store (k_sb s) n v) jp m) as [(_&H0&_)|(_&s2&E2&C2&_)]; rewrite ?Es, ?Ei, ?Him; try done.
  - by eapply txframe_geometry.
  - by rewrite Hod in H0.
  - exists s2. split; [done|]. rewrite C2, Ei, list_lookup_total_insert_eq by (by eapply lookup_lt_Some).
    unfold loaded. change (i_valid (locked_by _ m)) with (i_valid m). rewrite Hvm. simpl.
    change (i_inum (locked_by _ m)) with (i_inum m). rewrite Hod. by destruct n.
Qed.
End run.
