(* ===== verification/Writei.v ===== *)
(** [writei] of kernel/fs.c: a file grows and changes as an array of bytes.

    [file_step sb v a v' a' off src] is the contract: from the logical disk [v]
    and block list [a] to [v'] and [a'], the bytes at [off] become [src], every
    other byte of the file is kept, and so is every block in use that the file
    does not own. Allocating a block and changing part of a block are such
    steps, and steps compose. *)

From stdpp Require Import functions base list gmap strings.
From Stdlib Require Import ZArith Lia.
From S2P Require Import Prelude Bytes Monad Kstate Spinlock Sched Bio Log Fs Icache Tx Balloc Inode Dinode.

(** * The contract *)

Definition owns (v : Z → list Z) (addrs : list Z) (x : Z) : Prop :=
  ∃ j, -1 ≤ j < MAXFILE ∧ slot v addrs j = x.

Record file_step (sb : superblock) (v : Z → list Z) (a : list Z) (v' : Z → list Z) (a' : list Z)
    (off : Z) (src : list Z) : Prop := mkStep {
  fs_ok : file_ok v' sb a';
  fs_slot j : -1 ≤ j < MAXFILE → slot v a j ≠ 0 → slot v' a' j = slot v a j;
  fs_new k : off ≤ k < off + Z.of_nat (length src) →
    faddr v' a' (k / BSIZE) ≠ 0 ∧ fbyte v' a' k = src !!! Z.to_nat (k - off);
  fs_old k : 0 ≤ k < BSIZE * MAXFILE → ¬ (off ≤ k < off + Z.of_nat (length src)) →
    faddr v a (k / BSIZE) ≠ 0 → fbyte v' a' k = fbyte v a k;
  fs_used x : 0 ≤ x < sb_size sb → free v sb x = false → free v' sb x = false;
  fs_other x : data_start sb ≤ x < sb_size sb → free v sb x = false → ¬ owns v a x →
    v' x = v x ∧ ¬ owns v' a' x;
  fs_meta x : x < sb_bmapstart sb → v' x = v x
}.

(** At least [n] blocks are free. *)
Definition enough_free (v : Z → list Z) (sb : superblock) (n : nat) : Prop :=
  ∃ X : gset Z, (n ≤ size X)%nat ∧ ∀ x, x ∈ X → 0 ≤ x < sb_size sb ∧ free v sb x = true.

Section steps.
Context (sb : superblock) (l : logrec) (nd : Z) (Hg : geometry sb l nd).
Implicit Types (v : Z → list Z) (a : list Z) (off k x j : Z).

Lemma file_block k : 0 ≤ k < BSIZE * MAXFILE → 0 ≤ k / BSIZE < MAXFILE.
Proof.
  intros Hk. split; [by apply Z.div_pos; [lia|]|]. apply Z.div_lt_upper_bound; [done|lia].
Qed.

Lemma file_step_refl v a off : file_ok v sb a → file_step sb v a v a off [].
Proof. intros. split; try done. intros k Hk. simpl in Hk. lia. Qed.

Lemma file_step_trans v a v1 a1 v2 a2 off w1 w2 :
  0 ≤ off → off + Z.of_nat (length (w1 ++ w2)) ≤ BSIZE * MAXFILE →
  file_step sb v a v1 a1 off w1 → file_step sb v1 a1 v2 a2 (off + Z.of_nat (length w1)) w2 →
  file_step sb v a v2 a2 off (w1 ++ w2).
Proof.
  intros Ho Hlen S1 S2. rewrite length_app, Nat2Z.inj_add in Hlen.
  assert (Hf : ∀ k, 0 ≤ k < BSIZE * MAXFILE → faddr v a (k / BSIZE) ≠ 0 →
    faddr v1 a1 (k / BSIZE) = faddr v a (k / BSIZE)).
  { intros k Hk%file_block. rewrite <- !slot_faddr by lia. apply (fs_slot _ _ _ _ _ _ _ S1). lia. }
  split.
  - apply S2.
  - intros j Hj Hn. rewrite <- (fs_slot _ _ _ _ _ _ _ S1 j Hj Hn). apply (fs_slot _ _ _ _ _ _ _ S2 j Hj).
    by rewrite (fs_slot _ _ _ _ _ _ _ S1 j Hj Hn).
  - intros k. rewrite length_app, Nat2Z.inj_add. intros Hk.
    destruct (decide (k < off + Z.of_nat (length w1))).
    + destruct (fs_new _ _ _ _ _ _ _ S1 k ltac:(lia)) as [Hn E].
      rewrite (fs_old _ _ _ _ _ _ _ S2) by (done || lia). rewrite E, lookup_total_app_l by lia.
      split; [|done]. pose proof (file_block k ltac:(lia)).
      rewrite <- slot_faddr in * by lia. by rewrite (fs_slot _ _ _ _ _ _ _ S2) by (done || lia).
    + destruct (fs_new _ _ _ _ _ _ _ S2 k ltac:(lia)) as [Hn E]. split; [done|]. rewrite E.
      rewrite lookup_total_app_r by lia. f_equal. lia.
  - intros k Hk. rewrite length_app, Nat2Z.inj_add. intros Hout Hn.
    rewrite (fs_old _ _ _ _ _ _ _ S2), (fs_old _ _ _ _ _ _ _ S1); try done; try lia. by rewrite Hf.
  - intros x Hx Hu. by apply (fs_used _ _ _ _ _ _ _ S2), (fs_used _ _ _ _ _ _ _ S1).
  - intros x Hx Hu Hno. destruct (fs_other _ _ _ _ _ _ _ S1 x Hx Hu Hno) as [E Hno1].
    destruct (fs_other _ _ _ _ _ _ _ S2 x Hx) as [E2 Hno2]; [|done|by rewrite E2].
    apply (fs_used _ _ _ _ _ _ _ S1); [|done]. pose proof (data_start_pos _ _ _ Hg). lia.
  - intros x Hx. by rewrite (fs_meta _ _ _ _ _ _ _ S2), (fs_meta _ _ _ _ _ _ _ S1).
Qed.

(** A fresh block put in an empty slot. *)
Lemma take_step v a v' a' off j b :
  file_ok v sb a → data_start sb ≤ b < sb_size sb → free v sb b = true → -1 ≤ j < MAXFILE →
  slot v a j = 0 → length a' = 13%nat →
  (∀ j', -1 ≤ j' < MAXFILE → slot v' a' j' = if decide (j' = j) then b else slot v a j') →
  (∀ x, 0 ≤ x < sb_size sb → free v' sb x = if decide (x = b) then false else free v sb x) →
  (∀ x, data_start sb ≤ x < sb_size sb → free v sb x = false → x ≠ ind a → v' x = v x) →
  (∀ x, x < sb_bmapstart sb → v' x = v x) →
  file_step sb v a v' a' off [].
Proof.
  intros Hok Hb Hf Hj Hj0 Hlen Hs Hfree Hkeep Hmeta. pose proof (data_start_pos _ _ _ Hg) as Hpos.
  assert (Hne : ∀ j', -1 ≤ j' < MAXFILE → slot v a j' ≠ b).
  { intros j' Hj' E. destruct (fo_slot _ _ _ Hok j' Hj') as [_ Hu]; [lia|]. congruence. }
  assert (Hsame : ∀ j', -1 ≤ j' < MAXFILE → slot v a j' ≠ 0 → slot v' a' j' = slot v a j').
  { intros j' Hj' Hn. rewrite Hs by done. case_decide; congruence. }
  split; try done.
  - split; [done|..].
    + intros j' Hj'. rewrite Hs by done. case_decide; [intros _; split; [done|]|].
      * rewrite Hfree by lia. by rewrite decide_True.
      * intros Hn. destruct (fo_slot _ _ _ Hok j' Hj' Hn) as [Hr Hu]. split; [done|].
        rewrite Hfree by lia. rewrite decide_False; [done|]. by apply Hne.
    + intros j1 j2 H1 H2. rewrite !Hs by done. repeat case_decide; subst; try done.
      * intros _ E. symmetry in E. by apply Hne in E.
      * intros _ E. by apply Hne in E.
      * by apply (fo_inj _ _ _ Hok).
  - intros k ?. simpl in *. lia.
  - intros k Hk _ Hn. pose proof (file_block k Hk) as Hbk. unfold fbyte.
    destruct (fo_used _ _ _ Hok (k / BSIZE) Hbk Hn) as [Hr Hu].
    rewrite <- (slot_faddr v' a'), Hsame, slot_faddr by (rewrite ?slot_faddr by lia; done || lia).
    rewrite Hkeep; [done|done|done|]. by eapply fo_ind_ne.
  - intros x Hx Hu. rewrite Hfree by done. by case_decide.
  - intros x Hx Hu Hno. split.
    + apply Hkeep; [done|done|]. intros ->. apply Hno. exists (-1). split; [done|done].
    + intros (j'&Hj'&E). rewrite Hs in E by done. case_decide; [congruence|]. apply Hno. by exists j'.
Qed.

(** What taking a free block leaves alone. *)
Lemma take_keep v b x :
  data_start sb ≤ b < sb_size sb → free v sb b = true → data_start sb ≤ x → free v sb x = false →
  take_block sb b v x = v x.
Proof.
  intros Hb Hf Hx Hu. pose proof (data_start_pos _ _ _ Hg). pose proof (BBLOCK_range _ _ _ Hg b ltac:(lia)).
  unfold take_block. rewrite !fn_lookup_insert_ne; [done|lia|]. intros ->. congruence.
Qed.

Lemma take_meta v b x : data_start sb ≤ b < sb_size sb → x < sb_bmapstart sb → take_block sb b v x = v x.
Proof.
  intros Hb Hx. pose proof (data_start_pos _ _ _ Hg). pose proof (BBLOCK_eq _ _ _ Hg b ltac:(lia)) as E.
  pose proof (Z.div_pos b BPB ltac:(lia) ltac:(done)). pose proof (Z.div_pos (sb_size sb) BPB).
  pose proof (g_bm _ _ _ Hg). unfold data_start in Hb. assert (0 < BPB) by done.
  unfold take_block. rewrite !fn_lookup_insert_ne; [done|lia|lia].
Qed.

Lemma take_new v b : take_block sb b v b = replicate (Z.to_nat BSIZE) 0.
Proof. unfold take_block. by rewrite fn_lookup_insert. Qed.

Lemma take_ind v a b :
  file_ok v sb a → data_start sb ≤ b < sb_size sb → free v sb b = true → ind a ≠ 0 →
  take_block sb b v (ind a) = v (ind a).
Proof. intros Hok Hb Hf Hi. destruct (fo_ind _ _ _ Hok Hi) as [Hr Hu]. apply take_keep; [done|done|lia|done]. Qed.

Lemma take_faddr v a b j :
  file_ok v sb a → data_start sb ≤ b < sb_size sb → free v sb b = true →
  faddr (take_block sb b v) a j = faddr v a j.
Proof.
  intros Hok Hb Hf. unfold faddr. case_match; [done|]. case_match eqn:Hi; [done|].
  apply Z.eqb_neq in Hi. by rewrite take_ind.
Qed.

Lemma ind_insert a j b : 0 ≤ j < NDIRECT → ind (<[Z.to_nat j := b]> a) = ind a.
Proof. intros. unfold ind, NDIRECT in *. apply list_lookup_total_insert_ne. lia. Qed.

(** The three places for a fresh block: what the file holds after it is put
    there. *)
Lemma direct_slots v a j b j' :
  file_ok v sb a → data_start sb ≤ b < sb_size sb → free v sb b = true → 0 ≤ j < NDIRECT → -1 ≤ j' < MAXFILE →
  slot (take_block sb b v) (<[Z.to_nat j := b]> a) j' = if decide (j' = j) then b else slot v a j'.
Proof.
  intros Hok Hb Hf Hj Hj'. pose proof (fo_len _ _ _ Hok) as Hlen. unfold slot. rewrite ind_insert by done. destruct (Z.ltb_spec j' 0).
  { by rewrite decide_False by lia. }
  rewrite <- (take_faddr v a b j') by done. unfold faddr. rewrite ind_insert by done.
  case_decide as E.
  + subst j'. rewrite (proj2 (Z.ltb_lt _ _)) by lia. apply list_lookup_total_insert_eq. unfold NDIRECT in *; lia.
  + case_match; [|done]. apply list_lookup_total_insert_ne. lia.
Qed.

Lemma direct_step v a off j b :
  length (v (BBLOCK b sb)) = Z.to_nat BSIZE →
  file_ok v sb a → data_start sb ≤ b < sb_size sb → free v sb b = true → 0 ≤ j < NDIRECT → faddr v a j = 0 →
  file_step sb v a (take_block sb b v) (<[Z.to_nat j := b]> a) off [].
Proof.
  intros Hl Hok Hb Hf Hj Hj0. pose proof (fo_len _ _ _ Hok) as Hlen. assert (NDIRECT < MAXFILE) by done.
  apply (take_step _ _ _ _ _ j b); try done; try lia.
  - by rewrite slot_faddr by lia.
  - by rewrite length_insert.
  - intros j' Hj'. by apply direct_slots.
  - intros x Hx. by apply (free_take _ _ _ Hg).
  - intros x Hx Hu _. apply take_keep; [done|done|lia|done].
  - intros x Hx. by apply take_meta.
Qed.

Lemma get32_zeros n off : 0 ≤ off → off + 4 ≤ Z.of_nat n → get32 (replicate n 0) off = 0.
Proof.
  intros. unfold get32, slice. rewrite drop_replicate, take_replicate.
  replace (4 `min` (n - Z.to_nat off))%nat with 4%nat by lia. done.
Qed.

Lemma entry_range j : NDIRECT ≤ j < MAXFILE → 0 ≤ 4 * (j - NDIRECT) ∧ 4 * (j - NDIRECT) + 4 ≤ BSIZE.
Proof. assert (NDIRECT = 12 ∧ MAXFILE = 140 ∧ BSIZE = 512) as (->&->&->) by done. lia. Qed.

Lemma ind_faddr v a b j :
  file_ok v sb a → data_start sb ≤ b < sb_size sb → ind a = 0 → 0 ≤ j < MAXFILE →
  faddr (take_block sb b v) (<[Z.to_nat NDIRECT := b]> a) j = faddr v a j.
Proof.
  intros Hok Hb Hi Hj. pose proof (fo_len _ _ _ Hok) as Hlen. pose proof (data_start_pos _ _ _ Hg).
  assert (Hind : ind (<[Z.to_nat NDIRECT := b]> a) = b).
  { unfold ind. apply list_lookup_total_insert_eq. rewrite Hlen. unfold NDIRECT. lia. }
  unfold faddr. rewrite Hind, Hi, Z.eqb_refl.
  destruct (Z.ltb_spec j NDIRECT); [apply list_lookup_total_insert_ne; unfold NDIRECT in *; lia|].
  rewrite (proj2 (Z.eqb_neq b 0)) by lia. rewrite take_new. pose proof (entry_range j ltac:(lia)).
  apply get32_zeros; lia.
Qed.

Lemma ind_slots v a b j' :
  file_ok v sb a → data_start sb ≤ b < sb_size sb → ind a = 0 → -1 ≤ j' < MAXFILE →
  slot (take_block sb b v) (<[Z.to_nat NDIRECT := b]> a) j' = if decide (j' = -1) then b else slot v a j'.
Proof.
  intros Hok Hb Hi Hj'. pose proof (fo_len _ _ _ Hok) as Hlen.
  assert (Hind : ind (<[Z.to_nat NDIRECT := b]> a) = b).
  { unfold ind. apply list_lookup_total_insert_eq. rewrite Hlen. unfold NDIRECT. lia. }
  unfold slot. rewrite Hind. destruct (Z.ltb_spec j' 0).
  { by rewrite decide_True by lia. }
  rewrite decide_False by lia. by apply ind_faddr; [..|lia].
Qed.

Lemma ind_step v a off b :
  length (v (BBLOCK b sb)) = Z.to_nat BSIZE →
  file_ok v sb a → data_start sb ≤ b < sb_size sb → free v sb b = true → ind a = 0 →
  file_step sb v a (take_block sb b v) (<[Z.to_nat NDIRECT := b]> a) off [].
Proof.
  intros Hl Hok Hb Hf Hi. pose proof (fo_len _ _ _ Hok) as Hlen.
  apply (take_step _ _ _ _ _ (-1) b); try done.
  - by rewrite length_insert.
  - intros j' Hj'. by apply ind_slots.
  - intros x Hx. by apply (free_take _ _ _ Hg).
  - intros x Hx Hu _. apply take_keep; [done|done|lia|done].
  - intros x Hx. by apply take_meta.
Qed.

(** The indirect block with entry [j] set. *)
Definition set_entry (a : list Z) (j b : Z) (v : Z → list Z) : Z → list Z :=
  <[ind a := put32 (4 * (j - NDIRECT)) b (v (ind a))]> v.

Lemma faddr_entry v a j b :
  ind a ≠ 0 → NDIRECT ≤ j < MAXFILE → length (v (ind a)) = Z.to_nat BSIZE → 0 ≤ b < sb_size sb →
  faddr (set_entry a j b v) a j = b.
Proof.
  intros Hi Hj Hl Hb. pose proof (entry_range j Hj). pose proof (g_nd _ _ _ Hg). unfold faddr, set_entry.
  rewrite (proj2 (Z.ltb_ge _ _)), (proj2 (Z.eqb_neq _ _) Hi), fn_lookup_insert by lia.
  rewrite get32_put32 by (rewrite ?Hl; lia). apply u32_small. lia.
Qed.

Lemma entry_slots v a j b j' :
  length (v (ind a)) = Z.to_nat BSIZE →
  file_ok v sb a → data_start sb ≤ b < sb_size sb → free v sb b = true → NDIRECT ≤ j < MAXFILE → ind a ≠ 0 →
  -1 ≤ j' < MAXFILE →
  slot (set_entry a j b (take_block sb b v)) a j' = if decide (j' = j) then b else slot v a j'.
Proof.
  intros Hli Hok Hb Hf Hj Hi Hj'. pose proof (data_start_pos _ _ _ Hg) as Hpos. pose proof (entry_range j Hj) as He. assert (0 ≤ NDIRECT) by done.
  unfold slot. destruct (Z.ltb_spec j' 0); [by rewrite decide_False by lia|].
  case_decide as E.
  { subst j'. apply faddr_entry; try done; [|lia]. by rewrite take_ind. }
  rewrite <- (take_faddr v a b j') by done. unfold faddr, set_entry. rewrite fn_lookup_insert.
  rewrite (take_ind v a b) by done. rewrite (proj2 (Z.eqb_neq _ _) Hi). destruct (Z.ltb_spec j' NDIRECT); [done|].
  apply get32_put32_ne; lia.
Qed.

Lemma entry_step v a off j b :
  length (v (BBLOCK b sb)) = Z.to_nat BSIZE → length (v (ind a)) = Z.to_nat BSIZE →
  file_ok v sb a → data_start sb ≤ b < sb_size sb → free v sb b = true → NDIRECT ≤ j < MAXFILE → ind a ≠ 0 →
  faddr v a j = 0 →
  file_step sb v a (set_entry a j b (take_block sb b v)) a off [].
Proof.
  intros Hl Hli Hok Hb Hf Hj Hi Hj0. pose proof (data_start_pos _ _ _ Hg) as Hpos.
  destruct (fo_ind _ _ _ Hok Hi) as [Hr Hu]. pose proof (entry_range j Hj) as He. pose proof (g_nd _ _ _ Hg).
  assert (0 ≤ NDIRECT) by done.
  apply (take_step _ _ _ _ _ j b); try done; try lia.
  - by rewrite slot_faddr by lia.
  - apply Hok.
  - intros j' Hj'. by apply entry_slots.
  - intros x Hx. unfold set_entry. rewrite (free_data _ _ _ Hg) by (done || lia). by apply (free_take _ _ _ Hg).
  - intros x Hx Hux Hne. unfold set_entry. rewrite fn_lookup_insert_ne by done.
    apply take_keep; [done|done|lia|done].
  - intros x Hx. unfold set_entry. rewrite fn_lookup_insert_ne; [by apply take_meta|].
    unfold data_start in Hr. pose proof (Z.div_pos (sb_size sb) BPB). pose proof (g_bm _ _ _ Hg).
    assert (0 < BPB) by done. lia.
Qed.

Lemma splice_in (o m : nat) (w bs : list Z) :
  (m < length w)%nat → (o + length w ≤ length bs)%nat → splice o w bs !!! (o + m)%nat = w !!! m.
Proof.
  intros Hm Hl. rewrite !list_lookup_total_alt. unfold splice. rewrite list_lookup_inserts by lia.
  by replace (o + m - o)%nat with m by lia.
Qed.

Lemma splice_out (o m : nat) (w bs : list Z) :
  (m < o ∨ o + length w ≤ m)%nat → splice o w bs !!! m = bs !!! m.
Proof.
  intros [H|H]; rewrite !list_lookup_total_alt; unfold splice;
    [by rewrite list_lookup_inserts_lt by lia|by rewrite list_lookup_inserts_ge by lia].
Qed.

(** Part of a block of the file overwritten. *)
Lemma byte_step v a off w :
  let b := faddr v a (off / BSIZE) in
  file_ok v sb a → 0 ≤ off < BSIZE * MAXFILE → b ≠ 0 → length (v b) = Z.to_nat BSIZE →
  off mod BSIZE + Z.of_nat (length w) ≤ BSIZE →
  file_step sb v a (<[b := splice (Z.to_nat (off mod BSIZE)) w (v b)]> v) a off w.
Proof.
  intros b Hok Ho Hb Hlen Hw. set (v' := <[b := _]> v).
  pose proof (file_block off Ho) as Hbk. pose proof (Z.mod_pos_bound off BSIZE ltac:(done)) as Hm.
  pose proof (Z.div_mod off BSIZE ltac:(done)) as Hdm.
  destruct (fo_used _ _ _ Hok _ Hbk Hb) as [Hr Hu]. fold b in Hr, Hu.
  pose proof (fo_ind_ne _ _ _ Hok _ Hbk Hb) as Hne. fold b in Hne.
  assert (Hslot : ∀ j, slot v' a j = slot v a j).
  { intros j. unfold slot, faddr, v'. by rewrite fn_lookup_insert_ne. }
  assert (Hfa : ∀ j, faddr v' a j = faddr v a j).
  { intros j. unfold faddr, v'. by rewrite fn_lookup_insert_ne. }
  assert (Hfree : ∀ x, 0 ≤ x < sb_size sb → free v' sb x = free v sb x).
  { intros x Hx. by apply (free_data _ _ _ Hg); [lia|]. }
  pose proof (data_start_pos _ _ _ Hg).
  split.
  - split; [apply Hok|..].
    + intros j Hj. rewrite Hslot. intros Hn. destruct (fo_slot _ _ _ Hok j Hj Hn). by rewrite Hfree by lia.
    + intros j1 j2. rewrite !Hslot. apply (fo_inj _ _ _ Hok).
  - intros j _ _. apply Hslot.
  - intros k Hk. assert (k / BSIZE = off / BSIZE ∧ k mod BSIZE = off mod BSIZE + (k - off)) as [E1 E2].
    { assert (k = off mod BSIZE + (k - off) + off / BSIZE * BSIZE) as E by lia. rewrite E at 1 2.
      rewrite Z.div_add, Z_mod_plus_full, Z.div_small, Z.mod_small by (done || lia). lia. }
    rewrite Hfa, E1. split; [done|]. unfold fbyte. rewrite Hfa, E1, E2. fold b. unfold v'.
    rewrite fn_lookup_insert, Z2Nat.inj_add by lia. apply splice_in; [lia|]. rewrite Hlen. lia.
  - intros k Hk Hout Hn. unfold fbyte. rewrite Hfa. destruct (decide (faddr v a (k / BSIZE) = b)) as [E|E].
    + assert (k / BSIZE = off / BSIZE) as Eb.
      { pose proof (file_block k Hk). apply (fo_inj _ _ _ Hok); rewrite ?slot_faddr by lia; try done; lia. }
      rewrite E. unfold v'. rewrite fn_lookup_insert. pose proof (Z.div_mod k BSIZE ltac:(done)).
      pose proof (Z.mod_pos_bound k BSIZE ltac:(done)). rewrite Eb in *. apply splice_out. lia.
    + unfold v'. by rewrite fn_lookup_insert_ne by done.
  - intros x Hx. by rewrite Hfree.
  - intros x Hx Hux Hno. split.
    + unfold v'. rewrite fn_lookup_insert_ne; [done|]. intros <-. apply Hno. exists (off / BSIZE).
      rewrite slot_faddr by lia. split; [lia|done].
    + intros (j&Hj&E). rewrite Hslot in E. apply Hno. by exists j.
  - intros x Hx. unfold v'. rewrite fn_lookup_insert_ne; [done|]. unfold data_start in Hr.
    pose proof (Z.div_pos (sb_size sb) BPB). pose proof (g_bm _ _ _ Hg). assert (0 < BPB) by done. lia.
Qed.

(** Free blocks and the metadata through these steps. *)
Lemma meta_take v b :
  length (v (BBLOCK b sb)) = Z.to_nat BSIZE → data_start sb ≤ b < sb_size sb → meta_used v sb →
  meta_used (take_block sb b v) sb.
Proof.
  intros Hl Hb Hm x Hx. pose proof (g_bm _ _ _ Hg). unfold data_start in *.
  rewrite (free_take _ _ _ Hg) by (done || unfold data_start; lia). by case_decide; [|apply Hm].
Qed.

Lemma meta_data v b w : data_start sb ≤ b → meta_used v sb → meta_used (<[b := w]> v) sb.
Proof.
  intros Hb Hm x Hx. pose proof (g_bm _ _ _ Hg). unfold data_start in *.
  rewrite (free_data _ _ _ Hg) by (unfold data_start; lia). by apply Hm.
Qed.

Lemma enough_take v b n :
  length (v (BBLOCK b sb)) = Z.to_nat BSIZE → data_start sb ≤ b < sb_size sb →
  enough_free v sb (S n) → enough_free (take_block sb b v) sb n.
Proof.
  intros Hl Hb (X&HX&HF). exists (X ∖ {[b]}). split.
  - pose proof (size_union_alt {[b]} X). pose proof (subseteq_size X ({[b]} ∪ X) ltac:(set_solver)).
    rewrite size_singleton in *. lia.
  - intros x [Hx Hne]%elem_of_difference. destruct (HF x Hx) as [Hr Hf]. split; [done|].
    rewrite (free_take _ _ _ Hg) by done. rewrite decide_False; [done|]. set_solver.
Qed.

Lemma enough_data v b w n : data_start sb ≤ b → enough_free v sb n → enough_free (<[b := w]> v) sb n.
Proof.
  intros Hb (X&HX&HF). exists X. split; [done|]. intros x Hx. destruct (HF x Hx) as [Hr Hf]. split; [done|].
  by rewrite (free_data _ _ _ Hg).
Qed.

Lemma enough_some v n : enough_free v sb (S n) → ¬ (∀ b, 0 ≤ b < sb_size sb → free v sb b = false).
Proof.
  intros (X&HX&HF) Hno. destruct (size_pos_elem_of X ltac:(lia)) as [x Hx].
  destruct (HF x Hx) as [Hr Hf]. rewrite Hno in Hf by done. done.
Qed.
End steps.

(** * The operations *)

Definition set_addrs (a : list Z) (n : inode) : inode :=
  mkInode (i_dev n) (i_inum n) (i_ref n) (i_lock n) (i_valid n) (i_type n) (i_major n) (i_minor n)
    (i_nlink n) (i_size n) a.

(** Steps that also change the inode cache. *)
Definition fsframe (s s' : kstate) : Prop := txframe (set_ic (k_ic s') s) s'.

(** The blocks of the indirect block's own cost in the log: itself and its bitmap
    block. [avail s a X] is the log space left once these, and [X], are counted
    for: a transaction that writes to the file sets them aside once. *)
Definition ind_cost (sb : superblock) (a : list Z) : gset Z :=
  if ind a =? 0 then ∅ else {[ind a; BBLOCK (ind a) sb]}.
Definition avail (s : kstate) (a : list Z) (X : gset Z) : Z :=
  l_size (k_log s) - 1 - Z.of_nat (size (X ∪ pinned (k_log s) ∪ ind_cost (k_sb s) a)) -
  (if ind a =? 0 then 2 else 0).

Section frames.
Implicit Types (s : kstate) (a : list Z) (X Y : gset Z).

Lemma txframe_fsframe s s' : txframe s s' → fsframe s s'.
Proof.
  intros F. unfold fsframe. rewrite (txframe_ic _ _ F). by destruct s.
Qed.

Lemma fsframe_trans s s1 s2 : fsframe s s1 → fsframe s1 s2 → fsframe s s2.
Proof.
  unfold fsframe. intros F1 F2. eapply txframe_trans; [|exact F2].
  exact (txframe_set_ic _ _ (k_ic s2) F1).
Qed.

Lemma fsframe_set_ic s x : fsframe s (set_ic x s).
Proof. apply txframe_refl. Qed.

Lemma fsframe_sb s s' : fsframe s s' → k_sb s' = k_sb s.
Proof. apply (txframe_sb (set_ic _ s)). Qed.

Lemma fsframe_geometry s s' : fsframe s s' → fs_geometry s → fs_geometry s'.
Proof. intros F H. exact (txframe_geometry (set_ic _ s) _ F H). Qed.

Lemma fsframe_logsize s s' : fsframe s s' → l_size (k_log s') = l_size (k_log s).
Proof. by intros (_&_&_&E&_). Qed.

(** Log space from the sets involved. *)
Lemma avail_grow s s' a a' X X' Y :
  l_size (k_log s') = l_size (k_log s) →
  X' ∪ pinned (k_log s') ∪ ind_cost (k_sb s') a' ⊆ Y ∪ (X ∪ pinned (k_log s) ∪ ind_cost (k_sb s) a) →
  avail s a X - Z.of_nat (size Y) + (if ind a =? 0 then 2 else 0) - (if ind a' =? 0 then 2 else 0)
    ≤ avail s' a' X'.
Proof.
  intros El Hs%subseteq_size. rewrite (size_union_alt Y) in Hs. unfold avail. rewrite El.
  set (Z0 := X ∪ pinned (k_log s) ∪ ind_cost (k_sb s) a) in *.
  pose proof (subseteq_size (Z0 ∖ Y) Z0 ltac:(set_solver)). lia.
Qed.

Lemma avail_budget s a X nd :
  log_ok (k_log s) nd → avail s a X ≤ budget s - Z.of_nat (size (X ∖ pinned (k_log s))).
Proof.
  intros Hl. pose proof (size_pinned_n _ _ Hl) as E. unfold avail, budget. rewrite <- E.
  pose proof (size_union_alt (pinned (k_log s)) X).
  pose proof (subseteq_size (pinned (k_log s) ∪ X) (X ∪ pinned (k_log s) ∪ ind_cost (k_sb s) a) ltac:(set_solver)).
  destruct (ind a =? 0); lia.
Qed.

Lemma size_pair (x y : Z) : (size ({[x; y]} : gset Z) ≤ 2)%nat.
Proof.
  rewrite size_union_alt, size_singleton.
  pose proof (subseteq_size ({[y]} ∖ {[x]} : gset Z) {[y]} ltac:(set_solver)) as H. rewrite size_singleton in H. lia.
Qed.
End frames.

(** Code that goes on after the sequence of [tx_modify]. *)
Lemma update_then {A} (bno : Z) (f : list Z → list Z) (K : M kstate A) fuel s s' :
  (bp ← bread 1 bno; upd_data bp f;; log_write bp;; brelse bp) fuel s = Ret tt s' →
  (bp ← bread 1 bno; upd_data bp f;; log_write bp;; brelse bp;; K) fuel s = K fuel s'.
Proof.
  intros (bp&s1&E1&(?&s2&E2&(?&s3&E3&E4)%run_bind_inv)%run_bind_inv)%run_bind_inv.
  rewrite (run_bind _ _ _ _ _ _ E1), (run_bind _ _ _ _ _ _ E2), (run_bind _ _ _ _ _ _ E3).
  exact (run_bind _ _ _ _ _ _ E4).
Qed.

Section run.
Context (i p fuel : nat) (Hfuel : (NBUF < fuel)%nat) (ip : nat).
Implicit Types (s : kstate) (v : Z → list Z) (n : inode) (X : gset Z) (m r : Z).

(** In a transaction, at work on the file of inode [n], slot [ip] of the cache,
    with [m] free disk blocks besides one for a missing indirect block, and room
    for [r] blocks in the log once [X] are in it. *)
Record wrh s v (h : gmap Z nat) n m r X : Prop := mkWr {
  wr_tx : tx s i p v h;
  wr_ip : k_ic s !! ip = Some n;
  wr_dev : i_dev n = 1;
  wr_geo : fs_geometry s;
  wr_file : file_ok v (k_sb s) (i_addrs n);
  wr_meta : meta_used v (k_sb s);
  wr_fuel : bitmap_fuel fuel s;
  wr_free : enough_free v (k_sb s) (Z.to_nat (m + if ind (i_addrs n) =? 0 then 1 else 0));
  wr_room : r ≤ avail s (i_addrs n) X
}.
Local Notation wr s v := (wrh s v ∅).
#[local] Arguments wr_tx {_ _ _ _ _ _ _} _.
#[local] Arguments wr_ip {_ _ _ _ _ _ _} _.
#[local] Arguments wr_dev {_ _ _ _ _ _ _} _.
#[local] Arguments wr_geo {_ _ _ _ _ _ _} _.
#[local] Arguments wr_file {_ _ _ _ _ _ _} _.
#[local] Arguments wr_room {_ _ _ _ _ _ _} _.

(** The step relation on the states: the inode's block list changes with the
    file, nothing else of the cache does. *)
Definition wstep s v n s' v' n' off src : Prop :=
  fsframe s s' ∧ n' = set_addrs (i_addrs n') n ∧ k_ic s' = <[ip := n']> (k_ic s) ∧
  file_step (k_sb s) v (i_addrs n) v' (i_addrs n') off src.

Lemma set_addrs_id n : set_addrs (i_addrs n) n = n.
Proof. by destruct n. Qed.

Lemma wr_lookup s v h n m r X : wrh s v h n m r X → k_ic s !!! ip = n.
Proof. intros W. apply list_lookup_total_correct, W. Qed.

Lemma wr_budget s v h n m r X : wrh s v h n m r X → r ≤ budget s - Z.of_nat (size (X ∖ pinned (k_log s))).
Proof.
  intros W. etrans; [apply W|]. eapply avail_budget, (tx_log _ _ _ _ _ (wr_tx W)).
Qed.

Lemma wr_length s v h n m r X b :
  wrh s v h n m r X → data_start (k_sb s) ≤ b < sb_size (k_sb s) →
  length (v b) = Z.to_nat BSIZE ∧ length (v (BBLOCK b (k_sb s))) = Z.to_nat BSIZE.
Proof.
  intros W Hb. pose proof (wr_geo W) as Hg. pose proof (data_start_pos _ _ _ Hg).
  split; eapply tx_block_length; try apply W; [by eapply data_in|].
  apply (BBLOCK_range _ _ _ Hg b). lia.
Qed.

Lemma wstep_trans s v n s1 v1 n1 s2 v2 n2 off w1 w2 :
  fs_geometry s → 0 ≤ off → off + Z.of_nat (length (w1 ++ w2)) ≤ BSIZE * MAXFILE →
  wstep s v n s1 v1 n1 off w1 → wstep s1 v1 n1 s2 v2 n2 (off + Z.of_nat (length w1)) w2 →
  wstep s v n s2 v2 n2 off (w1 ++ w2).
Proof.
  intros Hg Ho Hl (F1&E1&C1&S1) (F2&E2&C2&S2). split_and!.
  - by eapply fsframe_trans.
  - rewrite E2, E1. by destruct n.
  - by rewrite C2, C1, list_insert_insert_eq.
  - rewrite (fsframe_sb _ _ F1) in S2. eapply file_step_trans; try done.
Qed.

(** A fresh block from [balloc]. *)
Lemma balloc_wr s v h n m r :
  wrh s v h n m r ∅ → holds_used (k_sb s) v h → (size (dom h) ≤ 1)%nat → 2 ≤ r →
  0 < m + (if ind (i_addrs n) =? 0 then 1 else 0) →
  let sb := k_sb s in
  ∃ b s', data_start sb ≤ b < sb_size sb ∧ free v sb b = true ∧ balloc 1 fuel s = Ret b s' ∧
    tx s' i p (take_block sb b v) h ∧ txframe s s' ∧
    pinned (k_log s') = {[b]} ∪ ({[BBLOCK b sb]} ∪ pinned (k_log s)) ∧
    meta_used (take_block sb b v) sb ∧
    enough_free (take_block sb b v) sb (Z.to_nat (m + (if ind (i_addrs n) =? 0 then 1 else 0) - 1)).
Proof.
  intros W Hu Hh Hr Hm sb. pose proof (wr_budget _ _ _ _ _ _ _ W) as Hb.
  pose proof (wr_geo W) as Hg.
  set (k := m + (if ind (i_addrs n) =? 0 then 1 else 0)) in *.
  assert (He : enough_free v sb (S (Z.to_nat (k - 1)))).
  { replace (S (Z.to_nat (k - 1))) with (Z.to_nat k) by lia. apply W. }
  destruct (balloc_run i p fuel Hfuel s v h (wr_tx W)) as [(b&s'&Hr'&Hf&_&E&T'&F&P)|[Hno _]]; try apply W; try done; try lia.
  - destruct (wr_length _ _ _ _ _ _ _ b W Hr') as [_ Hl]. exists b, s'. split_and!; try done; try apply Hr'.
    + eapply meta_take; try done. apply W.
    + by eapply enough_take.
  - by apply (enough_some sb v _ He) in Hno.
Qed.

(** [bmap_slot] on an empty slot. *)
Lemma slot_fresh s v n m r k :
  wr s v n m r ∅ → i_addrs n !!! Z.to_nat k = 0 → 2 ≤ r → 0 < m + (if ind (i_addrs n) =? 0 then 1 else 0) →
  let sb := k_sb s in
  ∃ b s', let v' := take_block sb b v in let n' := inode_set_addr k b n in
    data_start sb ≤ b < sb_size sb ∧ free v sb b = true ∧
    bmap_slot ip k fuel s = Ret b s' ∧ tx s' i p v' ∅ ∧ fsframe s s' ∧ k_ic s' = <[ip := n']> (k_ic s) ∧
    pinned (k_log s') = {[b]} ∪ ({[BBLOCK b sb]} ∪ pinned (k_log s)) ∧ meta_used v' sb ∧
    enough_free v' sb (Z.to_nat (m + (if ind (i_addrs n) =? 0 then 1 else 0) - 1)).
Proof.
  intros W H0 Hr Hm sb.
  destruct (balloc_wr s v ∅ n m r W) as (b&s1&Hb&Hf&E&T&F&P&Hmu&Hen); try done.
  { rewrite dom_empty_L, size_empty. lia. }
  fold sb in Hb, Hf, T, P, Hmu, Hen. unfold bmap_slot, get_inode. bred.
  rewrite (wr_lookup _ _ _ _ _ _ _ W), H0, (wr_dev W). simpl. bred. rewrite E. bred.
  exists b. eexists. split_and!; try done; try apply Hb.
  - by apply tx_set_ic.
  - eapply fsframe_trans; [by apply txframe_fsframe|apply fsframe_set_ic].
  - simpl. rewrite (txframe_ic _ _ F). apply (alter_insert_at (inode_set_addr k b)), W.
Qed.

(** The new state satisfies [wr] again. *)
Lemma wr_next s v h n m r X0 s' v' h' n' m' r' X off src :
  wrh s v h n m r X0 → tx s' i p v' h' → wstep s v n s' v' n' off src → meta_used v' (k_sb s) →
  enough_free v' (k_sb s) (Z.to_nat (m' + if ind (i_addrs n') =? 0 then 1 else 0)) →
  r' ≤ avail s' (i_addrs n') X → wrh s' v' h' n' m' r' X.
Proof.
  intros W T (F&E&C&S) Hm He Hr. pose proof (fsframe_sb _ _ F) as Es.
  split; rewrite ?Es; try done.
  - rewrite C. apply list_lookup_insert_eq. by eapply lookup_lt_Some, W.
  - rewrite E. apply W.
  - by eapply fsframe_geometry, W.
  - apply S.
  - unfold bitmap_fuel. rewrite Es. apply W.
Qed.

Lemma wr_mono s v h n m r m' r' X : wrh s v h n m r X → m' ≤ m → r' ≤ r → wrh s v h n m' r' X.
Proof.
  intros [? ? ? ? ? ? ? (Y&?&?) ?] Hm Hr. split; try done; [|lia]. exists Y. split; [lia|done].
Qed.

Lemma direct_run s v n m r k :
  wr s v n m r ∅ → 0 ≤ k < NDIRECT → faddr v (i_addrs n) k = 0 → 2 ≤ r → 1 ≤ m →
  ∃ b s' v' n', bmap_slot ip k fuel s = Ret b s' ∧ b ≠ 0 ∧ faddr v' (i_addrs n') k = b ∧
    wr s' v' n' (m - 1) (r - 2) {[b]} ∧ wstep s v n s' v' n' 0 [].
Proof.
  intros W Hk H0 Hr Hm. pose proof (wr_geo W) as Hg. pose proof (data_start_pos _ _ _ Hg).
  assert (Hlt : (k <? NDIRECT) = true) by (apply Z.ltb_lt; lia).
  unfold faddr in H0. rewrite Hlt in H0.
  destruct (slot_fresh s v n m r k W H0) as (b&s1&Hb&Hf&E&T&F&C&P&Hmu&Hen); try done.
  { destruct (ind _ =? 0); lia. }
  destruct (wr_length _ _ _ _ _ _ _ b W Hb) as [_ Hl].
  assert (Hi : ind (<[Z.to_nat k := b]> (i_addrs n)) = ind (i_addrs n)) by (by apply ind_insert).
  exists b, s1, (take_block (k_sb s) b v), (inode_set_addr k b n). split; [done|]. split; [lia|]. split.
  { unfold faddr. rewrite Hlt. simpl. apply list_lookup_total_insert_eq.
    rewrite (fo_len _ _ _ (wr_file W)). unfold NDIRECT in *. lia. }
  assert (S : wstep s v n s1 (take_block (k_sb s) b v) (inode_set_addr k b n) 0 []).
  { split_and!; try done. eapply direct_step; try done; [apply W|]. unfold faddr. by rewrite Hlt. }
  split; [|done]. eapply wr_next; try done.
  - simpl. rewrite Hi. replace (m - 1 + _) with (m + (if ind (i_addrs n) =? 0 then 1 else 0) - 1) by lia. done.
  - simpl. pose proof (avail_grow s s1 (i_addrs n) (<[Z.to_nat k := b]> (i_addrs n)) ∅ {[b]} {[b; BBLOCK b (k_sb s)]}) as A.
    rewrite Hi in A. pose proof (size_pair b (BBLOCK b (k_sb s))). pose proof (wr_room W).
    ospecialize (A _ _); [by apply fsframe_logsize|rewrite P, (fsframe_sb _ _ F); unfold ind_cost; rewrite Hi; set_solver|].
    lia.
Qed.

Lemma ind_run s v n m r :
  wr s v n m r ∅ → ind (i_addrs n) = 0 → 2 ≤ r → 0 ≤ m →
  ∃ b s' v' n', bmap_slot ip NDIRECT fuel s = Ret b s' ∧ b ≠ 0 ∧ ind (i_addrs n') = b ∧
    (∀ j, 0 ≤ j < MAXFILE → faddr v' (i_addrs n') j = faddr v (i_addrs n) j) ∧
    wr s' v' n' m r ∅ ∧ wstep s v n s' v' n' 0 [].
Proof.
  intros W H0 Hr Hm. pose proof (wr_geo W) as Hg. pose proof (data_start_pos _ _ _ Hg).
  destruct (slot_fresh s v n m r NDIRECT W H0) as (b&s1&Hb&Hf&E&T&F&C&P&Hmu&Hen); try done.
  { rewrite H0. simpl. lia. }
  destruct (wr_length _ _ _ _ _ _ _ b W Hb) as [_ Hl].
  assert (Hi : ind (<[Z.to_nat NDIRECT := b]> (i_addrs n)) = b).
  { unfold ind. apply list_lookup_total_insert_eq. rewrite (fo_len _ _ _ (wr_file W)). unfold NDIRECT. lia. }
  exists b, s1, (take_block (k_sb s) b v), (inode_set_addr NDIRECT b n). split; [done|]. split; [lia|].
  split; [done|].
  assert (S : wstep s v n s1 (take_block (k_sb s) b v) (inode_set_addr NDIRECT b n) 0 []).
  { split_and!; try done. eapply ind_step; try done. apply W. }
  split; [|split; [|done]].
  - intros j Hj. eapply ind_faddr; try done. apply W.
  - eapply wr_next; try done.
    + simpl. rewrite Hi, (proj2 (Z.eqb_neq b 0)) by lia. rewrite H0 in Hen. by replace (m + 0) with (m + 1 - 1) by lia.
    + simpl. pose proof (avail_grow s s1 (i_addrs n) (<[Z.to_nat NDIRECT := b]> (i_addrs n)) ∅ ∅ {[b; BBLOCK b (k_sb s)]}) as A.
      rewrite Hi, H0, (proj2 (Z.eqb_neq b 0)) in A by lia.
      pose proof (size_pair b (BBLOCK b (k_sb s))). pose proof (wr_room W).
      ospecialize (A _ _); [by apply fsframe_logsize| |simpl in *; lia].
      rewrite P, (fsframe_sb _ _ F). unfold ind_cost. rewrite Hi, (proj2 (Z.eqb_neq b 0)) by lia. set_solver.
Qed.

Lemma entry_tx s v n m r j :
  let a := i_addrs n in
  wr s v n m r ∅ → ind a ≠ 0 → NDIRECT ≤ j < MAXFILE → faddr v a j = 0 → 3 ≤ r → 1 ≤ m →
  let sb := k_sb s in
  ∃ b s', let v' := set_entry a j b (take_block sb b v) in
    data_start sb ≤ b < sb_size sb ∧ free v sb b = true ∧
    bmap_entry 1 (ind a) (j - NDIRECT) fuel s = Ret b s' ∧ tx s' i p v' ∅ ∧ txframe s s' ∧
    pinned (k_log s') = {[ind a]} ∪ ({[b]} ∪ ({[BBLOCK b sb]} ∪ pinned (k_log s))) ∧
    meta_used (take_block sb b v) sb ∧
    enough_free (take_block sb b v) sb (Z.to_nat (m - 1 + (if ind a =? 0 then 1 else 0))).
Proof.
  intros a W Hi Hj H0 Hr Hm sb. pose proof (wr_geo W) as Hg. pose proof (data_start_pos _ _ _ Hg) as Hpos.
  pose proof (wr_file W) as Hok. destruct (fo_ind _ _ _ Hok Hi) as [Hri Hui].
  pose proof (entry_range j Hj) as He. pose proof (wr_budget _ _ _ _ _ _ _ W) as Hbud.
  destruct (wr_length _ _ _ _ _ _ _ (ind a) W Hri) as [Hli _].
  destruct (tx_look i p fuel Hfuel s v ∅ (ind a)) as (bp&s1&E1&T1&F1&L1&D1);
    [apply W|by eapply data_in|done|rewrite dom_empty_L, size_empty; lia|].
  pose proof (txframe_sb _ _ F1) as Es1.
  assert (S0 : wstep s v n s1 v n 0 []).
  { split_and!; [by apply txframe_fsframe|by rewrite set_addrs_id| |by apply file_step_refl].
    rewrite (txframe_ic _ _ F1), list_insert_id; [done|apply W]. }
  assert (W1 : wrh s1 v {[ind a := bp]} n m r ∅).
  { eapply wr_next; try done; try apply W. unfold avail. rewrite L1, Es1. apply W. }
  destruct (balloc_wr s1 v _ n m r W1) as (b&s2&Hb&Hf&E2&T2&F2&P2&Hmu2&Hen2); try done.
  { intros x Hx. rewrite dom_singleton_L in Hx. apply elem_of_singleton in Hx as ->. by rewrite Es1. }
  { by rewrite dom_singleton_L, size_singleton. } { lia. } { destruct (ind _ =? 0); lia. }
  rewrite Es1 in *. fold sb in Hb, Hf, T2, P2, Hmu2, Hen2, Hok, Hui, Hri. set (v2 := take_block sb b v) in *.
  destruct (wr_length _ _ _ _ _ _ _ b W Hb) as [_ Hlb]. fold sb in Hlb.
  assert (Hvi : v2 (ind a) = v (ind a)) by (by eapply take_ind).
  assert (Hb2 : 1 ≤ budget s2).
  { pose proof (budget_pinned s1 s2 {[b; BBLOCK b sb]}) as B. pose proof (size_pair b (BBLOCK b sb)).
    ospecialize (B _ _ F2 _); [apply T1|apply T2|rewrite P2; set_solver|].
    assert (budget s1 = budget s) by (unfold budget; by rewrite L1). lia. }
  destruct (tx_update i p fuel Hfuel s2 v2 {[ind a := bp]} (ind a) bp (put32 (4 * (j - NDIRECT)) b) T2)
    as (s3&E3&T3&F3&P3); [apply lookup_singleton_eq| |done|by rewrite length_put32, Hvi|].
  { eapply txframe_home; [eapply txframe_trans; [exact F1|exact F2]|]. by eapply data_home. }
  destruct (tx_brelse i p fuel Hfuel s3 _ _ (ind a) bp T3) as (s4&E4&T4&F4&L4); [apply lookup_singleton_eq|].
  rewrite delete_singleton_eq in T4. fold (set_entry a j b v2) in T4.
  assert (F : txframe s s4) by (do 3 (eapply txframe_trans; [done|]); done).
  exists b, s4. unfold bmap_entry, upd_data. bred. rewrite E1. bred. rewrite D1.
  unfold faddr in H0. rewrite (proj2 (Z.ltb_ge _ _)), (proj2 (Z.eqb_neq _ _) Hi) in H0 by lia.
  rewrite H0. simpl. bred. rewrite E2. bred. rewrite E3. bred. rewrite E4. bred. split_and!; try done; try apply Hb.
  - by rewrite L4, P3, P2, L1.
  - by replace (m - 1 + _) with (m + (if ind a =? 0 then 1 else 0) - 1) by lia.
Qed.

Lemma entry_fresh s v n m r j :
  let a := i_addrs n in
  wr s v n m r ∅ → ind a ≠ 0 → NDIRECT ≤ j < MAXFILE → faddr v a j = 0 → 3 ≤ r → 1 ≤ m →
  ∃ b s' v', bmap_entry 1 (ind a) (j - NDIRECT) fuel s = Ret b s' ∧ b ≠ 0 ∧ faddr v' a j = b ∧
    wr s' v' n (m - 1) (r - 2) {[b]} ∧ wstep s v n s' v' n 0 [].
Proof.
  intros a W Hi Hj H0 Hr Hm. pose proof (wr_geo W) as Hg. pose proof (data_start_pos _ _ _ Hg) as Hpos.
  destruct (entry_tx s v n m r j W) as (b&s1&Hb&Hf&E&T&F&P&Hmu&Hen); try done.
  pose proof (wr_file W) as Hok. destruct (fo_ind _ _ _ Hok Hi) as [Hri Hui].
  destruct (wr_length _ _ _ _ _ _ _ (ind a) W Hri) as [Hli _].
  destruct (wr_length _ _ _ _ _ _ _ b W Hb) as [_ Hlb].
  exists b, s1, (set_entry a j b (take_block (k_sb s) b v)). split; [done|]. split; [lia|].
  split; [eapply faddr_entry; try done; [|lia]; by erewrite take_ind|].
  assert (S : wstep s v n s1 (set_entry a j b (take_block (k_sb s) b v)) n 0 []).
  { split_and!; [by apply txframe_fsframe|by rewrite set_addrs_id| |by eapply entry_step].
    rewrite (txframe_ic _ _ F), list_insert_id; [done|apply W]. }
  split; [|done]. eapply wr_next; try done.
  - eapply meta_data; [done|apply Hri|done].
  - eapply enough_data; [done|apply Hri|done].
  - pose proof (avail_grow s s1 a a ∅ {[b]} {[b; BBLOCK b (k_sb s)]}) as A.
    pose proof (size_pair b (BBLOCK b (k_sb s))). pose proof (wr_room W).
    ospecialize (A _ _); [by apply fsframe_logsize, txframe_fsframe| |subst a; lia].
    rewrite P, (txframe_sb _ _ F). unfold ind_cost. rewrite (proj2 (Z.eqb_neq _ _) Hi). set_solver.
Qed.

(** [bmap], allocating what is missing. *)
Lemma bmap_run s v n m r j :
  let c := if faddr v (i_addrs n) j =? 0 then 2 else 1 in
  wr s v n m r ∅ → 0 ≤ j < MAXFILE → c < r → 1 ≤ m →
  ∃ b s' v' n', bmap ip j fuel s = Ret b s' ∧ b ≠ 0 ∧ faddr v' (i_addrs n') j = b ∧
    wr s' v' n' (m - 1) (r - c) {[b]} ∧ wstep s v n s' v' n' 0 [].
Proof.
  intros c W Hj Hr Hm. destruct (faddr v (i_addrs n) j =? 0) eqn:H0; unfold c in *; clear c.
  2:{ apply Z.eqb_neq in H0.
      destruct (bmap_found i p fuel Hfuel s v ip n j) as (s'&E&T&F&L); try apply W; try done; [by eapply wr_lookup|].
      assert (S : wstep s v n s' v n 0 []).
      { split_and!; [by apply txframe_fsframe|by rewrite set_addrs_id| |apply file_step_refl, W].
        rewrite (txframe_ic _ _ F), list_insert_id; [done|apply W]. }
      exists (faddr v (i_addrs n) j), s', v, n. split_and!; try done; try apply S.
      eapply wr_next; try done; try apply W; [apply (wr_mono _ _ _ _ _ _ (m - 1) r _ W); lia|].
      pose proof (avail_grow s s' (i_addrs n) (i_addrs n) ∅ {[faddr v (i_addrs n) j]} {[faddr v (i_addrs n) j]}) as A.
      rewrite size_singleton in A. pose proof (wr_room W).
      ospecialize (A _ _); [by rewrite L| |lia]. rewrite L, (txframe_sb _ _ F). set_solver. }
  apply Z.eqb_eq in H0. unfold bmap. destruct (Z.ltb_spec j NDIRECT).
  { apply direct_run; try done; lia. }
  assert ((j - NDIRECT <? NINDIRECT) = true) as -> by (apply Z.ltb_lt; unfold MAXFILE in Hj; lia).
  destruct (decide (ind (i_addrs n) = 0)) as [Hi|Hi].
  - destruct (ind_run s v n m r W Hi) as (b1&s1&v1&n1&E1&Hb1&Hi1&Hfa&W1&S1); [lia..|].
    destruct (entry_fresh s1 v1 n1 m r j W1) as (b&s2&v2&E2&Hb&Hf2&W2&S2); [congruence|lia|by rewrite Hfa|lia|done|].
    exists b, s2, v2, n1. bred. rewrite E1. unfold get_inode. bred.
    rewrite (wr_lookup _ _ _ _ _ _ _ W1), (wr_dev W1), <- Hi1. split_and!; try done; try apply W2.
    destruct S2 as (?&?&?&?). apply (wstep_trans s v n s1 v1 n1 s2 v2 n1 0 [] []); try done. apply W.
  - destruct (entry_fresh s v n m r j W) as (b&s2&v2&E2&Hb&Hf2&W2&S2); [done|lia|done|lia|done|].
    exists b, s2, v2, n. unfold bmap_slot, get_inode. bred. rewrite (wr_lookup _ _ _ _ _ _ _ W).
    fold (ind (i_addrs n)). rewrite (proj2 (Z.eqb_neq _ _) Hi). bred.
    rewrite (wr_lookup _ _ _ _ _ _ _ W), (wr_dev W). split_and!; try done; try apply W2; apply S2.
Qed.

Lemma step_nil sb v a v' a' off off' : file_step sb v a v' a' off [] → file_step sb v a v' a' off' [].
Proof. intros []. split; try done; simpl in *; intros k ?; [lia|]. intros _. apply fs_old0; [done|lia]. Qed.

(** One round: up to the end of the block. *)
Lemma round_run s v n m r N tot off src :
  let c := if faddr v (i_addrs n) (off / BSIZE) =? 0 then 2 else 1 in
  let k := chunk N tot off in
  wr s v n m r ∅ → 0 ≤ tot < N → N < 2 ^ 32 → 0 ≤ off → off + (N - tot) ≤ BSIZE * MAXFILE →
  Z.of_nat (length src) = N - tot → c < r → 1 ≤ m →
  ∃ s' v' n', writei_round ip N (tot, off, src) fuel s =
      Ret (inl (tot + k, off + k, drop (Z.to_nat k) src)) s' ∧
    wr s' v' n' (m - 1) (r - c) ∅ ∧ wstep s v n s' v' n' off (take (Z.to_nat k) src).
Proof.
  intros c k W Htot HN Hoff Hend Hsrc Hr Hm. pose proof (chunk_spec N tot off Htot HN Hoff) as (Hk&Hkb&_). fold k in Hk, Hkb.
  assert (HM : BSIZE * MAXFILE = 71680) by done.
  destruct (bmap_run s v n m r (off / BSIZE) W) as (b&s1&v1&n1&E1&Hb&Hfa&W1&S1); [apply file_block; lia|done|done|].
  fold c in W1. pose proof (wr_geo W1) as Hg1. pose proof (wr_file W1) as Hok1.
  destruct (fo_used _ _ _ Hok1 (off / BSIZE)) as [Hrb Hub]; [apply file_block; lia|congruence|]. rewrite Hfa in Hrb, Hub.
  destruct (wr_length _ _ _ _ _ _ _ b W1 Hrb) as [Hlb _].
  pose proof (wr_budget _ _ _ _ _ _ _ W1) as Hbud.
  set (w := take (Z.to_nat k) src).
  assert (Hlw : Z.of_nat (length w) = k) by (unfold w; rewrite length_take; lia).
  destruct (tx_modify i p fuel Hfuel s1 v1 ∅ b (splice (Z.to_nat (off mod BSIZE)) w)) as (s2&E2&T2&F2&P2);
    [apply W1|by eapply data_home|done|lia|rewrite dom_empty_L, size_empty; lia|by rewrite length_splice|].
  unfold writei_round. rewrite (proj2 (Z.ltb_lt tot N)) by lia. unfold get_inode. do 2 mred1.
  rewrite (wr_lookup _ _ _ _ _ _ _ W), (wr_dev W), (run_bind _ _ _ _ _ _ E1). fold k w.
  rewrite (update_then b _ _ fuel s1 s2 E2). rewrite !u32_small by lia.
  exists s2, (<[b := splice (Z.to_nat (off mod BSIZE)) w (v1 b)]> v1), n1. split; [done|].
  assert (S2 : wstep s1 v1 n1 s2 (<[b := splice (Z.to_nat (off mod BSIZE)) w (v1 b)]> v1) n1 off w).
  { split_and!; [by apply txframe_fsframe|by rewrite set_addrs_id| |].
    - rewrite (txframe_ic _ _ F2), list_insert_id; [done|apply W1].
    - rewrite <- Hfa. eapply byte_step; try done; rewrite ?Hfa; try done; lia. }
  split.
  - eapply wr_next; try done; [eapply meta_data; [done|lia|apply W1]|eapply enough_data; [done|lia|apply W1]|].
    etrans; [apply (wr_room W1)|]. unfold avail. rewrite P2, (txframe_sb _ _ F2).
    destruct F2 as (_&_&_&->&_). by rewrite (union_empty_l_L ({[b]} ∪ _)).
  - apply (wstep_trans s v n s1 v1 n1 s2 _ n1 off [] w); try done; [apply W|simpl; lia| |by rewrite Z.add_0_r].
    destruct S1 as (?&?&?&?). split_and!; try done. by eapply step_nil.
Qed.

(** The blocks that [rem] bytes at [off] reach. *)
Definition span (off rem : Z) : Z := if rem =? 0 then 0 else (off + rem - 1) / BSIZE - off / BSIZE + 1.

Lemma span_pos off rem : 0 ≤ off → 0 ≤ rem → 0 ≤ span off rem.
Proof using.
  clear Hfuel. intros Ho Hr. unfold span. destruct (Z.eqb_spec rem 0); [lia|].
  pose proof (Z.div_le_mono off (off + rem - 1) BSIZE ltac:(done) ltac:(lia)). lia.
Qed.

Lemma span_next off rem k :
  0 ≤ off → 0 < k ≤ rem → (k = rem ∨ off + k = BSIZE * (off / BSIZE + 1)) →
  1 ≤ span off rem ∧ span (off + k) (rem - k) ≤ span off rem - 1.
Proof using.
  clear Hfuel. intros Ho Hk Hend. unfold span. rewrite (proj2 (Z.eqb_neq rem 0)) by lia.
  pose proof (Z.div_le_mono off (off + rem - 1) BSIZE ltac:(done) ltac:(lia)). split; [lia|].
  destruct (Z.eqb_spec (rem - k) 0) as [|Hn]; [lia|]. destruct Hend as [|Hend]; [lia|].
  rewrite Hend at 2. rewrite Z.mul_comm, Z.div_mul by done.
  replace (off + k + (rem - k) - 1) with (off + rem - 1) by lia. lia.
Qed.

Lemma loop_run nf s v n m r N tot off src :
  let rem := N - tot in
  wr s v n m r ∅ → 0 ≤ tot ≤ N → N < 2 ^ 32 → 0 ≤ off → off + rem ≤ BSIZE * MAXFILE →
  Z.of_nat (length src) = rem → span off rem < Z.of_nat nf → span off rem ≤ m →
  2 * span off rem - (if faddr v (i_addrs n) (off / BSIZE) =? 0 then 0 else Z.min 1 rem) < r →
  ∃ s' v' n', loop_fuel nf (writei_round ip N) (tot, off, src) fuel s = Ret (off + rem) s' ∧
    wr s' v' n' 0 1 ∅ ∧ wstep s v n s' v' n' off src.
Proof.
  revert s v n m r tot off src. induction nf as [|nf IH];
    intros s v n m r tot off src rem W Htot HN Hoff Hend Hsrc Hnf Hm Hr.
  { pose proof (span_pos off rem Hoff). lia. }
  rewrite loop_fuel_S. destruct (decide (tot < N)) as [Hlt|Hge].
  - pose proof (chunk_spec N tot off ltac:(lia) HN Hoff) as (Hk&_&Hke). fold rem in Hk, Hke.
    destruct (span_next off rem (chunk N tot off) Hoff Hk Hke) as [Hs1 Hs2].
    set (c := if faddr v (i_addrs n) (off / BSIZE) =? 0 then 2 else 1).
    assert (Hc : 2 * (span off rem - 1) < r - c).
    { unfold c. destruct (faddr _ _ _ =? 0); lia. }
    destruct (round_run s v n m r N tot off src W) as (s1&v1&n1&E1&W1&S1); try done; try (fold c; lia).
    fold c in W1. set (k := chunk N tot off) in *. rewrite E1. cbn [obind].
    assert (Hr' : N - (tot + k) = rem - k) by (unfold rem; lia).
    assert (Hlt' : length (take (Z.to_nat k) src) = Z.to_nat k) by (rewrite length_take; lia).
    destruct (IH s1 v1 n1 (m - 1) (r - c) (tot + k) (off + k) (drop (Z.to_nat k) src)) as (s2&v2&n2&E2&W2&S2);
      try done; try lia.
    + rewrite length_drop. lia.
    + rewrite Hr'. lia.
    + rewrite Hr'. lia.
    + rewrite Hr'. clear Hr. clearbody c. case_match; lia.
    + exists s2, v2, n2. rewrite E2. split; [f_equal; unfold rem; lia|]. split; [done|].
      rewrite <- (take_drop (Z.to_nat k) src). eapply wstep_trans; try done; [apply W| |].
      * rewrite take_drop. lia.
      * rewrite Hlt'. by replace (off + Z.of_nat (Z.to_nat k)) with (off + k) by lia.
  - assert (Er : rem = 0) by (unfold rem; lia). rewrite Er in *. destruct src; [|simpl in Hsrc; lia].
    unfold writei_round. rewrite (proj2 (Z.ltb_ge tot N)) by lia. bred. exists s, v, n.
    rewrite Z.add_0_r. split; [done|]. split; [|split_and!].
    + apply (wr_mono _ _ _ _ m r); [done|unfold span in *; simpl in *; lia|].
      unfold span in *. simpl in *. destruct (faddr _ _ _ =? 0); lia.
    + apply txframe_fsframe, txframe_refl.
    + by rewrite set_addrs_id.
    + rewrite list_insert_id; [done|apply W].
    + apply file_step_refl, W.
Qed.

(** The contract of [writei]. *)
Record written sb v n v' n' off src : Prop := mkWritten {
  wt_ok : inode_ok v' sb n';
  wt_size : i_size n' = Z.max (i_size n) (off + Z.of_nat (length src));
  wt_rest : n' = inode_set_size (i_size n') (set_addrs (i_addrs n') n);
  wt_new : fbytes v' (i_addrs n') off (Z.of_nat (length src)) = src;
  wt_old k : 0 ≤ k < i_size n → ¬ (off ≤ k < off + Z.of_nat (length src)) →
    fbyte v' (i_addrs n') k = fbyte v (i_addrs n) k;
  wt_other x : data_start sb ≤ x < sb_size sb → free v sb x = false → ¬ owns v (i_addrs n) x →
    v' x = v x ∧ free v' sb x = false;
  wt_inodes j : 0 ≤ j < sb_ninodes sb → j ≠ i_inum n → ondisk v' sb j = ondisk v sb j;
  wt_stored : i_size n < off + Z.of_nat (length src) → ondisk v' sb (i_inum n) = dinode_of n'
}.

(** The file and its size after the loop. *)
Lemma step_inode sb v n v' a' off src sz :
  inode_ok v sb n → file_step sb v (i_addrs n) v' a' off src → 0 ≤ off ≤ i_size n →
  sz = Z.max (i_size n) (off + Z.of_nat (length src)) → sz ≤ BSIZE * MAXFILE →
  inode_ok v' sb (inode_set_size sz (set_addrs a' n)).
Proof using.
  clear Hfuel. intros [Hdev Hty Hok Hsz Hmap] S Hoff -> Hmax. split; simpl; try done; [apply S|lia|].
  intros bn Hbn. assert (0 < BSIZE) by done.
  assert (bn < MAXFILE).
  { destruct (blocks_bound (Z.max (i_size n) (off + Z.of_nat (length src)))); lia. }
  destruct (decide (bn < (i_size n + BSIZE - 1) / BSIZE)) as [Hin|Hout].
  - specialize (Hmap bn ltac:(lia)). rewrite <- slot_faddr in * by lia.
    by rewrite (fs_slot _ _ _ _ _ _ _ S) by (done || lia).
  - destruct (fs_new _ _ _ _ _ _ _ S (BSIZE * bn)) as [Hn _].
    + assert (i_size n ≤ BSIZE * bn).
      { pose proof (Z.mul_succ_div_gt (i_size n + BSIZE - 1) BSIZE ltac:(lia)). nia. }
      pose proof (Z.mul_div_le (Z.max (i_size n) (off + Z.of_nat (length src)) + BSIZE - 1) BSIZE ltac:(lia)). nia.
    + by rewrite Z.mul_comm, Z.div_mul in Hn.
Qed.

(** Storing an inode leaves files alone. *)
Lemma store_file sb l nd v n a :
  geometry sb l nd → 0 ≤ i_inum n < sb_ninodes sb → file_ok v sb a →
  file_ok (store sb n v) sb a ∧ (∀ j, faddr (store sb n v) a j = faddr v a j) ∧
  (∀ k, 0 ≤ k < BSIZE * MAXFILE → faddr v a (k / BSIZE) ≠ 0 → fbyte (store sb n v) a k = fbyte v a k) ∧
  (∀ x, 0 ≤ x < sb_size sb → free (store sb n v) sb x = free v sb x).
Proof using.
  clear Hfuel. intros Hg Hi Hok. pose proof (data_start_pos _ _ _ Hg).
  assert (Hst : ∀ x, sb_bmapstart sb ≤ x → store sb n v x = v x) by (intros; by eapply store_other).
  assert (Hds : sb_bmapstart sb ≤ data_start sb).
  { unfold data_start. pose proof (Z.div_pos (sb_size sb) BPB (proj1 (g_bm _ _ _ Hg)) ltac:(done)). lia. }
  assert (Hfree : ∀ x, 0 ≤ x < sb_size sb → free (store sb n v) sb x = free v sb x).
  { intros x Hx. unfold free. rewrite Hst; [done|]. rewrite (BBLOCK_eq _ _ _ Hg) by done.
    pose proof (Z.div_pos x BPB ltac:(lia) ltac:(done)). lia. }
  assert (Hfa : ∀ j, faddr (store sb n v) a j = faddr v a j).
  { intros j. unfold faddr. case_match; [done|]. case_match eqn:Hi0; [done|].
    apply Z.eqb_neq in Hi0. destruct (fo_ind _ _ _ Hok Hi0). rewrite Hst; [done|lia]. }
  assert (Hsl : ∀ j, slot (store sb n v) a j = slot v a j) by (intros j; unfold slot; by rewrite Hfa).
  split_and!; try done.
  - split; [apply Hok|..].
    + intros j Hj. rewrite Hsl. intros Hn. destruct (fo_slot _ _ _ Hok j Hj Hn). by rewrite Hfree by lia.
    + intros j1 j2. rewrite !Hsl. apply (fo_inj _ _ _ Hok).
  - intros k Hk Hn. unfold fbyte. rewrite Hfa. destruct (fo_used _ _ _ Hok _ (file_block k Hk) Hn).
    rewrite Hst; [done|lia].
Qed.

Lemma fbytes_eq v a off (src : list Z) :
  (∀ k, off ≤ k < off + Z.of_nat (length src) → fbyte v a k = src !!! Z.to_nat (k - off)) →
  fbytes v a off (Z.of_nat (length src)) = src.
Proof using.
  clear Hfuel. intros H. apply list_eq_same_length with (length src); [done|by rewrite length_fbytes; lia|].
  intros j x y Hj. unfold fbytes. rewrite list_lookup_fmap, lookup_seqZ_lt by lia. simpl. intros [= <-] Hy.
  rewrite H by lia. replace (off + Z.of_nat j - off) with (Z.of_nat j) by lia. rewrite Nat2Z.id.
  by apply list_lookup_total_correct.
Qed.

(** The inode of a file that is in order can be stored. *)
Lemma inode_dinode_ok sb l nd v n :
  geometry sb l nd → inode_ok v sb n → s16_ok (i_type n) → s16_ok (i_major n) → s16_ok (i_minor n) →
  s16_ok (i_nlink n) → dinode_ok (dinode_of n).
Proof using.
  clear Hfuel. intros Hg [_ _ Hok Hsz _] ? ? ? ?. assert (BSIZE * MAXFILE = 71680) by done.
  pose proof (g_nd _ _ _ Hg). pose proof (data_start_pos _ _ _ Hg).
  split; simpl; try done; [lia|apply Hok|]. intros k Hk.
  assert (∃ j, -1 ≤ j < MAXFILE ∧ slot v (i_addrs n) j = i_addrs n !!! k) as (j&Hj&E).
  { destruct (decide (k = 12%nat)) as [->|].
    - exists (-1). split; [done|done].
    - exists (Z.of_nat k). assert (MAXFILE = 140) by done. split; [lia|]. unfold slot, faddr.
      rewrite (proj2 (Z.ltb_ge _ _)), (proj2 (Z.ltb_lt _ _)) by (unfold NDIRECT; lia). by rewrite Nat2Z.id. }
  destruct (decide (slot v (i_addrs n) j = 0)) as [E0|E0]; [rewrite <- E, E0; lia|].
  destruct (fo_slot _ _ _ Hok j Hj E0). rewrite <- E. lia.
Qed.

Lemma step_written sb l nd v n v1 n1 off src :
  geometry sb l nd → inode_ok v sb n → 0 ≤ off ≤ i_size n →
  off + Z.of_nat (length src) ≤ BSIZE * MAXFILE → 0 ≤ i_inum n < sb_ninodes sb →
  n1 = set_addrs (i_addrs n1) n → file_step sb v (i_addrs n) v1 (i_addrs n1) off src →
  off + Z.of_nat (length src) ≤ i_size n → written sb v n v1 n1 off src.
Proof using.
  clear Hfuel. intros Hg Hn Hoff Hend Hi En S Hsz. assert (BSIZE * MAXFILE = 71680) by done.
  pose proof (io_size _ _ _ Hn). assert (Es : i_size n1 = i_size n) by (by rewrite En).
  pose proof (step_inode _ _ _ _ _ _ _ (i_size n) Hn S Hoff ltac:(lia) ltac:(lia)) as Hn1.
  assert (En' : inode_set_size (i_size n) (set_addrs (i_addrs n1) n) = n1) by (rewrite En; by destruct n).
  rewrite En' in Hn1. split; try done; try lia.
  - by rewrite Es, En'.
  - apply fbytes_eq. intros k Hk. by apply (fs_new _ _ _ _ _ _ _ S).
  - intros k Hk Hout. apply (fs_old _ _ _ _ _ _ _ S); [lia|done|]. apply (io_mapped _ _ _ Hn).
    assert (0 < BSIZE) by done. split; [by apply Z.div_pos; [lia|]|].
    apply Z.div_lt_upper_bound; [done|]. destruct (blocks_bound (i_size n)); lia.
  - intros x Hx Hu Hno. split; [by apply (fs_other _ _ _ _ _ _ _ S)|]. pose proof (data_start_pos _ _ _ Hg).
    apply (fs_used _ _ _ _ _ _ _ S); [lia|done].
  - intros j Hj _. unfold ondisk. rewrite (fs_meta _ _ _ _ _ _ _ S); [done|].
    apply (IBLOCK_range _ _ _ Hg j Hj).
Qed.

Lemma step_stored sb l nd v n v1 n1 off src :
  let n' := inode_set_size (off + Z.of_nat (length src)) n1 in
  geometry sb l nd → inode_ok v sb n → 0 ≤ off ≤ i_size n →
  off + Z.of_nat (length src) ≤ BSIZE * MAXFILE → 0 ≤ i_inum n < sb_ninodes sb →
  s16_ok (i_type n) → s16_ok (i_major n) → s16_ok (i_minor n) → s16_ok (i_nlink n) →
  length (v1 (IBLOCK (i_inum n) sb)) = Z.to_nat BSIZE →
  n1 = set_addrs (i_addrs n1) n → file_step sb v (i_addrs n) v1 (i_addrs n1) off src →
  i_size n < off + Z.of_nat (length src) → written sb v n (store sb n' v1) n' off src.
Proof using.
  clear Hfuel. intros n' Hg Hn Hoff Hend Hi H1 H2 H3 H4 Hlen En S Hsz. assert (BSIZE * MAXFILE = 71680) by done.
  pose proof (io_size _ _ _ Hn). assert (En' : n' = inode_set_size (i_size n') (set_addrs (i_addrs n1) n)).
  { unfold n'. rewrite En at 1. by destruct n. }
  pose proof (step_inode _ _ _ _ _ _ _ (i_size n') Hn S Hoff ltac:(simpl; lia) ltac:(simpl; lia)) as Hn1.
  rewrite <- En' in Hn1. assert (Ei : i_inum n' = i_inum n) by (by rewrite En'). rewrite <- Ei in Hi, Hlen.
  destruct (store_file sb l nd v1 n' (i_addrs n1) Hg Hi (fs_ok _ _ _ _ _ _ _ S)) as (Hok&Hfa&Hby&Hfree).
  assert (HB : 0 < BSIZE) by done. pose proof (data_start_pos _ _ _ Hg).
  assert (Hds : sb_bmapstart sb ≤ data_start sb).
  { unfold data_start. pose proof (Z.div_pos (sb_size sb) BPB (proj1 (g_bm _ _ _ Hg)) ltac:(done)). lia. }
  split; try done; try (simpl; lia).
  - destruct Hn1 as [? ? ? ? Hmap]. split; try done. intros bn Hbn. change (i_addrs n') with (i_addrs n1). rewrite Hfa.
    by apply Hmap.
  - apply fbytes_eq. intros k Hk. destruct (fs_new _ _ _ _ _ _ _ S k Hk) as [Hk1 Hk2].
    change (i_addrs n') with (i_addrs n1). rewrite Hby; [done|lia|done].
  - intros k Hk Hout.
    assert (Hm : faddr v (i_addrs n) (k / BSIZE) ≠ 0).
    { apply (io_mapped _ _ _ Hn). split; [by apply Z.div_pos; [lia|]|].
      apply Z.div_lt_upper_bound; [done|]. destruct (blocks_bound (i_size n)); lia. }
    pose proof (file_block k ltac:(lia)) as Hb. change (i_addrs n') with (i_addrs n1).
    rewrite Hby; [by apply (fs_old _ _ _ _ _ _ _ S); [lia|..]|lia|].
    rewrite <- slot_faddr in * by lia. by rewrite (fs_slot _ _ _ _ _ _ _ S) by (done || lia).
  - intros x Hx Hu Hno. rewrite (store_other _ _ _ Hg) by (done || lia). split; [by apply (fs_other _ _ _ _ _ _ _ S)|].
    rewrite Hfree by lia. apply (fs_used _ _ _ _ _ _ _ S); [lia|done].
  - intros j Hj Hne. rewrite (ondisk_store_ne _ _ _ Hg) by (done || congruence). unfold ondisk.
    rewrite (fs_meta _ _ _ _ _ _ _ S); [done|]. apply (IBLOCK_range _ _ _ Hg j Hj).
  - intros _. rewrite <- Ei. apply ondisk_store; [lia|done|]. eapply inode_dinode_ok; try done; by rewrite En'.
Qed.

(** Members of a struct inode that are shorts. *)
Definition shorts_ok n : Prop := s16_ok (i_type n) ∧ s16_ok (i_major n) ∧ s16_ok (i_minor n) ∧ s16_ok (i_nlink n).

Lemma writei_run devsw s v n m r off src :
  let N := Z.of_nat (length src) in
  wr s v n m r ∅ → inode_ok v (k_sb s) n → shorts_ok n → 0 ≤ i_inum n < sb_ninodes (k_sb s) →
  0 ≤ off ≤ i_size n → off + N ≤ BSIZE * MAXFILE → MAXFILE + 1 < Z.of_nat fuel → span off N ≤ m →
  2 * span off N - (if faddr v (i_addrs n) (off / BSIZE) =? 0 then 0 else Z.min 1 N) < r →
  ∃ s' v' n', writei devsw ip src off N fuel s = Ret N s' ∧ tx s' i p v' ∅ ∧ fsframe s s' ∧
    k_ic s' = <[ip := n']> (k_ic s) ∧ written (k_sb s) v n v' n' off src.
Proof.
  intros N W Hn (Hs1&Hs2&Hs3&Hs4) Hi Hoff Hend Hf Hm Hr. assert (HM : BSIZE * MAXFILE = 71680) by done.
  pose proof Hn as [_ Hty _ Hsz _]. pose proof (wr_geo W) as Hg.
  assert (Hsp : span off N ≤ MAXFILE).
  { unfold span. destruct (N =? 0); [done|]. assert (0 < BSIZE) by done. pose proof (Z.div_pos off BSIZE ltac:(lia) ltac:(done)).
    pose proof (Z.div_lt_upper_bound (off + N - 1) BSIZE MAXFILE ltac:(done) ltac:(lia)). lia. }
  destruct (loop_run fuel s v n m r N 0 off src) as (s1&v1&n1&E1&W1&F1&En&C1&S1); rewrite ?Z.sub_0_r; try done; try lia.
  rewrite Z.sub_0_r in E1. unfold writei, get_inode, writei_loop, whileM. do 2 mred1.
  rewrite (wr_lookup _ _ _ _ _ _ _ W). rewrite (proj2 (Z.eqb_neq _ _) Hty), (u32_small (off + N)) by lia.
  rewrite !(proj2 (Z.ltb_ge _ _)) by lia. cbn [orb]. mred1. rewrite E1. cbn [obind]. do 2 mred1.
  rewrite (wr_lookup _ _ _ _ _ _ _ W1). assert (i_size n1 = i_size n) as -> by (by rewrite En).
  assert (s32 N = N) as -> by (apply swrap_small; lia).
  destruct (decide (i_size n < off + N)) as [Hlt|Hge].
  - rewrite !(proj2 (Z.ltb_lt _ _)) by lia. cbn [andb whenM]. set (n' := inode_set_size (off + N) n1).
    assert (Hlt1 : (ip < length (k_ic s1))%nat) by (by eapply lookup_lt_Some, (wr_ip W1)).
    set (s2 := set_ic (<[ip := n']> (k_ic s1)) s1).
    assert (Ei : i_inum n' = i_inum n) by (simpl; by rewrite En).
    pose proof (wr_budget _ _ _ _ _ _ _ W1) as Hb1.
    destruct (iupdate_run i p fuel Hfuel s2 v1 ip n') as (s3&E3&T3&F3&_).
    + apply tx_set_ic, W1.
    + by apply list_lookup_total_insert_eq.
    + exact (wr_dev W1).
    + exact (wr_geo W1).
    + rewrite Ei. change (k_sb s2) with (k_sb s1). by rewrite (fsframe_sb _ _ F1).
    + change (budget s2) with (budget s1). lia.
    + change (k_sb s2) with (k_sb s1) in T3. rewrite (fsframe_sb _ _ F1) in T3.
      exists s3, (store (k_sb s) n' v1), n'. unfold upd_inode. bred.
      rewrite (alter_insert_at _ _ _ n1) by apply W1. fold n' s2. rewrite E3. bred.
      split; [done|]. split; [done|]. split; [|split].
      * eapply fsframe_trans; [exact F1|]. eapply fsframe_trans; [apply (fsframe_set_ic s1)|by apply txframe_fsframe].
      * rewrite (txframe_ic _ _ F3). simpl. by rewrite C1, list_insert_insert_eq.
      * eapply step_stored; try done. eapply tx_block_length; [apply W1|].
        rewrite <- (fsframe_sb _ _ F1). eapply IBLOCK_range; [apply W1|]. by rewrite (fsframe_sb _ _ F1).
  - rewrite (proj2 (Z.ltb_ge (i_size n) (off + N))) by lia. rewrite andb_false_r. bred.
    exists s1, v1, n1. split; [done|]. split; [apply W1|]. split; [done|]. split; [done|].
    eapply step_written; try done. lia.
Qed.

(** In a transaction, with a file that is in order in slot [ip] of the cache. *)
Record file_ready s v n : Prop := mkReady {
  fr_tx : tx s i p v ∅;
  fr_ip : k_ic s !! ip = Some n;
  fr_geo : fs_geometry s;
  fr_inode : inode_ok v (k_sb s) n;
  fr_shorts : shorts_ok n;
  fr_inum : 0 ≤ i_inum n < sb_ninodes (k_sb s);
  fr_meta : meta_used v (k_sb s);
  fr_bitmap : bitmap_fuel fuel s;
  fr_fuel : MAXFILE + 1 < Z.of_nat fuel
}.

Lemma ready_wr s v n k :
  file_ready s v n → enough_free v (k_sb s) (S (Z.to_nat k)) → 0 ≤ k → wr s v n k (budget s - 2) ∅.
Proof.
  intros [T ? ? [? ? ? ? ?] ? ? ? ? ?] (X&HX&HF) Hk. split; try done.
  - exists X. split; [|done]. destruct (ind _ =? 0); lia.
  - pose proof (size_pinned_n _ _ (tx_log _ _ _ _ _ T)) as En. unfold budget, avail. rewrite <- En.
    rewrite (union_empty_l_L (pinned (k_log s))). unfold ind_cost. destruct (ind (i_addrs n) =? 0).
    + rewrite (union_empty_r_L (pinned (k_log s))). lia.
    + rewrite size_union_alt. pose proof (size_pair (ind (i_addrs n)) (BBLOCK (ind (i_addrs n)) (k_sb s))).
      pose proof (subseteq_size ({[ind (i_addrs n); BBLOCK (ind (i_addrs n)) (k_sb s)]} ∖ pinned (k_log s))
        {[ind (i_addrs n); BBLOCK (ind (i_addrs n)) (k_sb s)]} ltac:(set_solver)). lia.
Qed.

(** C4: [writei] of a regular file: -1 and no change for a range that starts beyond
    the end or reaches beyond the largest file; otherwise, with enough free
    blocks and log space, all the bytes are written. *)
Theorem writei_spec devsw s v n off src :
  let N := Z.of_nat (length src) in
  file_ready s v n → 0 ≤ off < 2 ^ 32 → N < 2 ^ 31 →
  enough_free v (k_sb s) (S (Z.to_nat (span off N))) → 2 * span off N + 3 ≤ budget s →
  if (i_size n <? off) || (BSIZE * MAXFILE <? off + N)
  then writei devsw ip src off N fuel s = Ret (-1) s
  else ∃ s' v' n', writei devsw ip src off N fuel s = Ret N s' ∧ tx s' i p v' ∅ ∧ fsframe s s' ∧
    k_ic s' = <[ip := n']> (k_ic s) ∧ written (k_sb s) v n v' n' off src.
Proof.
  intros N R Hoff HN He Hb. pose proof (fr_inode _ _ _ R) as Hok. pose proof (fr_fuel _ _ _ R).
  destruct ((i_size n <? off) || (BSIZE * MAXFILE <? off + N)) eqn:E.
  - pose proof Hok as [_ Hty _ Hsz _]. unfold writei, get_inode. do 2 mred1.
    rewrite (list_lookup_total_correct _ _ _ (fr_ip _ _ _ R)), (proj2 (Z.eqb_neq _ _) Hty).
    assert (BSIZE * MAXFILE = 71680) by done. rewrite (Z.mul_comm MAXFILE BSIZE).
    apply orb_true_iff in E as [->|E%Z.ltb_lt]; [done|]. destruct (i_size n <? off) eqn:Eo; [done|].
    apply Z.ltb_ge in Eo. rewrite (u32_small (off + N)) by lia.
    rewrite (proj2 (Z.ltb_ge (off + N) off)), (proj2 (Z.ltb_lt _ _)) by lia. done.
  - apply orb_false_iff in E as [?%Z.ltb_ge ?%Z.ltb_ge].
    pose proof (span_pos off N ltac:(lia) ltac:(lia)).
    apply (writei_run devsw s v n (span off N) (budget s - 2)); try apply R; try done; try lia; [by apply ready_wr|].
    fold N. assert (0 ≤ N) by lia. destruct (faddr _ _ _ =? 0); lia.
Qed.


(** C32: What was written is what is read. *)
Theorem writei_readi devsw s v n off src :
  let N := Z.of_nat (length src) in
  file_ready s v n → 0 ≤ off ≤ i_size n → off + N ≤ BSIZE * MAXFILE →
  enough_free v (k_sb s) (S (Z.to_nat (span off N))) → 2 * span off N + 3 ≤ budget s →
  ∃ s1, writei devsw ip src off N fuel s = Ret N s1 ∧
    ∃ s2, readi devsw ip off N fuel s1 = Ret (N, src) s2.
Proof.
  intros N R Hoff Hend He Hb. pose proof (fr_inode _ _ _ R) as Hok. pose proof (fr_fuel _ _ _ R).
  pose proof (span_pos off N ltac:(lia) ltac:(lia)). assert (BSIZE * MAXFILE = 71680) by done.
  destruct (writei_run devsw s v n (span off N) (budget s - 2) off src) as (s1&v1&n1&E1&T1&F1&C1&Hw);
    try apply R; try done; try lia; [by apply ready_wr|fold N; assert (0 ≤ N) by lia; destruct (faddr _ _ _ =? 0); lia|].
  exists s1. split; [done|].
  destruct (readi_run i p fuel Hfuel devsw s1 v1 ip n1 off N) as (s2&E2&_); try done; try lia.
  - rewrite C1. apply list_lookup_total_insert_eq. by eapply lookup_lt_Some, R.
  - by eapply fsframe_geometry, R.
  - rewrite (fsframe_sb _ _ F1). apply Hw.
  - rewrite (wt_size _ _ _ _ _ _ _ Hw). lia.
  - exists s2. rewrite E2. rewrite (wt_size _ _ _ _ _ _ _ Hw), Z.min_l by lia.
    do 2 f_equal. exact (wt_new _ _ _ _ _ _ _ Hw).
Qed.
End run.
