(* ===== verification/Dir.v ===== *)
(** Directories and paths, kernel/fs.c: [dirlookup] and [dirlink] against a
    directory as a list of entries, [skipelem] against the components of a
    path. *)

From stdpp Require Import functions base list gmap strings.
From Stdlib Require Import ZArith Lia.
From S2P Require Import Prelude CString Bytes Monad Kstate Spinlock Sched Bio Log Fs Icache Tx Balloc Inode Dinode Writei.

(** * Directories as lists of entries *)

Definition entry_at (v : Z → list Z) (addrs : list Z) (k : Z) : dirent :=
  decode_dirent (fbytes v addrs (dirent_size * k) dirent_size).
Definition entries (v : Z → list Z) (addrs : list Z) (cnt : Z) : list dirent := entry_at v addrs <$> seqZ 0 cnt.

(** The entry of [name]: the first in use with that name, and its position
    counted from [k]. *)
Definition entry_matches (name : list Z) (de : dirent) : bool :=
  negb (de_inum de =? 0) && (namecmp name (de_name de) =? 0).
Fixpoint find_entry (name : list Z) (l : list dirent) (k : Z) : option (Z * Z) :=
  match l with
  | [] => None
  | de :: l => if entry_matches name de then Some (de_inum de, k) else find_entry name l (k + 1)
  end.
(** The first free entry, or the end. *)
Fixpoint free_entry (l : list dirent) (k : Z) : Z :=
  match l with
  | [] => k
  | de :: l => if de_inum de =? 0 then k else free_entry l (k + 1)
  end.

(** What a directory says of a name. *)
Definition dir_get (name : list Z) (l : list dirent) : option Z := fst <$> find_entry name l 0.
(** The list with an entry stored in a free place or at the end. *)
Definition put_entry (de : dirent) (l : list dirent) : list dirent :=
  let k := Z.to_nat (free_entry l 0) in
  if decide (k < length l)%nat then <[k := de]> l else l ++ [de].

Section lists.
Implicit Types (name : list Z) (l : list dirent) (de : dirent) (k : Z).

Lemma free_entry_bound l k : k ≤ free_entry l k ≤ k + Z.of_nat (length l).
Proof. revert k. induction l as [|de l IH]; intros k; simpl; [lia|]. case_match; [lia|]. specialize (IH (k + 1)). lia. Qed.

Lemma free_entry_shift l k : free_entry l k = k + free_entry l 0.
Proof.
  revert k. induction l as [|de l IH]; intros k; simpl; [lia|]. case_match; [lia|].
  rewrite (IH (k + 1)), (IH (0 + 1)). lia.
Qed.

Lemma find_shift name l k : find_entry name l k = (λ r, (r.1, k + r.2)) <$> find_entry name l 0.
Proof.
  revert k. induction l as [|de l IH]; intros k; simpl; [done|]. case_match.
  - simpl. by rewrite Z.add_0_r.
  - rewrite (IH (k + 1)), (IH (0 + 1)). destruct (find_entry name l 0) as [[r j]|]; simpl; [|done].
    f_equal. f_equal. lia.
Qed.

Lemma dir_get_cons name de l :
  dir_get name (de :: l) = if entry_matches name de then Some (de_inum de) else dir_get name l.
Proof.
  unfold dir_get. simpl. case_match; [done|]. rewrite find_shift. by destruct (find_entry name l 0).
Qed.

Lemma put_entry_cons de d l :
  put_entry de (d :: l) = if de_inum d =? 0 then de :: l else d :: put_entry de l.
Proof.
  unfold put_entry. cbn [free_entry length]. destruct (de_inum d =? 0).
  { by rewrite decide_True by lia. }
  pose proof (free_entry_bound l 0). rewrite (free_entry_shift l (0 + 1)). replace (Z.to_nat (0 + 1 + free_entry l 0)) with (S (Z.to_nat (free_entry l 0))) by lia.
  simpl. repeat case_decide; try lia; done.
Qed.

(** Storing an entry binds its name and changes no other binding. *)
Lemma dir_get_put name de l :
  dir_get name l = None ∨ entry_matches name de = false →
  dir_get name (put_entry de l) = if entry_matches name de then Some (de_inum de) else dir_get name l.
Proof.
  induction l as [|d l IH]; intros H.
  - unfold put_entry. simpl. by rewrite dir_get_cons.
  - rewrite put_entry_cons, dir_get_cons in *. destruct (Z.eqb_spec (de_inum d) 0) as [E|E].
    + rewrite dir_get_cons.
      assert (entry_matches name d = false) as -> by (unfold entry_matches; by rewrite E). done.
    + rewrite dir_get_cons. destruct (entry_matches name d); [|by apply IH].
      destruct H as [?|H]; [done|]. by rewrite H.
Qed.

(** A name is its characters up to a NUL. *)
Lemma strncmp_cstr (a b c : list Z) n : cstr a n = cstr b n → strncmp_list a c n = strncmp_list b c n.
Proof.
  revert a b c. induction n as [|n IH]; intros a b c; [done|].
  destruct a as [|x a], b as [|y b]; cbn [cstr strncmp_list head tail default]; simpl.
  - done.
  - destruct (Z.eqb_spec y 0) as [->|]; [done|]. done.
  - destruct (Z.eqb_spec x 0) as [->|]; [done|]. done.
  - destruct (Z.eqb_spec x 0) as [->|], (Z.eqb_spec y 0) as [->|]; simpl; try done.
    intros [= -> E]. case_match; [by apply IH|done].
Qed.

Lemma find_cstr name name' l k :
  cstr name (Z.to_nat DIRSIZ) = cstr name' (Z.to_nat DIRSIZ) → find_entry name l k = find_entry name' l k.
Proof.
  intros E. revert k. induction l as [|de l IH]; intros k; cbn [find_entry]; [done|].
  unfold entry_matches, namecmp. by rewrite (strncmp_cstr _ _ _ _ E), IH.
Qed.

(** The name [strncpy] stores is found under every spelling of it. *)
Lemma matches_new name name' inum :
  Forall (λ c, 0 ≤ c < 2 ^ 8) name → Forall (λ c, 0 ≤ c < 2 ^ 8) name' → inum ≠ 0 →
  entry_matches name' (mkDirent inum (strncpy_list name (Z.to_nat DIRSIZ))) =
    bool_decide (cstr name' (Z.to_nat DIRSIZ) = cstr name (Z.to_nat DIRSIZ)).
Proof.
  intros Hn Hn' Hi. unfold entry_matches, namecmp. cbn [de_inum de_name]. rewrite (proj2 (Z.eqb_neq _ _) Hi).
  cbn [negb andb]. generalize (Z.to_nat DIRSIZ). intros n.
  apply eq_true_iff_eq. rewrite Z.eqb_eq, bool_decide_eq_true, strncmp_list_eq; [|done|].
  - by rewrite cstr_strncpy_list.
  - revert name Hn. induction n as [|n IH]; intros name Hn; simpl; [done|].
    case_match; [constructor; [lia|]; apply Forall_replicate; lia|]. constructor.
    + destruct name; simpl; [lia|]. by apply Forall_cons in Hn as [? _].
    + apply IH. destruct name; [done|]. by apply Forall_cons in Hn as [_ ?].
Qed.

Lemma length_entries v a cnt : length (entries v a cnt) = Z.to_nat cnt.
Proof. unfold entries. by rewrite length_fmap, length_seqZ. Qed.
End lists.

(** * The operations *)

Section run.
Context (i p fuel : nat) (Hfuel : (NBUF < fuel)%nat) (devsw : Z → devops) (dp : nat).
Implicit Types (s : kstate) (v : Z → list Z) (n : inode) (name : list Z) (k cnt : Z).

(** A directory of [cnt] entries in slot [dp]. *)
Record dir_ready s v n cnt : Prop := mkDir {
  dr_ready : file_ready i p fuel dp s v n;
  dr_type : i_type n = T_DIR;
  dr_size : i_size n = dirent_size * cnt;
  dr_fuel : cnt < Z.of_nat fuel
}.

(** Entry [k] is read. *)
Lemma read_entry s v n cnt k :
  dir_ready s v n cnt → 0 ≤ k < cnt →
  ∃ s', readi devsw dp (dirent_size * k) dirent_size fuel s =
      Ret (dirent_size, fbytes v (i_addrs n) (dirent_size * k) dirent_size) s' ∧
    dir_ready s' v n cnt ∧ txframe s s' ∧ k_log s' = k_log s.
Proof.
  intros [R Hty Hsz Hf] Hk. assert (BSIZE * MAXFILE = 71680) by done. unfold dirent_size in *.
  pose proof (fr_inode _ _ _ _ _ _ _ R) as Hok. pose proof (io_size _ _ _ Hok).
  destruct (readi_run i p fuel Hfuel devsw s v dp n (16 * k) 16) as (s'&E&T&F&L); try apply R; try lia.
  { apply list_lookup_total_correct, R. }
  rewrite Z.min_l in E by lia. exists s'. split; [exact E|]. split; [|done].
  split; try done. destruct R. split; rewrite ?(txframe_sb _ _ F), ?(txframe_ic _ _ F); try done.
  - by eapply txframe_geometry.
  - unfold bitmap_fuel in *. by rewrite (txframe_sb _ _ F).
Qed.

Lemma dir_next k cnt : 0 ≤ k < cnt → cnt * 16 ≤ 71680 → u32 (dirent_size * k + dirent_size) = dirent_size * (k + 1).
Proof using. clear Hfuel. intros. unfold dirent_size. rewrite u32_small by lia. lia. Qed.

Lemma dir_cnt s v n cnt : dir_ready s v n cnt → cnt * 16 ≤ 71680 ∧ 0 ≤ cnt.
Proof.
  intros [R _ Hsz _]. pose proof (io_size _ _ _ (fr_inode _ _ _ _ _ _ _ R)) as H.
  change (BSIZE * MAXFILE) with 71680 in H. unfold dirent_size in *. lia.
Qed.

Lemma entries_drop v a k cnt :
  0 ≤ k < cnt → drop (Z.to_nat k) (entries v a cnt) = entry_at v a k :: drop (Z.to_nat (k + 1)) (entries v a cnt).
Proof using.
  clear Hfuel. intros Hk. replace (Z.to_nat (k + 1)) with (S (Z.to_nat k)) by lia. apply drop_S. unfold entries.
  rewrite list_lookup_fmap, lookup_seqZ_lt by lia. simpl. do 2 f_equal. lia.
Qed.

(** The search from entry [k] on. *)
Lemma lookup_loop nf s v n cnt name k :
  dir_ready s v n cnt → 0 ≤ k ≤ cnt → cnt - k < Z.of_nat nf →
  ∃ s', dir_ready s' v n cnt ∧ txframe s s' ∧ k_log s' = k_log s ∧
    loop_fuel nf (dirlookup_round devsw dp name) (dirent_size * k) fuel s =
      match find_entry name (drop (Z.to_nat k) (entries v (i_addrs n) cnt)) k with
      | None => Ret None s'
      | Some (inum, j) => (ip ← iget 1 inum; mret (Some (ip, dirent_size * j))) fuel s'
      end.
Proof.
  revert s k. induction nf as [|nf IH]; intros s k D Hk Hn; [lia|]. pose proof (dir_cnt _ _ _ _ D) as [Hc _].
  pose proof (list_lookup_total_correct _ _ _ (fr_ip _ _ _ _ _ _ _ (dr_ready _ _ _ _ D))) as Hip.
  rewrite loop_fuel_S. unfold dirlookup_round at 2, get_inode. do 2 mred1. rewrite Hip, (dr_size _ _ _ _ D).
  destruct (decide (k = cnt)) as [->|Hne].
  { rewrite (proj2 (Z.ltb_ge _ _)) by lia. exists s. split; [done|]. split; [apply txframe_refl|]. split; [done|].
    by rewrite drop_ge by (rewrite length_entries; lia). }
  rewrite (proj2 (Z.ltb_lt _ _)) by (unfold dirent_size; lia). cbn [negb]. mred1.
  destruct (read_entry s v n cnt k D ltac:(lia)) as (s1&E1&D1&F1&L1). rewrite E1. cbn [obind fst snd].
  rewrite Z.eqb_refl. cbn [negb]. fold (entry_at v (i_addrs n) k). rewrite entries_drop by lia. cbn [find_entry].
  unfold entry_matches. rewrite (io_dev _ _ _ (fr_inode _ _ _ _ _ _ _ (dr_ready _ _ _ _ D))).
  destruct (IH s1 (k + 1) D1 ltac:(lia) ltac:(lia)) as (s2&D2&F2&L2&E2).
  rewrite (dir_next k cnt) by lia.
  assert (Hgo : ∃ s', dir_ready s' v n cnt ∧ txframe s s' ∧ k_log s' = k_log s ∧
    loop_fuel nf (dirlookup_round devsw dp name) (dirent_size * (k + 1)) fuel s1 =
      match find_entry name (drop (Z.to_nat (k + 1)) (entries v (i_addrs n) cnt)) (k + 1) with
      | None => Ret None s'
      | Some (inum, j) => (ip ← iget 1 inum; mret (Some (ip, dirent_size * j))) fuel s'
      end).
  { exists s2. split; [done|]. split; [by eapply txframe_trans|]. split; [congruence|done]. }
  destruct (de_inum _ =? 0); [exact Hgo|]. cbn [negb andb]. destruct (namecmp _ _ =? 0); [|exact Hgo].
  exists s1. split; [done|]. split; [done|]. split; [done|]. mred1. rewrite obind_obind; [done|].
  eapply (iget_no_swtch fuel s1 i p), (tx_ready _ _ _ _ _ (fr_tx _ _ _ _ _ _ _ (dr_ready _ _ _ _ D1))).
Qed.

(** [dirlookup] finds the entry of a name, if there is one, and takes its inode
    from the cache. *)
Lemma dirlookup_run s v n cnt name :
  dir_ready s v n cnt →
  ∃ s', dir_ready s' v n cnt ∧ txframe s s' ∧ k_log s' = k_log s ∧
    dirlookup devsw dp name fuel s =
      match find_entry name (entries v (i_addrs n) cnt) 0 with
      | None => Ret None s'
      | Some (inum, j) => (ip ← iget 1 inum; mret (Some (ip, dirent_size * j))) fuel s'
      end.
Proof.
  intros D. pose proof (dir_cnt _ _ _ _ D) as [_ Hc]. pose proof (dr_fuel _ _ _ _ D).
  destruct (lookup_loop fuel s v n cnt name 0 D ltac:(lia) ltac:(lia)) as (s'&D'&F&L&E).
  exists s'. split; [done|]. split; [done|]. split; [done|]. unfold dirlookup, get_inode, whileM. do 2 mred1.
  rewrite (list_lookup_total_correct _ _ _ (fr_ip _ _ _ _ _ _ _ (dr_ready _ _ _ _ D))), (dr_type _ _ _ _ D).
  exact E.
Qed.

Lemma slot_loop nf s v n cnt k :
  dir_ready s v n cnt → 0 ≤ k ≤ cnt → cnt - k < Z.of_nat nf →
  ∃ s', dir_ready s' v n cnt ∧ txframe s s' ∧ k_log s' = k_log s ∧
    loop_fuel nf (dirlink_round devsw dp) (dirent_size * k) fuel s =
      Ret (dirent_size * free_entry (drop (Z.to_nat k) (entries v (i_addrs n) cnt)) k) s'.
Proof.
  revert s k. induction nf as [|nf IH]; intros s k D Hk Hn; [lia|]. pose proof (dir_cnt _ _ _ _ D) as [Hc _].
  pose proof (list_lookup_total_correct _ _ _ (fr_ip _ _ _ _ _ _ _ (dr_ready _ _ _ _ D))) as Hip.
  assert (Hu : u32 (dirent_size * k) = dirent_size * k) by (apply u32_small; unfold dirent_size; lia).
  rewrite loop_fuel_S. unfold dirlink_round at 2, get_inode. do 2 mred1. rewrite Hip, (dr_size _ _ _ _ D), Hu.
  destruct (decide (k = cnt)) as [->|Hne].
  { rewrite (proj2 (Z.ltb_ge _ _)) by lia. exists s. split; [done|]. split; [apply txframe_refl|]. split; [done|].
    by rewrite drop_ge by (rewrite length_entries; lia). }
  rewrite (proj2 (Z.ltb_lt _ _)) by (unfold dirent_size; lia). cbn [negb]. mred1.
  destruct (read_entry s v n cnt k D ltac:(lia)) as (s1&E1&D1&F1&L1). rewrite E1. cbn [obind fst snd].
  rewrite Z.eqb_refl. cbn [negb]. fold (entry_at v (i_addrs n) k). rewrite entries_drop by lia. cbn [free_entry].
  destruct (de_inum _ =? 0); [by exists s1|]. mred1.
  assert (s32 (dirent_size * k + dirent_size) = dirent_size * (k + 1)) as ->.
  { unfold dirent_size in *. etrans; [apply swrap_small; lia|lia]. }
  destruct (IH s1 (k + 1) D1 ltac:(lia) ltac:(lia)) as (s2&D2&F2&L2&E2).
  exists s2. split; [done|]. split; [by eapply txframe_trans|]. split; [congruence|done].
Qed.

Lemma decode_encode de :
  0 ≤ de_inum de < 2 ^ 16 → length (de_name de) = Z.to_nat DIRSIZ → decode_dirent (encode_dirent de) = de.
Proof using.
  clear Hfuel. destruct de as [k nm]. cbn [de_inum de_name]. intros Hk Hl. unfold decode_dirent, encode_dirent. cbn [de_inum de_name].
  f_equal.
  - unfold get16, slice. rewrite drop_0. change (Z.to_nat 0) with 0%nat.
    rewrite take_app_length' by (by rewrite length_le_bytes). rewrite le_val_bytes. apply Z.mod_small. simpl in *. lia.
  - unfold slice. rewrite drop_app_length' by (by rewrite length_le_bytes). apply take_ge. rewrite Hl. done.
Qed.

Lemma length_encode de : length (de_name de) = Z.to_nat DIRSIZ → length (encode_dirent de) = 16%nat.
Proof using. clear Hfuel. intros Hl. unfold encode_dirent. rewrite length_app, length_le_bytes, Hl. done. Qed.

(** The entries after one is written at place [k]. *)
Lemma entries_put sb v n v' n' cnt de :
  let l := entries v (i_addrs n) cnt in let k := free_entry l 0 in
  written sb v n v' n' (dirent_size * k) (encode_dirent de) → i_size n = dirent_size * cnt → 0 ≤ cnt →
  0 ≤ de_inum de < 2 ^ 16 → length (de_name de) = Z.to_nat DIRSIZ →
  ∃ cnt', i_size n' = dirent_size * cnt' ∧ entries v' (i_addrs n') cnt' = put_entry de l.
Proof using.
  clear Hfuel. intros l k W Hsz Hc Hi Hn. unfold dirent_size in *. pose proof (length_encode de Hn) as Hle.
  pose proof (free_entry_bound l 0) as Hk. fold k in Hk. unfold l in Hk. rewrite length_entries in Hk. fold l in Hk.
  pose proof (wt_size _ _ _ _ _ _ _ W) as Hsz'. rewrite Hle, Hsz in Hsz'.
  set (cnt' := Z.max cnt (k + 1)). exists cnt'. split; [unfold cnt'; lia|].
  assert (Hat : ∀ j, 0 ≤ j < cnt' → entry_at v' (i_addrs n') j = if decide (j = k) then de else entry_at v (i_addrs n) j).
  { intros j Hj. unfold entry_at, dirent_size. case_decide as E.
    - subst j. pose proof (wt_new _ _ _ _ _ _ _ W) as Hw. rewrite Hle in Hw. change (Z.of_nat 16) with 16 in Hw.
      rewrite Hw. by apply decode_encode.
    - f_equal. unfold fbytes. apply list_fmap_ext. intros x y Hy. apply lookup_seqZ in Hy as [-> Hy].
      apply (wt_old _ _ _ _ _ _ _ W); rewrite ?Hle; unfold cnt' in *; lia. }
  apply list_eq_same_length with (Z.to_nat cnt').
  - unfold put_entry. fold k. case_decide as Hd.
    + rewrite length_insert. unfold l in *. rewrite length_entries in *. unfold cnt'. lia.
    + rewrite length_app. unfold l in *. rewrite length_entries in *. simpl. unfold cnt'. lia.
  - apply length_entries.
  - intros j x y Hj. unfold entries at 1. rewrite list_lookup_fmap, lookup_seqZ_lt by lia. simpl.
    intros [= <-]. rewrite Hat by lia. replace (0 + Z.of_nat j) with (Z.of_nat j) by lia.
    assert (Hl : ∀ j, (j < Z.to_nat cnt)%nat → l !! j = Some (entry_at v (i_addrs n) (Z.of_nat j))).
    { intros j' Hj'. unfold l, entries. rewrite list_lookup_fmap, lookup_seqZ_lt by lia. simpl. done. }
    unfold put_entry. fold k. assert (length l = Z.to_nat cnt) as Hll by apply length_entries.
    case_decide as Hd; case_decide as E.
    + rewrite <- E, Nat2Z.id, list_lookup_insert_eq by lia. by intros [= <-].
    + rewrite list_lookup_insert_ne by lia. rewrite Hl by (unfold cnt' in *; lia). by intros [= <-].
    + rewrite lookup_app_r by lia. replace (j - length l)%nat with 0%nat by (unfold cnt' in *; lia). by intros [= <-].
    + rewrite lookup_app_l by (unfold cnt' in *; lia). rewrite Hl by (unfold cnt' in *; lia). by intros [= <-].
Qed.

(** C34: [dirlookup] finds what the directory says of a name: nothing, or the inode
    of the first entry in use with that name, which it takes from the cache;
    the directory stays as it is. *)
Theorem dirlookup_spec s v n cnt name :
  dir_ready s v n cnt →
  ∃ s', tx s' i p v ∅ ∧ txframe s s' ∧
    match find_entry name (entries v (i_addrs n) cnt) 0 with
    | None => dirlookup devsw dp name fuel s = Ret None s'
    | Some (inum, j) =>
        dirlookup devsw dp name fuel s = (ip ← iget 1 inum; mret (Some (ip, dirent_size * j))) fuel s'
    end.
Proof.
  intros D. destruct (dirlookup_run s v n cnt name D) as (s'&D'&F&_&E). exists s'.
  split; [apply D'|]. split; [done|]. rewrite E. by destruct (find_entry _ _ _) as [[]|].
Qed.

Lemma slot_run s v n cnt :
  dir_ready s v n cnt →
  ∃ s', dir_ready s' v n cnt ∧ txframe s s' ∧ k_log s' = k_log s ∧
    dirlink_slot devsw dp fuel s = Ret (dirent_size * free_entry (entries v (i_addrs n) cnt) 0) s'.
Proof.
  intros D. pose proof (dir_cnt _ _ _ _ D). pose proof (dr_fuel _ _ _ _ D).
  destruct (slot_loop fuel s v n cnt 0 D ltac:(lia) ltac:(lia)) as (s'&D'&F&L&E). by exists s'.
Qed.

(** An entry lies in one block. *)
Lemma span_entry k : 0 ≤ k → span (dirent_size * k) dirent_size = 1.
Proof using.
  clear Hfuel. intros Hk. unfold span, dirent_size, BSIZE. simpl.
  pose proof (Z.div_mod k 32 ltac:(lia)) as E. pose proof (Z.mod_pos_bound k 32 ltac:(lia)).
  replace (16 * k + 16 - 1) with (16 * (k mod 32) + 15 + k / 32 * 512) by lia.
  replace (16 * k) with (16 * (k mod 32) + k / 32 * 512) by lia.
  rewrite !Z.div_add by lia. rewrite (Z.div_small (16 * (k mod 32) + 15)), (Z.div_small (16 * (k mod 32))) by lia. lia.
Qed.

(** C14: [dirlink] of a new name binds it to the inode and changes what the
    directory says of no other name; no other file changes. For a name that is
    there already it gives the inode back and returns -1. *)
Theorem dirlink_spec s v n cnt name inum :
  let l := entries v (i_addrs n) cnt in
  dir_ready s v n cnt → Forall (λ c, 0 ≤ c < 2 ^ 8) name → 0 < inum < 2 ^ 16 →
  enough_free v (k_sb s) 2 → 5 ≤ budget s → dirent_size * (cnt + 1) ≤ BSIZE * MAXFILE →
  match find_entry name l 0 with
  | Some (old, _) => ∃ s', txframe s s' ∧
      dirlink devsw dp name inum fuel s = (ip ← iget 1 old; iput ip;; mret (-1)) fuel s'
  | None => ∃ s' v' n' cnt', dirlink devsw dp name inum fuel s = Ret 0 s' ∧ tx s' i p v' ∅ ∧
      k_ic s' = <[dp := n']> (k_ic s) ∧ inode_ok v' (k_sb s) n' ∧ i_size n' = dirent_size * cnt' ∧
      (∀ name', Forall (λ c, 0 ≤ c < 2 ^ 8) name' →
         dir_get name' (entries v' (i_addrs n') cnt') =
           if decide (cstr name' (Z.to_nat DIRSIZ) = cstr name (Z.to_nat DIRSIZ)) then Some inum else dir_get name' l) ∧
      (∀ x, data_start (k_sb s) ≤ x < sb_size (k_sb s) → free v (k_sb s) x = false →
         ¬ owns v (i_addrs n) x → v' x = v x)
  end.
Proof.
  intros l D Hname Hi He Hb Hmax. destruct (dirlookup_run s v n cnt name D) as (s1&D1&F1&L1&E1). fold l in E1.
  unfold dirlink. mred1. rewrite E1. destruct (find_entry name l 0) as [[old j]|] eqn:Hf.
  - exists s1. split; [done|]. mred1. rewrite obind_obind; [done|].
    eapply (iget_no_swtch fuel s1 i p), (tx_ready _ _ _ _ _ (fr_tx _ _ _ _ _ _ _ (dr_ready _ _ _ _ D1))).
  - cbn [obind]. mred1. destruct (slot_run s1 v n cnt D1) as (s2&D2&F2&L2&E2). rewrite E2. cbn [obind]. fold l.
    set (k := free_entry l 0). pose proof (dir_cnt _ _ _ _ D) as [Hc Hc0].
    pose proof (free_entry_bound l 0) as Hk. fold k in Hk. unfold l in Hk. rewrite length_entries in Hk. fold l in Hk.
    set (de := mkDirent (u16 inum) (strncpy_list name (Z.to_nat DIRSIZ))).
    assert (Hu : u16 inum = inum) by (apply Z.mod_small; lia).
    assert (Hdn : length (de_name de) = Z.to_nat DIRSIZ) by apply length_strncpy_list.
    assert (HF : txframe s s2) by (by eapply txframe_trans).
    pose proof (dr_ready _ _ _ _ D2) as R2.
    assert (HM : BSIZE * MAXFILE = 71680) by done. unfold dirent_size in Hmax.
    pose proof (dr_size _ _ _ _ D2) as Hsz. pose proof (span_entry k ltac:(lia)) as Hsp.
    destruct (writei_run i p fuel Hfuel dp devsw s2 v n 1 (budget s2 - 2) (dirent_size * k) (encode_dirent de))
      as (s3&v3&n3&E3&T3&F3&C3&W3); rewrite ?(length_encode de Hdn); change (Z.of_nat 16) with dirent_size; rewrite ?Hsp;
      try apply R2; try (unfold dirent_size in *; lia).
    + eapply ready_wr; [done|done| |lia]. by rewrite (txframe_sb _ _ HF).
    + assert (budget s2 = budget s) as -> by (unfold budget; by rewrite L2, L1).
      destruct (faddr _ _ _ =? 0); unfold dirent_size; lia.
    + mred1. rewrite (length_encode de Hdn) in E3. change (Z.of_nat 16) with dirent_size in E3.
      rewrite (u32_small (dirent_size * k)) by (unfold dirent_size; lia). rewrite E3. cbn [obind].
      rewrite Z.eqb_refl. cbn [negb]. rewrite (txframe_sb _ _ HF) in W3.
      destruct (entries_put (k_sb s) v n v3 n3 cnt de W3 (dr_size _ _ _ _ D) Hc0) as (cnt'&Hs'&Hent);
        [simpl; rewrite Hu; lia|done|].
      exists s3, v3, n3, cnt'. split; [done|]. split; [done|]. split; [by rewrite C3, (txframe_ic _ _ HF)|].
      split; [apply W3|]. split; [done|]. split; [|intros x Hx Hux Hno; by apply (wt_other _ _ _ _ _ _ _ W3)].
      intros name' Hn'. rewrite Hent. fold l.
      pose proof (matches_new name name' inum Hname Hn' ltac:(lia)) as Hm. rewrite <- Hu in Hm at 1. fold de in Hm.
      rewrite dir_get_put.
      * rewrite Hm. case_bool_decide as Hd; [rewrite decide_True by done; simpl; by rewrite Hu|by rewrite decide_False].
      * destruct (entry_matches name' de) eqn:Hmm; [left|by right]. symmetry in Hm. apply bool_decide_eq_true in Hm.
        unfold dir_get. by rewrite (find_cstr name' name l 0 Hm), Hf.
Qed.
End run.

(** * Paths *)

(** The elements between the slashes, empty ones included. *)
Fixpoint split_slash (path : list Z) : list (list Z) :=
  match path with
  | [] => [[]]
  | c :: path =>
      if c =? 47 then [] :: split_slash path else
      match split_slash path with
      | s :: l => (c :: s) :: l
      | [] => [[c]]
      end
  end.
Definition components (path : list Z) : list (list Z) := filter (λ s, s ≠ []) (split_slash path).

(** The elements that repeated calls of [skipelem] deliver, as C strings. *)
Fixpoint elements_of (n : nat) (path name : list Z) : list (list Z) :=
  match n with
  | O => []
  | S n =>
      match skipelem path name with
      | None => []
      | Some (path, name) => cstr name (Z.to_nat DIRSIZ) :: elements_of n path name
      end
  end.

Section paths.
Implicit Types (path s name : list Z).

Lemma skip_components path : components (skip_slashes path) = components path.
Proof.
  induction path as [|c path IH]; [done|]. cbn [skip_slashes]. destruct (Z.eqb_spec c 47) as [->|]; [|done].
  rewrite IH. done.
Qed.

Lemma skip_head path : head (skip_slashes path) ≠ Some 47.
Proof.
  induction path as [|c path IH]; [done|]. cbn [skip_slashes]. destruct (Z.eqb_spec c 47); [done|]. simpl. congruence.
Qed.

Lemma skip_length path : (length (skip_slashes path) ≤ length path)%nat.
Proof. induction path as [|c path IH]; [done|]. cbn [skip_slashes]. case_match; simpl; lia. Qed.

Lemma skip_nonzero path : Forall (.≠ 0) path → Forall (.≠ 0) (skip_slashes path).
Proof.
  induction path as [|c path IH]; [done|]. cbn [skip_slashes]. intros [? ?]%Forall_cons. case_match; [by apply IH|].
  by constructor.
Qed.

(** The element at the front. *)
Lemma span_elem_spec path s rest :
  Forall (.≠ 0) path → span_elem path = (s, rest) →
  path = s ++ rest ∧ Forall (.≠ 47) s ∧ (rest = [] ∨ head rest = Some 47).
Proof.
  revert s rest. induction path as [|c path IH]; intros s rest Hz; cbn [span_elem].
  - intros [= <- <-]. split_and!; [done|done|by left].
  - apply Forall_cons in Hz as [Hc Hz]. destruct (Z.eqb_spec c 47) as [->|H47]; simpl.
    { intros [= <- <-]. split_and!; [done|done|by right]. }
    rewrite (proj2 (Z.eqb_neq _ _) Hc). destruct (span_elem path) as [s' r'] eqn:E. intros [= <- <-].
    destruct (IH s' r' Hz eq_refl) as (->&Hs&Hr). split_and!; [done|by constructor|done].
Qed.

Lemma split_elem s : Forall (.≠ 47) s → ∀ rest,
  split_slash (s ++ rest) =
    match rest with [] => [s] | c :: r => if c =? 47 then s :: split_slash r else split_slash (s ++ rest) end.
Proof.
  induction 1 as [|c s Hc Hs IH]; intros rest.
  - destruct rest as [|c r]; [done|]. cbn [app split_slash]. by case_match.
  - specialize (IH rest). destruct rest as [|d r].
    + cbn [app split_slash]. by rewrite (proj2 (Z.eqb_neq _ _) Hc), IH.
    + destruct (Z.eqb_spec d 47) as [->|]; [|done]. cbn [app split_slash].
      by rewrite (proj2 (Z.eqb_neq _ _) Hc), IH.
Qed.

Lemma components_elem s rest :
  Forall (.≠ 47) s → s ≠ [] → rest = [] ∨ head rest = Some 47 →
  components (s ++ rest) = s :: components rest.
Proof.
  intros Hs Hne Hr. unfold components. rewrite split_elem by done.
  destruct rest as [|c r].
  - rewrite filter_cons_True by done. done.
  - destruct Hr as [?|[= ->]]; [done|]. by rewrite Z.eqb_refl, filter_cons_True by done.
Qed.

(** The bytes [skipelem] leaves in [name]. *)
Lemma splice_front w name : (length w ≤ length name)%nat → splice 0 w name = w ++ drop (length w) name.
Proof.
  intros Hl. unfold splice. apply list_eq. intros j. destruct (decide (j < length w)%nat).
  - rewrite list_lookup_inserts by lia. rewrite lookup_app_l by done. f_equal. lia.
  - rewrite list_lookup_inserts_ge by lia. rewrite lookup_app_r, lookup_drop by lia. f_equal. lia.
Qed.

Lemma cstr_app s r n : Forall (.≠ 0) s → cstr (s ++ r) n = take n s ++ cstr r (n - length s).
Proof.
  intros Hs. revert n. induction Hs as [|c s Hc Hs IH]; intros n.
  - rewrite take_nil. simpl. by rewrite Nat.sub_0_r.
  - destruct n as [|n]; [done|]. cbn [app cstr take length]. rewrite (proj2 (Z.eqb_neq _ _) Hc), IH. done.
Qed.

Lemma skipelem_run path name :
  Forall (.≠ 0) path → length name = Z.to_nat DIRSIZ →
  match skipelem path name with
  | None => components path = []
  | Some (rest, name') => ∃ s, components path = s :: components rest ∧ Forall (.≠ 0) rest ∧
      head rest ≠ Some 47 ∧ cstr name' (Z.to_nat DIRSIZ) = take (Z.to_nat DIRSIZ) s ∧
      length name' = Z.to_nat DIRSIZ ∧ (length rest < length path)%nat
  end.
Proof.
  intros Hz Hl. unfold skipelem. rewrite <- (skip_components path). pose proof (skip_length path) as Hsk.
  pose proof (skip_head path) as Hh. pose proof (skip_nonzero path Hz) as Hz'.
  set (q := skip_slashes path) in *. destruct q as [|c q0] eqn:Eq; [done|].
  change (default 0 (head (c :: q0))) with c. apply Forall_cons in Hz' as Hcz. destruct Hcz as [Hc _].
  rewrite (proj2 (Z.eqb_neq _ _) Hc). destruct (span_elem (c :: q0)) as [s rest] eqn:Es.
  destruct (span_elem_spec _ _ _ Hz' Es) as (Ep&Hs47&Hr).
  assert (Hne : s ≠ []).
  { intros ->. simpl in Ep. subst rest. destruct Hr as [?|[= ->]]; [done|]. by apply Hh. }
  rewrite Ep in Hz'. apply Forall_app in Hz' as [Hsz Hrz].
  exists s. rewrite Ep, components_elem, skip_components by done. split; [done|].
  split; [by apply skip_nonzero|]. split; [apply skip_head|].
  apply and_assoc. split.
  - destruct (Z.leb_spec DIRSIZ (Z.of_nat (length s))) as [Hge|Hlt].
    + rewrite splice_front by (rewrite length_take; lia). rewrite length_take, Nat.min_l by lia.
      rewrite drop_ge, app_nil_r by lia. split; [|rewrite length_take; lia].
      rewrite <- (app_nil_r (take _ s)) at 1. rewrite cstr_app by (by apply Forall_take).
      rewrite take_take, Nat.min_id. destruct (_ - _)%nat; apply app_nil_r.
    + rewrite splice_front by (rewrite length_app; simpl; lia). rewrite <- app_assoc. split.
      * rewrite cstr_app by done. destruct (Z.to_nat DIRSIZ - length s)%nat; apply app_nil_r.
      * rewrite !length_app, length_drop. simpl. lia.
  - pose proof (skip_length rest). apply (f_equal length) in Ep. rewrite length_app in Ep.
    destruct s; [done|]. simpl in *. lia.
Qed.

(** C35: [skipelem] takes a path apart: repeated, it delivers the components of the
    path between its slashes, in order and each cut to the length of a
    directory entry's name, and then stops; what it returns never begins with
    a slash. *)
Theorem skipelem_components path name n :
  Forall (.≠ 0) path → length name = Z.to_nat DIRSIZ → (length path < n)%nat →
  elements_of n path name = take (Z.to_nat DIRSIZ) <$> components path.
Proof.
  revert path name. induction n as [|n IH]; intros path name Hz Hl Hn; [lia|]. cbn [elements_of].
  pose proof (skipelem_run path name Hz Hl) as H. destruct (skipelem path name) as [[rest name']|]; [|by rewrite H].
  destruct H as (s&->&Hz'&_&->&Hl'&Hlt). rewrite fmap_cons. f_equal. apply IH; [done|done|lia].
Qed.

Lemma skipelem_components_witness :
  elements_of 20 (str "///a//bb/c") (replicate 14 0) = [str "a"; str "bb"; str "c"].
Proof.
  rewrite (skipelem_components (str "///a//bb/c") (replicate 14 0) 20); [reflexivity| |reflexivity|].
  - apply (bool_decide_unpack (Forall (.≠ 0) (str "///a//bb/c"))). vm_compute. exact I.
  - vm_compute. lia.
Defined.
End paths.
