(* ===== verification/Kalloc.v ===== *)
(** The page allocator, kernel/kalloc.c, with the address arithmetic of
    include/xv6/mmu.h and include/xv6/memlayout.h.

    Memory is addressed by kernel virtual addresses; [P2V] and [V2P] translate.
    The free list runs through the free pages themselves: the first eight
    bytes of a free page hold the address of the next. *)

From stdpp Require Import base list gmap strings.
From Stdlib Require Import ZArith Lia.
From S2P Require Import Prelude CString Bytes Monad Kstate Spinlock Log.

(** * Addresses *)

Definition KERNBASE : Z := 0xffff800000000000.
Definition V2P (a : Z) : Z := u64 (a - KERNBASE).
Definition P2V (a : Z) : Z := u64 (a + KERNBASE).

Definition PGROUNDUP (sz : Z) : Z := Z.land (u64 (sz + PGSIZE - 1)) (u64 (Z.lnot (PGSIZE - 1))).
Definition PGROUNDDOWN (a : Z) : Z := Z.land a (u64 (Z.lnot (PGSIZE - 1))).
Definition PGALIGNED (a : Z) : bool := Z.land a (PGSIZE - 1) =? 0.

(** * Words in memory *)

Fixpoint wr_bytes (m : mem) (a : Z) (l : list Z) : mem :=
  match l with
  | [] => m
  | b :: l => wr_bytes (wr m a b) (a + 1) l
  end.

Definition rd64 (m : mem) (a : Z) : Z := le_val (rd_bytes m a 8).
Definition wr64 (m : mem) (a v : Z) : mem := wr_bytes m a (le_bytes 8 v).

Definition getmem {A} (f : mem → A) : K A := gets (λ s, f (k_mem s)).
Definition modmem (f : mem → mem) : K unit := modify (λ s, set_mem (f (k_mem s)) s).

(** * The allocator *)

Definition KMAP_MAX_SIZE : nat := 32.

Definition getkm {A} (f : kmemrec → A) : K A := gets (λ s, f (k_km s)).
Definition modkm (f : kmemrec → kmemrec) : K unit := modify (λ s, set_km (f (k_km s)) s).

Definition km_set_freelist (v : Z) (k : kmemrec) : kmemrec :=
  mkKmem (kmem_use_lock k) v (kmem_end k) (kmap_tab k) (kmap_cur k) (kpml4 k).
Definition km_set_use_lock (v : Z) (k : kmemrec) : kmemrec :=
  mkKmem v (kmem_freelist k) (kmem_end k) (kmap_tab k) (kmap_cur k) (kpml4 k).
Definition km_set_kmap (i : nat) (e : kmapent) (k : kmemrec) : kmemrec :=
  mkKmem (kmem_use_lock k) (kmem_freelist k) (kmem_end k) (<[i := e]> (kmap_tab k)) (kmap_cur k + 1)
    (kpml4 k).

Definition km_set_kpml4 (v : Z) (k : kmemrec) : kmemrec :=
  mkKmem (kmem_use_lock k) (kmem_freelist k) (kmem_end k) (kmap_tab k) (kmap_cur k) v.

Definition kmap_add (pa_start pa_end perm heap : Z) : K unit :=
  cur ← getkm kmap_cur;
  if Z.of_nat KMAP_MAX_SIZE <=? cur then panic "Too many kmap entries" else
  modkm (km_set_kmap (Z.to_nat cur) (mkKmap pa_start pa_end perm heap)).

Lemma kmap_add_run pa_start pa_end perm heap fuel s :
  kmap_cur (k_km s) < Z.of_nat KMAP_MAX_SIZE →
  kmap_add pa_start pa_end perm heap fuel s =
    Ret tt (set_km (km_set_kmap (Z.to_nat (kmap_cur (k_km s))) (mkKmap pa_start pa_end perm heap) (k_km s)) s).
Proof. intros H. unfold kmap_add, getkm, modkm. mred. by rewrite (proj2 (Z.leb_gt _ _)) by lia. Qed.

Definition kfree (v : Z) : K unit :=
  e ← getkm kmem_end;
  if (negb (PGALIGNED v) || (v <? e))%bool then panic "kfree" else
  modmem (λ m, memset m v 1 PGSIZE);;
  use ← getkm kmem_use_lock;
  whenM (negb (use =? 0)) (acquire LkKmem);;
  fl ← getkm kmem_freelist;
  modmem (λ m, wr64 m v fl);;
  modkm (km_set_freelist v);;
  whenM (negb (use =? 0)) (release LkKmem).

Definition kalloc : K Z :=
  use ← getkm kmem_use_lock;
  whenM (negb (use =? 0)) (acquire LkKmem);;
  r ← getkm kmem_freelist;
  whenM (negb (r =? 0))
    (next ← getmem (λ m, rd64 m r);
     modkm (km_set_freelist next));;
  whenM (negb (use =? 0)) (release LkKmem);;
  mret r.

Definition freerange (vstart vend : Z) : K unit :=
  whileM (λ p,
    if u64 (p + PGSIZE) <=? vend then kfree p;; mret (inl (u64 (p + PGSIZE)))
    else mret (inr tt)) (PGROUNDUP vstart).

(** [for (km = kmap; km->phys_start || km->phys_end; km++)]; the table ends
    with a zero entry. *)
Definition for_kmap (body : kmapent → K (option unit)) : K (option unit) :=
  whileM (λ i,
    km ← getkm kmap_tab;
    match km !! i with
    | None => out_of_bounds
    | Some e =>
        if ((km_phys_start e =? 0) && (km_phys_end e =? 0))%bool then mret (inr None) else
        r ← body e;
        match r with
        | Some x => mret (inr (Some x))
        | None => mret (inl (S i))
        end
    end) 0%nat.

Definition kinit1 : K unit :=
  initlock LkKmem "kmem";;
  modkm (km_set_use_lock 0);;
  for_kmap (λ e,
    whenM (negb (km_heap e =? 0)) (freerange (P2V (km_phys_start e)) (P2V (km_phys_end e)));;
    mret None);;
  mret tt.

Definition kinit2 : K unit := modkm (km_set_use_lock 1).

(** * The table of ranges *)

Definition used_ent (e : kmapent) : bool := negb ((km_phys_start e =? 0) && (km_phys_end e =? 0)).

(** The ranges [l] are in the table; the rest of it is zero. *)
Record kmap_is (km : kmemrec) (l : list kmapent) : Prop := {
  ki_tab : kmap_tab km = l ++ replicate (KMAP_MAX_SIZE - length l) (mkKmap 0 0 0 0);
  ki_cur : kmap_cur km = Z.of_nat (length l);
  ki_len : (length l ≤ KMAP_MAX_SIZE)%nat;
  ki_used : Forall (λ e, used_ent e = true) l
}.

(** [for_kmap] visits the ranges in order until the body stops it. *)
Lemma for_kmap_run (Inv : list kmapent → kstate → Prop) (Stop : kstate → Prop) body T fuel s :
  (length T < KMAP_MAX_SIZE)%nat → (length T < fuel)%nat → (∀ T1 s, Inv T1 s → kmap_is (k_km s) T) → Inv [] s →
  (∀ T1 e T2 s, T = T1 ++ e :: T2 → Inv T1 s →
     ∃ s', body e fuel s = Ret None s' ∧ Inv (T1 ++ [e]) s' ∨ body e fuel s = Ret (Some tt) s' ∧ Stop s') →
  ∃ r s', for_kmap body fuel s = Ret r s' ∧ (r = None ∧ Inv T s' ∨ r = Some tt ∧ Stop s').
Proof.
  intros HT Hf Hki H0 Hstep. unfold for_kmap, whileM. match goal with |- context [loop_fuel _ ?g _] => set (f := g) end.
  assert (∀ T2 T1 n s, T = T1 ++ T2 → Inv T1 s → (length T2 < n)%nat →
    ∃ r s', loop_fuel n f (length T1) fuel s = Ret r s' ∧ (r = None ∧ Inv T s' ∨ r = Some tt ∧ Stop s')) as H; [|by apply (H T [] fuel s)].
  induction T2 as [|e T2 IH]; intros T1 [|n] s1 ET HI Hn; try (simpl in Hn; lia); rewrite loop_fuel_S;
    pose proof (Hki T1 s1 HI) as Ht; unfold f at 2; (rewrite (run_bind (getkm kmap_tab) _ _ _ (kmap_tab (k_km s1)) s1) by done);
    rewrite (ki_tab _ _ Ht), ET.
  - rewrite app_nil_r in *. subst T1. rewrite lookup_app_r, Nat.sub_diag, lookup_replicate_2 by lia. cbn. exists None, s1. auto.
  - rewrite lookup_app_l, list_lookup_middle by (rewrite ?length_app; simpl; lia || done).
    assert (used_ent e = true) as ->%negb_true_iff by (eapply (Forall_lookup_1 _ _ _ _ (ki_used _ _ Ht)); subst T; by apply list_lookup_middle).
    destruct (Hstep T1 e T2 s1 ET HI) as (s2 & [[E HI']|[E HS]]); rewrite (run_bind _ _ _ _ _ _ E); cbn [mret M_ret obind]; [|exists (Some tt), s2; auto].
    destruct (IH (T1 ++ [e]) n s2) as (r & s' & E' & Hr); [by rewrite <- app_assoc|done|simpl in Hn; lia|].
    exists r, s'. rewrite <- ET. rewrite length_app, Nat.add_1_r in E'. auto.
Qed.

(** * The free list *)

Definition page (v : Z) : Prop := v mod PGSIZE = 0 ∧ 0 < v ∧ v + PGSIZE ≤ 2 ^ 64.

Section facts.
Implicit Types (m : mem) (a v : Z).

Lemma rd_wr_bytes m a l b :
  rd (wr_bytes m a l) b = if decide (a ≤ b < a + Z.of_nat (length l)) then l !!! Z.to_nat (b - a) else rd m b.
Proof.
  revert m a. induction l as [|x l IH]; intros m a; simpl.
  - case_decide; [lia|done].
  - rewrite IH. destruct (decide (b = a)) as [->|Hne].
    + rewrite decide_False, decide_True by lia. by rewrite rd_wr_eq, Z.sub_diag.
    + rewrite rd_wr_ne by done. repeat case_decide; try lia; try done.
      replace (Z.to_nat (b - a)) with (S (Z.to_nat (b - (a + 1)))) by lia. done.
Qed.

Lemma rd_bytes_wr_bytes m a l : rd_bytes (wr_bytes m a l) a (length l) = l.
Proof.
  apply list_eq. intros i. destruct (decide (i < length l)%nat) as [Hi|Hi].
  - rewrite lookup_rd_bytes by done. rewrite rd_wr_bytes, decide_True by lia.
    replace (Z.to_nat (a + Z.of_nat i - a)) with i by lia. symmetry. by apply list_lookup_lookup_total_lt.
  - by rewrite !lookup_ge_None_2 by (rewrite ?length_rd_bytes; lia).
Qed.

Lemma rd64_wr64 m a v : rd64 (wr64 m a v) a = u64 v.
Proof.
  unfold rd64, wr64. change 8%nat with (length (le_bytes 8 v)) at 2.
  rewrite rd_bytes_wr_bytes, le_val_bytes. done.
Qed.

Lemma rd64_ext m m' a : (∀ x, a ≤ x < a + 8 → rd m' x = rd m x) → rd64 m' a = rd64 m a.
Proof. intros H. unfold rd64. f_equal. apply rd_bytes_ext. intros. apply H. lia. Qed.

Lemma rd64_wr64_ne m a b v : a + 8 ≤ b ∨ b + 8 ≤ a → rd64 (wr64 m b v) a = rd64 m a.
Proof.
  intros H. apply rd64_ext. intros x Hx. unfold wr64.
  rewrite rd_wr_bytes, length_le_bytes, decide_False; [done|lia].
Qed.

(** The pages of the free list, from [v] on. *)
Fixpoint free_pages m v (l : list Z) : Prop :=
  match l with
  | [] => v = 0
  | p :: l => v = p ∧ page p ∧ free_pages m (rd64 m p) l
  end.

Lemma free_pages_ext m m' v l :
  (∀ p x, p ∈ l → p ≤ x < p + 8 → rd m' x = rd m x) → free_pages m v l → free_pages m' v l.
Proof.
  revert v. induction l as [|p l IH]; intros v Hx; [done|]. intros (->&Hp&Hl). split_and!; try done.
  rewrite (rd64_ext m m' p); [|by intros; apply (Hx p); [left|]].
  apply IH; [|done]. intros q x Hq. apply Hx. by right.
Qed.

Lemma page_disjoint p q x : page p → page q → p ≠ q → p ≤ x < p + PGSIZE → ¬ (q ≤ x < q + PGSIZE).
Proof.
  intros [Hp _] [Hq _] Hne Hx Hx'.
  pose proof (Z.div_mod p PGSIZE ltac:(done)). pose proof (Z.div_mod q PGSIZE ltac:(done)). unfold PGSIZE in *. nia.
Qed.
End facts.

(** The allocator's invariant: the free list visits the distinct pages [l],
    all above the kernel. *)
Definition km_ok (s : kstate) (l : list Z) : Prop :=
  free_pages (k_mem s) (kmem_freelist (k_km s)) l ∧ NoDup l ∧
  Forall (λ p, page p ∧ kmem_end (k_km s) ≤ p) l.

(** The allocator's lock, when it is in use, can be taken. *)
Definition km_lockable (s : kstate) (i : nat) : Prop :=
  kmem_use_lock (k_km s) = 0 ∨ (cpu_ok (k_ctx s) i ∧ lock_free (k_ctx s) LkKmem).

Section kalloc.
Implicit Types (s : kstate) (l : list Z) (v x : Z).

Lemma PGALIGNED_spec v : PGALIGNED v = true ↔ v mod PGSIZE = 0.
Proof.
  unfold PGALIGNED, PGSIZE. change (4096 - 1) with (Z.ones 12). rewrite Z.land_ones by lia.
  apply Z.eqb_eq.
Qed.

Lemma kfree_run s i v fuel :
  km_lockable s i → PGALIGNED v = true → kmem_end (k_km s) ≤ v →
  kfree v fuel s =
    Ret tt (set_km (km_set_freelist v (k_km s))
      (set_mem (wr64 (memset (k_mem s) v 1 PGSIZE) v (kmem_freelist (k_km s))) s)).
Proof.
  intros Hl Ha He. unfold kfree, getkm, modmem, modkm. mred. rewrite Ha. simpl.
  rewrite (proj2 (Z.ltb_ge _ _)) by done. mred. cbn [k_km set_mem].
  destruct (Z.eqb_spec (kmem_use_lock (k_km s)) 0) as [E|E]; cbn [negb whenM]; mred; [done|].
  destruct Hl as [?|[Hok Hfree]]; [done|]. rewrite (acquire_run _ _ i) by done. mred.
  by rewrite (release_run _ _ (k_ctx s) i) by done.
Qed.

Lemma kalloc_run s i fuel :
  km_lockable s i →
  kalloc fuel s =
    let r := kmem_freelist (k_km s) in
    Ret r (if r =? 0 then s else set_km (km_set_freelist (rd64 (k_mem s) r) (k_km s)) s).
Proof.
  intros Hl. unfold kalloc, getkm, getmem, modkm. mred.
  destruct (Z.eqb_spec (kmem_use_lock (k_km s)) 0) as [E|E]; cbn [negb whenM]; mred.
  - by destruct (kmem_freelist (k_km s) =? 0); cbn [negb whenM]; mred.
  - destruct Hl as [?|[Hok Hfree]]; [done|]. rewrite (acquire_run _ _ i) by done. mred.
    simpl k_km. destruct (kmem_freelist (k_km s) =? 0); cbn [negb whenM]; mred;
      rewrite (release_run _ _ (k_ctx s) i) by done; mred; [|done].
    by rewrite set_ctx_set_ctx, set_ctx_id.
Qed.

Lemma rd_kfree m v fl x :
  rd (wr64 (memset m v 1 PGSIZE) v fl) x =
    if decide (v ≤ x < v + 8) then le_bytes 8 fl !!! Z.to_nat (x - v)
    else if decide (v ≤ x < v + PGSIZE) then 1 else rd m x.
Proof. unfold wr64. rewrite rd_wr_bytes, length_le_bytes, memset_spec by done. done. Qed.

Lemma kfree_page s i v l fuel :
  km_lockable s i → km_ok s l → v ∉ l → page v → kmem_end (k_km s) ≤ v →
  ∃ m, let s' := set_km (km_set_freelist v (k_km s)) (set_mem m s) in kfree v fuel s = Ret tt s' ∧ km_ok s' (v :: l) ∧
    (∀ x, ¬ (v ≤ x < v + PGSIZE) → rd m x = rd (k_mem s) x) ∧ (∀ x, v + 8 ≤ x < v + PGSIZE → rd m x = 1).
Proof.
  intros Hl (Hfp&Hnd&Hall) Hv Hpv He. rewrite (kfree_run _ i) by (try apply PGALIGNED_spec; try apply Hpv; done).
  eexists. split; [done|]. split; [split; [|split]|split].
  - split; [done|]. cbn [k_mem set_km set_mem k_km km_set_freelist kmem_freelist]. split; [done|].
    rewrite rd64_wr64, u64_small.
    2:{ destruct l as [|p l]; simpl in Hfp; [lia|]. destruct Hfp as (->&(_&?&?)&_). unfold PGSIZE in *. lia. }
    eapply free_pages_ext, Hfp. intros p x Hp Hx. rewrite rd_kfree.
    apply Forall_forall with (x := p) in Hall as [Hpp _]; [|done].
    assert (p ≠ v) by set_solver. assert (p ≤ x < p + PGSIZE) by (unfold PGSIZE; lia).
    pose proof (page_disjoint p v x Hpp Hpv). unfold PGSIZE in *. rewrite !decide_False; [done|lia|lia].
  - by apply NoDup_cons.
  - by apply Forall_cons.
  - intros x Hx. rewrite rd_kfree. unfold PGSIZE in *. by rewrite !decide_False by lia.
  - intros x Hx. rewrite rd_kfree. by rewrite decide_False, decide_True by lia.
Qed.

(** [kfree] puts an aligned page above the kernel at the front of the free
    list, filled with junk but for the link, and touches no other memory; the
    list stays a chain of distinct pages. Anything else panics. *)
Theorem kfree_spec s i v l fuel :
  km_lockable s i → km_ok s l → v ∉ l → 0 < v → v + PGSIZE ≤ 2 ^ 64 →
  if (PGALIGNED v && (kmem_end (k_km s) <=? v))%bool
  then ∃ s', kfree v fuel s = Ret tt s' ∧ km_ok s' (v :: l) ∧ k_ctx s' = k_ctx s ∧
    (∀ x, ¬ (v ≤ x < v + PGSIZE) → rd (k_mem s') x = rd (k_mem s) x) ∧
    (∀ x, v + 8 ≤ x < v + PGSIZE → rd (k_mem s') x = 1)
  else kfree v fuel s = Panic "kfree" s.
Proof.
  intros Hl Hk Hv Hpos Htop. destruct (PGALIGNED v) eqn:Ha; cbn [andb].
  - destruct (Z.leb_spec (kmem_end (k_km s)) v) as [He|He].
    + destruct (kfree_page s i v l fuel Hl Hk Hv) as (m & E & ? & ? & ?); [split; [by apply PGALIGNED_spec|lia]|done|]. eexists. split; [exact E|done].
    + unfold kfree, getkm. mred. rewrite Ha. simpl. by rewrite (proj2 (Z.ltb_lt _ _)) by done.
  - unfold kfree, getkm. mred. by rewrite Ha.
Qed.

Lemma kalloc_page s i l fuel :
  km_lockable s i → km_ok s l →
  match l with
  | [] => kalloc fuel s = Ret 0 s
  | p :: l' => ∃ f, let s' := set_km (km_set_freelist f (k_km s)) s in
      kalloc fuel s = Ret p s' ∧ km_ok s' l' ∧ page p ∧ p ∉ l'
  end.
Proof.
  intros Hl (Hfp&Hnd&Hall). rewrite (kalloc_run _ i) by done. destruct l as [|p l]; simpl in Hfp.
  - by rewrite Hfp.
  - destruct Hfp as (E&Hp&Hfp). rewrite E. cbn zeta. rewrite (proj2 (Z.eqb_neq _ _)) by (destruct Hp; lia).
    apply NoDup_cons in Hnd as [Hin Hnd]. apply Forall_cons in Hall as [_ Hall].
    eexists. split; [done|]. by split_and!.
Qed.

(** [kalloc] takes the first page of the free list and changes no memory;
    it returns 0 exactly when the list is empty, so a page it returns is a
    page no one else has been given. *)
Theorem kalloc_spec s i l fuel :
  km_lockable s i → km_ok s l →
  match l with
  | [] => kalloc fuel s = Ret 0 s
  | p :: l' => ∃ s', kalloc fuel s = Ret p s' ∧ km_ok s' l' ∧ page p ∧ p ∉ l' ∧
      k_mem s' = k_mem s ∧ k_ctx s' = k_ctx s
  end.
Proof.
  intros Hl Hk. pose proof (kalloc_page s i l fuel Hl Hk) as H. destruct l as [|p l]; [done|].
  destruct H as (f&E&?&?&?). by exists (set_km (km_set_freelist f (k_km s)) s).
Qed.
End kalloc.
