(* ===== verification/Panic.v ===== *)
(** What [panic] of kernel/console.c does before it loops for ever, and
    [getcallerpcs] of kernel/spinlock.c, which it prints.

    Elsewhere a call of [panic] is the outcome [Panic]; here is the code that
    runs then. [rbp], the frame pointer of the caller, is a parameter. *)

From stdpp Require Import base list gmap strings.
From Stdlib Require Import ZArith Lia.
From S2P Require Import Prelude CString Bytes Sprintf Monad Kstate Spinlock Cons Kalloc.

(** The return addresses of [n] frames, the rest zero. *)
Fixpoint pcs_loop (n : nat) (m : mem) (rbp : Z) : list Z :=
  match n with
  | O => []
  | S n =>
      if (rbp =? 0) || (rbp <? KERNBASE) || (rbp =? u64 (-1)) then replicate (S n) 0
      else rd64 m (rbp + 8) :: pcs_loop n m (rd64 m rbp)
  end.
Definition getcallerpcs (m : mem) (rbp : Z) : list Z := pcs_loop 10 m (rd64 m rbp).

Definition cons_set_locking (v : Z) (c : consrec) : consrec :=
  mkCons (cn_buf c) (cn_r c) (cn_w c) (cn_e c) v (cn_panicked c) (cn_out c) (cn_shift c) (cn_kbd c) (cn_uart c) (cn_rx c).
Definition cons_set_panicked (v : Z) (c : consrec) : consrec :=
  mkCons (cn_buf c) (cn_r c) (cn_w c) (cn_e c) (cn_locking c) v (cn_out c) (cn_shift c) (cn_kbd c) (cn_uart c) (cn_rx c).

Fixpoint print_pcs (pcs : list Z) : K unit :=
  match pcs with
  | [] => mret tt
  | pc :: pcs => cprintf (str " %p") [VLong pc];; print_pcs pcs
  end.

(** The body of [panic]. *)
Definition panic_body (s : list Z) (rbp : Z) : K unit :=
  cli;;
  modcons (cons_set_locking 0);;
  id ← getx (λ x, hw_apicid (x_hw x));
  cprintf (str "lapicid %d: panic: ") [VInt id];;
  cprintf s [];;
  cprintf [10] [];;
  pcs ← getmem (λ m, getcallerpcs m rbp);
  print_pcs pcs;;
  modcons (cons_set_panicked 1);;
  spin.

(** * The last words of the kernel *)

Section panic.
Implicit Types (s : kstate) (fuel : nat).

Lemma length_pcs n m rbp : length (pcs_loop n m rbp) = n.
Proof.
  revert rbp. induction n as [|n IH]; intros rbp; cbn [pcs_loop]; [done|].
  destruct (_ || _); [by rewrite length_replicate|]. cbn [length]. by rewrite IH.
Qed.

(** Addresses of the kernel are followed as long as the chain goes on. *)
Lemma pcs_chain n m rbp : KERNBASE ≤ rbp < 2 ^ 64 - 1 → pcs_loop (S n) m rbp = rd64 m (rbp + 8) :: pcs_loop n m (rd64 m rbp).
Proof.
  intros H. cbn [pcs_loop]. unfold KERNBASE in *. rewrite (proj2 (Z.eqb_neq rbp 0)), (proj2 (Z.ltb_ge rbp _)) by lia.
  rewrite (proj2 (Z.eqb_neq rbp _)); [done|]. change (u64 (-1)) with (2 ^ 64 - 1). lia.
Qed.

Lemma print_pcs_run pcs fuel s : can_print s → ∃ cs, print_pcs pcs fuel s = Ret tt (printed cs s).
Proof.
  revert s. induction pcs as [|pc pcs IH]; intros s Hs; cbn [print_pcs].
  - exists []. mred. unfold printed, cons_put. rewrite app_nil_r. by destruct s as [???????????? [] ?].
  - destruct (cprintf_run (str " %p") [VLong pc] 17 fuel s) as [c1 E1]; [done|lia|done|]. rewrite (run_bind _ _ _ _ _ _ E1).
    destruct (IH (printed c1 s)) as [c2 E2]; [done|]. exists (c1 ++ c2). by rewrite E2, printed_printed.
Qed.

End panic.
