(* ===== verification/Vm.v ===== *)
(** Page tables, kernel/vm.c: the four-level walk, mapping, address spaces and
    the copies in and out of them.

    A [pte_t *] is the kernel address of an entry of eight bytes. *)

From stdpp Require Import base list gmap strings.
From Stdlib Require Import ZArith Lia.
From S2P Require Import Prelude Seg CString Bytes Sprintf Monad Kstate Spinlock Sched Cons Log Fs Kalloc.

(** * Entries *)

Definition PML1XSHIFT : Z := 12.
Definition PML2XSHIFT : Z := 21.
Definition PML3XSHIFT : Z := 30.
Definition PML4XSHIFT : Z := 39.
Definition PML5XSHIFT : Z := 48.

(** [PML1X] to [PML5X], by their shift. *)
Definition PMLX (shift va : Z) : Z := Z.land (Z.shiftr va shift) 0x1ff.

Definition VPN (x : Z) : Z := Z.land x (Z.lor (Z.shiftl 1 PML5XSHIFT - 1) (PGSIZE - 1)).

Definition PTE_P : Z := 1.
Definition PTE_W : Z := 2.
Definition PTE_U : Z := 4.
Definition PTE_XD : Z := Z.shiftl 1 63.
Definition PTE_ADDR (pte : Z) : Z := Z.land pte 0x0000FFFFFFFFF000.
Definition PTE_FLAGS (pte : Z) : Z := Z.land pte (Z.lor PTE_XD 0xFFF).
Definition NR_PTE : nat := 512.

Definition present (pte : Z) : bool := negb (Z.land pte PTE_P =? 0).

Definition ALIGN (x size : Z) : Z := Z.land x (u64 (Z.lnot (size - 1))).

(** The address of the entry for [va] in the table [pml]. *)
Definition entry (shift pml va : Z) : Z := u64 (pml + 8 * PMLX shift va).

Definition ld64 (a : Z) : K Z := getmem (λ m, rd64 m a).
Definition st64 (a v : Z) : K unit := modmem (λ m, wr64 m a v).
Definition zero_page (a : Z) : K unit := modmem (λ m, memset m a 0 PGSIZE).

(** Dereferencing a null pointer, undefined in C. *)
Definition null_deref {A} : K A := panic "null pointer dereference".

(** * Walking *)

(** [get_pml1], [get_pml2] and [get_pml3]: the next table down. *)
Definition get_pml (shift pml va : Z) (alloc : bool) : K Z :=
  let e := entry shift pml va in
  v ← ld64 e;
  if present v then mret (P2V (PTE_ADDR v)) else
  if negb alloc then mret 0 else
  t ← kalloc;
  if t =? 0 then mret 0 else
  zero_page t;;
  st64 e (Z.lor (Z.lor (Z.lor (V2P t) PTE_P) PTE_W) PTE_U);;
  mret t.
Definition get_pml1 : Z → Z → bool → K Z := get_pml PML2XSHIFT.
Definition get_pml2 : Z → Z → bool → K Z := get_pml PML3XSHIFT.
Definition get_pml3 : Z → Z → bool → K Z := get_pml PML4XSHIFT.

Definition walkpml4 (pml4 va : Z) (alloc : bool) : K Z :=
  pml3 ← get_pml3 pml4 va alloc;
  if pml3 =? 0 then mret 0 else
  pml2 ← get_pml2 pml3 va alloc;
  if pml2 =? 0 then mret 0 else
  pml1 ← get_pml1 pml2 va alloc;
  if pml1 =? 0 then mret 0 else
  mret (entry PML1XSHIFT pml1 va).

(** One round of [mappages]: the page at [a]. *)
Definition mappages_round (pml4 last perm : Z) (x : Z * Z) : K (Z * Z + Z) :=
  let '(a, pa) := x in
  e ← walkpml4 pml4 a true;
  if e =? 0 then mret (inr (-1)) else
  v ← ld64 e;
  if present v then panic "remap" else
  st64 e (Z.lor (Z.lor pa perm) PTE_P);;
  if a =? last then mret (inr 0) else
  mret (inl (u64 (a + PGSIZE), u64 (pa + PGSIZE))).

Definition mappages (pml4 va size pa perm : Z) : K Z :=
  let last := PGROUNDDOWN (u64 (va + size - 1)) in
  whileM (mappages_round pml4 last perm) (PGROUNDDOWN va, pa).

(** * Freeing *)

(** The entry at [e] of a level 1 table. *)
Definition free_entry (e : Z) : K unit :=
  v ← ld64 e;
  whenM (present v) (kfree (P2V (PTE_ADDR v));; st64 e 0).

Definition free_range_1_round (pml1 end_ start : Z) : K (Z + unit) :=
  if negb (start <? end_) then mret (inr tt) else
  free_entry (entry PML1XSHIFT pml1 start);;
  mret (inl (u64 (start + PGSIZE))).

Definition free_range_1 (pml1 start end_ : Z) : K unit :=
  if negb (PMLX PML2XSHIFT start =? PMLX PML2XSHIFT (u64 (end_ - 1)))
  then panic "tried to free memory across different PML1s" else
  whileM (free_range_1_round pml1 end_) start.

(** [free_range_2], [free_range_3] and [free_range_4]. *)
Definition free_range_round (shift : Z) (lower : Z → Z → Z → K unit) (pml end_ start1 : Z) : K (Z + unit) :=
  if negb (start1 <? end_) then mret (inr tt) else
  v ← ld64 (entry shift pml start1);
  let next := ALIGN (u64 (start1 + Z.shiftl 1 shift)) (Z.shiftl 1 shift) in
  if present v then
    let end1 := if end_ <? next then end_ else next in
    lower (P2V (PTE_ADDR v)) start1 end1;;
    mret (inl end1)
  else mret (inl next).

Definition free_range_up (shift : Z) (msg : string) (lower : Z → Z → Z → K unit)
    (pml start end_ : Z) : K unit :=
  if negb (PMLX (shift + 9) start =? PMLX (shift + 9) (u64 (end_ - 1))) then panic msg else
  whileM (free_range_round shift lower pml end_) start.

Definition free_range_2 : Z → Z → Z → K unit :=
  free_range_up PML2XSHIFT "tried to free memory across different PML2s" free_range_1.
Definition free_range_3 : Z → Z → Z → K unit :=
  free_range_up PML3XSHIFT "tried to free memory across different PML3s" free_range_2.
Definition free_range_4 : Z → Z → Z → K unit :=
  free_range_up PML4XSHIFT "tried to free memory across different PML4s" free_range_3.

(** The result is a C int. *)
Definition deallocuvm (pml4 oldsz newsz : Z) : K Z :=
  if oldsz <=? newsz then mret (s32 oldsz) else
  free_range_4 pml4 (VPN (PGROUNDUP newsz)) (VPN (PGROUNDUP oldsz));;
  mret (s32 newsz).

(** Entry [i] of a table. *)
Definition free_table_round (lower : Z → K unit) (pml i : Z) : K (option unit) :=
  v ← ld64 (u64 (pml + 8 * i));
  whenM (present v) (lower (P2V (PTE_ADDR v)));;
  mret None.

Definition free_table (msg : string) (lower : Z → K unit) (pml : Z) : K unit :=
  if pml =? 0 then panic msg else
  forM NR_PTE 0 (free_table_round lower pml);;
  kfree pml.
Definition free_pml2 : Z → K unit := free_table "freevm: no pml2" kfree.
Definition free_pml3 : Z → K unit := free_table "freevm: no pml3" free_pml2.
Definition free_pml4 : Z → K unit := free_table "freevm: no pml4" free_pml3.

Definition freevm (pml4 : Z) : K unit :=
  deallocuvm pml4 KERNBASE 0;;
  free_pml4 pml4.

(** * Address spaces *)

Definition setupkvm_range (pml4 : Z) (k : kmapent) : K (option unit) :=
  r ← mappages pml4 (P2V (km_phys_start k)) (u64 (km_phys_end k - km_phys_start k))
        (km_phys_start k) (km_perm k);
  if r <? 0 then freevm pml4;; mret (Some tt) else mret None.

Definition setupkvm : K Z :=
  pml4 ← kalloc;
  if pml4 =? 0 then mret 0 else
  zero_page pml4;;
  r ← for_kmap (setupkvm_range pml4);
  match r with
  | Some _ => mret 0
  | None => mret pml4
  end.

Definition lcr3 (v : Z) : K unit :=
  modx (λ x, mkCtx (mkHw (hw_apicid (x_hw x)) (hw_if (x_hw x)) v (hw_sys (x_hw x))) (x_cpus x) (x_locks x)).

Definition switchkvm : K unit :=
  k ← getkm kpml4;
  lcr3 (V2P k).

Definition kvmalloc : K unit :=
  k ← setupkvm;
  modkm (km_set_kpml4 k);;
  switchkvm.

(** Where the task state segment and the descriptor table are in struct cpu. *)
Definition ts_addr (c : cpu) : Z := c_addr c + 16.
Definition gdt_addr (c : cpu) : Z := c_addr c + 124.

Definition cpu_set_gdt (i : Z) (d : segdesc) (c : cpu) : cpu :=
  mkCpu (c_addr c) (c_apicid c) (c_ts c) (<[Z.to_nat i := d]> (c_gdt c)) (c_started c) (c_ncli c) (c_intena c) (c_proc c).
Definition cpu_set_ts (t : taskstate) (c : cpu) : cpu :=
  mkCpu (c_addr c) (c_apicid c) t (c_gdt c) (c_started c) (c_ncli c) (c_intena c) (c_proc c).

Definition mod_sys (f : sysregs → sysregs) : K unit :=
  modx (λ x, mkCtx (mkHw (hw_apicid (x_hw x)) (hw_if (x_hw x)) (hw_cr3 (x_hw x)) (f (hw_sys (x_hw x)))) (x_cpus x) (x_locks x)).

Definition lgdt (p size : Z) : K unit :=
  mod_sys (λ r, mkSys (sr_cs r) (sr_ds r) (sr_es r) (sr_ss r) (sr_fs r) (sr_gs r) (sr_tr r) (p, size - 1) (sr_idtr r)).

(** The long return and the moves at the end of [seginit]. *)
Definition load_segs (cs ds : Z) : K unit :=
  mod_sys (λ r, mkSys cs ds ds ds 0 0 (sr_tr r) (sr_gdtr r) (sr_idtr r)).

Definition seginit : K unit :=
  i ← cpuid;
  upd_cpu i (cpu_set_gdt SEG_KCODE (SEGDESC64_CODE 0));;
  upd_cpu i (cpu_set_gdt SEG_KDATA (SEGDESC32_DATA 0));;
  upd_cpu i (cpu_set_gdt SEG_UCODE (SEGDESC64_CODE 3));;
  upd_cpu i (cpu_set_gdt SEG_UDATA (SEGDESC32_DATA 3));;
  c ← get_cpu i;
  lgdt (gdt_addr c) (8 * Z.of_nat NSEGS);;
  load_segs (Z.shiftl SEG_KCODE 3) (Z.shiftl SEG_KDATA 3).

(** The processor loads the task register with the selector of an available
    segment and marks it busy; anything else is a trap in the kernel. *)
Definition tss_type (d : segdesc) : Z := seg_access (hw_segment (seg_bytes d)) mod 32.
Definition ltr (i : nat) (sel : Z) : K unit :=
  c ← get_cpu i;
  let d := c_gdt c !!! Z.to_nat (Z.shiftr sel 3) in
  if tss_type d =? 9 then
    upd_cpu i (cpu_set_gdt (Z.shiftr sel 3) (set_busy d));;
    mod_sys (λ r, mkSys (sr_cs r) (sr_ds r) (sr_es r) (sr_ss r) (sr_fs r) (sr_gs r) sel (sr_gdtr r) (sr_idtr r))
  else panic "trap".

Definition switchuvm (p : option nat) : K unit :=
  match p with
  | None => panic "switchuvm: no process"
  | Some p =>
      pr ← get_proc p;
      if p_kstack pr =? 0 then panic "switchuvm: no kstack" else
      if p_pml4 pr =? 0 then panic "switchuvm: no pgdir" else
      pushcli;;
      i ← mycpu;
      upd_cpu i (λ c, cpu_set_gdt SEG_TSS (TSSDESC_LO (ts_addr c)) c);;
      upd_cpu i (λ c, cpu_set_gdt SEG_TSS_HI (TSSDESC_HI (ts_addr c)) c);;
      upd_cpu i (λ c, cpu_set_ts (ts_set (u64 (p_kstack pr + KSTACKSIZE)) 0xFFFFFFFF (c_ts c)) c);;
      ltr i (Z.shiftl SEG_TSS 3);;
      lcr3 (V2P (p_pml4 pr));;
      popcli
  end.

Definition inituvm (pml4 : Z) (init : list Z) (sz : Z) : K unit :=
  if PGSIZE <=? sz then panic "inituvm: more than a page" else
  m ← kalloc;
  zero_page m;;
  mappages pml4 0 PGSIZE (V2P m) (Z.lor PTE_W PTE_U);;
  modmem (λ mm, wr_bytes mm m (take (Z.to_nat sz) init)).

(** The page at [a]. *)
Definition allocuvm_round (pml4 oldsz newsz perm a : Z) : K (Z + Z) :=
  if negb (a <? newsz) then mret (inr (s32 newsz)) else
  m ← kalloc;
  if m =? 0 then
    cprintf (str "allocuvm out of memory" ++ [10]) [];;
    deallocuvm pml4 newsz oldsz;;
    mret (inr 0)
  else
    zero_page m;;
    r ← mappages pml4 a PGSIZE (V2P m) (Z.lor perm PTE_U);
    if r <? 0 then
      cprintf (str "allocuvm out of memory (2)" ++ [10]) [];;
      deallocuvm pml4 newsz oldsz;;
      kfree m;;
      mret (inr 0)
    else mret (inl (u64 (a + PGSIZE))).

Definition allocuvm (pml4 oldsz newsz perm : Z) : K Z :=
  if KERNBASE <=? newsz then mret 0 else
  if newsz <? oldsz then mret (s32 oldsz) else
  whileM (allocuvm_round pml4 oldsz newsz perm) (PGROUNDUP oldsz).

Definition clearpteu (pml4 uva : Z) : K unit :=
  e ← walkpml4 pml4 uva false;
  if e =? 0 then panic "clearpteu" else
  v ← ld64 e;
  st64 e (Z.land v (u64 (Z.lnot PTE_U))).

(** The page at [i]. *)
Definition copyuvm_round (pml4 sz d i : Z) : K (Z + Z) :=
  if negb (i <? sz) then mret (inr d) else
  e ← walkpml4 pml4 i false;
  if e =? 0 then panic "copyuvm: pte should exist" else
  v ← ld64 e;
  if negb (present v) then panic "copyuvm: page not present" else
  m ← kalloc;
  if m =? 0 then freevm d;; mret (inr 0) else
  modmem (λ mm, memmove mm m (P2V (PTE_ADDR v)) PGSIZE);;
  r ← mappages d i PGSIZE (V2P m) (PTE_FLAGS v);
  if r <? 0 then kfree m;; freevm d;; mret (inr 0) else
  mret (inl (u64 (i + PGSIZE))).

Definition copyuvm (pml4 sz : Z) : K Z :=
  d ← setupkvm;
  if d =? 0 then mret 0 else
  whileM (copyuvm_round pml4 sz d) 0.

Definition uva2ka (pml4 uva : Z) : K Z :=
  e ← walkpml4 pml4 uva false;
  if e =? 0 then null_deref else
  v ← ld64 e;
  if negb (present v) then mret 0 else
  if Z.land v PTE_U =? 0 then mret 0 else
  mret (P2V (PTE_ADDR v)).

(** The bytes at kernel address [p] are the list [buf]. *)
Definition copyout (pml4 va : Z) (buf : list Z) (len : Z) : K Z :=
  whileM (λ '(va, buf, len),
    if negb (0 <? len) then mret (inr 0) else
    let va0 := PGROUNDDOWN va in
    pa0 ← uva2ka pml4 va0;
    if pa0 =? 0 then mret (inr (-1)) else
    let n := PGSIZE - (va - va0) in
    let n := if len <? n then len else n in
    modmem (λ m, wr_bytes m (u64 (pa0 + (va - va0))) (take (Z.to_nat n) buf));;
    mret (inl (u64 (va0 + PGSIZE), drop (Z.to_nat n) buf, len - n))) (va, buf, len).

Definition loaduvm (devsw : Z → devops) (pml4 addr : Z) (ip : nat) (offset sz : Z) : K Z :=
  if negb (addr mod PGSIZE =? 0) then panic "loaduvm: addr must be page aligned" else
  whileM (λ i,
    if negb (i <? sz) then mret (inr 0) else
    e ← walkpml4 pml4 (u64 (addr + i)) false;
    if e =? 0 then panic "loaduvm: address should exist" else
    v ← ld64 e;
    if negb (present v) then panic "loaduvm: address should exist" else
    let n := if u64 (sz - i) <? PGSIZE then u64 (sz - i) else PGSIZE in
    r ← readi devsw ip (u32 (offset + i)) (u32 n);
    modmem (λ m, wr_bytes m (P2V (PTE_ADDR v)) r.2);;
    if negb (u64 r.1 =? n) then mret (inr (-1)) else
    mret (inl (u64 (i + PGSIZE)))) 0.

(** * Segments *)

(** What [switchuvm] changes of the CPU it runs on. *)
Definition user_cpu (kstack : Z) (c : cpu) : cpu :=
  mkCpu (c_addr c) (c_apicid c) (ts_set (u64 (kstack + KSTACKSIZE)) 0xFFFFFFFF (c_ts c))
    (<[5%nat := set_busy (TSSDESC_LO (ts_addr c))]> (<[6%nat := TSSDESC_HI (ts_addr c)]> (c_gdt c)))
    (c_started c) (c_ncli c) (c_intena c) (c_proc c).
Definition x_user (i : nat) (kstack pml4 : Z) (x : cpuctx) : cpuctx :=
  let r := hw_sys (x_hw x) in
  mkCtx (mkHw (hw_apicid (x_hw x)) (hw_if (x_hw x)) (V2P pml4)
      (mkSys (sr_cs r) (sr_ds r) (sr_es r) (sr_ss r) (sr_fs r) (sr_gs r) 40 (sr_gdtr r) (sr_idtr r)))
    (<[i := user_cpu kstack (x_cpus x !!! i)]> (x_cpus x)) (x_locks x).

Lemma user_cpu_push kstack on c : user_cpu kstack (push_cpu on c) = push_cpu on (user_cpu kstack c).
Proof. unfold push_cpu, user_cpu. cbn [c_ncli]. by destruct (c_ncli c =? 0). Qed.

Lemma cpu_ok_user i kstack pml4 x : cpu_ok x i → cpu_ok (x_user i kstack pml4 x) i.
Proof.
  intros (c & H & Hn & Hp & Hz). pose proof H as (Hi & Ha & Hmin). exists (user_cpu kstack c). unfold x_user.
  rewrite (list_lookup_total_correct _ _ _ Hi). pose proof (lookup_lt_Some _ _ _ Hi). split; [|done].
  split_and!; simpl; [by apply list_lookup_insert_eq|done|]. intros j c' Hj. rewrite list_lookup_insert_ne by lia. eauto.
Qed.

Lemma tss_type_available base : 0 ≤ base < 2 ^ 64 → tss_type (TSSDESC_LO base) = 9.
Proof. intros Hb. unfold tss_type, TSSDESC_LO. by rewrite hw_segment_SEGDESC by (unfold taskstate_size; lia). Qed.

Lemma upd_cpu_at fuel s h i c cs lk f :
  (i < length cs)%nat →
  upd_cpu i f fuel (set_ctx (mkCtx h (<[i := c]> cs) lk) s) = Ret tt (set_ctx (mkCtx h (<[i := f c]> cs) lk) s).
Proof. intros Hi. erewrite upd_cpu_run by (apply list_lookup_insert_eq; exact Hi). simpl. by rewrite list_insert_insert_eq. Qed.

Lemma ltr_tss fuel s h i c cs lk base :
  (i < length cs)%nat → c_gdt c !! 5%nat = Some (TSSDESC_LO base) → 0 ≤ base < 2 ^ 64 →
  let r := hw_sys h in
  ltr i 40 fuel (set_ctx (mkCtx h (<[i := c]> cs) lk) s) =
  Ret tt (set_ctx (mkCtx (mkHw (hw_apicid h) (hw_if h) (hw_cr3 h)
      (mkSys (sr_cs r) (sr_ds r) (sr_es r) (sr_ss r) (sr_fs r) (sr_gs r) 40 (sr_gdtr r) (sr_idtr r)))
    (<[i := cpu_set_gdt 5 (set_busy (TSSDESC_LO base)) c]> cs) lk) s).
Proof.
  intros Hi Hg Hb r. unfold ltr. rewrite (run_bind _ _ _ _ c _) by (apply get_cpu_run, list_lookup_insert_eq, Hi).
  change (Z.to_nat (Z.shiftr 40 3)) with 5%nat. rewrite (list_lookup_total_correct _ _ _ Hg), tss_type_available by done.
  cbn [Z.eqb Pos.eqb]. by rewrite (run_bind _ _ _ _ _ _ (upd_cpu_at _ _ _ _ _ _ _ _ Hi)).
Qed.

Lemma user_cpu_steps c ks :
  let c1 := cpu_set_gdt SEG_TSS (TSSDESC_LO (ts_addr c)) c in
  let c2 := cpu_set_gdt SEG_TSS_HI (TSSDESC_HI (ts_addr c1)) c1 in
  let c3 := cpu_set_ts (ts_set (u64 (ks + KSTACKSIZE)) 0xFFFFFFFF (c_ts c2)) c2 in
  length (c_gdt c) = NSEGS →
  c_gdt c3 !! 5%nat = Some (TSSDESC_LO (ts_addr c)) ∧ cpu_set_gdt 5 (set_busy (TSSDESC_LO (ts_addr c))) c3 = user_cpu ks c.
Proof.
  intros c1 c2 c3 Hg. unfold NSEGS in Hg. assert (E : c_gdt c3 = <[6%nat := TSSDESC_HI (ts_addr c)]> (<[5%nat := TSSDESC_LO (ts_addr c)]> (c_gdt c))) by done.
  split; [rewrite E, list_lookup_insert_ne, list_lookup_insert_eq by lia; done|].
  unfold cpu_set_gdt at 1. rewrite E, (list_insert_insert_ne _ 6 5), list_insert_insert_eq by lia. done.
Qed.

(** The steps from the descriptor to the task register. *)
Lemma load_tss {B} (f : K B) fuel s h i c cs lk ks :
  (i < length cs)%nat → length (c_gdt c) = NSEGS → 0 ≤ ts_addr c < 2 ^ 64 → let r := hw_sys h in
  (upd_cpu i (λ c, cpu_set_gdt SEG_TSS (TSSDESC_LO (ts_addr c)) c);;
   upd_cpu i (λ c, cpu_set_gdt SEG_TSS_HI (TSSDESC_HI (ts_addr c)) c);;
   upd_cpu i (λ c, cpu_set_ts (ts_set (u64 (ks + KSTACKSIZE)) 0xFFFFFFFF (c_ts c)) c);;
   ltr i (Z.shiftl SEG_TSS 3);; f) fuel (set_ctx (mkCtx h (<[i := c]> cs) lk) s) =
  f fuel (set_ctx (mkCtx (mkHw (hw_apicid h) (hw_if h) (hw_cr3 h)
      (mkSys (sr_cs r) (sr_ds r) (sr_es r) (sr_ss r) (sr_fs r) (sr_gs r) 40 (sr_gdtr r) (sr_idtr r)))
    (<[i := user_cpu ks c]> cs) lk) s).
Proof.
  intros Hlt Hg Ha r. destruct (user_cpu_steps c ks Hg) as [E1 E2].
  do 3 rewrite (run_bind _ _ _ _ _ _ (upd_cpu_at _ _ _ _ _ _ _ _ Hlt)).
  rewrite (run_bind _ _ _ _ _ _ (ltr_tss _ _ _ _ _ _ _ _ Hlt E1 Ha)). by rewrite E2.
Qed.

Lemma switchuvm_run fuel s i p :
  let pr := pt_proc (k_pt s) !!! p in let c := x_cpus (k_ctx s) !!! i in
  cpu_ok (k_ctx s) i → length (c_gdt c) = NSEGS → 0 ≤ ts_addr c < 2 ^ 64 → p_kstack pr ≠ 0 → p_pml4 pr ≠ 0 →
  switchuvm (Some p) fuel s = Ret tt (set_ctx (x_user i (p_kstack pr) (p_pml4 pr) (k_ctx s)) s).
Proof.
  intros pr c Hok Hg Ha Hk Hp. pose proof Hok as (c0 & H & _). assert (Hc : x_cpus (k_ctx s) !! i = Some c0) by apply H.
  assert (c = c0) as Ec by (by apply list_lookup_total_correct). pose proof (lookup_lt_Some _ _ _ Hc) as Hlt.
  unfold switchuvm. rewrite (run_bind _ _ _ _ pr s) by done.
  rewrite (proj2 (Z.eqb_neq _ _) Hk), (proj2 (Z.eqb_neq _ _) Hp).
  rewrite (run_bind _ _ _ _ _ _ (pushcli_run _ _ _ _ H)).
  unfold x_push. fold c. rewrite Ec in *. set (c1 := push_cpu (hw_if (x_hw (k_ctx s))) c0).
  assert (c_addr c1 = c_addr c0 ∧ c_gdt c1 = c_gdt c0) as [Ea Eg] by (unfold c1, push_cpu; by destruct (c_ncli c0 =? 0)).
  rewrite (run_bind _ _ _ _ i _) by (apply (mycpu_run _ _ i c1); [apply (oncpu_x_cpu _ _ c0); [done|apply apicid_push_cpu]|done]).
  unfold x_cpu. rewrite load_tss by (unfold ts_addr; rewrite ?Ea, ?Eg; done).
  rewrite (run_bind _ _ _ _ tt (set_ctx (x_push i (x_user i (p_kstack pr) (p_pml4 pr) (k_ctx s))) s)).
  - by rewrite <- (popcli_x_push fuel (set_ctx (x_user i (p_kstack pr) (p_pml4 pr) (k_ctx s)) s) i (cpu_ok_user _ _ _ _ Hok)).
  - unfold lcr3, modx. mred. rewrite set_ctx_set_ctx. do 2 f_equal. unfold x_push, x_user, x_cpu. cbn [x_cpus x_hw k_ctx set_ctx hw_if hw_apicid hw_cr3 hw_sys x_locks].
    rewrite list_lookup_total_insert_eq, list_insert_insert_eq by done. fold c. rewrite Ec. unfold c1. by rewrite user_cpu_push.
Qed.

(** C24: The processor takes the kernel's stack at the next trap of a user program
    from the descriptor tables as [switchuvm] leaves them: the task register
    selects a present segment of the system that is the CPU's own task state,
    and the stack in it is the process's kernel stack. The address space is
    the process's, and the CPU is otherwise as before. A process without a
    kernel stack or an address space is a panic. *)
Theorem switchuvm_spec fuel s i p :
  let pr := pt_proc (k_pt s) !!! p in let c := x_cpus (k_ctx s) !!! i in
  cpu_ok (k_ctx s) i → length (c_gdt c) = NSEGS → 0 ≤ ts_addr c < 2 ^ 64 → 0 ≤ p_kstack pr < 2 ^ 64 - KSTACKSIZE →
  if bool_decide (p_kstack pr = 0 ∨ p_pml4 pr = 0) then ∃ msg, switchuvm (Some p) fuel s = Panic msg s
  else ∃ x', switchuvm (Some p) fuel s = Ret tt (set_ctx x' s) ∧ cpu_ok x' i ∧ hw_if (x_hw x') = hw_if (x_hw (k_ctx s)) ∧
    hw_cr3 (x_hw x') = V2P (p_pml4 pr) ∧ let c' := x_cpus x' !!! i in let n := Z.to_nat (sr_tr (hw_sys (x_hw x')) / 8) in
    hw_system_segment (seg_bytes (c_gdt c' !!! n) ++ seg_bytes (c_gdt c' !!! S n)) = mkSegment (ts_addr c') (taskstate_size - 1) 0x8b 0 ∧
    hw_ts_rsp0 (ts_bytes (c_ts c')) = p_kstack pr + KSTACKSIZE ∧ ∀ k, (k < 5)%nat → c_gdt c' !! k = c_gdt c !! k.
Proof.
  intros pr c Hok Hg Ha Hk. case_bool_decide as Hz.
  - unfold switchuvm. rewrite (run_bind _ _ _ _ pr s) by done. destruct (Z.eqb_spec (p_kstack pr) 0); [eauto|]. rewrite (proj2 (Z.eqb_eq _ _)) by tauto. eauto.
  - eexists. split; [apply switchuvm_run; [exact Hok|done|done|tauto..]|]. split; [by apply cpu_ok_user|]. split_and!; [done..|].
    pose proof Hok as (c0 & H & _). pose proof (lookup_lt_Some _ _ _ (proj1 H)) as Hlt. fold c pr. unfold x_user.
    cbn [x_cpus x_hw hw_sys sr_tr]. rewrite list_lookup_total_insert_eq by done. fold c. change (Z.to_nat (40 / 8)) with 5%nat. unfold NSEGS in Hg.
    cbn [user_cpu c_gdt c_ts]. split_and!.
    + rewrite list_lookup_total_insert_eq by (rewrite length_insert; lia).
      rewrite list_lookup_total_insert_ne, list_lookup_total_insert_eq by lia. by apply hw_tss_busy.
    + rewrite u64_small by (unfold KSTACKSIZE in *; lia). apply hw_ts_rsp0_set. unfold KSTACKSIZE in *. lia.
    + intros k Hk5. by rewrite !list_lookup_insert_ne by lia.
Qed.

(** [seginit] gives the CPU flat segments: code that runs in long mode and
    data, for the kernel at privilege level 0 and for user programs at level 3;
    the kernel runs in its own from then on. *)
Theorem seginit_spec fuel s i c :
  oncpu (k_ctx s) i c → hw_if (x_hw (k_ctx s)) = false → length (c_gdt c) = NSEGS →
  ∃ x', seginit fuel s = Ret tt (set_ctx x' s) ∧ let c' := x_cpus x' !!! i in let r := hw_sys (x_hw x') in
    let seg n := hw_segment (seg_bytes (c_gdt c' !!! Z.to_nat n)) in
    sr_gdtr r = (gdt_addr c', 55) ∧ sr_cs r / 8 = SEG_KCODE ∧ sr_ds r / 8 = SEG_KDATA ∧ sr_ss r / 8 = SEG_KDATA ∧
    (∀ n, n ∈ [SEG_KCODE; SEG_KDATA; SEG_UCODE; SEG_UDATA] → seg_present (seg n) = true ∧ seg_base (seg n) = 0 ∧ seg_limit (seg n) = 2 ^ 20 - 1 ∧
       seg_dpl (seg n) = (if n <? SEG_UCODE then 0 else 3) ∧ seg_code (seg n) = Z.odd n ∧ seg_long (seg n) = Z.odd n).
Proof.
  intros H Hif Hg. pose proof (lookup_lt_Some _ _ _ (proj1 H)) as Hlt. unfold seginit, cpuid.
  rewrite (run_bind _ _ _ _ _ _ (mycpu_run _ _ _ _ H Hif)).
  rewrite (run_bind _ _ _ _ _ _ (upd_cpu_run _ _ _ _ _ (proj1 H))). do 3 rewrite (run_bind _ _ _ _ _ _ (upd_cpu_at _ _ _ _ _ _ _ _ Hlt)).
  unfold NSEGS in Hg. destruct c as [addr id ts gdt st nc ie pr]. cbn [c_gdt] in Hg.
  do 7 (destruct gdt as [|? gdt]; [done|]). destruct gdt; [|done]. clear Hg.
  erewrite run_bind; [|apply get_cpu_run, list_lookup_insert_eq, Hlt].
  unfold lgdt, load_segs, mod_sys, modx. mred. eexists. split; [reflexivity|]. cbn [set_ctx k_ctx x_cpus x_hw hw_sys].
  rewrite list_lookup_total_insert_eq by done. split_and!; [reflexivity..|].
  intros n Hn. repeat (apply elem_of_cons in Hn as [->|Hn]); [vm_compute; done..|]. by apply elem_of_nil in Hn.
Qed.
