(* ===== verification/Paging.v ===== *)
(** Page tables as the processor sees them: [walkpml4] and [mappages] of
    kernel/vm.c against the hardware's walk.

    [lookup_page m pml4 va] is the entry the processor finds for [va] in the
    tables at [pml4] in memory [m], if all levels are present. The invariant
    [pt_ok] labels every table page with its level and the part of the virtual
    address that leads to it, so tables for different addresses are different
    pages. *)

From stdpp Require Import base list gmap strings.
From Stdlib Require Import ZArith Lia.
From S2P Require Import Prelude CString Bytes Monad Kstate Spinlock Cons Log Kalloc Vm.

(** * The hardware's walk *)

(** The shift of the index into a table of level [k], 1 to 4. *)
Definition lshift (k : nat) : Z := 9 * Z.of_nat k + 3.

(** The level 1 table reached from the table [pml] of level [k + 1]. *)
Fixpoint leaf_table (k : nat) (m : mem) (pml va : Z) : option Z :=
  match k with
  | O => Some pml
  | S k' =>
      let e := rd64 m (entry (lshift (S k)) pml va) in
      if present e then leaf_table k' m (P2V (PTE_ADDR e)) va else None
  end.

Definition lookup_page (m : mem) (pml4 va : Z) : option Z :=
  match leaf_table 3 m pml4 va with
  | None => None
  | Some pml1 =>
      let e := rd64 m (entry PML1XSHIFT pml1 va) in
      if present e then Some e else None
  end.

(** The part of [va] used above level [k], and its page. *)
Definition vpre (k : nat) (va : Z) : Z := va mod 2 ^ 48 / 2 ^ (lshift (S k)).
Definition vpage (va : Z) : Z := va mod 2 ^ 48 / PGSIZE.

(** A page the kernel can use for a table. *)
Definition table_page (p : Z) : Prop := page p ∧ KERNBASE ≤ p.

(** Entry [j] of the table [p] leads to [r]. *)
Definition points_to (m : mem) (p j r : Z) : Prop :=
  present (rd64 m (p + 8 * j)) = true ∧ P2V (PTE_ADDR (rd64 m (p + 8 * j))) = r.

Record pt_ok (m : mem) (pml4 : Z) (lab : gmap Z (nat * Z)) : Prop := mkPt {
  pt_root : lab !! pml4 = Some (4%nat, 0);
  pt_page p k x : lab !! p = Some (k, x) → table_page p ∧ (1 ≤ k ≤ 4)%nat;
  pt_down p k x j : lab !! p = Some (S (S k), x) → 0 ≤ j < 512 →
    let e := rd64 m (p + 8 * j) in
    present e = true → lab !! P2V (PTE_ADDR e) = Some (S k, 512 * x + j);
  pt_up p k x : lab !! p = Some (k, x) →
    p = pml4 ∨ ∃ q, lab !! q = Some (S k, x / 512) ∧ points_to m q (x mod 512) p
}.

Section arith.
Implicit Types (va a p e : Z) (k : nat).

Lemma land_align x n : 0 ≤ x < 2 ^ 64 → 0 ≤ n ≤ 64 → Z.land x (u64 (Z.lnot (2 ^ n - 1))) = 2 ^ n * (x / 2 ^ n).
Proof.
  intros Hx Hn. assert (u64 (Z.lnot (2 ^ n - 1)) = Z.shiftl (Z.ones (64 - n)) n) as ->.
  { unfold u64. rewrite Z.shiftl_mul_pow2, Z.ones_equiv by lia. unfold Z.lnot, Z.pred.
    rewrite Z.mul_add_distr_r, <- Z.pow_add_r by lia. replace (64 - n + n) with 64 by lia.
    pose proof (Z.pow_pos_nonneg 2 n ltac:(lia) ltac:(lia)). pose proof (Z.pow_le_mono_r 2 n 64 ltac:(lia) ltac:(lia)).
    symmetry. apply (Z.mod_unique _ _ (-1)); lia. }
  rewrite Z.mul_comm, <- Z.shiftl_mul_pow2 by lia. apply Z.bits_inj'. intros b Hb. rewrite Z.land_spec. destruct (decide (b < n)).
  - by rewrite !Z.shiftl_spec_low, andb_false_r by lia.
  - rewrite !Z.shiftl_spec, Z.div_pow2_bits by lia.
    replace (b - n + n) with b by lia. rewrite Z.testbit_ones_nonneg by lia.
    destruct (Z.ltb_spec (b - n) (64 - n)); [apply andb_true_r|]. rewrite andb_false_r. symmetry.
    destruct (decide (x = 0)) as [->|]; [apply Z.bits_0|]. apply Z.bits_above_log2; [lia|].
    apply Z.log2_lt_pow2; [lia|]. pose proof (Z.pow_le_mono_r 2 64 b ltac:(lia) ltac:(lia)). lia.
Qed.

Lemma PMLX_range sh va : 0 ≤ PMLX sh va < 512.
Proof. unfold PMLX. change 0x1ff with (Z.ones 9). rewrite Z.land_ones by lia. apply Z.mod_pos_bound. lia. Qed.

Lemma PMLX_low s va : 0 ≤ s ≤ 39 → PMLX s va = va mod 2 ^ 48 / 2 ^ s mod 512.
Proof.
  intros Hs. unfold PMLX. change 0x1ff with (Z.ones 9). rewrite Z.land_ones, Z.shiftr_div_pow2 by lia.
  change (2 ^ 9) with 512. pose proof (Z.div_mod va (2 ^ 48) ltac:(lia)) as E.
  pose proof (Z.pow_pos_nonneg 2 s ltac:(lia) ltac:(lia)).
  assert (H48 : 2 ^ 48 = 2 ^ (39 - s) * 512 * 2 ^ s).
  { change 512 with (2 ^ 9). rewrite <- !Z.pow_add_r by lia. f_equal. lia. }
  rewrite E at 1. replace (2 ^ 48 * (va / 2 ^ 48) + va mod 2 ^ 48)
    with (va mod 2 ^ 48 + (2 ^ (39 - s) * 512 * (va / 2 ^ 48)) * 2 ^ s) by (rewrite H48 at 3; ring).
  rewrite Z.div_add by lia.
  replace (2 ^ (39 - s) * 512 * (va / 2 ^ 48)) with (2 ^ (39 - s) * (va / 2 ^ 48) * 512) by ring.
  by rewrite Z_mod_plus_full.
Qed.

(** The path to a table of the next level. *)
Lemma vpre_step k va :
  (1 ≤ k ≤ 3)%nat → 512 * vpre (S k) va + PMLX (lshift (S k)) va = vpre k va.
Proof.
  intros Hk. rewrite PMLX_low by (unfold lshift; lia). unfold vpre.
  replace (lshift (S (S k))) with (lshift (S k) + 9) by (unfold lshift; lia).
  rewrite Z.pow_add_r, <- Z.div_div by (unfold lshift; lia).
  symmetry. apply Z.div_mod. lia.
Qed.

Lemma vpre_vpage k va : vpre k va = vpage va / 2 ^ (9 * Z.of_nat k).
Proof.
  unfold vpre, vpage, PGSIZE, lshift. change 4096 with (2 ^ 12). rewrite Z.div_div, <- Z.pow_add_r by lia. do 2 f_equal. lia.
Qed.

Lemma vpre_page va : 512 * vpre 1 va + PMLX PML1XSHIFT va = vpage va.
Proof.
  rewrite PMLX_low by (unfold PML1XSHIFT; lia). unfold vpre, vpage, PML1XSHIFT, PGSIZE.
  change (2 ^ lshift 2) with (2 ^ 12 * 512). change 4096 with (2 ^ 12).
  rewrite <- Z.div_div by lia. symmetry. apply Z.div_mod. lia.
Qed.

Lemma vpre_top va : vpre 4 va = 0.
Proof. unfold vpre, lshift. apply Z.div_small. simpl. pose proof (Z.mod_pos_bound va (2 ^ 48)). lia. Qed.

(** Entries of a table page. *)
Lemma entry_eq sh p va : page p → entry sh p va = p + 8 * PMLX sh va.
Proof.
  intros (_&H0&Ht). unfold entry. pose proof (PMLX_range sh va). apply u64_small. unfold PGSIZE in *. lia.
Qed.

Lemma PMLX_vpage s va : 12 ≤ s ≤ 39 → PMLX s va = vpage va / 2 ^ (s - 12) mod 512.
Proof.
  intros Hs. rewrite PMLX_low by lia. unfold vpage, PGSIZE. change 4096 with (2 ^ 12).
  rewrite Z.div_div, <- Z.pow_add_r by lia. do 2 f_equal. f_equal. lia.
Qed.

(** Flags do not disturb the address. *)
Lemma PTE_ADDR_lor a f : a mod 4096 = 0 → 0 ≤ a < 2 ^ 48 → 0 ≤ f < 4096 → PTE_ADDR (Z.lor a f) = a.
Proof.
  intros Ha Hr Hf. unfold PTE_ADDR. change 0x0000FFFFFFFFF000 with (Z.shiftl (Z.ones 36) 12).
  apply Z.bits_inj'. intros n Hn. rewrite Z.land_spec, Z.lor_spec.
  assert (Ea : a = a / 2 ^ 12 * 2 ^ 12).
  { change 4096 with (2 ^ 12) in Ha. pose proof (Z.div_mod a (2 ^ 12) ltac:(lia)). lia. }
  destruct (decide (n < 12)).
  - rewrite Z.shiftl_spec_low, andb_false_r by lia. rewrite Ea, Z.mul_pow2_bits_low by lia. done.
  - rewrite Z.shiftl_spec by lia. rewrite Z.testbit_ones_nonneg by lia.
    assert (Z.testbit f n = false) as ->.
    { destruct (decide (f = 0)) as [->|]; [apply Z.bits_0|]. apply Z.bits_above_log2; [lia|].
      apply Z.log2_lt_pow2; [lia|]. pose proof (Z.pow_le_mono_r 2 12 n ltac:(lia) ltac:(lia)). lia. }
    rewrite orb_false_r. destruct (Z.ltb_spec (n - 12) 36); [apply andb_true_r|]. rewrite andb_false_r.
    symmetry. destruct (decide (a = 0)) as [->|]; [apply Z.bits_0|]. apply Z.bits_above_log2; [lia|].
    apply Z.log2_lt_pow2; [lia|]. pose proof (Z.pow_le_mono_r 2 48 n ltac:(lia) ltac:(lia)). lia.
Qed.

Lemma present_lor a : present (Z.lor a PTE_P) = true.
Proof.
  unfold present, PTE_P. apply negb_true_iff, Z.eqb_neq. intros E.
  apply (f_equal (λ x, Z.testbit x 0)) in E. by rewrite Z.land_spec, Z.lor_spec, orb_true_r in E.
Qed.

Lemma lor_bound a b n : 0 < n → 0 ≤ a < 2 ^ n → 0 ≤ b < 2 ^ n → 0 ≤ Z.lor a b < 2 ^ n.
Proof.
  intros Hn Ha Hb. split; [apply Z.lor_nonneg; lia|].
  destruct (decide (Z.lor a b = 0)) as [->|Hne]; [lia|]. 
  apply Z.log2_lt_pow2; [pose proof (proj2 (Z.lor_nonneg a b)); lia|]. rewrite Z.log2_lor by lia.
  apply Z.max_lub_lt.
  - destruct (decide (a = 0)) as [->|]; [simpl; lia|]. apply Z.log2_lt_pow2; lia.
  - destruct (decide (b = 0)) as [->|]; [simpl; lia|]. apply Z.log2_lt_pow2; lia.
Qed.

(** The entry that points to a new table. *)
Definition table_entry (t : Z) : Z := Z.lor (Z.lor (Z.lor (V2P t) PTE_P) PTE_W) PTE_U.

Lemma table_entry_spec t :
  table_page t → present (table_entry t) = true ∧ P2V (PTE_ADDR (table_entry t)) = t ∧ u64 (table_entry t) = table_entry t.
Proof.
  intros [(Hm&H0&Ht) Hk]. unfold table_entry.
  assert (Hv : V2P t = t - KERNBASE).
  { unfold V2P. apply u64_small. unfold KERNBASE, PGSIZE in *. lia. }
  assert (Hv48 : 0 ≤ V2P t < 2 ^ 47) by (rewrite Hv; unfold KERNBASE, PGSIZE in *; lia).
  assert (Hal : V2P t mod 4096 = 0).
  { rewrite Hv. unfold KERNBASE, PGSIZE in *. rewrite Zminus_mod, Hm. done. }
  assert (E : Z.lor (Z.lor (Z.lor (V2P t) PTE_P) PTE_W) PTE_U = Z.lor (V2P t) 7).
  { rewrite <- !Z.lor_assoc. done. }
  rewrite E. split; [|split].
  - change 7 with (Z.lor 6 PTE_P). rewrite Z.lor_assoc. apply present_lor.
  - rewrite PTE_ADDR_lor by lia. rewrite Hv. unfold P2V. replace (t - KERNBASE + KERNBASE) with t by lia.
    apply u64_small. unfold PGSIZE in *. lia.
  - pose proof (lor_bound (V2P t) 7 47 ltac:(lia) Hv48 ltac:(lia)). apply u64_small. lia.
Qed.
End arith.

(** * The tables *)

Section tables.
Implicit Types (m : mem) (lab : gmap Z (nat * Z)) (p q t va x j : Z) (k : nat).

(** Entries of different pages, and of one page, do not overlap. *)
Lemma entries_ne p q i j :
  page p → page q → 0 ≤ i < 512 → 0 ≤ j < 512 → p ≠ q ∨ i ≠ j → p + 8 * i + 8 ≤ q + 8 * j ∨ q + 8 * j + 8 ≤ p + 8 * i.
Proof.
  intros Hp Hq Hi Hj [Hne|Hne].
  - destruct Hp as [Hp _], Hq as [Hq _]. pose proof (Z.div_mod p PGSIZE ltac:(done)).
    pose proof (Z.div_mod q PGSIZE ltac:(done)). unfold PGSIZE in *. nia.
  - destruct (decide (p = q)) as [->|Hpq]; [lia|].
    destruct Hp as [Hp _], Hq as [Hq _]. pose proof (Z.div_mod p PGSIZE ltac:(done)).
    pose proof (Z.div_mod q PGSIZE ltac:(done)). unfold PGSIZE in *. nia.
Qed.

Lemma rd64_memset_in m t n j : 0 ≤ j < 512 → n = PGSIZE → rd64 (memset m t 0 n) (t + 8 * j) = 0.
Proof.
  intros Hj ->. unfold rd64. replace (rd_bytes (memset m t 0 PGSIZE) (t + 8 * j) 8) with (replicate 8 0); [done|].
  symmetry. apply list_eq. intros i. destruct (decide (i < 8)%nat).
  - rewrite lookup_rd_bytes, lookup_replicate_2 by done. f_equal. rewrite memset_spec by done.
    rewrite decide_True; [done|]. unfold PGSIZE. lia.
  - by rewrite !lookup_ge_None_2 by (rewrite ?length_rd_bytes, ?length_replicate; lia).
Qed.

Lemma rd64_memset_out m t q j :
  page t → page q → q ≠ t → 0 ≤ j < 512 → rd64 (memset m t 0 PGSIZE) (q + 8 * j) = rd64 m (q + 8 * j).
Proof.
  intros Ht Hq Hne Hj. apply rd64_ext. intros x Hx. rewrite memset_spec by done. rewrite decide_False; [done|].
  apply (page_disjoint q t x); try done. unfold PGSIZE. lia.
Qed.

(** Where the walk ends up. *)
Lemma leaf_lab m pml4 lab k q va p :
  pt_ok m pml4 lab → (k ≤ 3)%nat → lab !! q = Some (S k, vpre (S k) va) → leaf_table k m q va = Some p →
  lab !! p = Some (1%nat, vpre 1 va).
Proof.
  intros Hok. revert q. induction k as [|k IH]; intros q Hk Hq.
  - by intros [= <-].
  - cbn [leaf_table]. destruct (pt_page _ _ _ Hok _ _ _ Hq) as [[Hp _] _]. rewrite entry_eq by done.
    pose proof (PMLX_range (lshift (S (S k))) va) as Hx. case_match eqn:Hpr; [|done]. intros Hl.
    eapply IH; [lia| |exact Hl]. rewrite <- vpre_step by lia. by apply (pt_down _ _ _ Hok).
Qed.

(** Addresses of one page take the same path. *)
Lemma leaf_page m k q va va' : (k ≤ 3)%nat → vpage va = vpage va' → leaf_table k m q va = leaf_table k m q va'.
Proof.
  intros Hk E. revert q. induction k as [|k IH]; intros q; [done|]. cbn [leaf_table].
  assert (entry (lshift (S (S k))) q va = entry (lshift (S (S k))) q va') as ->.
  { unfold entry. rewrite !PMLX_vpage by (unfold lshift; lia). by rewrite E. }
  case_match; [|done]. apply IH. lia.
Qed.

(** Storing an entry of level 1. *)
Lemma pt_leaf m pml4 lab p x j v :
  pt_ok m pml4 lab → lab !! p = Some (1%nat, x) → 0 ≤ j < 512 → pt_ok (wr64 m (p + 8 * j) v) pml4 lab.
Proof.
  intros Hok Hp Hj. destruct (pt_page _ _ _ Hok _ _ _ Hp) as [[Hpp _] _].
  assert (Ee : ∀ q k y i, lab !! q = Some (S (S k), y) → 0 ≤ i < 512 → rd64 (wr64 m (p + 8 * j) v) (q + 8 * i) = rd64 m (q + 8 * i)).
  { intros q k y i Hq Hi. destruct (pt_page _ _ _ Hok _ _ _ Hq) as [[Hqq _] _].
    apply rd64_wr64_ne, entries_ne; try done. left. intros ->. congruence. }
  split; [apply Hok|apply Hok|..].
  - intros q k y i Hq Hi e He. unfold e in *. rewrite (Ee q k y) in * by done. by apply (pt_down _ _ _ Hok).
  - intros q k y Hq. destruct (pt_up _ _ _ Hok _ _ _ Hq) as [?|(r & Hr & Hrq)]; [by left|right]. exists r. split; [done|].
    destruct (pt_page _ _ _ Hok _ _ _ Hq) as [_ ?]. destruct k as [|k]; [lia|].
    unfold points_to. by rewrite (Ee r k (y / 512)) by (done || by apply Z.mod_pos_bound).
Qed.

Lemma leaf_write m pml4 lab p x j v k q va :
  pt_ok m pml4 lab → lab !! p = Some (1%nat, x) → 0 ≤ j < 512 → (k ≤ 3)%nat →
  lab !! q = Some (S k, vpre (S k) va) → leaf_table k (wr64 m (p + 8 * j) v) q va = leaf_table k m q va.
Proof.
  intros Hok Hp Hj. revert q. induction k as [|k IH]; intros q Hk Hq; [done|]. cbn [leaf_table].
  destruct (pt_page _ _ _ Hok _ _ _ Hp) as [[Hpp _] _]. destruct (pt_page _ _ _ Hok _ _ _ Hq) as [[Hqq _] _].
  pose proof (PMLX_range (lshift (S (S k))) va) as Hx. rewrite entry_eq by done.
  rewrite rd64_wr64_ne by (apply entries_ne; try done; left; intros ->; congruence).
  case_match eqn:Hpr; [|done]. apply IH; [lia|]. rewrite <- vpre_step by lia. by apply (pt_down _ _ _ Hok).
Qed.

(** The map after an entry of the page of [va] is stored. *)
Lemma lookup_write m pml4 lab va p v va' :
  pt_ok m pml4 lab → leaf_table 3 m pml4 va = Some p → u64 v = v →
  lookup_page (wr64 m (entry PML1XSHIFT p va) v) pml4 va' =
    if decide (vpage va' = vpage va) then (if present v then Some v else None) else lookup_page m pml4 va'.
Proof.
  intros Hok Hl Hv. pose proof (pt_root _ _ _ Hok) as Hroot.
  assert (Hroot' : ∀ w, lab !! pml4 = Some (4%nat, vpre 4 w)) by (intros; by rewrite vpre_top).
  pose proof (leaf_lab m pml4 lab 3 pml4 va p Hok ltac:(lia) (Hroot' va) Hl) as Hp.
  destruct (pt_page _ _ _ Hok _ _ _ Hp) as [[Hpp _] _]. pose proof (PMLX_range PML1XSHIFT va) as Hx.
  rewrite entry_eq by done. unfold lookup_page.
  rewrite (leaf_write m pml4 lab p (vpre 1 va) _ v 3 pml4 va') by (done || lia).
  case_decide as E.
  - rewrite (leaf_page m 3 pml4 va' va), Hl by (done || lia). rewrite entry_eq by done.
    assert (PMLX PML1XSHIFT va' = PMLX PML1XSHIFT va) as ->.
    { rewrite !PMLX_vpage by (unfold PML1XSHIFT; lia). by rewrite E. }
    by rewrite rd64_wr64, Hv.
  - destruct (leaf_table 3 m pml4 va') as [q|] eqn:Hl'; [|done].
    pose proof (leaf_lab m pml4 lab 3 pml4 va' q Hok ltac:(lia) (Hroot' va') Hl') as Hq.
    destruct (pt_page _ _ _ Hok _ _ _ Hq) as [[Hqq _] _]. pose proof (PMLX_range PML1XSHIFT va').
    rewrite entry_eq by done. rewrite rd64_wr64_ne; [done|]. apply entries_ne; try done.
    destruct (decide (q = p)) as [->|]; [right|by left]. intros Ej. apply E.
    rewrite <- !vpre_page, Ej. congruence.
Qed.

(** A new, empty table below an entry of [p] that was not present. *)
Section new_table.
Context (m : mem) (pml4 : Z) (lab : gmap Z (nat * Z)) (p : Z) (k : nat) (x j t : Z).
Context (Hok : pt_ok m pml4 lab) (Hp : lab !! p = Some (S (S k), x)) (Hj : 0 ≤ j < 512).
Context (Ht : table_page t) (Hnew : lab !! t = None) (Habs : present (rd64 m (p + 8 * j)) = false).

Definition with_table : mem := wr64 (memset m t 0 PGSIZE) (p + 8 * j) (table_entry t).

Lemma new_page q k' y : lab !! q = Some (k', y) → page q ∧ q ≠ t.
Proof using Hok Hnew. intros Hq. destruct (pt_page _ _ _ Hok _ _ _ Hq) as [[? _] _]. split; [done|]. intros ->. congruence. Qed.

Lemma new_entry q k' y i :
  lab !! q = Some (k', y) → 0 ≤ i < 512 →
  rd64 with_table (q + 8 * i) = if decide (q = p ∧ i = j) then table_entry t else rd64 m (q + 8 * i).
Proof using Hok Hp Hj Ht Hnew.
  intros Hq Hi. destruct (new_page _ _ _ Hq) as [Hqq Hqt]. destruct (new_page _ _ _ Hp) as [Hpp Hpt].
  unfold with_table. case_decide as E.
  - destruct E as [-> ->]. rewrite rd64_wr64. by apply table_entry_spec.
  - rewrite rd64_wr64_ne by (apply entries_ne; try done; destruct (decide (q = p)); [right|by left]; naive_solver).
    apply rd64_memset_out; try done. apply Ht.
Qed.

Lemma new_empty i : 0 ≤ i < 512 → rd64 with_table (t + 8 * i) = 0.
Proof using Hok Hp Hj Ht Hnew.
  intros Hi. destruct (new_page _ _ _ Hp) as [Hpp Hpt]. unfold with_table.
  rewrite rd64_wr64_ne by (apply entries_ne; try done; [apply Ht|by left]). by apply rd64_memset_in.
Qed.

Lemma pt_new : pt_ok with_table pml4 (<[t := (S k, 512 * x + j)]> lab).
Proof using All.
  split.
  - rewrite lookup_insert_ne; [apply Hok|]. intros E. pose proof (pt_root _ _ _ Hok). congruence.
  - intros q k' y. destruct (decide (q = t)) as [->|Hne].
    + rewrite lookup_insert_eq. intros [= <- <-]. destruct (pt_page _ _ _ Hok _ _ _ Hp) as [_ ?]. split; [done|lia].
    + rewrite lookup_insert_ne by done. apply Hok.
  - intros q k' y i. destruct (decide (q = t)) as [->|Hne].
    + intros _ Hi e. unfold e. by rewrite new_empty.
    + rewrite lookup_insert_ne by done. intros Hq Hi e. unfold e. rewrite (new_entry q _ _ i Hq Hi).
      case_decide as E.
      * destruct E as [-> ->]. intros _. destruct (table_entry_spec t Ht) as (_&->&_). rewrite lookup_insert_eq.
        congruence.
      * intros He. pose proof (pt_down _ _ _ Hok _ _ _ _ Hq Hi He) as Hc. rewrite lookup_insert_ne; [done|].
        intros ->. congruence.
  - intros q k' y. destruct (decide (q = t)) as [->|Hne].
    + rewrite lookup_insert_eq. intros [= <- <-]. right. exists p. rewrite lookup_insert_ne by congruence.
      rewrite (Z.mul_comm 512), Z.div_add_l, Z.div_small, Z.add_0_r by lia.
      rewrite Z.add_comm, Z_mod_plus_full, Z.mod_small by lia. split; [done|].
      unfold points_to. rewrite (new_entry p _ _ j Hp Hj), decide_True by done. by destruct (table_entry_spec t Ht) as (->&->&_).
    + rewrite lookup_insert_ne by done. intros Hq. destruct (pt_up _ _ _ Hok _ _ _ Hq) as [?|(r & Hr & Hpr & Hrq)]; [by left|right].
      exists r. rewrite lookup_insert_ne by congruence. split; [done|]. unfold points_to.
      rewrite (new_entry r _ _ _ Hr) by (by apply Z.mod_pos_bound). rewrite decide_False; [done|]. intros [-> E]. congruence.
Qed.

Lemma leaf_new n q va :
  (n ≤ 3)%nat → lab !! q = Some (S n, vpre (S n) va) →
  leaf_table n with_table q va = leaf_table n m q va ∨
  leaf_table n m q va = None ∧ (leaf_table n with_table q va = None ∨ leaf_table n with_table q va = Some t).
Proof using All.
  revert q. induction n as [|n IH]; intros q Hn Hq; [by left|]. cbn [leaf_table].
  destruct (new_page _ _ _ Hq) as [Hqq _]. pose proof (PMLX_range (lshift (S (S n))) va) as Hx.
  rewrite entry_eq by done. rewrite (new_entry q _ _ _ Hq Hx). case_decide as E.
  - destruct E as [-> Ej]. rewrite Ej, Habs. right. split; [done|].
    destruct (table_entry_spec t Ht) as (->&->&_). destruct n as [|n]; [by right|left]. cbn [leaf_table].
    rewrite entry_eq by apply Ht. by rewrite new_empty by apply PMLX_range.
  - case_match eqn:Hpr; [|by left]. apply IH; [lia|]. rewrite <- vpre_step by lia. by apply (pt_down _ _ _ Hok).
Qed.

Lemma lookup_new va : lookup_page with_table pml4 va = lookup_page m pml4 va.
Proof using All.
  assert (Hroot : lab !! pml4 = Some (4%nat, vpre 4 va)) by (rewrite vpre_top; apply Hok).
  unfold lookup_page. destruct (leaf_new 3 pml4 va) as [E|[E1 [E2|E2]]]; [lia|done|..].
  - rewrite E. destruct (leaf_table 3 m pml4 va) as [q|] eqn:Hl; [|done].
    pose proof (leaf_lab m pml4 lab 3 pml4 va q Hok ltac:(lia) Hroot Hl) as Hq.
    destruct (new_page _ _ _ Hq) as [Hqq _]. rewrite entry_eq by done.
    rewrite (new_entry q _ _ _ Hq) by apply PMLX_range. rewrite decide_False; [done|].
    intros [-> _]. congruence.
  - by rewrite E1, E2.
  - rewrite E1, E2. rewrite entry_eq by apply Ht. by rewrite new_empty by apply PMLX_range.
Qed.
End new_table.
End tables.

(** * The operations *)

(** The tables at [pml4] in a kernel whose free pages are [l]. *)
Record vm_ok (s : kstate) (i : nat) (pml4 : Z) (lab : gmap Z (nat * Z)) (l : list Z) : Prop := mkVm {
  vm_lock : km_lockable s i;
  vm_km : km_ok s l;
  vm_pt : pt_ok (k_mem s) pml4 lab;
  vm_sep p : p ∈ l → lab !! p = None;
  vm_end : KERNBASE ≤ kmem_end (k_km s)
}.

(** Entries that are present stay as they are above level 1. *)
Definition grows (lab : gmap Z (nat * Z)) (m m' : mem) : Prop :=
  ∀ q k y j, lab !! q = Some (S (S k), y) → 0 ≤ j < 512 → present (rd64 m (q + 8 * j)) = true →
    rd64 m' (q + 8 * j) = rd64 m (q + 8 * j).

(** * What the operations leave alone *)

(** Only memory, the head of the free list and the console's output change. *)
Definition same_but_vm (s s' : kstate) : Prop :=
  ∃ f m cs, s' = printed cs (set_km (km_set_freelist f (k_km s)) (set_mem m s)).

(** Of the pages, only those with [P] change. *)
Record vstep (P : Z → Prop) (s s' : kstate) : Prop := mkVstep {
  vs_same : same_but_vm s s';
  vs_mem p x : page p → ¬ P p → p ≤ x < p + PGSIZE → rd (k_mem s') x = rd (k_mem s) x
}.

(** The pages that are tables or free. *)
Definition tabs (lab : gmap Z (nat * Z)) (l : list Z) (p : Z) : Prop := is_Some (lab !! p) ∨ p ∈ l.

(** Free pages have become tables, on the way to the pages [W] only. *)
Record made (W : Z → Prop) (s s' : kstate) (lab lab' : gmap Z (nat * Z)) (l l' : list Z) : Prop := mkMade {
  md_step : vstep (tabs lab l) s s';
  md_lab : lab ⊆ lab';
  md_free p : p ∈ l' → p ∈ l;
  md_tabs p : tabs lab' l' p ↔ tabs lab l p;
  md_new p k y : lab' !! p = Some (k, y) → lab !! p = Some (k, y) ∨ ∃ x, W x ∧ y = x / 2 ^ (9 * Z.of_nat k)
}.
#[global] Arguments md_step {_ _ _ _ _ _ _} _.
#[global] Arguments md_lab {_ _ _ _ _ _ _} _.
#[global] Arguments md_free {_ _ _ _ _ _ _} _ _.
#[global] Arguments md_tabs {_ _ _ _ _ _ _} _ _.
#[global] Arguments md_new {_ _ _ _ _ _ _} _ _ _ _.

Lemma same_but_vm_intro f m s : same_but_vm s (set_km (km_set_freelist f (k_km s)) (set_mem m s)).
Proof. exists f, m, []. unfold printed, cons_put. simpl. rewrite app_nil_r. by destruct s as [???????????? [] ?]. Qed.

Lemma same_but_vm_mem m s : same_but_vm s (set_mem m s).
Proof.
  replace (set_mem m s) with (set_km (km_set_freelist (kmem_freelist (k_km s)) (k_km s)) (set_mem m s))
    by (by destruct s as [?? [] ???????????]).
  apply same_but_vm_intro.
Qed.

Lemma same_but_vm_refl s : same_but_vm s s.
Proof. replace s with (set_mem (k_mem s) s) at 2 by (by destruct s). apply same_but_vm_mem. Qed.

Lemma same_but_vm_trans s s1 s2 : same_but_vm s s1 → same_but_vm s1 s2 → same_but_vm s s2.
Proof.
  intros (f & m & cs & ->) (f' & m' & cs' & ->). exists f', m', (cs ++ cs').
  unfold printed, cons_put. simpl. by rewrite <- app_assoc.
Qed.

Lemma same_but_vm_lockable s s' i : same_but_vm s s' → km_lockable s i → km_lockable s' i.
Proof. by intros (f & m & cs & ->). Qed.

Lemma vstep_refl P s : vstep P s s.
Proof. split; [apply same_but_vm_refl|done]. Qed.

Lemma vstep_trans P Q R s s1 s2 :
  vstep P s s1 → vstep Q s1 s2 → (∀ p, P p → R p) → (∀ p, Q p → R p) → vstep R s s2.
Proof.
  intros [H1 M1] [H2 M2] HP HQ. split; [by eapply same_but_vm_trans|]. intros p x Hp Hn Hx.
  rewrite (M2 p), (M1 p); naive_solver.
Qed.

Lemma made_refl W s lab l : made W s s lab lab l l.
Proof. split; try done; [apply vstep_refl|by left]. Qed.

Lemma made_trans W s s1 s2 lab lab1 lab2 l l1 l2 :
  made W s s1 lab lab1 l l1 → made W s1 s2 lab1 lab2 l1 l2 → made W s s2 lab lab2 l l2.
Proof.
  intros [H1 L1 F1 T1 N1] [H2 L2 F2 T2 N2]. split; [|by etrans|naive_solver|intros p; by rewrite T2, T1|].
  - eapply vstep_trans; [done|done|done|]. intros p. apply T1.
  - intros p k y Hp. destruct (N2 p k y Hp) as [?|?]; [by apply N1|by right].
Qed.

Lemma made_weaken (W W' : Z → Prop) s s' lab lab' l l' :
  (∀ x, W x → W' x) → made W s s' lab lab' l l' → made W' s s' lab lab' l l'.
Proof. intros HW [? ? ? ? N]. split; try done. intros p k y Hp. destruct (N p k y Hp) as [?|(x & ? & ?)]; eauto. Qed.

Section run.
Context (i fuel : nat) (pml4 : Z).
Implicit Types (s : kstate) (lab : gmap Z (nat * Z)) (l : list Z) (m : mem) (va : Z).

(** Memory changed outside the free pages. *)
Lemma vm_mem s lab lab' l m' :
  vm_ok s i pml4 lab l → pt_ok m' pml4 lab' → (∀ p, p ∈ l → lab' !! p = None) →
  (∀ p x, p ∈ l → p ≤ x < p + 8 → rd m' x = rd (k_mem s) x) →
  vm_ok (set_mem m' s) i pml4 lab' l.
Proof.
  intros [Hl (Hfp&Hnd&Hall) Hpt Hsep He] Hpt' Hsep' Hx. split; try done. split; [|done].
  by eapply free_pages_ext, Hfp.
Qed.

Lemma free_page_out s lab l p q x j v k y :
  vm_ok s i pml4 lab l → p ∈ l → lab !! q = Some (k, y) → 0 ≤ j < 512 → p ≤ x < p + 8 →
  rd (wr64 (k_mem s) (q + 8 * j) v) x = rd (k_mem s) x.
Proof.
  intros V Hp Hq Hj Hx. destruct (vm_km _ _ _ _ _ V) as (_&_&Hall).
  apply Forall_forall with (x := p) in Hall as [Hpp _]; [|done].
  destruct (pt_page _ _ _ (vm_pt _ _ _ _ _ V) _ _ _ Hq) as [[Hqq _] _].
  pose proof (vm_sep _ _ _ _ _ V p Hp) as Hno. assert (p ≠ q) by congruence.
  unfold wr64. rewrite rd_wr_bytes, length_le_bytes, decide_False; [done|].
  pose proof (page_disjoint p q x Hpp Hqq). unfold PGSIZE in *. lia.
Qed.

(** Storing a leaf entry. *)
Lemma vm_leaf s lab l p x j v :
  vm_ok s i pml4 lab l → lab !! p = Some (1%nat, x) → 0 ≤ j < 512 →
  vm_ok (set_mem (wr64 (k_mem s) (p + 8 * j) v) s) i pml4 lab l.
Proof.
  intros V Hp Hj. eapply vm_mem; [done|eapply pt_leaf; [apply V|done|done]|apply V|].
  intros q y Hq Hy. by eapply free_page_out.
Qed.

Lemma made_leaf W s lab l p x j v :
  vm_ok s i pml4 lab l → lab !! p = Some (1%nat, x) → 0 ≤ j < 512 →
  made W s (set_mem (wr64 (k_mem s) (p + 8 * j) v) s) lab lab l l.
Proof.
  intros V Hp Hj. destruct (pt_page _ _ _ (vm_pt _ _ _ _ _ V) _ _ _ Hp) as [[Hpp _] _]. split; try done; [split|by left].
  - apply same_but_vm_mem.
  - intros q y Hq Hn Hy. cbn [k_mem set_mem]. unfold wr64. rewrite rd_wr_bytes, length_le_bytes, decide_False; [done|].
    assert (q ≠ p) by (intros ->; apply Hn; left; eauto).
    pose proof (page_disjoint q p y Hq Hpp ltac:(done) Hy). unfold PGSIZE in *. lia.
Qed.

(** One level of the walk, with the table made if it is missing. *)
Lemma get_pml_run s lab l k p va :
  vm_ok s i pml4 lab l → (k ≤ 2)%nat → lab !! p = Some (S (S k), vpre (S (S k)) va) →
  ∃ r s' lab' l', get_pml (lshift (S (S k))) p va true fuel s = Ret r s' ∧ vm_ok s' i pml4 lab' l' ∧
    (∀ va', lookup_page (k_mem s') pml4 va' = lookup_page (k_mem s) pml4 va') ∧
    made (λ x, x = vpage va) s s' lab lab' l l' ∧ grows lab (k_mem s) (k_mem s') ∧ (length l ≤ length l' + 1)%nat ∧
    (r = 0 ∧ l' = [] ∨
     r ≠ 0 ∧ lab' !! r = Some (S k, vpre (S k) va) ∧
       points_to (k_mem s') p (PMLX (lshift (S (S k))) va) r).
Proof.
  intros V Hk Hp. pose proof (vm_pt _ _ _ _ _ V) as Hpt. destruct (pt_page _ _ _ Hpt _ _ _ Hp) as [[Hpp _] _].
  pose proof (PMLX_range (lshift (S (S k))) va) as Hx. set (j := PMLX (lshift (S (S k))) va) in *.
  pose proof (vpre_step (S k) va ltac:(lia)) as Hst. fold j in Hst.
  unfold get_pml, ld64, getmem. mred. rewrite entry_eq by done. fold j.
  destruct (present (rd64 (k_mem s) (p + 8 * j))) eqn:Hpr.
  - pose proof (pt_down _ _ _ Hpt _ _ _ _ Hp Hx Hpr) as Hc. rewrite Hst in Hc.
    destruct (pt_page _ _ _ Hpt _ _ _ Hc) as [[(_&Hc0&_) _] _].
    eexists _, s, lab, l. mred. split; [done|]. split_and!; try done; [apply made_refl|lia|]. right. split_and!; try done; lia.
  - pose proof (kalloc_page s i l fuel (vm_lock _ _ _ _ _ V) (vm_km _ _ _ _ _ V)) as Hka. cbn [negb]. mred.
    destruct l as [|t l].
    { rewrite Hka. mred. simpl. exists 0, s, lab, []. split_and!; try done; [apply made_refl|simpl; lia|by left]. }
    destruct Hka as (f&Ea&Hkm&Ht&Htl). rewrite Ea. mred. set (km := km_set_freelist f (k_km s)) in *.
    assert (Htp : table_page t).
    { split; [done|]. destruct (vm_km _ _ _ _ _ V) as (_&_&Hall). apply Forall_cons in Hall as [[_ ?] _].
      pose proof (vm_end _ _ _ _ _ V). lia. }
    assert (Hnew : lab !! t = None) by (apply V; left).
    rewrite (proj2 (Z.eqb_neq t 0)) by (destruct Ht as (_&?&_); lia).
    unfold zero_page, st64, modmem. mred. cbn [k_mem set_mem set_km].
    fold (table_entry t). fold (with_table (k_mem s) p j t).
    exists t, (set_mem (with_table (k_mem s) p j t) (set_km km s)), (<[t := (S k, 512 * vpre (S (S k)) va + j)]> lab), l.
    split; [done|]. cbn [k_mem set_mem].
    pose proof (pt_new (k_mem s) pml4 lab p k _ j t Hpt Hp Hx Htp Hnew Hpr) as Hpt'.
    split; [|split; [|split; [|split; [|split; [simpl; lia|]]]]].
    + assert (V1 : vm_ok (set_km km s) i pml4 lab l).
      { split; [apply V|done|done|intros q Hq; apply V; by right|apply V]. }
      eapply (vm_mem _ _ _ _ _ V1 Hpt').
      * intros q Hq. rewrite lookup_insert_ne by (intros ->; done). apply V1, Hq.
      * intros q y Hq Hy. cbn [k_mem set_km]. unfold with_table.
        destruct Hkm as (_&_&Hall). apply Forall_forall with (x := q) in Hall as [Hqq _]; [|done].
        assert (q ≠ t) by (intros ->; done). pose proof (vm_sep _ _ _ _ _ V1 q Hq).
        unfold wr64. rewrite rd_wr_bytes, length_le_bytes, decide_False.
        -- rewrite memset_spec by done. rewrite decide_False; [done|].
           apply (page_disjoint q t y); try done. unfold PGSIZE. lia.
        -- pose proof (page_disjoint q p y Hqq Hpp ltac:(congruence)). unfold PGSIZE in *. lia.
    + intros va'. by apply (lookup_new _ _ lab p k (vpre (S (S k)) va)).
    + split; [split|by apply insert_subseteq|by right| |].
      * apply (same_but_vm_intro f (with_table (k_mem s) p j t)).
      * intros q y Hq Hn Hy. unfold tabs in Hn. rewrite elem_of_cons in Hn. cbn [k_mem set_mem]. unfold with_table, wr64.
        assert (Hqt : ¬ (t ≤ y < t + PGSIZE)) by (apply (page_disjoint q t y); naive_solver).
        pose proof (page_disjoint q p y Hq Hpp ltac:(naive_solver) Hy) as Hqp.
        rewrite rd_wr_bytes, length_le_bytes, decide_False by (unfold PGSIZE in *; lia).
        by rewrite memset_spec, decide_False by done.
      * intros q. unfold tabs. rewrite elem_of_cons. destruct (decide (q = t)) as [->|].
        -- rewrite lookup_insert_eq. naive_solver.
        -- rewrite lookup_insert_ne by done. naive_solver.
      * intros q k' y Hq. apply lookup_insert_Some in Hq as [[<- [= <- <-]]|[_ ?]]; [right|by left].
        exists (vpage va). split; [done|]. rewrite Hst. apply vpre_vpage.
    + intros q k' y j' Hq Hj' Hpq. rewrite (new_entry _ _ lab p k _ j t Hpt Hp Hx Htp Hnew q _ _ j' Hq Hj').
      rewrite decide_False; [done|]. intros [-> ->]. congruence.
    + right. destruct (table_entry_spec t Htp) as (Hpt1&Hpt2&_). destruct Ht as (_&?&_).
      split; [lia|]. split; [rewrite lookup_insert_eq; by rewrite Hst|].
      assert (Ee : rd64 (with_table (k_mem s) p j t) (p + 8 * j) = table_entry t).
      { rewrite (new_entry _ _ lab p k _ j t Hpt Hp Hx Htp Hnew p _ _ j Hp Hx). by rewrite decide_True. }
      unfold points_to. by rewrite Ee.
Qed.

Lemma points_grow lab m m' p j r k y :
  grows lab m m' → lab !! p = Some (S (S k), y) → 0 ≤ j < 512 → points_to m p j r → points_to m' p j r.
Proof. intros Hg Hp Hj [H1 H2]. unfold points_to. by rewrite (Hg p k y j Hp Hj H1). Qed.

Lemma grows_trans lab lab' m m1 m2 : lab ⊆ lab' → grows lab m m1 → grows lab' m1 m2 → grows lab m m2.
Proof.
  intros Hs H1 H2 q k y j Hq Hj Hp. rewrite <- (H1 q k y j Hq Hj Hp). eapply H2; [by eapply lookup_weaken|done|].
  by rewrite (H1 q k y j Hq Hj Hp).
Qed.

(** [walkpml4] with allocation finds the entry of [va]'s page, or memory has
    run out. *)
Lemma walkpml4_run s lab l va :
  vm_ok s i pml4 lab l →
  ∃ e s' lab' l', walkpml4 pml4 va true fuel s = Ret e s' ∧ vm_ok s' i pml4 lab' l' ∧
    (∀ va', lookup_page (k_mem s') pml4 va' = lookup_page (k_mem s) pml4 va') ∧
    made (λ x, x = vpage va) s s' lab lab' l l' ∧ (length l ≤ length l' + 3)%nat ∧
    (e = 0 ∧ l' = [] ∨
     ∃ p, leaf_table 3 (k_mem s') pml4 va = Some p ∧ e = entry PML1XSHIFT p va ∧ e ≠ 0 ∧
       lab' !! p = Some (1%nat, vpre 1 va)).
Proof.
  intros V. pose proof (pt_root _ _ _ (vm_pt _ _ _ _ _ V)) as H4. rewrite <- (vpre_top va) in H4.
  unfold walkpml4, get_pml3, get_pml2, get_pml1.
  change PML4XSHIFT with (lshift 4). change PML3XSHIFT with (lshift 3). change PML2XSHIFT with (lshift 2).
  destruct (get_pml_run s lab l 2 pml4 va V ltac:(lia) H4) as (r3&s1&lab1&l1&E1&V1&L1&W1&G1&N1l&[[-> ->]|(N1&H3&P1)]);
    mred; rewrite E1; mred.
  { exists 0, s1, lab1, []. split_and!; try done; [simpl in *; lia|by left]. }
  rewrite (proj2 (Z.eqb_neq _ _) N1). mred.
  destruct (get_pml_run s1 lab1 l1 1 r3 va V1 ltac:(lia) H3) as (r2&s2&lab2&l2&E2&V2&L2&W2&G2&N2l&[[-> ->]|(N2&H2&P2)]);
    mred; rewrite E2; mred.
  { exists 0, s2, lab2, []. split_and!; try done; [|by eapply made_trans|simpl in *; lia|by left]. intros. by rewrite L2, L1. }
  rewrite (proj2 (Z.eqb_neq _ _) N2). mred.
  destruct (get_pml_run s2 lab2 l2 0 r2 va V2 ltac:(lia) H2) as (r1&s3&lab3&l3&E3&V3&L3&W3&G3&N3l&[[-> ->]|(N3&H1&P3)]);
    mred; rewrite E3; mred.
  { exists 0, s3, lab3, []. split_and!; try done; [|by do 2 (eapply made_trans; [done|])|simpl in *; lia|by left].
    intros. by rewrite L3, L2, L1. }
  pose proof (md_lab W1) as S1. pose proof (md_lab W2) as S2. pose proof (md_lab W3) as S3.
  rewrite (proj2 (Z.eqb_neq _ _) N3). mred.
  pose proof (pt_page _ _ _ (vm_pt _ _ _ _ _ V)) as Pg0. pose proof (pt_page _ _ _ (vm_pt _ _ _ _ _ V1)) as Pg1.
  pose proof (pt_page _ _ _ (vm_pt _ _ _ _ _ V2)) as Pg2. pose proof (pt_page _ _ _ (vm_pt _ _ _ _ _ V3)) as Pg3.
  eapply (points_grow lab1), (points_grow lab2) in P1 as [P1a P1b]; try done; try apply PMLX_range;
    [|by eapply lookup_weaken, S2; eapply lookup_weaken|by eapply lookup_weaken].
  eapply (points_grow lab2) in P2 as [P2a P2b]; try done; try apply PMLX_range; [|by eapply lookup_weaken].
  destruct P3 as [P3a P3b].
  exists (entry PML1XSHIFT r1 va), s3, lab3, l3. split; [done|]. split; [done|].
  split; [intros; by rewrite L3, L2, L1|]. split; [by do 2 (eapply made_trans; [done|])|]. split; [lia|]. right. exists r1. split; [|split; [done|split; [|done]]].
  - cbn [leaf_table]. rewrite entry_eq by apply (Pg0 _ _ _ H4). rewrite P1a, P1b.
    rewrite entry_eq by apply (Pg1 _ _ _ H3). rewrite P2a, P2b.
    rewrite entry_eq by apply (Pg2 _ _ _ H2). by rewrite P3a, P3b.
  - destruct (Pg3 _ _ _ H1) as [[Hp _] _]. rewrite entry_eq by done. pose proof (PMLX_range PML1XSHIFT va).
    destruct Hp as (_&?&_). lia.
Qed.

(** The walk when nothing has to be made. *)
Lemma get_pml_look s sh p va b :
  get_pml sh p va b fuel s =
    if present (rd64 (k_mem s) (entry sh p va)) then Ret (P2V (PTE_ADDR (rd64 (k_mem s) (entry sh p va)))) s
    else if b then get_pml sh p va b fuel s else Ret 0 s.
Proof. unfold get_pml, ld64, getmem. mred. case_match; mred; [done|]. by destruct b; cbn [negb]; mred. Qed.

Lemma down_page m lab k p va :
  pt_ok m pml4 lab → (k ≤ 2)%nat → lab !! p = Some (S (S k), vpre (S (S k)) va) →
  let e := rd64 m (entry (lshift (S (S k))) p va) in
  present e = true → lab !! P2V (PTE_ADDR e) = Some (S k, vpre (S k) va) ∧ P2V (PTE_ADDR e) ≠ 0.
Proof.
  intros Hpt Hk Hp e He. destruct (pt_page _ _ _ Hpt _ _ _ Hp) as [[Hpp _] _]. unfold e in *.
  rewrite entry_eq in * by done.
  pose proof (pt_down _ _ _ Hpt _ _ _ _ Hp (PMLX_range _ va) He) as Hc. rewrite vpre_step in Hc by lia.
  split; [done|]. destruct (pt_page _ _ _ Hpt _ _ _ Hc) as [[(_&?&_) _] _]. lia.
Qed.

Lemma walkpml4_look s lab va b :
  pt_ok (k_mem s) pml4 lab → (b = true → leaf_table 3 (k_mem s) pml4 va ≠ None) →
  walkpml4 pml4 va b fuel s =
    Ret (match leaf_table 3 (k_mem s) pml4 va with Some p => entry PML1XSHIFT p va | None => 0 end) s.
Proof.
  intros Hpt. pose proof (pt_root _ _ _ Hpt) as H4. rewrite <- (vpre_top va) in H4.
  unfold walkpml4, get_pml3, get_pml2, get_pml1. cbn [leaf_table].
  change PML4XSHIFT with (lshift 4). change PML3XSHIFT with (lshift 3). change PML2XSHIFT with (lshift 2).
  mred. rewrite get_pml_look. destruct (present _) eqn:Hp4; [|destruct b; [naive_solver|done]].
  destruct (down_page _ lab 2 pml4 va Hpt ltac:(lia) H4 Hp4) as [H3 N3]. mred.
  rewrite (proj2 (Z.eqb_neq _ _) N3). mred. rewrite get_pml_look.
  destruct (present (rd64 _ (entry (lshift 3) _ va))) eqn:Hp3; [|destruct b; [naive_solver|done]].
  destruct (down_page _ lab 1 _ va Hpt ltac:(lia) H3 Hp3) as [H2 N2]. mred.
  rewrite (proj2 (Z.eqb_neq _ _) N2). mred. rewrite get_pml_look.
  destruct (present (rd64 _ (entry (lshift 2) _ va))) eqn:Hp2; [|destruct b; [naive_solver|done]].
  destruct (down_page _ lab 0 _ va Hpt ltac:(lia) H2 Hp2) as [H1 N1]. mred.
  by rewrite (proj2 (Z.eqb_neq _ _) N1).
Qed.

Lemma leaf_entry_pos m lab va p :
  pt_ok m pml4 lab → leaf_table 3 m pml4 va = Some p → entry PML1XSHIFT p va ≠ 0.
Proof.
  intros Hpt Hl. pose proof (pt_root _ _ _ Hpt) as H4. rewrite <- (vpre_top va) in H4.
  pose proof (leaf_lab m pml4 lab 3 pml4 va p Hpt ltac:(lia) H4 Hl) as Hp.
  destruct (pt_page _ _ _ Hpt _ _ _ Hp) as [[Hpp _] _]. rewrite entry_eq by done.
  pose proof (PMLX_range PML1XSHIFT va). destruct Hpp as (_&?&_). lia.
Qed.

(** One round of [mappages]. *)
Lemma map_one s lab l last a pa perm :
  vm_ok s i pml4 lab l → lookup_page (k_mem s) pml4 a = None → 0 ≤ pa < 2 ^ 64 → 0 ≤ perm < 2 ^ 64 →
  let v := Z.lor (Z.lor pa perm) PTE_P in
  ∃ c s' lab' l', mappages_round pml4 last perm (a, pa) fuel s = Ret c s' ∧ vm_ok s' i pml4 lab' l' ∧
    made (λ x, x = vpage a) s s' lab lab' l l' ∧ (length l ≤ length l' + 3)%nat ∧
    (c = inr (-1) ∧ l' = [] ∧ (∀ va', lookup_page (k_mem s') pml4 va' = lookup_page (k_mem s) pml4 va') ∨
     c = (if a =? last then inr 0 else inl (u64 (a + PGSIZE), u64 (pa + PGSIZE))) ∧
     ∀ va', lookup_page (k_mem s') pml4 va' =
       if decide (vpage va' = vpage a) then Some v else lookup_page (k_mem s) pml4 va').
Proof.
  intros V Hno Hpa Hperm v. unfold mappages_round.
  destruct (walkpml4_run s lab l a V) as (e&s1&lab1&l1&E1&V1&L1&W1&N1&[[-> ->]|(p&Hl&->&He&Hp)]); mred; rewrite E1; mred.
  { eexists _, s1, lab1, []. split; [done|]. split; [done|]. split; [done|]. split; [done|]. by left. }
  rewrite (proj2 (Z.eqb_neq _ _) He). mred. unfold ld64, getmem. mred.
  destruct (pt_page _ _ _ (vm_pt _ _ _ _ _ V1) _ _ _ Hp) as [[Hpp _] _].
  assert (present (rd64 (k_mem s1) (entry PML1XSHIFT p a)) = false) as ->.
  { specialize (L1 a). rewrite Hno in L1. unfold lookup_page in L1. rewrite Hl in L1. by case_match. }
  unfold st64, modmem. mred. fold v.
  eexists (if a =? last then inr 0 else inl (u64 (a + PGSIZE), u64 (pa + PGSIZE))), _, lab1, l1.
  assert (Hv : u64 v = v).
  { pose proof (lor_bound (Z.lor pa perm) PTE_P 64 ltac:(lia)) as B. apply u64_small, B; [|unfold PTE_P; lia].
    apply lor_bound; lia. }
  split; [by destruct (a =? last)|]. split.
  - rewrite entry_eq by done. eapply vm_leaf; [done|done|apply PMLX_range].
  - split; [|split; [done|]].
    { eapply made_trans; [done|]. rewrite entry_eq by done. eapply made_leaf; [done|done|apply PMLX_range]. }
    right. split; [done|]. intros va'. cbn [k_mem set_mem].
    rewrite (lookup_write _ _ lab1 a p v va' (vm_pt _ _ _ _ _ V1) Hl Hv).
    unfold v at 1. rewrite present_lor. by rewrite L1.
Qed.

Lemma vpage_add a j : 0 ≤ j → vpage a + j < 2 ^ 36 → vpage (a + PGSIZE * j) = vpage a + j.
Proof.
  intros Hj Hb. unfold vpage, PGSIZE in *. pose proof (Z.mod_pos_bound a (2 ^ 48) ltac:(lia)).
  pose proof (Z.div_mod (a mod 2 ^ 48) 4096 ltac:(lia)). pose proof (Z.mod_pos_bound (a mod 2 ^ 48) 4096 ltac:(lia)).
  rewrite <- Z.add_mod_idemp_l, (Z.mod_small (a mod 2 ^ 48 + 4096 * j)) by lia.
  rewrite (Z.mul_comm 4096 j), Z.div_add by lia. done.
Qed.

Lemma map_loop nf r s lab l last a pa perm :
  vm_ok s i pml4 lab l → 1 ≤ r ≤ Z.of_nat nf → last = a + PGSIZE * (r - 1) → 0 ≤ a → last < 2 ^ 64 →
  0 ≤ pa → pa + PGSIZE * r ≤ 2 ^ 48 → 0 ≤ perm < 2 ^ 64 → vpage a + r ≤ 2 ^ 36 →
  (∀ j, 0 ≤ j < r → lookup_page (k_mem s) pml4 (a + PGSIZE * j) = None) →
  ∃ c j s' lab' l', loop_fuel nf (mappages_round pml4 last perm) (a, pa) fuel s = Ret c s' ∧
    vm_ok s' i pml4 lab' l' ∧ made (λ x, vpage a ≤ x < vpage a + r) s s' lab lab' l l' ∧ Z.of_nat (length l) ≤ Z.of_nat (length l') + 3 * r ∧
    (c = 0 ∧ j = r ∨ c = -1 ∧ 0 ≤ j < r ∧ l' = []) ∧
    ∀ va', lookup_page (k_mem s') pml4 va' =
      if decide (vpage a ≤ vpage va' < vpage a + j)
      then Some (Z.lor (Z.lor (pa + PGSIZE * (vpage va' - vpage a)) perm) PTE_P)
      else lookup_page (k_mem s) pml4 va'.
Proof.
  assert (HP : PGSIZE = 4096) by done.
  revert r s lab l a pa. induction nf as [|nf IH]; intros r s lab l a pa V Hr Hlast Ha Htop Hpa Hpb Hperm Hvp Hno; [lia|].
  destruct (map_one s lab l last a pa perm V) as (c&s1&lab1&l1&E1&V1&W1&N1&Hc); try done; try lia.
  { specialize (Hno 0 ltac:(lia)). by rewrite Z.mul_0_r, Z.add_0_r in Hno. }
  rewrite loop_fuel_S, E1. cbn [obind]. destruct Hc as [(->&->&L1)|(->&L1)].
  { exists (-1), 0, s1, lab1, []. split; [done|]. split; [done|].
    split; [by eapply made_weaken, W1; intros ? ->; lia|]. split; [lia|]. split; [right; split_and!; done || lia|].
    intros va'. rewrite decide_False by lia. apply L1. }
  destruct (Z.eqb_spec a last) as [El|El].
  - assert (r = 1) as -> by lia. exists 0, 1, s1, lab1, l1. split; [done|]. split; [done|].
    split; [by eapply made_weaken, W1; intros ? ->; lia|]. split; [lia|]. split; [by left|].
    intros va'. rewrite L1. repeat case_decide; try lia; try done.
    by replace (pa + PGSIZE * (vpage va' - vpage a)) with pa by lia.
  - rewrite !u64_small by lia.
    pose proof (vpage_add a 1 ltac:(lia) ltac:(lia)) as Ev. rewrite Z.mul_1_r in Ev.
    destruct (IH (r - 1) s1 lab1 l1 (a + PGSIZE) (pa + PGSIZE) V1) as (c&j&s2&lab2&l2&E2&V2&W2&N2&Hc2&L2); try lia.
    { intros j Hj. rewrite L1. replace (a + PGSIZE + PGSIZE * j) with (a + PGSIZE * (j + 1)) by lia.
      rewrite vpage_add by lia. rewrite decide_False by lia. apply Hno. lia. }
    exists c, (j + 1), s2, lab2, l2. split; [done|]. split; [done|].
    split; [eapply made_trans; [eapply made_weaken, W1; intros ? ->; lia|eapply made_weaken, W2; intros x Hx; cbv beta in *; lia]|]. split; [lia|].
    split; [destruct Hc2 as [[-> ->]|(->&?&->)]; [left|right]; split_and!; done || lia|].
    intros va'. rewrite L2, Ev, L1. repeat case_decide; try lia; try done.
    + do 3 f_equal. lia.
    + by replace (pa + PGSIZE * (vpage va' - vpage a)) with pa by lia.
Qed.

Lemma PGROUNDDOWN_eq a : 0 ≤ a < 2 ^ 64 → PGROUNDDOWN a = a - a mod PGSIZE.
Proof.
  intros Ha. unfold PGROUNDDOWN. change PGSIZE with (2 ^ 12). rewrite land_align by lia.
  pose proof (Z.div_mod a (2 ^ 12) ltac:(lia)). lia.
Qed.

(** [mappages] maps the pages of [va, va + size) to the frames from [pa] on,
    with the permissions given, and no other address; it makes the tables it
    needs out of free pages, and changes no page that is neither a table of this
    address space nor free. When the free pages run out it returns -1, with only
    some of these pages mapped. A page that is mapped is never mapped again:
    that is a panic. *)
Lemma mappages_run s lab l va size pa perm :
  let a := PGROUNDDOWN va in let n := (PGROUNDDOWN (va + size - 1) - a) / PGSIZE + 1 in
  vm_ok s i pml4 lab l → 0 ≤ va → 0 < size → va + size ≤ 2 ^ 64 → vpage a + n ≤ 2 ^ 36 →
  0 ≤ pa → pa + PGSIZE * n ≤ 2 ^ 48 → 0 ≤ perm < 2 ^ 64 → n ≤ Z.of_nat fuel →
  ((∀ j, 0 ≤ j < n → lookup_page (k_mem s) pml4 (a + PGSIZE * j) = None) →
   ∃ r j s' lab' l', mappages pml4 va size pa perm fuel s = Ret r s' ∧ vm_ok s' i pml4 lab' l' ∧
     made (λ x, vpage a ≤ x < vpage a + n) s s' lab lab' l l' ∧ Z.of_nat (length l) ≤ Z.of_nat (length l') + 3 * n ∧
     (r = 0 ∧ j = n ∨ r = -1 ∧ 0 ≤ j < n ∧ l' = []) ∧
     ∀ va', lookup_page (k_mem s') pml4 va' =
       if decide (vpage a ≤ vpage va' < vpage a + j)
       then Some (Z.lor (Z.lor (pa + PGSIZE * (vpage va' - vpage a)) perm) PTE_P)
       else lookup_page (k_mem s) pml4 va') ∧
  (lookup_page (k_mem s) pml4 a ≠ None →
   ∃ s', mappages pml4 va size pa perm fuel s = Panic "remap" s').
Proof.
  intros a n V Hva Hsz Htop Hvp Hpa Hpb Hperm Hf. assert (HP : PGSIZE = 4096) by done.
  pose proof (PGROUNDDOWN_eq va ltac:(lia)) as Ea. fold a in Ea.
  pose proof (PGROUNDDOWN_eq (va + size - 1) ltac:(lia)) as El.
  pose proof (Z.mod_pos_bound va PGSIZE ltac:(done)). pose proof (Z.mod_pos_bound (va + size - 1) PGSIZE ltac:(done)).
  pose proof (Z.div_mod va PGSIZE ltac:(done)). pose proof (Z.div_mod (va + size - 1) PGSIZE ltac:(done)).
  set (last := PGROUNDDOWN (va + size - 1)) in *.
  assert (Hn : last = a + PGSIZE * (n - 1)).
  { unfold n. replace (last - a) with (((va + size - 1) / PGSIZE - va / PGSIZE) * PGSIZE) by lia.
    rewrite Z.div_mul by done. lia. }
  assert (Hn1 : 1 ≤ n).
  { unfold n. pose proof (Z.div_pos (last - a) PGSIZE) as Hd.
    pose proof (Z.div_le_mono va (va + size - 1) PGSIZE ltac:(lia) ltac:(lia)). lia. }
  unfold mappages, whileM. rewrite (u64_small (va + size - 1)) by lia. fold last a. split.
  - intros Hno. apply (map_loop fuel n s lab l); try done; lia.
  - intros Hm. assert (∃ nf, fuel = S nf) as [nf Ef] by (exists (fuel - 1)%nat; lia).
    eexists. rewrite Ef at 1. rewrite loop_fuel_S.
    unfold mappages_round, lookup_page in *. pose proof (vm_pt _ _ _ _ _ V) as Hpt. mred.
    destruct (leaf_table 3 (k_mem s) pml4 a) as [p|] eqn:Hl; [|done].
    rewrite (walkpml4_look s lab a true Hpt), Hl by (intros; congruence). mred.
    rewrite (proj2 (Z.eqb_neq _ _) (leaf_entry_pos _ lab a p Hpt Hl)). unfold ld64, getmem. mred.
    case_match; [|done]. mred. done.
Qed.

End run.
