(* ===== verification/Uvm.v ===== *)
(** User address spaces, kernel/vm.c: growing, shrinking, copying and freeing
    them.

    [uvm s i pml4 lab l U] says of the tables at [pml4] that the processor's
    walk finds in the user half exactly the entries [U], by page number, and
    that every page they lead to belongs to this entry alone: it is no other
    entry's, no table and not free. [owned] are the pages of the address space
    and the free pages together; no operation gains or loses one, so nothing
    leaks and nothing is freed twice. *)

From stdpp Require Import base list gmap strings.
From Stdlib Require Import ZArith Lia.
From S2P Require Import Prelude CString Bytes Sprintf Monad Kstate Spinlock Cons Log Kalloc Vm Paging.

(** The page an entry leads to, at its kernel address. *)
Definition frame (e : Z) : Z := P2V (PTE_ADDR e).

(** The number of pages below the kernel's half. *)
Definition UPAGES : Z := 2 ^ 35.

Record uvm (s : kstate) (i : nat) (pml4 : Z) (lab : gmap Z (nat * Z)) (l : list Z) (U : gmap Z Z) : Prop := mkUvm {
  um_vm : vm_ok s i pml4 lab l;
  um_look x : 0 ≤ x < UPAGES → lookup_page (k_mem s) pml4 (PGSIZE * x) = U !! x;
  um_user x e : U !! x = Some e → 0 ≤ x < UPAGES;
  um_page x e : U !! x = Some e → page (frame e) ∧ kmem_end (k_km s) ≤ frame e ∧ ¬ tabs lab l (frame e);
  um_inj x y e e' : U !! x = Some e → U !! y = Some e' → frame e = frame e' → x = y;
  um_tab p : is_Some (lab !! p) → kmem_end (k_km s) ≤ p
}.

Definition framed (U : gmap Z Z) (p : Z) : Prop := ∃ x e, U !! x = Some e ∧ frame e = p.
Definition owned (lab : gmap Z (nat * Z)) (l : list Z) (U : gmap Z Z) (p : Z) : Prop := tabs lab l p ∨ framed U p.

(** A change of an address space: what it does not own is as before, so are
    the pages that stay mapped, and no page is gained or lost. *)
Record astep (s s' : kstate) (lab lab' : gmap Z (nat * Z)) (l l' : list Z) (U U' : gmap Z Z) : Prop := mkAstep {
  as_step : vstep (owned lab l U) s s';
  as_user x e o : U !! x = Some e → U' !! x = Some e → frame e ≤ o < frame e + PGSIZE → rd (k_mem s') o = rd (k_mem s) o;
  as_owned p : owned lab' l' U' p ↔ owned lab l U p
}.

(** The pages [a] to [b - 1] taken out. *)
Definition cut (a b : Z) (U : gmap Z Z) : gmap Z Z := filter (λ '(x, _), ¬ (a ≤ x < b)) U.

Section facts.
Implicit Types (m : mem) (lab : gmap Z (nat * Z)) (U : gmap Z Z).

Lemma lookup_cut a b U x : cut a b U !! x = if decide (a ≤ x < b) then None else U !! x.
Proof.
  unfold cut. case_decide as H.
  - apply map_lookup_filter_None_2. right. intros e _ Hn. by apply Hn.
  - destruct (U !! x) as [e|] eqn:E; [by apply map_lookup_filter_Some_2|]. by apply map_lookup_filter_None_2; left.
Qed.

Lemma cut_empty a b U : b ≤ a → cut a b U = U.
Proof. intros H. apply map_eq. intros x. rewrite lookup_cut, decide_False by lia. done. Qed.

Lemma cut_cut a b c U : a ≤ b ≤ c → cut b c (cut a b U) = cut a c U.
Proof. intros H. apply map_eq. intros x. rewrite !lookup_cut. repeat case_decide; lia || done. Qed.

Lemma cut_delete a b U : a < b → cut (a + 1) b (delete a U) = cut a b U.
Proof.
  intros H. apply map_eq. intros x. rewrite !lookup_cut. destruct (decide (x = a)) as [->|].
  - rewrite lookup_delete_eq, (decide_True (P := a ≤ a < b)) by lia. by case_decide.
  - rewrite lookup_delete_ne by done. repeat case_decide; lia || done.
Qed.

Lemma astep_refl s lab l U : astep s s lab lab l l U U.
Proof. split; [apply vstep_refl|done|done]. Qed.

Lemma astep_trans s s1 s2 lab lab1 lab2 l l1 l2 U U1 U2 :
  astep s s1 lab lab1 l l1 U U1 → astep s1 s2 lab1 lab2 l1 l2 U1 U2 →
  (∀ x e, U !! x = Some e → U2 !! x = Some e → U1 !! x = Some e) →
  astep s s2 lab lab2 l l2 U U2.
Proof.
  intros [H1 M1 O1] [H2 M2 O2] Hsub. split.
  - eapply vstep_trans; [done|done|done|]. intros p. apply O1.
  - intros x e o Hx Hx' Ho. rewrite (M2 x e), (M1 x e); eauto.
  - intros p. by rewrite O2, O1.
Qed.

Lemma vpage_mul x : 0 ≤ x < 2 ^ 36 → vpage (PGSIZE * x) = x.
Proof.
  intros Hx. unfold vpage, PGSIZE. rewrite Z.mod_small, Z.mul_comm, Z.div_mul by lia. done.
Qed.

Lemma vpre_mul k x : 0 ≤ x < 2 ^ 36 → vpre k (PGSIZE * x) = x / 2 ^ (9 * Z.of_nat k).
Proof.
  intros Hx. unfold vpre, PGSIZE, lshift. rewrite Z.mod_small by lia.
  replace (9 * Z.of_nat (S k) + 3) with (12 + 9 * Z.of_nat k) by lia. rewrite Z.pow_add_r, <- Z.div_div by lia.
  change (2 ^ 12) with 4096. by rewrite Z.mul_comm, Z.div_mul by lia.
Qed.

(** A table page of the address space, read in a memory that agrees on the tables. *)
Section same_tables.
Context (m m' : mem) (pml4 : Z) (lab : gmap Z (nat * Z)).
Context (Hok : pt_ok m pml4 lab) (Hm : ∀ p x, is_Some (lab !! p) → p ≤ x < p + PGSIZE → rd m' x = rd m x).

Lemma tab_rd64 p k y j : lab !! p = Some (k, y) → 0 ≤ j < 512 → rd64 m' (p + 8 * j) = rd64 m (p + 8 * j).
Proof using Hm. intros Hp Hj. apply rd64_ext. intros x Hx. apply (Hm p); [eauto|unfold PGSIZE; lia]. Qed.

Lemma pt_ok_ext : pt_ok m' pml4 lab.
Proof using All.
  split; [apply Hok|apply Hok|..].
  - intros p k x j Hp Hj e. unfold e. rewrite (tab_rd64 p _ _ j Hp Hj). by apply (pt_down _ _ _ Hok).
  - intros p k x Hp. destruct (pt_up _ _ _ Hok _ _ _ Hp) as [?|(q & Hq & Hqp)]; [by left|right]. exists q. split; [done|].
    unfold points_to. by rewrite (tab_rd64 q _ _ _ Hq) by (by apply Z.mod_pos_bound).
Qed.

Lemma leaf_ext k q va : (k ≤ 3)%nat → lab !! q = Some (S k, vpre (S k) va) → leaf_table k m' q va = leaf_table k m q va.
Proof using All.
  revert q. induction k as [|k IH]; intros q Hk Hq; [done|]. cbn [leaf_table].
  destruct (pt_page _ _ _ Hok _ _ _ Hq) as [[Hqq _] _]. pose proof (PMLX_range (lshift (S (S k))) va) as Hx.
  rewrite entry_eq by done. rewrite (tab_rd64 q _ _ _ Hq Hx). case_match eqn:Hpr; [|done].
  apply IH; [lia|]. rewrite <- vpre_step by lia. by apply (pt_down _ _ _ Hok).
Qed.

Lemma lookup_ext va : lookup_page m' pml4 va = lookup_page m pml4 va.
Proof using All.
  pose proof (pt_root _ _ _ Hok) as Hr. rewrite <- (vpre_top va) in Hr. unfold lookup_page.
  rewrite (leaf_ext 3 pml4 va) by (done || lia). destruct (leaf_table 3 m pml4 va) as [p|] eqn:El; [|done].
  pose proof (leaf_lab m pml4 lab 3 pml4 va p Hok ltac:(lia) Hr El) as Hp.
  destruct (pt_page _ _ _ Hok _ _ _ Hp) as [[Hpp _] _]. rewrite entry_eq by done.
  by rewrite (tab_rd64 p _ _ _ Hp (PMLX_range _ _)).
Qed.
End same_tables.

(** The walk from the root passes through the table with the label of [va]. *)
Lemma leaf_through m pml4 lab k p va :
  pt_ok m pml4 lab → lab !! p = Some (S k, vpre (S k) va) → leaf_table 3 m pml4 va = leaf_table k m p va.
Proof.
  intros Hok. remember (3 - k)%nat as d eqn:Ed. revert k p Ed. induction d as [|d IH]; intros k p Ed Hp.
  - destruct (pt_page _ _ _ Hok _ _ _ Hp) as [_ Hk]. assert (k = 3%nat) as -> by lia.
    destruct (pt_up _ _ _ Hok _ _ _ Hp) as [->|(q & Hq & _)]; [done|]. destruct (pt_page _ _ _ Hok _ _ _ Hq) as [_ ?]. lia.
  - destruct (pt_up _ _ _ Hok _ _ _ Hp) as [->|(q & Hq & Hqp)].
    { pose proof (pt_root _ _ _ Hok). assert (S k = 4%nat) by congruence. lia. }
    pose proof (vpre_step (S k) va ltac:(lia)) as Hv. pose proof (PMLX_range (lshift (S (S k))) va) as Hx.
    assert (E1 : vpre (S k) va / 512 = vpre (S (S k)) va) by (rewrite <- Hv, Z.mul_comm, Z.div_add_l, Z.div_small; lia).
    assert (E2 : vpre (S k) va mod 512 = PMLX (lshift (S (S k))) va) by (rewrite <- Hv, Z.add_comm, Z.mul_comm, Z_mod_plus_full, Z.mod_small; lia).
    rewrite E1 in Hq. rewrite E2 in Hqp. rewrite (IH (S k) q ltac:(lia) Hq). cbn [leaf_table].
    destruct (pt_page _ _ _ Hok _ _ _ Hq) as [[Hqq _] _]. rewrite entry_eq by done. by destruct Hqp as [-> ->].
Qed.
End facts.

Section run.
Context (i fuel : nat) (pml4 : Z).
Implicit Types (s : kstate) (lab : gmap Z (nat * Z)) (l : list Z) (U : gmap Z Z) (p a b x : Z).

(** * Freeing pages *)

(** A page that is not a table changes nothing of the map. *)
Lemma other_page s lab l U q m :
  uvm s i pml4 lab l U → page q → lab !! q = None → (∀ o, ¬ (q ≤ o < q + PGSIZE) → rd m o = rd (k_mem s) o) →
  pt_ok m pml4 lab ∧ ∀ va, lookup_page m pml4 va = lookup_page (k_mem s) pml4 va.
Proof.
  intros V Hq Hn Hm. pose proof (vm_pt _ _ _ _ _ (um_vm _ _ _ _ _ _ V)) as Hpt.
  assert (Hx : ∀ p x, is_Some (lab !! p) → p ≤ x < p + PGSIZE → rd m x = rd (k_mem s) x).
  { intros p x [[k y] Hp] Hx. apply Hm. destruct (pt_page _ _ _ Hpt _ _ _ Hp) as [[Hpp _] _].
    apply (page_disjoint p q x); congruence. }
  split; [by eapply pt_ok_ext|]. intros va. by eapply lookup_ext.
Qed.

(** The entry of page [x] in its table. *)
Lemma leaf_entry s lab l U p x :
  uvm s i pml4 lab l U → 0 ≤ x < UPAGES → lab !! p = Some (1%nat, x / 512) →
  leaf_table 3 (k_mem s) pml4 (PGSIZE * x) = Some p ∧
  U !! x = (let v := rd64 (k_mem s) (entry PML1XSHIFT p (PGSIZE * x)) in if present v then Some v else None).
Proof.
  intros V Hx Hp. pose proof (vm_pt _ _ _ _ _ (um_vm _ _ _ _ _ _ V)) as Hpt. unfold UPAGES in Hx.
  assert (El : leaf_table 3 (k_mem s) pml4 (PGSIZE * x) = Some p).
  { rewrite (leaf_through _ _ lab 0 p); [done|done|]. by rewrite vpre_mul by lia. }
  split; [done|]. rewrite <- (um_look _ _ _ _ _ _ V) by (unfold UPAGES; lia). unfold lookup_page. by rewrite El.
Qed.

(** [free_entry] frees the page and takes it out of the map. *)
Lemma free_entry_run s lab l U p x :
  uvm s i pml4 lab l U → 0 ≤ x < UPAGES → lab !! p = Some (1%nat, x / 512) →
  ∃ s' l', free_entry (entry PML1XSHIFT p (PGSIZE * x)) fuel s = Ret tt s' ∧
    uvm s' i pml4 lab l' (delete x U) ∧ astep s s' lab lab l l' U (delete x U).
Proof.
  intros V Hx Hp. destruct (leaf_entry s lab l U p x V Hx Hp) as [El Ev]. pose proof (um_vm _ _ _ _ _ _ V) as Vm.
  destruct (pt_page _ _ _ (vm_pt _ _ _ _ _ Vm) _ _ _ Hp) as [[Hpp _] _].
  pose proof (PMLX_range PML1XSHIFT (PGSIZE * x)) as Hj. unfold free_entry, ld64, getmem. mred.
  cbn zeta in Ev. set (v := rd64 (k_mem s) (entry PML1XSHIFT p (PGSIZE * x))) in *.
  destruct (present v) eqn:Hpr; mred.
  2:{ exists s, l. rewrite delete_id by done. split; [done|]. split; [done|apply astep_refl]. }
  destruct (um_page _ _ _ _ _ _ V x v Ev) as (Hfp & Hfe & Hft). fold (frame v) in *.
  assert (Hfl : frame v ∉ l) by (intros ?; apply Hft; by right).
  assert (Hfn : lab !! frame v = None) by (apply eq_None_not_Some; intros ?; apply Hft; by left).
  destruct (kfree_page s i (frame v) l fuel (vm_lock _ _ _ _ _ Vm) (vm_km _ _ _ _ _ Vm) Hfl Hfp Hfe) as (m & E & Hkm & Hm & _).
  rewrite E. mred. unfold st64, modmem. mred. destruct (other_page s lab l U (frame v) m V Hfp Hfn Hm) as [Hpt1 L1].
  set (s1 := set_km (km_set_freelist (frame v) (k_km s)) (set_mem m s)) in *.
  assert (Vm1 : vm_ok s1 i pml4 lab (frame v :: l)).
  { split; [apply Vm|done|done| |apply Vm]. intros q. rewrite elem_of_cons. intros [->|Hq]; [done|by apply Vm]. }
  assert (El1 : leaf_table 3 (k_mem s1) pml4 (PGSIZE * x) = Some p).
  { rewrite (leaf_through _ _ lab 0 p); [done|done|]. rewrite vpre_mul by (unfold UPAGES in Hx; lia). done. }
  pose proof (lookup_write (k_mem s1) pml4 lab (PGSIZE * x) p 0) as L2. rewrite entry_eq in * by done.
  set (j := PMLX PML1XSHIFT (PGSIZE * x)) in *. change (k_mem s1) with m in *.
  assert (Hne : ∀ y e, U !! y = Some e → y ≠ x → frame e ≠ frame v).
  { intros y e Hy Hyx Hf. by pose proof (um_inj _ _ _ _ _ _ V y x e v Hy Ev Hf). }
  assert (Hout : ∀ q o, page q → q ≠ frame v → lab !! q = None → q ≤ o < q + PGSIZE → rd (wr64 m (p + 8 * j) 0) o = rd (k_mem s) o).
  { intros q o Hq Hqf Hql Ho. unfold wr64. rewrite rd_wr_bytes, length_le_bytes, decide_False.
    - apply Hm. by apply (page_disjoint q).
    - pose proof (page_disjoint q p o Hq Hpp ltac:(congruence) Ho). unfold PGSIZE in *. lia. }
  eexists _, (frame v :: l). split; [done|]. split; [split|split].
  - eapply (vm_leaf _ _ _ _ _ _ _ _ 0 Vm1); done.
  - intros y Hy. cbn [k_mem set_mem]. rewrite L2 by done. unfold UPAGES in *. rewrite !vpage_mul by lia. case_decide as Hyx.
    + subst. by rewrite lookup_delete_eq.
    + rewrite lookup_delete_ne by done. rewrite L1. apply V. unfold UPAGES. lia.
  - intros y e. rewrite lookup_delete_Some. intros [_ ?]. by eapply V.
  - intros y e. rewrite lookup_delete_Some. intros [Hyx Hy]. destruct (um_page _ _ _ _ _ _ V y e Hy) as (? & ? & Ht).
    split; [done|]. split; [done|]. unfold tabs in *. rewrite elem_of_cons. pose proof (Hne y e Hy). naive_solver.
  - intros y z e e'. rewrite !lookup_delete_Some. intros [_ ?] [_ ?]. by eapply V.
  - apply V.
  - split; [apply (same_but_vm_intro (frame v) (wr64 m (p + 8 * j) 0))|]. intros q o Hq Hn Ho. cbn [k_mem set_mem].
    apply (Hout q); [done| | |done].
    + intros ->. apply Hn. right. by exists x, v.
    + apply eq_None_not_Some. intros ?. apply Hn. by left; left.
  - intros y e o Hy. rewrite lookup_delete_Some. intros [Hyx _] Ho. cbn [k_mem set_mem].
    destruct (um_page _ _ _ _ _ _ V y e Hy) as (Hq & _ & Ht). apply (Hout (frame e)); [done|by apply (Hne y)| |done].
    apply eq_None_not_Some. intros ?. apply Ht. by left.
  - intros q. unfold owned, tabs, framed. rewrite elem_of_cons. split.
    + intros [[?|[->|?]]|(y & e & Hy & ?)]; [by left; left|right; eauto|by left; right|].
      apply lookup_delete_Some in Hy as [_ ?]. right; eauto.
    + intros [[?|?]|(y & e & Hy & <-)]; [by left; left|by left; right; right|].
      destruct (decide (y = x)) as [->|Hyx]; [left; right; left; congruence|].
      right. exists y, e. by rewrite lookup_delete_ne.
Qed.

(** What a routine that frees the pages [a] to [b - 1] in a table does. *)
Definition frees (lower : Z → Z → Z → K unit) (k : nat) : Prop :=
  ∀ s lab l U p a b, uvm s i pml4 lab l U → 0 ≤ a < b → b ≤ UPAGES →
    lab !! p = Some (k, a / 2 ^ (9 * Z.of_nat k)) → (b - 1) / 2 ^ (9 * Z.of_nat k) = a / 2 ^ (9 * Z.of_nat k) →
  ∃ s' l', lower p (PGSIZE * a) (PGSIZE * b) fuel s = Ret tt s' ∧
    uvm s' i pml4 lab l' (cut a b U) ∧ astep s s' lab lab l l' U (cut a b U).

Lemma free_pages_run nf s lab l U p a b :
  uvm s i pml4 lab l U → 0 ≤ a → b ≤ UPAGES → (∀ x, a ≤ x < b → lab !! p = Some (1%nat, x / 512)) →
  Z.max 0 (b - a) < Z.of_nat nf →
  ∃ s' l', loop_fuel nf (free_range_1_round p (PGSIZE * b)) (PGSIZE * a) fuel s = Ret tt s' ∧
    uvm s' i pml4 lab l' (cut a b U) ∧ astep s s' lab lab l l' U (cut a b U).
Proof.
  assert (HP : PGSIZE = 4096) by done.
  revert s l U a. induction nf as [|nf IH]; intros s l U a V Ha Hb Hp Hf; [lia|]. rewrite loop_fuel_S.
  destruct (Z.ltb_spec (PGSIZE * a) (PGSIZE * b)) as [Hlt|Hge].
  - destruct (free_entry_run s lab l U p a V ltac:(lia) (Hp a ltac:(lia))) as (s1 & l1 & E1 & V1 & A1).
    assert (free_range_1_round p (PGSIZE * b) (PGSIZE * a) fuel s = Ret (inl (PGSIZE * (a + 1))) s1) as ->.
    { unfold free_range_1_round. rewrite (proj2 (Z.ltb_lt _ _)) by lia. cbn [negb]. mred. rewrite E1. mred.
      unfold UPAGES in *. rewrite u64_small by lia. do 2 f_equal. lia. }
    mred. destruct (IH s1 l1 (delete a U) (a + 1) V1) as (s2 & l2 & E2 & V2 & A2); [lia|lia|intros; apply Hp; lia|lia|].
    rewrite cut_delete in * by lia. exists s2, l2. split; [done|]. split; [done|].
    eapply astep_trans; [done|done|]. intros x e Hx. rewrite lookup_cut, lookup_delete_Some. case_decide; [done|]. split; [lia|done].
  - exists s, l. rewrite cut_empty by lia. split; [|split; [done|apply astep_refl]].
    assert (free_range_1_round p (PGSIZE * b) (PGSIZE * a) fuel s = Ret (inr tt) s) as ->; [|done].
    unfold free_range_1_round. by rewrite (proj2 (Z.ltb_ge _ _)) by lia.
Qed.

Lemma range_div c a b x : 0 < c → a ≤ x < b → (b - 1) / c = a / c → x / c = a / c.
Proof.
  intros Hc Hx E. pose proof (Z.div_le_mono a x c Hc ltac:(lia)). pose proof (Z.div_le_mono x (b - 1) c Hc ltac:(lia)). lia.
Qed.

Lemma PMLX_mul k x : (1 ≤ k)%nat → PMLX (lshift k) (PGSIZE * x) = x / 2 ^ (9 * (Z.of_nat k - 1)) mod 512.
Proof.
  intros Hk. unfold PMLX. change 0x1ff with (Z.ones 9). unfold PGSIZE. rewrite Z.land_ones, Z.shiftr_div_pow2 by (unfold lshift; lia).
  replace (lshift k) with (12 + 9 * (Z.of_nat k - 1)) by (unfold lshift; lia). rewrite Z.pow_add_r, <- Z.div_div by lia.
  change (2 ^ 12) with 4096. by rewrite Z.mul_comm, Z.div_mul by lia.
Qed.

(** The last byte before page [b] is in page [b - 1]. *)
Lemma PMLX_last k b : (1 ≤ k)%nat → PMLX (lshift k) (PGSIZE * b - 1) = (b - 1) / 2 ^ (9 * (Z.of_nat k - 1)) mod 512.
Proof.
  intros Hk. unfold PMLX. change 0x1ff with (Z.ones 9). unfold PGSIZE. rewrite Z.land_ones, Z.shiftr_div_pow2 by (unfold lshift; lia).
  replace (lshift k) with (12 + 9 * (Z.of_nat k - 1)) by (unfold lshift; lia). rewrite Z.pow_add_r, <- Z.div_div by lia.
  change (2 ^ 12) with 4096. do 2 f_equal. symmetry. apply (Z.div_unique _ _ _ 4095); lia.
Qed.

(** The first page of the next table of the level below. *)
Lemma next_table k a : (1 ≤ k ≤ 3)%nat → 0 ≤ a < UPAGES → let c := 2 ^ (9 * Z.of_nat k) in
  ALIGN (u64 (PGSIZE * a + Z.shiftl 1 (lshift (S k)))) (Z.shiftl 1 (lshift (S k))) = PGSIZE * (c * (a / c + 1)).
Proof.
  intros Hk Ha c. unfold UPAGES in Ha. rewrite Z.shiftl_1_l. assert (Hc : 2 ^ lshift (S k) = PGSIZE * c).
  { unfold c, PGSIZE. change 4096 with (2 ^ 12). rewrite <- Z.pow_add_r by lia. f_equal. unfold lshift. lia. }
  assert (0 < c ≤ 2 ^ 27) by (unfold c; split; [apply Z.pow_pos_nonneg; lia|apply Z.pow_le_mono_r; lia]).
  unfold ALIGN. rewrite u64_small by (rewrite Hc; unfold PGSIZE; lia).
  rewrite land_align by (try (rewrite Hc; unfold PGSIZE); unfold lshift; lia). rewrite Hc.
  rewrite <- Z.mul_assoc. f_equal. f_equal.
  rewrite <- Z.mul_add_distr_l, Z.div_mul_cancel_l by (unfold PGSIZE; lia).
  replace (a + c) with (a + 1 * c) by lia. by rewrite Z.div_add by lia.
Qed.

Lemma free_range_1_run : (512 < fuel)%nat → frees free_range_1 1.
Proof.
  intros Hf s lab l U p a b V Ha Hb Hp E. change (2 ^ (9 * Z.of_nat 1)) with 512 in *. unfold free_range_1, whileM. unfold UPAGES in Hb.
  assert (Hd : ∀ x, a ≤ x < b → x / 512 = a / 512) by (intros; apply (range_div 512 a b); lia).
  rewrite u64_small by (unfold PGSIZE; lia). change PML2XSHIFT with (lshift 2). rewrite PMLX_mul, PMLX_last by lia.
  change (2 ^ (9 * (Z.of_nat 2 - 1))) with 512. rewrite E, Z.eqb_refl. cbn [negb].
  apply free_pages_run; [done|lia|done| |].
  - intros x Hx. by rewrite Hd.
  - pose proof (Z.div_mod a 512 ltac:(lia)). pose proof (Z.div_mod (b - 1) 512 ltac:(lia)).
    pose proof (Z.mod_pos_bound a 512 ltac:(lia)). pose proof (Z.mod_pos_bound (b - 1) 512 ltac:(lia)). lia.
Qed.

(** Entry [a / c] of a table of level [k + 1], whose entries stand for [c] pages. *)
Lemma child_entry s lab l U p k a :
  uvm s i pml4 lab l U → (1 ≤ k ≤ 3)%nat → 0 ≤ a < UPAGES → let c := 2 ^ (9 * Z.of_nat k) in
  lab !! p = Some (S k, a / (512 * c)) → let v := rd64 (k_mem s) (entry (lshift (S k)) p (PGSIZE * a)) in
  if present v then lab !! P2V (PTE_ADDR v) = Some (k, a / c) else ∀ x, 0 ≤ x < UPAGES → x / c = a / c → U !! x = None.
Proof.
  intros V Hk Ha c Hp v. pose proof (vm_pt _ _ _ _ _ (um_vm _ _ _ _ _ _ V)) as Hpt. unfold UPAGES in *.
  assert (Hc : 0 < c) by (apply Z.pow_pos_nonneg; lia).
  destruct (pt_page _ _ _ Hpt _ _ _ Hp) as [[Hpp _] _]. unfold v. rewrite entry_eq, PMLX_mul by (done || lia).
  replace (9 * (Z.of_nat (S k) - 1)) with (9 * Z.of_nat k) by lia. fold c. pose proof (Z.mod_pos_bound (a / c) 512 ltac:(lia)) as Hj.
  destruct k as [|k]; [lia|]. destruct (present _) eqn:Hpr.
  - rewrite (pt_down _ _ _ Hpt _ _ _ _ Hp Hj Hpr). do 2 f_equal. rewrite (Z.mul_comm 512 c), <- Z.div_div by lia.
    symmetry. apply Z.div_mod. lia.
  - intros x Hx E. rewrite <- (um_look _ _ _ _ _ _ V) by done. unfold lookup_page.
    rewrite (leaf_through _ _ lab (S k) p); [|done|].
    + cbn [leaf_table]. rewrite entry_eq, PMLX_mul by (done || lia).
      replace (9 * (Z.of_nat (S (S k)) - 1)) with (9 * Z.of_nat (S k)) by lia. fold c. by rewrite E, Hpr.
    + rewrite Hp, vpre_mul by lia. do 2 f_equal.
      assert (Hcc : 2 ^ (9 * Z.of_nat (S (S k))) = c * 512) by (unfold c; change 512 with (2 ^ 9); rewrite <- Z.pow_add_r by lia; f_equal; lia).
      rewrite Hcc, (Z.mul_comm 512 c), <- !Z.div_div by lia. by rewrite E.
Qed.

Lemma free_tables_run lower k nf s lab l U p a b :
  frees lower k → (1 ≤ k ≤ 3)%nat → let c := 2 ^ (9 * Z.of_nat k) in
  uvm s i pml4 lab l U → 0 ≤ a → b ≤ UPAGES → (∀ x, a ≤ x < b → lab !! p = Some (S k, x / (512 * c))) →
  (if decide (a < b) then (b - 1) / c - a / c + 1 else 0) < Z.of_nat nf →
  ∃ s' l', loop_fuel nf (free_range_round (lshift (S k)) lower p (PGSIZE * b)) (PGSIZE * a) fuel s = Ret tt s' ∧
    uvm s' i pml4 lab l' (cut a b U) ∧ astep s s' lab lab l l' U (cut a b U).
Proof.
  intros Hlow Hk c. assert (HP : PGSIZE = 4096) by done. assert (Hc : 0 < c) by (apply Z.pow_pos_nonneg; lia).
  revert s l U a. induction nf as [|nf IH]; intros s l U a V Ha Hb Hp Hf.
  { case_decide; [|lia]. pose proof (Z.div_le_mono a (b - 1) c Hc ltac:(lia)). lia. }
  rewrite loop_fuel_S. destruct (decide (a < b)) as [Hab|Hab].
  2:{ exists s, l. rewrite cut_empty by lia. split; [|split; [done|apply astep_refl]].
      assert (free_range_round (lshift (S k)) lower p (PGSIZE * b) (PGSIZE * a) fuel s = Ret (inr tt) s) as ->; [|done].
      unfold free_range_round. by rewrite (proj2 (Z.ltb_ge _ _)) by lia. }
  pose proof (child_entry s lab l U p k a V Hk ltac:(lia) (Hp a ltac:(lia))) as Hch. cbv zeta in Hch. fold c in Hch.
  pose proof (next_table k a Hk ltac:(lia)) as En. cbv zeta in En. fold c in En. set (n := c * (a / c + 1)) in *.
  pose proof (Z.div_mod a c ltac:(lia)) as Ea. pose proof (Z.mod_pos_bound a c Hc) as Hm.
  assert (Hn : a < n) by (unfold n; lia). assert (Hnc : n / c = a / c + 1) by (unfold n; rewrite Z.mul_comm; apply Z.div_mul; lia).
  pose proof (Z.div_le_mono a (b - 1) c Hc ltac:(lia)) as Hle.
  set (v := rd64 (k_mem s) (entry (lshift (S k)) p (PGSIZE * a))) in *.
  assert (Er : ∀ r s', (if present v then lower (P2V (PTE_ADDR v)) (PGSIZE * a) (PGSIZE * Z.min b n);; mret (inl (PGSIZE * Z.min b n)) else mret (inl (PGSIZE * n))) fuel s = Ret r s' →
    free_range_round (lshift (S k)) lower p (PGSIZE * b) (PGSIZE * a) fuel s = Ret r s').
  { intros r s'. unfold free_range_round, ld64, getmem. rewrite (proj2 (Z.ltb_lt _ _)) by lia. cbn [negb]. mred. fold v. rewrite En.
    replace (if PGSIZE * b <? PGSIZE * n then PGSIZE * b else PGSIZE * n) with (PGSIZE * Z.min b n); [done|]. destruct (Z.ltb_spec (PGSIZE * b) (PGSIZE * n)); lia. }
  destruct (present v) eqn:Hpr.
  - set (n' := Z.min b n) in *. assert (Hmin : a < n' ∧ n' ≤ b ∧ n' ≤ n ∧ (n' = b ∨ n' = n)) by (unfold n'; lia).
    assert (Hn' : (n' - 1) / c = a / c).
    { apply Z.le_antisymm; [|apply Z.div_le_mono; lia]. apply Z.lt_succ_r. unfold Z.succ. rewrite <- Hnc.
      apply Z.div_lt_upper_bound; [lia|]. rewrite Hnc. fold n. lia. }
    destruct (Hlow s lab l U (P2V (PTE_ADDR v)) a n' V ltac:(lia) ltac:(lia) Hch Hn') as (s1 & l1 & E1 & V1 & A1).
    rewrite (Er (inl (PGSIZE * n')) s1) by (mred; by rewrite E1). mred.
    destruct (IH s1 l1 (cut a n' U) n' V1) as (s2 & l2 & E2 & V2 & A2); [lia|done|intros; apply Hp; lia| |].
    { case_decide; [|lia]. replace n' with n by lia. rewrite Hnc. lia. }
    rewrite cut_cut in * by lia. exists s2, l2. split; [done|]. split; [done|]. eapply astep_trans; [done|done|].
    intros x e Hx. rewrite !lookup_cut. repeat case_decide; done || lia.
  - rewrite (Er (inl (PGSIZE * n)) s) by done. mred.
    destruct (IH s l U n V) as (s2 & l2 & E2 & V2 & A2); [lia|done|intros; apply Hp; lia|case_decide; [rewrite Hnc|]; lia|].
    assert (cut n b U = cut a b U) as Ec.
    { apply map_eq. intros x. rewrite !lookup_cut. repeat case_decide; try lia; try done. apply Hch; [lia|].
      apply Z.le_antisymm; [|apply Z.div_le_mono; lia]. apply Z.lt_succ_r. unfold Z.succ. rewrite <- Hnc.
      apply Z.div_lt_upper_bound; [lia|]. rewrite Hnc. fold n. lia. }
    rewrite Ec in *. by exists s2, l2.
Qed.

Lemma free_range_up_run lower msg k :
  (513 < fuel)%nat → (1 ≤ k ≤ 3)%nat → frees lower k → frees (free_range_up (lshift (S k)) msg lower) (S k).
Proof.
  intros Hf Hk Hlow s lab l U p a b V Ha Hb Hp E. set (c := 2 ^ (9 * Z.of_nat k)).
  assert (Hc : 0 < c) by (apply Z.pow_pos_nonneg; lia).
  assert (Hcc : 2 ^ (9 * Z.of_nat (S k)) = 512 * c) by (unfold c; change 512 with (2 ^ 9); rewrite <- Z.pow_add_r by lia; f_equal; lia).
  rewrite Hcc in *. unfold free_range_up, whileM. unfold UPAGES in Hb. rewrite u64_small by (unfold PGSIZE; lia).
  replace (lshift (S k) + 9) with (lshift (S (S k))) by (unfold lshift; lia). rewrite PMLX_mul, PMLX_last by lia.
  replace (9 * (Z.of_nat (S (S k)) - 1)) with (9 * Z.of_nat (S k)) by lia. rewrite Hcc, E, Z.eqb_refl. cbn [negb].
  apply (free_tables_run lower k); try done; [lia| |].
  - intros x Hx. fold c. by rewrite (range_div (512 * c) a b x) by (done || lia).
  - fold c. rewrite decide_True by lia. rewrite Z.mul_comm, <- !Z.div_div in E by lia.
    pose proof (Z.div_mod (a / c) 512 ltac:(lia)). pose proof (Z.div_mod ((b - 1) / c) 512 ltac:(lia)).
    pose proof (Z.mod_pos_bound (a / c) 512 ltac:(lia)). pose proof (Z.mod_pos_bound ((b - 1) / c) 512 ltac:(lia)). lia.
Qed.

Lemma free_range_4_run : (513 < fuel)%nat → frees free_range_4 4.
Proof.
  intros Hf. unfold free_range_4, free_range_3, free_range_2.
  change PML4XSHIFT with (lshift 4). change PML3XSHIFT with (lshift 3). change PML2XSHIFT with (lshift 2).
  do 3 (apply free_range_up_run; [done|lia|]). apply free_range_1_run. lia.
Qed.

(** * Sizes *)

(** The number of pages of [sz] bytes. *)
Definition pgs (sz : Z) : Z := (sz + PGSIZE - 1) / PGSIZE.

Lemma PGROUNDUP_pgs sz : 0 ≤ sz ≤ 2 ^ 64 - PGSIZE → PGROUNDUP sz = PGSIZE * pgs sz.
Proof.
  intros H. unfold PGROUNDUP, pgs. rewrite u64_small by (unfold PGSIZE in *; lia). change PGSIZE with (2 ^ 12) at 2 3 4.
  rewrite land_align by (unfold PGSIZE in *; lia). done.
Qed.

Lemma VPN_mod x : VPN x = x mod 2 ^ 48.
Proof. unfold VPN. change (Z.lor (Z.shiftl 1 PML5XSHIFT - 1) (PGSIZE - 1)) with (Z.ones 48). by rewrite Z.land_ones by lia. Qed.

Lemma pgs_bound sz : 0 ≤ sz ≤ 2 ^ 47 → 0 ≤ pgs sz ≤ UPAGES.
Proof.
  intros H. unfold pgs, PGSIZE, UPAGES. split; [apply Z.div_pos; lia|]. apply Z.lt_succ_r. apply Z.div_lt_upper_bound; lia.
Qed.

Lemma pgs_mono a b : a ≤ b → pgs a ≤ pgs b.
Proof. intros H. unfold pgs, PGSIZE. apply Z.div_le_mono; lia. Qed.

Lemma pgs_lt x sz : PGSIZE * x < sz ↔ x < pgs sz.
Proof.
  unfold pgs, PGSIZE. pose proof (Z.div_mod (sz + 4096 - 1) 4096 ltac:(lia)). pose proof (Z.mod_pos_bound (sz + 4096 - 1) 4096 ltac:(lia)). lia.
Qed.

(** Where [deallocuvm] stops for a size of the user half, or for all of it. *)
Definition upto (sz b : Z) : Prop := (0 ≤ sz ≤ 2 ^ 47 ∧ b = pgs sz) ∨ (sz = KERNBASE ∧ b = UPAGES).

Lemma upto_VPN sz b : upto sz b → VPN (PGROUNDUP sz) = PGSIZE * b ∧ 0 ≤ b ≤ UPAGES.
Proof.
  intros [[H ->]|[-> ->]]; [|by vm_compute]. pose proof (pgs_bound sz H). rewrite VPN_mod, PGROUNDUP_pgs by (unfold PGSIZE; lia).
  split; [|done]. apply Z.mod_small. unfold UPAGES, PGSIZE in *. lia.
Qed.

Lemma deallocuvm_run s lab l U oldsz newsz a b :
  (513 < fuel)%nat → uvm s i pml4 lab l U → upto newsz a → upto oldsz b → newsz < oldsz →
  ∃ s' l', deallocuvm pml4 oldsz newsz fuel s = Ret (s32 newsz) s' ∧
    uvm s' i pml4 lab l' (cut a b U) ∧ astep s s' lab lab l l' U (cut a b U).
Proof.
  intros Hf V Ha Hb Hlt. destruct (upto_VPN _ _ Ha) as [Ea Ba]. destruct (upto_VPN _ _ Hb) as [Eb Bb].
  unfold deallocuvm. rewrite (proj2 (Z.leb_gt _ _)), Ea, Eb by done.
  assert (Hab : a ≤ b ∧ 0 < b).
  { assert (1 ≤ UPAGES) by done. destruct Ha as [[? ->]|[-> ->]], Hb as [[? ->]|[-> ->]]; try lia.
    - pose proof (pgs_mono newsz oldsz). pose proof (proj1 (pgs_lt 0 oldsz)). lia.
    - unfold KERNBASE in *. lia. }
  destruct (decide (a = b)) as [->|].
  - rewrite cut_empty by done. exists s, l. split; [|split; [done|apply astep_refl]].
    assert (free_range_4 pml4 (PGSIZE * b) (PGSIZE * b) fuel s = Ret tt s) as E; [|mred; by rewrite E].
    unfold free_range_4, free_range_up, whileM. change (PML4XSHIFT + 9) with (lshift 5).
    unfold UPAGES in *. rewrite u64_small by (unfold PGSIZE; lia). rewrite PMLX_mul, PMLX_last, !Z.div_small by (simpl; lia).
    rewrite Z.eqb_refl. cbn [negb]. assert (∃ f, fuel = S f) as [f Ef] by (exists (fuel - 1)%nat; lia). rewrite Ef at 1. rewrite loop_fuel_S.
    assert (free_range_round PML4XSHIFT free_range_3 pml4 (PGSIZE * b) (PGSIZE * b) fuel s = Ret (inr tt) s) as ->; [|done].
    unfold free_range_round. by rewrite Z.ltb_irrefl.
  - destruct (free_range_4_run Hf s lab l U pml4 a b V) as (s' & l' & E & V' & A'); [lia|lia| | |].
    + unfold UPAGES in *. rewrite (Z.div_small a) by (simpl; lia). apply (vm_pt _ _ _ _ _ (um_vm _ _ _ _ _ _ V)).
    + unfold UPAGES in *. rewrite !Z.div_small by (simpl; lia). done.
    + exists s', l'. mred. by rewrite E.
Qed.

(** * Mapping pages *)

(** Flags do not reach into the address of an entry. *)
Definition flags_ok (f : Z) : Prop := 0 ≤ f < 2 ^ 64 ∧ PTE_ADDR f = 0.

Definition user_entry (p perm : Z) : Z := Z.lor (Z.lor (V2P p) perm) PTE_P.

Lemma V2P_page p : page p → KERNBASE ≤ p → 0 ≤ V2P p ∧ V2P p + PGSIZE ≤ 2 ^ 47 ∧ P2V (V2P p) = p ∧ V2P p mod PGSIZE = 0.
Proof.
  intros (Hm & _ & Ht) Hk. assert (HP : PGSIZE = 4096) by done. unfold KERNBASE in *. unfold V2P, P2V, KERNBASE.
  rewrite (u64_small (p - _)) by lia. rewrite u64_small by lia.
  split; [lia|]. split; [lia|]. split; [lia|]. rewrite Zminus_mod, Hm. done.
Qed.

Lemma frame_entry p f : page p → KERNBASE ≤ p → flags_ok f → frame (user_entry p f) = p.
Proof.
  intros Hp Hk [_ Hf]. destruct (V2P_page p Hp Hk) as (H0 & Ht & Hv & Hm). unfold frame, user_entry.
  assert (PTE_ADDR (Z.lor (Z.lor (V2P p) f) PTE_P) = V2P p) as ->; [|done].
  unfold PTE_ADDR in *. rewrite !Z.land_lor_distr_l, Hf. change (Z.land PTE_P _) with 0. rewrite !Z.lor_0_r.
  rewrite <- (Z.lor_0_r (V2P p)) at 1. apply PTE_ADDR_lor; [done| |lia]. unfold PGSIZE in *. lia.
Qed.

(** A page no one has. *)
Definition loose s lab l U p : Prop := page p ∧ kmem_end (k_km s) ≤ p ∧ ¬ owned lab l U p.

(** Tables were made and the map of the user half is now [U'], whose new pages
    no one had. *)
Lemma uvm_made W s s' lab lab' l l' U U' :
  uvm s i pml4 lab l U → vm_ok s' i pml4 lab' l' → made W s s' lab lab' l l' →
  (∀ x, 0 ≤ x < UPAGES → lookup_page (k_mem s') pml4 (PGSIZE * x) = U' !! x) →
  (∀ x e, U' !! x = Some e → U !! x = Some e ∨ 0 ≤ x < UPAGES ∧ loose s lab l U (frame e) ∧ ∀ y e', U' !! y = Some e' → frame e' = frame e → y = x) →
  uvm s' i pml4 lab' l' U'.
Proof.
  intros V V' M L New. destruct (vs_same _ _ _ (md_step M)) as (f & m & cs & Es). split; try done.
  - intros x e Hx. destruct (New x e Hx) as [?|(? & _)]; [by eapply V|done].
  - intros x e Hx. assert (kmem_end (k_km s') = kmem_end (k_km s)) as -> by (by subst s').
    rewrite (md_tabs M). destruct (New x e Hx) as [?|(_ & (? & ? & Hn) & _)]; [by eapply V|].
    split; [done|]. split; [done|]. intros ?. apply Hn. by left.
  - intros x y e e' Hx Hy Hf. destruct (New x e Hx) as [Hx'|(_ & _ & Hu)]; [|symmetry; by eapply Hu].
    destruct (New y e' Hy) as [Hy'|(_ & _ & Hu)]; [by eapply V|by eapply Hu].
  - intros p Hp. assert (kmem_end (k_km s') = kmem_end (k_km s)) as -> by (by subst s').
    destruct (proj1 (md_tabs M p) (or_introl Hp)) as [?|Hpl]; [by apply V|].
    destruct (vm_km _ _ _ _ _ (um_vm _ _ _ _ _ _ V)) as (_ & _ & Hall). by apply Forall_forall with (x := p) in Hall as [_ ?].
Qed.

(** One page is mapped, unless memory runs out. *)
Lemma map_fresh s lab l U x p perm :
  uvm s i pml4 lab l U → 0 ≤ x < UPAGES → U !! x = None → loose s lab l U p → flags_ok perm → (1 ≤ fuel)%nat →
  ∃ r s' lab' l', mappages pml4 (PGSIZE * x) PGSIZE (V2P p) perm fuel s = Ret r s' ∧ made (λ y, y = x) s s' lab lab' l l' ∧
    (length l ≤ length l' + 3)%nat ∧ (∀ va, vpage va ≠ x → lookup_page (k_mem s') pml4 va = lookup_page (k_mem s) pml4 va) ∧
    (r = 0 ∧ uvm s' i pml4 lab' l' (<[x := user_entry p perm]> U) ∨ r = -1 ∧ l' = [] ∧ uvm s' i pml4 lab' l' U).
Proof.
  intros V Hx Hno Hp Hperm Hf. destruct Hp as (Hpp & Hpe & Hpo). pose proof (um_vm _ _ _ _ _ _ V) as Vm.
  assert (Hpk : KERNBASE ≤ p) by (pose proof (vm_end _ _ _ _ _ Vm); lia). destruct (V2P_page p Hpp Hpk) as (H0 & Ht & _).
  pose proof (mappages_run i fuel pml4 s lab l (PGSIZE * x) PGSIZE (V2P p) perm) as H. cbv zeta in H.
  assert (HP : PGSIZE = 4096) by done. unfold UPAGES in *.
  assert (E1 : PGROUNDDOWN (PGSIZE * x) = PGSIZE * x).
  { rewrite PGROUNDDOWN_eq, Z.mul_comm, Z.mod_mul by lia. lia. }
  assert (E2 : PGROUNDDOWN (PGSIZE * x + PGSIZE - 1) = PGSIZE * x).
  { rewrite PGROUNDDOWN_eq by lia. replace (PGSIZE * x + PGSIZE - 1) with (4095 + x * PGSIZE) by lia. rewrite Z_mod_plus_full. rewrite HP. change (4095 mod 4096) with 4095. lia. }
  rewrite E1, E2, Z.sub_diag in H. change (0 / PGSIZE + 1) with 1 in H. rewrite vpage_mul in H by lia.
  destruct H as [H _]; try done; try lia; [apply Hperm|].
  destruct H as (r & j & s' & lab' & l' & E & V' & M & Hl & Hr & Lk).
  { intros j Hj. replace j with 0 by lia. rewrite Z.mul_0_r, Z.add_0_r. by rewrite (um_look _ _ _ _ _ _ V). }
  exists r, s', lab', l'. split; [done|]. split; [eapply made_weaken, M; intros y Hy; cbv beta in *; lia|]. split; [lia|].
  split; [intros va Hva; rewrite Lk, decide_False; [done|lia]|]. destruct Hr as [[-> ->]|(-> & Hj & ->)]; [left|right].
  - split; [done|]. eapply (uvm_made _ s s' lab lab' l l' U); try done.
    + intros y Hy. rewrite Lk, vpage_mul by (unfold UPAGES in Hy; lia). destruct (decide (y = x)) as [->|].
      * rewrite lookup_insert_eq, decide_True by lia. by rewrite Z.sub_diag, Z.mul_0_r, Z.add_0_r.
      * rewrite lookup_insert_ne, decide_False by lia. by apply V.
    + assert (Hnew : ∀ y e, U !! y = Some e → frame e ≠ p) by (intros y e Hy <-; apply Hpo; right; by exists y, e).
      intros y e. rewrite lookup_insert_Some. intros [[<- <-]|[? ?]]; [right|by left]. rewrite frame_entry by done.
      split; [done|]. split; [done|]. intros z e'. rewrite lookup_insert_Some. intros [[<- _]|[? Hz]] Hfr; [done|]. by destruct (Hnew z e').
  - split; [done|]. split; [done|]. eapply (uvm_made _ s s' lab lab' l [] U); try done; [|by left].
    intros y Hy. rewrite Lk, decide_False by lia. by apply V.
Qed.

(** * Pages no one has *)

Lemma uvm_printed cs s lab l U : uvm s i pml4 lab l U → uvm (printed cs s) i pml4 lab l U.
Proof. intros [[? ? ? ? ?] ? ? ? ? ?]. split; [by split|done..]. Qed.

Lemma can_print_same s s' : same_but_vm s s' → can_print s → can_print s'.
Proof. by intros (f & m & cs & ->). Qed.

Lemma loose_same s s' lab l U p : same_but_vm s s' → loose s lab l U p → loose s' lab l U p.
Proof. by intros (f & m & cs & ->). Qed.

(** Writing to such a page. *)
Lemma uvm_loose_write s lab l U p m :
  uvm s i pml4 lab l U → loose s lab l U p → (∀ o, ¬ (p ≤ o < p + PGSIZE) → rd m o = rd (k_mem s) o) →
  uvm (set_mem m s) i pml4 lab l U.
Proof.
  intros V (Hp & _ & Hn) Hm. assert (Hlab : lab !! p = None) by (apply eq_None_not_Some; intros ?; apply Hn; by left; left).
  destruct (other_page s lab l U p m V Hp Hlab Hm) as [Hpt L]. destruct V as [[Hl (Hfp & Hnd & Hall) Hpt0 Hsep He] Hlook Hu Hpg Hinj Htab].
  split; try done.
  - split; try done. split; [|done]. eapply free_pages_ext, Hfp. intros q x Hq Hx. apply Hm.
    apply (page_disjoint q p x); [|done| |unfold PGSIZE; lia].
    + apply Forall_forall with (x := q) in Hall; [by destruct Hall|done].
    + intros ->. apply Hn. by left; right.
  - intros x Hx. cbn [k_mem set_mem]. rewrite L. by apply Hlook.
Qed.

(** [kalloc] makes the first free page such a page, [kfree] makes it free. *)
Lemma kalloc_uvm s lab p l U :
  uvm s i pml4 lab (p :: l) U →
  ∃ f, let s' := set_km (km_set_freelist f (k_km s)) s in kalloc fuel s = Ret p s' ∧ uvm s' i pml4 lab l U ∧ loose s' lab l U p.
Proof.
  intros V. pose proof (um_vm _ _ _ _ _ _ V) as Vm.
  destruct (kalloc_page s i (p :: l) fuel (vm_lock _ _ _ _ _ Vm) (vm_km _ _ _ _ _ Vm)) as (f & E & Hkm & Hp & Hpl).
  exists f. split; [done|]. destruct (vm_km _ _ _ _ _ Vm) as (_ & _ & Hall). apply Forall_cons in Hall as [[_ Hpe] _].
  assert (Hfr : ∀ x e, U !! x = Some e → ¬ tabs lab (p :: l) (frame e)) by (intros x e Hx; by eapply (um_page _ _ _ _ _ _ V)).
  split.
  - split; [|apply V|apply V| |apply V|apply V].
    + split; [apply Vm|done|apply Vm|intros q Hq; apply Vm; by right|apply Vm].
    + intros x e Hx. destruct (um_page _ _ _ _ _ _ V x e Hx) as (? & ? & Hn). split; [done|]. split; [done|].
      intros [?|?]; apply Hn; [by left|right; by right].
  - split; [done|]. split; [done|]. intros [[[kx Hk]|?]|(x & e & Hx & <-)]; [|done|].
    + pose proof (vm_sep _ _ _ _ _ Vm p ltac:(left)). congruence.
    + apply (Hfr x e Hx). right. left.
Qed.

Lemma kfree_uvm s lab l U p :
  uvm s i pml4 lab l U → loose s lab l U p →
  ∃ s', kfree p fuel s = Ret tt s' ∧ uvm s' i pml4 lab (p :: l) U ∧ vstep (λ q, q = p) s s'.
Proof.
  intros V L. pose proof L as (Hp & He & Hn). pose proof (um_vm _ _ _ _ _ _ V) as Vm.
  assert (Hpl : p ∉ l) by (intros ?; apply Hn; by left; right).
  destruct (kfree_page s i p l fuel (vm_lock _ _ _ _ _ Vm) (vm_km _ _ _ _ _ Vm) Hpl Hp He) as (m & E & Hkm & Hm & _).
  eexists. split; [done|]. pose proof (uvm_loose_write s lab l U p m V L Hm) as V1. split.
  - split; [|apply V1|apply V1| |apply V1|apply V1].
    + split; [apply Vm|done|apply V1| |apply Vm]. intros q. rewrite elem_of_cons. intros [->|?]; [|by apply Vm].
      apply eq_None_not_Some. intros ?. apply Hn. by left; left.
    + intros x e Hx. destruct (um_page _ _ _ _ _ _ V x e Hx) as (? & ? & Hnt). split; [done|]. split; [done|].
      unfold tabs. rewrite elem_of_cons. intros [?|[Ef|?]]; [apply Hnt; by left| |apply Hnt; by right].
      apply Hn. right. by exists x, e.
  - split; [apply same_but_vm_intro|]. intros q x Hq Hqp Hx. apply Hm. by apply (page_disjoint q p x).
Qed.

(** A page out of use counts with the free ones. *)
Lemma owned_cons lab l U p q : owned lab (p :: l) U q ↔ q = p ∨ owned lab l U q.
Proof. unfold owned, tabs. rewrite elem_of_cons. naive_solver. Qed.

Lemma astep_cons s s' lab lab' l l' U U' p :
  astep s s' lab lab' l l' U U' → astep s s' lab lab' (p :: l) (p :: l') U U'.
Proof.
  intros [S1 M1 O1]. split; [|done|].
  - eapply (vstep_trans _ (λ _, False)); [done|apply vstep_refl| |done]. intros q Hq. apply owned_cons. by right.
  - intros q. rewrite !owned_cons, O1. done.
Qed.

(** Only tables, free pages and pages out of use have changed. *)
Lemma astep_tabs s s' lab lab' l l' U :
  vstep (tabs lab l) s s' → (∀ x e, U !! x = Some e → page (frame e) ∧ ¬ tabs lab l (frame e)) →
  (∀ p, tabs lab' l' p ↔ tabs lab l p) → astep s s' lab lab' l l' U U.
Proof.
  intros S1 Hu Ht. split.
  - eapply (vstep_trans _ (λ _, False)); [done|apply vstep_refl|by left|done].
  - intros x e o Hx _ Ho. destruct (Hu x e Hx). by apply (vs_mem _ _ _ S1 (frame e)).
  - intros p. unfold owned. by rewrite Ht.
Qed.

Lemma kfree_loose s lab l U p :
  uvm s i pml4 lab l U → loose s lab l U p →
  ∃ s', kfree p fuel s = Ret tt s' ∧ uvm s' i pml4 lab (p :: l) U ∧ astep s s' lab lab (p :: l) (p :: l) U U.
Proof.
  intros V L. destruct (kfree_uvm s lab l U p V L) as (s' & E & V' & S'). exists s'. split; [done|]. split; [done|].
  apply astep_tabs; [|intros x e Hx; by destruct (um_page _ _ _ _ _ _ V' x e Hx) as (? & _ & ?)|done].
  eapply (vstep_trans _ (λ _, False)); [done|apply vstep_refl| |done]. intros q ->. right. left.
Qed.

(** A page is taken, filled and mapped at [x]; when there is no memory for the
    tables it is left out of use. *)
Lemma page_in s lab p l U x perm (w : mem → mem) :
  uvm s i pml4 lab (p :: l) U → 0 ≤ x < UPAGES → U !! x = None → flags_ok perm → (1 ≤ fuel)%nat →
  (∀ m o, ¬ (p ≤ o < p + PGSIZE) → rd (w m) o = rd m o) →
  ∃ s1 r s' lab' l', kalloc fuel s = Ret p s1 ∧ p ≠ 0 ∧
    mappages pml4 (PGSIZE * x) PGSIZE (V2P p) perm fuel (set_mem (w (k_mem s1)) s1) = Ret r s' ∧ frame (user_entry p perm) = p ∧
    (length l ≤ length l' + 3)%nat ∧ (∀ o, p ≤ o < p + PGSIZE → rd (k_mem s') o = rd (w (k_mem s)) o) ∧
    (∀ q k y, lab' !! q = Some (k, y) → lab !! q = Some (k, y) ∨ y = x / 2 ^ (9 * Z.of_nat k)) ∧
    (∀ va, vpage va ≠ x → lookup_page (k_mem s') pml4 va = lookup_page (k_mem s) pml4 va) ∧
    (r = 0 ∧ (let U' := <[x := user_entry p perm]> U in uvm s' i pml4 lab' l' U' ∧ astep s s' lab lab' (p :: l) l' U U') ∨
     r = -1 ∧ l' = [] ∧ uvm s' i pml4 lab' [] U ∧ loose s' lab' [] U p ∧ astep s s' lab lab' (p :: l) [p] U U).
Proof.
  intros V Hx Hno Hperm Hf Hw. destruct (kalloc_uvm s lab p l U V) as (f & Ea & V1 & L1). cbv zeta in *.
  set (s1 := set_km (km_set_freelist f (k_km s)) s) in *. set (s2 := set_mem (w (k_mem s1)) s1).
  pose proof (uvm_loose_write s1 lab l U p (w (k_mem s1)) V1 L1 (Hw _)) as V2. fold s2 in V2.
  assert (L2 : loose s2 lab l U p) by exact L1.
  destruct (map_fresh s2 lab l U x p perm V2 Hx Hno L2 Hperm Hf) as (r & s' & lab' & l' & E & M & Hl & Lk & Hr).
  pose proof L1 as (Hp & Hpe & Hpo). pose proof (vm_end _ _ _ _ _ (um_vm _ _ _ _ _ _ V1)) as Hke.
  assert (Hfe : frame (user_entry p perm) = p) by (apply frame_entry; [done|lia|done]).
  assert (Hnt : ¬ tabs lab l p) by (intros ?; apply Hpo; by left).
  assert (St : vstep (tabs lab (p :: l)) s s').
  { eapply (vstep_trans (λ q, q = p)); [split; [apply (same_but_vm_intro f)|]|apply M| |].
    - intros q o Hq Hqp Ho. apply Hw. by apply (page_disjoint q p o).
    - intros q ->. right. left.
    - intros q [?|?]; [by left|right; by right]. }
  assert (Hu : ∀ y e, U !! y = Some e → page (frame e) ∧ ¬ tabs lab (p :: l) (frame e)).
  { intros y e Hy. by destruct (um_page _ _ _ _ _ _ V y e Hy) as (? & _ & ?). }
  exists s1, r, s', lab', l'. split; [done|]. split; [destruct Hp as (_ & ? & _); lia|]. split; [done|]. split; [done|]. split; [done|]. split.
  { intros o Ho. by rewrite (vs_mem _ _ _ (md_step M) p o Hp Hnt Ho). }
  split; [intros q k y Hq; destruct (md_new M q k y Hq) as [?|(x' & -> & ?)]; [by left|by right]|].
  assert (Hlab : lab !! p = None) by (apply eq_None_not_Some; intros ?; apply Hnt; by left).
  split; [intros va Hva; rewrite Lk by done; exact (proj2 (other_page s1 lab l U p (w (k_mem s1)) V1 Hp Hlab (Hw _)) va)|].
  destruct Hr as [[-> V']|(-> & -> & V')]; [left|right].
  - split; [done|]. split; [done|]. split.
    + eapply (vstep_trans _ (λ _, False)); [done|apply vstep_refl|by left|done].
    + intros y e o Hy _ Ho. destruct (Hu y e Hy). by apply (vs_mem _ _ _ St (frame e)).
    + intros q. rewrite owned_cons. unfold owned. rewrite (md_tabs M). split.
      * intros [?|(y & e & Hy & <-)]; [by right; left|]. apply lookup_insert_Some in Hy as [[<- <-]|[_ Hy]]; [by left|].
        right. right. by exists y, e.
      * intros [->|[?|(y & e & Hy & <-)]]; [right; exists x, (user_entry p perm); by rewrite lookup_insert_eq|by left|].
        right. exists y, e. rewrite lookup_insert_ne; [done|congruence].
  - split; [done|]. split; [done|]. split; [done|]. split.
    + split; [done|]. destruct (vs_same _ _ _ (md_step M)) as (f' & m' & cs' & ->). split; [done|].
      intros [Ht|Hfr]; apply Hpo; [left; by apply (md_tabs M)|by right].
    + apply astep_tabs; [done|done|]. intros q. pose proof (md_tabs M q) as Ht. revert Ht. unfold tabs.
      rewrite !elem_of_cons. naive_solver.
Qed.

(** * Growing *)

(** The pages [a] to [b - 1] are new, with the permissions [perm] and filled
    with zeros; the others are as before. *)
Definition grown (perm a b : Z) (U U' : gmap Z Z) (m : mem) : Prop :=
  ∀ x, if decide (a ≤ x < b)
       then ∃ p, U' !! x = Some (user_entry p perm) ∧ frame (user_entry p perm) = p ∧ ∀ o, p ≤ o < p + PGSIZE → rd m o = 0
       else U' !! x = U !! x.

Lemma zero_page_out m p o : ¬ (p ≤ o < p + PGSIZE) → rd (memset m p 0 PGSIZE) o = rd m o.
Proof. intros H. by rewrite memset_spec, decide_False by done. Qed.

(** Giving up: a message, and the pages above the old size are freed. *)
Lemma alloc_undo fmt nb s lab l U oldsz newsz :
  (513 < fuel)%nat → uvm s i pml4 lab l U → can_print s → fmt_bound (S (length fmt)) fmt [] = Some nb → (nb < 512)%nat →
  0 ≤ oldsz < newsz → newsz ≤ 2 ^ 47 →
  ∃ s1 s' l', cprintf fmt [] fuel s = Ret tt s1 ∧ deallocuvm pml4 newsz oldsz fuel s1 = Ret (s32 oldsz) s' ∧
    let U' := cut (pgs oldsz) (pgs newsz) U in uvm s' i pml4 lab l' U' ∧ astep s s' lab lab l l' U U'.
Proof.
  intros Hf V Hp Hfmt Hb Ho Hn. destruct (cprintf_run fmt [] nb fuel s Hfmt Hb Hp) as [cs E].
  destruct (deallocuvm_run (printed cs s) lab l U newsz oldsz (pgs oldsz) (pgs newsz) Hf (uvm_printed cs _ _ _ _ V))
    as (s' & l' & E' & V' & A'); [left; split; [lia|done]|left; split; [lia|done]|lia|].
  exists (printed cs s), s', l'. split; [done|]. split; [done|]. split; [done|]. destruct A' as [[(f & m & cs' & ->) Hm] Hu Ho'].
  split; [split; [|done]|done|done]. eapply same_but_vm_trans; [|by exists f, m, cs'].
  exists (kmem_freelist (k_km s)), (k_mem s), cs. by destruct s as [?? [] ???????????].
Qed.

Lemma allocuvm_round_run s lab l U oldsz newsz perm x :
  (513 < fuel)%nat → uvm s i pml4 lab l U → can_print s → flags_ok (Z.lor perm PTE_U) → U !! x = None →
  0 ≤ oldsz < newsz → newsz ≤ 2 ^ 47 → 0 ≤ x < pgs newsz →
  ∃ c s' lab' l' U', allocuvm_round pml4 oldsz newsz perm (PGSIZE * x) fuel s = Ret c s' ∧
    uvm s' i pml4 lab' l' U' ∧ astep s s' lab lab' l l' U U' ∧
    (c = inl (PGSIZE * (x + 1)) ∧ grown (Z.lor perm PTE_U) x (x + 1) U U' (k_mem s') ∧ (length l ≤ length l' + 4)%nat ∨
     c = inr 0 ∧ U' = cut (pgs oldsz) (pgs newsz) U ∧ (length l ≤ 4)%nat).
Proof.
  intros Hf V Hp Hperm Hno Ho Hn Hx. pose proof (pgs_bound newsz ltac:(lia)) as Hb. pose proof (um_vm _ _ _ _ _ _ V) as Vm.
  unfold allocuvm_round. rewrite (proj2 (Z.ltb_lt _ _)) by (apply pgs_lt; lia). cbn [negb]. mred.
  destruct l as [|p l].
  { pose proof (kalloc_page s i [] fuel (vm_lock _ _ _ _ _ Vm) (vm_km _ _ _ _ _ Vm)) as E. cbv beta iota in E. rewrite E. mred.
    destruct (alloc_undo (str "allocuvm out of memory" ++ [10]) 23 s lab [] U oldsz newsz) as (s1 & s' & l' & E1 & E2 & V' & A'); try done; try lia.
    exists (inr 0), s', lab, l', (cut (pgs oldsz) (pgs newsz) U). change (0 =? 0) with true. cbv iota. mred. rewrite E1. mred. rewrite E2.
    split; [done|]. split; [done|]. split; [done|]. right. split; [done|]. split; [done|]. simpl. lia. }
  destruct (page_in s lab p l U x (Z.lor perm PTE_U) (λ m, memset m p 0 PGSIZE) V ltac:(lia) Hno Hperm ltac:(lia))
    as (s1 & r & s2 & lab2 & l2 & E1 & Hp0 & E2 & Hfe & Hl2 & Hz & _ & _ & Hr); [intros; by apply zero_page_out|].
  rewrite E1. mred. rewrite (proj2 (Z.eqb_neq p 0)) by done. unfold zero_page, modmem. mred. rewrite E2. mred.
  destruct Hr as [(-> & V2 & A2)|(-> & -> & V2 & L2 & A2)].
  - change (0 <? 0) with false. cbv iota. mred. assert (HP : PGSIZE = 4096) by done. unfold UPAGES in *. rewrite u64_small by lia.
    eexists _, s2, lab2, l2, _. split; [done|]. split; [exact V2|]. split; [exact A2|]. left. split; [f_equal; lia|]. split; [|simpl; lia].
    intros y. case_decide.
    + replace y with x by lia. exists p. rewrite lookup_insert_eq. split; [done|]. split; [done|]. intros o Hoo. rewrite Hz by done.
      by rewrite memset_spec, decide_True by done.
    + by rewrite lookup_insert_ne by lia.
  - change (-1 <? 0) with true. cbv iota. pose proof (as_step _ _ _ _ _ _ _ _ A2) as St2.
    destruct (alloc_undo (str "allocuvm out of memory (2)" ++ [10]) 27 s2 lab2 [] U oldsz newsz) as (s3 & s4 & l4 & E3 & E4 & V4 & A4); try done; try lia.
    { eapply can_print_same; [apply St2|done]. }
    mred. rewrite E3. mred. rewrite E4. mred.
    assert (L4 : loose s4 lab2 l4 (cut (pgs oldsz) (pgs newsz) U) p).
    { destruct L2 as (? & He & Hn'). split; [done|]. split; [|by rewrite (as_owned _ _ _ _ _ _ _ _ A4)].
      destruct (vs_same _ _ _ (as_step _ _ _ _ _ _ _ _ A4)) as (f & m & cs & ->). exact He. }
    destruct (kfree_loose s4 lab2 l4 _ p V4 L4) as (s5 & E5 & V5 & A5). rewrite E5. mred.
    eexists _, s5, lab2, (p :: l4), _. split; [done|]. split; [exact V5|]. split; [|right; split; [done|split; [done|simpl in *; lia]]].
    eapply astep_trans; [exact A2|eapply astep_trans; [by apply astep_cons|exact A5|]|done]. done.
Qed.

Lemma grown_empty perm a U m : grown perm a a U U m.
Proof. intros x. by rewrite decide_False by lia. Qed.

(** The first of the pages, then the others. *)
Lemma grown_step perm a b U U1 U2 m1 m2 :
  a < b → grown perm a (a + 1) U U1 m1 → grown perm (a + 1) b U1 U2 m2 →
  (∀ x e o, U1 !! x = Some e → U2 !! x = Some e → frame e ≤ o < frame e + PGSIZE → rd m2 o = rd m1 o) →
  grown perm a b U U2 m2.
Proof.
  intros Hab G1 G2 Hm x. specialize (G1 x). specialize (G2 x). repeat case_decide; try lia; try done.
  - destruct G1 as (p & E1 & Ef & Hz). rewrite E1 in G2. exists p. split; [done|]. split; [done|].
    intros o Ho. rewrite (Hm x _ o E1 G2) by (by rewrite Ef). by apply Hz.
  - by rewrite G2.
Qed.

Lemma allocuvm_loop nf s lab l U oldsz newsz perm x :
  (513 < fuel)%nat → uvm s i pml4 lab l U → can_print s → flags_ok (Z.lor perm PTE_U) →
  0 ≤ oldsz ≤ newsz → newsz ≤ 2 ^ 47 → pgs oldsz ≤ x ≤ pgs newsz → (∀ y, x ≤ y < pgs newsz → U !! y = None) →
  pgs newsz - x < Z.of_nat nf →
  ∃ r s' lab' l' U', loop_fuel nf (allocuvm_round pml4 oldsz newsz perm) (PGSIZE * x) fuel s = Ret r s' ∧
    uvm s' i pml4 lab' l' U' ∧ astep s s' lab lab' l l' U U' ∧
    (r = s32 newsz ∧ grown (Z.lor perm PTE_U) x (pgs newsz) U U' (k_mem s') ∨
     r = 0 ∧ U' = cut (pgs oldsz) (pgs newsz) U ∧ Z.of_nat (length l) ≤ 4 * (pgs newsz - x)).
Proof.
  intros Hf V Hp Hperm Ho Hn. revert s lab l U x V Hp. induction nf as [|nf IH]; intros s lab l U x V Hp Hx Hno Hnf; [lia|].
  rewrite loop_fuel_S. destruct (decide (x = pgs newsz)) as [->|Hne].
  { eexists _, s, lab, l, U. assert (E : allocuvm_round pml4 oldsz newsz perm (PGSIZE * pgs newsz) fuel s = Ret (inr (s32 newsz)) s).
    { unfold allocuvm_round. destruct (Z.ltb_spec (PGSIZE * pgs newsz) newsz) as [H|H]; [|done]. apply pgs_lt in H. lia. }
    rewrite E. split; [done|]. split; [done|]. split; [apply astep_refl|]. left. split; [done|apply grown_empty]. }
  assert (oldsz < newsz) by (destruct (decide (oldsz = newsz)) as [->|]; lia).
  pose proof (pgs_bound oldsz ltac:(lia)).
  destruct (allocuvm_round_run s lab l U oldsz newsz perm x) as (c & s1 & lab1 & l1 & U1 & E1 & V1 & A1 & Hc); try done; try lia; [apply Hno; lia|].
  rewrite E1. cbn [obind]. destruct Hc as [(-> & G1 & Hl)|(-> & -> & Hl)].
  - assert (Hsub : ∀ y, y ≠ x → U1 !! y = U !! y).
    { intros y Hy. specialize (G1 y). by rewrite decide_False in G1 by lia. }
    destruct (IH s1 lab1 l1 U1 (x + 1) V1) as (r & s2 & lab2 & l2 & U2 & E2 & V2 & A2 & Hr); try lia.
    { eapply can_print_same; [apply (as_step _ _ _ _ _ _ _ _ A1)|done]. }
    { intros y Hy. rewrite Hsub by lia. apply Hno. lia. }
    exists r, s2, lab2, l2, U2. split; [done|]. split; [done|]. split.
    { eapply astep_trans; [done|done|]. intros y e Hy _. rewrite Hsub; [done|]. intros ->. by rewrite Hno in Hy by lia. }
    destruct Hr as [[-> G2]|(-> & -> & Hl2)]; [left|right].
    + split; [done|]. eapply grown_step; [lia|exact G1|exact G2|]. intros y e o. apply (as_user _ _ _ _ _ _ _ _ A2).
    + split; [done|]. split; [|lia]. apply map_eq. intros y. rewrite !lookup_cut. case_decide; [done|]. apply Hsub. lia.
  - eexists _, s1, lab1, l1, _. split; [done|]. split; [exact V1|]. split; [exact A1|]. right. split; [done|]. split; [done|lia].
Qed.

Lemma allocuvm_run s lab l U oldsz newsz perm :
  let a := pgs oldsz in let b := pgs newsz in
  (513 < fuel)%nat → b - a < Z.of_nat fuel → uvm s i pml4 lab l U → can_print s → flags_ok (Z.lor perm PTE_U) →
  0 ≤ oldsz ≤ newsz → newsz ≤ 2 ^ 47 → (∀ x, a ≤ x < b → U !! x = None) →
  ∃ r s' lab' l' U', allocuvm pml4 oldsz newsz perm fuel s = Ret r s' ∧
    uvm s' i pml4 lab' l' U' ∧ astep s s' lab lab' l l' U U' ∧
    (r = s32 newsz ∧ grown (Z.lor perm PTE_U) a b U U' (k_mem s') ∨
     r = 0 ∧ U' = U ∧ Z.of_nat (length l) ≤ 4 * (b - a)).
Proof.
  intros a b Hf Hfb V Hp Hperm Ho Hn Hno. unfold allocuvm. rewrite (proj2 (Z.leb_gt _ _)) by (unfold KERNBASE; lia).
  rewrite (proj2 (Z.ltb_ge _ _)) by lia. unfold whileM. rewrite PGROUNDUP_pgs by (unfold PGSIZE; lia). fold a.
  destruct (allocuvm_loop fuel s lab l U oldsz newsz perm a) as (r & s' & lab' & l' & U' & E & V' & A' & Hr); try done.
  { pose proof (pgs_mono oldsz newsz). unfold a. lia. }
  exists r, s', lab', l', U'. split; [done|]. split; [done|]. split; [done|].
  destruct Hr as [?|(-> & -> & ?)]; [by left|right]. split; [done|]. split; [|done].
  apply map_eq. intros x. rewrite lookup_cut. case_decide; [|done]. symmetry. by apply Hno.
Qed.
End run.
