(* ===== verification/Uspace.v ===== *)
(** Whole address spaces, kernel/vm.c: [freevm] gives every page back,
    [setupkvm] makes the kernel's half, [copyuvm] makes the copy of a process
    that [fork] starts.

    Pages are counted by who has them: what [copyuvm] uses comes from the free
    list and, when it fails, goes back there. *)

From stdpp Require Import base list gmap strings.
From Stdlib Require Import ZArith Lia.
From S2P Require Import Prelude CString Bytes Sprintf Monad Kstate Spinlock Cons Log Kalloc Vm Paging Uvm.

(** * Freeing *)

(** The tables at and below a table of level [k] that stands for [y]. *)
Definition under (lab : gmap Z (nat * Z)) (k : nat) (y q : Z) : Prop :=
  ∃ j z, lab !! q = Some (j, z) ∧ (j ≤ k)%nat ∧ z / 2 ^ (9 * Z.of_nat (k - j)) = y.

Lemma idx_div y j : 0 ≤ j < 512 → (512 * y + j) / 512 = y.
Proof. intros Hj. rewrite Z.mul_comm, Z.div_add_l, Z.div_small by lia. lia. Qed.

Lemma idx_mod y j : 0 ≤ j < 512 → (512 * y + j) mod 512 = j.
Proof. intros Hj. rewrite Z.add_comm, Z.mul_comm, Z_mod_plus_full. by apply Z.mod_small. Qed.

Section labels.
Context (m : mem) (pml4 : Z) (lab : gmap Z (nat * Z)) (Hok : pt_ok m pml4 lab).

(** There is one table for a label. *)
Lemma lab_inj k x p q : lab !! p = Some (k, x) → lab !! q = Some (k, x) → p = q.
Proof using Hok.
  remember (4 - k)%nat as d eqn:Ed. revert k x p q Ed. induction d as [|d IH]; intros k x p q Ed Hp Hq;
    destruct (pt_page _ _ _ Hok _ _ _ Hp) as [_ Hk]; pose proof (pt_root _ _ _ Hok) as Hr;
    destruct (pt_up _ _ _ Hok _ _ _ Hp) as [->|(p' & Hp' & _ & Ep)], (pt_up _ _ _ Hok _ _ _ Hq) as [->|(q' & Hq' & _ & Eq)]; try done;
    try (destruct (pt_page _ _ _ Hok _ _ _ Hp') as [_ ?]; simplify_eq; lia); try (destruct (pt_page _ _ _ Hok _ _ _ Hq') as [_ ?]; simplify_eq; lia).
  assert (p' = q') as -> by (eapply (IH (S k)); [lia|done|done]). congruence.
Qed.

Lemma under_up k w q : under lab k w q → (k ≤ 4)%nat → ∃ r, lab !! r = Some (k, w).
Proof using Hok.
  intros (j & z & Hq & Hj & Hw) Hk. remember (k - j)%nat as d eqn:Ed. revert j z q Hq Hj Hw Ed.
  induction d as [|d IH]; intros j z q Hq Hj Hw Ed.
  - assert (j = k) as -> by lia. simpl in Hw. rewrite Z.div_1_r in Hw. subst z. eauto.
  - destruct (pt_up _ _ _ Hok _ _ _ Hq) as [->|(r & Hr & _)].
    { pose proof (pt_root _ _ _ Hok). simplify_eq. lia. }
    eapply (IH (S j) (z / 512) r Hr); [lia| |lia]. rewrite <- Hw. change 512 with (2 ^ 9). rewrite Z.div_div, <- Z.pow_add_r by lia.
    do 2 f_equal. lia.
Qed.

(** An entry of [p] that is not present has no tables below it. *)
Lemma under_present k y p j q :
  (1 ≤ k ≤ 3)%nat → lab !! p = Some (S k, y) → 0 ≤ j < 512 → under lab k (512 * y + j) q → present (rd64 m (p + 8 * j)) = true.
Proof using Hok.
  intros Hk Hp Hj Hq. destruct (under_up _ _ _ Hq ltac:(lia)) as [r Hr]. destruct (pt_up _ _ _ Hok _ _ _ Hr) as [->|(p' & Hp' & E & _)].
  { pose proof (pt_root _ _ _ Hok). simplify_eq. lia. }
  rewrite idx_div in Hp' by done. rewrite idx_mod in E by done.
  by rewrite (lab_inj _ _ _ _ Hp Hp').
Qed.

Lemma under_split k y p q :
  lab !! p = Some (S k, y) → under lab (S k) y q ↔ q = p ∨ ∃ j, 0 ≤ j < 512 ∧ under lab k (512 * y + j) q.
Proof using Hok.
  intros Hp. split.
  - intros (j & z & Hq & Hj & Hz). destruct (decide (j = S k)) as [->|Hne].
    + left. rewrite Nat.sub_diag in Hz. simpl in Hz. rewrite Z.div_1_r in Hz. subst z. by eapply lab_inj.
    + right. set (w := z / 2 ^ (9 * Z.of_nat (k - j))).
      assert (Ew : w / 512 = y).
      { unfold w. rewrite <- Hz. change 512 with (2 ^ 9). rewrite Z.div_div, <- Z.pow_add_r by lia. do 2 f_equal. lia. }
      exists (w mod 512). split; [by apply Z.mod_pos_bound|]. exists j, z. split; [done|]. split; [lia|].
      fold w. rewrite <- Ew. apply Z.div_mod. lia.
  - intros [->|(j & Hj & (j' & z & Hq & Hj' & Hz))].
    + exists (S k), y. split; [done|]. split; [done|]. rewrite Nat.sub_diag. simpl. apply Z.div_1_r.
    + exists j', z. split; [done|]. split; [lia|].
      replace (9 * Z.of_nat (S k - j')) with (9 * Z.of_nat (k - j') + 9) by lia. rewrite Z.pow_add_r, <- Z.div_div by lia.
      rewrite Hz. by apply idx_div.
Qed.
End labels.

(** From [s0] with the free pages [l0], the pages [D] have been freed. *)
Record pool (i : nat) (s0 : kstate) (l0 : list Z) (D : Z → Prop) (s : kstate) (l : list Z) : Prop := mkPool {
  po_step : vstep D s0 s;
  po_lock : km_lockable s i;
  po_km : km_ok s l;
  po_free p : p ∈ l ↔ p ∈ l0 ∨ D p
}.

Lemma pool_ext i s0 l0 (D D' : Z → Prop) s l : (∀ q, D q ↔ D' q) → pool i s0 l0 D s l → pool i s0 l0 D' s l.
Proof.
  intros HD [[H1 H2] H3 H4 H5]. split; [split; [done|]|done|done|intros p; by rewrite H5, HD].
  intros p x Hp Hn. apply H2; [done|]. by rewrite HD.
Qed.

Section freevm.
Context (i fuel : nat) (s0 : kstate) (l0 : list Z) (pml4 : Z) (lab : gmap Z (nat * Z)).
Context (Hok : pt_ok (k_mem s0) pml4 lab) (Hsep : ∀ p, is_Some (lab !! p) → p ∉ l0 ∧ kmem_end (k_km s0) ≤ p).

Lemma kfree_pool D s l p :
  pool i s0 l0 D s l → is_Some (lab !! p) → ¬ D p →
  ∃ s' l', kfree p fuel s = Ret tt s' ∧ pool i s0 l0 (λ q, D q ∨ q = p) s' l'.
Proof using Hok Hsep.
  intros [H1 H2 H3 H4] [[k y] Hp] Hn. destruct (pt_page _ _ _ Hok _ _ _ Hp) as [[Hpp _] _]. destruct (Hsep p ltac:(eauto)) as [Hl He].
  destruct (kfree_page s i p l fuel H2 H3) as (m & E & Hkm & Hm & _); [rewrite H4; naive_solver|done| |].
  { destruct (vs_same _ _ _ H1) as (f & mm & cs & ->). exact He. }
  eexists _, (p :: l). split; [done|]. split; [|done|done|intros q; rewrite elem_of_cons, H4; naive_solver].
  eapply (vstep_trans D (λ q, q = p)); [done| |naive_solver|naive_solver]. split; [apply same_but_vm_intro|].
  intros q x Hq Hqp Hx. apply Hm. by apply (page_disjoint q p x).
Qed.

(** A routine that frees the tables at and below one of level [k]. *)
Definition frees_tables (lower : Z → K unit) (k : nat) : Prop :=
  ∀ D s l p y, lab !! p = Some (k, y) → pool i s0 l0 D s l → (∀ q, under lab k y q → ¬ D q) →
  ∃ s' l', lower p fuel s = Ret tt s' ∧ pool i s0 l0 (λ q, D q ∨ under lab k y q) s' l'.

Lemma kfree_tables : frees_tables kfree 1.
Proof using Hok Hsep.
  intros D s l p y Hp Hpool Hn.
  assert (Hu : ∀ q, under lab 1 y q ↔ q = p).
  { intros q. split.
    - intros (j & z & Hq & Hj & Hz). destruct (pt_page _ _ _ Hok _ _ _ Hq) as [_ ?]. assert (j = 1%nat) as -> by lia.
      simpl in Hz. rewrite Z.div_1_r in Hz. subst z. by eapply lab_inj.
    - intros ->. exists 1%nat, y. split; [done|]. split; [done|]. apply Z.div_1_r. }
  destruct (kfree_pool D s l p Hpool) as (s' & l' & E & Hp'); [eauto|apply Hn; by apply Hu|].
  exists s', l'. split; [done|]. eapply pool_ext; [|exact Hp']. intros q. simpl. by rewrite Hu.
Qed.

Lemma table_entries lower k p y n j D s l :
  frees_tables lower k → (1 ≤ k ≤ 3)%nat → lab !! p = Some (S k, y) → 0 ≤ j → j + Z.of_nat n = 512 →
  pool i s0 l0 D s l → ¬ D p → (∀ j' q, j ≤ j' < 512 → under lab k (512 * y + j') q → ¬ D q) →
  ∃ s' l', forM n j (free_table_round lower p) fuel s = Ret None s' ∧
    pool i s0 l0 (λ q, D q ∨ ∃ j', j ≤ j' < 512 ∧ under lab k (512 * y + j') q) s' l'.
Proof using Hok Hsep.
  intros Hlow Hk Hp. destruct (pt_page _ _ _ Hok _ _ _ Hp) as [[Hpp _] _]. revert j D s l.
  induction n as [|n IH]; intros j D s l H0 Hj Hpool HDp HD; cbn [forM].
  { exists s, l. split; [done|]. eapply pool_ext; [|exact Hpool]. intros q. split; [by left|]. intros [?|(j' & ? & _)]; [done|lia]. }
  assert (Hv : rd64 (k_mem s) (p + 8 * j) = rd64 (k_mem s0) (p + 8 * j)).
  { apply rd64_ext. intros x Hx. apply (vs_mem _ _ _ (po_step _ _ _ _ _ _ Hpool) p); [done|done|unfold PGSIZE; lia]. }
  assert (∃ s1 l1, free_table_round lower p j fuel s = Ret None s1 ∧ pool i s0 l0 (λ q, D q ∨ under lab k (512 * y + j) q) s1 l1)
    as (s1 & l1 & E1 & P1).
  { unfold free_table_round, ld64, getmem. mred. rewrite u64_small by (destruct Hpp as (_ & ? & ?); unfold PGSIZE in *; lia). rewrite Hv.
    destruct (present _) eqn:Hpr; mred.
    - destruct k as [|k]; [lia|]. pose proof (pt_down _ _ _ Hok _ _ _ j Hp ltac:(lia) Hpr) as Hc.
      destruct (Hlow D s l _ _ Hc Hpool) as (s1 & l1 & E1 & P1); [intros q; apply HD; lia|]. exists s1, l1. by rewrite E1.
    - exists s, l. split; [done|]. eapply pool_ext; [|exact Hpool]. intros q. split; [by left|]. intros [?|Hu]; [done|].
      pose proof (under_present _ _ _ Hok k y p j q Hk Hp ltac:(lia) Hu). congruence. }
  rewrite (run_bind _ _ _ _ _ _ E1).
  destruct (IH (j + 1) _ s1 l1 ltac:(lia) ltac:(lia) P1) as (s2 & l2 & E2 & P2).
  { intros [?|(j' & z & Hp' & Hle & _)]; [done|]. simplify_eq. lia. }
  { intros j' q Hj' Hu [HDq|Hu']; [by apply (HD j' q); [lia|..]|].
    destruct Hu as (a & z & Ha & _ & Hz), Hu' as (a' & z' & Ha' & _ & Hz'). simplify_eq. lia. }
  exists s2, l2. split; [done|]. eapply pool_ext; [|exact P2]. intros q. cbv beta. split.
  - intros [[?|Hu]|(j' & ? & ?)]; [by left|right; exists j; by split; [lia|]|right; exists j'; by split; [lia|]].
  - intros [?|(j' & ? & ?)]; [by left; left|]. destruct (decide (j' = j)) as [->|]; [by left; right|right; exists j'; by split; [lia|]].
Qed.

Lemma free_table_run lower msg k : frees_tables lower k → (1 ≤ k ≤ 3)%nat → frees_tables (free_table msg lower) (S k).
Proof using Hok Hsep.
  intros Hlow Hk D s l p y Hp Hpool Hn. destruct (pt_page _ _ _ Hok _ _ _ Hp) as [[(_ & Hp0 & _) _] _].
  pose proof (under_split _ _ _ Hok k y p) as Hs.
  assert (HDp : ¬ D p) by (apply Hn, Hs; [done|by left]).
  destruct (table_entries lower k p y NR_PTE 0 D s l Hlow Hk Hp) as (s1 & l1 & E1 & P1); try done.
  { intros j q Hj Hu. apply Hn, Hs; [done|right]. by exists j. }
  destruct (kfree_pool _ s1 l1 p P1) as (s2 & l2 & E2 & P2); [eauto| |].
  { intros [?|(j & _ & (a & z & Ha & Hle & _))]; [done|]. simplify_eq. lia. }
  exists s2, l2. split.
  - unfold free_table. rewrite (proj2 (Z.eqb_neq p 0)) by lia. by rewrite (run_bind _ _ _ _ _ _ E1).
  - eapply pool_ext; [|exact P2]. intros q. cbv beta. rewrite (Hs q Hp). clear. tauto.
Qed.

Lemma free_pml4_run : frees_tables free_pml4 4.
Proof using Hok Hsep. unfold free_pml4, free_pml3, free_pml2. do 3 (apply free_table_run; [|lia]). apply kfree_tables. Qed.
End freevm.

(** Every table is at or below the root. *)
Lemma under_root m pml4 lab q : pt_ok m pml4 lab → under lab 4 0 q ↔ is_Some (lab !! q).
Proof.
  intros Hok. split; [intros (j & z & Hq & _); eauto|]. intros [[j z] Hq]. destruct (pt_page _ _ _ Hok _ _ _ Hq) as [_ ?].
  set (w := z / 2 ^ (9 * Z.of_nat (4 - j))). assert (Hu : under lab 4 w q) by (exists j, z; by split; [|split; [lia|]]).
  destruct (under_up _ _ _ Hok 4 w q Hu ltac:(lia)) as [r Hr]. pose proof (pt_root _ _ _ Hok).
  destruct (pt_up _ _ _ Hok _ _ _ Hr) as [->|(p & Hp & _)].
  - assert (w = 0) as E by congruence. by rewrite E in Hu.
  - destruct (pt_page _ _ _ Hok _ _ _ Hp) as [_ ?]. lia.
Qed.

(** [freevm] puts every page of the address space on the free list: the pages
    mapped for the user and the tables, and none twice. *)
Lemma freevm_run i fuel s pml4 lab l U :
  (513 < fuel)%nat → uvm s i pml4 lab l U →
  ∃ s' l', freevm pml4 fuel s = Ret tt s' ∧ pool i s [] (owned lab l U) s' l'.
Proof.
  intros Hf V. destruct (deallocuvm_run i fuel pml4 s lab l U KERNBASE 0 0 UPAGES Hf V) as (s1 & l1 & E1 & V1 & [S1 _ O1]).
  { left. split; [lia|done]. } { right. done. } { done. }
  assert (cut 0 UPAGES U = ∅) as Ec.
  { apply map_eq. intros x. rewrite lookup_cut, lookup_empty. case_decide; [done|]. destruct (U !! x) eqn:Hx; [|done].
    by apply (um_user _ _ _ _ _ _ V) in Hx. }
  rewrite Ec in *. pose proof (um_vm _ _ _ _ _ _ V1) as Vm1. pose proof (vm_pt _ _ _ _ _ Vm1) as Hpt.
  assert (P1 : pool i s1 l1 (λ _, False) s1 l1) by (split; [apply vstep_refl|apply Vm1|apply Vm1|naive_solver]).
  destruct (free_pml4_run i fuel s1 l1 pml4 lab Hpt) with (D := λ _ : Z, False) (s := s1) (l := l1) (p := pml4) (y := 0)
    as (s2 & l2 & E2 & [S2 K2 M2 F2]); [|apply Hpt|done|tauto|].
  { intros p Hp. split; [|by apply V1]. intros Hl. apply (vm_sep _ _ _ _ _ Vm1) in Hl. rewrite Hl in Hp. by destruct Hp. }
  exists s2, l2. split; [unfold freevm; mred; rewrite E1; mred; by rewrite E2|].
  assert (Ho : ∀ q, q ∈ l2 ↔ owned lab l U q).
  { intros q. rewrite F2, <- O1, (under_root _ _ _ _ Hpt). unfold owned, tabs. split.
    - intros [?|[[]|?]]; tauto.
    - intros [[?|?]|(x & e & Hx & _)]; [tauto|tauto|by rewrite lookup_empty in Hx]. }
  split; [|done|done|intros p; rewrite Ho; set_solver].
  eapply vstep_trans; [exact S1|exact S2|done|]. intros q [[]|Hq]. apply O1. left. left. by eapply under_root.
Qed.

(** * The kernel's half *)

(** The pages of a range of the table. *)
Definition in_range (e : kmapent) (n : Z) : Prop := km_phys_start e / PGSIZE ≤ n < pgs (km_phys_end e).
#[global] Instance in_range_dec e n : Decision (in_range e n).
Proof. apply _. Defined.

Record krange_ok (e : kmapent) : Prop := mkKr {
  kr_range : 0 ≤ km_phys_start e < km_phys_end e ∧ km_phys_end e ≤ 2 ^ 47;
  kr_align : km_phys_start e mod PGSIZE = 0;
  kr_perm : 0 ≤ km_perm e < 2 ^ 64
}.

(** No page is in two ranges. *)
Definition kapart (T : list kmapent) : Prop :=
  ∀ j j' e e' n, T !! j = Some e → T !! j' = Some e' → in_range e n → in_range e' n → j = j'.

(** The entry of physical page [n] in the kernel's half. *)
Fixpoint kpage (T : list kmapent) (n : Z) : option Z :=
  match T with
  | [] => None
  | e :: T => if decide (in_range e n) then Some (Z.lor (Z.lor (PGSIZE * n) (km_perm e)) PTE_P) else kpage T n
  end.

(** The labels of the tables on the way to a page. *)
Definition path (x : Z) : list (nat * Z) := (λ k, (k, x / 2 ^ (9 * Z.of_nat k))) <$> [1; 2; 3; 4]%nat.

Section setupkvm.
Implicit Types (T : list kmapent) (s : kstate) (lab : gmap Z (nat * Z)) (l : list Z).

Lemma kpage_app T e n : kpage (T ++ [e]) n = match kpage T n with Some v => Some v | None => kpage [e] n end.
Proof. induction T as [|e' T IH]; [done|]. cbn [app kpage]. case_decide; [done|]. exact IH. Qed.

Lemma kpage_None T n : (∀ j e, T !! j = Some e → ¬ in_range e n) → kpage T n = None.
Proof.
  induction T as [|e T IH]; intros H; [done|]. cbn [kpage]. rewrite decide_False by (apply (H 0%nat); done).
  apply IH. intros j e' Hj. apply (H (S j)). done.
Qed.

Lemma kapart_None T1 e T2 n : kapart (T1 ++ e :: T2) → in_range e n → kpage T1 n = None.
Proof.
  intros Ha Hn. apply kpage_None. intros j e' Hj Hn'.
  assert (j = length T1) as ->; [|by rewrite lookup_ge_None_2 in Hj by lia].
  apply (Ha j (length T1) e' e n); [by apply lookup_app_l_Some|by apply list_lookup_middle|done|done].
Qed.

(** Pages that are all tables are no more than the labels the tables can have. *)
Lemma tables_few m pml4 lab l (L : list (nat * Z)) :
  pt_ok m pml4 lab → NoDup l → (∀ q, q ∈ l → ∃ lb, lab !! q = Some lb ∧ lb ∈ L) → (length l ≤ length L)%nat.
Proof.
  intros Hok Hnd Hl. apply (length_by_names (λ q lb, lab !! q = Some lb)); [done|set_solver|].
  intros p q [k x]. by eapply lab_inj.
Qed.

(** An address space with nothing in it. *)
Lemma uvm_empty s i l d f :
  km_lockable s i → km_ok s (d :: l) → KERNBASE ≤ kmem_end (k_km s) →
  let s1 := set_km (km_set_freelist f (k_km s)) s in km_ok s1 l → page d → d ∉ l →
  uvm (set_mem (memset (k_mem s) d 0 PGSIZE) s1) i d {[d := (4%nat, 0)]} l ∅.
Proof.
  intros Hl (Hfp & Hnd & Hall) He s1 (Hfp1 & Hnd1 & Hall1) Hd Hdl. apply Forall_cons in Hall as [[_ Hde] _].
  assert (Hz : ∀ j, 0 ≤ j < 512 → rd64 (memset (k_mem s) d 0 PGSIZE) (d + 8 * j) = 0) by (intros; by apply rd64_memset_in).
  assert (Hpt : pt_ok (memset (k_mem s) d 0 PGSIZE) d {[d := (4%nat, 0)]}).
  { split; [by rewrite lookup_singleton_eq|..].
    - intros p k x [<- [= <- <-]]%lookup_singleton_Some. split; [|lia]. split; [done|lia].
    - intros p k x j [<- [= <- <-]]%lookup_singleton_Some Hj e. unfold e. by rewrite Hz.
    - intros p k x [<- _]%lookup_singleton_Some. by left. }
  split; [split; [exact Hl| |exact Hpt| |exact He]|..].
  - split; [|done]. eapply free_pages_ext, Hfp1. intros p x Hp Hx. cbn [k_mem set_mem]. rewrite memset_spec by done. rewrite decide_False; [done|].
    apply Forall_forall with (x := p) in Hall1 as [Hpp _]; [|done]. apply (page_disjoint p d x); [done|done|congruence|unfold PGSIZE; lia].
  - intros p Hp. apply lookup_singleton_None. congruence.
  - intros x Hx. rewrite lookup_empty. unfold lookup_page. cbn [leaf_table k_mem set_mem].
    rewrite entry_eq by done. by rewrite Hz by apply PMLX_range.
  - intros x e. by rewrite lookup_empty.
  - intros x e. by rewrite lookup_empty.
  - intros x y e e'. by rewrite lookup_empty.
  - intros p [? [<- _]%lookup_singleton_Some]. exact Hde.
Qed.

(** The address space at [d], made since [s0] out of its free pages [l0], with
    tables labelled in [L]. *)
Record built (i : nat) (s0 : kstate) (l0 : list Z) (L : list (nat * Z)) (d : Z) (U : gmap Z Z) s lab l : Prop := mkBuilt {
  bt_uvm : uvm s i d lab l U;
  bt_step : vstep (λ q, q ∈ l0) s0 s;
  bt_owned q : owned lab l U q ↔ q ∈ l0;
  bt_lab q lb : lab !! q = Some lb → lb ∈ L
}.

Definition kernel_half T (m : mem) (d : Z) : Prop :=
  ∀ n, 0 ≤ n < UPAGES → lookup_page m d (P2V (PGSIZE * n)) = kpage T n.

Lemma P2V_mul n : 0 ≤ n < UPAGES → P2V (PGSIZE * n) = KERNBASE + PGSIZE * n ∧ vpage (P2V (PGSIZE * n)) = UPAGES + n.
Proof.
  intros Hn. unfold UPAGES, PGSIZE in *. assert (E : P2V (4096 * n) = KERNBASE + 4096 * n) by (unfold P2V; rewrite u64_small; unfold KERNBASE; lia).
  split; [done|]. rewrite E. unfold vpage, KERNBASE, PGSIZE. replace (0xffff800000000000 + 4096 * n) with (2 ^ 47 + 4096 * n + 65535 * 2 ^ 48) by lia.
  rewrite Z_mod_plus_full, Z.mod_small by lia. replace (2 ^ 47 + 4096 * n) with ((2 ^ 35 + n) * 4096) by lia. by rewrite Z.div_mul by lia.
Qed.

Lemma made_lab W s s' lab lab' l l' (L : list (nat * Z)) m d :
  made W s s' lab lab' l l' → pt_ok m d lab' → (∀ q lb, lab !! q = Some lb → lb ∈ L) → (∀ x, W x → path x ⊆ L) →
  ∀ q lb, lab' !! q = Some lb → lb ∈ L.
Proof.
  intros M Hpt HL HW q [k y] Hq. destruct (md_new M q k y Hq) as [?|(x & Hx & ->)]; [by eapply HL|]. apply (HW x Hx).
  destruct (pt_page _ _ _ Hpt _ _ _ Hq) as [_ Hk]. apply list_elem_of_fmap. exists k. split; [done|]. set_unfold. lia.
Qed.

(** The pages [mappages] visits for a range. *)
Lemma krange_pages e : krange_ok e →
  let f := km_phys_start e / PGSIZE in let va := P2V (km_phys_start e) in let size := km_phys_end e - km_phys_start e in
  km_phys_start e = PGSIZE * f ∧ 0 ≤ f < pgs (km_phys_end e) ∧ pgs (km_phys_end e) ≤ UPAGES ∧ vpage va = UPAGES + f ∧
  0 ≤ va ∧ va + size ≤ 2 ^ 64 ∧ u64 size = size ∧ PGROUNDDOWN va = va ∧
  (PGROUNDDOWN (va + size - 1) - PGROUNDDOWN va) / PGSIZE + 1 = pgs (km_phys_end e) - f.
Proof.
  intros [[Hr Ht] Ha _] f va size. assert (HP : PGSIZE = 4096) by done. assert (HU : UPAGES = 2 ^ 35) by done.
  assert (Ef : km_phys_start e = PGSIZE * f) by (pose proof (Z.div_mod (km_phys_start e) PGSIZE ltac:(lia)); unfold f; lia).
  assert (Hf0 : 0 ≤ f) by (apply Z.div_pos; lia). pose proof (pgs_bound (km_phys_end e) ltac:(lia)) as Hb.
  assert (Hfe : f < pgs (km_phys_end e)) by (apply pgs_lt; lia).
  destruct (P2V_mul f ltac:(lia)) as [EP Ev]. assert (HK : KERNBASE = PGSIZE * (2 ^ 52 - 2 ^ 35)) by done.
  unfold va, size. rewrite Ef, EP.
  assert (E1 : PGROUNDDOWN (KERNBASE + PGSIZE * f) = KERNBASE + PGSIZE * f).
  { rewrite PGROUNDDOWN_eq by lia. rewrite HK, <- Z.mul_add_distr_l, Z.mul_comm, Z.mod_mul by lia. lia. }
  assert (E2 : PGROUNDDOWN (KERNBASE + PGSIZE * f + (km_phys_end e - PGSIZE * f) - 1) = KERNBASE + PGSIZE * (pgs (km_phys_end e) - 1)).
  { rewrite PGROUNDDOWN_eq by lia. unfold pgs. pose proof (Z.div_mod (km_phys_end e + PGSIZE - 1) PGSIZE ltac:(lia)) as E.
    replace (KERNBASE + PGSIZE * f + (km_phys_end e - PGSIZE * f) - 1) with ((km_phys_end e + PGSIZE - 1) + (2 ^ 52 - 2 ^ 35 - 1) * PGSIZE) by lia.
    rewrite Z_mod_plus_full. lia. }
  split_and!; try done; try lia; [by rewrite <- EP|by rewrite u64_small by lia|].
  rewrite E1, E2. replace (KERNBASE + PGSIZE * (pgs (km_phys_end e) - 1) - (KERNBASE + PGSIZE * f)) with ((pgs (km_phys_end e) - 1 - f) * PGSIZE) by lia.
  rewrite Z.div_mul by lia. lia.
Qed.

Lemma map_range i fuel s0 l0 L d s lab l T e :
  built i s0 l0 L d ∅ s lab l → kernel_half T (k_mem s) d → krange_ok e → (∀ n, in_range e n → kpage T n = None) →
  pgs (km_phys_end e) - km_phys_start e / PGSIZE ≤ Z.of_nat fuel → (∀ n, in_range e n → path (UPAGES + n) ⊆ L) →
  ∃ r s' lab' l', mappages d (P2V (km_phys_start e)) (u64 (km_phys_end e - km_phys_start e)) (km_phys_start e) (km_perm e) fuel s = Ret r s' ∧
    built i s0 l0 L d ∅ s' lab' l' ∧ (r = 0 ∧ kernel_half (T ++ [e]) (k_mem s') d ∨ r = -1 ∧ l' = []).
Proof.
  intros [V S0 O0 L0] Hk He Hno Hf HL. destruct (krange_pages e He) as (Ef & Hf0 & Hb & Ev & Hva & Htop & Eu & Ed & En). cbv zeta in *.
  set (f := km_phys_start e / PGSIZE) in *. assert (HP : PGSIZE = 4096) by done. assert (HU : UPAGES = 2 ^ 35) by done.
  pose proof (mappages_run i fuel d s lab l (P2V (km_phys_start e)) (km_phys_end e - km_phys_start e) (km_phys_start e) (km_perm e) (um_vm _ _ _ _ _ _ V)) as H.
  cbv zeta in H. rewrite En, Ed, Ev in H. rewrite Eu. set (n := pgs (km_phys_end e) - f) in *.
  destruct He as [[Hr Ht] Ha Hp]. destruct H as [H _]; try lia.
  destruct H as (r & j & s' & lab' & l' & E & V' & M & _ & Hj & Lk).
  { intros j Hj. rewrite Ef. destruct (P2V_mul f ltac:(lia)) as [-> _].
    replace (KERNBASE + PGSIZE * f + PGSIZE * j) with (KERNBASE + PGSIZE * (f + j)) by lia.
    destruct (P2V_mul (f + j)) as [<- _]; [lia|]. rewrite Hk by lia. apply Hno. unfold in_range. fold f. lia. }
  exists r, s', lab', l'. split; [done|]. split; [split|].
  - eapply (uvm_made _ _ _ s s' lab lab' l l' ∅); [done|done|done| |intros x e0; by rewrite lookup_empty].
    intros x Hx. rewrite Lk, vpage_mul, decide_False by lia. by apply V.
  - eapply vstep_trans; [exact S0|apply M|done|]. intros q Hq. apply O0. by left.
  - intros q. rewrite <- O0. unfold owned. by rewrite (md_tabs M).
  - eapply made_lab; [exact M|apply V'|done|]. intros x Hx. cbv beta in Hx. replace x with (UPAGES + (x - UPAGES)) by lia.
    apply HL. unfold in_range. fold f. lia.
  - destruct Hj as [[-> ->]|(-> & _ & ->)]; [left|by right]. split; [done|]. intros m Hm. rewrite Lk, kpage_app.
    destruct (P2V_mul m Hm) as [_ ->]. rewrite <- (Hk m Hm). cbn [kpage]. case_decide as Hin.
    + assert (Hin' : in_range e m) by (unfold in_range; fold f; lia). rewrite Hk, Hno, decide_True by done. do 3 f_equal. lia.
    + rewrite (decide_False (P := in_range e m)) by (unfold in_range; fold f; lia). by destruct (lookup_page _ _ _).
Qed.

(** What [setupkvm] needs of the table of ranges: whole pages of physical
    memory, each in one range; [L] has room for the labels of the tables on the
    way to them. *)
Record kmap_ok T (fuel : nat) (L : list (nat * Z)) : Prop := mkKo {
  ko_len : (length T < KMAP_MAX_SIZE)%nat ∧ (length T < fuel)%nat ∧ (513 < fuel)%nat;
  ko_ranges : Forall krange_ok T;
  ko_apart : kapart T;
  ko_fuel : Forall (λ e, pgs (km_phys_end e) - km_phys_start e / PGSIZE ≤ Z.of_nat fuel) T;
  ko_root : (4%nat, 0) ∈ L;
  ko_paths e n : e ∈ T → in_range e n → path (UPAGES + n) ⊆ L
}.

(** The free pages are as they were. *)
Definition restored (i : nat) (s : kstate) (l : list Z) (s' : kstate) : Prop := ∃ l', pool i s [] (λ q, q ∈ l) s' l'.

Lemma same_but_vm_kmap s s' T : same_but_vm s s' → kmap_is (k_km s) T → kmap_is (k_km s') T.
Proof. intros (f & m & cs & ->) []. by split. Qed.

(** [freevm] of what was made since [s0]. *)
Lemma freevm_built i fuel s0 l0 L d U s lab l :
  (513 < fuel)%nat → built i s0 l0 L d U s lab l → ∃ s', freevm d fuel s = Ret tt s' ∧ restored i s0 l0 s'.
Proof.
  intros Hf [V S0 O0 _]. destruct (freevm_run i fuel s d lab l U Hf V) as (s' & l' & E & [S1 K1 M1 F1]). exists s'. split; [done|].
  exists l'. split; [|done|done|intros p; rewrite F1, O0; done].
  eapply vstep_trans; [exact S0|exact S1|done|]. intros q. apply O0.
Qed.

Lemma setupkvm_run i fuel s l T L :
  km_lockable s i → km_ok s l → KERNBASE ≤ kmem_end (k_km s) → kmap_is (k_km s) T → kmap_ok T fuel L →
  ∃ r s', setupkvm fuel s = Ret r s' ∧
    (r ≠ 0 ∧ (∃ lab l', built i s l L r ∅ s' lab l') ∧ kernel_half T (k_mem s') r ∨
     r = 0 ∧ restored i s l s' ∧ (length l ≤ length L)%nat).
Proof.
  intros Hl Hk He Hki [(Hlen & Hlf & Hf) HR HA HF H0 HP]. unfold setupkvm.
  pose proof (kalloc_page s i l fuel Hl Hk) as Ha. destruct l as [|d l].
  { exists 0, s. rewrite (run_bind _ _ _ _ _ _ Ha). split; [done|]. right. split; [done|]. split; [|simpl; lia].
    exists []. split; [apply vstep_refl|done|done|set_solver]. }
  destruct Ha as (f & Ea & Hk1 & Hd & Hdl). rewrite (run_bind _ _ _ _ _ _ Ea).
  rewrite (proj2 (Z.eqb_neq d 0)) by (destruct Hd as (_ & ? & _); lia).
  pose proof (uvm_empty s i l d f Hl Hk He Hk1 Hd Hdl) as V0. set (s1 := set_mem (memset (k_mem s) d 0 PGSIZE) (set_km (km_set_freelist f (k_km s)) s)) in *.
  rewrite (run_bind _ _ _ _ tt s1) by done.
  assert (B0 : built i s (d :: l) L d ∅ s1 {[d := (4%nat, 0)]} l).
  { split; [done| |intros q|intros q lb [<- <-]%lookup_singleton_Some; done].
    - split; [apply (same_but_vm_intro f)|]. intros p x Hp Hn Hx. apply zero_page_out. apply (page_disjoint p d x); try done. set_solver.
    - unfold owned, tabs, framed. rewrite elem_of_cons. setoid_rewrite lookup_empty. destruct (decide (q = d)) as [->|].
      + rewrite lookup_singleton_eq. naive_solver.
      + rewrite lookup_singleton_ne by done. split; [intros [[[]|?]|(?&?&?&_)]; naive_solver|naive_solver]. }
  assert (K0 : kernel_half [] (k_mem s1) d).
  { intros n Hn. unfold lookup_page. cbn [leaf_table k_mem s1 set_mem]. rewrite entry_eq by done. by rewrite rd64_memset_in by (done || apply PMLX_range). }
  destruct (for_kmap_run (λ T1 s', (∃ lab l', built i s (d :: l) L d ∅ s' lab l') ∧ kernel_half T1 (k_mem s') d)
    (λ s', restored i s (d :: l) s' ∧ (length (d :: l) ≤ length L)%nat) (setupkvm_range d) T fuel s1 Hlen Hlf) as (r & s' & E & Hr).
  - intros T1 s' [(lab & l' & B) _]. eapply same_but_vm_kmap; [apply (bt_step _ _ _ _ _ _ _ _ _ B)|done].
  - split; [by exists {[d := (4%nat, 0)]}, l|done].
  - intros T1 e T2 s' ET [(lab & l' & B) K]. rewrite ET in HA. pose proof (list_elem_of_here e T2) as He2.
    assert (HeT : e ∈ T) by (rewrite ET; apply elem_of_app; by right). rewrite Forall_forall in HR, HF.
    destruct (map_range i fuel s (d :: l) L d s' lab l' T1 e B K (HR e HeT)) as (r & s2 & lab2 & l2 & E2 & B2 & Hr2);
      [intros n; by eapply kapart_None|by apply HF|intros n; by apply HP|].
    destruct Hr2 as [[-> K2]|[-> ->]].
    + exists s2. left. split; [unfold setupkvm_range; by rewrite (run_bind _ _ _ _ _ _ E2)|]. split; [eauto|done].
    + destruct (freevm_built i fuel s (d :: l) L d ∅ s2 lab2 [] Hf B2) as (s3 & E3 & R3). exists s3. right.
      split; [unfold setupkvm_range; rewrite (run_bind _ _ _ _ _ _ E2); change (-1 <? 0) with true; cbv iota; by rewrite (run_bind _ _ _ _ _ _ E3)|]. split; [done|].
      eapply (tables_few _ _ lab2); [apply (bt_uvm _ _ _ _ _ _ _ _ _ B2)|apply Hk|]. intros q Hq.
      apply (bt_owned _ _ _ _ _ _ _ _ _ B2) in Hq as [[[lb Hq]|Hq]|(x & e0 & Hx & _)]; [|by apply not_elem_of_nil in Hq|by rewrite lookup_empty in Hx].
      exists lb. split; [done|]. by eapply (bt_lab _ _ _ _ _ _ _ _ _ B2).
  - rewrite (run_bind _ _ _ _ _ _ E). destruct Hr as [[-> [HB HK]]|[-> [HR' HL]]]; [exists d, s'|exists 0, s']; (split; [done|]); [left|right; done].
    split; [destruct Hd as (_ & ? & _); lia|done].
Qed.
End setupkvm.

(** * Copying *)

(** The first [n] pages are copied, with their flags, and there are no others. *)
Definition copy_of (n : Z) (U U' : gmap Z Z) (m m' : mem) : Prop :=
  ∀ x, if decide (0 ≤ x < n)
       then ∃ e p, U !! x = Some e ∧ U' !! x = Some (user_entry p (PTE_FLAGS e)) ∧ frame (user_entry p (PTE_FLAGS e)) = p ∧
              ∀ o, 0 ≤ o < PGSIZE → rd m' (p + o) = rd m (frame e + o)
       else U' !! x = None.

Section copyuvm.
Context (i fuel : nat).
Implicit Types (s : kstate) (lab : gmap Z (nat * Z)) (l : list Z) (U : gmap Z Z).

Lemma PTE_FLAGS_ok e : flags_ok (PTE_FLAGS e).
Proof.
  unfold flags_ok, PTE_FLAGS, PTE_ADDR. split.
  - change (Z.lor PTE_XD 0xFFF) with (Z.land (Z.lor PTE_XD 0xFFF) (Z.ones 64)). rewrite Z.land_assoc, Z.land_ones by lia. by apply Z.mod_pos_bound.
  - rewrite <- Z.land_assoc. change (Z.land (Z.lor PTE_XD 0xFFF) _) with 0. apply Z.land_0_r.
Qed.

(** An address space that shares nothing with what changed is as before. *)
Lemma uvm_other s s' pml4 lab l l' U :
  uvm s i pml4 lab l U → vstep (λ q, q ∈ l) s s' → km_lockable s' i → km_ok s' l' → (∀ q, q ∈ l' → q ∈ l) →
  uvm s' i pml4 lab l' U ∧ ∀ x e o, U !! x = Some e → frame e ≤ o < frame e + PGSIZE → rd (k_mem s') o = rd (k_mem s) o.
Proof.
  intros V St Hl Hk Hsub. pose proof (um_vm _ _ _ _ _ _ V) as Vm. pose proof (vm_pt _ _ _ _ _ Vm) as Hpt.
  assert (Hm : ∀ p x, is_Some (lab !! p) → p ≤ x < p + PGSIZE → rd (k_mem s') x = rd (k_mem s) x).
  { intros p x [[k y] Hp] Hx. apply (vs_mem _ _ _ St p); [by destruct (pt_page _ _ _ Hpt _ _ _ Hp) as [[? _] _]| |done].
    intros Hpl. apply (vm_sep _ _ _ _ _ Vm) in Hpl. congruence. }
  assert (Ee : kmem_end (k_km s') = kmem_end (k_km s)) by (by destruct (vs_same _ _ _ St) as (f & m & cs & ->)).
  split.
  - split; [split| | | | |].
    + done. + done. + by eapply pt_ok_ext. + intros p Hp. apply Vm. by apply Hsub. + rewrite Ee. apply Vm.
    + intros x Hx. erewrite lookup_ext by done. by apply V.
    + apply V.
    + intros x e Hx. destruct (um_page _ _ _ _ _ _ V x e Hx) as (? & ? & Hn). rewrite Ee. split; [done|]. split; [done|].
      intros [?|?]; apply Hn; [by left|right; by apply Hsub].
    + apply V.
    + rewrite Ee. apply V.
  - intros x e o Hx Ho. destruct (um_page _ _ _ _ _ _ V x e Hx) as (? & ? & Hn). apply (vs_mem _ _ _ St (frame e)); [done| |done].
    intros ?. apply Hn. by right.
Qed.

(** The walk finds the entry of a page that is mapped. *)
Lemma walk_mapped s pml4 lab l U x e :
  uvm s i pml4 lab l U → U !! x = Some e →
  ∃ a, walkpml4 pml4 (PGSIZE * x) false fuel s = Ret a s ∧ a ≠ 0 ∧ rd64 (k_mem s) a = e ∧ present e = true.
Proof.
  intros V Hx. pose proof (vm_pt _ _ _ _ _ (um_vm _ _ _ _ _ _ V)) as Hpt.
  pose proof (um_look _ _ _ _ _ _ V x (um_user _ _ _ _ _ _ V x e Hx)) as Hlk. rewrite Hx in Hlk. unfold lookup_page in Hlk.
  destruct (leaf_table 3 (k_mem s) pml4 (PGSIZE * x)) as [p|] eqn:El; [|done]. exists (entry PML1XSHIFT p (PGSIZE * x)).
  rewrite (walkpml4_look fuel pml4 s lab) by done. rewrite El. split; [done|]. split; [by eapply leaf_entry_pos|]. by case_match; simplify_eq.
Qed.

(** When every page that was free is in use, there were not enough. *)
Lemma copy_few m d lab l0 (L : list (nat * Z)) U p x :
  pt_ok m d lab → NoDup l0 → (∀ q lb, lab !! q = Some lb → lb ∈ L) → 0 ≤ x → (∀ y e, U !! y = Some e → 0 ≤ y < x) →
  (∀ q, q ∈ l0 → q = p ∨ owned lab [] U q) → Z.of_nat (length l0) ≤ Z.of_nat (length L) + (x + 1).
Proof.
  intros Hok Hnd HL Hx HU Hq.
  assert (length l0 ≤ length (L ++ ((λ y, (0%nat, y)) <$> seqZ 0 (x + 1))))%nat as Hle; [|rewrite length_app, length_fmap, length_seqZ in Hle; lia].
  apply (length_by_names (λ q lb, lab !! q = Some lb ∨ (∃ y e, lb = (0%nat, y) ∧ U !! y = Some e ∧ frame e = q) ∨ lb = (0%nat, x) ∧ q = p)); [done|..].
  - intros q Hin. destruct (Hq q Hin) as [->|[[[lb Hlb]|Hn]|(y & e & Hy & Hf)]].
    + exists (0%nat, x). split; [|by right; right]. apply elem_of_app. right. apply list_elem_of_fmap. exists x. split; [done|]. apply elem_of_seqZ. lia.
    + exists lb. split; [|by left]. apply elem_of_app. left. by eapply HL.
    + by apply not_elem_of_nil in Hn.
    + exists (0%nat, y). split; [|right; left; by exists y, e]. apply elem_of_app. right. apply list_elem_of_fmap. exists y. split; [done|].
      apply elem_of_seqZ. specialize (HU y e Hy). lia.
  - assert (Hlab : ∀ q y, lab !! q = Some (0%nat, y) → False) by (intros q y Hy; destruct (pt_page _ _ _ Hok _ _ _ Hy) as [_ ?]; lia).
    intros q q' lb [H1|[(y & e & -> & Hy & <-)|[-> ->]]] [H2|[(y' & e' & E & Hy' & <-)|[E ->]]]; simplify_eq; try done;
      try (by exfalso; eapply Hlab); try (exfalso; by specialize (HU _ _ Hy); lia); try (exfalso; by specialize (HU _ _ Hy'); lia).
    destruct lb as [k z]. by eapply lab_inj.
Qed.

(** One more page of the copy. *)
Lemma copy_of_step x U U' m m1 m2 e p :
  0 ≤ x → copy_of x U U' m m1 → U !! x = Some e → frame (user_entry p (PTE_FLAGS e)) = p →
  (∀ y e' o, U' !! y = Some e' → frame e' ≤ o < frame e' + PGSIZE → rd m2 o = rd m1 o) →
  (∀ o, 0 ≤ o < PGSIZE → rd m2 (p + o) = rd m (frame e + o)) →
  copy_of (x + 1) U (<[x := user_entry p (PTE_FLAGS e)]> U') m m2.
Proof.
  intros Hx HC He Hp Hold Hnew y. specialize (HC y). destruct (decide (y = x)) as [->|Hne].
  - rewrite decide_True by lia. exists e, p. by rewrite lookup_insert_eq.
  - rewrite lookup_insert_ne by done. repeat case_decide; try lia; try done. destruct HC as (e' & p' & H1 & H2 & H3 & H4).
    exists e', p'. split; [done|]. split; [done|]. split; [done|]. intros o Ho. rewrite (Hold y _ _ H2) by (rewrite H3; lia). by apply H4.
Qed.

Section copy.
Context (s0 : kstate) (l0 : list Z) (L : list (nat * Z)) (T : list kmapent) (pml4 sz d : Z) (labP : gmap Z (nat * Z)) (U : gmap Z Z).
Context (P : uvm s0 i pml4 labP l0 U) (Hf : (513 < fuel)%nat).

(** Giving up when no page is left. *)
Lemma copy_short s lab UC p x :
  built i s0 l0 L d UC s lab [p] ∨ built i s0 l0 L d UC s lab [] → (∀ y e, UC !! y = Some e → 0 ≤ y < x) → 0 ≤ x < pgs sz →
  Z.of_nat (length l0) ≤ Z.of_nat (length L) + pgs sz.
Proof using P.
  clear Hf. intros HB Hk Hx. assert (Hnd : NoDup l0) by apply (vm_km _ _ _ _ _ (um_vm _ _ _ _ _ _ P)).
  assert (Hq : ∀ q, q ∈ l0 → q = p ∨ owned lab [] UC q).
  { intros q Hq. destruct HB as [B|B]; apply (bt_owned _ _ _ _ _ _ _ _ _ B) in Hq; [by apply owned_cons in Hq|by right]. }
  assert (Hpt : pt_ok (k_mem s) d lab) by (destruct HB as [B|B]; apply (um_vm _ _ _ _ _ _ (bt_uvm _ _ _ _ _ _ _ _ _ B))).
  assert (HL : ∀ q lb, lab !! q = Some lb → lb ∈ L) by (destruct HB as [B|B]; apply B).
  pose proof (copy_few (k_mem s) d lab l0 L UC p x Hpt Hnd HL ltac:(lia) Hk Hq). lia.
Qed.

Lemma copyuvm_round_run s lab l UC x e :
  built i s0 l0 L d UC s lab l → kernel_half T (k_mem s) d → copy_of x U UC (k_mem s0) (k_mem s) → U !! x = Some e → 0 ≤ x < pgs sz →
  path x ⊆ L →
  ∃ c s', copyuvm_round pml4 sz d (PGSIZE * x) fuel s = Ret c s' ∧
    (c = inl (PGSIZE * (x + 1)) ∧ (∃ lab' l' UC', built i s0 l0 L d UC' s' lab' l' ∧ kernel_half T (k_mem s') d ∧ copy_of (x + 1) U UC' (k_mem s0) (k_mem s')) ∨
     c = inr 0 ∧ restored i s0 l0 s' ∧ Z.of_nat (length l0) ≤ Z.of_nat (length L) + pgs sz).
Proof using P Hf.
  intros B K HC He Hx HL. pose proof B as [V S0 O0 L0]. pose proof (um_vm _ _ _ _ _ _ V) as Vm.
  destruct (uvm_other s0 s pml4 labP l0 l U P S0 (vm_lock _ _ _ _ _ Vm) (vm_km _ _ _ _ _ Vm)) as [VP Hcont]; [intros q Hq; apply O0; left; by right|].
  destruct (walk_mapped s pml4 labP l U x e VP He) as (a & Ew & Ha & Ev & Hpr). pose proof (um_user _ _ _ _ _ _ P x e He) as Hxu.
  assert (Hkeys : ∀ y e', UC !! y = Some e' → 0 ≤ y < x).
  { intros y e' Hy. specialize (HC y). case_decide; [done|congruence]. }
  unfold copyuvm_round. rewrite (proj2 (Z.ltb_lt _ _)) by (apply pgs_lt; lia). cbn [negb]. mred. rewrite Ew. mred.
  rewrite (proj2 (Z.eqb_neq a 0)) by done. unfold ld64, getmem. mred. rewrite Ev, Hpr. cbn [negb]. mred.
  destruct l as [|p l].
  { pose proof (kalloc_page s i [] fuel (vm_lock _ _ _ _ _ Vm) (vm_km _ _ _ _ _ Vm)) as Ea. cbv beta iota in Ea. rewrite Ea. mred.
    destruct (freevm_built i fuel s0 l0 L d UC s lab [] Hf B) as (s' & Ef & R). change (0 =? 0) with true. cbv iota. mred. rewrite Ef. mred.
    exists (inr 0), s'. split; [done|]. right. split; [done|]. split; [done|]. eapply (copy_short s lab UC 0 x); [by right|done|done]. }
  assert (HUx : UC !! x = None) by (specialize (HC x); by rewrite decide_False in HC by lia).
  destruct (page_in i fuel d s lab p l UC x (PTE_FLAGS e) (λ m, memmove m p (frame e) PGSIZE) V Hxu HUx (PTE_FLAGS_ok e) ltac:(lia))
    as (s1 & r & s2 & lab2 & l2 & E1 & Hp0 & E2 & Hfe & _ & Hz & Hnew & Lk & Hr).
  { intros m o Ho. by rewrite rd_memmove, decide_False. }
  rewrite E1. mred. rewrite (proj2 (Z.eqb_neq p 0)) by done. unfold modmem. mred. fold (frame e). rewrite E2. mred.
  assert (HL2 : ∀ m, pt_ok m d lab2 → ∀ q lb, lab2 !! q = Some lb → lb ∈ L).
  { intros m Hpt q [k y] Hq. destruct (Hnew q k y Hq) as [?| ->]; [by eapply L0|]. apply HL, list_elem_of_fmap. exists k. split; [done|].
    destruct (pt_page _ _ _ Hpt _ _ _ Hq) as [_ ?]. set_unfold. lia. }
  assert (Hb : ∀ l' UC', uvm s2 i d lab2 l' UC' → astep s s2 lab lab2 (p :: l) l' UC UC' → built i s0 l0 L d UC' s2 lab2 l').
  { intros l' UC' V2 [S2 _ O2]. split; [done| |intros q; by rewrite O2, O0|by eapply HL2, V2].
    eapply vstep_trans; [exact S0|exact S2|done|]. intros q. apply O0. }
  destruct Hr as [(-> & V2 & A2)|(-> & -> & V2 & L2 & A2)].
  - change (0 <? 0) with false. cbv iota. mred. unfold UPAGES, PGSIZE in *. rewrite u64_small by lia. fold PGSIZE in *.
    eexists _, s2. split; [done|]. left. split; [f_equal; unfold PGSIZE; lia|]. eexists lab2, l2, _. split; [by apply Hb|]. split.
    + intros n Hn. rewrite Lk; [by apply K|]. destruct (P2V_mul n Hn) as [_ ->]. unfold UPAGES in *. lia.
    + eapply (copy_of_step x U UC _ (k_mem s)); [lia|done|done|done| |].
      * intros y e' o Hy Ho. apply (as_user _ _ _ _ _ _ _ _ A2 y e' o); [done| |done]. rewrite lookup_insert_ne; [done|]. intros ->. congruence.
      * intros o Ho. rewrite Hz by lia. rewrite rd_memmove, decide_True by (unfold PGSIZE in *; lia).
        rewrite (Hcont x e) by (done || lia). f_equal. lia.
  - change (-1 <? 0) with true. cbv iota. destruct (kfree_loose i fuel d s2 lab2 [] UC p V2 L2) as (s3 & E3 & V3 & [S3 U3 O3]). mred. rewrite E3. mred.
    assert (B3 : built i s0 l0 L d UC s3 lab2 [p]).
    { destruct A2 as [S2 _ O2]. split; [done| |intros q; by rewrite O2, O0|by eapply HL2, V3].
      eapply vstep_trans; [exact S0|eapply vstep_trans; [exact S2|exact S3|done|]|done|]; intros q; [apply O2|apply O0]. }
    destruct (freevm_built i fuel s0 l0 L d UC s3 lab2 [p] Hf B3) as (s4 & E4 & R4). rewrite E4. mred.
    exists (inr 0), s4. split; [done|]. right. split; [done|]. split; [done|]. eapply (copy_short s3 lab2 UC p x); [by left|done|done].
Qed.

Lemma copyuvm_loop nf s lab l UC x :
  built i s0 l0 L d UC s lab l → kernel_half T (k_mem s) d → copy_of x U UC (k_mem s0) (k_mem s) → 0 ≤ x ≤ pgs sz →
  (∀ y, 0 ≤ y < pgs sz → is_Some (U !! y) ∧ path y ⊆ L) → pgs sz - x < Z.of_nat nf →
  ∃ r s', loop_fuel nf (copyuvm_round pml4 sz d) (PGSIZE * x) fuel s = Ret r s' ∧
    (r = d ∧ (∃ lab' l' UC', built i s0 l0 L d UC' s' lab' l' ∧ kernel_half T (k_mem s') d ∧ copy_of (pgs sz) U UC' (k_mem s0) (k_mem s')) ∨
     r = 0 ∧ restored i s0 l0 s' ∧ Z.of_nat (length l0) ≤ Z.of_nat (length L) + pgs sz).
Proof using P Hf.
  revert s lab l UC x. induction nf as [|nf IH]; intros s lab l UC x B K HC Hx HU Hn; [lia|]. rewrite loop_fuel_S.
  destruct (decide (x = pgs sz)) as [->|Hne].
  - exists d, s. assert (copyuvm_round pml4 sz d (PGSIZE * pgs sz) fuel s = Ret (inr d) s) as ->.
    { unfold copyuvm_round. destruct (Z.ltb_spec (PGSIZE * pgs sz) sz) as [Hlt|]; [|done]. apply pgs_lt in Hlt. lia. }
    split; [done|]. left. split; [done|]. by exists lab, l, UC.
  - destruct (HU x ltac:(lia)) as [[e He] HL].
    destruct (copyuvm_round_run s lab l UC x e B K HC He ltac:(lia) HL) as (c & s1 & E & [[-> (lab1 & l1 & UC1 & B1 & K1 & HC1)]|(-> & R & Hl)]);
      rewrite E; cbn [obind].
    + apply (IH s1 lab1 l1 UC1 (x + 1)); try done; lia.
    + exists 0, s1. split; [done|]. by right.
Qed.
End copy.

(** [copyuvm] makes an address space with a copy of every page of the process,
    at the same place and with the same permissions, and the kernel's half; it
    changes no page but those that were free, so the process itself is as
    before. It fails only when there are not enough of them, and then leaves
    them all free. *)
Lemma copyuvm_run s pml4 lab l U sz T L :
  uvm s i pml4 lab l U → kmap_is (k_km s) T → kmap_ok T fuel L → pgs sz < Z.of_nat fuel → 0 ≤ sz →
  (∀ x, 0 ≤ x < pgs sz → is_Some (U !! x) ∧ path x ⊆ L) →
  ∃ r s' l', copyuvm pml4 sz fuel s = Ret r s' ∧ vstep (λ q, q ∈ l) s s' ∧ uvm s' i pml4 lab l' U ∧
    (r ≠ 0 ∧ (∃ lab' U', uvm s' i r lab' l' U' ∧ kernel_half T (k_mem s') r ∧ copy_of (pgs sz) U U' (k_mem s) (k_mem s') ∧
                ∀ q, owned lab' l' U' q ↔ q ∈ l) ∨
     r = 0 ∧ (∀ q, q ∈ l' ↔ q ∈ l) ∧ Z.of_nat (length l) ≤ Z.of_nat (length L) + pgs sz).
Proof.
  intros V Hki Hko Hf Hsz HU. pose proof (um_vm _ _ _ _ _ _ V) as Vm. destruct (ko_len _ _ _ Hko) as (_ & _ & Hf3).
  assert (Hpg : 0 ≤ pgs sz) by (apply Z.div_pos; unfold PGSIZE; lia).
  assert (Hback : ∀ s', restored i s l s' → ∃ l', vstep (λ q, q ∈ l) s s' ∧ uvm s' i pml4 lab l' U ∧ ∀ q, q ∈ l' ↔ q ∈ l).
  { intros s' (l' & [S' K' M' F']). assert (Hq : ∀ q, q ∈ l' ↔ q ∈ l) by (intros q; rewrite F'; set_solver).
    exists l'. split; [done|]. split; [|done]. eapply (uvm_other s); [done|done|done|done|]. intros q. apply Hq. }
  destruct (setupkvm_run i fuel s l T L (vm_lock _ _ _ _ _ Vm) (vm_km _ _ _ _ _ Vm) (vm_end _ _ _ _ _ Vm) Hki Hko)
    as (d & s1 & E1 & [(Hd & (labC & l1 & B1) & K1)|(-> & R & Hl)]); unfold copyuvm; rewrite (run_bind _ _ _ _ _ _ E1).
  2:{ destruct (Hback s1 R) as (l' & ? & ? & ?). exists 0, s1, l'. split; [done|]. split; [done|]. split; [done|]. right. split; [done|]. split; [done|]. lia. }
  rewrite (proj2 (Z.eqb_neq d 0)) by done. unfold whileM. replace 0 with (PGSIZE * 0) at 1 by done.
  destruct (copyuvm_loop s l L T pml4 sz d lab U V Hf3 fuel s1 labC l1 ∅ 0) as (r & s2 & E2 & Hr); try done; [|lia|].
  { intros x. by rewrite decide_False, lookup_empty by lia. }
  destruct Hr as [(-> & labD & l2 & UC & B2 & K2 & HC)|(-> & R & Hl)].
  - pose proof B2 as [V2 S2 O2 _]. pose proof (um_vm _ _ _ _ _ _ V2) as Vm2. exists d, s2, l2. split; [done|]. split; [done|]. split.
    + eapply (uvm_other s); [done|done|apply Vm2|apply Vm2|]. intros q Hq. apply O2. left. by right.
    + left. split; [done|]. by exists labD, UC.
  - destruct (Hback s2 R) as (l' & ? & ? & ?). exists 0, s2, l'. split; [done|]. split; [done|]. split; [done|]. by right.
Qed.
End copyuvm.
