(* ===== verification/Pipe.v ===== *)
(** Pipes, kernel/pipe.c ([pipealloc] is in File.v, with the file table).

    The first part is the code; [sleep] makes it give up the CPU. The second
    part runs the critical sections of any number of readers and writers in
    every order and proves that the pipe is a bounded FIFO of bytes. *)

From stdpp Require Import base list gmap strings.
From Stdlib Require Import ZArith Lia.
From S2P Require Import Prelude Ring Monad Kstate Spinlock Sched Kalloc.

(** * The ring buffer *)

Definition pi_full (p : pipe) : bool := pi_nwrite p =? u32 (pi_nread p + PIPESIZE).
Definition pi_empty (p : pipe) : bool := pi_nread p =? pi_nwrite p.

(** [p->data[p->nwrite++ % PIPESIZE] = c]. *)
Definition pi_push (c : Z) (p : pipe) : pipe :=
  mkPipe (<[Z.to_nat (pi_nwrite p mod PIPESIZE) := c]> (pi_data p)) (pi_nread p) (u32 (pi_nwrite p + 1))
    (pi_readopen p) (pi_writeopen p).
(** [p->data[p->nread++ % PIPESIZE]]. *)
Definition pi_front (p : pipe) : Z := pi_data p !!! Z.to_nat (pi_nread p mod PIPESIZE).
Definition pi_pop (p : pipe) : pipe :=
  mkPipe (pi_data p) (u32 (pi_nread p + 1)) (pi_nwrite p) (pi_readopen p) (pi_writeopen p).
Definition pi_set_readopen (v : Z) (p : pipe) : pipe :=
  mkPipe (pi_data p) (pi_nread p) (pi_nwrite p) v (pi_writeopen p).
Definition pi_set_writeopen (v : Z) (p : pipe) : pipe :=
  mkPipe (pi_data p) (pi_nread p) (pi_nwrite p) (pi_readopen p) v.

(** * Code *)

Definition get_pipe (p : Z) : K pipe := gets (λ s, k_pipes s !!! p).
Definition upd_pipe (p : Z) (f : pipe → pipe) : K unit :=
  modify (λ s, set_pipes (alter f p (k_pipes s)) s).

(** [kfree((char * )p)]: the page is no longer a pipe. *)
Definition free_pipe (p : Z) : K unit :=
  modify (λ s, set_pipes (delete p (k_pipes s)) s);;
  kfree p.

Definition pipeclose (p : Z) (writable : Z) : K unit :=
  acquire (LkPipe p);;
  (if negb (writable =? 0) then
     upd_pipe p (pi_set_writeopen 0);;
     wakeup (ChPipeR p)
   else
     upd_pipe p (pi_set_readopen 0);;
     wakeup (ChPipeW p));;
  pi ← get_pipe p;
  if ((pi_readopen pi =? 0) && (pi_writeopen pi =? 0))%bool then
    release (LkPipe p);;
    free_pipe p
  else release (LkPipe p).

(** [myproc()->killed]. *)
Definition killed : K bool :=
  p ← curproc;
  pr ← get_proc p;
  mret (negb (p_killed pr =? 0)).

(** The wait for room; [true] when the writer has to give up. *)
Definition pipewrite_wait (p : Z) : K bool :=
  whileM (λ _ : unit,
    pi ← get_pipe p;
    if negb (pi_full pi) then mret (inr false) else
    k ← (if pi_readopen pi =? 0 then mret true else killed);
    if (k : bool) then release (LkPipe p);; mret (inr true) else
    wakeup (ChPipeR p);;
    sleep (ChPipeW p) (Some (LkPipe p));;
    mret (inl tt)) tt.

Fixpoint pipewrite_loop (p : Z) (addr : list Z) : K bool :=
  match addr with
  | [] => mret false
  | c :: addr =>
      k ← pipewrite_wait p;
      if (k : bool) then mret true else
      upd_pipe p (pi_push c);;
      pipewrite_loop p addr
  end.

(** [addr] is the [n] bytes to write. *)
Definition pipewrite (p : Z) (addr : list Z) (n : Z) : K Z :=
  acquire (LkPipe p);;
  k ← pipewrite_loop p (take (Z.to_nat n) addr);
  if (k : bool) then mret (-1) else
  wakeup (ChPipeR p);;
  release (LkPipe p);;
  mret n.

Definition piperead_wait (p : Z) : K bool :=
  whileM (λ _ : unit,
    pi ← get_pipe p;
    if negb (pi_empty pi && negb (pi_writeopen pi =? 0)) then mret (inr false) else
    k ← killed;
    if (k : bool) then release (LkPipe p);; mret (inr true) else
    sleep (ChPipeR p) (Some (LkPipe p));;
    mret (inl tt)) tt.

Fixpoint piperead_loop (p : Z) (n : nat) : K (list Z) :=
  match n with
  | O => mret []
  | S n =>
      pi ← get_pipe p;
      if pi_empty pi then mret [] else
      upd_pipe p pi_pop;;
      r ← piperead_loop p n;
      mret (pi_front pi :: r)
  end.

(** The count and the bytes read. *)
Definition piperead (p n : Z) : K (Z * list Z) :=
  acquire (LkPipe p);;
  k ← piperead_wait p;
  if (k : bool) then mret (-1, []) else
  r ← piperead_loop p (Z.to_nat n);
  wakeup (ChPipeW p);;
  release (LkPipe p);;
  mret (Z.of_nat (length r), r).

(** * The queue *)

#[global] Instance pipe_ring : RingSize PIPESIZE.
Proof. split; [done|done|]. by exists (2 ^ 23). Qed.

(** [p] holds the bytes [q], oldest first. *)
Definition queue (p : pipe) (q : list Z) : Prop :=
  ring_of PIPESIZE (pi_data p) (pi_nread p) (pi_nwrite p) q.

Section queue.
Implicit Types (p : pipe) (q : list Z) (c : Z).

Lemma queue_empty p q : queue p q → pi_empty p = true ↔ q = [].
Proof. apply ring_empty, _. Qed.

Lemma queue_full p q : queue p q → pi_full p = true ↔ length q = Z.to_nat PIPESIZE.
Proof. intros H. unfold pi_full. rewrite (ring_full _ _ _ _ _ H). unfold PIPESIZE. lia. Qed.

Lemma pi_push_queue p q c : queue p q → pi_full p = false → queue (pi_push c p) (q ++ [c]).
Proof.
  intros Hq Hf. pose proof (queue_full _ _ Hq) as Hfull. rewrite Hf in Hfull.
  apply ring_push; [apply _|done|]. pose proof (ring_length _ _ _ _ _ Hq) as [Hl _].
  assert (length q ≠ Z.to_nat PIPESIZE) by naive_solver. unfold PIPESIZE in *. lia.
Qed.

Lemma pi_pop_queue p q :
  queue p q → pi_empty p = false → ∃ q', q = pi_front p :: q' ∧ queue (pi_pop p) q'.
Proof.
  intros Hq He. pose proof (queue_empty _ _ Hq) as Hemp. rewrite He in Hemp.
  destruct q as [|c q]; [naive_solver|]. destruct (ring_pop _ _ _ _ _ _ Hq) as [<- Hq']. by exists q.
Qed.

Lemma length_queue p q : queue p q → (length q ≤ Z.to_nat PIPESIZE)%nat.
Proof. intros Hq. pose proof (ring_length _ _ _ _ _ Hq). lia. Qed.
End queue.

(** * Running the code when it need not wait *)

Section run.
Context (fuel i : nat) (p : Z).
Implicit Types (s : kstate) (q : list Z).

Definition pipe_of s : pipe := k_pipes s !!! p.

Lemma upd_pipe_run f s :
  is_Some (k_pipes s !! p) →
  ∃ s', upd_pipe p f fuel s = Ret tt s' ∧ s' = set_pipes (alter f p (k_pipes s)) s ∧
    pipe_of s' = f (pipe_of s) ∧ is_Some (k_pipes s' !! p).
Proof.
  intros [pi Hpi]. eexists. split; [done|]. split; [done|]. unfold pipe_of. simpl.
  split; [|rewrite lookup_alter_eq, Hpi; by eexists].
  by rewrite lookup_total_alt, lookup_alter_eq, lookup_total_alt, Hpi.
Qed.

Definition same_but_pipe s s' : Prop := ∃ m, s' = set_pipes m s.

Lemma pipewrite_loop_run s q bs :
  (0 < fuel)%nat → is_Some (k_pipes s !! p) → queue (pipe_of s) q →
  (length q + length bs ≤ Z.to_nat PIPESIZE)%nat →
  ∃ s', pipewrite_loop p bs fuel s = Ret false s' ∧ same_but_pipe s s' ∧
    is_Some (k_pipes s' !! p) ∧ queue (pipe_of s') (q ++ bs).
Proof.
  intros Hf. revert s q. induction bs as [|c bs IH]; intros s q Hin Hq Hl.
  - exists s. split; [done|]. split; [exists (k_pipes s); by destruct s|]. by rewrite app_nil_r.
  - cbn [pipewrite_loop]. simpl in Hl.
    assert (Hnf : pi_full (pipe_of s) = false).
    { apply not_true_iff_false. rewrite (queue_full _ q) by done. lia. }
    assert (Hw : pipewrite_wait p fuel s = Ret false s).
    { unfold pipewrite_wait, whileM. destruct fuel as [|n]; [lia|]. rewrite loop_fuel_S.
      unfold get_pipe. mred. change (k_pipes s !!! p) with (pipe_of s). by rewrite Hnf. }
    rewrite (run_bind _ _ _ _ _ _ Hw).
    destruct (upd_pipe_run (pi_push c) s Hin) as (s1&E1&->&Hp1&Hin1).
    rewrite (run_bind _ _ _ _ _ _ E1).
    destruct (IH _ (q ++ [c]) Hin1) as (s2&E2&[m ->]&Hin2&Hq2).
    { rewrite Hp1. by apply pi_push_queue. }
    { rewrite length_app. simpl. lia. }
    eexists. split; [exact E2|]. split; [by eexists|]. split; [done|]. by rewrite <- app_assoc in Hq2.
Qed.

Lemma piperead_loop_run s q n :
  is_Some (k_pipes s !! p) → queue (pipe_of s) q →
  ∃ s', piperead_loop p n fuel s = Ret (take n q) s' ∧ same_but_pipe s s' ∧
    is_Some (k_pipes s' !! p) ∧ queue (pipe_of s') (drop n q).
Proof.
  revert s q. induction n as [|n IH]; intros s q Hin Hq.
  - exists s. split; [done|]. split; [exists (k_pipes s); by destruct s|]. done.
  - cbn [piperead_loop]. unfold get_pipe. mred. change (k_pipes s !!! p) with (pipe_of s).
    destruct (pi_empty (pipe_of s)) eqn:He.
    + apply (queue_empty _ _ Hq) in He as ->. mred. exists s. split; [done|].
      split; [exists (k_pipes s); by destruct s|]. done.
    + destruct (pi_pop_queue _ _ Hq He) as (q'&->&Hq'). mred.
      destruct (upd_pipe_run pi_pop s Hin) as (s1&E1&->&Hp1&Hin1). rewrite E1. mred.
      destruct (IH _ q' Hin1) as (s2&E2&[m ->]&Hin2&Hq2); [by rewrite Hp1|].
      rewrite E2. mred. eexists. split; [done|]. split; [by eexists|]. done.
Qed.

Hypothesis Hfuel : (0 < fuel)%nat.

(** A pipe and the locks its operations take. *)
Definition pipe_ready s q : Prop :=
  cpu_ok (k_ctx s) i ∧ lock_free (k_ctx s) (LkPipe p) ∧ lock_free (k_ctx s) LkPtable ∧
  is_Some (k_pipes s !! p) ∧ queue (pipe_of s) q.

Lemma pipe_exit s ch m :
  cpu_ok (k_ctx s) i → lock_free (k_ctx s) (LkPipe p) → lock_free (k_ctx s) LkPtable →
  ∃ s', (wakeup ch;; release (LkPipe p)) fuel
      (set_pipes m (set_ctx (x_acq i (LkPipe p) (k_ctx s)) s)) = Ret tt s' ∧
    k_ctx s' = k_ctx s ∧ k_pipes s' = m.
Proof.
  intros Hok Hl Hp. mred. rewrite (wakeup_run _ _ i).
  2:{ by apply cpu_ok_acq. }
  2:{ by apply lock_free_acq. }
  mred. rewrite (release_run _ _ (k_ctx s) i) by done. by eexists.
Qed.

(** With room for all of them, [pipewrite] appends its bytes to the pipe's
    queue and returns their number. *)
Theorem pipewrite_spec s q bs :
  pipe_ready s q → (length q + length bs ≤ Z.to_nat PIPESIZE)%nat →
  ∃ s', pipewrite p bs (Z.of_nat (length bs)) fuel s = Ret (Z.of_nat (length bs)) s' ∧
    pipe_ready s' (q ++ bs).
Proof.
  intros (Hok&Hl&Hp&Hin&Hq) Hroom. unfold pipewrite. mred.
  rewrite (acquire_run _ _ i) by done. mred. rewrite Nat2Z.id, take_ge by done.
  destruct (pipewrite_loop_run (set_ctx (x_acq i (LkPipe p) (k_ctx s)) s) q bs)
    as (s1&E1&[m ->]&Hin1&Hq1); [done..|].
  rewrite E1. mred. destruct (pipe_exit s (ChPipeR p) m) as (s2&E2&Hc2&Hm2); [done..|].
  revert E2. mred. destruct (wakeup _ _ _); cbn [obind]; try done. mred. intros E2. rewrite E2. mred.
  exists s2. split; [done|]. unfold pipe_ready. rewrite Hc2, Hm2. unfold pipe_of. by rewrite Hm2.
Qed.

(** From a pipe that holds bytes, or whose writers are gone, [piperead]
    returns the oldest bytes of the queue, as many as asked for and there are,
    and removes them. *)
Theorem piperead_spec s q n :
  pipe_ready s q → 0 ≤ n → q ≠ [] ∨ pi_writeopen (pipe_of s) = 0 →
  let r := take (Z.to_nat n) q in
  ∃ s', piperead p n fuel s = Ret (Z.of_nat (length r), r) s' ∧
    pipe_ready s' (drop (Z.to_nat n) q).
Proof.
  intros (Hok&Hl&Hp&Hin&Hq) Hn Hgo. cbn zeta. unfold piperead. mred.
  rewrite (acquire_run _ _ i) by done. mred.
  assert (Hw : piperead_wait p fuel (set_ctx (x_acq i (LkPipe p) (k_ctx s)) s) =
               Ret false (set_ctx (x_acq i (LkPipe p) (k_ctx s)) s)).
  { unfold piperead_wait, whileM. destruct fuel as [|f]; [lia|]. rewrite loop_fuel_S.
    unfold get_pipe. mred. change (k_pipes (set_ctx _ s) !!! p) with (pipe_of s).
    destruct Hgo as [Hne| ->].
    - assert (pi_empty (pipe_of s) = false) as ->; [|done].
      apply not_true_iff_false. by rewrite (queue_empty _ q).
    - rewrite andb_false_r. done. }
  rewrite Hw. mred.
  destruct (piperead_loop_run (set_ctx (x_acq i (LkPipe p) (k_ctx s)) s) q (Z.to_nat n))
    as (s1&E1&[m ->]&Hin1&Hq1); [done..|].
  rewrite E1. mred. destruct (pipe_exit s (ChPipeW p) m) as (s2&E2&Hc2&Hm2); [done..|].
  revert E2. mred. destruct (wakeup _ _ _); cbn [obind]; try done. mred. intros E2. rewrite E2. mred.
  exists s2. split; [done|]. unfold pipe_ready. rewrite Hc2, Hm2. unfold pipe_of. by rewrite Hm2.
Qed.
End run.

(** * Interleavings *)

(** What one thread does to the pipe while it holds the lock: push a byte, pop
    one, or close an end. [sent] and [received] record the bytes in the order
    they went in and out. *)
Record history := mkHist { h_pipe : pipe; sent : list Z; received : list Z }.

Inductive pipe_step : history → history → Prop :=
| step_push h c : pi_full (h_pipe h) = false →
    pipe_step h (mkHist (pi_push c (h_pipe h)) (sent h ++ [c]) (received h))
| step_pop h : pi_empty (h_pipe h) = false →
    pipe_step h (mkHist (pi_pop (h_pipe h)) (sent h) (received h ++ [pi_front (h_pipe h)]))
| step_close_read h : pipe_step h (mkHist (pi_set_readopen 0 (h_pipe h)) (sent h) (received h))
| step_close_write h : pipe_step h (mkHist (pi_set_writeopen 0 (h_pipe h)) (sent h) (received h)).

(** A pipe as [pipealloc] leaves it. *)
Definition new_pipe (data : list Z) : pipe := mkPipe data 0 0 1 1.

Definition pipe_inv (h : history) : Prop := ∃ q, sent h = received h ++ q ∧ queue (h_pipe h) q.

Lemma pipe_step_inv h h' : pipe_inv h → pipe_step h h' → pipe_inv h'.
Proof.
  intros (q&Hs&Hq) Hstep. inversion_clear Hstep as [? c Hf|? He|?|?]; simpl.
  - exists (q ++ [c]). simpl. rewrite Hs, app_assoc. split; [done|]. by apply pi_push_queue.
  - destruct (pi_pop_queue _ _ Hq He) as (q'&->&Hq'). exists q'. simpl. by rewrite Hs, <- app_assoc.
  - by exists q.
  - by exists q.
Qed.

