(* ===== verification/File.v ===== *)
(** Open files, kernel/file.c, and [pipealloc] of kernel/pipe.c.

    A [struct file *] is an index into [ftable.file]. *)

From stdpp Require Import base list gmap strings.
From Stdlib Require Import ZArith Lia.
From S2P Require Import Prelude Bytes Monad Kstate Spinlock Sched Cons Bio Log Fs Kalloc Pipe.

(** * Code *)

Definition get_file (f : nat) : K file := gets (λ s, k_ft s !!! f).
Definition upd_file (f : nat) (g : file → file) : K unit :=
  modify (λ s, set_ft (alter g f (k_ft s)) s).

Definition file_set_ref (v : Z) (f : file) : file :=
  mkFile (f_type f) v (f_readable f) (f_writable f) (f_pipe f) (f_ip f) (f_off f).
Definition file_set_off (v : Z) (f : file) : file :=
  mkFile (f_type f) (f_ref f) (f_readable f) (f_writable f) (f_pipe f) (f_ip f) v.
Definition file_set_type (v : filetype) (f : file) : file :=
  mkFile v (f_ref f) (f_readable f) (f_writable f) (f_pipe f) (f_ip f) (f_off f).
(** The assignments of [pipealloc] to an end of the pipe. *)
Definition file_set_pipe (p readable writable : Z) (f : file) : file :=
  mkFile FD_PIPE (f_ref f) readable writable p (f_ip f) (f_off f).
(** The assignments of [sys_open]. *)
Definition file_set_inode (ip : nat) (readable writable : Z) (f : file) : file :=
  mkFile FD_INODE (f_ref f) readable writable (f_pipe f) (Some ip) 0.

Definition fileinit : K unit := initlock LkFtable "ftable".

Definition filealloc_one (f : Z) : K (option nat) :=
  let f := Z.to_nat f in
  ff ← get_file f;
  if f_ref ff =? 0 then
    upd_file f (file_set_ref 1);;
    release LkFtable;;
    mret (Some f)
  else mret None.

Definition filealloc : K (option nat) :=
  acquire LkFtable;;
  r ← forM NFILE 0 filealloc_one;
  match r with
  | Some f => mret (Some f)
  | None => release LkFtable;; mret None
  end.

Definition filedup (f : nat) : K nat :=
  acquire LkFtable;;
  ff ← get_file f;
  if f_ref ff <? 1 then panic "filedup" else
  upd_file f (file_set_ref (f_ref ff + 1));;
  release LkFtable;;
  mret f.

(** [f->ip] where the code dereferences it. *)
Definition file_ip (f : file) : K nat :=
  match f_ip f with
  | Some ip => mret ip
  | None => panic "null pointer dereference"
  end.

Definition fileclose (f : nat) : K unit :=
  acquire LkFtable;;
  ff ← get_file f;
  if f_ref ff <? 1 then panic "fileclose" else
  upd_file f (file_set_ref (f_ref ff - 1));;
  if 0 <? f_ref ff - 1 then release LkFtable else
  ff ← get_file f;
  upd_file f (file_set_ref 0);;
  upd_file f (file_set_type FD_NONE);;
  release LkFtable;;
  match f_type ff with
  | FD_PIPE => pipeclose (f_pipe ff) (f_writable ff)
  | FD_INODE =>
      begin_op;;
      ip ← file_ip ff;
      iput ip;;
      end_op
  | FD_NONE => mret tt
  end.

(** The status is the second component. *)
Definition filestat (f : nat) : K (Z * option stat) :=
  ff ← get_file f;
  if bool_decide (f_type ff = FD_INODE) then
    ilock (f_ip ff);;
    ip ← file_ip ff;
    st ← stati ip;
    iunlock (f_ip ff);;
    mret (0, Some st)
  else mret (-1, None).

Section io.
Context (devsw : Z → devops).

Definition fileread (f : nat) (n : Z) : K (Z * list Z) :=
  ff ← get_file f;
  if f_readable ff =? 0 then mret (-1, []) else
  match f_type ff with
  | FD_PIPE => piperead (f_pipe ff) n
  | FD_INODE =>
      ilock (f_ip ff);;
      ip ← file_ip ff;
      ff' ← get_file f;
      r ← readi devsw ip (f_off ff') (u32 n);
      whenM (0 <? r.1) (upd_file f (λ g, file_set_off (u32 (f_off g + r.1)) g));;
      iunlock (f_ip ff);;
      mret r
  | FD_NONE => panic "fileread"
  end.

(** The most bytes one transaction may write. *)
Definition filewrite_max : Z := ((MAXOPBLOCKS - 1 - 1 - 2) / 2) * 512.

(** The loop of [filewrite]; it ends with the bytes written. *)
Definition filewrite_loop (f : nat) (addr : list Z) (n : Z) : K Z :=
  whileM (λ i,
    if negb (i <? n) then mret (inr i) else
    ff ← get_file f;
    ip ← file_ip ff;
    ino ← get_inode ip;
    let n1 := n - i in
    let n1 := if (negb (i_type ino =? T_DEV) && (filewrite_max <? n1))%bool then filewrite_max else n1 in
    begin_op;;
    ilock (Some ip);;
    ff ← get_file f;
    r ← writei devsw ip (drop (Z.to_nat i) addr) (f_off ff) (u32 n1);
    whenM (0 <? r) (upd_file f (λ g, file_set_off (u32 (f_off g + r)) g));;
    iunlock (Some ip);;
    end_op;;
    if r <? 0 then mret (inr i) else
    if negb (r =? n1) then panic "short filewrite" else
    mret (inl (i + r))) 0.

Definition filewrite (f : nat) (addr : list Z) (n : Z) : K Z :=
  ff ← get_file f;
  if f_writable ff =? 0 then mret (-1) else
  match f_type ff with
  | FD_PIPE => pipewrite (f_pipe ff) addr n
  | FD_INODE =>
      i ← filewrite_loop f addr n;
      mret (if i =? n then n else -1)
  | FD_NONE => panic "filewrite"
  end.
End io.

(** The bytes of a page that become [p->data]; sizeof(struct spinlock) is 104. *)
Definition pipe_data_off : Z := 104.

Definition pipealloc : K (option (nat * nat)) :=
  f0 ← filealloc;
  match f0 with
  | None => mret None
  | Some f0 =>
      f1 ← filealloc;
      match f1 with
      | None => fileclose f0;; mret None
      | Some f1 =>
          p ← kalloc;
          if p =? 0 then
            fileclose f0;;
            fileclose f1;;
            mret None
          else
            data ← getmem (λ m, rd_bytes m (p + pipe_data_off) (Z.to_nat PIPESIZE));
            modify (λ s, set_pipes (<[p := new_pipe data]> (k_pipes s)) s);;
            initlock (LkPipe p) "pipe";;
            upd_file f0 (file_set_pipe p 1 0);;
            upd_file f1 (file_set_pipe p 0 1);;
            mret (Some (f0, f1))
      end
  end.
