(* ===== verification/Proc.v ===== *)
(** Processes, kernel/proc.c: allocation, fork, exit, wait, the scheduler.

    The saved kernel context of a thread is the continuation of its [Swtch];
    the words [allocproc] stores on the new kernel stack for [swtch] and
    [trapret] to return through are part of that continuation and not of the
    state. The trap frame at the top of the kernel stack is the field [p_tf]. *)

From stdpp Require Import base list gmap strings.
From Stdlib Require Import ZArith Lia.
From S2P Require Import Prelude Seg CString Bytes Sprintf Monad Kstate Spinlock Sched Cons Bio Log Fs Kalloc Vm Pipe File.

(** * Fields *)

Definition proc_set_pid (v : Z) (p : proc) : proc :=
  mkProc (p_sz p) (p_pml4 p) (p_kstack p) (p_state p) v (p_parent p) (p_tf p) (p_chan p)
    (p_killed p) (p_ofile p) (p_cwd p) (p_name p).
Definition proc_set_kstack (v : Z) (p : proc) : proc :=
  mkProc (p_sz p) (p_pml4 p) v (p_state p) (p_pid p) (p_parent p) (p_tf p) (p_chan p)
    (p_killed p) (p_ofile p) (p_cwd p) (p_name p).
Definition proc_set_pml4 (v : Z) (p : proc) : proc :=
  mkProc (p_sz p) v (p_kstack p) (p_state p) (p_pid p) (p_parent p) (p_tf p) (p_chan p)
    (p_killed p) (p_ofile p) (p_cwd p) (p_name p).
Definition proc_set_sz (v : Z) (p : proc) : proc :=
  mkProc v (p_pml4 p) (p_kstack p) (p_state p) (p_pid p) (p_parent p) (p_tf p) (p_chan p)
    (p_killed p) (p_ofile p) (p_cwd p) (p_name p).
Definition proc_set_parent (v : option nat) (p : proc) : proc :=
  mkProc (p_sz p) (p_pml4 p) (p_kstack p) (p_state p) (p_pid p) v (p_tf p) (p_chan p)
    (p_killed p) (p_ofile p) (p_cwd p) (p_name p).
Definition proc_set_tf (v : trapframe) (p : proc) : proc :=
  mkProc (p_sz p) (p_pml4 p) (p_kstack p) (p_state p) (p_pid p) (p_parent p) v (p_chan p)
    (p_killed p) (p_ofile p) (p_cwd p) (p_name p).
Definition proc_set_ofile (v : list (option nat)) (p : proc) : proc :=
  mkProc (p_sz p) (p_pml4 p) (p_kstack p) (p_state p) (p_pid p) (p_parent p) (p_tf p) (p_chan p)
    (p_killed p) v (p_cwd p) (p_name p).
Definition proc_set_cwd (v : option nat) (p : proc) : proc :=
  mkProc (p_sz p) (p_pml4 p) (p_kstack p) (p_state p) (p_pid p) (p_parent p) (p_tf p) (p_chan p)
    (p_killed p) (p_ofile p) v (p_name p).
Definition proc_set_name (v : list Z) (p : proc) : proc :=
  mkProc (p_sz p) (p_pml4 p) (p_kstack p) (p_state p) (p_pid p) (p_parent p) (p_tf p) (p_chan p)
    (p_killed p) (p_ofile p) (p_cwd p) v.

Definition tf_set_rax (v : Z) (t : trapframe) : trapframe :=
  mkTf (tf_gs t) (tf_fs t) (tf_es t) (tf_ds t) (tf_r9 t) (tf_r8 t) (tf_rcx t) (tf_rdx t) (tf_rsi t)
    (tf_rdi t) v (tf_r15 t) (tf_r14 t) (tf_r13 t) (tf_r12 t) (tf_rbp t) (tf_rbx t) (tf_trapno t)
    (tf_err t) (tf_rip t) (tf_cs t) (tf_rflags t) (tf_rsp t) (tf_ss t).

(** [safestrcpy(p->name, s, sizeof(p->name))] on the 16 bytes of a name: the
    bytes after the NUL keep their value. *)
Definition set_name (src name : list Z) : list Z := splice 0 (cstr src 15 ++ [0]) name.

(** * Allocation *)

Definition pinit : K unit := initlock LkPtable "ptable".

Definition nextpid : K Z :=
  pid ← gets (λ s, pt_nextpid (k_pt s));
  modify (λ s, set_pt (mkPtab (pt_proc (k_pt s)) (pt_initproc (k_pt s)) (s32 (pid + 1))) s);;
  mret pid.

(** The first slot of the table that passes a test. *)
Definition find_proc (test : proc → bool) : K (option nat) :=
  t ← gets (λ s, pt_proc (k_pt s));
  forM NPROC 0 (λ i, mret (if test (t !!! Z.to_nat i) then Some (Z.to_nat i) else None)).

Definition allocproc : K (option nat) :=
  acquire LkPtable;;
  r ← find_proc (λ p, bool_decide (p_state p = UNUSED));
  match r with
  | None => release LkPtable;; mret None
  | Some p =>
      upd_proc p (proc_set_state EMBRYO);;
      pid ← nextpid;
      upd_proc p (proc_set_pid pid);;
      release LkPtable;;
      k ← kalloc;
      upd_proc p (proc_set_kstack k);;
      if k =? 0 then
        upd_proc p (proc_set_state UNUSED);;
        mret None
      else mret (Some p)
  end.

Section procs.
Context (devsw : Z → devops).

(** [initcode] is the image the linker put in the kernel. *)
Definition userinit (initcode : list Z) : K unit :=
  r ← allocproc;
  modify (λ s, set_pt (mkPtab (pt_proc (k_pt s)) r (pt_nextpid (k_pt s))) s);;
  match r with
  | None => null_deref
  | Some p =>
      pml4 ← setupkvm;
      upd_proc p (proc_set_pml4 pml4);;
      if pml4 =? 0 then panic "userinit: out of memory?" else
      inituvm pml4 initcode (Z.of_nat (length initcode));;
      upd_proc p (proc_set_sz PGSIZE);;
      let cs := Z.lor (Z.shiftl SEG_UCODE 3) DPL_USER in
      let ds := Z.lor (Z.shiftl SEG_UDATA 3) DPL_USER in
      upd_proc p (proc_set_tf
        (mkTf 0 0 ds ds 0 0 0 0 0 0 0 0 0 0 0 0 0 0 0 0 cs FL_IF PGSIZE ds));;
      upd_proc p (λ pr, proc_set_name (set_name (str "initcode") (p_name pr)) pr);;
      cwd ← namei devsw (str "/");
      upd_proc p (proc_set_cwd cwd);;
      acquire LkPtable;;
      upd_proc p (proc_set_state RUNNABLE);;
      release LkPtable
  end.

(** The new size, from [allocuvm] or [deallocuvm]. *)
Definition new_size (pml4 sz n : Z) : K Z :=
  if 0 <? n then r ← allocuvm pml4 sz (u32 (sz + n)) (Z.lor PTE_XD PTE_W); mret (u32 r)
  else if n <? 0 then r ← deallocuvm pml4 sz (u32 (sz + n)); mret (u32 r)
  else mret sz.

Definition growproc (n : Z) : K Z :=
  p ← curproc;
  pr ← get_proc p;
  r ← new_size (p_pml4 pr) (u32 (p_sz pr)) n;
  if (negb (n =? 0) && (r =? 0))%bool then mret (-1) else
  upd_proc p (proc_set_sz r);;
  switchuvm (Some p);;
  mret 0.

(** [np->ofile[i] = filedup(curproc->ofile[i])] for the open files. *)
Definition fork_file (np p : nat) (i : Z) : K (option unit) :=
  pr ← get_proc p;
  match p_ofile pr !!! Z.to_nat i with
  | Some f =>
      f ← filedup f;
      upd_proc np (λ q, proc_set_ofile (<[Z.to_nat i := Some f]> (p_ofile q)) q);;
      mret None
  | None => mret None
  end.

(** [fork] once it has tried to copy the address space. *)
Definition fork_into (p np : nat) (pml4 : Z) : K Z :=
  upd_proc np (proc_set_pml4 pml4);;
  if pml4 =? 0 then
    npr ← get_proc np;
    kfree (p_kstack npr);;
    upd_proc np (proc_set_kstack 0);;
    upd_proc np (proc_set_state UNUSED);;
    mret (-1)
  else
    pr ← get_proc p;
    upd_proc np (proc_set_sz (p_sz pr));;
    upd_proc np (proc_set_parent (Some p));;
    upd_proc np (proc_set_tf (tf_set_rax 0 (p_tf pr)));;
    forM NOFILE 0 (fork_file np p);;
    pr ← get_proc p;
    match p_cwd pr with
    | None => null_deref
    | Some cwd =>
        cwd ← idup cwd;
        upd_proc np (proc_set_cwd (Some cwd));;
        upd_proc np (λ q, proc_set_name (set_name (p_name pr) (p_name q)) q);;
        npr ← get_proc np;
        acquire LkPtable;;
        upd_proc np (proc_set_state RUNNABLE);;
        release LkPtable;;
        mret (p_pid npr)
    end.

Definition fork : K Z :=
  p ← curproc;
  r ← allocproc;
  match r with
  | None => mret (-1)
  | Some np =>
      pr ← get_proc p;
      pml4 ← copyuvm (p_pml4 pr) (p_sz pr);
      fork_into p np pml4
  end.

(** * Exit and wait *)

Definition exit_file (p : nat) (fd : Z) : K (option unit) :=
  pr ← get_proc p;
  match p_ofile pr !!! Z.to_nat fd with
  | Some f =>
      fileclose f;;
      upd_proc p (λ q, proc_set_ofile (<[Z.to_nat fd := None]> (p_ofile q)) q);;
      mret None
  | None => mret None
  end.

(** [wakeup1(q)] for a process pointer. *)
Definition wakeup_proc (q : option nat) : K unit :=
  match q with
  | Some q => wakeup1 (ChProc q)
  | None => mret tt
  end.

(** Pass one abandoned child to init. *)
Definition reparent (p : nat) (init : option nat) (i : Z) : K (option unit) :=
  let q := Z.to_nat i in
  pr ← get_proc q;
  if bool_decide (p_parent pr = Some p) then
    upd_proc q (proc_set_parent init);;
    whenM (bool_decide (p_state pr = ZOMBIE)) (wakeup_proc init);;
    mret None
  else mret None.

Definition exit : K unit :=
  p ← curproc;
  init ← gets (λ s, pt_initproc (k_pt s));
  if bool_decide (Some p = init) then panic "init exiting" else
  forM NOFILE 0 (exit_file p);;
  begin_op;;
  pr ← get_proc p;
  match p_cwd pr with
  | None => null_deref
  | Some cwd =>
      iput cwd;;
      end_op;;
      upd_proc p (proc_set_cwd None);;
      acquire LkPtable;;
      pr ← get_proc p;
      wakeup_proc (p_parent pr);;
      forM NPROC 0 (reparent p init);;
      upd_proc p (proc_set_state ZOMBIE);;
      sched;;
      panic "zombie exit"
  end.

(** One slot of the scan in [wait]; [inl] when it is a child still alive,
    [inr] the pid of a zombie that was reaped. *)
Definition wait_slot (p i : nat) (havekids : bool) : K (bool + Z) :=
  pr ← get_proc i;
  if negb (bool_decide (p_parent pr = Some p)) then mret (inl havekids) else
  if bool_decide (p_state pr = ZOMBIE) then
    kfree (p_kstack pr);;
    upd_proc i (proc_set_kstack 0);;
    freevm (p_pml4 pr);;
    upd_proc i (proc_set_pid 0);;
    upd_proc i (proc_set_parent None);;
    upd_proc i (λ q, proc_set_name (<[0%nat := 0]> (p_name q)) q);;
    upd_proc i (proc_set_killed 0);;
    upd_proc i (proc_set_state UNUSED);;
    release LkPtable;;
    mret (inr (p_pid pr))
  else mret (inl true).

Fixpoint wait_scan (p : nat) (n i : nat) (havekids : bool) : K (bool + Z) :=
  match n with
  | O => mret (inl havekids)
  | S n =>
      r ← wait_slot p i havekids;
      match r with
      | inl havekids => wait_scan p n (S i) havekids
      | inr pid => mret (inr pid)
      end
  end.

(** One round of the loop of [wait]. *)
Definition wait_round (p : nat) (_ : unit) : K (unit + Z) :=
  r ← wait_scan p NPROC 0 false;
  match r with
  | inr pid => mret (inr pid)
  | inl havekids =>
      pr ← get_proc p;
      if (negb havekids || negb (p_killed pr =? 0))%bool then
        release LkPtable;;
        mret (inr (-1))
      else
        sleep (ChProc p) (Some LkPtable);;
        mret (inl tt)
  end.

Definition wait : K Z :=
  p ← curproc;
  acquire LkPtable;;
  whileM (wait_round p) tt.

(** * Running processes *)

Definition sched_slot (i : nat) (p : Z) : K (option unit) :=
  let p := Z.to_nat p in
  pr ← get_proc p;
  if negb (bool_decide (p_state pr = RUNNABLE)) then mret None else
  upd_cpu i (cpu_set_proc (Some p));;
  switchuvm (Some p);;
  upd_proc p (proc_set_state RUNNING);;
  swtch;;
  switchkvm;;
  upd_cpu i (cpu_set_proc None);;
  mret None.

(** One round of the loop that never ends. *)
Definition scheduler_round (i : nat) : K unit :=
  sti;;
  acquire LkPtable;;
  forM NPROC 0 (sched_slot i);;
  release LkPtable.

Definition scheduler : K unit :=
  i ← mycpu;
  upd_cpu i (cpu_set_proc None);;
  whileM (λ _ : unit, scheduler_round i;; mret (inl tt)) tt.

(** [first] is the static flag. *)
Definition forkret (first : bool) : K bool :=
  release LkPtable;;
  if first then
    iinit ROOTDEV;;
    initlog ROOTDEV;;
    mret false
  else mret first.

Definition state_name (st : procstate) : list Z :=
  match st with
  | UNUSED => str "unused"
  | EMBRYO => str "embryo"
  | SLEEPING => str "sleep "
  | RUNNABLE => str "runble"
  | RUNNING => str "run   "
  | ZOMBIE => str "zombie"
  end.

(** [pcs] is what [getcallerpcs] finds on the stack. *)
Definition procdump (pcs : list Z) : K unit :=
  forM NPROC 0 (λ i,
    pr ← get_proc (Z.to_nat i);
    if bool_decide (p_state pr = UNUSED) then mret (None (A := unit)) else
    cprintf (str "%d %s %s") [VInt (p_pid pr); VStr (state_name (p_state pr)); VStr (cstr (p_name pr) 16)];;
    whenM (bool_decide (p_state pr = SLEEPING))
      (forM 10 0 (λ k,
         let pc := pcs !!! Z.to_nat k in
         if pc =? 0 then mret (Some tt) else cprintf (str " %x") [VLong pc];; mret None);;
       mret tt);;
    cprintf [10] [];;
    mret None);;
  mret tt.
End procs.
