(* ===== verification/Fork.v ===== *)
(** The life of a process, kernel/proc.c: what [fork], [wait] and [growproc] do
    to the process table, the open files and the memory. *)

From stdpp Require Import base list gmap strings.
From Stdlib Require Import ZArith Lia.
From S2P Require Import Prelude Seg CString Bytes Sprintf Monad Kstate Spinlock Sched Cons Fs Kalloc Vm Paging Uvm Uspace File Proc.

(** * Open files *)

(** How often a file is among those of a list of descriptors, of a process, of
    a table of processes. *)
Definition times (f : nat) (os : list (option nat)) : nat := length (filter (λ o, o = Some f) os).
Definition refs (f : nat) (t : list proc) : nat := sum_list_with (λ q, times f (p_ofile q)) t.

(** The file table with a reference more for each of the descriptors. *)
Definition dup_files (os : list (option nat)) (ft : list file) : list file :=
  imap (λ f ff, file_set_ref (f_ref ff + Z.of_nat (times f os)) ff) ft.

(** The process table fits the file table: every reference is counted, and a
    slot that is not in use, or whose process has exited, has none. *)
Record procs_ok (s : kstate) : Prop := mkProcs {
  pr_len : length (pt_proc (k_pt s)) = NPROC;
  pr_files q pr : pt_proc (k_pt s) !! q = Some pr →
    length (p_ofile pr) = NOFILE ∧ ∀ f, Some f ∈ p_ofile pr → (f < length (k_ft s))%nat;
  pr_idle q pr : pt_proc (k_pt s) !! q = Some pr → p_state pr = UNUSED ∨ p_state pr = ZOMBIE → p_ofile pr = replicate NOFILE None;
  pr_refs f ff : k_ft s !! f = Some ff → f_ref ff = Z.of_nat (refs f (pt_proc (k_pt s)))
}.

Section files.
Implicit Types (s : kstate) (os : list (option nat)) (t : list proc) (ft : list file).

Lemma times_app f os os' : times f (os ++ os') = (times f os + times f os')%nat.
Proof. unfold times. by rewrite filter_app, length_app. Qed.

Lemma times_none f n : times f (replicate n None) = 0%nat.
Proof. unfold times. induction n as [|n IH]; [done|]. simpl. by rewrite filter_cons_False. Qed.

Lemma times_one f g : times f [Some g] = if decide (f = g) then 1%nat else 0%nat.
Proof. unfold times. case_decide; [by rewrite filter_cons_True by congruence|by rewrite filter_cons_False by congruence]. Qed.

Lemma times_in f os : Some f ∈ os → (1 ≤ times f os)%nat.
Proof.
  intros (os1 & os2 & ->)%list_elem_of_split. rewrite times_app. unfold times at 2. rewrite filter_cons_True by done. simpl. lia.
Qed.

Lemma refs_insert f t n q q' : t !! n = Some q → (refs f (<[n := q']> t) + times f (p_ofile q) = refs f t + times f (p_ofile q'))%nat.
Proof.
  intros Hn. pose proof (lookup_lt_Some _ _ _ Hn). rewrite insert_take_drop by done. rewrite <- (take_drop_middle _ _ _ Hn) at 3.
  unfold refs. rewrite !sum_list_with_app. simpl. lia.
Qed.

Lemma refs_in f t n q : t !! n = Some q → Some f ∈ p_ofile q → (1 ≤ refs f t)%nat.
Proof.
  intros Hn Hf. rewrite <- (take_drop_middle _ _ _ Hn). unfold refs. rewrite sum_list_with_app. simpl. apply times_in in Hf. lia.
Qed.

Lemma dup_files_idle n ft : dup_files (replicate n None) ft = ft.
Proof.
  unfold dup_files. apply list_eq. intros f. rewrite list_lookup_imap, times_none. destruct (ft !! f) as [[]|]; [|done]. simpl. by rewrite Z.add_0_r.
Qed.

Lemma dup_files_None os ft : dup_files (os ++ [None]) ft = dup_files os ft.
Proof.
  unfold dup_files. apply list_eq. intros f. rewrite !list_lookup_imap. rewrite times_app. destruct (ft !! f); [|done].
  simpl. do 3 f_equal. change (times f [None]) with 0%nat. lia.
Qed.

Lemma dup_files_Some os ft f ff :
  dup_files os ft !! f = Some ff → alter (file_set_ref (f_ref ff + 1)) f (dup_files os ft) = dup_files (os ++ [Some f]) ft.
Proof.
  intros Hf. apply list_eq. intros g. rewrite list_lookup_alter. case_decide as E; [subst g; rewrite Hf|];
    revert Hf; unfold dup_files; rewrite !list_lookup_imap, ?times_app, times_one.
  - rewrite decide_True by done. destruct (ft !! f) as [[]|]; intros [= <-]. simpl. unfold file_set_ref. simpl. do 2 f_equal. lia.
  - intros _. rewrite decide_False by done. destruct (ft !! g); [|done]. simpl. do 3 f_equal. lia.
Qed.

Lemma filedup_run fuel s i f ff :
  cpu_ok (k_ctx s) i → lock_free (k_ctx s) LkFtable → k_ft s !! f = Some ff → 1 ≤ f_ref ff →
  filedup f fuel s = Ret f (set_ft (alter (file_set_ref (f_ref ff + 1)) f (k_ft s)) s).
Proof.
  intros Hok Hl Hf Hr. unfold filedup, get_file, upd_file. mred. rewrite (acquire_run _ _ i) by done. mred. cbn [k_ft set_ctx].
  rewrite (list_lookup_total_correct _ _ _ Hf), (proj2 (Z.ltb_ge _ _)) by lia. mred.
  by rewrite (release_run _ _ (k_ctx s) i) by done.
Qed.

Lemma idup_run fuel s i c :
  cpu_ok (k_ctx s) i → lock_free (k_ctx s) LkIcache →
  idup c fuel s = Ret c (set_ic (alter (λ n, inode_set_ref (i_ref n + 1) n) c (k_ic s)) s).
Proof.
  intros Hok Hl. unfold idup, upd_inode. mred. rewrite (acquire_run _ _ i) by done. mred.
  by rewrite (release_run _ _ (k_ctx s) i) by done.
Qed.

(** The table with a process put in a slot that was not in use. *)
Lemma procs_ok_slot s s' np q x :
  procs_ok s → pt_proc (k_pt s) !! np = Some q → p_ofile q = replicate NOFILE None →
  pt_proc (k_pt s') = <[np := x]> (pt_proc (k_pt s)) → k_ft s' = dup_files (p_ofile x) (k_ft s) →
  length (p_ofile x) = NOFILE → (∀ f, Some f ∈ p_ofile x → (f < length (k_ft s))%nat) →
  (p_state x = UNUSED ∨ p_state x = ZOMBIE → p_ofile x = replicate NOFILE None) → procs_ok s'.
Proof.
  intros [H1 H2 H3 H4] Hn Hq Et Ef Hl Hx Hi. pose proof (lookup_lt_Some _ _ _ Hn) as Hlt.
  assert (Hat : ∀ j y, pt_proc (k_pt s') !! j = Some y → y = x ∨ pt_proc (k_pt s) !! j = Some y).
  { intros j y. rewrite Et. destruct (decide (np = j)) as [<-|]; [rewrite list_lookup_insert_eq by done; left; congruence|].
    rewrite list_lookup_insert_ne by done. by right. }
  assert (El : length (k_ft s') = length (k_ft s)) by (rewrite Ef; unfold dup_files; by rewrite length_imap).
  split.
  - by rewrite Et, length_insert.
  - intros j y Hj. rewrite El. destruct (Hat j y Hj) as [->|Hy]; [done|by eapply H2].
  - intros j y Hj. destruct (Hat j y Hj) as [->|Hy]; [done|by eapply H3].
  - intros f ff. rewrite Ef, Et. unfold dup_files. rewrite list_lookup_imap. destruct (k_ft s !! f) as [ff0|] eqn:E0; [|done]. intros [= <-].
    simpl. rewrite (H4 f ff0 E0). pose proof (refs_insert f _ np q x Hn) as Hr. rewrite Hq, times_none in Hr. lia.
Qed.

Lemma procs_ok_dup s p pr : procs_ok s → pt_proc (k_pt s) !! p = Some pr → ∀ f, Some f ∈ p_ofile pr → ∃ ff, k_ft s !! f = Some ff ∧ 1 ≤ f_ref ff.
Proof.
  intros H Hp f Hf. destruct (pr_files _ H _ _ Hp) as [_ Hlt]. destruct (lookup_lt_is_Some_2 _ _ (Hlt f Hf)) as [ff Hff].
  exists ff. split; [done|]. rewrite (pr_refs _ H _ _ Hff). pose proof (refs_in f _ p pr Hp Hf). lia.
Qed.
End files.

(** * Allocation *)

(** The slot [allocproc] hands out, and the table with it. *)
Definition slot (k pid : Z) (st : procstate) (q : proc) : proc := proc_set_kstack k (proc_set_pid pid (proc_set_state st q)).
Definition with_slot (t : ptab) (np : nat) (q : proc) : ptab :=
  mkPtab (<[np := q]> (pt_proc t)) (pt_initproc t) (s32 (pt_nextpid t + 1)).

(** What [kalloc] leaves. *)
Definition kalloced (s : kstate) : kstate := set_km (km_set_freelist (rd64 (k_mem s) (kmem_freelist (k_km s))) (k_km s)) s.

Section allocproc.
Context (fuel : nat) (i : nat).
Implicit Types (s : kstate) (t : list proc).

Lemma find_proc_run (P : proc → Prop) `{∀ q, Decision (P q)} s :
  length (pt_proc (k_pt s)) = NPROC →
  find_proc (λ q, bool_decide (P q)) fuel s = Ret (fst <$> list_find P (pt_proc (k_pt s))) s.
Proof.
  intros Hlen. unfold find_proc. mred. set (t := pt_proc (k_pt s)) in *.
  destruct (list_find P t) as [[n q]|] eqn:E; cbn [fmap option_fmap option_map fst].
  - apply list_find_Some in E as (Hn & Hq & Hmin). pose proof (lookup_lt_Some _ _ _ Hn) as Hlt.
    apply (forM_find (λ j, if bool_decide (P (t !!! Z.to_nat j)) then Some (Z.to_nat j) else None) _ _ n); [|rewrite Z.add_0_l, Nat2Z.id|lia].
    + intros j Hj. rewrite bool_decide_false; [done|]. destruct (lookup_lt_is_Some_2 t (Z.to_nat j) ltac:(lia)) as [q' Hq'].
      rewrite (list_lookup_total_correct _ _ _ Hq'). apply (Hmin _ _ Hq'). lia.
    + by rewrite (list_lookup_total_correct _ _ _ Hn), bool_decide_true.
  - apply list_find_None in E. rewrite Forall_lookup in E.
    apply (forM_none (λ j, if bool_decide (P (t !!! Z.to_nat j)) then Some (Z.to_nat j) else None)). intros j Hj.
    rewrite bool_decide_false; [done|]. destruct (lookup_lt_is_Some_2 t (Z.to_nat j) ltac:(lia)) as [q' Hq'].
    rewrite (list_lookup_total_correct _ _ _ Hq'). by eapply E.
Qed.

(** [upd_proc] of a slot that was just assigned. *)
Lemma alter_insert_slot (f : proc → proc) t n q : (n < length t)%nat → alter f n (<[n := q]> t) = <[n := f q]> t.
Proof.
  intros Hn. apply list_eq. intros j. rewrite list_lookup_alter. case_decide as E; [subst j|].
  - by rewrite !list_lookup_insert_eq by done.
  - by rewrite !list_lookup_insert_ne by done.
Qed.

Lemma alter_slot (f : proc → proc) t n q : t !! n = Some q → alter f n t = <[n := f q]> t.
Proof. intros Hn. rewrite <- (list_insert_id t n q Hn) at 1. apply alter_insert_slot. by eapply lookup_lt_Some. Qed.

Lemma allocproc_run s :
  cpu_ok (k_ctx s) i → lock_free (k_ctx s) LkPtable → km_lockable s i → length (pt_proc (k_pt s)) = NPROC →
  allocproc fuel s =
    match list_find (λ q, p_state q = UNUSED) (pt_proc (k_pt s)) with
    | None => Ret None s
    | Some (np, q) =>
        let k := kmem_freelist (k_km s) in
        if k =? 0 then Ret None (set_pt (with_slot (k_pt s) np (slot 0 (pt_nextpid (k_pt s)) UNUSED q)) s)
        else Ret (Some np) (set_pt (with_slot (k_pt s) np (slot k (pt_nextpid (k_pt s)) EMBRYO q)) (kalloced s))
    end.
Proof.
  intros Hok Hl Hkm Hlen. unfold allocproc. rewrite (run_bind _ _ _ _ _ _ (acquire_run _ _ i _ Hok Hl)).
  rewrite (run_bind _ _ _ _ _ _ (find_proc_run (λ q, p_state q = UNUSED) (set_ctx (x_acq i LkPtable (k_ctx s)) s) Hlen)).
  change (k_pt (set_ctx _ s)) with (k_pt s).
  destruct (list_find _ _) as [[np q]|] eqn:E; cbn [fmap option_fmap option_map fst].
  2:{ mred. rewrite (release_run _ _ (k_ctx s) i) by done. mred. by rewrite set_ctx_set_ctx, set_ctx_id. }
  apply list_find_Some in E as (Hn & _). pose proof (lookup_lt_Some _ _ _ Hn) as Hlt.
  unfold upd_proc, upd_procs, nextpid. mred.
  rewrite (release_run _ _ (k_ctx s) i) by done. mred.
  set (s1 := set_ctx (k_ctx s) _). assert (s1 = set_pt (with_slot (k_pt s) np (slot (p_kstack q) (pt_nextpid (k_pt s)) EMBRYO q)) s) as ->.
  { unfold s1, with_slot, pt_upd. cbn [k_pt set_pt set_ctx pt_proc pt_initproc pt_nextpid].
    rewrite (alter_slot _ _ _ _ Hn), alter_insert_slot by done. by destruct s, q. }
  rewrite (kalloc_run _ i) by done. cbn zeta. cbn [k_km set_pt k_mem]. mred.
  destruct (kmem_freelist (k_km s) =? 0) eqn:Ek; mred; unfold pt_upd, with_slot, kalloced;
    cbn [k_pt set_pt set_km pt_proc pt_initproc pt_nextpid]; rewrite !alter_insert_slot by done; [|done].
  apply Z.eqb_eq in Ek. by rewrite Ek.
Qed.
End allocproc.

(** Working on a slot of the table. *)
Lemma upd_slot fuel T np x s f :
  (np < length (pt_proc T))%nat →
  upd_proc np f fuel (set_pt (with_slot T np x) s) = Ret tt (set_pt (with_slot T np (f x)) s).
Proof.
  intros Hlt. unfold upd_proc, upd_procs. mred. unfold pt_upd, with_slot. cbn [k_pt set_pt pt_proc pt_initproc pt_nextpid].
  by rewrite alter_insert_slot.
Qed.

Lemma get_slot fuel T np x s :
  (np < length (pt_proc T))%nat → get_proc np fuel (set_pt (with_slot T np x) s) = Ret x (set_pt (with_slot T np x) s).
Proof. intros Hlt. unfold get_proc. mred. unfold with_slot. cbn [k_pt set_pt pt_proc]. by rewrite list_lookup_total_insert_eq. Qed.

Lemma get_other fuel T np x s p pr :
  pt_proc T !! p = Some pr → p ≠ np → get_proc p fuel (set_pt (with_slot T np x) s) = Ret pr (set_pt (with_slot T np x) s).
Proof.
  intros Hp Hne. unfold get_proc. mred. unfold with_slot. cbn [k_pt set_pt pt_proc]. rewrite list_lookup_total_insert_ne by done.
  by rewrite (list_lookup_total_correct _ _ _ Hp).
Qed.

(** An assignment under the table's lock. *)
Lemma locked_slot {A} i fuel T np x s f (r : A) :
  cpu_ok (k_ctx s) i → lock_free (k_ctx s) LkPtable → (np < length (pt_proc T))%nat →
  (acquire LkPtable;; upd_proc np f;; release LkPtable;; mret r) fuel (set_pt (with_slot T np x) s) =
    Ret r (set_pt (with_slot T np (f x)) s).
Proof.
  intros Hok Hl Hlt. rewrite (run_bind _ _ _ _ tt (set_pt (with_slot T np x) (set_ctx (x_acq i LkPtable (k_ctx s)) s))) by (by rewrite (acquire_run _ _ i)).
  erewrite run_bind by (by apply upd_slot). rewrite (run_bind _ _ _ _ tt (set_pt (with_slot T np (f x)) s)); [done|].
  rewrite (release_run _ _ (k_ctx s) i) by done. by destruct s.
Qed.

(** The first command of a sequence runs as [H] says. *)
Ltac rbind H := rewrite (run_bind _ _ _ _ _ _ H).

(** * Fork *)

(** The slot of the child after the first [j] descriptors. *)
Definition half_child (j : Z) (os : list (option nat)) (q : proc) : proc :=
  proc_set_ofile (take (Z.to_nat j) os ++ replicate (NOFILE - Z.to_nat j) None) q.

Lemma half_child_step j os o q :
  0 ≤ j < Z.of_nat NOFILE → os !! Z.to_nat j = Some o →
  proc_set_ofile (<[Z.to_nat j := o]> (p_ofile (half_child j os q))) (half_child j os q) = half_child (j + 1) os q ∧
  (o = None → half_child j os q = half_child (j + 1) os q).
Proof.
  intros Hj Ho. pose proof (lookup_lt_Some _ _ _ Ho) as Hlt. unfold half_child. cbn [p_ofile proc_set_ofile].
  replace (Z.to_nat (j + 1)) with (S (Z.to_nat j)) by lia. rewrite (take_S_r _ _ _ Ho), <- (assoc_L (++)).
  replace (NOFILE - Z.to_nat j)%nat with (S (NOFILE - S (Z.to_nat j))) by lia. cbn [replicate app].
  split; [|by intros ->]. rewrite insert_app_r_alt, length_take_le, Nat.sub_diag by (rewrite ?length_take; lia). by destruct q.
Qed.

(** The child: the size, the registers with 0 as the result, the open files
    and the directory of its parent; [killed] is what the slot had. *)
Definition child (p : nat) (pr : proc) (pid k d : Z) (q : proc) : proc :=
  mkProc (p_sz pr) d k RUNNABLE pid (Some p) (tf_set_rax 0 (p_tf pr)) (p_chan q) (p_killed q) (p_ofile pr) (p_cwd pr)
    (set_name (p_name pr) (p_name q)).

Section fork.
Context (fuel : nat) (i : nat).
Implicit Types (s : kstate) (t : list proc).

Lemma fork_files_run s p np pr q :
  cpu_ok (k_ctx s) i → lock_free (k_ctx s) LkFtable → p ≠ np →
  pt_proc (k_pt s) !! p = Some pr → pt_proc (k_pt s) !! np = Some q → length (p_ofile pr) = NOFILE → p_ofile q = replicate NOFILE None →
  (∀ f, Some f ∈ p_ofile pr → ∃ ff, k_ft s !! f = Some ff ∧ 1 ≤ f_ref ff) →
  forM NOFILE 0 (fork_file np p) fuel s =
    Ret None (set_ft (dup_files (p_ofile pr) (k_ft s)) (set_pt (pt_upd (<[np := proc_set_ofile (p_ofile pr) q]>) (k_pt s)) s)).
Proof.
  intros Hok Hl Hne Hp Hnp Hlen Hq Hf. pose proof (lookup_lt_Some _ _ _ Hnp) as Hlt.
  set (st j := set_ft (dup_files (take (Z.to_nat j) (p_ofile pr)) (k_ft s)) (set_pt (pt_upd (<[np := half_child j (p_ofile pr) q]>) (k_pt s)) s)).
  destruct (forM_ok (fork_file np p) (λ j s', s' = st j) fuel NOFILE 0 s) as (s' & E & ->).
  - unfold st, half_child. change (Z.to_nat 0) with 0%nat. rewrite take_0, Nat.sub_0_r, (dup_files_idle 0), app_nil_l. rewrite <- Hq.
    assert (proc_set_ofile (p_ofile q) q = q) as -> by (by destruct q). unfold pt_upd. rewrite list_insert_id by done. by destruct s as [? [] ????????????].
  - intros j s' Hj ->. rewrite Z.add_0_l in Hj. unfold fork_file, get_proc. mred. cbn [k_pt st set_ft set_pt pt_upd pt_proc].
    rewrite list_lookup_total_insert_ne by done. rewrite (list_lookup_total_correct _ _ _ Hp).
    destruct (lookup_lt_is_Some_2 (p_ofile pr) (Z.to_nat j) ltac:(lia)) as [o Ho]. rewrite (list_lookup_total_correct _ _ _ Ho).
    assert (Et : take (Z.to_nat (j + 1)) (p_ofile pr) = take (Z.to_nat j) (p_ofile pr) ++ [o]).
    { replace (Z.to_nat (j + 1)) with (S (Z.to_nat j)) by lia. by apply take_S_r. }
    destruct (half_child_step j (p_ofile pr) o q) as [H1 H2]; [lia|done|]. destruct o as [f|]; mred.
    + destruct (Hf f) as (ff & Hff & Hr); [by eapply list_elem_of_lookup_2|].
      assert (Hd : k_ft (st j) !! f = Some (file_set_ref (f_ref ff + Z.of_nat (times f (take (Z.to_nat j) (p_ofile pr)))) ff)).
      { cbn [k_ft st set_ft]. unfold dup_files. by rewrite list_lookup_imap, Hff. }
      rewrite (filedup_run _ (st j) i f _ Hok Hl Hd) by (simpl; lia). mred. unfold upd_proc, upd_procs. mred. eexists. split; [done|].
      cbn [k_ft st set_ft] in *. rewrite (dup_files_Some _ _ _ _ Hd). unfold st. rewrite Et. unfold pt_upd. cbn [k_pt set_ft set_pt pt_proc pt_initproc pt_nextpid].
      by rewrite alter_insert_slot, H1 by done.
    + eexists. split; [done|]. unfold st. by rewrite Et, dup_files_None, H2.
  - rewrite E. unfold st, half_child. rewrite Z.add_0_l, Nat2Z.id, Nat.sub_diag, take_ge, app_nil_r by lia. done.
Qed.

Lemma fork_files_slot T v p np pr q :
  cpu_ok (k_ctx v) i → lock_free (k_ctx v) LkFtable → p ≠ np → pt_proc T !! p = Some pr → (np < length (pt_proc T))%nat →
  length (p_ofile pr) = NOFILE → p_ofile q = replicate NOFILE None →
  (∀ f, Some f ∈ p_ofile pr → ∃ ff, k_ft v !! f = Some ff ∧ 1 ≤ f_ref ff) →
  forM NOFILE 0 (fork_file np p) fuel (set_pt (with_slot T np q) v) =
    Ret None (set_pt (with_slot T np (proc_set_ofile (p_ofile pr) q)) (set_ft (dup_files (p_ofile pr) (k_ft v)) v)).
Proof.
  intros Hok Hl Hne Hp Hlt Hlen Hq Hf. rewrite (fork_files_run _ p np pr q); try done.
  - unfold pt_upd, with_slot. cbn [k_pt set_pt pt_proc pt_initproc pt_nextpid]. by rewrite list_insert_insert_eq.
  - cbn [k_pt set_pt with_slot pt_proc]. by rewrite list_lookup_insert_ne.
  - cbn [k_pt set_pt with_slot pt_proc]. by rewrite list_lookup_insert_eq.
Qed.

(** The state in which [fork] copies the address space. *)
Definition forking s np q : kstate :=
  set_pt (with_slot (k_pt s) np (slot (kmem_freelist (k_km s)) (pt_nextpid (k_pt s)) EMBRYO q)) (kalloced s).

Section run.
Context (s : kstate) (p np c : nat) (pr q : proc) (d : Z) (s1 : kstate).
Context (Ht : thread (k_ctx s) i p) (Hlp : lock_free (k_ctx s) LkPtable) (Hlf : lock_free (k_ctx s) LkFtable) (Hli : lock_free (k_ctx s) LkIcache).
Context (Hkm : km_lockable s i) (Hlen : length (pt_proc (k_pt s)) = NPROC).
Context (Hp : pt_proc (k_pt s) !! p = Some pr) (Hst : p_state pr ≠ UNUSED) (Hc : p_cwd pr = Some c) (Hof : length (p_ofile pr) = NOFILE).
Context (Hfind : list_find (λ q, p_state q = UNUSED) (pt_proc (k_pt s)) = Some (np, q)) (Hq : p_ofile q = replicate NOFILE None).
Context (Hk : kmem_freelist (k_km s) ≠ 0).
Context (Hcopy : copyuvm (p_pml4 pr) (p_sz pr) fuel (forking s np q) = Ret d s1) (Hsame : same_but_vm (forking s np q) s1).

Lemma fork_slots : pt_proc (k_pt s) !! np = Some q ∧ p ≠ np.
Proof using Hp Hst Hfind.
  clear - Hp Hst Hfind. apply list_find_Some in Hfind as (Hn & Hu & _). split; [done|]. intros ->. congruence.
Qed.

Lemma fork_start :
  fork fuel s = fork_into p np d fuel (set_pt (with_slot (k_pt s) np (slot (kmem_freelist (k_km s)) (pt_nextpid (k_pt s)) EMBRYO q)) s1) ∧
  k_ctx s1 = k_ctx s ∧ k_ft s1 = k_ft s ∧ k_ic s1 = k_ic s.
Proof using Ht Hlp Hkm Hlen Hp Hst Hfind Hk Hcopy Hsame.
  destruct fork_slots as [Hn Hne]. pose proof (thread_ok _ _ _ Ht) as Hok. unfold fork. rbind (curproc_run fuel s i p Ht).
  pose proof (allocproc_run fuel i s Hok Hlp Hkm Hlen) as Ea. rewrite Hfind in Ea. cbn zeta in Ea.
  rewrite (proj2 (Z.eqb_neq _ _) Hk) in Ea. rbind Ea. erewrite run_bind by (by apply get_other). rbind Hcopy.
  destruct Hsame as (f & m & cs & ->). by split.
Qed.

Lemma fork_run :
  d ≠ 0 → (∀ f, Some f ∈ p_ofile pr → ∃ ff, k_ft s !! f = Some ff ∧ 1 ≤ f_ref ff) →
  fork fuel s = Ret (pt_nextpid (k_pt s))
    (set_ic (alter (λ n, inode_set_ref (i_ref n + 1) n) c (k_ic s)) (set_ft (dup_files (p_ofile pr) (k_ft s))
      (set_pt (with_slot (k_pt s) np (child p pr (pt_nextpid (k_pt s)) (kmem_freelist (k_km s)) d q)) s1))).
Proof using All.
  intros Hd Hf. destruct fork_slots as [Hn Hne]. pose proof (lookup_lt_Some _ _ _ Hn) as Hlt. pose proof (thread_ok _ _ _ Ht) as Hok.
  destruct fork_start as (-> & Ec & Eft & Eic). unfold fork_into. erewrite run_bind by (by apply upd_slot).
  rewrite (proj2 (Z.eqb_neq _ _) Hd). erewrite run_bind by (by apply get_other). do 3 erewrite run_bind by (by apply upd_slot).
  rewrite (run_bind _ _ _ _ None _) by (apply fork_files_slot; rewrite ?Ec, ?Eft; done). erewrite run_bind by (by apply get_other).
  rewrite Hc. cbv iota. rewrite (run_bind _ _ _ _ c _) by (apply (idup_run _ _ i); cbn [k_ctx set_pt set_ft]; by rewrite Ec).
  set (x := proc_set_ofile _ _). set (v := set_ic _ _).
  change v with (set_pt (with_slot (k_pt s) np x) (set_ic (alter (λ n, inode_set_ref (i_ref n + 1) n) c (k_ic s1)) (set_ft (dup_files (p_ofile pr) (k_ft s1)) s1))).
  rewrite Eic, Eft. set (w := set_ic _ (set_ft _ s1)). assert (Ew : k_ctx w = k_ctx s) by done. do 2 erewrite run_bind by (by apply upd_slot).
  erewrite run_bind by (by apply get_slot). rewrite (locked_slot i _ _ _ _ w); [|by rewrite Ew..|done]. unfold child. by rewrite Hc.
Qed.

(** No address space for the child: its stack is freed. *)
Lemma fork_fail_run s2 :
  d = 0 → (∀ T, kfree (kmem_freelist (k_km s)) fuel (set_pt T s1) = Ret tt (set_pt T s2)) →
  fork fuel s = Ret (-1) (set_pt (with_slot (k_pt s) np (slot 0 (pt_nextpid (k_pt s)) UNUSED (proc_set_pml4 0 q))) s2).
Proof using Ht Hlp Hkm Hlen Hp Hst Hfind Hk Hcopy Hsame.
  intros Hd Hfree. destruct fork_slots as [Hn Hne]. pose proof (lookup_lt_Some _ _ _ Hn) as Hlt.
  destruct fork_start as (-> & Ec & Eft & Eic). unfold fork_into. erewrite run_bind by (by apply upd_slot).
  rewrite Hd. change (0 =? 0) with true. cbv iota. erewrite run_bind by (by apply get_slot). cbn [p_kstack proc_set_pml4 slot proc_set_kstack].
  rbind (Hfree (with_slot (k_pt s) np (proc_set_pml4 0 (slot (kmem_freelist (k_km s)) (pt_nextpid (k_pt s)) EMBRYO q)))).
  do 2 erewrite run_bind by (by apply upd_slot). done.
Qed.
End run.
End fork.

(** An address space depends on the memory and its allocator only. *)
Lemma uvm_ext s s' i pml4 lab l U :
  uvm s i pml4 lab l U → km_lockable s' i → k_km s' = k_km s → k_mem s' = k_mem s → uvm s' i pml4 lab l U.
Proof.
  intros [[V1 V2 V3 V4 V5] V6 V7 V8 V9 V10] Hl Ek Em. unfold km_ok in *.
  split; [split|..]; unfold km_ok; rewrite ?Ek, ?Em; done.
Qed.

Lemma vstep_set_pt P s s' T : vstep P s s' → vstep P (set_pt T s) (set_pt T s').
Proof. intros [(f & m & cs & ->) Hm]. split; [by exists f, m, cs|done]. Qed.

Lemma kfree_set_pt i fuel s v s2 T :
  km_lockable s i → page v → kmem_end (k_km s) ≤ v → kfree v fuel s = Ret tt s2 → kfree v fuel (set_pt T s) = Ret tt (set_pt T s2).
Proof.
  intros Hl [Hp _] He. rewrite !(kfree_run _ i) by (try apply PGALIGNED_spec; done). by intros [= <-].
Qed.

(** A process that may call [fork]: it runs on CPU [i] with its address space
    well-formed and its pages, up to its size, all there; [l] are the free
    pages, [T] is the table of the kernel's ranges and [L] the tables that they
    and the pages of the process need. *)
Record forkable (s : kstate) (i p : nat) (pr : proc) (c : nat) (lab : gmap Z (nat * Z)) (l : list Z) (U : gmap Z Z)
    (T : list kmapent) (L : list (nat * Z)) (fuel : nat) : Prop := mkForkable {
  fk_thread : thread (k_ctx s) i p;
  fk_locks : lock_free (k_ctx s) LkPtable ∧ lock_free (k_ctx s) LkFtable ∧ lock_free (k_ctx s) LkIcache;
  fk_procs : procs_ok s;
  fk_proc : pt_proc (k_pt s) !! p = Some pr ∧ p_state pr = RUNNING ∧ p_cwd pr = Some c;
  fk_uvm : uvm s i (p_pml4 pr) lab l U;
  fk_kmap : kmap_is (k_km s) T ∧ kmap_ok T fuel L;
  fk_size : 0 ≤ p_sz pr ∧ pgs (p_sz pr) < Z.of_nat fuel;
  fk_pages x : 0 ≤ x < pgs (p_sz pr) → is_Some (U !! x) ∧ path x ⊆ L
}.

(** Slots in use are as they were, the others are still free. *)
Definition same_procs (t t' : list proc) : Prop :=
  length t' = length t ∧ ∀ q pr, t !! q = Some pr →
    if decide (p_state pr = UNUSED) then p_state (t' !!! q) = UNUSED else t' !! q = Some pr.

Lemma same_procs_refl t : same_procs t t.
Proof. split; [done|]. intros q pr Hq. case_decide; [|done]. by rewrite (list_lookup_total_correct _ _ _ Hq). Qed.

Lemma same_procs_insert t np q x : t !! np = Some q → p_state q = UNUSED → p_state x = UNUSED → same_procs t (<[np := x]> t).
Proof.
  intros Hn Hq Hx. pose proof (lookup_lt_Some _ _ _ Hn). split; [by rewrite length_insert|]. intros j y Hj. destruct (decide (np = j)) as [<-|].
  - assert (y = q) as -> by congruence. by rewrite decide_True, list_lookup_total_insert_eq.
  - rewrite list_lookup_total_insert_ne, list_lookup_insert_ne by done. case_decide; [|done]. by rewrite (list_lookup_total_correct _ _ _ Hj).
Qed.

Section fork_spec.
Context (s : kstate) (i p : nat) (pr : proc) (c : nat) (lab : gmap Z (nat * Z)) (l : list Z) (U : gmap Z Z) (T : list kmapent) (L : list (nat * Z)) (fuel : nat).
Context (F : forkable s i p pr c lab l U T L fuel).

(** The state from which the address space is copied. *)
Lemma forking_uvm np q k l1 :
  l = k :: l1 → kmem_freelist (k_km s) = k ∧ k ≠ 0 ∧ uvm (forking s np q) i (p_pml4 pr) lab l1 U ∧ loose (forking s np q) lab l1 U k ∧
    vstep (λ x, x ∈ l) s (set_pt (k_pt s) (forking s np q)).
Proof using F.
  intros El. pose proof (fk_uvm _ _ _ _ _ _ _ _ _ _ _ F) as V. rewrite El in V. pose proof (um_vm _ _ _ _ _ _ V) as Vm.
  destruct (kalloc_uvm i fuel (p_pml4 pr) s lab k l1 U V) as (f & E & V1 & Lo). rewrite (kalloc_run _ i) in E by apply Vm. cbn zeta in E.
  injection E as Ek Es. assert (Hk : k ≠ 0) by (destruct Lo as ([_ ?] & _); lia). rewrite Ek, (proj2 (Z.eqb_neq _ _) Hk) in Es.
  assert (Ef : kalloced s = set_km (km_set_freelist f (k_km s)) s) by (unfold kalloced; by rewrite Ek).
  assert (Em : forking s np q = set_pt (k_pt (forking s np q)) (set_km (km_set_freelist f (k_km s)) s)) by (unfold forking; by rewrite Ef).
  split; [done|]. split; [done|]. rewrite Em. split; [eapply uvm_ext; [exact V1|apply V1|done|done]|]. split; [done|].
  split; [|done]. exact (same_but_vm_intro f (k_mem s) s).
Qed.

(** What [copyuvm] changed. *)
Lemma forked_step np q k l1 s1 :
  l = k :: l1 → vstep (λ x, x ∈ l1) (forking s np q) s1 → vstep (λ x, x ∈ l) s (set_pt (k_pt s) s1).
Proof using F.
  intros El [(f & m & cs & E) Hm]. destruct (forking_uvm np q k l1 El) as (_ & _ & _ & _ & [(f0 & m0 & cs0 & E0) Hm0]). split.
  - exists f, m, cs. by rewrite E.
  - intros y x Hy Hn Hx. cbn [k_mem set_pt] in *. rewrite (Hm y x Hy) by (done || intros ?; apply Hn; rewrite El; by right). by apply (Hm0 y x).
Qed.

(** The slot [fork] takes is free and has no open files. *)
Lemma fork_slot np q :
  list_find (λ q, p_state q = UNUSED) (pt_proc (k_pt s)) = Some (np, q) →
  pt_proc (k_pt s) !! np = Some q ∧ p_state q = UNUSED ∧ p_ofile q = replicate NOFILE None.
Proof using F.
  intros (Hn & Hu & _)%list_find_Some. split; [done|]. split; [done|]. eapply (pr_idle _ (fk_procs _ _ _ _ _ _ _ _ _ _ _ F)); [done|by left].
Qed.

(** A slot that stays free. *)
Lemma unused_slot np q x v :
  list_find (λ q, p_state q = UNUSED) (pt_proc (k_pt s)) = Some (np, q) → p_state x = UNUSED → p_ofile x = p_ofile q → k_ft v = k_ft s →
  let s' := set_pt (with_slot (k_pt s) np x) v in procs_ok s' ∧ same_procs (pt_proc (k_pt s)) (pt_proc (k_pt s')).
Proof using F.
  intros E Hx Ho Hft s'. destruct (fork_slot np q E) as (Hn & Hu & Hq). split; [|by eapply same_procs_insert].
  eapply (procs_ok_slot s _ np q x); try done; [apply (fk_procs _ _ _ _ _ _ _ _ _ _ _ F)|..]; rewrite ?Ho, ?Hq; try done.
  - unfold s'. cbn [k_ft set_pt]. by rewrite dup_files_idle.
  - intros f Hf. by apply elem_of_replicate in Hf as [? _].
Qed.
End fork_spec.

(** C10: [fork] makes a copy of the calling process in a free slot of the table: an
    address space of its own with every page of the caller at the same place
    with the same permissions and contents, and the kernel's half; the same
    registers but for the result, 0; the same open files and directory, each
    counted once more; a kernel stack. Only pages that were free have changed,
    and every one of them is now the stack, the child's, or still free. It
    fails, with -1 and nothing changed but the next pid, only when the table is
    full or the pages do not suffice. *)
Theorem fork_spec s i p pr c lab l U T L fuel :
  forkable s i p pr c lab l U T L fuel →
  ∃ r s' v l', fork fuel s = Ret r s' ∧ vstep (λ x, x ∈ l) s v ∧ procs_ok s' ∧ uvm s' i (p_pml4 pr) lab l' U ∧
    ((∃ np q k d lab' U', list_find (λ q, p_state q = UNUSED) (pt_proc (k_pt s)) = Some (np, q) ∧ r = pt_nextpid (k_pt s) ∧
        s' = set_ic (alter (λ n, inode_set_ref (i_ref n + 1) n) c (k_ic s)) (set_ft (dup_files (p_ofile pr) (k_ft s))
               (set_pt (with_slot (k_pt s) np (child p pr r k d q)) v)) ∧
        uvm s' i d lab' l' U' ∧ kernel_half T (k_mem s') d ∧ copy_of (pgs (p_sz pr)) U U' (k_mem s) (k_mem s') ∧
        ¬ owned lab' l' U' k ∧ ∀ x, x ∈ l ↔ x = k ∨ owned lab' l' U' x) ∨
     r = -1 ∧ (∃ t, s' = set_pt t v ∧ same_procs (pt_proc (k_pt s)) (pt_proc t)) ∧ (∀ x, x ∈ l' ↔ x ∈ l) ∧
     (list_find (λ q, p_state q = UNUSED) (pt_proc (k_pt s)) = None ∨ Z.of_nat (length l) ≤ 1 + Z.of_nat (length L) + pgs (p_sz pr))).
Proof.
  intros F. pose proof F as [Ht (Hlp & Hlf & Hli) Hok (Hp & Hrun & Hc) V [Hki Hko] [Hsz Hfuel] HU]. pose proof (um_vm _ _ _ _ _ _ V) as Vm.
  destruct (pr_files _ Hok _ _ Hp) as [Hof Hfl].
  pose proof (allocproc_run fuel i s (thread_ok _ _ _ Ht) Hlp (vm_lock _ _ _ _ _ Vm) (pr_len _ Hok)) as Ea.
  destruct (list_find _ _) as [[np q]|] eqn:Ef.
  2:{ exists (-1), s, s, l. unfold fork. rbind (curproc_run fuel s i p Ht). rbind Ea. split; [done|]. split; [apply vstep_refl|]. split; [done|]. split; [done|].
      right. split; [done|]. split; [exists (k_pt s); split; [by destruct s|apply same_procs_refl]|]. split; [done|]. by left. }
  destruct (fork_slot s i p pr c lab l U T L fuel F np q Ef) as (Hn & Hu & Hq). cbn zeta in Ea.
  destruct l as [|k l1].
  { assert (E0 : kmem_freelist (k_km s) = 0) by (by destruct (vm_km _ _ _ _ _ Vm) as [? _]). rewrite E0 in Ea.
    destruct (unused_slot s i p pr c lab [] U T L fuel F np q (slot 0 (pt_nextpid (k_pt s)) UNUSED q) s Ef) as [H1 H2]; [done..|].
    eexists (-1), _, s, []. unfold fork. rbind (curproc_run fuel s i p Ht). rbind Ea. split; [done|]. split; [apply vstep_refl|]. split; [exact H1|].
    split; [eapply uvm_ext; [exact V|apply V|done|done]|]. right. split; [done|]. split; [by eexists|]. split; [done|]. right. simpl.
    assert (0 ≤ pgs (p_sz pr)) by (apply Z.div_pos; unfold PGSIZE; lia). lia. }
  destruct (forking_uvm s i p pr c lab (k :: l1) U T L fuel F np q k l1 eq_refl) as (Ek & Hk & VA & Lo & _). rewrite <- Ek in Hk.
  destruct (copyuvm_run i fuel (forking s np q) (p_pml4 pr) lab l1 U (p_sz pr) T L VA) as (d & s1 & l2 & Ec & St & V1 & Hr); [by destruct Hki|done..|].
  pose proof (forked_step s i p pr c lab (k :: l1) U T L fuel F np q k l1 s1 eq_refl St) as Sv.
  destruct Hr as [(Hd & lab' & U' & V' & K' & C' & O')|(-> & O' & Hfew)].
  - pose proof (fork_run fuel i s p np c pr q d s1 Ht Hlp Hlf Hli (vm_lock _ _ _ _ _ Vm) (pr_len _ Hok) Hp ltac:(by rewrite Hrun) Hc Hof Ef Hq Hk Ec (vs_same _ _ _ St) Hd
      (procs_ok_dup s p pr Hok Hp)) as E.
    eexists _, _, (set_pt (k_pt s) s1), l2. split; [exact E|]. split; [exact Sv|]. split; [|split].
    + eapply (procs_ok_slot s _ np q); [done|done|done|done|done|done|done|]. by intros [].
    + eapply uvm_ext; [exact V1|apply V1|done|done].
    + left. exists np, q, k, d, lab', U'. rewrite Ek. split; [done|]. split; [done|]. split; [done|].
      split; [eapply uvm_ext; [exact V'|apply V'|done|done]|]. split; [done|]. split; [done|].
      assert (Hkl : k ∉ l1) by (destruct (vm_km _ _ _ _ _ Vm) as (_ & Hnd & _); by apply NoDup_cons in Hnd as [? _]).
      split; [by rewrite O'|]. intros x. rewrite O'. apply elem_of_cons.
  - assert (Lo1 : loose s1 lab l2 U k).
    { destruct Lo as (Hpk & He & Hno). destruct (vs_same _ _ _ St) as (f & m & cs & ->). split; [done|]. split; [done|].
      intros [[Hl|Hl]|Hfr]; apply Hno; [by left; left|left; right; by apply O'|by right]. }
    destruct (kfree_uvm i fuel (p_pml4 pr) s1 lab l2 U k V1 Lo1) as (s2 & E2 & V2 & S2).
    assert (Ft : k_ft s2 = k_ft s) by (destruct (vs_same _ _ _ S2) as (? & ? & ? & ->), (vs_same _ _ _ St) as (? & ? & ? & ->); done).
    destruct (unused_slot s i p pr c lab (k :: l1) U T L fuel F np q (slot 0 (pt_nextpid (k_pt s)) UNUSED (proc_set_pml4 0 q)) s2 Ef) as [H1 H2]; [done..|].
    eexists (-1), _, (set_pt (k_pt s) s2), (k :: l2). split.
    { apply (fork_fail_run fuel i s p np pr q 0 s1 Ht Hlp (vm_lock _ _ _ _ _ Vm) (pr_len _ Hok) Hp ltac:(by rewrite Hrun) Ef Hk Ec (vs_same _ _ _ St) s2 eq_refl).
      intros T'. rewrite Ek. by apply (kfree_set_pt i); [apply V1|apply Lo1..|]. }
    split; [|split; [exact H1|split; [eapply uvm_ext; [exact V2|apply V2|done|done]|]]].
    + eapply vstep_trans; [exact Sv|apply (vstep_set_pt _ _ _ _ S2)|done|]. intros x ->. by left.
    + right. split; [done|]. split; [by eexists|]. split; [intros x; by rewrite !elem_of_cons, O'|]. right. simpl. lia.
Qed.

(** * Wait *)

(** The slot of a child whose process is gone. *)
Definition reaped (q : proc) : proc :=
  proc_set_state UNUSED (proc_set_killed 0 (proc_set_name (<[0%nat := 0]> (p_name q)) (proc_set_parent None (proc_set_pid 0 (proc_set_kstack 0 q))))).

(** A child of [p], and one that has exited. *)
Definition kid (p : nat) (q : proc) : Prop := p_parent q = Some p.
Definition dead (p : nat) (q : proc) : Prop := p_parent q = Some p ∧ p_state q = ZOMBIE.

#[global] Instance kid_dec p q : Decision (kid p q).
Proof. unfold kid. apply _. Defined.
#[global] Instance dead_dec p q : Decision (dead p q).
Proof. unfold dead. apply _. Defined.

Section wait.
Context (fuel : nat) (i p : nat) (x : cpuctx).
Context (Ht : thread x i p) (Hl : lock_free x LkPtable).
Implicit Types (s : kstate) (t : list proc).

Lemma wait_slot_alive j h s q :
  pt_proc (k_pt s) !! j = Some q → ¬ dead p q → wait_slot p j h fuel s = Ret (inl (h || bool_decide (kid p q))%bool) s.
Proof.
  intros Hq Hno. unfold wait_slot, get_proc. mred. rewrite (list_lookup_total_correct _ _ _ Hq). case_bool_decide as Hk; cbn [negb].
  - rewrite (bool_decide_true (kid p q)), orb_true_r by done. rewrite bool_decide_false; [done|]. intros Hz. by apply Hno.
  - by rewrite (bool_decide_false (kid p q)), orb_false_r by done.
Qed.

(** Scanning slots none of which holds a child that has exited. *)
Lemma wait_scan_none n j h s :
  (j + n ≤ length (pt_proc (k_pt s)))%nat → (∀ a q, (j ≤ a < j + n)%nat → pt_proc (k_pt s) !! a = Some q → ¬ dead p q) →
  wait_scan p n j h fuel s = Ret (inl (h || bool_decide (Exists (kid p) (take n (drop j (pt_proc (k_pt s)))))))%bool s.
Proof.
  revert j h. induction n as [|n IH]; intros j h Hlen Hno; cbn [wait_scan]; mred.
  - rewrite take_0, bool_decide_false, orb_false_r; [done|]. by intros ?%Exists_nil.
  - destruct (lookup_lt_is_Some_2 (pt_proc (k_pt s)) j ltac:(lia)) as [q Hq].
    rewrite (wait_slot_alive j h s q Hq) by (apply (Hno j q); [lia|done]). mred. rewrite IH; [|lia|intros a y Ha; apply Hno; lia]. do 2 f_equal. rewrite (drop_S _ _ _ Hq), <- orb_assoc. cbn [take]. do 2 f_equal.
    apply eq_bool_prop_intro. rewrite orb_True, !bool_decide_spec, Exists_cons. done.
Qed.

Lemma upd_put c f y T w :
  (c < length (pt_proc T))%nat →
  upd_proc c f fuel (set_pt (pt_upd (<[c := y]>) T) w) = Ret tt (set_pt (pt_upd (<[c := f y]>) T) w).
Proof.
  intros Hlt. unfold upd_proc, upd_procs. mred. unfold pt_upd. cbn [k_pt set_pt pt_proc pt_initproc pt_nextpid]. by rewrite alter_insert_slot.
Qed.

(** The memory of a dead child, [l] being the free pages. *)
Definition corpse s z lab l U : Prop := uvm s i (p_pml4 z) lab l U ∧ loose s lab l U (p_kstack z).

Lemma wait_slot_reap s c z lab l U :
  (513 < fuel)%nat → k_ctx s = x_acq i LkPtable x → pt_proc (k_pt s) !! c = Some z → dead p z → corpse s z lab l U →
  ∃ v l', (∀ h, wait_slot p c h fuel s = Ret (inr (p_pid z)) (set_ctx x (set_pt (pt_upd (<[c := reaped z]>) (k_pt s)) v))) ∧
    pool i s [] (λ a, a = p_kstack z ∨ owned lab l U a) v l'.
Proof using Ht Hl.
  intros Hf Hs Hc [Hpar Hz] [V Lo]. pose proof (lookup_lt_Some _ _ _ Hc) as Hlt.
  destruct (kfree_uvm i fuel (p_pml4 z) s lab l U (p_kstack z) V Lo) as (s1 & E1 & V1 & S1).
  set (T1 := pt_upd (<[c := proc_set_kstack 0 z]>) (k_pt s)).
  assert (V1' : uvm (set_pt T1 s1) i (p_pml4 z) lab (p_kstack z :: l) U) by (eapply uvm_ext; [exact V1|apply V1|done|done]).
  destruct (freevm_run i fuel _ (p_pml4 z) lab _ U Hf V1') as (s2 & l2 & E2 & [S2 K2 M2 F2]).
  assert (Ex : ∀ a, owned lab (p_kstack z :: l) U a ↔ a = p_kstack z ∨ owned lab l U a) by (intros a; apply owned_cons).
  assert (P1 : k_pt s1 = k_pt s ∧ k_ctx s1 = k_ctx s) by (destruct (vs_same _ _ _ S1) as (? & ? & ? & ->); done). destruct P1 as [P1 X1].
  exists (set_pt (k_pt s) s2), l2. split.
  - intros h. unfold wait_slot. rewrite (run_bind _ _ _ _ z s) by (unfold get_proc; mred; by rewrite (list_lookup_total_correct _ _ _ Hc)).
    rewrite bool_decide_true by done. cbn [negb]. rewrite bool_decide_true by done. rbind E1.
    rewrite (run_bind _ _ _ _ tt (set_pt T1 s1)).
    2:{ unfold upd_proc, upd_procs. mred. rewrite P1. unfold T1, pt_upd. by rewrite (alter_slot _ _ _ _ Hc). }
    rbind E2. assert (P2 : s2 = set_pt T1 s2 ∧ k_ctx s2 = k_ctx s1) by (destruct (vs_same _ _ _ S2) as (? & ? & ? & ->); done). destruct P2 as [P2 X2].
    rewrite P2 at 1. unfold T1. do 5 erewrite run_bind by (by apply upd_put).
    rewrite (run_bind _ _ _ _ tt (set_ctx x (set_pt (pt_upd (<[c := reaped z]>) (k_pt s)) s2))); [done|].
    apply (release_run _ _ x i); [by eapply thread_ok|done|]. cbn [k_ctx set_pt]. congruence.
  - split; [|exact K2|exact M2|intros a; by rewrite F2, Ex].
    eapply vstep_trans; [exact S1| |by left|intros a; apply Ex]. apply (vstep_set_pt _ _ _ (k_pt s)) in S2.
    assert (set_pt (k_pt s) (set_pt T1 s1) = s1) as E by (rewrite <- P1; by destruct s1). by rewrite E in S2.
Qed.

Lemma wait_scan_found n j h s c z pid s' :
  (j ≤ c < j + n)%nat → list_find (dead p) (pt_proc (k_pt s)) = Some (c, z) → (j + n ≤ length (pt_proc (k_pt s)))%nat →
  (∀ h, wait_slot p c h fuel s = Ret (inr pid) s') → wait_scan p n j h fuel s = Ret (inr pid) s'.
Proof.
  intros Hc E Hlen Hs. pose proof E as (_ & _ & Hmin)%list_find_Some. revert j h Hc Hlen.
  induction n as [|n IH]; intros j h Hc Hlen; [lia|]. cbn [wait_scan]. destruct (decide (j = c)) as [->|]; [by rbind (Hs h)|].
  destruct (lookup_lt_is_Some_2 (pt_proc (k_pt s)) j ltac:(lia)) as [q Hq].
  rbind (wait_slot_alive j h s q Hq (Hmin j q Hq ltac:(lia))). apply IH; lia.
Qed.
End wait.

(** A round that finds no child that has exited. *)
Lemma wait_round_idle p s fuel :
  let t := pt_proc (k_pt s) in length t = NPROC → list_find (dead p) t = None →
  wait_round p tt fuel s =
    (if negb (bool_decide (Exists (kid p) t)) || negb (p_killed (t !!! p) =? 0) then release LkPtable;; mret (inr (-1))
     else sleep (ChProc p) (Some LkPtable);; mret (inl tt))%bool fuel s.
Proof.
  intros t Hlen Ed. assert (E : wait_scan p NPROC 0 false fuel s = Ret (inl (bool_decide (Exists (kid p) t))) s).
  { rewrite wait_scan_none; [|fold t; lia|].
    - rewrite drop_0, take_ge by (fold t; lia). done.
    - intros a q _ Ha. apply list_find_None in Ed. by apply (Forall_lookup_1 _ _ _ _ Ed Ha). }
  unfold wait_round. by rbind E.
Qed.

Lemma uvm_set_ctx s y i pml4 lab l U : cpu_ok y i → lock_free y LkKmem → uvm s i pml4 lab l U → uvm (set_ctx y s) i pml4 lab l U.
Proof. intros H1 H2 V. eapply uvm_ext; [exact V|by right|done|done]. Qed.

Lemma pool_set_ctx s y D v l i : km_lockable s i → pool i (set_ctx y s) [] D v l → pool i s [] D (set_ctx (k_ctx s) v) l.
Proof.
  intros Hl [[(f & m & cs & ->) Hm] _ Hk Hf]. split; [split|..].
  - exists f, m, cs. done.
  - done.
  - by eapply same_but_vm_lockable; [|exact Hl]; exists f, m, cs.
  - exact Hk.
  - exact Hf.
Qed.

(** C11: [wait] reaps the first child in the table that has exited: it returns the
    child's pid, its slot is free again, and its kernel stack and every page of
    its address space, tables included, are free again, each once; nothing else
    has changed. When no child has exited it returns -1 if there is no child or
    the caller was killed; otherwise it sleeps, giving up the CPU, and when it
    is woken it looks again. *)
Theorem wait_spec s i p lab l U fuel :
  let t := pt_proc (k_pt s) in
  thread (k_ctx s) i p → c_ncli (x_cpus (k_ctx s) !!! i) = 0 → lock_free (k_ctx s) LkPtable → lock_free (k_ctx s) LkKmem →
  procs_ok s → (p < NPROC)%nat → (513 < fuel)%nat →
  (∀ c z, list_find (dead p) t = Some (c, z) → corpse i s z lab l U) →
  match list_find (dead p) t with
  | Some (c, z) =>
      ∃ v l', let s' := set_pt (pt_upd (<[c := reaped z]>) (k_pt s)) v in
      wait fuel s = Ret (p_pid z) s' ∧ procs_ok s' ∧ pool i s [] (λ a, a = p_kstack z ∨ owned lab l U a) v l'
  | None =>
      if decide (Exists (kid p) t ∧ p_killed (t !!! p) = 0)
      then ∃ k, wait fuel s = Swtch (set_pt (pt_upd (alter (asleep (ChProc p)) p) (k_pt s)) (set_ctx (x_acq i LkPtable (k_ctx s)) s)) k ∧
        ∀ s2 x2 j, in_sched s2 x2 j LkPtable → hw_if (x_hw x2) = hw_if (x_hw (k_ctx s)) →
          k s2 = loop_fuel (pred fuel) (wait_round p) tt fuel (set_pt (pt_upd (alter (proc_set_chan None) p) (k_pt s2)) s2)
      else wait fuel s = Ret (-1) s
  end.
Proof.
  intros t Ht H0 Hl Hlk Hok Hp Hf Hdead. pose proof (thread_ok _ _ _ Ht) as Hcpu. set (s0 := set_ctx (x_acq i LkPtable (k_ctx s)) s).
  assert (Es : wait fuel s = loop_fuel fuel (wait_round p) tt fuel s0).
  { unfold wait. rbind (curproc_run fuel s i p Ht). by rbind (acquire_run fuel s i LkPtable Hcpu Hl). }
  destruct fuel as [|n]; [lia|]. rewrite loop_fuel_S in Es.
  assert (Hlen : (0 + NPROC = length (pt_proc (k_pt s0)))%nat) by (by rewrite <- (pr_len _ Hok)).
  destruct (list_find (dead p) t) as [[c z]|] eqn:Ed.
  - destruct (Hdead c z eq_refl) as [V Lo]. pose proof Ed as (Hc & Hz & _)%list_find_Some. pose proof (lookup_lt_Some _ _ _ Hc) as Hlt.
    assert (Hco : corpse i s0 z lab l U).
    { split; [apply uvm_set_ctx; [by apply cpu_ok_acq|by apply lock_free_acq|done]|done]. }
    destruct (wait_slot_reap (S n) i p (k_ctx s) Ht Hl s0 c z lab l U Hf eq_refl Hc Hz Hco) as (v & l' & Ew & P).
    assert (Er : wait_round p tt (S n) s0 = Ret (inr (p_pid z)) (set_ctx (k_ctx s) (set_pt (pt_upd (<[c := reaped z]>) (k_pt s)) v))).
    { unfold wait_round. rewrite (run_bind _ _ _ _ _ _ (wait_scan_found (S n) p NPROC 0 false s0 c z _ _ ltac:(unfold t in *; cbn in *; lia) Ed ltac:(lia) Ew)). done. }
    rewrite Er in Es. exists (set_ctx (k_ctx s) v), l'. split; [exact Es|]. split; [|by eapply pool_set_ctx; [apply V|exact P]].
    assert (Ho : p_ofile z = replicate NOFILE None) by (eapply (pr_idle _ Hok); [exact Hc|right; apply Hz]).
    assert (Hr : p_ofile (reaped z) = replicate NOFILE None) by exact Ho.
    eapply (procs_ok_slot s _ c z (reaped z)); [done|exact Hc|done|done|..]; rewrite Hr; [|done| |done].
    + rewrite dup_files_idle. by destruct (vs_same _ _ _ (po_step _ _ _ _ _ _ P)) as (? & ? & ? & ->).
    + intros f Hfl. by apply elem_of_replicate in Hfl as [? _].
  - rewrite (wait_round_idle p s0 (S n) (eq_sym Hlen) Ed) in Es. fold t in Es. case_decide as Hk.
    + destruct (sleep_ptable_run (S n) s0 (k_ctx s) i p (ChProc p) Ht H0 eq_refl ltac:(lia)) as (k & Ek & Hres).
      rewrite bool_decide_true, (proj2 (Z.eqb_eq _ _)) in Es by tauto. cbn [negb orb] in Es. unfold mbind, M_bind in Es. rewrite Ek in Es. cbn [obind] in Es.
      eexists. split; [exact Es|]. intros s2 x2 j (? & ? & _ & _ & ?) Hif. cbn beta. rewrite (Hres s2 x2 j) by done. done.
    + replace (negb _ || negb _)%bool with true in Es.
      * rewrite Es. rewrite (run_bind _ _ _ _ tt s); [done|]. rewrite (release_run _ _ (k_ctx s) i) by done. unfold s0. by rewrite set_ctx_set_ctx, set_ctx_id.
      * symmetry. apply orb_true_iff. rewrite !negb_true_iff, bool_decide_eq_false, Z.eqb_neq. clear -Hk. destruct (decide (Exists (kid p) t)); [right|left]; naive_solver.
Qed.

(** * Changing the size *)

Record growable (s : kstate) (i p : nat) (pr : proc) (lab : gmap Z (nat * Z)) (l : list Z) (U : gmap Z Z) (n : Z) (fuel : nat) : Prop := mkGrowable {
  gr_thread : thread (k_ctx s) i p;
  gr_cpu : let c := x_cpus (k_ctx s) !!! i in length (c_gdt c) = NSEGS ∧ 0 ≤ ts_addr c < 2 ^ 64;
  gr_proc : pt_proc (k_pt s) !! p = Some pr ∧ p_kstack pr ≠ 0;
  gr_print : can_print s;
  gr_uvm : uvm s i (p_pml4 pr) lab l U;
  gr_size : 0 ≤ p_sz pr < 2 ^ 32 ∧ ∀ x, pgs (p_sz pr) ≤ x → U !! x = None;
  gr_n : - 2 ^ 31 ≤ n < 2 ^ 31;
  gr_fuel : (513 < fuel)%nat ∧ pgs (p_sz pr + n) - pgs (p_sz pr) < Z.of_nat fuel
}.

(** The map of a process whose size changes by [n], and its new size: pages of
    zeros are added or pages are taken out. A size that does not fit in 32 bits
    is not a change. *)
Definition resized (n sz : Z) (U U' : gmap Z Z) (m : mem) (sz' : Z) : Prop :=
  if decide (0 ≤ sz + n < 2 ^ 32)
  then sz' = sz + n ∧ if decide (n < 0) then U' = cut (pgs sz') (pgs sz) U else grown (Z.lor (Z.lor PTE_XD PTE_W) PTE_U) (pgs sz) (pgs sz') U U' m
  else sz' = sz ∧ U' = U.

Section growproc.
Context (fuel : nat) (i p : nat).
Implicit Types (s : kstate).

Lemma u32_s32 x : 0 ≤ x < 2 ^ 32 → u32 (s32 x) = x.
Proof.
  intros H. unfold s32, u32, swrap. change (2 ^ (32 - 1)) with 2147483648. change (2 ^ 32) with 4294967296 in *. Z.to_euclidean_division_equations. lia.
Qed.

(** The end of [growproc]. *)
Lemma growproc_end s v lab l U pr n r :
  growable s i p pr lab l U n fuel → same_but_vm s v →
  (upd_proc p (proc_set_sz r);; switchuvm (Some p);; mret 0) fuel v =
    Ret 0 (set_ctx (x_user i (p_kstack pr) (p_pml4 pr) (k_ctx s)) (set_pt (pt_upd (<[p := proc_set_sz r pr]>) (k_pt s)) v)).
Proof.
  intros [Ht [Hg Ha] [Hp Hk] _ V _ _ _] (f & m & cs & ->). pose proof (lookup_lt_Some _ _ _ Hp) as Hlt.
  set (v := printed _ _). rewrite (run_bind _ _ _ _ tt (set_pt (pt_upd (<[p := proc_set_sz r pr]>) (k_pt s)) v)).
  2:{ unfold upd_proc, upd_procs. mred. unfold pt_upd. by rewrite <- (alter_slot _ _ _ _ Hp). }
  assert (Hr : p_pml4 pr ≠ 0).
  { destruct (pt_page _ _ _ (vm_pt _ _ _ _ _ (um_vm _ _ _ _ _ _ V)) _ _ _ (pt_root _ _ _ (vm_pt _ _ _ _ _ (um_vm _ _ _ _ _ _ V)))) as [[[_ ?] _] _]. lia. }
  pose proof (switchuvm_run fuel (set_pt (pt_upd (<[p := proc_set_sz r pr]>) (k_pt s)) v) i p) as E. cbn zeta in E.
  assert (Eg : pt_proc (k_pt (set_pt (pt_upd (<[p := proc_set_sz r pr]>) (k_pt s)) v)) !!! p = proc_set_sz r pr) by (cbn; by rewrite list_lookup_total_insert_eq).
  rewrite Eg in E. rbind (E (thread_ok _ _ _ Ht) Hg Ha Hk Hr). done.
Qed.

Lemma growproc_run s v lab l U pr n r :
  growable s i p pr lab l U n fuel → same_but_vm s v → new_size (p_pml4 pr) (p_sz pr) n fuel s = Ret r v →
  growproc n fuel s = if decide (n ≠ 0 ∧ r = 0) then Ret (-1) v else
    Ret 0 (set_ctx (x_user i (p_kstack pr) (p_pml4 pr) (k_ctx s)) (set_pt (pt_upd (<[p := proc_set_sz r pr]>) (k_pt s)) v)).
Proof.
  intros G Sv E. pose proof G as [Ht _ [Hp _] _ _ [Hsz _] _ _]. unfold growproc. rbind (curproc_run fuel s i p Ht).
  rewrite (run_bind _ _ _ _ pr s) by (unfold get_proc; mred; by rewrite (list_lookup_total_correct _ _ _ Hp)).
  rewrite u32_small by done. rbind E. rewrite <- (growproc_end s v lab l U pr n r G Sv).
  destruct (Z.eqb_spec n 0), (Z.eqb_spec r 0); cbn [negb andb]; case_decide; try done; tauto.
Qed.

(** Out of the range of a [uint] nothing is done. *)
Lemma new_size_wrap s lab l U pr n :
  growable s i p pr lab l U n fuel → ¬ (0 ≤ p_sz pr + n < 2 ^ 32) → new_size (p_pml4 pr) (p_sz pr) n fuel s = Ret (p_sz pr) s.
Proof.
  intros [_ _ _ _ _ [Hsz _] Hn _] Hw. unfold new_size. destruct (Z.ltb_spec 0 n) as [H|H]; [|destruct (Z.ltb_spec n 0); [|lia]].
  - assert (u32 (p_sz pr + n) = p_sz pr + n - 2 ^ 32) as -> by (unfold u32; Z.to_euclidean_division_equations; lia).
    unfold allocuvm. rewrite (proj2 (Z.leb_gt _ _)) by (unfold KERNBASE; lia). rewrite (proj2 (Z.ltb_lt _ _)) by lia. mred. by rewrite u32_s32.
  - assert (u32 (p_sz pr + n) = p_sz pr + n + 2 ^ 32) as -> by (unfold u32; Z.to_euclidean_division_equations; lia).
    unfold deallocuvm. rewrite (proj2 (Z.leb_le _ _)) by lia. mred. by rewrite u32_s32.
Qed.

Lemma new_size_run s lab l U pr n :
  growable s i p pr lab l U n fuel → let sz := p_sz pr in
  ∃ r v lab' l' U', new_size (p_pml4 pr) sz n fuel s = Ret r v ∧ uvm v i (p_pml4 pr) lab' l' U' ∧ astep s v lab lab' l l' U U' ∧
    (resized n sz U U' (k_mem v) r ∨ 0 < n ∧ r = 0 ∧ U' = U ∧ Z.of_nat (length l) ≤ 4 * (pgs (sz + n) - pgs sz)).
Proof.
  intros G sz. unfold resized. case_decide as Hw.
  2:{ exists sz, s, lab, l, U. split; [by eapply new_size_wrap|]. split; [apply G|]. split; [apply astep_refl|]. by left. }
  pose proof G as [_ _ _ Hpr V [Hsz HU] Hn [Hf Hff]]. fold sz in Hsz, HU, Hff. unfold new_size. destruct (Z.ltb_spec 0 n) as [Hp|Hp].
  - rewrite u32_small by done.
    destruct (allocuvm_run i fuel (p_pml4 pr) s lab l U sz (sz + n) (Z.lor PTE_XD PTE_W) Hf Hff V Hpr) as (r & v & lab' & l' & U' & E & V' & A' & Hr);
      [done|lia|lia|intros x Hx; apply HU; lia|]. exists (u32 r), v, lab', l', U'. rbind E. split; [done|]. split; [done|]. split; [done|].
    rewrite decide_False by lia. destruct Hr as [[-> Hg]|(-> & -> & Hl)]; [left; by rewrite u32_s32|by right].
  - destruct (Z.ltb_spec n 0) as [Hm|Hm].
    + rewrite u32_small by done. destruct (deallocuvm_run i fuel (p_pml4 pr) s lab l U sz (sz + n) (pgs (sz + n)) (pgs sz) Hf V) as (v & l' & E & V' & A');
        [left; lia|left; lia|lia|]. exists (sz + n), v, lab, l', (cut (pgs (sz + n)) (pgs sz) U). rbind E. rewrite u32_s32 by done.
      rewrite decide_True by done. split; [done|]. split; [done|]. split; [done|]. by left.
    + exists sz, s, lab, l, U. split; [done|]. split; [done|]. split; [apply astep_refl|]. left. rewrite decide_False by lia. assert (sz + n = sz) as -> by lia.
      split; [done|]. apply grown_empty.
Qed.
End growproc.

