(* ===== verification/Console.v ===== *)
(** Console input and the console device: [consoleintr], [consoleread],
    [consolewrite] and [consoleinit] of kernel/console.c, [kbdgetc] and
    [kbdintr] of kernel/kbd.c, [uartgetc] and [uartintr] of kernel/uart.c.

    The theorems show that [consoleintr] is a line editor: the ring buffer with
    its three 32-bit indices holds the finished lines and the line being
    typed. *)

From stdpp Require Import base list gmap strings.
From Stdlib Require Import ZArith Lia.
From S2P Require Import Prelude Bytes Ring Kbd Monad Kstate Spinlock Sched Cons Bio Log Fs Pipe Proc.

Definition INPUT_BUF : Z := 128.

(** * Input devices *)

Definition cons_set_kbd (shift : Z) (kbd : list Z) (c : consrec) : consrec :=
  mkCons (cn_buf c) (cn_r c) (cn_w c) (cn_e c) (cn_locking c) (cn_panicked c) (cn_out c) shift kbd
    (cn_uart c) (cn_rx c).
Definition cons_set_rx (rx : list Z) (c : consrec) : consrec :=
  mkCons (cn_buf c) (cn_r c) (cn_w c) (cn_e c) (cn_locking c) (cn_panicked c) (cn_out c) (cn_shift c)
    (cn_kbd c) (cn_uart c) rx.

(** The status port shows [KBS_DIB] while a byte waits at the data port. *)
Definition kbdgetc : K Z :=
  kbd ← getcons cn_kbd;
  match kbd with
  | [] => mret (-1)
  | data :: kbd =>
      shift ← getcons cn_shift;
      let '(shift, c) := kbd_code shift data in
      modcons (cons_set_kbd shift kbd);;
      mret c
  end.

Definition uartgetc : K Z :=
  uart ← getcons cn_uart;
  if uart =? 0 then mret (-1) else
  rx ← getcons cn_rx;
  match rx with
  | [] => mret (-1)
  | c :: rx => modcons (cons_set_rx rx);; mret c
  end.

(** * The line editor *)

Definition cons_input (buf : list Z) (r w e : Z) (c : consrec) : consrec :=
  mkCons buf r w e (cn_locking c) (cn_panicked c) (cn_out c) (cn_shift c) (cn_kbd c) (cn_uart c) (cn_rx c).
Definition set_e (e : Z) (c : consrec) : consrec := cons_input (cn_buf c) (cn_r c) (cn_w c) e c.
Definition set_r (r : Z) (c : consrec) : consrec := cons_input (cn_buf c) r (cn_w c) (cn_e c) c.
(** [input.buf[input.e++ % INPUT_BUF] = c]. *)
Definition put_e (ch : Z) (c : consrec) : consrec :=
  cons_input (<[Z.to_nat (cn_e c mod INPUT_BUF) := u8 ch]> (cn_buf c)) (cn_r c) (cn_w c) (u32 (cn_e c + 1)) c.
(** [input.w = input.e]. *)
Definition commit_e (c : consrec) : consrec := cons_input (cn_buf c) (cn_r c) (cn_e c) (cn_e c) c.

(** The last character of the line being typed. *)
Definition last_e (c : consrec) : Z := cn_buf c !!! Z.to_nat (u32 (cn_e c - 1) mod INPUT_BUF).

Definition kill_round (_ : unit) : K (unit + unit) :=
  c ← getcons id;
  if (negb (cn_e c =? cn_w c) && negb (last_e c =? 10))%bool then
    modcons (set_e (u32 (cn_e c - 1)));;
    consputc BACKSPACE;;
    mret (inl tt)
  else mret (inr tt).
Definition kill_line : K unit := whileM kill_round tt.

Definition rub_out : K unit :=
  c ← getcons id;
  whenM (negb (cn_e c =? cn_w c))
    (modcons (set_e (u32 (cn_e c - 1)));; consputc BACKSPACE).

Definition type_char (ch : Z) : K unit :=
  c ← getcons id;
  whenM (negb (ch =? 0) && (u32 (cn_e c - cn_r c) <? INPUT_BUF))
    (let ch := if ch =? 13 then 10 else ch in
     modcons (put_e ch);;
     consputc ch;;
     c ← getcons id;
     whenM ((ch =? 10) || (ch =? C 68) || (cn_e c =? u32 (cn_r c + INPUT_BUF)))
       (modcons commit_e;; wakeup ChInput)).

(** One round of the switch; the new value of [doprocdump]. *)
Definition consoleintr_char (ch : Z) (doprocdump : bool) : K bool :=
  if ch =? C 80 then mret true else
  if ch =? C 85 then kill_line;; mret doprocdump else
  if ((ch =? C 72) || (ch =? 127))%bool then rub_out;; mret doprocdump else
  type_char ch;; mret doprocdump.

Definition consoleintr_round (getc : K Z) (doprocdump : bool) : K (bool + bool) :=
  ch ← getc;
  if ch <? 0 then mret (inr doprocdump) else
  d ← consoleintr_char ch doprocdump;
  mret (inl d).

(** [pcs] is what [procdump] finds on the stack. *)
Definition consoleintr (pcs : list Z) (getc : K Z) : K unit :=
  acquire LkCons;;
  doprocdump ← whileM (consoleintr_round getc) false;
  release LkCons;;
  whenM doprocdump (procdump pcs).

Definition kbdintr (pcs : list Z) : K unit := consoleintr pcs kbdgetc.
Definition uartintr (pcs : list Z) : K unit := consoleintr pcs uartgetc.

(** * The device *)

(** The wait for a character; [true] when the reader has to give up. *)
Definition consoleread_wait : K bool :=
  whileM (λ _ : unit,
    c ← getcons id;
    if negb (cn_r c =? cn_w c) then mret (inr false) else
    k ← killed;
    if (k : bool) then mret (inr true) else
    sleep ChInput (Some LkCons);;
    mret (inl tt)) tt.

(** The loop with [n] of [target] bytes left to read; the bytes, and whether
    the reader was killed. *)
Fixpoint consoleread_loop (n target : nat) : K (bool * list Z) :=
  match n with
  | O => mret (false, [])
  | S n' =>
      k ← consoleread_wait;
      if (k : bool) then mret (true, []) else
      cn ← getcons id;
      let c := cn_buf cn !!! Z.to_nat (cn_r cn mod INPUT_BUF) in
      modcons (set_r (u32 (cn_r cn + 1)));;
      if c =? C 68 then
        whenM (bool_decide (n < target)%nat) (modcons (set_r (cn_r cn)));;
        mret (false, [])
      else if c =? 10 then mret (false, [c])
      else
        r ← consoleread_loop n' target;
        mret (r.1, c :: r.2)
  end.

Definition consoleread (ip : nat) (n : Z) : K (Z * list Z) :=
  iunlock (Some ip);;
  acquire LkCons;;
  r ← consoleread_loop (Z.to_nat n) (Z.to_nat n);
  release LkCons;;
  ilock (Some ip);;
  if (r.1 : bool) then mret (-1, r.2)
  else mret (Z.of_nat (length r.2), r.2).

Fixpoint consputbytes (buf : list Z) : K unit :=
  match buf with
  | [] => mret tt
  | c :: buf => consputc (s8 c);; consputbytes buf
  end.

Definition consolewrite (ip : nat) (buf : list Z) (n : Z) : K Z :=
  iunlock (Some ip);;
  acquire LkCons;;
  consputbytes (take (Z.to_nat n) buf);;
  release LkCons;;
  ilock (Some ip);;
  mret n.

(** The [devsw] that [consoleinit] fills in. *)
Definition console_devsw (major : Z) : devops :=
  if major =? CONSOLE then mkDevops (Some consoleread) (Some consolewrite) else mkDevops None None.

Definition consoleinit : K unit :=
  initlock LkCons "console";;
  modcons (λ c, mkCons (cn_buf c) (cn_r c) (cn_w c) (cn_e c) 1 (cn_panicked c) (cn_out c) (cn_shift c)
                  (cn_kbd c) (cn_uart c) (cn_rx c)).

(** * The line editor's contract *)

#[global] Instance input_ring : RingSize INPUT_BUF.
Proof. split; [done|done|]. by exists (2 ^ 25). Qed.

(** What the console holds: the characters that can be read, and the line that
    is being typed. *)
Record lines := mkLines { committed : list Z; typed : list Z }.

Definition room (l : lines) : bool := Z.of_nat (length (committed l ++ typed l)) <? INPUT_BUF.

(** The editor, one character at a time, with what it echoes. *)
Definition edit (ch : Z) (l : lines) : lines * list Z :=
  if ch =? C 80 then (l, []) else
  if ch =? C 85 then (mkLines (committed l) [], concat (replicate (length (typed l)) (echo BACKSPACE))) else
  if (ch =? C 72) || (ch =? 127) then
    match typed l with
    | [] => (l, [])
    | _ => (mkLines (committed l) (removelast (typed l)), echo BACKSPACE)
    end
  else if negb (ch =? 0) && room l then
    let ch := if ch =? 13 then 10 else ch in
    let t := typed l ++ [ch] in
    if (ch =? 10) || (ch =? C 68) || (Z.of_nat (length (committed l ++ t)) =? INPUT_BUF)
    then (mkLines (committed l ++ t) [], echo ch)
    else (mkLines (committed l) t, echo ch)
  else (l, []).

Fixpoint edits (cs : list Z) (l : lines) : lines * list Z :=
  match cs with
  | [] => (l, [])
  | ch :: cs =>
      let '(l1, o1) := edit ch l in
      let '(l2, o2) := edits cs l1 in
      (l2, o1 ++ o2)
  end.

(** The buffer and its three counters hold these lines. *)
Definition input_rep (c : consrec) (l : lines) : Prop :=
  ring_of INPUT_BUF (cn_buf c) (cn_r c) (cn_e c) (committed l ++ typed l) ∧
  cn_w c = u32 (cn_r c + Z.of_nat (length (committed l))) ∧
  10 ∉ typed l.

Section editor.
Context (fuel : nat).
Implicit Types (c : consrec) (l : lines) (s : kstate).

Lemma input_lengths c l :
  input_rep c l → 0 ≤ Z.of_nat (length (committed l)) + Z.of_nat (length (typed l)) ≤ 128.
Proof. intros (H&_&_). apply ring_length in H; [|apply _]. rewrite length_app in H. unfold INPUT_BUF in H. lia. Qed.

(** [input.e != input.w] exactly when something has been typed. *)
Lemma typed_empty c l : input_rep c l → (cn_e c =? cn_w c) = true ↔ typed l = [].
Proof.
  intros Hr. pose proof (input_lengths _ _ Hr). destruct Hr as ((_&_&_&He&_)&Hw&_).
  rewrite Z.eqb_eq, He, Hw, length_app, counter_eq by lia.
  rewrite <- length_zero_iff_nil. lia.
Qed.

(** Taking back the last character typed. *)
Lemma untype c cm t ch :
  input_rep c (mkLines cm (t ++ [ch])) →
  last_e c = ch ∧ input_rep (set_e (u32 (cn_e c - 1)) c) (mkLines cm t).
Proof.
  intros (Hr&Hw&Hn). simpl in *. rewrite app_assoc in Hr.
  destruct (ring_unpush _ _ _ _ _ _ Hr) as [Hl Hr']. split; [done|].
  split_and!; [done|done|]. simpl. set_solver.
Qed.

Lemma consputc_run s ch :
  cn_panicked (k_cons s) = 0 →
  consputc ch fuel s = Ret tt (set_cons (cons_put (echo ch) (k_cons s)) s).
Proof. intros H. unfold consputc, getcons. mred. rewrite H. done. Qed.

(** What a round changes: the input buffer, the output, and, when a line is
    finished, the processes that wait for one. *)
Definition edited s s' l l' (o : list Z) : Prop :=
  ∃ c pt, s' = set_cons c (set_pt pt s) ∧ input_rep c l' ∧ cn_out c = cn_out (k_cons s) ++ o ∧
    cn_panicked c = cn_panicked (k_cons s) ∧ cn_locking c = cn_locking (k_cons s) ∧
    cn_shift c = cn_shift (k_cons s) ∧ cn_kbd c = cn_kbd (k_cons s) ∧
    cn_uart c = cn_uart (k_cons s) ∧ cn_rx c = cn_rx (k_cons s) ∧
    (pt = k_pt s ∧ committed l' = committed l ∨ pt = pt_upd (map (wake_proc ChInput)) (k_pt s)).

Lemma edited_refl s l : input_rep (k_cons s) l → edited s s l l [].
Proof. intros H. exists (k_cons s), (k_pt s). rewrite app_nil_r. split; [by destruct s|]. by split_and!; try left. Qed.

(** [input.e--] and the echo of a backspace. *)
Lemma backspace_run s cm t ch :
  input_rep (k_cons s) (mkLines cm (t ++ [ch])) → cn_panicked (k_cons s) = 0 →
  ∃ s', (modcons (set_e (u32 (cn_e (k_cons s) - 1)));; consputc BACKSPACE) fuel s = Ret tt s' ∧
    edited s s' (mkLines cm (t ++ [ch])) (mkLines cm t) (echo BACKSPACE).
Proof.
  intros Hr Hp. destruct (untype _ _ _ _ Hr) as [_ Hr']. unfold modcons. mred.
  rewrite consputc_run by done. eexists. split; [done|].
  eexists _, (k_pt s). split; [by destruct s|]. by split_and!; try left.
Qed.

Lemma rub_out_run s l :
  input_rep (k_cons s) l → cn_panicked (k_cons s) = 0 →
  ∃ s', rub_out fuel s = Ret tt s' ∧
    edited s s' l (edit 127 l).1 (edit 127 l).2.
Proof.
  intros Hr Hp. destruct l as [cm t]. unfold rub_out, getcons. mred. unfold id.
  pose proof (typed_empty _ _ Hr) as He. simpl in He.
  destruct (cn_e (k_cons s) =? cn_w (k_cons s)).
  - rewrite (proj1 He eq_refl) in *. simpl. eexists. split; [done|]. by apply edited_refl.
  - destruct t as [|ch t _] using rev_ind; [naive_solver|]. simpl whenM.
    destruct (backspace_run s cm t ch) as (s'&E&Hs'); [done..|]. rewrite E. exists s'. split; [done|].
    unfold edit. simpl. rewrite removelast_last. by destruct (t ++ [ch]) eqn:E'; [destruct t|].
Qed.

Lemma wake_proc_idem ch p : wake_proc ch (wake_proc ch p) = wake_proc ch p.
Proof.
  unfold wake_proc. destruct (bool_decide_reflect (p_state p = SLEEPING ∧ p_chan p = Some ch)) as [H|H].
  - rewrite bool_decide_false; [done|]. by intros [? _].
  - by rewrite bool_decide_false.
Qed.

Lemma wake_twice ch pt : pt_upd (map (wake_proc ch)) (pt_upd (map (wake_proc ch)) pt) = pt_upd (map (wake_proc ch)) pt.
Proof. unfold pt_upd. simpl. f_equal. rewrite map_map. apply map_ext, wake_proc_idem. Qed.

Lemma edited_trans s s1 s2 l l1 l2 o1 o2 :
  edited s s1 l l1 o1 → edited s1 s2 l1 l2 o2 → edited s s2 l l2 (o1 ++ o2).
Proof.
  intros (c1&pt1&->&R1&O1&A1&A2&A3&A4&A5&A6&W1) (c2&pt2&->&R2&O2&B1&B2&B3&B4&B5&B6&W2). simpl in *.
  exists c2, pt2. split; [done|]. rewrite app_assoc, <- O1.
  split_and!; try done; try congruence.
  destruct W1 as [[-> E1]| ->], W2 as [[-> E2]| ->]; [left; split; congruence|by right|by right|].
  right. apply wake_twice.
Qed.

Lemma kill_round_stop s cm : input_rep (k_cons s) (mkLines cm []) → kill_round tt fuel s = Ret (inr tt) s.
Proof.
  intros Hr. unfold kill_round, getcons. mred. unfold id.
  by rewrite (proj2 (typed_empty _ _ Hr) eq_refl).
Qed.

Lemma kill_round_go s cm t ch :
  input_rep (k_cons s) (mkLines cm (t ++ [ch])) → cn_panicked (k_cons s) = 0 →
  ∃ s', kill_round tt fuel s = Ret (inl tt) s' ∧
    edited s s' (mkLines cm (t ++ [ch])) (mkLines cm t) (echo BACKSPACE).
Proof.
  intros Hr Hp. unfold kill_round, getcons. mred. unfold id.
  assert ((cn_e (k_cons s) =? cn_w (k_cons s)) = false) as ->.
  { apply not_true_iff_false. rewrite (typed_empty _ _ Hr). simpl. by destruct t. }
  destruct (untype _ _ _ _ Hr) as [-> _].
  assert ((ch =? 10) = false) as ->.
  { apply Z.eqb_neq. intros ->. destruct Hr as (_&_&Hn10). simpl in Hn10. set_solver. }
  simpl. destruct (backspace_run s cm t ch) as (s1&E1&H1); [done..|]. revert E1. unfold modcons. mred.
  intros E1. rewrite E1. mred. by exists s1.
Qed.

Lemma kill_line_run s l :
  input_rep (k_cons s) l → cn_panicked (k_cons s) = 0 → (128 < fuel)%nat →
  ∃ s', kill_line fuel s = Ret tt s' ∧ edited s s' l (edit (C 85) l).1 (edit (C 85) l).2.
Proof.
  intros Hr Hp Hf. pose proof (input_lengths _ _ Hr). destruct l as [cm t]. simpl in *.
  unfold kill_line, whileM.
  assert (∀ n, (length t < n)%nat → ∃ s', loop_fuel n kill_round tt fuel s = Ret tt s' ∧
    edited s s' (mkLines cm t) (mkLines cm []) (concat (replicate (length t) (echo BACKSPACE)))) as L;
    [|apply L; lia].
  clear Hf H. revert s Hr Hp. induction t as [|ch t IH] using rev_ind; intros s Hr Hp n Hn;
    (destruct n as [|n]; [lia|]); rewrite loop_fuel_S.
  - rewrite (kill_round_stop s cm) by done. eexists. split; [done|]. by apply edited_refl.
  - rewrite length_app in *. simpl in Hn.
    destruct (kill_round_go s cm t ch) as (s1&E1&H1); [done..|]. rewrite E1. cbn [obind].
    destruct (IH s1) with (n := n) as (s2&E2&H2); [| |lia|].
    { destruct H1 as (c&pt&->&Hrep&_). exact Hrep. }
    { destruct H1 as (c&pt&->&_&_&Hpc&_). simpl. congruence. }
    exists s2. split; [done|]. rewrite Nat.add_comm. simpl. eapply (edited_trans _ _ _ _ _ _ _ _ H1 H2).
Qed.

(** The state in which interrupt handlers take the process table's lock. *)
Definition can_wake s : Prop := ∃ i, cpu_ok (k_ctx s) i ∧ lock_free (k_ctx s) LkPtable.

(** [input.buf[input.e++ % INPUT_BUF] = c] on a buffer with room. *)
Lemma put_e_rep c l ch :
  input_rep c l → room l = true → 0 ≤ ch < 256 → ch ≠ 10 →
  input_rep (put_e ch c) (mkLines (committed l) (typed l ++ [ch])).
Proof.
  intros (Hr&Hw&Hn) Hroom Hch H10. unfold room in Hroom. apply Z.ltb_lt in Hroom.
  assert (u8 ch = ch) as E by (apply Z.mod_small; lia).
  split_and!; [|done|simpl; set_solver]. simpl. rewrite E, app_assoc. by apply ring_push; [apply _|..].
Qed.

Lemma commit_rep c l ch :
  input_rep c l → room l = true → 0 ≤ ch < 256 →
  input_rep (commit_e (put_e ch c)) (mkLines (committed l ++ typed l ++ [ch]) []).
Proof.
  intros (Hr&Hw&Hn) Hroom Hch. unfold room in Hroom. apply Z.ltb_lt in Hroom.
  assert (u8 ch = ch) as E by (apply Z.mod_small; lia).
  pose proof (ring_push _ _ _ _ _ ch Hr Hroom) as Hp.
  split_and!; simpl; [|..|set_solver].
  - rewrite E, app_nil_r, app_assoc. exact Hp.
  - destruct Hp as (_&_&_&->&_). by rewrite app_assoc.
Qed.

Lemma room_spec c l :
  input_rep c l → (u32 (cn_e c - cn_r c) <? INPUT_BUF) = room l.
Proof.
  intros Hr. pose proof (input_lengths _ _ Hr). destruct Hr as ((_&_&_&He&_)&_&_).
  unfold room. rewrite He, counter_sub; [done|]. rewrite length_app. lia.
Qed.

Lemma full_spec c l ch :
  input_rep c l → room l = true →
  (cn_e (put_e ch c) =? u32 (cn_r c + INPUT_BUF)) =
  (Z.of_nat (length (committed l ++ typed l ++ [ch])) =? INPUT_BUF).
Proof.
  intros (Hr&_&_) Hroom. unfold room in Hroom. apply Z.ltb_lt in Hroom.
  pose proof (ring_push _ _ _ _ _ (u8 ch) Hr Hroom) as Hp. apply ring_full in Hp; [|apply _].
  rewrite <- app_assoc in Hp. apply eq_true_iff_eq. rewrite Z.eqb_eq at 1. simpl in *.
  rewrite Z.eqb_eq in Hp. rewrite Hp, Z.eqb_eq, !length_app. done.
Qed.

Lemma type_char_run s l ch :
  input_rep (k_cons s) l → cn_panicked (k_cons s) = 0 → can_wake s → 0 ≤ ch < 256 →
  negb (ch =? C 80) && negb (ch =? C 85) && negb (ch =? C 72) && negb (ch =? 127) = true →
  ∃ s', type_char ch fuel s = Ret tt s' ∧ edited s s' l (edit ch l).1 (edit ch l).2.
Proof.
  intros Hr Hp (i&Hok&Hpt) Hch Hother. unfold type_char, edit.
  destruct (ch =? C 80), (ch =? C 85), (ch =? C 72), (ch =? 127); try done. clear Hother. cbn [orb].
  unfold getcons. mred. unfold id. rewrite (room_spec _ l) by done.
  destruct (negb (ch =? 0) && room l) eqn:Hgo; simpl whenM; mred.
  2:{ eexists. split; [done|]. by apply edited_refl. }
  apply andb_true_iff in Hgo as [_ Hroom].
  set (ch' := if ch =? 13 then 10 else ch).
  assert (Hch' : 0 ≤ ch' < 256) by (unfold ch'; case_match; lia). clearbody ch'. clear Hch.
  unfold modcons. mred. rewrite consputc_run by done. mred.
  simpl cn_e. simpl cn_r. pose proof (full_spec _ _ ch' Hr Hroom) as Hfull. simpl in Hfull. rewrite Hfull.
  destruct ((ch' =? 10) || (ch' =? C 68) || _) eqn:Hend; simpl whenM; mred.
  - rewrite (wakeup_run _ _ i) by done. eexists. split; [done|]. eexists _, _. split; [done|].
    split_and!; try done; [|by right]. apply (commit_rep _ l ch' Hr Hroom Hch').
  - eexists. split; [done|]. eexists _, (k_pt s). split; [by destruct s|].
    split_and!; try done; [|by left]. apply (put_e_rep _ l ch' Hr Hroom Hch').
    rewrite !orb_false_iff, Z.eqb_neq in Hend. tauto.
Qed.
End editor.

(** * Sources of characters *)

(** Two console states with the same input buffer and screen. *)
Definition same_screen (c d : consrec) : Prop :=
  cn_buf d = cn_buf c ∧ cn_r d = cn_r c ∧ cn_w d = cn_w c ∧ cn_e d = cn_e c ∧
  cn_locking d = cn_locking c ∧ cn_panicked d = cn_panicked c ∧ cn_out d = cn_out c.
(** Two console states with the same input devices. *)
Definition same_devices (c d : consrec) : Prop :=
  cn_shift d = cn_shift c ∧ cn_kbd d = cn_kbd c ∧ cn_uart d = cn_uart c ∧ cn_rx d = cn_rx c.

(** What [consoleintr] is promised of the function it is passed: it delivers
    the pending characters one by one, then a negative value. *)
Class CharSource (getc : K Z) (pending : consrec → list Z) : Prop := {
  src_next fuel s c cs : pending (k_cons s) = c :: cs →
    ∃ d, getc fuel s = Ret c (set_cons d s) ∧ pending d = cs ∧ same_screen (k_cons s) d;
  src_end fuel s : pending (k_cons s) = [] → getc fuel s = Ret (-1) s;
  src_devices c d : same_devices c d → pending d = pending c
}.

Definition uart_pending (c : consrec) : list Z := if cn_uart c =? 0 then [] else cn_rx c.

(** The characters of the key codes [ds]. *)
Fixpoint kbd_chars (shift : Z) (ds : list Z) : list Z :=
  match ds with
  | [] => []
  | d :: ds => let '(shift, c) := kbd_code shift d in c :: kbd_chars shift ds
  end.
Definition kbd_pending (c : consrec) : list Z := kbd_chars (cn_shift c) (cn_kbd c).

#[global] Instance uart_source : CharSource uartgetc uart_pending.
Proof.
  split.
  - intros fuel s c cs E. unfold uart_pending in E. unfold uartgetc, getcons, modcons. mred.
    destruct (cn_uart (k_cons s) =? 0) eqn:Hu; [done|]. mred. rewrite E. mred.
    eexists. split; [done|]. unfold uart_pending. simpl. rewrite Hu. by split_and!.
  - intros fuel s E. unfold uart_pending in E. unfold uartgetc, getcons. mred.
    destruct (cn_uart (k_cons s) =? 0); [done|]. mred. by rewrite E.
  - intros c d (_&_&Hu&Hx). unfold uart_pending. by rewrite Hu, Hx.
Qed.

#[global] Instance kbd_source : CharSource kbdgetc kbd_pending.
Proof.
  split.
  - intros fuel s c cs E. unfold kbd_pending in E. unfold kbdgetc, getcons, modcons. mred.
    destruct (cn_kbd (k_cons s)) as [|x ds]; [done|]. simpl in E. mred.
    destruct (kbd_code (cn_shift (k_cons s)) x) as [sh ch]. injection E as <- <-. mred.
    eexists. split; [done|]. by split_and!.
  - intros fuel s E. unfold kbd_pending in E. unfold kbdgetc, getcons. mred.
    destruct (cn_kbd (k_cons s)) as [|x ds]; [done|]. simpl in E. by destruct (kbd_code _ x).
  - intros c d (Hs&Hk&_&_). unfold kbd_pending. by rewrite Hs, Hk.
Qed.

Section interrupt.
Context (getc : K Z) (pending : consrec → list Z) `{!CharSource getc pending} (fuel : nat).
Implicit Types (l : lines) (s : kstate) (cs : list Z).

Lemma screen_rep c d l : same_screen c d → input_rep c l → input_rep d l.
Proof. intros (E1&E2&E3&E4&_). unfold input_rep. by rewrite E1, E2, E3, E4. Qed.

Lemma char_run s l ch dump :
  input_rep (k_cons s) l → cn_panicked (k_cons s) = 0 → can_wake s → 0 ≤ ch < 256 → ch ≠ C 80 →
  (128 < fuel)%nat →
  ∃ s', consoleintr_char ch dump fuel s = Ret dump s' ∧ edited s s' l (edit ch l).1 (edit ch l).2.
Proof.
  intros Hr Hp Hw Hch HP Hf. unfold consoleintr_char.
  rewrite (proj2 (Z.eqb_neq ch (C 80)) HP).
  destruct (Z.eqb_spec ch (C 85)) as [->|HU].
  { destruct (kill_line_run fuel s l) as (s'&E&H); [done..|]. mred. rewrite E. mred. by exists s'. }
  destruct ((ch =? C 72) || (ch =? 127)) eqn:HB.
  { destruct (rub_out_run fuel s l) as (s'&E&H); [done..|]. mred. rewrite E. mred. exists s'. split; [done|].
    replace (edit ch l) with (edit 127 l); [done|]. unfold edit. rewrite (proj2 (Z.eqb_neq ch (C 80)) HP), HB.
    by rewrite (proj2 (Z.eqb_neq ch (C 85)) HU). }
  apply orb_false_iff in HB as [HB1 HB2].
  destruct (type_char_run fuel s l ch) as (s'&E&H); [done..| |].
  { rewrite HB1, HB2, (proj2 (Z.eqb_neq ch (C 80)) HP), (proj2 (Z.eqb_neq ch (C 85)) HU). done. }
  mred. rewrite E. mred. by exists s'.
Qed.

(** What the handler does to the state for the characters [cs]. *)
Definition handled s s' l cs : Prop :=
  ∃ c pt, s' = set_cons c (set_pt pt s) ∧ input_rep c (edits cs l).1 ∧
    cn_out c = cn_out (k_cons s) ++ (edits cs l).2 ∧ pending c = [] ∧
    (pt = k_pt s ∧ committed (edits cs l).1 = committed l ∨ pt = pt_upd (map (wake_proc ChInput)) (k_pt s)).

Lemma handled_cons s d s1 s' l ch cs :
  same_screen (k_cons s) d → edited (set_cons d s) s1 l (edit ch l).1 (edit ch l).2 →
  handled s1 s' (edit ch l).1 cs → handled s s' l (ch :: cs).
Proof.
  intros (_&_&_&_&_&_&HO) (c1&pt1&->&_&O1&_&_&_&_&_&_&W1) (c2&pt2&->&R2&O2&P2&W2). simpl in *.
  exists c2, pt2. split; [done|]. cbn [edits]. destruct (edit ch l) as [l1 o1]. simpl in *.
  destruct (edits cs l1) as [l2 o2]. simpl in *. split_and!; try done.
  { by rewrite O2, O1, HO, app_assoc. }
  destruct W1 as [[-> E1]| ->], W2 as [[-> E2]| ->]; [left; split; congruence|by right|by right|].
  right. apply wake_twice.
Qed.

Lemma interrupt_loop cs s l dump n :
  pending (k_cons s) = cs → input_rep (k_cons s) l → cn_panicked (k_cons s) = 0 → can_wake s →
  Forall (λ c, 0 ≤ c < 256 ∧ c ≠ C 80) cs → (128 < fuel)%nat → (length cs < n)%nat →
  ∃ s', loop_fuel n (consoleintr_round getc) dump fuel s = Ret dump s' ∧ handled s s' l cs.
Proof.
  revert s l n. induction cs as [|ch cs IH]; intros s l n Hpe Hr Hp Hw Hcs Hf Hn;
    (destruct n as [|n]; [simpl in Hn; lia|]); rewrite loop_fuel_S; unfold consoleintr_round at 2; mred.
  - rewrite (src_end (getc := getc) (pending := pending)) by done. mred. exists s. split; [done|].
    exists (k_cons s), (k_pt s). split; [by destruct s|]. rewrite app_nil_r. by split_and!; try left.
  - apply Forall_cons in Hcs as [[Hch HP] Hcs].
    destruct (src_next (getc := getc) (pending := pending) fuel s ch cs Hpe) as (d&Ed&Hpd&Hsc). rewrite Ed. mred.
    assert ((ch <? 0) = false) as -> by (apply Z.ltb_ge; lia). mred.
    destruct (char_run (set_cons d s) l ch dump) as (s1&E1&H1); try done.
    { by eapply screen_rep. }
    { destruct Hsc as (_&_&_&_&_&Hpan&_). simpl. congruence. }
    rewrite E1. mred. pose proof H1 as (c1&pt1&->&R1&_&P1&_&A1&A2&A3&A4&_). simpl in *.
    pose proof Hsc as (_&_&_&_&_&Hpan&_).
    destruct (IH (set_cons c1 (set_pt pt1 (set_cons d s))) (edit ch l).1 n) as (s2&E2&H2); try done; try lia.
    { simpl. rewrite <- Hpd. by apply (src_devices (getc := getc)). }
    { simpl. congruence. }
    exists s2. split; [done|]. by eapply handled_cons.
Qed.

(** C18: The handler is the line editor: from a console that holds the lines [l] it
    takes every pending character of the device, leaves the lines that the
    editor makes of them, echoes what the editor echoes, and, when a line was
    finished, leaves no process asleep on the console. This holds for the
    keyboard and for the serial port, and when the 32-bit indices wrap. *)
Theorem consoleintr_edits s i l pcs :
  cpu_ok (k_ctx s) i → lock_free (k_ctx s) LkCons → lock_free (k_ctx s) LkPtable →
  input_rep (k_cons s) l → cn_panicked (k_cons s) = 0 →
  Forall (λ c, 0 ≤ c < 256 ∧ c ≠ C 80) (pending (k_cons s)) →
  (128 < fuel)%nat → (length (pending (k_cons s)) < fuel)%nat →
  let r := edits (pending (k_cons s)) l in
  ∃ s', consoleintr pcs getc fuel s = Ret tt s' ∧ input_rep (k_cons s') r.1 ∧
    cn_out (k_cons s') = cn_out (k_cons s) ++ r.2 ∧ pending (k_cons s') = [] ∧ k_ctx s' = k_ctx s ∧
    (committed r.1 ≠ committed l →
     ∀ p, p ∈ pt_proc (k_pt s') → ¬ (p_state p = SLEEPING ∧ p_chan p = Some ChInput)).
Proof.
  intros Hok HlC HlP Hr Hp Hcs Hf Hn. cbn zeta. unfold consoleintr. mred.
  rewrite (acquire_run _ _ i) by done. mred.
  destruct (interrupt_loop (pending (k_cons s)) (set_ctx (x_acq i LkCons (k_ctx s)) s) l false fuel)
    as (s1&E1&(c&pt&->&R1&O1&P1&W1)); try done.
  { exists i. split; [by apply cpu_ok_acq|by apply lock_free_acq]. }
  unfold whileM. rewrite E1. mred. rewrite (release_run _ _ (k_ctx s) i) by done. mred.
  eexists. split; [done|]. split_and!; try done. intros Hc p Hin Hs. simpl in *.
  destruct W1 as [[_ E]| ->]; [done|]. simpl in Hin. apply list_elem_of_In, in_map_iff in Hin as (q&<-&_).
  unfold wake_proc in Hs. case_bool_decide as Hb; [by destruct Hs|done].
Qed.
End interrupt.
