(* ===== verification/Syscall.v ===== *)
(** System call arguments, kernel/syscall.c, and the process system calls,
    kernel/sysproc.c.

    The kernel reads and writes user memory through the page table the CPU
    runs on. An access to an address that is not mapped, or a write to a page
    that is not writable (CR0.WP is set), is a page fault in the kernel, for
    which [trap] panics. *)

From stdpp Require Import base list gmap strings.
From Stdlib Require Import ZArith Lia.
From S2P Require Import Prelude CString Bytes Sprintf Monad Kstate Spinlock Sched Cons Bio Log Fs Kalloc Vm Pipe File Proc.

(** * User memory *)

(** The entry the hardware uses for [va], from the table at [cr3]. *)
Definition hw_entry (m : mem) (cr3 va : Z) : option Z :=
  let table (e : Z) := P2V (PTE_ADDR e) in
  let e4 := rd64 m (entry PML4XSHIFT (table cr3) va) in
  if negb (present e4) then None else
  let e3 := rd64 m (entry PML3XSHIFT (table e4) va) in
  if negb (present e3) then None else
  let e2 := rd64 m (entry PML2XSHIFT (table e3) va) in
  if negb (present e2) then None else
  let e1 := rd64 m (entry PML1XSHIFT (table e2) va) in
  if negb (present e1) then None else Some e1.

(** The kernel address of the byte at [va], for a read or a write in kernel
    mode. *)
Definition hw_translate (m : mem) (cr3 va : Z) (write : bool) : option Z :=
  e ← hw_entry m cr3 va;
  if (write && (Z.land e PTE_W =? 0))%bool then None
  else Some (P2V (PTE_ADDR e + va mod PGSIZE)).

Definition cr3 : K Z := getx (λ x, hw_cr3 (x_hw x)).

(** A page fault taken in the kernel. *)
Definition kernel_fault {A} : K A := panic "trap".

Definition user_rd (va : Z) : K Z :=
  c ← cr3;
  a ← getmem (λ m, hw_translate m c va false);
  match a with
  | Some a => getmem (λ m, rd m a)
  | None => kernel_fault
  end.

Fixpoint user_rd_bytes (va : Z) (n : nat) : K (list Z) :=
  match n with
  | O => mret []
  | S n =>
      b ← user_rd va;
      l ← user_rd_bytes (va + 1) n;
      mret (b :: l)
  end.

Definition user_wr (va v : Z) : K unit :=
  c ← cr3;
  a ← getmem (λ m, hw_translate m c va true);
  match a with
  | Some a => modmem (λ m, wr m a v)
  | None => kernel_fault
  end.

Fixpoint user_wr_bytes (va : Z) (l : list Z) : K unit :=
  match l with
  | [] => mret tt
  | b :: l => user_wr va b;; user_wr_bytes (va + 1) l
  end.

(** * Arguments *)

(** [None] is the result -1. *)
Definition fetchlong (addr : Z) : K (option Z) :=
  p ← curproc;
  pr ← get_proc p;
  if ((p_sz pr <=? addr) || (p_sz pr <? u64 (addr + 8)))%bool then mret None else
  l ← user_rd_bytes addr 8;
  mret (Some (le_val l)).

(** The characters of the string, up to its NUL. *)
Definition fetchstr (addr : Z) : K (option (list Z)) :=
  p ← curproc;
  pr ← get_proc p;
  if p_sz pr <=? addr then mret None else
  whileM (λ '(s, acc),
    if negb (s <? p_sz pr) then mret (inr None) else
    c ← user_rd s;
    if c =? 0 then mret (inr (Some acc)) else mret (inl (s + 1, acc ++ [c]))) (addr, []).

Definition curtf : K trapframe :=
  p ← curproc;
  pr ← get_proc p;
  mret (p_tf pr).

Definition arglong (n : Z) : K (option Z) :=
  tf ← curtf;
  if n =? 0 then mret (Some (tf_rdi tf)) else
  if n =? 1 then mret (Some (tf_rsi tf)) else
  if n =? 2 then mret (Some (tf_rdx tf)) else
  if n =? 3 then mret (Some (tf_rcx tf)) else
  if n =? 4 then mret (Some (tf_r8 tf)) else
  if n =? 5 then mret (Some (tf_r9 tf)) else
  fetchlong (u64 (tf_rsp tf + 8 * (n + 1))).

Definition argint (n : Z) : K (option Z) :=
  i ← arglong n;
  mret (s32 <$> i).

Definition argptr (n size : Z) : K (option Z) :=
  p ← curproc;
  i ← arglong n;
  match i with
  | None => mret None
  | Some i =>
      pr ← get_proc p;
      if ((size <? 0) || (p_sz pr <=? i) || (p_sz pr <? u64 (i + size)))%bool
      then mret None else mret (Some i)
  end.

Definition argstr (n : Z) : K (option (list Z)) :=
  a ← arglong n;
  match a with
  | None => mret None
  | Some a => fetchstr a
  end.

(** * Process system calls *)

(** An int result as the unsigned long the stub returns. *)
Definition ret_int (r : Z) : Z := u64 r.
Definition fail : Z := u64 (-1).

Definition sys_fork : K Z := r ← fork; mret (ret_int r).
Definition sys_exit : K Z := exit;; mret 0.
Definition sys_wait : K Z := r ← wait; mret (ret_int r).

Definition sys_kill : K Z :=
  pid ← argint 0;
  match pid with
  | None => mret fail
  | Some pid => r ← kill pid; mret (ret_int r)
  end.

Definition sys_getpid : K Z :=
  p ← curproc;
  pr ← get_proc p;
  mret (ret_int (p_pid pr)).

Definition sys_sbrk : K Z :=
  n ← argint 0;
  match n with
  | None => mret fail
  | Some n =>
      p ← curproc;
      pr ← get_proc p;
      r ← growproc n;
      if r <? 0 then mret fail else mret (p_sz pr)
  end.

(** [ticks - ticks0 < n] compares as unsigned. *)
Definition sys_sleep : K Z :=
  n ← argint 0;
  match n with
  | None => mret fail
  | Some n =>
      acquire LkTicks;;
      ticks0 ← gets k_ticks;
      whileM (λ _ : unit,
        ticks ← gets k_ticks;
        if negb (u32 (ticks - ticks0) <? u32 n) then
          release LkTicks;;
          mret (inr 0)
        else
          k ← killed;
          if (k : bool) then
            release LkTicks;;
            mret (inr fail)
          else
            sleep ChTicks (Some LkTicks);;
            mret (inl tt)) tt
  end.

Definition sys_uptime : K Z :=
  acquire LkTicks;;
  xticks ← gets k_ticks;
  release LkTicks;;
  mret xticks.
