(* ===== verification/Umode.v ===== *)
(** Memory and ports as a program in user mode has them.

    The processor lets it use the pages whose entry has [PTE_U], and the ports
    the map of the task state segment allows. The theorem says what that is for
    an address space of the kernel: the pages of the process, and nothing else
    of the memory. *)

From stdpp Require Import base list gmap strings.
From Stdlib Require Import ZArith Lia.
From S2P Require Import Prelude Seg CString Bytes Monad Kstate Spinlock Cons Log Kalloc Vm Paging Uvm Uspace Syscall.

(** * Instructions in user mode *)

Definition T_GPFLT : Z := 13.
Definition T_PGFLT : Z := 14.

(** An access in user mode needs [PTE_U] in the entry of the page; the tables
    above it all have it ([walkpgdir]). *)
Definition user_at (m : mem) (cr3 va : Z) (write : bool) : option Z :=
  e ← hw_entry m cr3 va;
  if Z.land e PTE_U =? 0 then None else hw_translate m cr3 va write.

(** What becomes of an instruction: a result, or an exception with its number,
    error code and address. *)
Inductive executed := Result (r : Z) (bs : list Z) (s : kstate) | Fault (n err addr : Z).

(** The error code of a page fault in user mode. *)
Definition pf_err (m : mem) (cr3 va : Z) (write : bool) : Z :=
  4 + (if write then 2 else 0) + (if hw_entry m cr3 va then 1 else 0).

(** The first of the [n] bytes at [a] that cannot be accessed is the one that
    faults. *)
Definition access (s : kstate) (a : Z) (n : nat) (write : bool) : list Z + executed :=
  let cr3 := hw_cr3 (x_hw (k_ctx s)) in
  let vas := seqZ a (Z.of_nat n) in
  match list_find (λ va, user_at (k_mem s) cr3 va write = None) vas with
  | Some (_, va) => inr (Fault T_PGFLT (pf_err (k_mem s) cr3 va write) va)
  | None => inl (omap (λ va, user_at (k_mem s) cr3 va write) vas)
  end.

Definition wr_each (m : mem) (ws : list (Z * Z)) : mem := foldl (λ m w, wr m w.1 w.2) m ws.

Definition user_load (s : kstate) (a : Z) (n : nat) : executed :=
  match access s a n false with
  | inl l => Result 0 (rd (k_mem s) <$> l) s
  | inr e => e
  end.

Definition user_store (s : kstate) (a : Z) (bs : list Z) : executed :=
  match access s a (length bs) true with
  | inl l => Result 0 [] (set_mem (wr_each (k_mem s) (zip l bs)) s)
  | inr e => e
  end.

(** The I/O privilege level is 0, so the permission map of the task state
    decides. *)
Definition port_access (s : kstate) (port : Z) (r : Z) : executed :=
  if user_may_access (taskstate_size - 1) (ts_bytes (c_ts (x_cpus (k_ctx s) !!! 0%nat))) port then Result r [] s
  else Fault T_GPFLT 0 0.


(** * What a program can reach *)

(** What the address space with the pages [U] gives a program at [va]. *)
Definition user_page (U : gmap Z Z) (va : Z) (write : bool) : option Z :=
  e ← U !! (va / PGSIZE);
  if (Z.land e PTE_U =? 0) || write && (Z.land e PTE_W =? 0) then None else Some (frame e + va mod PGSIZE).

Definition user_reach (U : gmap Z Z) (va : Z) (write : bool) : option Z :=
  if decide (va < KERNBASE) then user_page U va write else None.

Definition canonical (va : Z) : Prop := 0 ≤ va < 2 ^ 47 ∨ KERNBASE ≤ va < 2 ^ 64.

Section view.
Implicit Types (m : mem) (U : gmap Z Z) (T : list kmapent).

(** The hardware's walk is the one the lemmas on the tables are about. *)
Lemma hw_entry_lookup m p va : page p → KERNBASE ≤ p → hw_entry m (V2P p) va = lookup_page m p va.
Proof.
  intros Hp Hk. destruct (V2P_page p Hp Hk) as (H0 & H1 & H2 & H3).
  assert (E : P2V (PTE_ADDR (V2P p)) = p).
  { rewrite <- H2 at 2. f_equal. rewrite <- (Z.lor_0_r (V2P p)) at 1. apply PTE_ADDR_lor; [exact H3|unfold PGSIZE in H1; lia|lia]. }
  unfold hw_entry. rewrite E. unfold lookup_page. cbn [leaf_table]. change (lshift 4) with PML4XSHIFT. change (lshift 3) with PML3XSHIFT. change (lshift 2) with PML2XSHIFT.
  destruct (present (rd64 m (entry PML4XSHIFT p va))); [|done]. cbn [negb].
  destruct (present (rd64 m (entry PML3XSHIFT _ va))); [|done]. cbn [negb].
  destruct (present (rd64 m (entry PML2XSHIFT _ va))); [|done]. cbn [negb]. by destruct (present _).
Qed.

(** It depends on the page of the address alone. *)
Lemma lookup_vpage m p va va' : vpage va = vpage va' → lookup_page m p va = lookup_page m p va'.
Proof.
  intros E. unfold lookup_page. rewrite (leaf_page m 3 p va va') by (done || lia). destruct (leaf_table 3 m p va') as [q|]; [|done].
  unfold entry. by rewrite !PMLX_vpage, E by (unfold PML1XSHIFT; lia).
Qed.

Lemma vpage_user va : 0 ≤ va < 2 ^ 47 → vpage va = va / PGSIZE ∧ vpage (PGSIZE * (va / PGSIZE)) = va / PGSIZE ∧ 0 ≤ va / PGSIZE < UPAGES.
Proof.
  intros H. assert (Hx : 0 ≤ va / PGSIZE < 2 ^ 35) by (unfold PGSIZE; split; [apply Z.div_pos|apply Z.div_lt_upper_bound]; lia).
  split; [unfold vpage; by rewrite Z.mod_small by lia|]. split; [apply vpage_mul; lia|done].
Qed.

Lemma vpage_kernel va : KERNBASE ≤ va < 2 ^ 64 → let n := (va - KERNBASE) / PGSIZE in 0 ≤ n < UPAGES ∧ vpage va = vpage (P2V (PGSIZE * n)).
Proof.
  intros H n. unfold KERNBASE in *. assert (Hn : 0 ≤ n < 2 ^ 35) by (unfold n, PGSIZE; split; [apply Z.div_pos|apply Z.div_lt_upper_bound]; lia).
  split; [done|]. destruct (P2V_mul n Hn) as [_ ->]. unfold vpage, UPAGES.
  replace va with ((va - 0xffff800000000000 + 2 ^ 47) + 65535 * 2 ^ 48) by lia. rewrite Z_mod_plus_full, Z.mod_small by lia.
  replace (_ + 2 ^ 47) with ((va - 0xffff800000000000) + 2 ^ 35 * PGSIZE) by (unfold PGSIZE; lia). rewrite Z.div_add by (unfold PGSIZE; lia). fold n. lia.
Qed.

(** No page of the kernel's half has [PTE_U]. *)
Lemma kpage_no_user T n e :
  Forall (λ r, Z.land (km_perm r) PTE_U = 0) T → kpage T n = Some e → Z.land e PTE_U = 0.
Proof.
  induction 1 as [|r T Hr _ IH]; [done|]. cbn [kpage]. case_decide; [|exact IH]. intros [= <-].
  rewrite !Z.land_lor_distr_l, Hr. change (Z.land PTE_P PTE_U) with 0. rewrite !Z.lor_0_r.
  apply Z.bits_inj'. intros k Hk. rewrite Z.land_spec, Z.bits_0. unfold PGSIZE. change 4096 with (2 ^ 12).
  destruct (decide (k < 12)); [by rewrite Z.mul_comm, Z.mul_pow2_bits_low|].
  unfold PTE_U. change 4 with (2 ^ 2). by rewrite Z.pow2_bits_false, andb_false_r by lia.
Qed.

Lemma frame_offset e o : page (frame e) → 0 ≤ o < PGSIZE → P2V (PTE_ADDR e + o) = frame e + o.
Proof.
  unfold frame, page, P2V, u64. intros (_ & Hp & Ht) Ho. replace (PTE_ADDR e + o + KERNBASE) with ((PTE_ADDR e + KERNBASE) + o) by lia.
  rewrite <- Z.add_mod_idemp_l by lia. apply Z.mod_small. lia.
Qed.

(** In an address space of the kernel a program reaches, at the addresses below
    [KERNBASE], exactly the pages of the process, with the permissions of their
    entries and each byte at its place in its page; it reaches nothing at the
    addresses of the kernel. *)
Lemma user_at_view s i pml4 lab l U T va write :
  uvm s i pml4 lab l U → kernel_half T (k_mem s) pml4 → Forall (λ r, Z.land (km_perm r) PTE_U = 0) T → canonical va →
  user_at (k_mem s) (V2P pml4) va write = user_reach U va write.
Proof.
  intros V HK HT Hc. pose proof (um_vm _ _ _ _ _ _ V) as Vm. destruct (pt_page _ _ _ (vm_pt _ _ _ _ _ Vm) _ _ _ (pt_root _ _ _ (vm_pt _ _ _ _ _ Vm))) as [[Hp Hk] _].
  unfold user_at, hw_translate, user_reach. rewrite hw_entry_lookup by done. destruct Hc as [Hc|Hc].
  - rewrite decide_True by (unfold KERNBASE; lia). destruct (vpage_user va Hc) as (E1 & E2 & Hx).
    rewrite (lookup_vpage _ _ va (PGSIZE * (va / PGSIZE))) by congruence. rewrite (um_look _ _ _ _ _ _ V) by done. unfold user_page.
    destruct (U !! (va / PGSIZE)) as [e|] eqn:EU; [|done]. cbn [mbind option_bind]. destruct (um_page _ _ _ _ _ _ V _ _ EU) as (Hf & _).
    rewrite frame_offset by (done || apply Z.mod_pos_bound; unfold PGSIZE; lia). by destruct (Z.land e PTE_U =? 0), write, (Z.land e PTE_W =? 0).
  - rewrite decide_False by lia. destruct (vpage_kernel va Hc) as [Hn Ev]. rewrite (lookup_vpage _ _ _ _ Ev), HK by done.
    destruct (kpage T _) as [e|] eqn:EK; [|done]. cbn [mbind option_bind]. by rewrite (kpage_no_user T _ e HT EK).
Qed.
End view.

(** * Loads and stores *)

(** The processor runs in the address space at [pml4], which has the pages [U]
    and the ranges [T] of the kernel. *)
Record in_space (s : kstate) (i : nat) (pml4 : Z) (lab : gmap Z (nat * Z)) (l : list Z) (U : gmap Z Z) (T : list kmapent) : Prop := mkInSpace {
  sp_uvm : uvm s i pml4 lab l U;
  sp_kernel : kernel_half T (k_mem s) pml4;
  sp_perm : Forall (λ r, Z.land (km_perm r) PTE_U = 0) T;
  sp_cr3 : hw_cr3 (x_hw (k_ctx s)) = V2P pml4
}.

(** The byte [o] is in a page of the process that it may write. *)
Definition may_change (U : gmap Z Z) (o : Z) : Prop :=
  ∃ x e, U !! x = Some e ∧ Z.land e PTE_U ≠ 0 ∧ Z.land e PTE_W ≠ 0 ∧ frame e ≤ o < frame e + PGSIZE.

Section isolation.
Context (i : nat) (pml4 : Z) (lab : gmap Z (nat * Z)) (l : list Z) (U : gmap Z Z) (T : list kmapent).
Implicit Types (s : kstate) (m : mem).

Lemma rd_each_out m ws o : o ∉ ws.*1 → rd (wr_each m ws) o = rd m o.
Proof.
  revert m. induction ws as [|[p b] ws IH]; intros m Ho; [done|]. cbn [fmap list_fmap fst] in Ho. apply not_elem_of_cons in Ho as [Hne Ho].
  unfold wr_each in *. cbn [foldl fst snd]. rewrite IH by done. by rewrite rd_wr_ne.
Qed.

Lemma rd_each m (os bs : list Z) : NoDup os → length os = length bs → rd (wr_each m (zip os bs)) <$> os = bs.
Proof.
  intros Hnd. revert m bs. induction Hnd as [|o os Ho Hnd IH]; intros m [|b bs] Hl; try done. injection Hl as Hl.
  unfold wr_each in *. cbn [zip_with foldl fst snd fmap list_fmap]. f_equal; [|by apply IH].
  fold (wr_each (wr m o b) (zip os bs)). rewrite rd_each_out by (by rewrite fst_zip by lia). by rewrite rd_wr_eq.
Qed.

(** An access goes through, or ends at its first byte out of reach. *)
Lemma access_view s a n write :
  in_space s i pml4 lab l U T → Forall canonical (seqZ a (Z.of_nat n)) →
  match access s a n write with
  | inl os => Forall2 (λ va o, user_reach U va write = Some o) (seqZ a (Z.of_nat n)) os
  | inr e => ∃ err va, e = Fault T_PGFLT err va ∧ va ∈ seqZ a (Z.of_nat n) ∧ user_reach U va write = None
  end.
Proof.
  intros [V HK HT Hc] Hcan. unfold access. rewrite Hc. rewrite Forall_forall in Hcan.
  assert (E : ∀ va, va ∈ seqZ a (Z.of_nat n) → user_at (k_mem s) (V2P pml4) va write = user_reach U va write).
  { intros va Hva. by eapply user_at_view, Hcan. }
  destruct (list_find _ _) as [[j va]|] eqn:Ef.
  - apply list_find_Some in Ef as (Hj & Hn & _). apply list_elem_of_lookup_2 in Hj. rewrite E in Hn by done. eauto.
  - apply list_find_None in Ef. clear Hcan. induction (seqZ a (Z.of_nat n)) as [|va vas IH]; [constructor|].
    apply Forall_cons in Ef as [Hn Ef]. cbn [omap list_omap]. rewrite (E va) in * by left.
    destruct (user_reach U va write) as [o|] eqn:Eo; [|done]. constructor; [done|]. apply IH; [by intros; apply E; right|done].
Qed.

Lemma reach_page va write o : user_reach U va write = Some o →
  ∃ e, U !! (va / PGSIZE) = Some e ∧ Z.land e PTE_U ≠ 0 ∧ (write = true → Z.land e PTE_W ≠ 0) ∧ o = frame e + va mod PGSIZE ∧ va < KERNBASE.
Proof.
  unfold user_reach, user_page. case_decide; [|done]. destruct (U !! _) as [e|]; [|done]. cbn [mbind option_bind].
  destruct (Z.eqb_spec (Z.land e PTE_U) 0); [done|]. destruct write; cbn [orb andb].
  - destruct (Z.eqb_spec (Z.land e PTE_W) 0); [done|]. intros [= <-]. eauto 10.
  - intros [= <-]. exists e. by split_and!.
Qed.

(** Two addresses lead to two bytes. *)
Lemma reach_inj s va va' write o : uvm s i pml4 lab l U → user_reach U va write = Some o → user_reach U va' write = Some o → va = va'.
Proof.
  intros V (e & He & _ & _ & -> & _)%reach_page (e' & He' & _ & _ & Eo & _)%reach_page.
  destruct (um_page _ _ _ _ _ _ V _ _ He) as (Hp & _). destruct (um_page _ _ _ _ _ _ V _ _ He') as (Hp' & _).
  pose proof (Z.mod_pos_bound va PGSIZE ltac:(done)). pose proof (Z.mod_pos_bound va' PGSIZE ltac:(done)).
  assert (Ef : frame e = frame e').
  { destruct (decide (frame e = frame e')) as [|Hne]; [done|]. exfalso. apply (page_disjoint _ _ (frame e + va mod PGSIZE) Hp Hp' Hne); lia. }
  pose proof (um_inj _ _ _ _ _ _ V _ _ _ _ He He' Ef). rewrite (Z.div_mod va PGSIZE), (Z.div_mod va' PGSIZE) by done. lia.
Qed.

Lemma reach_all_NoDup s vas os write :
  uvm s i pml4 lab l U → NoDup vas → Forall2 (λ va o, user_reach U va write = Some o) vas os → NoDup os.
Proof.
  intros V Hnd H. revert Hnd. induction H as [|va o vas os Hv H IH]; intros Hnd; [constructor|]. apply NoDup_cons in Hnd as [Hva Hnd].
  constructor; [|by apply IH]. intros (j & Hj)%list_elem_of_lookup_1. destruct (Forall2_lookup_r _ _ _ _ _ H Hj) as (va' & Hj' & Hv').
  apply Hva. rewrite (reach_inj s va va' write o V Hv Hv'). by eapply list_elem_of_lookup_2.
Qed.

(** Memory that differs in pages of the process only. *)
Lemma space_pages s m :
  in_space s i pml4 lab l U T → (∀ o, rd m o ≠ rd (k_mem s) o → may_change U o) → in_space (set_mem m s) i pml4 lab l U T.
Proof.
  intros [V HK HT Hc] Hm. pose proof (um_vm _ _ _ _ _ _ V) as Vm.
  assert (Hq : ∀ q x, page q → tabs lab l q → q ≤ x < q + PGSIZE → rd m x = rd (k_mem s) x).
  { intros q x Hp Ht Hx. destruct (decide (rd m x = rd (k_mem s) x)) as [|(y & e & He & _ & _ & Ho)%Hm]; [done|]. exfalso.
    destruct (um_page _ _ _ _ _ _ V _ _ He) as (Hf & _ & Hn). apply (page_disjoint q (frame e) x); try done. by intros ->. }
  assert (Ht : ∀ p x, is_Some (lab !! p) → p ≤ x < p + PGSIZE → rd m x = rd (k_mem s) x).
  { intros p x [[k y] Hp] Hx. apply (Hq p); [|by left|done]. by destruct (pt_page _ _ _ (vm_pt _ _ _ _ _ Vm) _ _ _ Hp) as [[? _] _]. }
  pose proof (lookup_ext (k_mem s) m pml4 lab (vm_pt _ _ _ _ _ Vm) Ht) as L.
  split; [|intros n Hn; cbn [k_mem set_mem]; by rewrite L, HK|done|done].
  destruct V as [[Hl (Hfp & Hnd & Hall) Hpt Hsep He] Hlook Hu Hpg Hinj Htab]. split; try done.
  - split; try done; [|by eapply pt_ok_ext]. split; [|done]. eapply free_pages_ext, Hfp. intros q x Hin Hx. rewrite Forall_forall in Hall.
    apply (Hq q); [by apply Hall|by right|unfold PGSIZE; lia].
  - intros x Hx. cbn [k_mem set_mem]. rewrite L. by apply Hlook.
Qed.

End isolation.
