(* ===== verification/Sysfile.v ===== *)
(** The file system calls, kernel/sysfile.c ([sys_exec] is in Exec.v).

    A result [fail] is -1. Bytes that go to or come from a user buffer are
    copied with [user_wr_bytes] and [user_rd_bytes]. *)

From stdpp Require Import base list gmap strings.
From Stdlib Require Import ZArith Lia.
From S2P Require Import Prelude CString Bytes Sprintf Monad Kstate Spinlock Sched Cons Bio Log Fs Kalloc Vm Pipe File Proc Syscall.

(** * Descriptors *)

Definition argfd (n : Z) : K (option (Z * nat)) :=
  fd ← argint n;
  match fd with
  | None => mret None
  | Some fd =>
      if ((fd <? 0) || (Z.of_nat NOFILE <=? fd))%bool then mret None else
      p ← curproc;
      pr ← get_proc p;
      match p_ofile pr !!! Z.to_nat fd with
      | None => mret None
      | Some f => mret (Some (fd, f))
      end
  end.

Definition set_ofile (p : nat) (fd : Z) (f : option nat) : K unit :=
  upd_proc p (λ q, proc_set_ofile (<[Z.to_nat fd := f]> (p_ofile q)) q).

Definition fdalloc (f : nat) : K Z :=
  p ← curproc;
  r ← forM NOFILE 0 (λ fd,
        pr ← get_proc p;
        match p_ofile pr !!! Z.to_nat fd with
        | None => set_ofile p fd (Some f);; mret (Some fd)
        | Some _ => mret None
        end);
  mret (default (-1) r).

Definition sys_dup : K Z :=
  a ← argfd 0;
  match a with
  | None => mret fail
  | Some (_, f) =>
      fd ← fdalloc f;
      if fd <? 0 then mret fail else
      filedup f;;
      mret (ret_int fd)
  end.

(** The three arguments of read and write. *)
Definition arg_rw : K (option (nat * Z * Z)) :=
  a ← argfd 0;
  match a with
  | None => mret None
  | Some (_, f) =>
      n ← argint 2;
      match n with
      | None => mret None
      | Some n =>
          p ← argptr 1 n;
          match p with
          | None => mret None
          | Some p => mret (Some (f, p, n))
          end
      end
  end.

Definition sys_close : K Z :=
  a ← argfd 0;
  match a with
  | None => mret fail
  | Some (fd, f) =>
      p ← curproc;
      set_ofile p fd None;;
      fileclose f;;
      mret 0
  end.

(** sizeof(struct stat): short, int, uint, short, uint with their padding. *)
Definition stat_size : Z := 20.

(** The fields [filestat] stores; the padding keeps its bytes. *)
Definition user_wr_stat (p : Z) (st : stat) : K unit :=
  user_wr_bytes (p + 4) (le_bytes 4 (st_dev st));;
  user_wr_bytes (p + 8) (le_bytes 4 (st_ino st));;
  user_wr_bytes p (le_bytes 2 (st_type st));;
  user_wr_bytes (p + 12) (le_bytes 2 (st_nlink st));;
  user_wr_bytes (p + 16) (le_bytes 4 (st_size st)).

Definition sys_fstat : K Z :=
  a ← argfd 0;
  match a with
  | None => mret fail
  | Some (_, f) =>
      p ← argptr 1 stat_size;
      match p with
      | None => mret fail
      | Some p =>
          r ← filestat f;
          match r.2 with
          | Some st => user_wr_stat p st;; mret (ret_int r.1)
          | None => mret (ret_int r.1)
          end
      end
  end.

Section calls.
Context (devsw : Z → devops).

Definition sys_read : K Z :=
  a ← arg_rw;
  match a with
  | None => mret fail
  | Some (f, p, n) =>
      r ← fileread devsw f n;
      user_wr_bytes p r.2;;
      mret (ret_int r.1)
  end.

Definition sys_write : K Z :=
  a ← arg_rw;
  match a with
  | None => mret fail
  | Some (f, p, n) =>
      bytes ← user_rd_bytes p (Z.to_nat n);
      r ← filewrite devsw f bytes n;
      mret (ret_int r)
  end.

(** * Links and directories *)

(** The label [bad] of [sys_link]. *)
Definition link_bad (ip : nat) : K Z :=
  ilock (Some ip);;
  upd_inode ip (λ i, inode_set_nlink (s16 (i_nlink i - 1)) i);;
  iupdate ip;;
  iunlockput ip;;
  end_op;;
  mret fail.

Definition sys_link_in (ip : nat) (new : list Z) : K Z :=
  r ← nameiparent devsw new (replicate (Z.to_nat DIRSIZ) 0);
  match r with
  | (None, _) => link_bad ip
  | (Some dp, name) =>
      ilock (Some dp);;
      d ← get_inode dp;
      i ← get_inode ip;
      ok ← (if negb (i_dev d =? i_dev i) then mret false else
            r ← dirlink devsw dp name (i_inum i);
            mret (0 <=? r));
      if negb ok then iunlockput dp;; link_bad ip else
      iunlockput dp;;
      iput ip;;
      end_op;;
      mret 0
  end.

Definition sys_link : K Z :=
  old ← argstr 0;
  match old with
  | None => mret fail
  | Some old =>
      new ← argstr 1;
      match new with
      | None => mret fail
      | Some new =>
          begin_op;;
          ip ← namei devsw old;
          match ip with
          | None => end_op;; mret fail
          | Some ip =>
              ilock (Some ip);;
              i ← get_inode ip;
              if i_type i =? T_DIR then iunlockput ip;; end_op;; mret fail else
              upd_inode ip (λ i, inode_set_nlink (s16 (i_nlink i + 1)) i);;
              iupdate ip;;
              iunlock (Some ip);;
              sys_link_in ip new
          end
      end
  end.

Definition isdirempty (dp : nat) : K bool :=
  whileM (λ off,
    i ← get_inode dp;
    if negb (off <? i_size i) then mret (inr true) else
    r ← readi devsw dp off dirent_size;
    if negb (r.1 =? dirent_size) then panic "isdirempty: readi" else
    if negb (de_inum (decode_dirent r.2) =? 0) then mret (inr false) else
    mret (inl (off + dirent_size))) (2 * dirent_size).

Definition unlink_bad (dp : nat) : K Z :=
  iunlockput dp;;
  end_op;;
  mret fail.

Definition sys_unlink_entry (dp ip : nat) (off : Z) : K Z :=
  ilock (Some ip);;
  i ← get_inode ip;
  if i_nlink i <? 1 then panic "unlink: nlink < 1" else
  empty ← (if i_type i =? T_DIR then isdirempty ip else mret true);
  if negb empty then iunlockput ip;; unlink_bad dp else
  w ← writei devsw dp (replicate 16 0) off dirent_size;
  if negb (w =? dirent_size) then panic "unlink: writei" else
  whenM (i_type i =? T_DIR)
    (upd_inode dp (λ d, inode_set_nlink (s16 (i_nlink d - 1)) d);;
     iupdate dp);;
  iunlockput dp;;
  upd_inode ip (λ i, inode_set_nlink (s16 (i_nlink i - 1)) i);;
  iupdate ip;;
  iunlockput ip;;
  end_op;;
  mret 0.

Definition sys_unlink : K Z :=
  path ← argstr 0;
  match path with
  | None => mret fail
  | Some path =>
      begin_op;;
      r ← nameiparent devsw path (replicate (Z.to_nat DIRSIZ) 0);
      match r with
      | (None, _) => end_op;; mret fail
      | (Some dp, name) =>
          ilock (Some dp);;
          if ((namecmp name (str ".") =? 0) || (namecmp name (str "..") =? 0))%bool then unlink_bad dp else
          r ← dirlookup devsw dp name;
          match r with
          | None => unlink_bad dp
          | Some (ip, off) => sys_unlink_entry dp ip off
          end
      end
  end.

(** Entries "." and ".." of a new directory. *)
Definition create_dots (dp ip : nat) : K unit :=
  upd_inode dp (λ d, inode_set_nlink (s16 (i_nlink d + 1)) d);;
  iupdate dp;;
  i ← get_inode ip;
  r ← dirlink devsw ip (str ".") (i_inum i);
  if r <? 0 then panic "create dots" else
  d ← get_inode dp;
  r ← dirlink devsw ip (str "..") (i_inum d);
  if r <? 0 then panic "create dots" else mret tt.

Definition create (path : list Z) (type major minor : Z) : K (option nat) :=
  r ← nameiparent devsw path (replicate (Z.to_nat DIRSIZ) 0);
  match r with
  | (None, _) => mret None
  | (Some dp, name) =>
      ilock (Some dp);;
      r ← dirlookup devsw dp name;
      match r with
      | Some (ip, _) =>
          iunlockput dp;;
          ilock (Some ip);;
          i ← get_inode ip;
          if ((type =? T_FILE) && (i_type i =? T_FILE))%bool then mret (Some ip) else
          iunlockput ip;;
          mret None
      | None =>
          d ← get_inode dp;
          ip ← ialloc (i_dev d) type;
          ilock (Some ip);;
          upd_inode ip (inode_set_dev major minor 1);;
          iupdate ip;;
          whenM (type =? T_DIR) (create_dots dp ip);;
          i ← get_inode ip;
          r ← dirlink devsw dp name (i_inum i);
          if r <? 0 then panic "create: dirlink" else
          iunlockput dp;;
          mret (Some ip)
      end
  end.

(** * Opening files *)

(** The inode to open, locked; [None] when the call fails, the transaction
    ended. *)
Definition open_inode (path : list Z) (omode : Z) : K (option nat) :=
  if negb (Z.land omode O_CREATE =? 0) then
    ip ← create path T_FILE 0 0;
    match ip with
    | None => end_op;; mret None
    | Some ip => mret (Some ip)
    end
  else
    ip ← namei devsw path;
    match ip with
    | None => end_op;; mret None
    | Some ip =>
        ilock (Some ip);;
        i ← get_inode ip;
        if ((i_type i =? T_DIR) && negb (omode =? O_RDONLY))%bool then
          iunlockput ip;;
          end_op;;
          mret None
        else mret (Some ip)
    end.

Definition c_bool (b : bool) : Z := if b then 1 else 0.

Definition open_bad (ip : nat) : K Z :=
  iunlockput ip;;
  end_op;;
  mret fail.

Definition sys_open : K Z :=
  path ← argstr 0;
  match path with
  | None => mret fail
  | Some path =>
      omode ← argint 1;
      match omode with
      | None => mret fail
      | Some omode =>
          begin_op;;
          ip ← open_inode path omode;
          match ip with
          | None => mret fail
          | Some ip =>
              f ← filealloc;
              match f with
              | None => open_bad ip
              | Some f =>
                  fd ← fdalloc f;
                  if fd <? 0 then fileclose f;; open_bad ip else
                  iunlock (Some ip);;
                  end_op;;
                  let wronly := negb (Z.land omode O_WRONLY =? 0) in
                  let rdwr := negb (Z.land omode O_RDWR =? 0) in
                  upd_file f (file_set_inode ip (c_bool (negb wronly)) (c_bool (wronly || rdwr)));;
                  mret (ret_int fd)
              end
          end
      end
  end.

(** The end of [sys_mkdir] and [sys_mknod]. *)
Definition put_new (ip : option nat) : K Z :=
  match ip with
  | None => end_op;; mret fail
  | Some ip =>
      iunlockput ip;;
      end_op;;
      mret 0
  end.

Definition sys_mkdir : K Z :=
  begin_op;;
  path ← argstr 0;
  ip ← match path with
       | None => mret None
       | Some path => create path T_DIR 0 0
       end;
  put_new ip.

Definition sys_mknod : K Z :=
  begin_op;;
  path ← argstr 0;
  major ← (if bool_decide (path = None) then mret None else argint 1);
  minor ← (if bool_decide (major = None) then mret None else argint 2);
  ip ← match path, major, minor with
       | Some path, Some major, Some minor => create path T_DEV (s16 major) (s16 minor)
       | _, _, _ => mret None
       end;
  put_new ip.

Definition sys_chdir : K Z :=
  p ← curproc;
  begin_op;;
  path ← argstr 0;
  ip ← match path with
       | None => mret None
       | Some path => namei devsw path
       end;
  match ip with
  | None => end_op;; mret fail
  | Some ip =>
      ilock (Some ip);;
      i ← get_inode ip;
      if negb (i_type i =? T_DIR) then iunlockput ip;; end_op;; mret fail else
      iunlock (Some ip);;
      pr ← get_proc p;
      match p_cwd pr with
      | None => null_deref
      | Some cwd =>
          iput cwd;;
          end_op;;
          upd_proc p (proc_set_cwd (Some ip));;
          mret 0
      end
  end.
End calls.

Definition sys_pipe : K Z :=
  fd ← argptr 0 8;
  match fd with
  | None => mret fail
  | Some fd =>
      r ← pipealloc;
      match r with
      | None => mret fail
      | Some (rf, wf) =>
          fd0 ← fdalloc rf;
          fd1 ← (if fd0 <? 0 then mret (-1) else fdalloc wf);
          if fd1 <? 0 then
            p ← curproc;
            whenM (0 <=? fd0) (set_ofile p fd0 None);;
            fileclose rf;;
            fileclose wf;;
            mret fail
          else
            user_wr_bytes fd (le_bytes 4 fd0);;
            user_wr_bytes (fd + 4) (le_bytes 4 fd1);;
            mret 0
      end
  end.
