(* ===== verification/Exec.v ===== *)
(** Program loading, kernel/exec.c, and [sys_exec] of kernel/sysfile.c. *)

From stdpp Require Import base list gmap strings.
From Stdlib Require Import ZArith Lia.
From S2P Require Import Prelude CString Bytes Sprintf Monad Kstate Spinlock Sched Cons Bio Log Fs Kalloc Vm Pipe File Proc Syscall.

(** * The ELF format, include/xv6/elf.h *)

Definition ELF_MAGIC : Z := 0x464C457F.
Definition ELF_PROG_LOAD : Z := 1.
Definition ELF_PROG_FLAG_EXEC : Z := 1.
Definition ELF_PROG_FLAG_WRITE : Z := 2.

(** The fields of struct elfhdr that are read. *)
Record elfhdr := mkElf { e_magic : Z; e_entry : Z; e_phoff : Z; e_phnum : Z }.
Definition elfhdr_size : Z := 64.
Definition decode_elfhdr (l : list Z) : elfhdr := mkElf (get32 l 0) (get64 l 24) (get64 l 32) (get16 l 56).

Record proghdr := mkPh {
  ph_type : Z; ph_flags : Z; ph_off : Z; ph_vaddr : Z; ph_paddr : Z; ph_filesz : Z; ph_memsz : Z; ph_align : Z
}.
Definition proghdr_size : Z := 56.
Definition decode_proghdr (l : list Z) : proghdr :=
  mkPh (get32 l 0) (get32 l 4) (get64 l 8) (get64 l 16) (get64 l 24) (get64 l 32) (get64 l 40) (get64 l 48).

(** The page flags a segment is mapped with. *)
Definition seg_flags (flags : Z) : Z :=
  Z.lor (if Z.land flags ELF_PROG_FLAG_EXEC =? 0 then PTE_XD else 0)
        (if Z.land flags ELF_PROG_FLAG_WRITE =? 0 then 0 else PTE_W).

(** The checks on a program header before anything is mapped. *)
Definition ph_ok (ph : proghdr) : bool :=
  negb (ph_memsz ph <? ph_filesz ph) && negb (u64 (ph_vaddr ph + ph_memsz ph) <? ph_vaddr ph).

Section exec.
Context (devsw : Z → devops).

(** The label [bad]. *)
Definition exec_bad (pml4 : Z) (ip : option nat) : K Z :=
  whenM (negb (pml4 =? 0)) (freevm pml4);;
  match ip with
  | Some ip => iunlockput ip;; end_op
  | None => mret tt
  end;;
  mret (-1).

(** The loop over the program headers; [None] is a jump to [bad], otherwise
    the size of the image. *)
Definition exec_load (ip : nat) (pml4 : Z) (elf : elfhdr) : K (option Z) :=
  whileM (λ '(i, off, sz),
    if negb (i <? e_phnum elf) then mret (inr (Some sz)) else
    r ← readi devsw ip (u32 off) proghdr_size;
    if negb (r.1 =? proghdr_size) then mret (inr None) else
    let ph := decode_proghdr r.2 in
    let next := s32 (off + proghdr_size) in
    if negb (ph_type ph =? ELF_PROG_LOAD) then mret (inl (i + 1, next, sz)) else
    if negb (ph_ok ph) then mret (inr None) else
    sz ← allocuvm pml4 sz (u64 (ph_vaddr ph + ph_memsz ph)) (seg_flags (ph_flags ph));
    if sz =? 0 then mret (inr None) else
    if negb (ph_vaddr ph mod PGSIZE =? 0) then mret (inr None) else
    l ← loaduvm devsw pml4 (ph_vaddr ph) ip (u32 (ph_off ph)) (u32 (ph_filesz ph));
    if l <? 0 then mret (inr None) else
    mret (inl (i + 1, next, u64 sz))) (0, s32 (e_phoff elf), 0).

(** The argument strings, pushed from [sp] down; the new [sp] and the addresses
    in order, or [None] for [bad]. *)
Fixpoint exec_args (pml4 : Z) (argv : list (list Z)) (argc sp : Z) (acc : list Z) : K (option (Z * list Z)) :=
  match argv with
  | [] => mret (Some (sp, acc))
  | arg :: argv =>
      if MAXARG <=? argc then mret None else
      let len := Z.of_nat (length arg) + 1 in
      let sp := ALIGN (u64 (sp - len)) 8 in
      r ← copyout pml4 sp (arg ++ [0]) len;
      if r <? 0 then mret None else
      exec_args pml4 argv (argc + 1) sp (acc ++ [sp])
  end.

(** The words of [ustack]: a fake return address, the pointers, a null. *)
Definition ustack (ptrs : list Z) : list Z :=
  (λ w, le_bytes 8 w) (2 ^ 64 - 1) ++ concat (le_bytes 8 <$> ptrs) ++ le_bytes 8 0.

Definition tf_set_args (rdi rsi : Z) (t : trapframe) : trapframe :=
  mkTf (tf_gs t) (tf_fs t) (tf_es t) (tf_ds t) (tf_r9 t) (tf_r8 t) (tf_rcx t) (tf_rdx t) rsi
    rdi (tf_rax t) (tf_r15 t) (tf_r14 t) (tf_r13 t) (tf_r12 t) (tf_rbp t) (tf_rbx t) (tf_trapno t)
    (tf_err t) (tf_rip t) (tf_cs t) (tf_rflags t) (tf_rsp t) (tf_ss t).
Definition tf_set_entry (rip rsp : Z) (t : trapframe) : trapframe :=
  mkTf (tf_gs t) (tf_fs t) (tf_es t) (tf_ds t) (tf_r9 t) (tf_r8 t) (tf_rcx t) (tf_rdx t) (tf_rsi t)
    (tf_rdi t) (tf_rax t) (tf_r15 t) (tf_r14 t) (tf_r13 t) (tf_r12 t) (tf_rbp t) (tf_rbx t) (tf_trapno t)
    (tf_err t) rip (tf_cs t) (tf_rflags t) rsp (tf_ss t).

(** What follows the last slash. *)
Fixpoint basename (s last : list Z) : list Z :=
  match s with
  | [] => last
  | c :: s => basename s (if c =? 47 then s else last)
  end.

(** The second half: stack, arguments and the switch to the new image. *)
Definition exec_commit (path : list Z) (argv : list (list Z)) (pml4 sz : Z) (elf : elfhdr) : K Z :=
  p ← curproc;
  let sz := PGROUNDUP sz in
  sz ← allocuvm pml4 sz (u64 (sz + 2 * PGSIZE)) (Z.lor PTE_XD PTE_W);
  let sz := u64 sz in
  if sz =? 0 then exec_bad pml4 None else
  clearpteu pml4 (u64 (sz - 2 * PGSIZE));;
  r ← exec_args pml4 argv 0 sz [];
  match r with
  | None => exec_bad pml4 None
  | Some (sp, ptrs) =>
      let argc := Z.of_nat (length ptrs) in
      upd_proc p (λ q, proc_set_tf (tf_set_args argc (u64 (sp - (argc + 1) * 8)) (p_tf q)) q);;
      let sp := u64 (sp - (1 + argc + 1) * 8) in
      r ← copyout pml4 sp (ustack ptrs) ((1 + argc + 1) * 8);
      if r <? 0 then exec_bad pml4 None else
      upd_proc p (λ q, proc_set_name (set_name (basename path path) (p_name q)) q);;
      pr ← get_proc p;
      let oldpml4 := p_pml4 pr in
      upd_proc p (proc_set_pml4 pml4);;
      upd_proc p (proc_set_sz sz);;
      upd_proc p (λ q, proc_set_tf (tf_set_entry (e_entry elf) sp (p_tf q)) q);;
      switchuvm (Some p);;
      freevm oldpml4;;
      mret 0
  end.

Definition exec (path : list Z) (argv : list (list Z)) : K Z :=
  begin_op;;
  ip ← namei devsw path;
  match ip with
  | None =>
      end_op;;
      cprintf (str "exec: fail" ++ [10]) [];;
      mret (-1)
  | Some ip =>
      ilock (Some ip);;
      r ← readi devsw ip 0 elfhdr_size;
      if negb (r.1 =? elfhdr_size) then exec_bad 0 (Some ip) else
      let elf := decode_elfhdr r.2 in
      if negb (e_magic elf =? ELF_MAGIC) then exec_bad 0 (Some ip) else
      pml4 ← setupkvm;
      if pml4 =? 0 then exec_bad 0 (Some ip) else
      l ← exec_load ip pml4 elf;
      match l with
      | None => exec_bad pml4 (Some ip)
      | Some sz =>
          iunlockput ip;;
          end_op;;
          exec_commit path argv pml4 sz elf
      end
  end.

(** The argument vector, fetched from user memory; [None] is -1. *)
Definition sys_exec_argv (uargv : Z) : K (option (list (list Z))) :=
  whileM (λ '(i, argv),
    if MAXARG <=? i then mret (inr None) else
    uarg ← fetchlong (u64 (uargv + 8 * i));
    match uarg with
    | None => mret (inr None)
    | Some uarg =>
        if uarg =? 0 then mret (inr (Some argv)) else
        s ← fetchstr uarg;
        match s with
        | None => mret (inr None)
        | Some s => mret (inl (i + 1, argv ++ [s]))
        end
    end) (0, []).

Definition sys_exec : K Z :=
  path ← argstr 0;
  match path with
  | None => mret fail
  | Some path =>
      uargv ← arglong 1;
      match uargv with
      | None => mret fail
      | Some uargv =>
          argv ← sys_exec_argv uargv;
          match argv with
          | None => mret fail
          | Some argv => r ← exec path argv; mret (ret_int r)
          end
      end
  end.
End exec.
