(* ===== verification/Trap.v ===== *)
(** Traps and system calls: kernel/trap.c, the table and dispatcher of
    kernel/syscall.c.

    [console_devsw] is the kernel's [devsw]. The interrupt controller, which
    [lapiceoi] writes to, has no state in the model; [cr2] is the faulting
    address the hardware reports and [pcs] the stack [procdump] walks. *)

From stdpp Require Import base list gmap strings.
From Stdlib Require Import ZArith Lia.
From S2P Require Import Prelude Seg CString Bytes Sprintf Monad Kstate Spinlock Sched Cons Bio Log Fs Kalloc Vm Pipe File Proc Console Syscall Sysfile Exec.

Definition T_SYSCALL : Z := 64.
Definition T_IRQ0 : Z := 32.
Definition IRQ_TIMER : Z := 0.
Definition IRQ_KBD : Z := 1.
Definition IRQ_COM1 : Z := 4.
Definition IRQ_IDE : Z := 14.
Definition IRQ_SPURIOUS : Z := 31.

(** * System calls *)

(** [syscalls]; [None] is an empty entry or an index outside the table. *)
Definition syscalls (num : Z) : option (K Z) :=
  match num with
  | 1 => Some sys_fork
  | 2 => Some sys_exit
  | 3 => Some sys_wait
  | 4 => Some sys_pipe
  | 5 => Some (sys_read console_devsw)
  | 6 => Some sys_kill
  | 7 => Some (sys_exec console_devsw)
  | 8 => Some sys_fstat
  | 9 => Some (sys_chdir console_devsw)
  | 10 => Some sys_dup
  | 11 => Some sys_getpid
  | 12 => Some sys_sbrk
  | 13 => Some sys_sleep
  | 14 => Some sys_uptime
  | 15 => Some (sys_open console_devsw)
  | 16 => Some (sys_write console_devsw)
  | 17 => Some (sys_mknod console_devsw)
  | 18 => Some (sys_unlink console_devsw)
  | 19 => Some (sys_link console_devsw)
  | 20 => Some (sys_mkdir console_devsw)
  | 21 => Some sys_close
  | _ => None
  end.

Definition set_rax (p : nat) (r : Z) : K unit :=
  upd_proc p (λ q, proc_set_tf (tf_set_rax r (p_tf q)) q).

Definition syscall : K unit :=
  p ← curproc;
  pr ← get_proc p;
  let num := s32 (tf_rax (p_tf pr)) in
  match syscalls num with
  | Some call => r ← call; set_rax p r
  | None =>
      cprintf (str "%d %s: unknown sys call %d" ++ [10])
        [VInt (p_pid pr); VStr (cstr (p_name pr) 16); VInt num];;
      set_rax p (u64 (-1))
  end.

(** * Traps *)

(** [vectors], the addresses of the entry points vectors.pl generates, is a
    parameter, as is the address of [idt]. *)
Definition set_gate (i : Z) (istrap : bool) (sel off d : Z) : K unit :=
  modify (λ s, set_idt (alter (SETGATE istrap sel off d) (Z.to_nat i) (k_idt s)) s).

Definition tvinit (vectors : Z → Z) : K unit :=
  forM 256 0 (λ i, set_gate i false (Z.shiftl SEG_KCODE 3) (vectors i) 0;; mret (None (A := unit)));;
  set_gate T_SYSCALL true (Z.shiftl SEG_KCODE 3) (vectors T_SYSCALL) DPL_USER;;
  initlock LkTicks "time".

Definition lidt (p size : Z) : K unit :=
  mod_sys (λ r, mkSys (sr_cs r) (sr_ds r) (sr_es r) (sr_ss r) (sr_fs r) (sr_gs r) (sr_tr r) (sr_gdtr r) (p, size - 1)).

Definition idtinit (idt : Z) : K unit := lidt idt (16 * 256).

(** [myproc() && myproc()->killed && (tf->cs & 3) == DPL_USER]. *)
Definition must_exit (tf : trapframe) : K bool :=
  p ← myproc;
  match p with
  | None => mret false
  | Some p =>
      pr ← get_proc p;
      mret (negb (p_killed pr =? 0) && (Z.land (tf_cs tf) 3 =? DPL_USER))
  end.

Definition timer_tick : K unit :=
  c ← cpuid;
  whenM (bool_decide (c = 0%nat))
    (acquire LkTicks;;
     modify (λ s, set_ticks (u32 (k_ticks s + 1)) s);;
     wakeup ChTicks;;
     release LkTicks).

(** The default case: a fault, in the kernel or in user space. *)
Definition trap_fault (cr2 : Z) (tf : trapframe) : K unit :=
  p ← myproc;
  c ← cpuid;
  let kernel : K unit :=
    cprintf (str "unexpected trap %d from cpu %d rip %x (cr2=0x%x)" ++ [10])
      [VInt (tf_trapno tf); VInt (Z.of_nat c); VLong (tf_rbp tf); VLong cr2];;
    panic "trap" in
  match p with
  | None => kernel
  | Some p =>
      if Z.land (tf_cs tf) 3 =? 0 then kernel else
      pr ← get_proc p;
      cprintf (str "pid %d %s: trap %d err %d on cpu %d rip 0x%x addr 0x%x--kill proc" ++ [10])
        [VInt (p_pid pr); VStr (cstr (p_name pr) 16); VInt (tf_trapno tf); VLong (tf_err tf); VInt (Z.of_nat c);
         VLong (tf_rip tf); VLong cr2];;
      upd_proc p (proc_set_killed 1)
  end.

(** The switch on the trap number. *)
Definition trap_switch (cr2 : Z) (pcs : list Z) (tf : trapframe) : K unit :=
  let n := tf_trapno tf in
  if n =? T_IRQ0 + IRQ_TIMER then timer_tick else
  if n =? T_IRQ0 + IRQ_IDE then ideintr else
  if n =? T_IRQ0 + IRQ_IDE + 1 then mret tt else
  if n =? T_IRQ0 + IRQ_KBD then kbdintr pcs else
  if n =? T_IRQ0 + IRQ_COM1 then uartintr pcs else
  if ((n =? T_IRQ0 + 7) || (n =? T_IRQ0 + IRQ_SPURIOUS))%bool then
    c ← cpuid;
    cprintf (str "cpu%d: spurious interrupt at %x:%x" ++ [10])
      [VInt (Z.of_nat c); VLong (tf_cs tf); VLong (tf_rip tf)]
  else trap_fault cr2 tf.

(** [if (myproc()->killed) exit()]. *)
Definition exit_if_killed : K unit :=
  k ← killed;
  whenM k exit.

Definition trap (cr2 : Z) (pcs : list Z) (tf : trapframe) : K unit :=
  if tf_trapno tf =? T_SYSCALL then
    exit_if_killed;;
    p ← curproc;
    upd_proc p (proc_set_tf tf);;
    syscall;;
    exit_if_killed
  else
    trap_switch cr2 pcs tf;;
    e ← must_exit tf;
    whenM e exit;;
    p ← myproc;
    match p with
    | None => mret tt
    | Some p =>
        pr ← get_proc p;
        whenM (bool_decide (p_state pr = RUNNING) && (tf_trapno tf =? T_IRQ0 + IRQ_TIMER)) yield
    end;;
    e ← must_exit tf;
    whenM e exit.

(** * The interrupt descriptor table *)

Lemma set_gate_run i istrap sel off d fuel s :
  set_gate i istrap sel off d fuel s = Ret tt (set_idt (alter (SETGATE istrap sel off d) (Z.to_nat i) (k_idt s)) s).
Proof. done. Qed.

(** C21: What [int n] in a user program and a device can do, as the processor reads
    the table: entry [i] leads to [vectors[i]] in the kernel's code segment; a
    user program can invoke the entry of system calls and no other; every
    entry but that one turns interrupts off. *)
Theorem idt_gates vectors fuel s :
  length (k_idt s) = 256%nat → (∀ i, 0 ≤ i < 256 → 0 ≤ vectors i < 2 ^ 64) →
  ∃ s', tvinit vectors fuel s = Ret tt s' ∧ length (k_idt s') = 256%nat ∧
    ∀ i, 0 ≤ i < 256 → let g := hw_gate (gate_bytes (k_idt s' !!! Z.to_nat i)) in
      gt_target g = vectors i ∧ gt_selector g / 8 = SEG_KCODE ∧ gt_present g = true ∧
      gate_callable DPL_USER g = (i =? T_SYSCALL) ∧ gate_masks g = negb (i =? T_SYSCALL).
Proof.
  intros Hl Hv. unfold tvinit.
  destruct (forM_ok (λ i, set_gate i false (Z.shiftl SEG_KCODE 3) (vectors i) 0;; mret (None (A := unit)))
    (λ i s1, length (k_idt s1) = 256%nat ∧ ∀ j, 0 ≤ j < i → hw_gate (gate_bytes (k_idt s1 !!! Z.to_nat j)) = mkGateView (vectors j) 8 true 0 STS_IG32)
    fuel 256 0 s) as (s1 & E & Hl1 & H1).
  { split; [done|]. lia. }
  { intros i s1 Hi [Hl1 H1]. erewrite run_bind by apply set_gate_run. eexists. split; [reflexivity|]. cbn [k_idt set_idt]. rewrite length_alter. split; [done|].
    intros j Hj. destruct (decide (j = i)) as [->|]; [|rewrite list_lookup_total_alter_ne by lia; apply H1; lia].
    rewrite list_lookup_total_alter, decide_True by lia. apply hw_gate_SETGATE; [vm_compute; done|apply Hv; lia|lia]. }
  rewrite (run_bind _ _ _ _ _ _ E). erewrite run_bind by apply set_gate_run. eexists. split; [reflexivity|]. cbn [k_idt set_idt set_ctx].
  rewrite length_alter. split; [done|]. intros i Hi. destruct (Z.eqb_spec i T_SYSCALL) as [->|Hne].
  - rewrite list_lookup_total_alter, decide_True by (unfold T_SYSCALL; lia). rewrite hw_gate_SETGATE; [done|vm_compute; done|apply Hv; lia|vm_compute; done].
  - rewrite list_lookup_total_alter_ne by (unfold T_SYSCALL in *; lia). rewrite H1 by lia. done.
Qed.
