(* ===== verification/Fb.v ===== *)
(** The framebuffer console, kernel/fb.c.

    [fb_info] is the struct of the same name; the pixels are bytes of memory at
    [fb] (the device) and [buf] (the copy drawn into, the same address until
    double buffering is set up). The font is linked in from a binary file and
    is a parameter: [font c v] is row [v] of character [c]. The geometry comes
    from the boot loader and is computed with exactly, without the wrap-around
    of [int], which a screen of less than 2^31 bytes never reaches. *)

From stdpp Require Import base list gmap strings.
From Stdlib Require Import ZArith Lia.
From S2P Require Import Prelude CString Bytes Sprintf Monad Kstate Spinlock Cons Bio Log Kalloc Vm.

Definition FB_DEPTH : Z := 4.
Definition FHEIGHT : Z := 16.
Definition FWIDTH : Z := 8.

Record fb_info := mkFb {
  fb : Z; fb_size : Z; fb_buf : Z;
  fb_width : Z; fb_height : Z; fb_pitch : Z;
  cwidth : Z; cheight : Z;
  cx : Z; cy : Z;
  dirty_x1 : Z; dirty_y1 : Z; dirty_x2 : Z; dirty_y2 : Z;
  dirty : bool
}.

(** The framebuffer and memory. *)
Record fbstate := mkFbs { fbi : fb_info; fbm : mem }.

Definition FB_OFFSET (f : fb_info) (x y : Z) : Z := y * fb_pitch f + x * FB_DEPTH.
Definition FB_CUR_OFFSET (f : fb_info) (x y u v : Z) : Z :=
  (y * FHEIGHT + v) * fb_pitch f + (x * FWIDTH + u) * FB_DEPTH.

Definition set_cursor (x y : Z) (f : fb_info) : fb_info :=
  mkFb (fb f) (fb_size f) (fb_buf f) (fb_width f) (fb_height f) (fb_pitch f) (cwidth f) (cheight f) x y
    (dirty_x1 f) (dirty_y1 f) (dirty_x2 f) (dirty_y2 f) (dirty f).
Definition set_dirty_rect (x1 y1 x2 y2 : Z) (d : bool) (f : fb_info) : fb_info :=
  mkFb (fb f) (fb_size f) (fb_buf f) (fb_width f) (fb_height f) (fb_pitch f) (cwidth f) (cheight f)
    (cx f) (cy f) x1 y1 x2 y2 d.

Definition mark_dirty (x1 y1 x2 y2 : Z) (f : fb_info) : fb_info :=
  if negb (dirty f) then set_dirty_rect x1 y1 x2 y2 true f
  else set_dirty_rect (Z.min (dirty_x1 f) x1) (Z.min (dirty_y1 f) y1)
         (Z.max (dirty_x2 f) x2) (Z.max (dirty_y2 f) y2) (dirty f) f.

Section font.
Context (font : Z → Z → Z).

(** A 32-bit store. *)
Definition wr32 (m : mem) (a v : Z) : mem := wr_bytes m a (le_bytes 4 v).

(** The pixels of one row of a character, from column [u] on. *)
Fixpoint write_row (f : fb_info) (row x y v u : Z) (n : nat) (m : mem) : mem :=
  match n with
  | O => m
  | S n =>
      let px := if Z.testbit row (FWIDTH - 1 - u) then 0xffffffff else 0 in
      write_row f row x y v (u + 1) n (wr32 m (fb_buf f + FB_CUR_OFFSET f x y u v) px)
  end.

Fixpoint write_rows (f : fb_info) (chr x y v : Z) (n : nat) (m : mem) : mem :=
  match n with
  | O => m
  | S n =>
      write_rows f chr x y (v + 1) n (write_row f (font (u8 chr) v) x y v 0 (Z.to_nat FWIDTH) m)
  end.

Definition fb_write_char (chr x y : Z) (s : fbstate) : fbstate :=
  let f := mark_dirty (x * FWIDTH) (y * FHEIGHT) ((x + 1) * FWIDTH) ((y + 1) * FHEIGHT) (fbi s) in
  mkFbs f (write_rows f chr x y 0 (Z.to_nat FHEIGHT) (fbm s)).

(** [for (; q < end; p += row_diff, q += row_diff)]: the text rows move up by
    one; the last [p]. *)
Fixpoint scroll_rows (n : nat) (p q end_ row_diff : Z) (m : mem) : Z * mem :=
  match n with
  | O => (p, m)
  | S n =>
      if q <? end_ then
        scroll_rows n (p + row_diff) (q + row_diff) end_ row_diff (memcpy_fast m p q row_diff)
      else (p, m)
  end.

(** A round per text row is enough: there are [cheight - 1] of them. *)
Definition scroll_down (s : fbstate) : fbstate :=
  let f := mark_dirty 0 0 (fb_width (fbi s)) (fb_height (fbi s)) (fbi s) in
  let row_diff := fb_pitch f * FHEIGHT in
  let '(p, m) := scroll_rows (Z.to_nat (cheight f)) (fb_buf f) (fb_buf f + row_diff)
                   (fb_buf f + row_diff * cheight f) row_diff (fbm s) in
  mkFbs f (memset m p 0 row_diff).

Definition move_backward (s : fbstate) : fbstate :=
  let f := fbi s in
  if cx f - 1 <? 0 then
    if cy f - 1 <? 0 then mkFbs (set_cursor 0 0 f) (fbm s)
    else mkFbs (set_cursor (cwidth f - 1) (cy f - 1) f) (fbm s)
  else mkFbs (set_cursor (cx f - 1) (cy f) f) (fbm s).

Definition move_down (s : fbstate) : fbstate :=
  let f := fbi s in
  if cheight f <=? cy f + 1
  then scroll_down (mkFbs (set_cursor 0 (cheight f - 1) f) (fbm s))
  else mkFbs (set_cursor 0 (cy f + 1) f) (fbm s).

Definition move_forward (s : fbstate) : fbstate :=
  let f := fbi s in
  if cwidth f <=? cx f + 1 then
    if cheight f <=? cy f + 1
    then scroll_down (mkFbs (set_cursor 0 (cheight f - 1) f) (fbm s))
    else mkFbs (set_cursor 0 (cy f + 1) f) (fbm s)
  else mkFbs (set_cursor (cx f + 1) (cy f) f) (fbm s).

Definition fb_putc (c : Z) (s : fbstate) : fbstate :=
  if c =? 0 then s else
  if c =? 10 then move_down s else
  if c =? 8 then move_backward s else
  move_forward (fb_write_char c (cx (fbi s)) (cy (fbi s)) s).

(** The rows of the dirty rectangle from [y] on. *)
Fixpoint commit_rows (f : fb_info) (y : Z) (n : nat) (m : mem) : mem :=
  match n with
  | O => m
  | S n =>
      let start := FB_OFFSET f (dirty_x1 f) y in
      let end_ := FB_OFFSET f (dirty_x2 f) y in
      commit_rows f (y + 1) n (memcpy_fast m (fb f + start) (fb_buf f + start) (end_ - start))
  end.

Definition fb_commit (s : fbstate) : fbstate :=
  let f := fbi s in
  if fb_buf f =? fb f then s else
  if negb (dirty f) then s else
  mkFbs (set_dirty_rect (dirty_x1 f) (dirty_y1 f) (dirty_x2 f) (dirty_y2 f) false f)
    (commit_rows f (dirty_y1 f) (Z.to_nat (dirty_y2 f - dirty_y1 f)) (fbm s)).
End font.

(** A screen whose depth is not 32 bits is filled with a pattern and the CPU
    halts: the outcome [Spin]. *)
Definition fb_init (fb_pa w h depth pitch : Z) : K fb_info :=
  if negb (depth =? Z.shiftl FB_DEPTH 3) then
    forM (Z.to_nat (pitch * h)) 0 (λ i,
      modmem (λ m, wr m (P2V fb_pa + i) (i mod 255));; mret (None (A := unit)));;
    spin
  else
    let f := mkFb (P2V fb_pa) (pitch * h) (P2V fb_pa) w h pitch (w / FWIDTH) (h / FHEIGHT) 0 0 0 0 0 0 false in
    cprintf (str "Found framebuffer at 0x%x-0x%x" ++ [10]) [VLong fb_pa; VLong (fb_pa + pitch * h)];;
    kmap_add fb_pa (fb_pa + pitch * h) PTE_W 0;;
    mret f.

Definition set_buf (a : Z) (f : fb_info) : fb_info :=
  mkFb (fb f) (fb_size f) a (fb_width f) (fb_height f) (fb_pitch f) (cwidth f) (cheight f) (cx f) (cy f)
    (dirty_x1 f) (dirty_y1 f) (dirty_x2 f) (dirty_y2 f) (dirty f).

(** One entry of the table; the loop ends at an entry of zeros. *)
Definition fb_setup_round (f : fb_info) (i : Z) : K (option fb_info) :=
  km ← getkm (λ k, kmap_tab k !!! Z.to_nat i);
  if ((km_phys_start km =? 0) && (km_phys_end km =? 0))%bool then
    cprintf (str "Framebuffer buffer not found" ++ [10]) [];;
    mret (Some f)
  else if (negb (km_heap km =? 0) && (fb_size f <? km_phys_end km - km_phys_start km))%bool then
    let start := PGROUNDUP (km_phys_start km) in
    let end_ := PGROUNDUP (start + fb_size f) in
    modkm (λ k, mkKmem (kmem_use_lock k) (kmem_freelist k) (kmem_end k)
                  (alter (λ e, mkKmap end_ (km_phys_end e) (km_perm e) (km_heap e)) (Z.to_nat i) (kmap_tab k))
                  (kmap_cur k) (kpml4 k));;
    kmap_add start end_ PTE_W 0;;
    modmem (λ m, memmove m (P2V start) (fb f) (fb_size f));;
    cprintf (str "Using framebuffer buffer at 0x%x-0x%x" ++ [10]) [VLong start; VLong end_];;
    mret (Some (set_buf (P2V start) f))
  else mret None.

Definition fb_setup_double_buffering (f : fb_info) : K fb_info :=
  n ← getkm (λ k, length (kmap_tab k));
  r ← forM n 0 (fb_setup_round f);
  match r with
  | Some f => mret f
  | None => out_of_bounds
  end.
