(* ===== verification/Boot.v ===== *)
(** A concrete machine: one CPU that runs one process on a freshly initialised
    kernel with a small zeroed disk. The theorems on kernel code are applied to
    it, which shows that what they assume of the state does hold of states the
    kernel reaches. *)

From stdpp Require Import functions base list gmap strings.
From Stdlib Require Import ZArith Lia.
From S2P Require Import Prelude Seg CString Bytes Ring Sprintf Kbd Monad Kstate Spinlock Sched Cons Bio Log Fs Kalloc Vm Paging Pipe File Proc Console Syscall Sysfile Exec Trap Fb.

(** * The machine *)

(** The spinlocks as [initlock] leaves them. *)
Definition all_locks : list lockid :=
  [LkPtable; LkBcache; LkIcache; LkFtable; LkLog; LkIde; LkCons; LkKmem; LkTicks; LkPipe 0x100000] ++
  (LkBuf <$> seq 0 NBUF) ++ (LkInode <$> seq 0 NINODE).
Definition free_locks : gmap lockid spinlock :=
  list_to_map ((λ l, (l, mkSpin 0 "" None)) <$> all_locks).

Definition sys0 : sysregs := mkSys 8 16 16 16 0 0 40 (0, 0) (0, 0).
Definition ctx0 : cpuctx := mkCtx (mkHw 0 true 0 sys0) [mkCpu 0x80000 0 ts_zero (replicate NSEGS SEGDESC_NULL) 1 0 true (Some 0%nat)] free_locks.

Definition proc0 : proc :=
  mkProc 4096 0 0 RUNNING 1 None tf_zero None 0 (replicate NOFILE None) None (replicate 16 0).

(** A disk of 50 blocks, the log in blocks 2 to 31; [zeros] is the empty one. *)
Definition zeros : list (list Z) := replicate 50 (replicate 512 0).
Definition log0 : logrec := mkLog 2 30 0 0 1 0 (replicate 30 0).
Definition sb0 : superblock := mkSb 50 10 8 30 2 32 34.

Definition machine0 (bl : list (list Z)) : kstate :=
  mkK ctx0 (mkPtab (proc0 :: replicate 63 proc_zero) (Some 0%nat) 2) (mkKmem 1 0 0x1000 [] 0 0) ∅ (mkDisk bl [])
    (replicate (S NBUF) inhabitant) log0 sb0 (replicate NINODE inhabitant)
    (replicate NFILE inhabitant) {[0x100000 := mkPipe (replicate 512 0) 0 0 1 1]} 0
    (mkCons (replicate 128 0) 0 0 0 1 0 [] 0 [] 1 []) (replicate 256 gate_zero).

(** The machine after [binit]. *)
Definition machine (bl : list (list Z)) : kstate :=
  match binit 100%nat (machine0 bl) with Ret _ s => s | _ => machine0 bl end.

(** * What holds of it *)

Lemma ctx0_ok : cpu_ok ctx0 0.
Proof.
  exists (mkCpu 0x80000 0 ts_zero (replicate NSEGS SEGDESC_NULL) 1 0 true (Some 0%nat)). split; [|done].
  split_and!; [done..|]. intros j c' Hj. lia.
Qed.

Lemma free_lock l : l ∈ all_locks → lock_free ctx0 l.
Proof.
  intros Hl. exists "". simpl. unfold free_locks. apply elem_of_list_to_map.
  - rewrite <- list_fmap_compose. replace (fst ∘ _ <$> all_locks) with all_locks.
    + apply (bool_decide_unpack (NoDup all_locks)). vm_compute. exact I.
    + symmetry. apply list_fmap_id.
  - apply list_elem_of_fmap. by exists l.
Qed.

Lemma static_in l : static_lock l → l ∈ all_locks.
Proof.
  intros Hl. unfold all_locks. destruct l as [| | | | | | | | |b|j|]; simpl in Hl; try done;
    try (apply elem_of_app; left; set_solver).
  - apply elem_of_app; right. apply elem_of_app; left. apply list_elem_of_fmap. exists b.
    split; [done|]. apply elem_of_seq. lia.
  - apply elem_of_app; right. apply elem_of_app; right. apply list_elem_of_fmap. exists j.
    split; [done|]. apply elem_of_seq. lia.
Qed.

Lemma ready_machine0 bl : ready (machine0 bl) 0 0.
Proof.
  split; [split; [apply ctx0_ok|done]|]. intros l Hl. by apply free_lock, static_in.
Qed.

(** A disk of whole blocks. *)
Definition disk_ok (bl : list (list Z)) : Prop :=
  length bl = 50%nat ∧ Forall (λ b, length b = Z.to_nat BSIZE) bl.

Lemma machine_spec bl :
  disk_ok bl →
  k_disk (machine bl) = mkDisk bl [] ∧ k_log (machine bl) = log0 ∧ ready (machine bl) 0 0 ∧
  bio_rep (machine bl) 0 (disk_blk (machine0 bl)) ∅ ∅.
Proof.
  intros [Hl50 Hb]. destruct (binit_rep (machine0 bl) 0 100%nat) as (s'&E&Hd&_&Hl&Hx&Hrep).
  - reflexivity.
  - intros x. cbn [k_bc machine0]. destruct (decide (x < S NBUF)%nat).
    + by rewrite lookup_total_replicate_2.
    + rewrite list_lookup_total_alt, lookup_ge_None_2; [done|]. rewrite length_replicate. lia.
  - unfold disksize, disk_blk. cbn [k_disk d_blocks machine0]. intros bno Hbno.
    apply (Forall_lookup_total_1 _ _ _ Hb). lia.
  - unfold machine. rewrite E. clear E. split; [exact Hd|]. split; [exact Hl|]. split; [|exact Hrep].
    eapply more_free_ready, ready_machine0. exact Hx.
Qed.

Lemma zeros_ok : disk_ok zeros.
Proof. split; [reflexivity|]. apply Forall_replicate. reflexivity. Qed.

Lemma log0_ok n bl :
  0 ≤ n < 30 → length bl = 30%nat →
  (∀ t, (t < Z.to_nat n)%nat → home log0 50 (bl !!! t)) →
  (∀ t1 t2, (t1 < Z.to_nat n)%nat → (t2 < Z.to_nat n)%nat → bl !!! t1 = bl !!! t2 → t1 = t2) →
  log_ok (mkLog 2 30 0 0 1 n bl) 50.
Proof. intros. split; simpl; unfold LOGSIZE, MAXOPBLOCKS; try done; try lia. Qed.

(** * A transaction on it *)

(** What [log_write] leaves when a transaction has changed block 40: its buffer
    pinned with the new contents, its number in the in-memory header. *)
Definition new_block : list Z := replicate 512 7.
Definition txm_ops : list bop := [Read 40; Modify 40 new_block; Pin 40; Release 40].
Definition txm_log : logrec := mkLog 2 30 0 0 1 1 (40 :: replicate 29 0).
Definition txm : kstate :=
  match csteps txm_ops ∅ 100%nat (machine zeros) with Ret _ s => set_log txm_log s | _ => machine zeros end.

Lemma set_log_rep l s p v D h : bio_rep s p v D h → bio_rep (set_log l s) p v D h.
Proof. by intros []. Qed.


Lemma txm_asteps d v :
  length d = 50%nat → asteps txm_ops (mkAc d v ∅ ∅) = Some (mkAc d (<[40 := new_block]> v) {[40]} ∅).
Proof.
  intros Hd. unfold txm_ops. cbn [asteps astep].
  rewrite decide_True by (rewrite Hd; split_and!; [lia|lia|set_solver|right; rewrite union_empty_l_L, size_empty; change NBUF with 30%nat; lia]).
  cbn [mbind option_bind asteps astep].
  rewrite decide_True by (split; [set_solver|reflexivity]).
  cbn [mbind option_bind asteps astep]. rewrite decide_True by set_solver.
  cbn [mbind option_bind asteps astep]. rewrite decide_True by (split; [set_solver|left; set_solver]).
  cbn [mbind option_bind asteps]. do 2 f_equal; set_solver.
Qed.

Lemma txm_spec :
  ready txm 0 0 ∧ k_log txm = txm_log ∧ d_blocks (k_disk txm) = zeros ∧
  bio_rep txm 0 (<[40 := new_block]> (disk_blk (machine0 zeros))) {[40]} ∅.
Proof.
  destruct (machine_spec zeros zeros_ok) as (Hd&Hl&Hr&Hrep).
  destruct (csteps_refines txm_ops (machine zeros) 0 0 ∅ (mkAc zeros (disk_blk (machine0 zeros)) ∅ ∅)
    (mkAc zeros (<[40 := new_block]> (disk_blk (machine0 zeros))) {[40]} ∅) 100%nat)
    as (h&s&E&Hf&Hrep'&Hd'&Hh); [exact Hr| |change NBUF with 30%nat; lia|by apply txm_asteps|].
  { split; [exact Hrep|]. split; [rewrite Hd; reflexivity|symmetry; apply dom_empty_L]. }
  simpl in Hh. symmetry in Hh. apply dom_empty_inv_L in Hh as ->. unfold txm. rewrite E. clear E.
  split; [|split; [reflexivity|split; [symmetry; exact Hd'|by apply set_log_rep]]].
  apply (bframe_ready _ _ 0%nat 0%nat Hf) in Hr. exact Hr.
Qed.

Lemma pinned_tx : pinned txm_log = {[40]}.
Proof. vm_compute. reflexivity. Qed.

Lemma tx_log_ok : log_ok txm_log 50.
Proof.
  apply log0_ok; [lia|done|..].
  - intros [|t] Ht; [|simpl in Ht; lia]. split; simpl; lia.
  - intros [|t1] [|t2] ? ?; simpl in *; lia.
Qed.

Lemma disksize_50 s : d_blocks (k_disk s) = zeros → disksize s = 50.
Proof. intros E. unfold disksize. rewrite E. reflexivity. Qed.

Lemma zero_header : dec_n (replicate 512 0) = 0.
Proof. vm_compute. reflexivity. Qed.

(** The theorem on [commit] applies to the transaction on block 40. *)
Lemma commit_crash_atomic_witness :
  ∃ s' τ, commit 100%nat txm = Ret tt s' ∧ d_trace (k_disk s') = d_trace (k_disk txm) ++ τ ∧
    (∀ x, home txm_log 50 x → disk_blk s' x = <[40 := new_block]> (disk_blk (machine0 zeros)) x) ∧
    ∀ k sb ib pb, booted sb ib pb (disk_writes (take k τ) (k_disk txm)) txm_log →
      ∃ sr, recover_from_log 100%nat sb = Ret tt sr ∧ dec_n (disk_blk sr 2) = 0 ∧
        ∀ x, home txm_log 50 x →
          disk_blk sr x = if decide (Z.of_nat k ≤ 1) then disk_blk txm x
                          else <[40 := new_block]> (disk_blk (machine0 zeros)) x.
Proof.
  destruct txm_spec as (Hr&Hl&Hd&Hrep). pose proof (disksize_50 _ Hd) as Hsz.
  pose proof (commit_crash_atomic txm 0 0 (<[40 := new_block]> (disk_blk (machine0 zeros))) 100%nat Hr) as H.
  rewrite Hl, Hsz, pinned_tx in H. apply H.
  - exact tx_log_ok.
  - exact Hrep.
  - reflexivity.
  - unfold disk_blk. rewrite Hd. exact zero_header.
  - change NBUF with 30%nat. lia.
Defined.

(** * A crash *)

(** A disk whose header says that block 3 holds the new contents of block 40. *)
Definition crashed : list (list Z) :=
  <[3%nat := new_block]> (<[2%nat := enc_head txm_log (replicate 512 0)]> zeros).

Lemma crashed_ok : disk_ok crashed.
Proof.
  unfold disk_ok, crashed. rewrite !length_insert. split; [reflexivity|].
  apply Forall_insert; [|reflexivity]. apply Forall_insert; [apply zeros_ok|]. vm_compute. reflexivity.
Qed.

Lemma recovery_crash_safe_witness :
  ∃ s' τ, recover_from_log 100%nat (machine crashed) = Ret tt s' ∧
    d_trace (k_disk s') = d_trace (k_disk (machine crashed)) ++ τ ∧
    ∀ j sb ib pb, booted sb ib pb (disk_writes (take j τ) (k_disk (machine crashed))) log0 →
      ∃ sr, recover_from_log 100%nat sb = Ret tt sr ∧
        ∀ x, home log0 50 x → disk_blk sr x = disk_blk s' x.
Proof.
  destruct (machine_spec crashed crashed_ok) as (Hd&Hl&Hr&Hrep).
  assert (Hsz : disksize (machine crashed) = 50) by (unfold disksize; rewrite Hd; reflexivity).
  assert (Hhd : disk_blk (machine crashed) (l_start log0) = enc_head txm_log (replicate 512 0))
    by (unfold disk_blk; rewrite Hd; reflexivity).
  pose proof (recovery_crash_safe (machine crashed) 0 0 log0 100%nat) as H.
  rewrite Hsz, Hhd, Hl in H. apply H.
  - apply log0_ok; [lia|reflexivity|simpl; lia|simpl; lia].
  - split; [exact Hr|]. split; [reflexivity|].
    split; [unfold disk_blk at 1; rewrite Hd; exact Hrep|]. rewrite Hl. by repeat split.
  - change NBUF with 30%nat. lia.
  - exact tx_log_ok.
Defined.

(** * The other components on it *)

Lemma cache_refines_witness :
  ∃ s0, binit 100%nat (machine0 zeros) = Ret tt s0 ∧
    ∀ os a', asteps os (mkAc zeros (disk_blk (machine0 zeros)) ∅ ∅) = Some a' →
    ∃ h' s', csteps os ∅ 100%nat s0 = Ret h' s' ∧ bframe s0 s' ∧ ac_rep s' 0 h' a'.
Proof.
  apply (cache_refines (machine0 zeros) 0 0 100%nat (ready_machine0 zeros)).
  - reflexivity.
  - intros x. cbn [k_bc machine0]. destruct (decide (x < S NBUF)%nat).
    + by rewrite lookup_total_replicate_2.
    + rewrite list_lookup_total_alt, lookup_ge_None_2; [done|]. rewrite length_replicate. lia.
  - unfold disksize, disk_blk. cbn [k_disk d_blocks machine0]. intros bno Hbno.
    apply (Forall_lookup_total_1 _ _ _ (proj2 zeros_ok)). lia.
  - change NBUF with 30%nat. lia.
Defined.

Lemma pushcli_popcli_nest_witness :
  ∃ s1, repM 3 pushcli 0%nat (machine0 zeros) = Ret tt s1 ∧ (3%nat ≠ 0%nat → hw_if (x_hw (k_ctx s1)) = false) ∧
    repM 3 popcli 0%nat s1 = Ret tt (machine0 zeros).
Proof. apply (pushcli_popcli_nest 3 0 (machine0 zeros) 0 ctx0_ok). Defined.

Lemma acquire_release_cases_witness :
  ∃ s1, acquire LkLog 0%nat (machine0 zeros) = Ret tt s1 ∧ holding LkLog 0%nat s1 = Ret true s1 ∧
    hw_if (x_hw (k_ctx s1)) = false ∧ (∃ s2, acquire LkLog 0%nat s1 = Panic "acquire" s2) ∧
    release LkLog 0%nat s1 = Ret tt (machine0 zeros).
Proof.
  apply (acquire_release_cases 0 (machine0 zeros) 0 LkLog ctx0_ok). by apply free_lock, static_in.
Defined.

(** A page of the heap, on its own free list. *)
Definition heap1 : kstate := set_km (mkKmem 1 0x2000 0x1000 [] 0 0) (machine0 zeros).

Lemma km_lockable0 km : km_lockable (set_km km (machine0 zeros)) 0.
Proof. right. split; [apply ctx0_ok|by apply free_lock, static_in]. Qed.

Lemma kfree_spec_witness :
  ∃ s', kfree 0x2000 0%nat (machine0 zeros) = Ret tt s' ∧ km_ok s' [0x2000] ∧ k_ctx s' = k_ctx (machine0 zeros) ∧
    (∀ x, ¬ (0x2000 ≤ x < 0x2000 + PGSIZE) → rd (k_mem s') x = rd ∅ x) ∧
    (∀ x, 0x2000 + 8 ≤ x < 0x2000 + PGSIZE → rd (k_mem s') x = 1).
Proof.
  apply (kfree_spec (machine0 zeros) 0 0x2000 [] 0 (km_lockable0 _)); [by repeat constructor|set_solver|done|done].
Defined.

Lemma kalloc_spec_witness :
  ∃ s', kalloc 0%nat heap1 = Ret 0x2000 s' ∧ km_ok s' [] ∧ page 0x2000 ∧ 0x2000 ∉ (@nil Z) ∧
    k_mem s' = k_mem heap1 ∧ k_ctx s' = k_ctx heap1.
Proof.
  apply (kalloc_spec heap1 0 [0x2000] 0 (km_lockable0 _)).
  split; [by repeat split|]. split; [apply NoDup_singleton|]. by apply Forall_singleton.
Defined.

(** An address space with nothing in it, and four free pages. *)
Definition pg (n : Z) : Z := KERNBASE + 0x200000 + n * PGSIZE.
Definition pgm : kstate :=
  set_mem (wr64 (wr64 (wr64 ∅ (pg 1) (pg 2)) (pg 2) (pg 3)) (pg 3) (pg 4))
    (set_km (mkKmem 1 (pg 1) (pg 0) [] 0 0) (machine0 zeros)).

Lemma page_pg n : 0 ≤ n < 10 → page (pg n) ∧ KERNBASE ≤ pg n.
Proof.
  intros Hn. unfold page, pg. rewrite Z_mod_plus_full. unfold KERNBASE, PGSIZE. split_and!; try lia. reflexivity.
Qed.

Lemma pgm_ok : vm_ok pgm 0 (pg 0) {[pg 0 := (4%nat, 0)]} [pg 1; pg 2; pg 3; pg 4].
Proof.
  assert (Hm : ∀ n, 0 ≤ n < 10 → page (pg n)) by (intros n Hn; by apply page_pg).
  split.
  - right. split; [apply ctx0_ok|by apply free_lock, static_in].
  - split; [|split].
    + cbn [free_pages k_km k_mem pgm set_mem set_km kmem_freelist]. split_and!; try (apply Hm; lia); try done.
    + apply (bool_decide_unpack (NoDup [pg 1; pg 2; pg 3; pg 4])). vm_compute. exact I.
    + repeat constructor; try (apply Hm; lia); vm_compute; discriminate.
  - split.
    + apply lookup_singleton_eq.
    + intros p k x [<- [= <- <-]]%lookup_singleton_Some. split; [split; [apply Hm; lia|]|lia]. vm_compute. discriminate.
    + intros p k x j [<- [= <- <-]]%lookup_singleton_Some Hj e. unfold e. clear e.
      assert (Hz : rd64 (k_mem pgm) (pg 0 + 8 * j) = 0); [|by rewrite Hz].
      cbn [k_mem pgm set_mem set_km]. rewrite !rd64_wr64_ne by (unfold pg, PGSIZE; lia). reflexivity.
    + intros p k x [<- _]%lookup_singleton_Some. by left.
  - intros p Hp. apply lookup_singleton_None. intros <-. revert Hp.
    apply (bool_decide_unpack (pg 0 ∉ [pg 1; pg 2; pg 3; pg 4])). vm_compute. exact I.
  - vm_compute. discriminate.
Qed.

Lemma pipe0_ready : pipe_ready 0 0x100000 (machine0 zeros) [].
Proof.
  split; [apply ctx0_ok|]. split; [apply free_lock; set_solver|].
  split; [by apply free_lock, static_in|]. split; [by eexists|].
  unfold pipe_of, queue. cbn [k_pipes machine0]. rewrite lookup_total_singleton.
  by split_and!; simpl; intros; try lia.
Qed.

Lemma pipewrite_spec_witness :
  ∃ s', pipewrite 0x100000 [104; 105] 2 1%nat (machine0 zeros) = Ret 2 s' ∧ pipe_ready 0 0x100000 s' [104; 105].
Proof. apply (pipewrite_spec 1 0 0x100000 ltac:(lia) (machine0 zeros) [] [104; 105] pipe0_ready). unfold PIPESIZE. simpl. lia. Defined.

(** The pipe with two bytes in it. *)
Definition pipe_hi : kstate :=
  set_pipes {[0x100000 := mkPipe (104 :: 105 :: replicate 510 0) 0 2 1 1]} (machine0 zeros).

Lemma pipe_hi_ready : pipe_ready 0 0x100000 pipe_hi [104; 105].
Proof.
  split; [apply ctx0_ok|]. split; [apply free_lock; set_solver|].
  split; [by apply free_lock, static_in|]. split; [by eexists|].
  unfold pipe_of, queue. cbn [k_pipes set_pipes pipe_hi]. rewrite lookup_total_singleton.
  split_and!; simpl; try done; try lia. intros [|[|k]] Hk; [done|done|lia].
Qed.

Lemma piperead_spec_witness :
  ∃ s', piperead 0x100000 1 1%nat pipe_hi = Ret (1, [104]) s' ∧ pipe_ready 0 0x100000 s' [105].
Proof.
  apply (piperead_spec 1 0 0x100000 ltac:(lia) pipe_hi [104; 105] 1 pipe_hi_ready); [lia|by left].
Defined.


(** The serial port with a line typed at it, a letter of it erased. *)
Definition typing : kstate :=
  set_cons (mkCons (replicate 128 0) 0 0 0 1 0 [] 0 [] 1 (str "hx" ++ [127] ++ str "i" ++ [13])) (machine0 zeros).

Lemma consoleintr_edits_witness :
  ∃ s', consoleintr [] uartgetc 200%nat typing = Ret tt s' ∧ input_rep (k_cons s') (mkLines (str "hi" ++ [10]) []) ∧
    uart_pending (k_cons s') = [].
Proof.
  destruct (consoleintr_edits uartgetc _ 200 typing 0 (mkLines [] []) []) as (s'&E&Hr&_&Hp&_).
  - apply ctx0_ok.
  - by apply free_lock, static_in.
  - by apply free_lock, static_in.
  - split_and!; [|reflexivity|apply not_elem_of_nil]. split_and!; try done. intros j Hj. simpl in Hj. lia.
  - reflexivity.
  - apply (bool_decide_unpack (Forall (λ c, 0 ≤ c < 256 ∧ c ≠ C 80) _)). vm_compute. exact I.
  - lia.
  - vm_compute. lia.
  - exists s'. split; [exact E|]. split; [exact Hr|]. exact Hp.
Defined.

(** * Protection *)

Lemma idt_gates_witness :
  ∃ s', tvinit (λ i, 0xffff800000100000 + 16 * i) 0%nat (machine0 zeros) = Ret tt s' ∧
    gate_callable DPL_USER (hw_gate (gate_bytes (k_idt s' !!! 64%nat))) = true ∧ gate_callable DPL_USER (hw_gate (gate_bytes (k_idt s' !!! 32%nat))) = false.
Proof.
  destruct (idt_gates (λ i, 0xffff800000100000 + 16 * i) 0%nat (machine0 zeros)) as (s' & E & _ & H).
  - reflexivity.
  - intros i Hi. lia.
  - exists s'. split; [exact E|]. split; [apply (H 64); lia|apply (H 32); lia].
Defined.

(** A process with a kernel stack and an address space. *)
Definition runnable0 : kstate :=
  set_pt (mkPtab [mkProc 4096 0x3000 0x2000 RUNNABLE 1 None tf_zero None 0 (replicate NOFILE None) None (replicate 16 0)] None 2) (machine0 zeros).

Lemma switchuvm_spec_witness :
  ∃ x', switchuvm (Some 0%nat) 0%nat runnable0 = Ret tt (set_ctx x' runnable0) ∧ hw_ts_rsp0 (ts_bytes (c_ts (x_cpus x' !!! 0%nat))) = 0x3000.
Proof.
  destruct (switchuvm_spec 0%nat runnable0 0%nat 0%nat) as (x' & E & _ & _ & _ & _ & H & _).
  - exact ctx0_ok.
  - reflexivity.
  - vm_compute. split; congruence.
  - vm_compute. split; congruence.
  - exists x'. split; [exact E|exact H].
Defined.
