(* ===== verification/BootProc.v ===== *)
(** The concrete machine with processes on it: a heap, an address space made by
    [setupkvm] and [allocuvm], and the theorems on processes applied to it. *)

From stdpp Require Import base list gmap strings.
From Stdlib Require Import ZArith Lia.
From S2P Require Import Prelude Seg CString Bytes Sprintf Monad Kstate Spinlock Sched Cons Bio Log Fs Kalloc Panic Vm Paging Uvm Uspace Pipe File Proc Fork Syscall Umode Boot.

(** * The heap *)

(** Twenty-four free pages, and a table with one range. *)
Definition heap_pages0 : list Z := pg <$> seqZ 0 24.
Definition chain : mem := foldr (λ n m, wr64 m (pg n) (pg (n + 1))) ∅ (seqZ 0 23).
Definition ranges0 : list kmapent := [mkKmap 0x200000 0x201000 PTE_W 0].
Definition file0 : file := mkFile FD_INODE 1 1 1 0 (Some 0%nat) 0.
Definition file_none : file := mkFile FD_NONE 0 0 0 0 None 0.
Definition heap : kstate :=
  set_mem chain (set_km (mkKmem 1 (pg 0) (pg 0) (ranges0 ++ replicate (KMAP_MAX_SIZE - 1) (mkKmap 0 0 0 0)) 1 0)
    (set_ft (file0 :: replicate 99 file_none) (machine0 zeros))).

(** The tables that the range and page 0 need. *)
Definition labels0 : list (nat * Z) := (4%nat, 0) :: path (UPAGES + 512) ++ path 0 ++ path 1.

Lemma page_pg' n : 0 ≤ n < 100 → page (pg n) ∧ pg 0 ≤ pg n.
Proof. intros Hn. unfold page, pg. rewrite Z_mod_plus_full. unfold KERNBASE, PGSIZE. split_and!; try lia. reflexivity. Qed.

Lemma heap_lock : km_lockable heap 0.
Proof. right. split; [apply ctx0_ok|by apply free_lock, static_in]. Qed.

Lemma heap_ok : km_ok heap heap_pages0.
Proof.
  split; [|split].
  - unfold heap_pages0. let ns := eval vm_compute in (seqZ 0 24) in change (seqZ 0 24) with ns. cbn [fmap list_fmap free_pages].
    repeat (split; [vm_compute; reflexivity|split; [apply page_pg'; lia|]]). vm_compute. reflexivity.
  - apply (bool_decide_unpack (NoDup heap_pages0)). vm_compute. exact I.
  - apply Forall_fmap, Forall_forall. intros n Hn%elem_of_seqZ. apply page_pg'. lia.
Qed.

Lemma ranges0_ok : kmap_is (k_km heap) ranges0 ∧ kmap_ok ranges0 1000 labels0.
Proof.
  assert (Hr : ∀ n, in_range (mkKmap 0x200000 0x201000 PTE_W 0) n → n = 512).
  { intros n. unfold in_range. cbn [km_phys_start km_phys_end]. change (0x200000 / PGSIZE) with 512. change (pgs 0x201000) with 513. lia. }
  split; [by repeat constructor|]. split.
  - unfold ranges0, KMAP_MAX_SIZE. cbn [length]. lia.
  - by repeat constructor.
  - intros [|j] [|j'] e e' n; done.
  - by repeat constructor.
  - by left.
  - intros e n ->%list_elem_of_singleton ->%Hr. unfold labels0. set_solver.
Qed.

(** * An address space *)

Definition make_space : K (Z * Z) :=
  d ← setupkvm;
  r ← allocuvm d 0 PGSIZE PTE_W;
  mret (d, r).
Lemma make_space_run fuel s d s1 r s2 :
  setupkvm fuel s = Ret d s1 → allocuvm d 0 PGSIZE PTE_W fuel s1 = Ret r s2 → make_space fuel s = Ret (d, r) s2.
Proof. intros E1 E2. unfold make_space. by rewrite (run_bind _ _ _ _ _ _ E1), (run_bind _ _ _ _ _ _ E2). Qed.

(** What a call returned. *)
Definition result {A : Type} (x0 : A) (o : out kstate A) : A := match o with Ret x _ => x | _ => x0 end.

Lemma result_Ret {A : Type} (x0 x : A) o s : o = Ret x s → result x0 o = x.
Proof. by intros ->. Qed.

Lemma space_result : (result (0, 0) (make_space 1000%nat heap)).2 = PGSIZE.
Proof. vm_compute. reflexivity. Qed.

Lemma heap_can_print : can_print heap.
Proof. split; [done|]. right. exists 0%nat. split; [apply ctx0_ok|by apply free_lock, static_in]. Qed.

Lemma space_ok :
  ∃ x s lab l U, make_space 1000%nat heap = Ret x s ∧ uvm s 0 x.1 lab l U ∧ (∀ x, is_Some (U !! x) ↔ x = 0) ∧ (∀ q, owned lab l U q ↔ q ∈ heap_pages0) ∧ same_but_vm heap s.
Proof.
  destruct ranges0_ok as [Hki Hko].
  destruct (setupkvm_run 0 1000 heap heap_pages0 ranges0 labels0 heap_lock heap_ok ltac:(by vm_compute) Hki Hko) as (d & s1 & E1 & H1).
  destruct H1 as [(_ & (lab & l & [V S1 O1 _]) & _)|(_ & _ & Hl)].
  2:{ exfalso. revert Hl. vm_compute. lia. }
  assert (Hp : can_print s1) by (eapply can_print_same; [apply S1|apply heap_can_print]).
  assert (Hfl : flags_ok (Z.lor PTE_W PTE_U)) by (split; [change (Z.lor PTE_W PTE_U) with 6; clear; lia|reflexivity]).
  pose proof (allocuvm_run 0 1000 d s1 lab l ∅ 0 PGSIZE PTE_W) as H. cbv zeta in H. change (pgs 0) with 0 in H. change (pgs PGSIZE) with 1 in H.
  destruct H as (r & s2 & lab2 & l2 & U2 & E2 & V2 & A2 & H2); [clear; lia|clear; lia|exact V|exact Hp|exact Hfl|clear; unfold PGSIZE; lia|clear; unfold PGSIZE; lia|intros x _; apply lookup_empty|].
  pose proof (make_space_run _ _ _ _ _ _ E1 E2) as E. pose proof (eq_trans (eq_sym (f_equal snd (result_Ret (0, 0) _ _ _ E))) space_result) as Er.
  exists (d, r), s2, lab2, l2, U2. split; [exact E|]. split; [exact V2|]. clear E E1 E2. assert (Hr : r ≠ 0) by (clear -Er; cbn [snd] in Er; unfold PGSIZE in *; lia). destruct H2 as [[_ Hg]|[Hr0 _]]; [|by destruct Hr]. split; [|split].
  - intros x. specialize (Hg x). case_decide as Hx.
    + destruct Hg as (p & -> & _). split; [|by eexists]. intros _. clear -Hx. lia.
    + rewrite Hg, lookup_empty. split; [by intros []|]. intros ->. exfalso. apply Hx. clear. lia.
  - intros q. by rewrite (as_owned _ _ _ _ _ _ _ _ A2), O1.
  - eapply same_but_vm_trans; [apply S1|apply A2].
Qed.

(** * Processes *)

(** A process with one open file in an address space at [d], and the table with
    it and one other process. *)
Definition parent0 (d : Z) : proc :=
  mkProc PGSIZE d (pg 50) RUNNING 1 None tf_zero None 0 (Some 0%nat :: replicate 15 None) (Some 0%nat) (replicate 16 0).
Definition with_procs (d : Z) (q : proc) (s : kstate) : kstate :=
  set_pt (mkPtab (parent0 d :: q :: replicate 62 proc_zero) (Some 0%nat) 2) s.

Lemma lookup_procs d q j y s : pt_proc (k_pt (with_procs d q s)) !! j = Some y → y = parent0 d ∨ y = q ∨ y = proc_zero.
Proof.
  cbn [with_procs k_pt set_pt pt_proc]. destruct j as [|[|j]]; cbn [lookup list_lookup]; [intros [= <-]; by left|intros [= <-]; by right; left|].
  intros [-> _]%lookup_replicate. by right; right.
Qed.

Lemma refs_procs d q f : p_ofile q = replicate NOFILE None → refs f (parent0 d :: q :: replicate 62 proc_zero) = if decide (f = 0%nat) then 1%nat else 0%nat.
Proof.
  intros Hq. unfold refs. cbn [sum_list_with]. rewrite Hq, times_none. change (p_ofile (parent0 d)) with ([Some 0%nat] ++ replicate 15 None).
  rewrite times_app, times_one, times_none. assert (E : ∀ n, sum_list_with (λ q, times f (p_ofile q)) (replicate n proc_zero) = 0%nat).
  { intros n. induction n as [|n IH]; [done|]. cbn [replicate sum_list_with]. rewrite IH. change (p_ofile proc_zero) with (replicate 16 (@None nat)). by rewrite times_none. }
  rewrite E. case_decide; lia.
Qed.

Lemma procs0_ok d q s : k_ft s = k_ft heap → p_ofile q = replicate NOFILE None → procs_ok (with_procs d q s).
Proof.
  intros Hft Hq. split.
  - done.
  - intros j y [-> |[-> | ->]]%lookup_procs; cbn [with_procs k_ft set_pt]; rewrite Hft.
    + split; [done|]. intros f [[= ->]|[? _]%elem_of_replicate]%elem_of_cons; [cbn; lia|done].
    + rewrite Hq. split; [done|]. by intros f [? _]%elem_of_replicate.
    + split; [done|]. by intros f [? _]%elem_of_replicate.
  - intros j y [-> |[-> | ->]]%lookup_procs; [by intros []|done|done].
  - intros f ff. cbn [with_procs k_ft set_pt k_pt pt_proc]. rewrite Hft, refs_procs by done. destruct f as [|f]; cbn [k_ft heap set_mem set_km set_ft lookup list_lookup].
    + by intros [= <-].
    + by intros [-> _]%lookup_replicate.
Qed.

(** What the processes need of the rest of the state, which is as in the heap. *)
Lemma heap_rest s : same_but_vm heap s →
  k_ctx s = ctx0 ∧ k_ft s = k_ft heap ∧ kmap_is (k_km s) ranges0 ∧ km_lockable s 0 ∧ can_print s.
Proof.
  intros S. pose proof (same_but_vm_kmap _ _ _ S (proj1 ranges0_ok)). pose proof (same_but_vm_lockable _ _ 0 S heap_lock).
  pose proof (can_print_same _ _ S heap_can_print). by destruct S as (f & m & cs & ->).
Qed.

(** * Fork *)

Lemma forkable0 s d lab l U :
  uvm s 0 d lab l U → (∀ x, is_Some (U !! x) ↔ x = 0) → same_but_vm heap s →
  forkable (with_procs d proc_zero s) 0 0 (parent0 d) 0 lab l U ranges0 labels0 1000.
Proof.
  intros V HU S. destruct (heap_rest s S) as (Hx & Hft & Hki & Hlk & _).
  assert (Hl : ∀ lk, static_lock lk → lock_free (k_ctx s) lk) by (intros lk ?; rewrite Hx; by apply free_lock, static_in).
  split.
  - cbn [with_procs k_ctx set_pt]. rewrite Hx. split; [apply ctx0_ok|done].
  - split_and!; by apply Hl.
  - by apply procs0_ok.
  - done.
  - by eapply uvm_ext; [exact V|exact Hlk|..].
  - split; [exact Hki|apply ranges0_ok].
  - change (pgs (p_sz (parent0 d))) with 1. cbn [p_sz parent0]. unfold PGSIZE. lia.
  - intros x. change (pgs (p_sz (parent0 d))) with 1. intros Hx0. assert (x = 0) as -> by lia. split; [by apply HU|]. unfold labels0. set_solver.
Qed.

(** [fork] called by the process. *)
Definition forkm (x : Z * Z) (s : kstate) : out kstate Z := fork 1000%nat (with_procs x.1 proc_zero s).

Lemma fork_result : result 0 (obind forkm (make_space 1000%nat heap)) = 2.
Proof. vm_compute. reflexivity. Qed.

Lemma fork_spec_witness :
  ∃ d s, let s0 := with_procs d proc_zero s in
  ∃ s' k d' lab U lab' l' U', fork 1000%nat s0 = Ret 2 s' ∧ pt_proc (k_pt s') !! 1%nat = Some (child 0 (parent0 d) 2 k d' proc_zero) ∧
    uvm s' 0 d lab l' U ∧ uvm s' 0 d' lab' l' U' ∧ copy_of 1 U U' (k_mem s0) (k_mem s') ∧ procs_ok s'.
Proof.
  destruct space_ok as (x & s & lab & l & U & E0 & V & HU & _ & S). pose proof fork_result as Hres. rewrite E0 in Hres. cbn [obind] in Hres. unfold forkm in Hres.
  clear E0. destruct x as [d r0]. cbn [fst] in *. set (s0 := with_procs d proc_zero s) in *.
  destruct (fork_spec s0 0 0 (parent0 d) 0 lab l U ranges0 labels0 1000 (forkable0 s d lab l U V HU S))
    as (r & s' & v & l' & E & _ & P & VP & [(np & q & k & d' & lab' & U' & Ef & _ & Es & V' & _ & C & _)|(Er & _)]);
    rewrite (result_Ret _ _ _ _ E) in Hres; [|exfalso; clear -Er Hres; lia].
  assert (Ei : list_find (λ q, p_state q = UNUSED) (pt_proc (k_pt s0)) = Some (1%nat, proc_zero)) by reflexivity.
  rewrite Ei in Ef. injection Ef as <- <-. exists d, s. cbv zeta. exists s', k, d', lab, U, lab', l', U'. rewrite <- Hres.
  split; [exact E|]. split; [by rewrite Es|]. split; [exact VP|]. split; [exact V'|]. split; [exact C|exact P].
Defined.

(** * Wait *)

(** A child that has exited, its memory the address space at [d]. *)
Definition zombie0 (d : Z) : proc :=
  mkProc PGSIZE d (pg 51) ZOMBIE 2 (Some 0%nat) tf_zero None 0 (replicate NOFILE None) None (replicate 16 0).

Lemma pg51_loose s lab l U : (∀ q, owned lab l U q ↔ q ∈ heap_pages0) → same_but_vm heap s → loose s lab l U (pg 51).
Proof.
  intros HO (f & m & cs & ->). split; [by apply page_pg'|]. split; [by apply page_pg'|]. rewrite HO.
  apply (bool_decide_unpack (pg 51 ∉ heap_pages0)). vm_compute. exact I.
Qed.

Lemma wait_spec_witness :
  ∃ d s, let s0 := with_procs (pg 60) (zombie0 d) s in
  ∃ s' l', wait 1000%nat s0 = Ret 2 s' ∧ p_state (pt_proc (k_pt s') !!! 1%nat) = UNUSED ∧ km_ok s' l' ∧
    ∀ q, q ∈ l' ↔ q = pg 51 ∨ q ∈ heap_pages0.
Proof.
  destruct space_ok as ([d r0] & s & lab & l & U & _ & V & _ & HO & S). cbn [fst] in *. destruct (heap_rest s S) as (Hx & Hft & _ & Hlk & _).
  set (s0 := with_procs (pg 60) (zombie0 d) s).
  assert (Hl : ∀ lk, static_lock lk → lock_free (k_ctx s0) lk) by (intros lk ?; change (k_ctx s0) with (k_ctx s); rewrite Hx; by apply free_lock, static_in).
  assert (Hth : thread (k_ctx s0) 0 0 ∧ c_ncli (x_cpus (k_ctx s0) !!! 0%nat) = 0).
  { change (k_ctx s0) with (k_ctx s). rewrite Hx. split; [split; [apply ctx0_ok|done]|done]. }
  assert (Ed : list_find (dead 0) (pt_proc (k_pt s0)) = Some (1%nat, zombie0 d)) by reflexivity.
  assert (Hco : corpse 0 s0 (zombie0 d) lab l U).
  { split; [by eapply uvm_ext; [exact V|exact Hlk|..]|]. exact (pg51_loose s lab l U HO S). }
  pose proof (wait_spec s0 0 0 lab l U 1000 (proj1 Hth) (proj2 Hth) (Hl LkPtable I) (Hl LkKmem I) (procs0_ok (pg 60) (zombie0 d) s Hft eq_refl)) as H. rewrite Ed in H.
  destruct H as (v & l' & E & _ & P); [unfold NPROC; lia|lia|by intros c z [= <- <-]|]. exists d, s. cbv zeta. fold s0.
  eexists _, l'. split; [exact E|]. split; [reflexivity|]. destruct P as [_ _ K F]. split; [exact K|]. intros q. rewrite F, HO. set_solver.
Defined.

(** * Growing *)

Definition growm (x : Z * Z) (s : kstate) : out kstate Z := growproc PGSIZE 1000%nat (with_procs x.1 proc_zero s).

Lemma grow_result : result (-1) (obind growm (make_space 1000%nat heap)) = 0.
Proof. vm_compute. reflexivity. Qed.

Lemma growable0 s d lab l U :
  uvm s 0 d lab l U → (∀ x, is_Some (U !! x) ↔ x = 0) → same_but_vm heap s → growable (with_procs d proc_zero s) 0 0 (parent0 d) lab l U PGSIZE 1000.
Proof.
  intros V HU S. destruct (heap_rest s S) as (Hx & Hft & Hki & Hlk & Hpr). split.
  - cbn [with_procs k_ctx set_pt]. rewrite Hx. split; [apply ctx0_ok|done].
  - cbn [with_procs k_ctx set_pt]. rewrite Hx. split; [reflexivity|]. by vm_compute.
  - split; [done|]. by vm_compute.
  - exact Hpr.
  - by eapply uvm_ext; [exact V|exact Hlk|..].
  - split; [cbn [p_sz parent0]; unfold PGSIZE; lia|]. intros x. change (pgs (p_sz (parent0 d))) with 1. intros Hx1.
    destruct (U !! x) as [e|] eqn:E; [|done]. assert (x = 0) by (apply HU; by rewrite E). lia.
  - unfold PGSIZE. lia.
  - split; [lia|]. change (pgs (p_sz (parent0 d) + PGSIZE)) with 2. change (pgs (p_sz (parent0 d))) with 1. lia.
Qed.


(** * User mode *)

Definition copym (x : Z * Z) (s : kstate) : out kstate Z := copyuvm x.1 PGSIZE 1000%nat s.

Lemma copy_result : (result 0 (obind copym (make_space 1000%nat heap)) =? 0) = false.
Proof. vm_compute. reflexivity. Qed.

(** The processor in the address space at [d]. *)
Definition run_in (d : Z) (s : kstate) : kstate :=
  set_ctx (mkCtx (mkHw (hw_apicid (x_hw ctx0)) (hw_if (x_hw ctx0)) (V2P d) (hw_sys (x_hw ctx0))) (x_cpus ctx0) (x_locks ctx0)) s.


(** * A panic *)

