(* ===== verification/FsImage.v ===== *)
(** A small file system: the machine of Boot.v in a transaction on a disk with a
    root directory and a file. The theorems on the file system are applied to
    it. *)

From stdpp Require Import functions base list gmap strings.
From Stdlib Require Import ZArith Lia.
From S2P Require Import Prelude CString Bytes Monad Kstate Spinlock Sched Bio Log Fs Icache Tx Balloc Inode Dinode Writei Dir Boot.

(** * The disk *)

Definition blk (l : list Z) : list Z := l ++ replicate (512 - length l) 0.
Definition pad14 (l : list Z) : list Z := l ++ replicate (14 - length l) 0.

(** Inode 1 is the root directory, in block 36; inode 2 the file [f], in block
    35. *)
Definition root_inode : dinode := mkDinode T_DIR 0 0 1 48 (36 :: replicate 12 0).
Definition file_inode : dinode := mkDinode T_FILE 0 0 1 5 (35 :: replicate 12 0).
Definition inode_block : list Z := put_dinode 128 file_inode (put_dinode 64 root_inode (replicate 512 0)).
Definition bitmap_block : list Z := blk [255; 255; 255; 255; 31].
Definition root_block : list Z :=
  blk (encode_dirent (mkDirent 1 (pad14 (str "."))) ++ encode_dirent (mkDirent 1 (pad14 (str ".."))) ++
       encode_dirent (mkDirent 2 (pad14 (str "f")))).

Definition image : list (list Z) :=
  <[32%nat := inode_block]> (<[34%nat := bitmap_block]> (<[35%nat := blk (str "hello")]>
    (<[36%nat := root_block]> zeros))).

Definition cached (inum valid : Z) (d : dinode) : inode :=
  mkInode 1 inum 1 (mkSleep 0 "" 0) valid (di_type d) (di_major d) (di_minor d) (di_nlink d) (di_size d) (di_addrs d).

(** The inode cache: the file, the file again in an entry that is not loaded
    yet, the root directory. *)
Definition icache : list inode :=
  [cached 2 1 file_inode; cached 2 0 (mkDinode 0 0 0 0 0 (replicate 13 0)); cached 1 1 root_inode] ++
  replicate 47 inhabitant.

Definition open_log : logrec := mkLog 2 30 1 0 1 0 (replicate 30 0).
Definition fsm : kstate := set_ic icache (set_log open_log (machine image)).
Definition img : Z → list Z := disk_blk (machine0 image).

(** * What holds of it *)

Lemma range_all (P : Z → bool) lo n :
  forallb P (seqZ lo n) = true → ∀ x, lo ≤ x < lo + n → P x = true.
Proof.
  intros H x Hx. rewrite forallb_forall in H. apply H, list_elem_of_In, elem_of_seqZ. lia.
Qed.

Lemma image_ok : disk_ok image.
Proof.
  split; [reflexivity|]. apply (bool_decide_unpack (Forall (λ b, length b = Z.to_nat BSIZE) image)).
  vm_compute. exact I.
Qed.

Lemma fsm_sb : k_sb fsm = sb0.
Proof.
  vm_compute. reflexivity.
Qed.

Lemma fsm_size : disksize fsm = 50.
Proof. vm_compute. reflexivity. Qed.

Lemma open_log_ok : log_ok open_log 50.
Proof. split; simpl; unfold LOGSIZE, MAXOPBLOCKS; try done; try lia. Qed.

(** A transaction that has just begun. *)
Lemma begun_tx s l v :
  ready s 0 0 → bio_rep s 0 v ∅ ∅ → log_ok l (disksize s) → lh_n l = 0 → 1 ≤ l_outstanding l →
  tx (set_log l s) 0 0 v ∅.
Proof.
  intros Hr Hrep Hl Hn Ho. assert (Hp : pinned l = ∅) by (unfold pinned; by rewrite Hn).
  split; simpl; try done. rewrite Hp. by apply set_log_rep.
Qed.

Lemma fsm_tx : tx fsm 0 0 img ∅.
Proof.
  destruct (machine_spec image image_ok) as (Hd&Hl&Hr&Hrep). apply tx_set_ic, begun_tx;
    [exact Hr|exact Hrep| |reflexivity|reflexivity || (simpl; lia)]. unfold disksize. rewrite Hd. apply open_log_ok.
Qed.

Lemma fsm_geometry : fs_geometry fsm.
Proof.
  unfold fs_geometry. rewrite fsm_sb, fsm_size. change (k_log fsm) with open_log.
  split; simpl; try lia; vm_compute; split; discriminate.
Qed.

Lemma fsm_budget : budget fsm = 29.
Proof. reflexivity. Qed.

Lemma img_meta : meta_used img sb0.
Proof.
  intros b Hb. pose proof (range_all (λ b, negb (free img sb0 b)) 0 35 ltac:(vm_compute; reflexivity) b) as H.
  apply negb_true_iff, H. exact Hb.
Qed.

(** The free blocks. *)
Lemma img_free n : (n ≤ 13)%nat → enough_free img sb0 n.
Proof.
  intros Hn. exists (list_to_set (seqZ 37 13)). split.
  - rewrite size_list_to_set by apply NoDup_seqZ. rewrite length_seqZ. lia.
  - intros x Hx%elem_of_list_to_set%elem_of_seqZ. split; [simpl; lia|].
    apply (range_all (free img sb0) 37 13); [vm_compute; reflexivity|lia].
Qed.

(** A file with one block. *)
Lemma one_block b :
  35 ≤ b < 50 → free img sb0 b = false →
  file_ok img sb0 (b :: replicate 12 0) ∧ mapped img (b :: replicate 12 0) 1.
Proof.
  intros Hb Hf.
  assert (Hs : ∀ j, -1 ≤ j < MAXFILE → slot img (b :: replicate 12 0) j = if decide (j = 0) then b else 0).
  { intros j Hj. unfold slot, faddr, ind. destruct (Z.ltb_spec j 0).
    { by rewrite decide_False by lia. }
    destruct (Z.ltb_spec j NDIRECT); [|by rewrite decide_False by (unfold NDIRECT in *; lia)].
    case_decide; [by subst j|]. destruct (Z.to_nat j) as [|k] eqn:Ej; [lia|].
    change (replicate 12 0 !!! k = 0). apply lookup_total_replicate_2. unfold NDIRECT in *. lia. }
  split; [split|].
  - reflexivity.
  - intros j Hj. rewrite Hs by done. case_decide; [|done]. intros _. split; [exact Hb|done].
  - intros j1 j2 H1 H2. rewrite !Hs by done. repeat case_decide; lia || done.
  - intros bn Hbn. replace bn with 0 by lia. unfold faddr. simpl. lia.
Qed.

Definition the_file : inode := cached 2 1 file_inode.

Lemma the_file_ok : inode_ok img sb0 the_file.
Proof.
  destruct (one_block 35) as [Hok Hm]; [lia|vm_compute; reflexivity|].
  split; simpl; try done.
Qed.

Lemma fsm_ready : file_ready 0 0 200 0 fsm img the_file.
Proof.
  split; rewrite ?fsm_sb.
  - apply fsm_tx.
  - reflexivity.
  - apply fsm_geometry.
  - apply the_file_ok.
  - by repeat split.
  - done.
  - apply img_meta.
  - unfold bitmap_fuel. rewrite fsm_sb. done.
  - done.
Qed.

(** * The theorems applied *)

Lemma no_holds sb v : holds_used sb v ∅.
Proof. intros x Hx. rewrite dom_empty_L in Hx. by apply not_elem_of_empty in Hx. Qed.

Lemma balloc_spec_witness : ∃ s', balloc 1 200%nat fsm = Ret 37 s'.
Proof.
  destruct (balloc_spec 0 0 200 ltac:(vm_compute; lia) fsm img ∅ fsm_tx fsm_geometry)
    as [(a&s'&v'&E&_&_&Ha&Hf&Hmin&_)|[Hno _]].
  - rewrite fsm_sb. exact img_meta.
  - apply no_holds.
  - unfold bitmap_fuel. rewrite fsm_sb. vm_compute. discriminate.
  - rewrite fsm_budget. lia.
  - rewrite fsm_budget, dom_empty_L, size_empty. lia.
  - exists s'. rewrite E. f_equal. rewrite fsm_sb in *. destruct (Z.lt_trichotomy a 37) as [Hl|[?|Hg]]; [|done|].
    + exfalso. change (data_start sb0) with 35 in Ha.
      pose proof (range_all (λ b, negb (free img sb0 b)) 0 37 ltac:(vm_compute; reflexivity) a ltac:(lia)) as H.
      cbn beta in H. rewrite Hf in H. discriminate.
    + exfalso. specialize (Hmin 37 ltac:(lia)). vm_compute in Hmin. discriminate.
  - rewrite fsm_sb in Hno. specialize (Hno 37 ltac:(simpl; lia)). vm_compute in Hno. discriminate.
Defined.

Lemma bfree_spec_witness :
  (∃ s', bfree 1 35 200%nat fsm = Ret tt s') ∧ ∃ s', bfree 1 40 200%nat fsm = Panic "freeing free block" s'.
Proof.
  split.
  - pose proof (bfree_spec 0 0 200 ltac:(vm_compute; lia) fsm img ∅ 35 fsm_tx fsm_geometry) as H.
    cbv zeta in H. rewrite fsm_sb, fsm_budget, dom_empty_L, size_empty in H.
    specialize (H (no_holds _ _) ltac:(simpl; lia) ltac:(lia) ltac:(lia)).
    change (free img sb0 35) with false in H. destruct H as (s'&v'&E&_). by exists s'.
  - pose proof (bfree_spec 0 0 200 ltac:(vm_compute; lia) fsm img ∅ 40 fsm_tx fsm_geometry) as H.
    cbv zeta in H. rewrite fsm_sb, fsm_budget, dom_empty_L, size_empty in H.
    specialize (H (no_holds _ _) ltac:(simpl; lia) ltac:(lia) ltac:(lia)).
    change (free img sb0 40) with true in H. exact H.
Defined.

Definition no_dev : Z → devops := λ _, mkDevops None None.

Lemma readi_spec_witness : ∃ s', readi no_dev 0 1 9 200%nat fsm = Ret (4, str "ello") s'.
Proof.
  pose proof (readi_spec 0 0 200 ltac:(vm_compute; lia) no_dev fsm img 0 the_file 1 9 fsm_tx eq_refl fsm_geometry) as H.
  rewrite fsm_sb in H. specialize (H the_file_ok ltac:(lia) ltac:(lia) ltac:(reflexivity)).
  change ((i_size the_file <? 1) || (2 ^ 32 <=? 1 + 9)) with false in H. destruct H as (s'&E&_).
  exists s'. rewrite E. reflexivity.
Defined.


Lemma file_inode_ok : dinode_ok file_inode.
Proof.
  split; [vm_compute; split; [discriminate|reflexivity]..|reflexivity|].
  intros k Hk. do 13 (destruct k as [|k]; [simpl; lia|]). lia.
Qed.

Lemma iupdate_ilock_witness :
  ∃ s1 s2, iupdate 0 200%nat fsm = Ret tt s1 ∧ ilock (Some 1%nat) 200%nat s1 = Ret tt s2 ∧
    dinode_of (k_ic s2 !!! 1%nat) = file_inode.
Proof.
  pose proof (iupdate_ilock 0 0 200 ltac:(vm_compute; lia) fsm img 0 the_file fsm_tx eq_refl eq_refl fsm_geometry) as H.
  rewrite fsm_sb, fsm_budget in H. specialize (H ltac:(simpl; lia) ltac:(lia) file_inode_ok ltac:(discriminate)).
  destruct H as (s1&E1&H).
  destruct (H 1%nat (cached 2 0 (mkDinode 0 0 0 0 0 (replicate 13 0)))) as (s2&E2&E3&_); try reflexivity;
    [change NINODE with 50%nat; lia|].
  exists s1, s2. split; [exact E1|]. split; [exact E2|]. exact E3.
Defined.

Definition text : list Z := str "abc".

Lemma writei_spec_witness :
  (∃ s' v' n', writei no_dev 0 text 4 3 200%nat fsm = Ret 3 s' ∧ written sb0 img the_file v' n' 4 text) ∧
  writei no_dev 0 text 6 3 200%nat fsm = Ret (-1) fsm.
Proof.
  split.
  - pose proof (writei_spec 0 0 200 ltac:(vm_compute; lia) 0 no_dev fsm img the_file 4 text fsm_ready) as H.
    rewrite fsm_sb, fsm_budget in H.
    specialize (H ltac:(lia) ltac:(vm_compute; reflexivity) (img_free 2 ltac:(lia)) ltac:(vm_compute; discriminate)).
    change ((i_size the_file <? 4) || (BSIZE * MAXFILE <? 4 + Z.of_nat (length text))) with false in H.
    destruct H as (s'&v'&n'&E&_&_&_&W). exists s', v', n'. split; [exact E|exact W].
  - pose proof (writei_spec 0 0 200 ltac:(vm_compute; lia) 0 no_dev fsm img the_file 6 text fsm_ready) as H.
    rewrite fsm_sb, fsm_budget in H.
    exact (H ltac:(lia) ltac:(vm_compute; reflexivity) (img_free 2 ltac:(lia)) ltac:(vm_compute; discriminate)).
Defined.


Lemma writei_readi_witness :
  ∃ s1 s2, writei no_dev 0 text 5 3 200%nat fsm = Ret 3 s1 ∧ readi no_dev 0 5 3 200%nat s1 = Ret (3, text) s2.
Proof.
  pose proof (writei_readi 0 0 200 ltac:(vm_compute; lia) 0 no_dev fsm img the_file 5 text fsm_ready) as H.
  rewrite fsm_sb, fsm_budget in H.
  specialize (H ltac:(simpl; lia) ltac:(vm_compute; discriminate) (img_free 2 ltac:(lia))
    ltac:(vm_compute; discriminate)).
  destruct H as (s1&E1&s2&E2). exists s1, s2. split; [exact E1|exact E2].
Defined.

(** The root directory. *)
Definition root : inode := cached 1 1 root_inode.

Lemma root_ready : dir_ready 0 0 200 2 fsm img root 3.
Proof.
  split; [|reflexivity|reflexivity|done]. destruct (one_block 36) as [Hok Hm]; [lia|vm_compute; reflexivity|].
  split; rewrite ?fsm_sb.
  - apply fsm_tx.
  - reflexivity.
  - apply fsm_geometry.
  - split; simpl; try done.
  - by repeat split.
  - done.
  - apply img_meta.
  - unfold bitmap_fuel. rewrite fsm_sb. done.
  - done.
Qed.

Lemma dirlookup_spec_witness :
  ∃ s', tx s' 0 0 img ∅ ∧
    dirlookup no_dev 2 (str "f") 200%nat fsm = (ip ← iget 1 2; mret (Some (ip, 32))) 200%nat s'.
Proof.
  destruct (dirlookup_spec 0 0 200 ltac:(vm_compute; lia) no_dev 2 fsm img root 3 (str "f") root_ready) as (s'&T&_&E).
  change (find_entry (str "f") (entries img (i_addrs root) 3) 0) with (Some (2, 2)) in E.
  exists s'. split; [exact T|exact E].
Defined.

Lemma dirlink_spec_witness :
  ∃ s' v' n' cnt', dirlink no_dev 2 (str "new") 5 200%nat fsm = Ret 0 s' ∧
    dir_get (str "new") (entries v' (i_addrs n') cnt') = Some 5 ∧
    dir_get (str "f") (entries v' (i_addrs n') cnt') = Some 2.
Proof.
  pose proof (dirlink_spec 0 0 200 ltac:(vm_compute; lia) no_dev 2 fsm img root 3 (str "new") 5 root_ready) as H.
  cbv zeta in H. rewrite fsm_sb, fsm_budget in H.
  specialize (H (bool_decide_unpack (Forall (λ c, 0 ≤ c < 2 ^ 8) (str "new")) I) ltac:(lia) (img_free 2 ltac:(lia))
    ltac:(lia) ltac:(vm_compute; discriminate)).
  change (find_entry (str "new") (entries img (i_addrs root) 3) 0) with (@None (Z * Z)) in H.
  destruct H as (s'&v'&n'&cnt'&E&_&_&_&_&Hd&_). exists s', v', n', cnt'. split; [exact E|]. split.
  - rewrite Hd by (apply (bool_decide_unpack (Forall (λ c, 0 ≤ c < 2 ^ 8) (str "new"))); exact I). reflexivity.
  - rewrite Hd by (apply (bool_decide_unpack (Forall (λ c, 0 ≤ c < 2 ^ 8) (str "f"))); exact I). vm_compute. reflexivity.
Defined.

(** A cache with one entry in use. *)
Definition icache1 : list inode := root :: replicate 49 inhabitant.

Lemma icache1_ok : icache_ok icache1.
Proof.
  assert (Hl : ∀ ip n, icache1 !! ip = Some n → ip = 0%nat ∧ n = root ∨ i_ref n = 0).
  { intros [|ip] n; simpl; [intros [= <-]; by left|]. intros Hn. right.
    change (replicate 49 inhabitant !! ip = Some n) in Hn. apply lookup_replicate_1 in Hn as [-> _]. reflexivity. }
  split; [reflexivity|..].
  - intros ip n [[_ ->]| ->]%Hl; [|done]. vm_compute. discriminate.
  - intros ip jp n m dev inum [[-> ->]|Hn]%Hl [[-> ->]|Hm]%Hl Hcn Hcm; try done;
      destruct Hcn as (Hr&_), Hcm as (Hr'&_); lia.
Qed.

