(* ===== verification/Ucall.v ===== *)
(** User programs as the kernel sees them: trees of system calls.

    A program makes a system call of include/xv6/user.h, goes on with its
    result, and ends by returning or by [exit]. [run] executes one against an
    environment that answers the calls; [files] is the environment of a filter
    program: its input comes in pieces of any size, what it writes is kept. *)

From stdpp Require Import base list strings.
From Stdlib Require Import ZArith Lia.
From S2P Require Import Prelude.

(** * Programs *)

(** The system calls, their pointer arguments as the bytes there. The answer
    to a call is its result and the bytes it stores in the caller's memory.
    [UReadAt] and [ULinkAt] pass a pointer that need not be one; the last four
    are the instructions the kernel has a say in: a load and a store at an
    address the program has computed, and the access to a port. *)
Inductive ucall :=
| UFork | UWait | UPipe
| URead (fd n : Z) | UWrite (fd : Z) (bs : list Z) | UClose (fd : Z)
| UKill (pid : Z) | UExec (path : list Z) (argv : list (list Z))
| UOpen (path : list Z) (flags : Z) | UMknod (path : list Z) (major minor : Z)
| UUnlink (path : list Z) | UFstat (fd : Z) | ULink (oldpath newpath : list Z)
| UMkdir (path : list Z) | UChdir (path : list Z) | UDup (fd : Z)
| UGetpid | USbrk (n : Z) | USleep (n : Z) | UUptime
| UReadAt (fd p n : Z) | ULinkAt (oldpath : list Z) (p : Z)
| ULoad (p : Z) (n : nat) | UStore (p : Z) (bs : list Z) | UInb (port : Z) | UOutb (port v : Z).

(** [Stuck] is a loop cut short by the fuel it was given, or undefined
    behaviour of C. *)
Inductive prog (A : Type) : Type :=
| Done (a : A)
| Call (c : ucall) (k : Z → list Z → prog A)
| Exit
| Stuck.
Arguments Done {A} a.
Arguments Call {A} c k.
Arguments Exit {A}.
Arguments Stuck {A}.

Fixpoint pbind {A B} (f : A → prog B) (p : prog A) : prog B :=
  match p with
  | Done a => f a
  | Call c k => Call c (λ r bs, pbind f (k r bs))
  | Exit => Exit
  | Stuck => Stuck
  end.
#[global] Instance prog_ret : MRet prog := λ A a, Done a.
#[global] Instance prog_bind : MBind prog := λ A B f p, pbind f p.

(** A call whose result alone matters, and one that stores bytes. *)
Definition sys (c : ucall) : prog Z := Call c (λ r _, Done r).
Definition sys_bytes (c : ucall) : prog (Z * list Z) := Call c (λ r bs, Done (r, bs)).
(** [exit] does not return. *)
Definition exit_ {A} : prog A := Exit.

Definition whenP (b : bool) (p : prog unit) : prog unit := if b then p else mret tt.
Fixpoint eachP {A} (f : A → prog unit) (l : list A) : prog unit :=
  match l with
  | [] => mret tt
  | x :: l => f x;; eachP f l
  end.

(** * Running them *)

Inductive result (A : Type) := Returned (a : A) | Exited | Unfinished.
Arguments Returned {A} a.
Arguments Exited {A}.
Arguments Unfinished {A}.

Section run.
Context {S : Type} (answer : ucall → S → Z * list Z * S).

Fixpoint run {A} (p : prog A) (s : S) : result A * S :=
  match p with
  | Done a => (Returned a, s)
  | Call c k => let '(r, bs, s) := answer c s in run (k r bs) s
  | Exit => (Exited, s)
  | Stuck => (Unfinished, s)
  end.

Lemma prog_run_bind {A B} (p : prog A) (f : A → prog B) s :
  run (p ≫= f) s =
    match run p s with
    | (Returned a, s) => run (f a) s
    | (Exited, s) => (Exited, s)
    | (Unfinished, s) => (Unfinished, s)
    end.
Proof.
  revert s. induction p as [a|c k IH| |]; intros s; try done.
  simpl. destruct (answer c s) as [[r bs] s']. apply IH.
Qed.

Lemma run_eachP {A} (f : A → prog unit) (g : A → S → S) l s :
  (∀ x s, x ∈ l → run (f x) s = (Returned tt, g x s)) → run (eachP f l) s = (Returned tt, foldl (λ s x, g x s) s l).
Proof.
  revert s. induction l as [|x l IH]; intros s H; [done|]. cbn [eachP foldl]. rewrite prog_run_bind, H by (by left).
  apply IH. intros y s' Hy. apply H. by right.
Qed.
End run.

(** * Filters *)

(** What a filter will read, in the pieces it arrives in (a line typed, a write
    into a pipe, a file), and the writes it has made, with their descriptors. *)
Record files := mkFiles {
  f_in : list (list Z);
  f_out : list (Z * list Z)
}.

(** A read takes at most [n] bytes of the first piece, and what it leaves of it
    is the first piece of the next read. *)
Definition take_piece (n : nat) (ps : list (list Z)) : list Z * list (list Z) :=
  match ps with
  | [] => ([], [])
  | p :: ps => (take n p, if decide (length p ≤ n)%nat then ps else drop n p :: ps)
  end.

Definition serve (c : ucall) (s : files) : Z * list Z * files :=
  match c with
  | URead _ n =>
      let '(bs, ps) := take_piece (Z.to_nat n) (f_in s) in
      (Z.of_nat (length bs), bs, mkFiles ps (f_out s))
  | UWrite fd bs => (Z.of_nat (length bs), [], mkFiles (f_in s) (f_out s ++ [(fd, bs)]))
  | _ => (0, [], s)
  end.

(** The bytes written to [fd]. *)
Definition written_to (fd : Z) (out : list (Z * list Z)) : list Z :=
  concat ((λ w, if w.1 =? fd then w.2 else []) <$> out).

Section filters.
Implicit Types (s : files).

Lemma written_app fd o1 o2 : written_to fd (o1 ++ o2) = written_to fd o1 ++ written_to fd o2.
Proof. unfold written_to. by rewrite fmap_app, concat_app. Qed.

(** A read delivers the next bytes: none only at the end, all there is room
    for or all of the piece. *)
Lemma take_piece_spec n ps :
  (0 < n)%nat → Forall (λ p, p ≠ []) ps →
  let '(bs, ps') := take_piece n ps in
  concat ps = bs ++ concat ps' ∧ (length bs ≤ n)%nat ∧ (bs = [] ↔ ps = []) ∧ Forall (λ p, p ≠ []) ps'.
Proof.
  intros Hn H. destruct H as [|p ps Hp H]; [simpl; split_and!; [done|lia|done|done]|]. unfold take_piece. rewrite length_take.
  assert (take n p ≠ []) by (destruct p; [done|]; destruct n; [lia|done]).
  case_decide; cbn [concat].
  - rewrite take_ge by lia. split_and!; [done|lia|naive_solver|done].
  - rewrite app_assoc, take_drop. split_and!; [done|lia|naive_solver|]. constructor; [|done].
    intros E. apply (f_equal length) in E. rewrite length_drop in E. simpl in E. lia.
Qed.

Lemma run_read fd n s :
  run serve (sys_bytes (URead fd n)) s =
    (Returned (Z.of_nat (length (take_piece (Z.to_nat n) (f_in s)).1), (take_piece (Z.to_nat n) (f_in s)).1),
     mkFiles (take_piece (Z.to_nat n) (f_in s)).2 (f_out s)).
Proof. unfold sys_bytes, serve. cbn [run]. by destruct (take_piece (Z.to_nat n) (f_in s)). Qed.

(** A character a write: what [printf] and [printint] do. *)
Lemma run_each_write fd l s :
  run serve (eachP (λ c, sys (UWrite fd [c]);; mret tt) l) s = (Returned tt, mkFiles (f_in s) (f_out s ++ ((λ c, (fd, [c])) <$> l))).
Proof.
  revert s. induction l as [|c l IH]; intros s; cbn [eachP fmap list_fmap].
  - rewrite app_nil_r. by destruct s.
  - simpl. rewrite IH. cbn [f_in f_out]. by rewrite <-app_assoc.
Qed.

Lemma written_each fd l : written_to fd ((λ c, (fd, [c])) <$> l) = l.
Proof.
  unfold written_to. induction l as [|c l IH]; [done|]. cbn [fmap list_fmap concat fst snd].
  rewrite Z.eqb_refl. cbn [app]. by f_equal.
Qed.
End filters.
