(* ===== verification/Ulib.v ===== *)
(** The C library of the user programs, user/ulib/ulib.c and
    user/ulib/printf.c.

    Strings are the lists of their characters, the end of the list their NUL;
    [memmove] works on memory, where the ranges may overlap. *)

From stdpp Require Import base list strings.
From Stdlib Require Import ZArith Lia.
From S2P Require Import Prelude CString Bytes Ucall.

(** * Strings *)

Definition strlen (s : list Z) : Z := Z.of_nat (length s).

(** The bytes stored from the start of the buffer. *)
Definition strcpy (buf t : list Z) : list Z := list_inserts 0 (t ++ [0]) buf.

Fixpoint strcmp (p q : list Z) : Z :=
  match p, q with
  | a :: p', b :: q' => if a =? b then strcmp p' q' else u8 a - u8 b
  | a :: _, [] => u8 a
  | [], b :: _ => - u8 b
  | [], [] => 0
  end.

(** The tail of [s] at the first [c]. *)
Fixpoint strchr (s : list Z) (c : Z) : option (list Z) :=
  match s with
  | [] => None
  | x :: s' => if x =? c then Some s else strchr s' c
  end.

Definition memset (m : mem) (dst c n : Z) : mem := stosb m dst c (Z.to_nat n).

(** The loop copies upwards, whatever the overlap. *)
Definition memmove (m : mem) (vdst vsrc n : Z) : mem := copy_up m vdst vsrc (Z.to_nat n).

(** [n] is an int. *)
Fixpoint atoi_loop (s : list Z) (n : Z) : Z :=
  match s with
  | c :: s => if (48 <=? c) && (c <=? 57) then atoi_loop s (s32 (n * 10 + c - 48)) else n
  | [] => n
  end.
Definition atoi (s : list Z) : Z := atoi_loop s 0.

(** [gets]: the line that lands in the buffer. *)
Fixpoint gets_loop (room : nat) (acc : list Z) : prog (list Z) :=
  match room with
  | O => mret acc
  | S room =>
      '(cc, bs) ← sys_bytes (URead 0 1);
      if cc <? 1 then mret acc else
      let c := default 0 (head bs) in
      let acc := acc ++ [c] in
      if (c =? 10) || (c =? 13) then mret acc else gets_loop room acc
  end.
Definition gets (max : Z) : prog (list Z) := gets_loop (Z.to_nat (max - 1)) [].

Definition O_RDONLY : Z := 0.
Definition O_WRONLY : Z := 1.
Definition O_RDWR : Z := 2.
Definition O_CREATE : Z := 0x200.

Definition stat (n : list Z) : prog (Z * list Z) :=
  fd ← sys (UOpen n O_RDONLY);
  if fd <? 0 then mret (-1, []) else
  '(r, st) ← sys_bytes (UFstat fd);
  sys (UClose fd);;
  mret (r, st).

(** * printf *)

Definition putc (fd c : Z) : prog unit := sys (UWrite fd [c]);; mret tt.

Definition digit (d : Z) : Z := if d <? 10 then 48 + d else 55 + d.

(** [do buf[i++] = digits[x % base]; while ((x /= base) != 0)]: the digits from
    the lowest; 32 rounds are enough for every base from 2 on. *)
Fixpoint printint_loop (fuel : nat) (x base : Z) : list Z :=
  match fuel with
  | O => []
  | S fuel => digit (x mod base) :: (if x / base =? 0 then [] else printint_loop fuel (x / base) base)
  end.

Definition printint_text (xx base : Z) (sgn : bool) : list Z :=
  let neg := sgn && (xx <? 0) in
  let x := if neg then u32 (- xx) else u32 xx in
  let buf := printint_loop 32 x base in
  reverse (if neg then buf ++ [45] else buf).

Definition printint (fd xx base : Z) (sgn : bool) : prog unit := eachP (putc fd) (printint_text xx base sgn).

(** A variadic argument. *)
Inductive uarg := UInt (x : Z) | UStr (s : option (list Z)).

(** A missing or wrong argument is undefined behaviour, here [None]. *)
Fixpoint printf_text (fmt : list Z) (args : list uarg) : option (list Z) :=
  match fmt with
  | [] => Some []
  | c :: fmt =>
      if negb (c =? 37) then cons c <$> printf_text fmt args else
      match fmt with
      | [] => Some []
      | c :: fmt =>
          if c =? 100 then
            match args with
            | UInt x :: args => app (printint_text x 10 true) <$> printf_text fmt args
            | _ => None
            end
          else if (c =? 120) || (c =? 112) then
            match args with
            | UInt x :: args => app (printint_text x 16 false) <$> printf_text fmt args
            | _ => None
            end
          else if c =? 115 then
            match args with
            | UStr s :: args => app (default (str "(null)") s) <$> printf_text fmt args
            | _ => None
            end
          else if c =? 99 then
            match args with
            | UInt x :: args => cons (u8 x) <$> printf_text fmt args
            | _ => None
            end
          else if c =? 37 then cons 37 <$> printf_text fmt args
          else app [37; c] <$> printf_text fmt args
      end
  end.

(** Every character is a write of its own. *)
Definition printf (fd : Z) (fmt : list Z) (args : list uarg) : prog unit :=
  match printf_text fmt args with
  | Some text => eachP (putc fd) text
  | None => Stuck
  end.

Section printing.

(** What [printf] puts on the descriptor is its text. *)
Lemma printf_run fd fmt args text s :
  printf_text fmt args = Some text →
  run serve (printf fd fmt args) s = (Returned tt, mkFiles (f_in s) (f_out s ++ ((λ c, (fd, [c])) <$> text))).
Proof. intros H. unfold printf. rewrite H. apply run_each_write. Qed.

Lemma printint_S fuel x base :
  printint_loop (S fuel) x base =
    digit (x mod base) :: (if x / base =? 0 then [] else printint_loop fuel (x / base) base).
Proof. done. Qed.

(** [atoi_loop] on one more digit at the end. *)
Lemma atoi_loop_app s t n :
  Forall (λ c, 48 ≤ c ≤ 57) s → atoi_loop (s ++ t) n = atoi_loop t (atoi_loop s n).
Proof.
  intros H. revert n. induction H as [|c s Hc H IH]; intros n; [done|]. cbn [atoi_loop app].
  rewrite !(proj2 (Z.leb_le _ _)) by lia. apply IH.
Qed.

Lemma digit_dec d : 0 ≤ d < 10 → digit d = 48 + d.
Proof. intros H. unfold digit. by rewrite (proj2 (Z.ltb_lt _ _)) by lia. Qed.

Lemma printint_digits fuel x : 0 ≤ x → Forall (λ c, 48 ≤ c ≤ 57) (printint_loop fuel x 10).
Proof.
  revert x. induction fuel as [|fuel IH]; intros x Hx; [done|]. rewrite printint_S.
  pose proof (Z.mod_pos_bound x 10). constructor; [rewrite digit_dec; lia|].
  destruct (x / 10 =? 0); [done|]. apply IH. apply Z.div_pos; lia.
Qed.

Lemma atoi_printint fuel x :
  0 ≤ x < 10 ^ Z.of_nat fuel → x < 2 ^ 31 → atoi_loop (reverse (printint_loop fuel x 10)) 0 = x.
Proof.
  revert x. induction fuel as [|fuel IH]; intros x Hx Hm; [simpl; lia|]. rewrite printint_S.
  pose proof (Z.mod_pos_bound x 10). pose proof (Z_div_mod_eq_full x 10).
  assert (Hd : 0 ≤ x / 10 < 10 ^ Z.of_nat fuel).
  { rewrite Nat2Z.inj_succ, Z.pow_succ_r in Hx by lia. split; [apply Z.div_pos; lia|apply Z.div_lt_upper_bound; lia]. }
  rewrite reverse_cons, digit_dec by lia. rewrite atoi_loop_app.
  - assert (E : atoi_loop (reverse (if x / 10 =? 0 then [] else printint_loop fuel (x / 10) 10)) 0 = x / 10).
    { destruct (Z.eqb_spec (x / 10) 0) as [->|]; [done|]. apply IH; [done|lia]. }
    rewrite E. cbn [atoi_loop]. rewrite !(proj2 (Z.leb_le _ _)) by lia. cbn [andb].
    unfold s32, swrap. rewrite Z.mod_small; lia.
  - apply Forall_reverse. destruct (x / 10 =? 0); [done|]. apply printint_digits. lia.
Qed.

Lemma printint_length fuel x k :
  0 ≤ x < 10 ^ Z.of_nat (S k) → (length (printint_loop fuel x 10) ≤ S k)%nat.
Proof.
  revert x k. induction fuel as [|fuel IH]; intros x k Hx; [simpl; lia|]. rewrite printint_S. cbn [length].
  destruct (Z.eqb_spec (x / 10) 0) as [|Hd]; [simpl; lia|]. destruct k as [|k].
  { rewrite Z.div_small in Hd by lia. done. }
  apply le_n_S, IH. rewrite Nat2Z.inj_succ, Z.pow_succ_r in Hx by lia.
  split; [apply Z.div_pos; lia|apply Z.div_lt_upper_bound; lia].
Qed.

(** the decimal a user program prints for a non-negative int is the number
    [atoi] reads back, and with its sign every int fits the 16 bytes of
    [printint]'s buffer. *)
Theorem printint_atoi x :
  - 2 ^ 31 ≤ x < 2 ^ 31 →
  (0 ≤ x → atoi (printint_text x 10 true) = x) ∧
  (length (printint_text x 10 true) ≤ 11)%nat.
Proof.
  intros Hx. unfold atoi, printint_text. destruct (Z.ltb_spec x 0) as [Hn|Hn]; cbn [andb].
  - split; [lia|]. rewrite length_reverse, length_app. cbn [length].
    pose proof (printint_length 32 (u32 (- x)) 9) as H. unfold u32 in *. rewrite Z.mod_small in * by lia. lia.
  - unfold u32. rewrite Z.mod_small by lia. split; [intros _; apply atoi_printint; lia|].
    rewrite length_reverse. pose proof (printint_length 32 x 9). lia.
Qed.

Lemma printint_atoi_witness : atoi (printint_text 2147483647 10 true) = 2147483647.
Proof. apply (printint_atoi 2147483647); lia. Defined.
End printing.
