(* ===== verification/System.v ===== *)
(** The whole system: the kernel with programs in user mode.

    A process in user mode is a [prog], and so is the first one, which
    kernel/bin/initcode.S is. A call goes through [trap] with its arguments in
    the registers and in the memory of the process, as the stubs of
    user/ulib/usys.S leave them; a process that gives up the CPU is the
    continuation of its [Swtch]. There is one CPU. Interrupts come when no
    process can run, and to a process that loops. *)

From stdpp Require Import base list gmap strings.
From Stdlib Require Import ZArith Lia.
From S2P Require Import Prelude Seg CString Bytes Sprintf Monad Kstate Spinlock Sched Cons Bio Log Fs Kalloc Vm Pipe File Proc Console Syscall Sysfile Umode Exec Trap Ucall Ulib.

(** * System calls from user mode *)

(** Where a program has what it passes by address: two strings, a vector of
    strings and a buffer. *)
Definition at_path : Z := 0x100.
Definition at_path2 : Z := 0x300.
Definition at_argv : Z := 0x500.
Definition at_args : Z := 0x700.
Definition at_buf : Z := 0x1000.

(** The vector and the strings of [exec]. *)
Fixpoint lay_args (argv : list (list Z)) (a : Z) : list Z * list Z :=
  match argv with
  | [] => ([], [])
  | s :: argv =>
      let '(ptrs, bytes) := lay_args argv (a + Z.of_nat (length s) + 1) in
      (a :: ptrs, s ++ [0] ++ bytes)
  end.

(** The number of a call, its arguments, and what is in memory for it. *)
Definition stub (c : ucall) : Z * list Z * list (Z * list Z) :=
  let path s := (at_path, s ++ [0]) in
  match c with
  | UFork => (1, [], [])
  | UWait => (3, [], [])
  | UPipe => (4, [at_buf], [])
  | URead fd n => (5, [fd; at_buf; n], [])
  | UKill pid => (6, [pid], [])
  | UExec s argv =>
      let '(ptrs, bytes) := lay_args argv at_args in
      (7, [at_path; at_argv], [path s; (at_argv, concat (le_bytes 8 <$> ptrs) ++ le_bytes 8 0); (at_args, bytes)])
  | UFstat fd => (8, [fd; at_buf], [])
  | UChdir s => (9, [at_path], [path s])
  | UDup fd => (10, [fd], [])
  | UGetpid => (11, [], [])
  | USbrk n => (12, [n], [])
  | USleep n => (13, [n], [])
  | UUptime => (14, [], [])
  | UOpen s flags => (15, [at_path; flags], [path s])
  | UWrite fd bs => (16, [fd; at_buf; Z.of_nat (length bs)], [(at_buf, bs)])
  | UMknod s major minor => (17, [at_path; major; minor], [path s])
  | UUnlink s => (18, [at_path], [path s])
  | ULink s s' => (19, [at_path; at_path2], [path s; (at_path2, s' ++ [0])])
  | UMkdir s => (20, [at_path], [path s])
  | UClose fd => (21, [fd], [])
  | UReadAt fd p n => (5, [fd; p; n], [])
  | ULinkAt s p => (19, [at_path; p], [path s])
  | ULoad _ _ | UStore _ _ | UInb _ | UOutb _ _ => (0, [], [])
  end.

(** * Instructions in user mode *)

(** No device answers a port: it reads as 255. *)
Definition instruction (c : ucall) (s : kstate) : option executed :=
  match c with
  | ULoad a n => Some (user_load s a n)
  | UStore a bs => Some (user_store s a bs)
  | UInb port => Some (port_access s port 255)
  | UOutb port _ => Some (port_access s port 0)
  | _ => None
  end.

(** * Entering the kernel *)

Definition tf_call (num : Z) (args : list Z) (t : trapframe) : trapframe :=
  let a i := u64 (args !!! i) in
  mkTf (tf_gs t) (tf_fs t) (tf_es t) (tf_ds t) (tf_r9 t) (tf_r8 t) (tf_rcx t) (a 2%nat) (a 1%nat)
    (a 0%nat) num (tf_r15 t) (tf_r14 t) (tf_r13 t) (tf_r12 t) (tf_rbp t) (tf_rbx t) T_SYSCALL
    (tf_err t) (tf_rip t) (tf_cs t) (tf_rflags t) (tf_rsp t) (tf_ss t).

Fixpoint store_all (ws : list (Z * list Z)) : K unit :=
  match ws with
  | [] => mret tt
  | (a, bs) :: ws => user_wr_bytes a bs;; store_all ws
  end.

(** [int $64] with the registers set. *)
Definition enter (num : Z) (args : list Z) (ws : list (Z * list Z)) : K unit :=
  store_all ws;;
  p ← curproc;
  pr ← get_proc p;
  trap 0 [] (tf_call num args (p_tf pr)).

(** The result, an int or a size, and the bytes the call stored. *)
Definition leave (c : ucall) : K (Z * list Z) :=
  p ← curproc;
  pr ← get_proc p;
  let rax := tf_rax (p_tf pr) in
  let r := match c with USbrk _ => s64 rax | _ => s32 rax end in
  bs ← match c with
       | URead _ _ => user_rd_bytes at_buf (Z.to_nat r)
       | UFstat _ => if r =? 0 then user_rd_bytes at_buf 20 else mret []
       | UPipe => if r =? 0 then user_rd_bytes at_buf 8 else mret []
       | _ => mret []
       end;
  mret (r, bs).

(** The arguments [main] finds. *)
Fixpoint main_args (n : nat) (a : Z) : K (list (list Z)) :=
  match n with
  | O => mret []
  | S n =>
      p ← user_rd_bytes a 8;
      s ← fetchstr (le_val p);
      l ← main_args n (a + 8);
      mret (default [] s :: l)
  end.

Definition args_of : K (list (list Z)) :=
  p ← curproc;
  pr ← get_proc p;
  main_args (Z.to_nat (tf_rdi (p_tf pr))) (tf_rsi (p_tf pr)).

(** An interrupt or an exception, of user mode or of the kernel. Its gate is an
    interrupt gate: interrupts are off until [iretq] brings the flags back. *)
Definition tf_irq (n err cs : Z) : trapframe := mkTf 0 0 0 0 0 0 0 0 0 0 0 0 0 0 0 0 0 n err 0 cs 0 0 0.
Definition user_cs : Z := Z.lor (Z.shiftl SEG_UCODE 3) DPL_USER.
Definition kernel_cs : Z := Z.shiftl SEG_KCODE 3.

Definition interrupt (addr n err cs : Z) : K unit :=
  on ← intr_on;
  cli;;
  trap addr [] (tf_irq n err cs);;
  set_if on.

(** kernel/bin/initcode.S. *)
Definition initcode : prog unit :=
  sys (UExec (str "/init") [str "/init"]);;
  exit_.

(** * Threads *)

(** A process that has not run yet, one that gave up the CPU in a system call
    and one that was preempted. *)
Inductive thread :=
| New (u : prog unit)
| Blocked (c : ucall) (k : Z → list Z → prog unit) (o : kstate → out kstate unit)
| Preempted (u : prog unit) (o : kstate → out kstate unit).

(** The programs by the file they are in, the lines still to be typed, the
    threads that do not run, and the static flag of [forkret]. *)
Record system := mkSystem {
  y_programs : list Z → list (list Z) → prog unit;
  y_typed : list (list Z);
  y_threads : gmap nat thread;
  y_first : bool
}.

Definition set_thread (p : nat) (t : thread) (y : system) : system :=
  mkSystem (y_programs y) (y_typed y) (<[p := t]> (y_threads y)) (y_first y).
Definition set_typed (l : list (list Z)) (y : system) : system := mkSystem (y_programs y) l (y_threads y) (y_first y).
Definition set_first (b : bool) (y : system) : system := mkSystem (y_programs y) (y_typed y) (y_threads y) b.

(** What the CPU is at: the scheduler, with what its code has come to; a
    process in user mode, in a system call or in an interrupt, where [kn]
    continues the scheduler; nothing more. *)
Inductive mode :=
| AtSched (o : out kstate unit)
| AtUser (kn : kstate → out kstate unit) (u : prog unit) (s : kstate)
| AtCall (kn : kstate → out kstate unit) (c : ucall) (k : Z → list Z → prog unit) (o : out kstate unit)
| AtIrq (kn : kstate → out kstate unit) (u : prog unit) (o : out kstate unit)
| Halted (s : kstate)
| Died (msg : string) (s : kstate).

Section step.
Context (fuel : nat).

(** The process the CPU runs, and the one with a pid. *)
Definition running (s : kstate) : nat := default 0%nat (c_proc (x_cpus (k_ctx s) !!! 0%nat)).
Definition pid_slot (pid : Z) (s : kstate) : option nat :=
  fst <$> list_find (λ q, p_pid q = pid ∧ p_state q ≠ UNUSED) (pt_proc (k_pt s)).

Definition in_state (st : procstate) (s : kstate) : bool := existsb (λ q, bool_decide (p_state q = st)) (pt_proc (k_pt s)).
Definition sleeper (s : kstate) : bool :=
  existsb (λ q, bool_decide (p_state q = SLEEPING ∧ p_chan q = Some ChTicks)) (pt_proc (k_pt s)).

(** A round of the scheduler has ended. With no process to run, the CPU is idle
    until a line is typed or, for those that sleep, time has passed. *)
Definition next_round (s : kstate) (y : system) : mode * system :=
  if in_state RUNNABLE s then (AtSched (scheduler_round 0 fuel s), y) else
  match y_typed y with
  | l :: ls => (AtSched (interrupt 0 (T_IRQ0 + IRQ_COM1) 0 kernel_cs fuel (set_cons (cons_set_rx l (k_cons s)) s)), set_typed ls y)
  | [] =>
      if sleeper s then (AtSched (interrupt 0 (T_IRQ0 + IRQ_TIMER) 0 kernel_cs fuel s), y)
      else (Halted s, y)
  end.

(** The scheduler has switched to the process of the CPU. *)
Definition dispatch (s : kstate) (kn : kstate → out kstate unit) (y : system) : mode * system :=
  match y_threads y !! running s with
  | Some (New u) =>
      match forkret (y_first y) fuel s with
      | Ret first s => (AtUser kn u s, set_first first y)
      | Panic msg s => (Died msg s, y)
      | _ => (Died "forkret" s, y)
      end
  | Some (Blocked c k o) => (AtCall kn c k (o s), y)
  | Some (Preempted u o) => (AtIrq kn u (o s), y)
  | None => (Died "no thread" s, y)
  end.

(** Back in user mode after a call: a child has the same program, a new image
    another one. *)
Definition call_done (kn : kstate → out kstate unit) (c : ucall) (k : Z → list Z → prog unit) (s : kstate) (y : system) : mode * system :=
  match leave c fuel s with
  | Ret (r, bs) s =>
      match c with
      | UFork =>
          match pid_slot r s with
          | Some np => (AtUser kn (k r bs) s, set_thread np (New (k 0 [])) y)
          | None => (AtUser kn (k r bs) s, y)
          end
      | UExec path _ =>
          if r =? 0 then
            match args_of fuel s with
            | Ret argv s => (AtUser kn (y_programs y path argv) s, y)
            | _ => (Died "argv" s, y)
            end
          else (AtUser kn (k r bs) s, y)
      | _ => (AtUser kn (k r bs) s, y)
      end
  | Panic msg s => (Died msg s, y)
  | _ => (Died "leave" s, y)
  end.

Definition step (m : mode) (y : system) : mode * system :=
  match m with
  | AtSched (Ret _ s) => next_round s y
  | AtSched (Swtch s kn) => dispatch s kn y
  | AtUser kn u s =>
      match u with
      | Done _ => (Died "main returned" s, y)
      | Stuck => (AtIrq kn u (interrupt 0 (T_IRQ0 + IRQ_TIMER) 0 user_cs fuel s), y)
      | Exit => (AtCall kn UGetpid (λ _ _, Stuck) (enter 2 [] [] fuel s), y)
      | Call c k =>
          match instruction c s with
          | Some (Result r bs s) => (AtUser kn (k r bs) s, y)
          | Some (Fault n err addr) => (AtIrq kn u (interrupt addr n err user_cs fuel s), y)
          | None => let '(num, args, ws) := stub c in (AtCall kn c k (enter num args ws fuel s), y)
          end
      end
  | AtCall kn c k (Ret _ s) => call_done kn c k s y
  | AtCall kn c k (Swtch s o) => (AtSched (kn s), set_thread (running s) (Blocked c k o) y)
  | AtIrq kn u (Ret _ s) => (AtUser kn u s, y)
  | AtIrq kn u (Swtch s o) => (AtSched (kn s), set_thread (running s) (Preempted u o) y)
  | AtSched (Panic msg s) | AtCall _ _ _ (Panic msg s) | AtIrq _ _ (Panic msg s) => (Died msg s, y)
  | AtSched (Spin s) | AtCall _ _ _ (Spin s) | AtIrq _ _ (Spin s) => (Died "deadlock" s, y)
  | AtSched (NoFuel s) | AtCall _ _ _ (NoFuel s) | AtIrq _ _ (NoFuel s) => (Died "no fuel" s, y)
  | Halted s => (Halted s, y)
  | Died msg s => (Died msg s, y)
  end.

Fixpoint steps (n : nat) (m : mode) (y : system) : mode * system :=
  match n with
  | O => (m, y)
  | S n =>
      match m with
      | Halted s => (Halted s, y)
      | Died msg s => (Died msg s, y)
      | _ => let '(m, y) := step m y in steps n m y
      end
  end.
End step.
