(* ===== verification/Grep.v ===== *)
(** grep, user/grep.c: the regular expression matcher and the line loop.

    The matcher is shown equal to a declarative meaning of the patterns, the
    line loop to print the matching lines of its input. *)

From stdpp Require Import base list sets strings.
From Stdlib Require Import ZArith Lia.
From S2P Require Import Prelude CString Bytes Ucall Ulib.

(** * The matcher *)

(** [matchstar] at a [text], with [matchhere] of the rest of the pattern. *)
Fixpoint matchstar (c : Z) (matchhere_re : list Z → bool) (text : list Z) : bool :=
  matchhere_re text ||
  match text with
  | [] => false
  | x :: text => ((x =? c) || (c =? 46)) && matchstar c matchhere_re text
  end.

Fixpoint matchhere (re text : list Z) : bool :=
  match re with
  | [] => true
  | c :: re1 =>
      match re1 with
      | s :: re2 =>
          if s =? 42 then matchstar c (matchhere re2) text else
          match text with
          | x :: text => ((c =? 46) || (c =? x)) && matchhere re1 text
          | [] => false
          end
      | [] =>
          if c =? 36 then match text with [] => true | _ => false end else
          match text with
          | x :: text => ((c =? 46) || (c =? x)) && matchhere re1 text
          | [] => false
          end
      end
  end.

Fixpoint match_anywhere (re text : list Z) : bool :=
  matchhere re text ||
  match text with
  | [] => false
  | _ :: text => match_anywhere re text
  end.

Definition match_ (re text : list Z) : bool :=
  match re with
  | c :: re' => if c =? 94 then matchhere re' text else match_anywhere re text
  | [] => match_anywhere re text
  end.

(** * Lines *)

(** The buffer holds [sizeof(buf) - 1] bytes and a NUL. *)
Definition BUFSZ : Z := 1024.

(** The part of the buffer before the first NUL. *)
Definition c_string (l : list Z) : list Z := cstr l (length l).

(** The inner loop: the lines of the buffer from [p] on; the result is what
    follows the last newline. *)
Fixpoint grep_lines (fuel : nat) (pattern p : list Z) : prog (list Z) :=
  match fuel with
  | O => Stuck
  | S fuel =>
      match strchr (c_string p) 10 with
      | None => mret p
      | Some q =>
          let len := (length (c_string p) - length q)%nat in
          whenP (match_ pattern (take len p)) (sys (UWrite 1 (take (len + 1) p));; mret tt);;
          grep_lines fuel pattern (drop (len + 1) p)
      end
  end.

(** [buf] is the buffer's first [m] bytes. *)
Fixpoint grep (fuel : nat) (pattern : list Z) (fd : Z) (buf : list Z) : prog unit :=
  match fuel with
  | O => Stuck
  | S fuel' =>
      '(n, bs) ← sys_bytes (URead fd (BUFSZ - Z.of_nat (length buf) - 1));
      if n <=? 0 then mret tt else
      let buf := buf ++ bs in
      p ← grep_lines (S (length buf)) pattern buf;
      grep fuel' pattern fd (if (length p =? length buf)%nat then [] else p)
  end.

Fixpoint grep_files (fuel : nat) (pattern : list Z) (argv : list (list Z)) : prog unit :=
  match argv with
  | [] => exit_
  | name :: argv =>
      fd ← sys (UOpen name 0);
      if fd <? 0 then printf 1 (str "grep: cannot open %s" ++ [10]) [UStr (Some name)];; exit_ else
      grep fuel pattern fd [];;
      sys (UClose fd);;
      grep_files fuel pattern argv
  end.

(** [main], with the arguments after the program's name. *)
Definition grep_main (fuel : nat) (argv : list (list Z)) : prog unit :=
  match argv with
  | [] => printf 2 (str "usage: grep pattern [file ...]" ++ [10]) [];; exit_
  | [pattern] => grep fuel pattern 0 [];; exit_
  | pattern :: names => grep_files fuel pattern names
  end.

(** * What a pattern means *)

(** A pattern is a sequence of single characters and repeated ones, where [.]
    is any character, with an optional anchor at either end. *)
Inductive item := One (c : Z) | Star (c : Z).

(** The items of a pattern without [^], and whether it ends in the anchor
    [$]. *)
Fixpoint items (re : list Z) : list item * bool :=
  match re with
  | [] => ([], false)
  | c :: re1 =>
      match re1 with
      | [] => if c =? 36 then ([], true) else ([One c], false)
      | s :: re2 => if s =? 42 then (Star c :: (items re2).1, (items re2).2) else (One c :: (items re1).1, (items re1).2)
      end
  end.

Definition char_ok (c x : Z) : Prop := c = 46 ∨ c = x.
Definition word_of (i : item) (w : list Z) : Prop :=
  match i with
  | One c => ∃ x, w = [x] ∧ char_ok c x
  | Star c => Forall (char_ok c) w
  end.

(** A prefix of the text is made of words of the items, and is all of it when
    the pattern ends in the anchor. *)
Definition matches_prefix (re text : list Z) : Prop :=
  ∃ ws post, text = concat ws ++ post ∧ Forall2 word_of (items re).1 ws ∧ ((items re).2 = true → post = []).

Definition matches (re text : list Z) : Prop :=
  if decide (head re = Some 94) then matches_prefix (tail re) text
  else ∃ pre text', text = pre ++ text' ∧ matches_prefix re text'.

Section matcher.
Implicit Types (re text : list Z).

Lemma char_ok_spec c x : (c =? 46) || (c =? x) = true ↔ char_ok c x.
Proof. unfold char_ok. rewrite orb_true_iff, !Z.eqb_eq. done. Qed.

Lemma matchstar_spec c f text :
  matchstar c f text = true ↔ ∃ w post, text = w ++ post ∧ Forall (char_ok c) w ∧ f post = true.
Proof.
  induction text as [|x text IH]; cbn [matchstar].
  - rewrite orb_false_r. split; [exists [], []; done|]. intros (w & post & E & _ & H).
    symmetry in E. by apply app_nil in E as [-> ->].
  - rewrite orb_true_iff, andb_true_iff, IH, orb_comm, (Z.eqb_sym x), char_ok_spec. split.
    + intros [H|(Hx & w & post & -> & Hw & H)]; [by exists [], (x :: text)|exists (x :: w), post]. split_and!; [done|by constructor|done].
    + intros ([|y w] & post & E & Hw & H); simplify_eq/=; [by left|right]. inversion Hw; subst. eauto 6.
Qed.

Lemma matches_star c re text :
  matches_prefix (c :: 42 :: re) text ↔ ∃ w text', text = w ++ text' ∧ Forall (char_ok c) w ∧ matches_prefix re text'.
Proof.
  unfold matches_prefix. cbn [items fst snd]. rewrite Z.eqb_refl. cbn [fst snd]. split.
  - intros (ws & post & -> & H & Hend). apply Forall2_cons_inv_l in H as (w & ws' & Hw & H & ->).
    exists w, (concat ws' ++ post). cbn [concat]. rewrite <-app_assoc. eauto 8.
  - intros (w & text' & -> & Hw & ws & post & -> & H & Hend). exists (w :: ws), post. cbn [concat].
    rewrite <-app_assoc. split_and!; [done|by constructor|done].
Qed.

Lemma matches_one c re text :
  head re ≠ Some 42 → (c ≠ 36 ∨ re ≠ []) →
  matches_prefix (c :: re) text ↔ ∃ x text', text = x :: text' ∧ char_ok c x ∧ matches_prefix re text'.
Proof.
  intros Hs Hd. assert (E : items (c :: re) = (One c :: (items re).1, (items re).2)).
  { cbn [items]. destruct re as [|s re]; [destruct (Z.eqb_spec c 36); naive_solver|].
    destruct (Z.eqb_spec s 42); [naive_solver|done]. }
  unfold matches_prefix. rewrite E. cbn [fst snd]. split.
  - intros (ws & post & -> & H & Hend). apply Forall2_cons_inv_l in H as (w & ws' & (x & -> & Hx) & H & ->).
    exists x, (concat ws' ++ post). split_and!; [done|done|]. by exists ws', post.
  - intros (x & text' & -> & Hx & ws & post & -> & H & Hend). exists ([x] :: ws), post.
    split_and!; [done|constructor; [by exists x|done]|done].
Qed.

Lemma matches_end text : matches_prefix [36] text ↔ text = [].
Proof.
  unfold matches_prefix. cbn. split.
  - intros (ws & post & -> & H & Hend). apply Forall2_nil_inv_l in H as ->. by rewrite Hend.
  - intros ->. exists [], []. split_and!; constructor.
Qed.

(** One step of [matchhere] at a pattern that is not a repetition. *)
Lemma one_step c re text :
  (∀ text, matchhere re text = true ↔ matches_prefix re text) → head re ≠ Some 42 → (c ≠ 36 ∨ re ≠ []) →
  match text with x :: text => ((c =? 46) || (c =? x)) && matchhere re text | [] => false end = true ↔
  matches_prefix (c :: re) text.
Proof.
  intros IH Hs Hd. rewrite matches_one by done. destruct text as [|x text]; [naive_solver|].
  rewrite andb_true_iff, char_ok_spec, IH. naive_solver.
Qed.

Lemma matchhere_spec re text : matchhere re text = true ↔ matches_prefix re text.
Proof.
  remember (length re) as n eqn:Hn. revert re Hn text.
  induction n as [n IH] using (well_founded_induction lt_wf). intros [|c re1] -> text.
  { split; [intros _; exists [], text; repeat split; [constructor|done]|done]. }
  cbn [length] in IH. destruct re1 as [|s re2].
  - cbn [matchhere]. destruct (Z.eqb_spec c 36) as [->|].
    + rewrite matches_end. by destruct text.
    + apply (one_step c []); [|done|by left]. intros t. apply (IH 0%nat); [simpl; lia|done].
  - change (matchhere (c :: s :: re2) text) with
      (if s =? 42 then matchstar c (matchhere re2) text else
       match text with x :: text => ((c =? 46) || (c =? x)) && matchhere (s :: re2) text | [] => false end).
    destruct (Z.eqb_spec s 42) as [->|].
    + rewrite matchstar_spec, matches_star. cbn [length] in IH. setoid_rewrite (IH (length re2)); [done|lia|done].
    + apply one_step; [|naive_solver|by right]. intros t. apply (IH (length (s :: re2))); [simpl; lia|done].
Qed.

Lemma match_anywhere_spec re text :
  match_anywhere re text = true ↔ ∃ pre text', text = pre ++ text' ∧ matches_prefix re text'.
Proof.
  induction text as [|x text IH]; cbn [match_anywhere]; rewrite orb_true_iff, matchhere_spec.
  - split; [intros [H|H]; [by exists [], []|done]|]. intros (pre & t & E & H). symmetry in E. apply app_nil in E as [-> ->]. by left.
  - rewrite IH. split.
    + intros [H|(pre & t & -> & H)]; [by exists [], (x :: text)|by exists (x :: pre), t].
    + intros ([|y pre] & t & E & H); simplify_eq/=; [by left|eauto].
Qed.

(** C28: grep's matcher accepts a text exactly when the pattern's meaning does:
    some part of it (its beginning, with [^]) is a concatenation of words of
    the pattern's items, reaching its end with [$]. *)
Theorem match_spec re text : match_ re text = true ↔ matches re text.
Proof.
  unfold match_, matches. destruct re as [|c re]; [apply match_anywhere_spec|]. cbn [head tail].
  destruct (Z.eqb_spec c 94) as [->|]; [rewrite decide_True by done; apply matchhere_spec|].
  rewrite decide_False by congruence. apply match_anywhere_spec.
Qed.
End matcher.

(** * What the line loop prints *)

(** The lines of [s], without their newlines, and what follows the last one. *)
Fixpoint split_lines (s : list Z) : list (list Z) * list Z :=
  match s with
  | [] => ([], [])
  | c :: s =>
      let '(ls, r) := split_lines s in
      if c =? 10 then ([] :: ls, r) else
      match ls with
      | [] => ([], c :: r)
      | l :: ls => ((c :: l) :: ls, r)
      end
  end.

(** The writes of the lines that match. *)
Definition hits (pattern : list Z) (ls : list (list Z)) : list (Z * list Z) :=
  (λ l, (1, l ++ [10])) <$> filter (λ l, match_ pattern l = true) ls.

Section lines.
Implicit Types (s l r : list Z).

Lemma split_none r : 10 ∉ r → split_lines r = ([], r).
Proof.
  induction r as [|c r IH]; intros H; [done|]. cbn [split_lines]. rewrite IH by set_solver.
  destruct (Z.eqb_spec c 10); [set_solver|done].
Qed.

Lemma split_line l s : 10 ∉ l → split_lines (l ++ 10 :: s) = (l :: (split_lines s).1, (split_lines s).2).
Proof.
  induction l as [|c l IH]; intros H; cbn [split_lines app].
  - by destruct (split_lines s).
  - rewrite IH by set_solver. destruct (Z.eqb_spec c 10); [set_solver|done].
Qed.

Lemma strchr_spec s c :
  match strchr s c with
  | None => c ∉ s
  | Some q => ∃ l q', s = l ++ c :: q' ∧ q = c :: q' ∧ c ∉ l
  end.
Proof.
  induction s as [|x s IH]; cbn [strchr]; [set_solver|]. destruct (Z.eqb_spec x c) as [->|].
  - exists [], s. set_solver.
  - destruct (strchr s c) as [q|]; [|set_solver]. destruct IH as (l & q' & -> & -> & H). exists (x :: l), q'. set_solver.
Qed.

(** Every text is free of newlines or has a first line. *)
Lemma line_cases s : 10 ∉ s ∨ ∃ l s', s = l ++ 10 :: s' ∧ 10 ∉ l.
Proof. pose proof (strchr_spec s 10) as H. destruct (strchr s 10); [right; naive_solver|by left]. Qed.

Lemma split_app s t :
  (split_lines (s ++ t)).1 = (split_lines s).1 ++ (split_lines ((split_lines s).2 ++ t)).1.
Proof.
  remember (length s) as n eqn:Hn. revert s Hn. induction n as [n IH] using (well_founded_induction lt_wf). intros s ->.
  destruct (line_cases s) as [H|(l & s' & -> & H)]; [by rewrite (split_none s)|].
  rewrite <-app_assoc, <-app_comm_cons, !split_line by done. cbn [fst snd app]. f_equal.
  apply (IH (length s')); [|done]. rewrite length_app. simpl. lia.
Qed.

Lemma split_rest s : 10 ∉ (split_lines s).2 ∧ (split_lines s).2 ⊆ s ∧ (10 ∈ s → (length (split_lines s).2 < length s)%nat).
Proof.
  remember (length s) as n eqn:Hn. revert s Hn. induction n as [n IH] using (well_founded_induction lt_wf). intros s ->.
  destruct (line_cases s) as [H|(l & s' & -> & H)]; [by rewrite (split_none s)|].
  rewrite split_line by done. cbn [snd]. destruct (IH (length s')) with s' as (H1 & H2 & H3); [rewrite length_app; simpl; lia|done|].
  split_and!; [done|set_solver|]. intros _. rewrite length_app. cbn [length].
  destruct (decide (10 ∈ s')) as [Hin|Hin]; [specialize (H3 Hin); lia|]. rewrite (split_none s') by done. simpl. lia.
Qed.

Lemma c_string_id s : 0 ∉ s → c_string s = s.
Proof.
  unfold c_string. induction s as [|c s IH]; intros H; [done|]. cbn [length cstr].
  destruct (Z.eqb_spec c 0) as [->|]; [set_solver|]. rewrite IH by set_solver. done.
Qed.

Lemma hits_cons pattern l ls :
  hits pattern (l :: ls) = (if match_ pattern l then [(1, l ++ [10])] else []) ++ hits pattern ls.
Proof.
  unfold hits. destruct (match_ pattern l) eqn:E; [by rewrite filter_cons_True|].
  by rewrite filter_cons_False by congruence.
Qed.

Lemma hits_app pattern ls1 ls2 : hits pattern (ls1 ++ ls2) = hits pattern ls1 ++ hits pattern ls2.
Proof. unfold hits. by rewrite filter_app, fmap_app. Qed.

Lemma grep_lines_run fuel pattern p ps out :
  0 ∉ p → (length p < fuel)%nat →
  run serve (grep_lines fuel pattern p) (mkFiles ps out) =
    (Returned (split_lines p).2, mkFiles ps (out ++ hits pattern (split_lines p).1)).
Proof.
  revert p out. induction fuel as [|fuel IH]; intros p out H0 Hf; [lia|]. cbn [grep_lines].
  rewrite c_string_id by done. pose proof (strchr_spec p 10) as Hq. destruct (strchr p 10) as [q|].
  - destruct Hq as (l & q' & -> & -> & Hl). rewrite split_line by done. cbn [fst snd].
    rewrite length_app. rewrite Nat.add_sub.
    rewrite take_app_length, take_app_add, drop_app_add. cbn [take drop]. rewrite take_0, drop_0.
    assert (E : run serve (whenP (match_ pattern l) (sys (UWrite 1 (l ++ [10]));; mret tt)) (mkFiles ps out) =
      (Returned tt, mkFiles ps (out ++ if match_ pattern l then [(1, l ++ [10])] else []))).
    { destruct (match_ pattern l); [done|]. by rewrite app_nil_r. }
    rewrite prog_run_bind, E, IH, hits_cons by (first [set_solver|rewrite length_app in Hf; simpl in Hf; lia]).
    by rewrite <-app_assoc.
  - rewrite split_none by done. by rewrite app_nil_r.
Qed.

(** A newline after [a] makes [a] the beginning of a line. *)
Lemma first_line a b : 10 ∉ a → 10 ∈ b → ∃ l ls, (split_lines (a ++ b)).1 = l :: ls ∧ (length a ≤ length l)%nat.
Proof.
  intros Ha Hb. destruct (line_cases b) as [H|(l & b' & -> & Hl)]; [done|]. rewrite app_assoc, split_line by set_solver.
  eexists _, _. split; [done|]. rewrite length_app. lia.
Qed.

Lemma last_in (p : list Z) : last p = Some 10 → 10 ∈ p.
Proof. intros H. apply last_Some in H as (l & ->). set_solver. Qed.

Lemma last_drop (p : list Z) n : (n < length p)%nat → last (drop n p) = last p.
Proof.
  intros H. rewrite <-(take_drop n p) at 2. rewrite last_app. destruct (last (drop n p)) eqn:E; [done|].
  apply last_None, (f_equal length) in E. rewrite length_drop in E. simpl in E. lia.
Qed.

(** A piece is read whole or fills the buffer, so the buffer has a newline. *)
Lemma buffer_newline carry p rest n :
  10 ∉ carry → last p = Some 10 → Forall (λ l, length l < 1023)%nat (split_lines (carry ++ p ++ rest)).1 →
  n = (1023 - length carry)%nat → 10 ∈ carry ++ take n p.
Proof.
  intros Hc Hp Hs ->. destruct (decide (length p ≤ 1023 - length carry)%nat) as [Hl|Hl].
  { rewrite take_ge by done. apply last_in in Hp. set_solver. }
  destruct (decide (10 ∈ carry ++ take (1023 - length carry) p)) as [|Hn]; [done|exfalso].
  rewrite <-(take_drop (1023 - length carry) p), <-app_assoc, app_assoc in Hs.
  destruct (first_line (carry ++ take (1023 - length carry) p) (drop (1023 - length carry) p ++ rest)) as (l & ls & E & Hll); [done| |].
  { apply last_in in Hp. rewrite <-(take_drop (1023 - length carry) p) in Hp. set_solver. }
  rewrite E in Hs. apply Forall_cons_1 in Hs as [Hs _]. rewrite length_app, length_take in Hll. lia.
Qed.

Lemma grep_run fuel pattern fd carry ps out :
  10 ∉ carry → 0 ∉ carry ++ concat ps → Forall (λ p, last p = Some 10) ps →
  Forall (λ l, length l < 1023)%nat (split_lines (carry ++ concat ps)).1 → (length (concat ps) < fuel)%nat →
  run serve (grep fuel pattern fd carry) (mkFiles ps out) =
    (Returned tt, mkFiles [] (out ++ hits pattern (split_lines (carry ++ concat ps)).1)).
Proof.
  revert carry ps out. induction fuel as [|fuel IH]; intros carry ps out Hc H0 Hp Hs Hf; [lia|].
  destruct Hp as [|p ps Hp Hps].
  { simpl. rewrite !app_nil_r, split_none by done. cbn [hits fmap filter]. by rewrite app_nil_r. }
  assert (Hroom : (length carry < 1023)%nat).
  { destruct (first_line carry (concat (p :: ps))) as (l & ls & E & Hl); [done|cbn; apply last_in in Hp; set_solver|].
    rewrite E in Hs. apply Forall_cons_1 in Hs as [Hs _]. lia. }
  set (n := (1023 - length carry)%nat). cbn [concat] in *.
  pose proof (buffer_newline carry p (concat ps) n Hc Hp Hs eq_refl) as Hnl.
  set (ps' := if decide (length p ≤ n)%nat then ps else drop n p :: ps).
  assert (Hcat : p ++ concat ps = take n p ++ concat ps').
  { unfold ps'. case_decide; [by rewrite take_ge by lia|]. cbn [concat]. by rewrite app_assoc, take_drop. }
  assert (Hps' : Forall (λ p, last p = Some 10) ps').
  { unfold ps'. case_decide; [done|]. constructor; [|done]. rewrite last_drop by lia. done. }
  rewrite Hcat, app_assoc in H0, Hs |- *. rewrite Hcat, length_app in Hf. set (buf := carry ++ take n p) in *.
  destruct (split_rest buf) as (Hr1 & Hr2 & Hr3). specialize (Hr3 Hnl). rewrite split_app, hits_app. rewrite split_app in Hs.
  apply Forall_app in Hs as [_ Hs].
  assert (Hlen : (0 < length (take n p))%nat) by (rewrite length_take; apply last_in in Hp; destruct p; [set_solver|unfold n; simpl; lia]).
  cbn [grep]. rewrite prog_run_bind, run_read. cbn [f_in f_out].
  replace (Z.to_nat (BUFSZ - Z.of_nat (length carry) - 1)) with n by (unfold n, BUFSZ; lia).
  cbn [take_piece fst snd]. fold ps'. rewrite (proj2 (Z.leb_gt _ _)) by lia. fold buf.
  rewrite prog_run_bind, grep_lines_run by (first [lia|clear -H0; set_solver]).
  rewrite (proj2 (Nat.eqb_neq _ _)) by lia. rewrite IH; [by rewrite app_assoc|done| |done|done|lia].
  clear -H0 Hr2. set_solver.
Qed.

(** C29: when its input comes in pieces that end in a newline (lines typed, or
    a text file) and no line is longer than the buffer, grep prints the lines
    that match, each once, in order and whole, and stops at the end of the
    input. *)
Theorem grep_spec fuel pattern fd ps out :
  0 ∉ concat ps → Forall (λ p, last p = Some 10) ps →
  Forall (λ l, length l < 1023)%nat (split_lines (concat ps)).1 → (length (concat ps) < fuel)%nat →
  run serve (grep fuel pattern fd []) (mkFiles ps out) =
    (Returned tt, mkFiles [] (out ++ hits pattern (split_lines (concat ps)).1)).
Proof. intros. apply (grep_run fuel pattern fd []); [set_solver|done..]. Qed.

Definition two_pieces : list (list Z) := [str "ab" ++ [10] ++ str "xb" ++ [10]; str "cab" ++ [10]].

Lemma grep_spec_witness :
  run serve (grep 20 (str "^a*b$") 0 []) (mkFiles two_pieces []) = (Returned tt, mkFiles [] [(1, str "ab" ++ [10])]).
Proof.
  rewrite (grep_spec 20 (str "^a*b$") 0 two_pieces []).
  - vm_compute. reflexivity.
  - vm_compute. set_solver.
  - repeat constructor.
  - vm_compute. repeat constructor.
  - vm_compute. lia.
Defined.

(** A piece without a newline is lost: the line [ab] delivered in two pieces is
    not found. *)
Lemma grep_loses_pieces :
  match_ (str "ab") (str "ab") = true ∧
  run serve (grep 20 (str "ab") 0 []) (mkFiles [str "a"; str "b" ++ [10]] []) = (Returned tt, mkFiles [] []).
Proof. split; vm_compute; reflexivity. Qed.
End lines.
