(* ===== verification/Uprog.v ===== *)
(** The small user programs: cat, wc, echo, kill, ln, mkdir, rm, ls, init,
    zombie, forktest and stressfs (user/*.c).

    A [main] is given its arguments after the program's name, except where it
    looks at [argc] otherwise. Of cat and wc it is shown that what they print
    depends on the input alone, not on the pieces it arrives in. *)

From stdpp Require Import base list sets strings.
From Stdlib Require Import ZArith Lia.
From S2P Require Import Prelude CString Bytes Ucall Ulib.

Definition nl : list Z := [10].

(** * cat *)

Fixpoint cat (fuel : nat) (fd : Z) : prog unit :=
  match fuel with
  | O => Stuck
  | S fuel =>
      '(n, buf) ← sys_bytes (URead fd 512);
      if 0 <? n then
        w ← sys (UWrite 1 buf);
        if negb (w =? n) then printf 1 (str "cat: write error" ++ nl) [];; exit_ else cat fuel fd
      else if n <? 0 then printf 1 (str "cat: read error" ++ nl) [];; exit_
      else mret tt
  end.

Definition cat_main (fuel : nat) (argv : list (list Z)) : prog unit :=
  match argv with
  | [] => cat fuel 0;; exit_
  | _ =>
      eachP (λ name,
        fd ← sys (UOpen name 0);
        if fd <? 0 then printf 1 (str "cat: cannot open %s" ++ nl) [UStr (Some name)];; exit_ else
        cat fuel fd;;
        sys (UClose fd);;
        mret tt) argv;;
      exit_
  end.

(** * wc *)

Record counts := mkCounts { wc_l : Z; wc_w : Z; wc_c : Z; wc_inword : bool }.

Definition whitespace : list Z := [32; 13; 9; 10; 11].

(** The body of the inner loop: one character. *)
Definition wc_char (t : counts) (ch : Z) : counts :=
  let c := s32 (wc_c t + 1) in
  let l := if ch =? 10 then s32 (wc_l t + 1) else wc_l t in
  match strchr whitespace ch with
  | Some _ => mkCounts l (wc_w t) c false
  | None => if wc_inword t then mkCounts l (wc_w t) c true else mkCounts l (s32 (wc_w t + 1)) c true
  end.

Fixpoint wc_loop (fuel : nat) (fd : Z) (t : counts) : prog (Z * counts) :=
  match fuel with
  | O => Stuck
  | S fuel =>
      '(n, buf) ← sys_bytes (URead fd 512);
      if 0 <? n then wc_loop fuel fd (foldl wc_char t (take (Z.to_nat n) buf)) else mret (n, t)
  end.

Definition wc (fuel : nat) (fd : Z) (name : list Z) : prog unit :=
  '(n, t) ← wc_loop fuel fd (mkCounts 0 0 0 false);
  if n <? 0 then printf 1 (str "wc: read error" ++ nl) [];; exit_ else
  printf 1 (str "%d %d %d %s" ++ nl) [UInt (wc_l t); UInt (wc_w t); UInt (wc_c t); UStr (Some name)].

Definition wc_main (fuel : nat) (argv : list (list Z)) : prog unit :=
  match argv with
  | [] => wc fuel 0 [];; exit_
  | _ =>
      eachP (λ name,
        fd ← sys (UOpen name 0);
        if fd <? 0 then printf 1 (str "wc: cannot open %s" ++ nl) [UStr (Some name)];; exit_ else
        wc fuel fd name;;
        sys (UClose fd);;
        mret tt) argv;;
      exit_
  end.

(** * echo, kill, ln, mkdir, rm *)

Fixpoint echo_loop (argv : list (list Z)) : prog unit :=
  match argv with
  | [] => mret tt
  | a :: argv =>
      printf 1 (str "%s%s") [UStr (Some a); UStr (Some (match argv with [] => nl | _ => [32] end))];;
      echo_loop argv
  end.
Definition echo_main (argv : list (list Z)) : prog unit := echo_loop argv;; exit_.

Definition kill_main (argv : list (list Z)) : prog unit :=
  match argv with
  | [] => printf 2 (str "usage: kill pid..." ++ nl) [];; exit_
  | _ => eachP (λ a, sys (UKill (atoi a));; mret tt) argv;; exit_
  end.

Definition ln_main (argv : list (list Z)) : prog unit :=
  match argv with
  | [old; new] =>
      r ← sys (ULink old new);
      whenP (r <? 0) (printf 2 (str "link %s %s: failed" ++ nl) [UStr (Some old); UStr (Some new)]);;
      exit_
  | _ => printf 2 (str "Usage: ln old new" ++ nl) [];; exit_
  end.

(** The loop of mkdir and rm: up to the first failure. *)
Fixpoint until_failure (call : list Z → ucall) (msg : list Z) (argv : list (list Z)) : prog unit :=
  match argv with
  | [] => mret tt
  | a :: argv =>
      r ← sys (call a);
      if r <? 0 then printf 2 msg [UStr (Some a)] else until_failure call msg argv
  end.

Definition mkdir_main (argv : list (list Z)) : prog unit :=
  match argv with
  | [] => printf 2 (str "Usage: mkdir files..." ++ nl) [];; exit_
  | _ => until_failure UMkdir (str "mkdir: %s failed to create" ++ nl) argv;; exit_
  end.

Definition rm_main (argv : list (list Z)) : prog unit :=
  match argv with
  | [] => printf 2 (str "Usage: rm files..." ++ nl) [];; exit_
  | _ => until_failure UUnlink (str "rm: %s failed to delete" ++ nl) argv;; exit_
  end.

(** * ls *)

Definition DIRSIZ : nat := 14.

(** What follows the last slash. *)
Fixpoint after_slash (path : list Z) : list Z :=
  match path with
  | [] => []
  | c :: path' => if (c =? 47) || bool_decide (47 ∈ path') then after_slash path' else path
  end.

(** Blank padded; a name of [DIRSIZ] characters or more is returned as is. *)
Definition fmtname (path : list Z) : list Z :=
  let p := after_slash path in
  if decide (DIRSIZ ≤ length p)%nat then p else p ++ replicate (DIRSIZ - length p) 32.

Definition T_DIR : Z := 1.
Definition T_FILE : Z := 2.

(** struct stat as it lies in memory. *)
Definition st_type (st : list Z) : Z := s16 (get16 st 0).
Definition st_ino (st : list Z) : Z := get32 st 8.
Definition st_size (st : list Z) : Z := get32 st 16.

Definition ls_line (path st : list Z) : prog unit :=
  printf 1 (str "%s %d %d %d" ++ nl) [UStr (Some (fmtname path)); UInt (s32 (st_type st)); UInt (s32 (st_ino st)); UInt (s32 (st_size st))].

(** The loop over the entries; [base] is the path with its slash. *)
Fixpoint ls_entries (fuel : nat) (fd : Z) (base : list Z) : prog unit :=
  match fuel with
  | O => Stuck
  | S fuel =>
      '(n, de) ← sys_bytes (URead fd 16);
      if negb (n =? 16) then mret tt else
      if get16 de 0 =? 0 then ls_entries fuel fd base else
      let buf := base ++ cstr (slice 2 DIRSIZ de) DIRSIZ in
      '(r, st) ← stat buf;
      (if r <? 0 then printf 1 (str "ls: cannot stat %s" ++ nl) [UStr (Some buf)] else ls_line buf st);;
      ls_entries fuel fd base
  end.

Definition ls (fuel : nat) (path : list Z) : prog unit :=
  fd ← sys (UOpen path 0);
  if fd <? 0 then printf 2 (str "ls: cannot open %s" ++ nl) [UStr (Some path)] else
  '(r, st) ← sys_bytes (UFstat fd);
  if r <? 0 then
    printf 2 (str "ls: cannot stat %s" ++ nl) [UStr (Some path)];;
    sys (UClose fd);;
    mret tt
  else
  (if st_type st =? T_FILE then ls_line path st
   else if st_type st =? T_DIR then
     if decide (512 < length path + 1 + DIRSIZ + 1)%nat then printf 1 (str "ls: path too long" ++ nl) []
     else ls_entries fuel fd (path ++ [47])
   else mret tt);;
  sys (UClose fd);;
  mret tt.

Definition ls_main (fuel : nat) (argv : list (list Z)) : prog unit :=
  match argv with
  | [] => ls fuel (str ".");; exit_
  | _ => eachP (ls fuel) argv;; exit_
  end.

(** * init and zombie *)

(** [while ((wpid = wait()) >= 0 && wpid != pid)]. *)
Fixpoint init_wait (fuel : nat) (pid : Z) : prog unit :=
  match fuel with
  | O => Stuck
  | S fuel =>
      wpid ← sys UWait;
      if (0 <=? wpid) && negb (wpid =? pid) then printf 1 (str "zombie!" ++ nl) [];; init_wait fuel pid else mret tt
  end.

(** The for loop of init, which ends only when fork fails or in the child. *)
Fixpoint init_loop (fuel : nat) : prog unit :=
  match fuel with
  | O => Stuck
  | S fuel =>
      printf 1 (str "init: starting sh" ++ nl) [];;
      pid ← sys UFork;
      if pid <? 0 then printf 1 (str "init: fork failed" ++ nl) [];; exit_ else
      if pid =? 0 then
        sys (UExec (str "sh") [str "sh"]);;
        printf 1 (str "init: exec sh failed" ++ nl) [];;
        exit_
      else init_wait fuel pid;; init_loop fuel
  end.

Definition init_main (fuel : nat) : prog unit :=
  fd ← sys (UOpen (str "console") O_RDWR);
  whenP (fd <? 0) (sys (UMknod (str "console") 1 1);; sys (UOpen (str "console") O_RDWR);; mret tt);;
  sys (UDup 0);;
  sys (UDup 0);;
  init_loop fuel.

Definition zombie_main : prog unit :=
  pid ← sys UFork;
  whenP (0 <? pid) (sys (USleep 5);; mret tt);;
  exit_.

(** * forktest and stressfs *)

(** forktest has a [printf] of its own, one write without conversions. *)
Definition forktest_printf (fd : Z) (s : list Z) : prog unit := sys (UWrite fd s);; mret tt.

(** Forks up to [k] times; the result is the number of forks that worked. *)
Fixpoint forktest_forks (k : nat) (n : Z) : prog Z :=
  match k with
  | O => mret n
  | S k =>
      pid ← sys UFork;
      if pid <? 0 then mret n else
      if pid =? 0 then exit_ else forktest_forks k (n + 1)
  end.

Fixpoint forktest_waits (n : nat) : prog unit :=
  match n with
  | O => mret tt
  | S n =>
      r ← sys UWait;
      if r <? 0 then forktest_printf 1 (str "wait stopped early" ++ nl);; exit_ else forktest_waits n
  end.

Definition forktest_N : Z := 1000.

Definition forktest : prog unit :=
  forktest_printf 1 (str "fork test" ++ nl);;
  n ← forktest_forks (Z.to_nat forktest_N) 0;
  if n =? forktest_N then forktest_printf 1 (str "fork claimed to work N times!" ++ nl);; exit_ else
  forktest_waits (Z.to_nat n);;
  r ← sys UWait;
  if negb (r =? -1) then forktest_printf 1 (str "wait got too many" ++ nl);; exit_ else
  forktest_printf 1 (str "fork test OK" ++ nl).

Definition forktest_main : prog unit := forktest;; exit_.

(** [for (i = 0; i < 4; i++) if (fork() > 0) break;]: the value of [i]. *)
Fixpoint stressfs_forks (k : nat) (i : Z) : prog Z :=
  match k with
  | O => mret i
  | S k => pid ← sys UFork; if 0 <? pid then mret i else stressfs_forks k (i + 1)
  end.

Definition stressfs_main : prog unit :=
  printf 1 (str "stressfs starting" ++ nl) [];;
  i ← stressfs_forks 4 0;
  printf 1 (str "write %d" ++ nl) [UInt i];;
  let path := str "stressfs" ++ [48 + i] in
  fd ← sys (UOpen path (Z.lor O_CREATE O_RDWR));
  eachP (λ _, sys (UWrite fd (replicate 512 97));; mret tt) (seq 0 20);;
  sys (UClose fd);;
  printf 1 (str "read" ++ nl) [];;
  fd ← sys (UOpen path O_RDONLY);
  eachP (λ _, sys_bytes (URead fd 512);; mret tt) (seq 0 20);;
  sys (UClose fd);;
  sys UWait;;
  exit_.

(** * cat and wc on input in pieces *)

(** The fields of a text between its white space. *)
Fixpoint fields (s : list Z) : list (list Z) :=
  match s with
  | [] => [[]]
  | c :: s =>
      match strchr whitespace c, fields s with
      | Some _, fs => [] :: fs
      | None, f :: fs => (c :: f) :: fs
      | None, [] => [[c]]
      end
  end.

Definition count_words (fs : list (list Z)) : Z := Z.of_nat (length (filter (λ f, f ≠ []) fs)).
Definition lines (s : list Z) : Z := Z.of_nat (length (filter (λ c, c = 10) s)).
Definition words (s : list Z) : Z := count_words (fields s).

(** The words the loop still counts, inside a word or not. *)
Definition more_words (inword : bool) (s : list Z) : Z := count_words (if inword then tail (fields s) else fields s).

Definition wc_text (s name : list Z) : list Z :=
  printint_text (lines s) 10 true ++ [32] ++ printint_text (words s) 10 true ++ [32] ++
  printint_text (Z.of_nat (length s)) 10 true ++ [32] ++ name ++ nl.

Section pieces.
Implicit Types (ps : list (list Z)) (out : list (Z * list Z)).

(** The reads of a loop: a piece, or the end. *)
Lemma next_piece fd ps out :
  Forall (λ p, p ≠ []) ps →
  ∃ bs ps', run serve (sys_bytes (URead fd 512)) (mkFiles ps out) =
      (Returned (Z.of_nat (length bs), bs), mkFiles ps' out) ∧
    concat ps = bs ++ concat ps' ∧ Forall (λ p, p ≠ []) ps' ∧ (bs = [] → ps' = []).
Proof.
  intros H. pose proof (take_piece_spec 512 ps ltac:(lia) H) as Hp.
  rewrite run_read. cbn [f_in f_out]. change (Z.to_nat 512) with 512%nat. destruct (take_piece 512 ps) as [bs ps'] eqn:E.
  destruct Hp as (H1 & _ & H2 & H3). exists bs, ps'. split_and!; try done. intros Hb. apply H2 in Hb. subst ps. simplify_eq/=. done.
Qed.

(** cat copies its input to the standard output, byte for byte and to its
    end, whatever the sizes of the pieces its reads deliver. *)
Theorem cat_copies fuel fd ps out :
  Forall (λ p, p ≠ []) ps → (length (concat ps) < fuel)%nat →
  ∃ out', run serve (cat fuel fd) (mkFiles ps out) = (Returned tt, mkFiles [] (out ++ out')) ∧
    written_to 1 out' = concat ps.
Proof.
  revert ps out. induction fuel as [|fuel IH]; intros ps out Hps Hf; [lia|]. cbn [cat]. rewrite prog_run_bind.
  destruct (next_piece fd ps out Hps) as (bs & ps' & -> & Hcat & Hps' & Hend). destruct bs as [|c bs].
  - rewrite Hend by done. rewrite Hcat, Hend by done. exists []. rewrite app_nil_r. done.
  - rewrite (proj2 (Z.ltb_lt _ _)) by (simpl; lia). rewrite prog_run_bind. cbn [sys run serve f_in f_out].
    rewrite Z.eqb_refl. cbn [negb]. rewrite Hcat, length_app in Hf. cbn [length] in Hf.
    destruct (IH ps' (out ++ [(1, c :: bs)]) Hps' ltac:(lia)) as (out' & -> & Hw). exists ([(1, c :: bs)] ++ out').
    rewrite <-app_assoc. split; [done|]. rewrite written_app, Hw, Hcat. simpl. by rewrite app_nil_r.
Qed.

Lemma cat_copies_witness :
  ∃ out, run serve (cat 10 0) (mkFiles [str "ab"; str "c"] []) = (Returned tt, mkFiles [] ([] ++ out)) ∧ written_to 1 out = str "abc".
Proof. apply (cat_copies 10 0 [str "ab"; str "c"] []); [repeat constructor; done|vm_compute; lia]. Defined.

Lemma wc_loop_run fuel fd t ps out :
  Forall (λ p, p ≠ []) ps → (length (concat ps) < fuel)%nat →
  run serve (wc_loop fuel fd t) (mkFiles ps out) = (Returned (0, foldl wc_char t (concat ps)), mkFiles [] out).
Proof.
  revert t ps. induction fuel as [|fuel IH]; intros t ps Hps Hf; [lia|]. cbn [wc_loop]. rewrite prog_run_bind.
  destruct (next_piece fd ps out Hps) as (bs & ps' & -> & Hcat & Hps' & Hend). rewrite Hcat, length_app in Hf. rewrite Hcat.
  destruct bs as [|c bs]; [by rewrite Hend|]. rewrite (proj2 (Z.ltb_lt _ _)) by (simpl; lia). cbn [length] in Hf.
  rewrite Nat2Z.id, firstn_all, foldl_app. apply IH; [done|lia].
Qed.

Lemma s32_small x : - 2 ^ 31 ≤ x < 2 ^ 31 → s32 x = x.
Proof. intros. unfold s32, swrap. rewrite Z.mod_small; lia. Qed.

Lemma more_words_cons b c s :
  more_words b (c :: s) =
    match strchr whitespace c with
    | Some _ => more_words false s
    | None => (if b then 0 else 1) + more_words true s
    end.
Proof.
  unfold more_words, count_words. cbn [fields]. destruct (strchr whitespace c); [by destruct b|].
  destruct (fields s) as [|f fs]; destruct b; try done. cbn [tail]. rewrite filter_cons_True by done. simpl. lia.
Qed.

Lemma wc_fold s l w c b :
  0 ≤ l → 0 ≤ w → 0 ≤ c → l + lines s < 2 ^ 31 → w + more_words b s < 2 ^ 31 → c + Z.of_nat (length s) < 2 ^ 31 →
  ∃ b', foldl wc_char (mkCounts l w c b) s = mkCounts (l + lines s) (w + more_words b s) (c + Z.of_nat (length s)) b'.
Proof.
  revert l w c b. induction s as [|x s IH]; intros l w c b Hl Hw Hc.
  { intros _ _ _. exists b. cbn [foldl]. f_equal; [unfold lines; simpl; lia|assert (more_words b [] = 0) as -> by (by destruct b); lia|simpl; lia]. }
  assert (El : lines (x :: s) = (if x =? 10 then 1 else 0) + lines s).
  { unfold lines. destruct (Z.eqb_spec x 10); [rewrite filter_cons_True by done; simpl; lia|by rewrite filter_cons_False]. }
  rewrite more_words_cons, El. cbn [length foldl]. intros Bl Bw Bc. unfold wc_char at 2. cbn [wc_l wc_w wc_c wc_inword].
  assert (0 ≤ lines s ∧ ∀ b, 0 ≤ more_words b s) as [H1 H2] by (unfold lines, more_words, count_words; split; intros; lia).
  pose proof (H2 true). pose proof (H2 false). rewrite (s32_small (c + 1)) by lia.
  destruct (x =? 10); rewrite ?(s32_small (l + 1)) by lia; destruct (strchr whitespace x); destruct b;
    rewrite ?(s32_small (w + 1)) by lia; edestruct IH as (b' & ->); try lia; exists b'; f_equal; lia.
Qed.

Lemma words_bound b s : more_words b s ≤ Z.of_nat (length s) ∧ lines s ≤ Z.of_nat (length s).
Proof.
  split; [|unfold lines; pose proof (length_filter (λ c, c = 10) s); lia].
  revert b. induction s as [|c s IH]; intros b; [by destruct b; vm_compute|]. rewrite more_words_cons. cbn [length].
  pose proof (IH true). pose proof (IH false). destruct (strchr whitespace c), b; lia.
Qed.

(** wc prints the number of newlines, of words (the non-empty fields
    between white space) and of bytes of its input, whatever the sizes of the
    pieces its reads deliver. *)
Theorem wc_counts fuel fd name ps out :
  Forall (λ p, p ≠ []) ps → (length (concat ps) < fuel)%nat → Z.of_nat (length (concat ps)) < 2 ^ 31 →
  ∃ out', run serve (wc fuel fd name) (mkFiles ps out) = (Returned tt, mkFiles [] (out ++ out')) ∧
    written_to 1 out' = wc_text (concat ps) name.
Proof.
  intros Hps Hf Hb. unfold wc. rewrite prog_run_bind, wc_loop_run by done. destruct (words_bound false (concat ps)) as [Hw Hl].
  destruct (wc_fold (concat ps) 0 0 0 false) as (b' & ->); [lia..|]. cbn [wc_l wc_w wc_c].
  rewrite Z.ltb_irrefl, (printf_run _ _ _ (wc_text (concat ps) name)).
  - eexists. split; [done|]. apply written_each.
  - unfold wc_text, words, more_words. cbn -[printint_text]. done.
Qed.

Lemma wc_counts_witness :
  ∃ out, run serve (wc 20 0 (str "f")) (mkFiles [str "ab "; str "c" ++ nl] []) = (Returned tt, mkFiles [] ([] ++ out)) ∧
    written_to 1 out = str "1 2 5 f" ++ nl.
Proof. apply (wc_counts 20 0 (str "f") [str "ab "; str "c" ++ nl] []); [do 2 (apply Forall_cons_2; [done|]); apply Forall_nil_2|vm_compute; lia|vm_compute; reflexivity]. Defined.
End pieces.
