(* ===== verification/Umalloc.v ===== *)
(** The heap of the user programs, user/ulib/umalloc.c: the allocator of
    Kernighan and Ritchie.

    The heap is the map of the headers by address and the static [freep];
    [base] is the address of the static header, which is below the heap. Memory
    comes from [sbrk]. A wild access has no behaviour. The invariant is that the
    free list is a ring of blocks in address order, no two of them adjacent, and
    that the free blocks and the blocks handed out are disjoint and are all the
    memory obtained. *)

From stdpp Require Import base list gmap sorting strings.
From Stdlib Require Import ZArith Lia.
From S2P Require Import Prelude Ucall.

(** * The allocator *)

(** union header. *)
Record header := mkHeader { h_ptr : Z; h_size : Z }.
Definition sizeof_Header : Z := 16.

Record heap := mkHeap {
  freep : option Z;
  hdrs : gmap Z header
}.

Definition set_ptr (a v : Z) (hs : gmap Z header) : gmap Z header :=
  <[a := mkHeader v (default 0 (h_size <$> hs !! a))]> hs.
Definition set_size (a v : Z) (hs : gmap Z header) : gmap Z header :=
  <[a := mkHeader (default 0 (h_ptr <$> hs !! a)) v]> hs.

(** The for loop of [free]: the block after which [bp] goes. *)
Definition free_here (bp p next : Z) : bool :=
  ((p <? bp) && (bp <? next)) || ((next <=? p) && ((p <? bp) || (bp <? next))).

Fixpoint free_search (fuel : nat) (hs : gmap Z header) (bp p : Z) : option Z :=
  match fuel with
  | O => None
  | S fuel =>
      h ← hs !! p;
      if free_here bp p (h_ptr h) then Some p else free_search fuel hs bp (h_ptr h)
  end.

(** [free] joins the block to the upper neighbour, then to the lower one. *)
Definition join_upper (bp p : Z) (hs : gmap Z header) : option (gmap Z header) :=
  hp ← hs !! p;
  hb ← hs !! bp;
  if bp + sizeof_Header * h_size hb =? h_ptr hp then
    hn ← hs !! h_ptr hp;
    Some (set_ptr bp (h_ptr hn) (set_size bp (u32 (h_size hb + h_size hn)) hs))
  else Some (set_ptr bp (h_ptr hp) hs).

Definition join_lower (bp p : Z) (hs : gmap Z header) : option (gmap Z header) :=
  hp ← hs !! p;
  hb ← hs !! bp;
  if p + sizeof_Header * h_size hp =? bp then
    Some (set_ptr p (h_ptr hb) (set_size p (u32 (h_size hp + h_size hb)) hs))
  else Some (set_ptr p bp hs).

Definition free (fuel : nat) (h : heap) (ap : Z) : option heap :=
  let bp := ap - sizeof_Header in
  start ← freep h;
  p ← free_search fuel (hdrs h) bp start;
  hs ← join_upper bp p (hdrs h);
  hs ← join_lower bp p hs;
  Some (mkHeap (Some p) hs).

(** [sbrk] takes an int; its result -1 is the failure. *)
Definition morecore (fuel : nat) (h : heap) (nu : Z) : prog (option Z * heap) :=
  let nu := if nu <? 4096 then 4096 else nu in
  p ← sys (USbrk (s32 (nu * sizeof_Header)));
  if p =? -1 then mret (None, h) else
  match free fuel (mkHeap (freep h) (set_size p nu (hdrs h))) (p + sizeof_Header) with
  | Some h => mret (freep h, h)
  | None => Stuck
  end.

(** The block is found: unlink it, or cut its tail off. *)
Definition take_block (h : heap) (nunits prevp p : Z) (hp : header) : Z * heap :=
  if h_size hp =? nunits then (p + sizeof_Header, mkHeap (Some prevp) (set_ptr prevp (h_ptr hp) (hdrs h)))
  else
    let hs := set_size p (h_size hp - nunits) (hdrs h) in
    let p := p + sizeof_Header * (h_size hp - nunits) in
    (p + sizeof_Header, mkHeap (Some prevp) (set_size p nunits hs)).

Fixpoint malloc_loop (fuel : nat) (h : heap) (nunits prevp p : Z) : prog (Z * heap) :=
  match fuel with
  | O => Stuck
  | S fuel' =>
      match hdrs h !! p with
      | None => Stuck
      | Some hp =>
          if nunits <=? h_size hp then mret (take_block h nunits prevp p hp) else
          if bool_decide (freep h = Some p) then
            '(q, h) ← morecore fuel' h nunits;
            match q with
            | None => mret (0, h)
            | Some p =>
                match hdrs h !! p with
                | None => Stuck
                | Some hp => malloc_loop fuel' h nunits p (h_ptr hp)
                end
            end
          else malloc_loop fuel' h nunits p (h_ptr hp)
      end
  end.

Definition units (nbytes : Z) : Z := u32 (u64 (nbytes + sizeof_Header - 1) / sizeof_Header + 1).

(** The first call makes [base] the only element of the ring. *)
Definition malloc_init (base : Z) (h : heap) : heap :=
  match freep h with
  | Some _ => h
  | None => mkHeap (Some base) (<[base := mkHeader base 0]> (hdrs h))
  end.

Definition malloc (fuel : nat) (base : Z) (h : heap) (nbytes : Z) : prog (Z * heap) :=
  let h := malloc_init base h in
  match freep h with
  | None => Stuck
  | Some prevp =>
      match hdrs h !! prevp with
      | None => Stuck
      | Some hp => malloc_loop fuel h (units nbytes) prevp (h_ptr hp)
      end
  end.

(** * The ring of free blocks *)

(** A block is its address and its size in units. *)
Notation block := (Z * Z)%type.
Implicit Types (b : block) (l fl : list block) (hs : gmap Z header).

Definition covers b (x : Z) : Prop := b.1 ≤ x < b.1 + sizeof_Header * b.2.
Definition in_blocks l (x : Z) : Prop := ∃ b, b ∈ l ∧ covers b x.

(** [b] ends below [b'] and does not touch it. *)
Definition before b b' : Prop := b.1 + sizeof_Header * b.2 < b'.1.

Definition first l (e : Z) : Z := match l with [] => e | b :: _ => b.1 end.

(** The headers link the blocks of [l], the last one to [e]. *)
Fixpoint lseg hs l (e : Z) : Prop :=
  match l with
  | [] => True
  | b :: l => hs !! b.1 = Some (mkHeader (first l e) b.2) ∧ lseg hs l e
  end.

(** The free list: a ring from [base] in address order, no two blocks of which
    touch. *)
Record ring (base : Z) hs fl : Prop := {
  r_head : head fl = Some (base, 0);
  r_seg : lseg hs fl base;
  r_sorted : StronglySorted before fl;
  r_sizes : ∀ b, b ∈ fl → 0 ≤ b.2 ∧ (b.1 ≠ base → 0 < b.2) ∧ b.1 + sizeof_Header * b.2 ≤ 2 ^ 36;
  r_base : 0 ≤ base
}.

Section ring.

Lemma first_app l1 l2 e : first (l1 ++ l2) e = first l1 (first l2 e).
Proof. by destruct l1. Qed.

Lemma lseg_app hs l1 l2 e : lseg hs (l1 ++ l2) e ↔ lseg hs l1 (first l2 e) ∧ lseg hs l2 e.
Proof.
  induction l1 as [|b l1 IH]; cbn [lseg app]; [naive_solver|]. rewrite IH, first_app. naive_solver.
Qed.

(** A ring read from another of its blocks. *)
Lemma lseg_rotate hs l1 b l2 :
  lseg hs (l1 ++ b :: l2) (first (l1 ++ b :: l2) 0) → lseg hs (b :: l2 ++ l1) b.1.
Proof.
  rewrite lseg_app, (app_comm_cons l2 l1 b), lseg_app. cbn [first]. intros [H1 H2]. split; [|done].
  by destruct l1.
Qed.

Lemma lseg_insert hs l e a h : a ∉ l.*1 → lseg hs l e → lseg (<[a := h]> hs) l e.
Proof.
  induction l as [|b l IH]; [done|]. cbn [fmap list_fmap lseg]. intros Ha [H1 H2].
  apply not_elem_of_cons in Ha as [Hne Ha]. split; [by rewrite lookup_insert_ne|by apply IH].
Qed.

Lemma in_blocks_app l1 l2 x : in_blocks (l1 ++ l2) x ↔ in_blocks l1 x ∨ in_blocks l2 x.
Proof. unfold in_blocks. setoid_rewrite elem_of_app. naive_solver. Qed.

Lemma in_blocks_cons b l x : in_blocks (b :: l) x ↔ covers b x ∨ in_blocks l x.
Proof. unfold in_blocks. setoid_rewrite elem_of_cons. naive_solver. Qed.

Lemma ring_split base hs l1 b l2 :
  ring base hs (l1 ++ b :: l2) →
  (∀ c, c ∈ l1 → before c b) ∧ (∀ c, c ∈ l2 → before b c) ∧ StronglySorted before l1 ∧ StronglySorted before l2 ∧
  (∀ c d, c ∈ l1 → d ∈ l2 → before c d).
Proof.
  intros [_ _ H _ _]. apply StronglySorted_app in H as (H1 & H2 & H3). apply StronglySorted_inv in H3 as [H3 H4].
  rewrite Forall_forall in H4. split_and!; [|done|done|done|]; intros; apply H1; set_solver.
Qed.

Lemma ring_base base hs fl b : ring base hs fl → b ∈ fl → b.1 = base ∧ b.2 = 0 ∨ base < b.1.
Proof.
  intros [Hh _ Hs _ _] Hb. destruct fl as [|b0 l]; [done|]. simplify_eq/=. apply StronglySorted_inv in Hs as [_ Hs].
  rewrite Forall_forall in Hs. apply elem_of_cons in Hb as [->|Hb]; [by left|]. specialize (Hs b Hb). unfold before, sizeof_Header in Hs.
  simpl in Hs. right. lia.
Qed.

(** The link of a block of the ring. *)
Lemma ring_next base hs l1 b l2 : ring base hs (l1 ++ b :: l2) → hs !! b.1 = Some (mkHeader (first l2 base) b.2).
Proof. intros [_ H _ _ _]. by apply lseg_app in H as [_ [H _]]. Qed.

Lemma ring_nodup base hs l1 b l2 : ring base hs (l1 ++ b :: l2) → b.1 ∉ l1.*1 ∧ b.1 ∉ l2.*1.
Proof.
  intros R. destruct (ring_split _ _ _ _ _ R) as (H1 & H2 & _). destruct R as [_ _ _ Hs _]. unfold before, sizeof_Header in *.
  split; intros Hb; apply list_elem_of_fmap in Hb as (c & E & Hc).
  - specialize (H1 c Hc). destruct (Hs c); [set_solver|]. lia.
  - specialize (H2 c Hc). destruct (Hs b); [set_solver|]. lia.
Qed.

(** * Where a block goes *)

(** [p] is the last block below [bp]. *)
Definition pred_of (bp : Z) fl (p : Z) : Prop :=
  p ∈ fl.*1 ∧ p < bp ∧ bp ∉ fl.*1 ∧ ∀ a, a ∈ fl.*1 → a < bp → a ≤ p.

Lemma free_here_pred base hs bp p l1 b l2 :
  ring base hs (l1 ++ b :: l2) → pred_of bp (l1 ++ b :: l2) p → base < bp →
  free_here bp b.1 (first l2 base) = true ↔ b.1 = p.
Proof.
  intros R (Hp & Hlt & Hbp & Hmax) Hb. pose proof (ring_base _ _ _ b R ltac:(set_solver)) as Hbb.
  destruct (ring_split _ _ _ _ _ R) as (H1 & H2 & _ & _ & H12). pose proof (r_sizes _ _ _ R) as Hs.
  assert (Hbm : b.1 ∈ (l1 ++ b :: l2).*1) by (rewrite fmap_app; set_solver).
  assert (Hcase : p ≤ b.1 ∨ ∃ c l2', l2 = c :: l2' ∧ c.1 ≤ p).
  { apply list_elem_of_fmap in Hp as (c & -> & Hc). apply elem_of_app in Hc as [Hc|Hc].
    - specialize (H1 c Hc). destruct (Hs c ltac:(set_solver)). unfold before, sizeof_Header in H1. lia.
    - apply elem_of_cons in Hc as [->|Hc]; [lia|]. right. destruct l2 as [|c2 l2']; [set_solver|]. exists c2, l2'. split; [done|].
      apply elem_of_cons in Hc as [->|Hc]; [lia|]. destruct (ring_split base hs (l1 ++ [b]) c2 l2') as (_ & H3 & _); [by rewrite <-app_assoc|].
      specialize (H3 c Hc). destruct (Hs c2 ltac:(set_solver)). unfold before, sizeof_Header in H3. lia. }
  unfold free_here. rewrite orb_true_iff, !andb_true_iff, orb_true_iff, !Z.ltb_lt, Z.leb_le.
  specialize (Hmax b.1 Hbm) as Hmb. destruct l2 as [|c l2']; cbn [first].
  { destruct Hcase as [Hc|(? & ? & ? & _)]; [|done]. split; intros; lia. }
  assert (Hc : b.1 < c.1).
  { specialize (H2 c ltac:(set_solver)). destruct (Hs b ltac:(set_solver)). unfold before, sizeof_Header in H2. lia. }
  assert (Hcm : c.1 ∈ (l1 ++ b :: c :: l2').*1) by (rewrite fmap_app; set_solver).
  specialize (Hmax c.1 Hcm). assert (c.1 ≠ bp) by (intros <-; done).
  split; [|intros <-; left; split; lia]. destruct Hcase as [|(? & ? & E & Hle)]; [|simplify_eq]; intros; lia.
Qed.

(** The search walks the ring to it. *)
Lemma free_search_walk base hs bp p fl fuel l e :
  ring base hs fl → pred_of bp fl p → base < bp → lseg hs l e → l ⊆ fl → p ∈ l.*1 → (length l ≤ fuel)%nat →
  free_search fuel hs bp (first l e) = Some p.
Proof.
  intros R P Hb. revert fuel. induction l as [|b l IH]; intros fuel Hl Hsub Hp Hf; [set_solver|].
  destruct fuel as [|fuel]; [simpl in Hf; lia|]. destruct Hl as [Hl1 Hl2]. cbn [first free_search]. rewrite Hl1. cbn [mbind option_bind h_ptr].
  destruct (list_elem_of_split fl b) as (l1 & l2 & ->); [set_solver|].
  pose proof (ring_next _ _ _ _ _ R) as Hn. rewrite Hl1 in Hn. injection Hn as Hn. rewrite Hn.
  destruct (free_here bp b.1 (first l2 base)) eqn:E.
  - apply (free_here_pred _ _ _ p _ _ _ R P Hb) in E. by rewrite E.
  - rewrite <-Hn. apply IH; [done|set_solver| |simpl in Hf; lia]. cbn [fmap list_fmap] in Hp. apply elem_of_cons in Hp as [->|Hp]; [|done].
    exfalso. apply not_true_iff_false in E. apply E. by eapply free_here_pred.
Qed.

(** The place of a block disjoint from the free ones. *)
Lemma sorted_place bp fl :
  StronglySorted before fl → (∀ b, b ∈ fl → 0 ≤ b.2) → (∃ b, head fl = Some b ∧ b.1 < bp) →
  ∃ l1 p l2, fl = l1 ++ p :: l2 ∧ p.1 < bp ∧ ∀ c, c ∈ l2 → bp ≤ c.1.
Proof.
  induction fl as [|b l IH]; intros Hs Hz (b' & Hh & Hlt); simplify_eq/=. apply StronglySorted_inv in Hs as [Hs Hf].
  destruct l as [|c l]; [exists [], b', []; set_solver|]. destruct (decide (c.1 < bp)) as [Hc|Hc].
  - destruct IH as (l1 & p & l2 & -> & H1 & H2); [done|set_solver|by exists c|]. exists (b' :: l1), p, l2. done.
  - exists [], b', (c :: l). split_and!; [done|done|]. intros d Hd. apply elem_of_cons in Hd as [->|Hd]; [lia|].
    apply StronglySorted_inv in Hs as [_ Hs]. rewrite Forall_forall in Hs. specialize (Hs d Hd).
    specialize (Hz c ltac:(set_solver)). unfold before, sizeof_Header in Hs. lia.
Qed.

Lemma ring_place base hs fl bp n :
  ring base hs fl → base < bp → 0 < n → (∀ x, covers (bp, n) x → in_blocks fl x → False) →
  ∃ l1 p l2, fl = l1 ++ p :: l2 ∧ p.1 + sizeof_Header * p.2 ≤ bp ∧ p.1 < bp ∧
    (∀ c, c ∈ l2 → bp + sizeof_Header * n ≤ c.1) ∧ pred_of bp fl p.1.
Proof.
  intros R Hb Hn Hd. pose proof R as [Hh _ Hs Hz _].
  destruct (sorted_place bp fl) as (l1 & p & l2 & -> & Hp & Hl2); [done|intros b; apply Hz|by exists (base, 0)|].
  assert (Hno : ∀ b, b ∈ l1 ++ p :: l2 → ∀ x, covers b x → covers (bp, n) x → False).
  { intros b Hbl x H1 H2. apply (Hd x H2). by exists b. }
  unfold covers, sizeof_Header in *. cbn [fst snd] in *.
  assert (Hc : ∀ c, c ∈ l2 → bp + 16 * n ≤ c.1).
  { intros c Hc. specialize (Hno c ltac:(set_solver) c.1). specialize (Hl2 c Hc). destruct (Hz c ltac:(set_solver)) as (_ & Hcz & _). lia. }
  destruct (ring_split _ _ _ _ _ R) as (H1 & _). unfold before, sizeof_Header in H1.
  assert (Hl1 : ∀ c, c ∈ l1 → c.1 < p.1).
  { intros c Hcl. specialize (H1 c Hcl). destruct (Hz c ltac:(set_solver)). lia. }
  exists l1, p, l2. split_and!; [done| |done|done|].
  - specialize (Hno p ltac:(set_solver) bp). lia.
  - unfold pred_of. setoid_rewrite fmap_app. split_and!; [set_solver|done| |].
    + intros Hin. rewrite <-fmap_app in Hin. apply list_elem_of_fmap in Hin as (c & -> & Hin).
      apply elem_of_app in Hin as [Hin|Hin]; [specialize (Hl1 c Hin); lia|].
      apply elem_of_cons in Hin as [->|Hin]; [lia|]. specialize (Hc c Hin). lia.
    + intros a Hin Ha. rewrite <-fmap_app in Hin. apply list_elem_of_fmap in Hin as (c & -> & Hin).
      apply elem_of_app in Hin as [Hin|Hin]; [specialize (Hl1 c Hin); lia|].
      apply elem_of_cons in Hin as [->|Hin]; [lia|]. specialize (Hc c Hin). lia.
Qed.

(** * Joining *)

Lemma set_both hs a v s : set_ptr a v (set_size a s hs) = <[a := mkHeader v s]> hs.
Proof. unfold set_ptr, set_size. by rewrite lookup_insert_eq, insert_insert_eq. Qed.

Lemma set_ptr_insert hs a v h : hs !! a = Some h → set_ptr a v hs = <[a := mkHeader v (h_size h)]> hs.
Proof. intros H. unfold set_ptr. by rewrite H. Qed.

Lemma join_upper_run base hs l1 p l2 bp hb :
  ring base hs (l1 ++ p :: l2) → base < bp → hs !! bp = Some hb → 0 < h_size hb → bp + sizeof_Header * h_size hb ≤ 2 ^ 36 →
  (∀ c, c ∈ l2 → bp + sizeof_Header * h_size hb ≤ c.1) →
  ∃ n l2', join_upper bp p.1 hs = Some (<[bp := mkHeader (first l2' base) n]> hs) ∧ l2' ⊆ l2 ∧ lseg hs l2' base ∧
    StronglySorted before ((bp, n) :: l2') ∧ 0 < n ∧ bp + sizeof_Header * n ≤ 2 ^ 36 ∧ (length l2' ≤ length l2)%nat ∧
    ∀ x, in_blocks ((bp, n) :: l2') x ↔ covers (bp, h_size hb) x ∨ in_blocks l2 x.
Proof.
  intros R Hb Hbp Hn H36 Hl2. pose proof (r_base _ _ _ R). destruct (ring_split _ _ _ _ _ R) as (_ & _ & _ & Hs & _). unfold join_upper. rewrite (ring_next _ _ _ _ _ R), Hbp.
  pose proof (r_seg _ _ _ R) as Hseg. apply lseg_app in Hseg as (_ & _ & Hseg). pose proof (r_sizes _ _ _ R) as Hz.
  cbn [mbind option_bind h_ptr h_size]. destruct (Z.eqb_spec (bp + sizeof_Header * h_size hb) (first l2 base)) as [E|E].
  - destruct l2 as [|c l2]; cbn [first] in *; [unfold sizeof_Header in *; lia|]. destruct Hseg as [Hc Hseg]. rewrite Hc.
    cbn [mbind option_bind h_ptr h_size]. rewrite set_both. exists (h_size hb + c.2), l2. destruct (Hz c ltac:(set_solver)) as (Hc0 & _ & Hc36).
    unfold sizeof_Header in *. rewrite u32_small by lia. apply StronglySorted_inv in Hs as [Hs Hf].
    split_and!; try done; try lia; [set_solver|constructor; [done|]|simpl; lia|].
    + eapply Forall_impl; [exact Hf|]. unfold before, sizeof_Header. cbn [fst snd]. intros d. lia.
    + intros x. rewrite !in_blocks_cons. unfold covers, sizeof_Header. cbn [fst snd]. intuition lia.
  - rewrite (set_ptr_insert _ _ _ _ Hbp). exists (h_size hb), l2. split_and!; try done; [constructor; [done|]|intros x; apply in_blocks_cons].
    apply Forall_forall. intros c Hc. unfold before. cbn [fst snd]. pose proof (Hl2 c Hc).
    destruct l2 as [|d l2]; [set_solver|]. cbn [first] in E. apply elem_of_cons in Hc as [->|Hc]; [lia|]. pose proof (Hl2 d ltac:(set_solver)).
    apply StronglySorted_inv in Hs as [_ Hf]. rewrite Forall_forall in Hf. specialize (Hf c Hc). destruct (Hz d ltac:(set_solver)) as (Hd0 & _).
    unfold before, sizeof_Header in *. lia.
Qed.

(** A ring with the blocks from [p] on replaced. *)
Lemma ring_replace base hs hs' l1 p l2 m :
  ring base hs (l1 ++ p :: l2) → lseg hs' m base → StronglySorted before m → first m base = p.1 →
  (∀ a, a ∈ l1.*1 → hs' !! a = hs !! a) → (∀ c d, c ∈ l1 → d ∈ m → before c d) →
  (∀ b, b ∈ m → 0 ≤ b.2 ∧ (b.1 ≠ base → 0 < b.2) ∧ b.1 + sizeof_Header * b.2 ≤ 2 ^ 36) →
  (l1 = [] → head m = Some (base, 0)) → ring base hs' (l1 ++ m).
Proof.
  intros R Hm Hs Hf Heq Hb Hz Hh. destruct (ring_split _ _ _ _ _ R) as (_ & _ & Hs1 & _). destruct R as [Rh Rseg _ Rz Rb]. split; [| | | |done].
  - destruct l1 as [|b l1]; [by apply Hh|done].
  - apply lseg_app. split; [|done]. apply lseg_app in Rseg as [Rseg _]. cbn [first] in Rseg. rewrite Hf. clear -Rseg Heq.
    induction l1 as [|b l1 IH]; [done|]. destruct Rseg as [H1 H2]. split; [rewrite Heq by set_solver; done|]. apply IH; [done|set_solver].
  - apply StronglySorted_app. split_and!; [|done|done]. intros. by apply Hb.
  - intros b Hin. apply elem_of_app in Hin as [Hin|Hin]; [apply Rz; set_solver|by apply Hz].
Qed.

Lemma join_lower_run base hs l1 p l2 bp n l2' :
  ring base hs (l1 ++ p :: l2) → base < bp → p.1 + sizeof_Header * p.2 ≤ bp → bp ∉ (l1 ++ p :: l2).*1 →
  l2' ⊆ l2 → lseg hs l2' base → StronglySorted before ((bp, n) :: l2') → 0 < n → bp + sizeof_Header * n ≤ 2 ^ 36 →
  ∃ h' m, let hs1 := <[bp := mkHeader (first l2' base) n]> hs in
    join_lower bp p.1 hs1 = Some (<[p.1 := h']> hs1) ∧ ring base (<[p.1 := h']> hs1) (l1 ++ m) ∧ p.1 ∈ m.*1 ∧
    (length m ≤ 2 + length l2')%nat ∧ ∀ x, in_blocks m x ↔ covers p x ∨ in_blocks ((bp, n) :: l2') x.
Proof.
  intros R Hb Hp Hbp Hsub Hseg Hs Hn H36. destruct (ring_split _ _ _ _ _ R) as (H1 & _ & _ & _ & H12).
  destruct (ring_nodup _ _ _ _ _ R) as [Hd1 Hd2]. pose proof (r_sizes _ _ _ R p ltac:(set_solver)) as (Hpz & Hpz' & Hp36).
  pose proof (r_base _ _ _ R). pose proof (ring_base _ _ _ p R ltac:(set_solver)) as Hpb. rewrite fmap_app in Hbp. cbn [fmap list_fmap] in Hbp.
  set (hs1 := <[bp := _]> hs). assert (Hne : p.1 ≠ bp) by (intros E; apply Hbp; set_solver).
  assert (Hz2 : ∀ b, b ∈ l2' → 0 ≤ b.2 ∧ (b.1 ≠ base → 0 < b.2) ∧ b.1 + sizeof_Header * b.2 ≤ 2 ^ 36) by (intros b Hbl; apply (r_sizes _ _ _ R); set_solver).
  assert (Hseg1 : ∀ h', lseg (<[p.1 := h']> hs1) l2' base).
  { intros h'. apply lseg_insert; [intros Hx; apply Hd2; set_solver|]. apply lseg_insert; [set_solver|done]. }
  assert (Heq : ∀ h' a, a ∈ l1.*1 → <[p.1 := h']> hs1 !! a = hs !! a).
  { intros h' a Ha. unfold hs1. rewrite !lookup_insert_ne by set_solver. done. }
  assert (Hbl : ∀ c, c ∈ l1 → before c (bp, n) ∧ c.1 < p.1).
  { intros c Hc. specialize (H1 c Hc). pose proof (r_sizes _ _ _ R c ltac:(set_solver)). unfold before, sizeof_Header in *. simpl. lia. }
  assert (Hl1 : l1 = [] → p = (base, 0)) by (intros ->; pose proof (r_head _ _ _ R); by simplify_eq/=).
  assert (Hx : hs1 !! p.1 = Some (mkHeader (first l2 base) p.2)) by (unfold hs1; rewrite lookup_insert_ne by done; apply (ring_next _ _ _ _ _ R)).
  assert (Hxb : hs1 !! bp = Some (mkHeader (first l2' base) n)) by apply lookup_insert_eq.
  unfold join_lower. cbv zeta. rewrite Hx, Hxb. cbn [mbind option_bind h_ptr h_size].
  destruct (Z.eqb_spec (p.1 + sizeof_Header * p.2) bp) as [E|E].
  - rewrite set_both. eexists _, ((p.1, p.2 + n) :: l2'). unfold sizeof_Header in *. rewrite u32_small by lia. split; [done|].
    apply StronglySorted_inv in Hs as [Hs Hf]. split_and!; [|set_solver|simpl; lia|].
    + eapply ring_replace; [exact R|split; [by rewrite lookup_insert_eq|apply Hseg1]| |done|apply Heq| | |].
      * constructor; [done|]. eapply Forall_impl; [exact Hf|]. unfold before, sizeof_Header. cbn. intros d. lia.
      * intros c d Hc Hd. apply elem_of_cons in Hd as [->|Hd]; [by apply (H1 c)|]. apply H12; set_solver.
      * intros b Hbm. apply elem_of_cons in Hbm as [->|Hbm]; [|by apply Hz2]. unfold sizeof_Header. cbn [fst snd]. lia.
      * intros ->. specialize (Hl1 eq_refl). subst p. simpl in *. lia.
    + intros x. rewrite !in_blocks_cons. unfold covers, sizeof_Header. cbn [fst snd]. intuition lia.
  - rewrite (set_ptr_insert _ _ _ _ Hx). eexists _, (p :: (bp, n) :: l2'). split; [done|]. split_and!; [|set_solver|simpl; lia|intros x; by rewrite (in_blocks_cons p)].
    eapply ring_replace; [exact R| | |done|apply Heq| | |].
    + split; [by rewrite lookup_insert_eq|]. split; [|apply Hseg1]. by rewrite lookup_insert_ne by done.
    + constructor; [done|]. apply StronglySorted_inv in Hs as [Hs Hf]. constructor; [unfold before; simpl; lia|].
      eapply Forall_impl; [exact Hf|]. unfold before, sizeof_Header in *. cbn [fst snd]. intros d. lia.
    + intros c d Hc Hd. apply elem_of_cons in Hd as [->|Hd]; [by apply H1|].
      apply elem_of_cons in Hd as [->|Hd]; [by apply Hbl|]. apply H12; set_solver.
    + intros b Hbm. apply elem_of_cons in Hbm as [->|Hbm]; [done|]. apply elem_of_cons in Hbm as [->|Hbm]; [simpl; lia|by apply Hz2].
    + intros E1. by rewrite (Hl1 E1).
Qed.

(** [free] puts a block that is disjoint from the free ones into the ring. *)
Lemma free_run fuel base h fl f bp hb :
  ring base (hdrs h) fl → freep h = Some f → f ∈ fl.*1 → base < bp → hdrs h !! bp = Some hb → 0 < h_size hb →
  bp + sizeof_Header * h_size hb ≤ 2 ^ 36 → (∀ x, covers (bp, h_size hb) x → in_blocks fl x → False) → (length fl ≤ fuel)%nat →
  ∃ p hs' fl', free fuel h (bp + sizeof_Header) = Some (mkHeap (Some p) hs') ∧ ring base hs' fl' ∧ p ∈ fl'.*1 ∧
    (length fl' ≤ S (length fl))%nat ∧ (∀ a, a ∉ fl.*1 → a ≠ bp → hs' !! a = hdrs h !! a) ∧
    ∀ x, in_blocks fl' x ↔ in_blocks fl x ∨ covers (bp, h_size hb) x.
Proof.
  intros R Hfp Hf Hb Hbp Hn H36 Hd Hfuel. destruct (ring_place _ _ _ _ _ R Hb Hn Hd) as (l1 & p & l2 & -> & Hp & Hpb & Hl2 & Hpred).
  destruct (join_upper_run _ _ _ _ _ _ _ R Hb Hbp Hn H36 Hl2) as (n & l2' & EU & Hsub & Hseg & Hs & Hn' & H36' & Hlen & Hx).
  destruct (join_lower_run _ _ _ _ _ _ _ _ R Hb Hp (proj1 (proj2 (proj2 Hpred))) Hsub Hseg Hs Hn' H36') as (h' & m & EL & R' & Hpm & Hlen' & Hx').
  assert (ES : free_search fuel (hdrs h) bp f = Some p.1).
  { apply list_elem_of_fmap in Hf as (c & -> & Hc). apply list_elem_of_split in Hc as (k1 & k2 & Ek). rewrite Ek in R, Hpred, Hfuel.
    eapply (free_search_walk base (hdrs h) bp p.1 (k1 ++ c :: k2) fuel (c :: k2 ++ k1) c.1); try done.
    - apply lseg_rotate. pose proof (r_head _ _ _ R) as Hh. pose proof (r_seg _ _ _ R) as Hsg. by destruct k1; simplify_eq/=.
    - set_solver.
    - destruct Hpred as [Hpe _]. rewrite fmap_app in Hpe. cbn. rewrite fmap_app. set_solver.
    - rewrite length_app in *. simpl in *. rewrite length_app. lia. }
  eexists p.1, _, (l1 ++ m). split_and!; [|exact R'| | | |].
  - unfold free. rewrite Hfp. cbn [mbind option_bind]. replace (bp + sizeof_Header - sizeof_Header) with bp by lia.
    rewrite ES. cbn [mbind option_bind]. rewrite EU. cbn [mbind option_bind]. by rewrite EL.
  - rewrite fmap_app. set_solver.
  - rewrite !length_app in *. simpl in *. lia.
  - intros a Ha Hne. rewrite fmap_app in Ha. rewrite !lookup_insert_ne by set_solver. done.
  - intros x. rewrite !in_blocks_app, Hx', Hx, in_blocks_cons. tauto.
Qed.
End ring.

(** * The heap *)

Definition in_live (live : gmap Z Z) (x : Z) : Prop := ∃ a n, live !! a = Some n ∧ covers (a, n) x.

(** The blocks of [fl] are free, those of [live] (sizes by address) have been
    handed out; no two of them overlap, and together they are all the memory
    from [start] to the break. *)
Record heap_ok (base start : Z) (h : heap) fl (live : gmap Z Z) (brk : Z) : Prop := {
  hk_ring : ring base (hdrs h) fl;
  hk_freep : ∃ f, freep h = Some f ∧ f ∈ fl.*1;
  hk_live : ∀ a n, live !! a = Some n → 0 < n ∧ ∃ ptr, hdrs h !! a = Some (mkHeader ptr n);
  hk_apart : ∀ x, in_live live x → in_blocks fl x → False;
  hk_disj : ∀ a n a' n' x, live !! a = Some n → live !! a' = Some n' → covers (a, n) x → covers (a', n') x → a = a';
  hk_all : ∀ x, start ≤ x < brk ↔ in_blocks fl x ∨ in_live live x;
  hk_start : base < start ≤ brk;
  hk_brk : brk ≤ 2 ^ 36
}.

(** [sbrk] in a process that may grow to [limit]. *)
Definition grow (limit : Z) (c : ucall) (brk : Z) : Z * list Z * Z :=
  match c with
  | USbrk n => if brk + n <=? limit then (brk, [], brk + n) else (-1, [], brk)
  | _ => (0, [], brk)
  end.

Section heap.
Implicit Types (h : heap) (live : gmap Z Z).

Lemma covers_first a n : 0 < n → covers (a, n) a.
Proof. unfold covers, sizeof_Header. simpl. lia. Qed.

Lemma live_bounds base start h fl live brk a n :
  heap_ok base start h fl live brk → live !! a = Some n → start ≤ a ∧ a + sizeof_Header * n ≤ brk.
Proof.
  intros K Ha. destruct (hk_live _ _ _ _ _ _ K a n Ha) as [Hn _].
  assert (Hc : ∀ x, covers (a, n) x → start ≤ x < brk) by (intros x Hx; apply (hk_all _ _ _ _ _ _ K); right; by exists a, n).
  pose proof (Hc a (covers_first a n Hn)). specialize (Hc (a + sizeof_Header * n - 1)). unfold covers, sizeof_Header in *. simpl in Hc. lia.
Qed.

(** No header of a live block is one of the ring. *)
Lemma live_not_free base start h fl live brk a n :
  heap_ok base start h fl live brk → live !! a = Some n → a ∉ fl.*1.
Proof.
  intros K Ha Hin. apply list_elem_of_fmap in Hin as (b & -> & Hb). destruct (live_bounds _ _ _ _ _ _ _ _ K Ha) as [Hs _].
  pose proof (hk_start _ _ _ _ _ _ K). destruct (r_sizes _ _ _ (hk_ring _ _ _ _ _ _ K) b Hb) as (_ & Hz & _).
  destruct (hk_live _ _ _ _ _ _ K b.1 n Ha) as [Hn _].
  apply (hk_apart _ _ _ _ _ _ K b.1); [exists b.1, n; split; [done|by apply covers_first]|].
  exists b. split; [done|]. unfold covers, sizeof_Header. lia.
Qed.

(** C30: [free] of a block that [malloc] handed out ends, makes exactly its
    memory free, and keeps the heap well-formed: the free list stays a ring in
    address order with neighbours joined, and no live block is touched. *)
Theorem free_spec fuel base start h fl live brk bp n :
  heap_ok base start h fl live brk → live !! bp = Some n → (length fl ≤ fuel)%nat →
  ∃ h' fl', free fuel h (bp + sizeof_Header) = Some h' ∧ heap_ok base start h' fl' (delete bp live) brk ∧
    ∀ x, in_blocks fl' x ↔ in_blocks fl x ∨ covers (bp, n) x.
Proof.
  intros K Hbp Hfuel. destruct (live_bounds _ _ _ _ _ _ _ _ K Hbp) as [Hs He]. pose proof (hk_start _ _ _ _ _ _ K). pose proof (hk_brk _ _ _ _ _ _ K).
  destruct (hk_freep _ _ _ _ _ _ K) as (f & Hf & Hfin). destruct (hk_live _ _ _ _ _ _ K bp n Hbp) as [Hn [ptr Hptr]].
  destruct (free_run fuel base h fl f bp _ (hk_ring _ _ _ _ _ _ K) Hf Hfin ltac:(lia) Hptr Hn ltac:(simpl; lia)) as (p & hs' & fl' & E & R & Hp & _ & Hfr & Hx); [|done|].
  { intros x Hc Hb. apply (hk_apart _ _ _ _ _ _ K x); [by exists bp, n|done]. }
  cbn [h_size] in Hx. exists (mkHeap (Some p) hs'), fl'. split; [exact E|]. split; [|exact Hx]. split; try done.
  - by exists p.
  - intros a m Ha. apply lookup_delete_Some in Ha as [Hne Ha]. destruct (hk_live _ _ _ _ _ _ K a m Ha) as [Hm [q Hq]].
    split; [done|]. exists q. cbn [hdrs]. rewrite Hfr; [done|by eapply live_not_free|done].
  - intros x (a & m & Ha & Hc) Hb. apply lookup_delete_Some in Ha as [Hne Ha]. apply Hx in Hb as [Hb|Hb].
    + apply (hk_apart _ _ _ _ _ _ K x); [by exists a, m|done].
    + apply Hne. by apply (hk_disj _ _ _ _ _ _ K bp n a m x).
  - intros a m b k x Ha Hb. apply lookup_delete_Some in Ha as [_ Ha]. apply lookup_delete_Some in Hb as [_ Hb]. by apply (hk_disj _ _ _ _ _ _ K).
  - intros x. rewrite (hk_all _ _ _ _ _ _ K), Hx. split.
    + intros [Hb|(a & m & Ha & Hc)]; [by left; left|]. destruct (decide (a = bp)) as [->|Hne]; [left; right; by simplify_eq|].
      right. exists a, m. by rewrite lookup_delete_ne.
    + intros [[Hb|Hb]|(a & m & Ha & Hc)]; [by left|right; by exists bp, n|]. apply lookup_delete_Some in Ha as [_ Ha]. right. by exists a, m.
Qed.

(** * Taking a block *)

(** The block [r] of [n] units is cut out of the ring [fl], which leaves
    [fl']. *)
Definition cut_out fl fl' (r n : Z) : Prop :=
  (∀ x, in_blocks fl x ↔ in_blocks fl' x ∨ covers (r, n) x) ∧ (∀ x, covers (r, n) x → in_blocks fl' x → False).

Lemma take_exact base h la q b lb :
  ring base (hdrs h) (la ++ q :: b :: lb) → 0 < b.2 →
  ring base (set_ptr q.1 (first lb base) (hdrs h)) (la ++ q :: lb) ∧ cut_out (la ++ q :: b :: lb) (la ++ q :: lb) b.1 b.2.
Proof.
  intros R Hb. destruct (ring_nodup _ _ _ _ _ R) as [Hq1 Hq2]. cbn [fmap list_fmap] in Hq2. apply not_elem_of_cons in Hq2 as [_ Hq2].
  destruct (ring_split _ _ _ _ _ R) as (H1 & H2 & _ & H3 & H4). apply StronglySorted_inv in H3 as [H3 H5]. rewrite Forall_forall in H5.
  pose proof (r_seg _ _ _ R) as Hs. apply lseg_app in Hs as (_ & Hq & Hs & Hs'). rewrite (set_ptr_insert _ _ _ _ Hq). cbn [h_size]. split.
  - eapply ring_replace; [exact R|split; [by rewrite lookup_insert_eq|by apply lseg_insert]| |done| | | |].
    + constructor; [done|]. apply Forall_forall. intros c Hc. apply H2. by right.
    + intros a Ha. rewrite lookup_insert_ne; [done|]. intros <-. done.
    + intros c d Hc Hd. apply elem_of_cons in Hd as [->|Hd]; [by apply H1|]. apply H4; [done|by right].
    + intros c Hc. apply (r_sizes _ _ _ R). set_solver.
    + intros ->. apply (r_head _ _ _ R).
  - split; intros x; rewrite !in_blocks_app, !in_blocks_cons; [destruct b; cbn [fst snd]; tauto|].
    intros Hx [(c & Hc & Hcx)|[Hqx|(c & Hc & Hcx)]]; unfold covers, before, sizeof_Header in *; cbn [fst snd] in *.
    + specialize (H4 c b Hc ltac:(by left)). lia.
    + specialize (H2 b ltac:(by left)). lia.
    + specialize (H5 c Hc). lia.
Qed.

Lemma take_tail base h la q b lb n :
  ring base (hdrs h) (la ++ q :: b :: lb) → 0 < n < b.2 →
  let r := b.1 + sizeof_Header * (b.2 - n) in
  ring base (set_size r n (set_size b.1 (b.2 - n) (hdrs h))) (la ++ q :: (b.1, b.2 - n) :: lb) ∧
  cut_out (la ++ q :: b :: lb) (la ++ q :: (b.1, b.2 - n) :: lb) r n ∧ r ∉ (la ++ q :: b :: lb).*1.
Proof.
  intros R Hn r. assert (R' : ring base (hdrs h) ((la ++ [q]) ++ b :: lb)) by (by rewrite <-app_assoc).
  destruct (ring_nodup _ _ _ _ _ R') as [Hb1 Hb2]. destruct (ring_split _ _ _ _ _ R') as (H1 & H2 & _ & H3 & H4).
  pose proof (r_sizes _ _ _ R) as Hz. destruct (Hz b ltac:(set_solver)) as (_ & _ & Hb36).
  pose proof (r_seg _ _ _ R') as Hs. apply lseg_app in Hs as (_ & Hb & Hs).
  assert (Hr : r ∉ ((la ++ [q]) ++ b :: lb).*1).
  { intros Hin. apply list_elem_of_fmap in Hin as (c & E & Hc). apply elem_of_app in Hc as [Hc|Hc].
    - specialize (H1 c Hc). destruct (Hz c ltac:(set_solver)). unfold r, before, sizeof_Header in *. lia.
    - apply elem_of_cons in Hc as [->|Hc]; [unfold r, sizeof_Header in *; lia|]. specialize (H2 c Hc). unfold r, before, sizeof_Header in *. lia. }
  assert (Er : la ++ q :: b :: lb = (la ++ [q]) ++ b :: lb) by (by rewrite <-app_assoc).
  assert (Er' : la ++ q :: (b.1, b.2 - n) :: lb = (la ++ [q]) ++ (b.1, b.2 - n) :: lb) by (by rewrite <-app_assoc).
  rewrite Er, Er'. clear Er Er'. rewrite fmap_app in Hr. cbn [fmap list_fmap] in Hr.
  assert (Eb : set_size b.1 (b.2 - n) (hdrs h) = <[b.1 := mkHeader (first lb base) (b.2 - n)]> (hdrs h)) by (unfold set_size; by rewrite Hb).
  rewrite Eb. unfold set_size. assert (Hne : r ≠ b.1) by set_solver. split_and!; [| |by rewrite fmap_app].
  - eapply ring_replace; [exact R'| | |done| | | |by destruct la].
    + split; [rewrite lookup_insert_ne by done; by rewrite lookup_insert_eq|]. apply lseg_insert; [set_solver|]. by apply lseg_insert.
    + constructor; [done|]. apply Forall_forall. intros c Hc. specialize (H2 c Hc). unfold before, sizeof_Header in *. simpl. lia.
    + intros a Ha. rewrite !lookup_insert_ne; [done| |]; intros <-; [done|set_solver].
    + intros c d Hc Hd. apply elem_of_cons in Hd as [->|Hd]; [by apply (H1 c)|by apply H4].
    + intros c Hc. apply elem_of_cons in Hc as [->|Hc]; [|apply Hz; set_solver]. unfold sizeof_Header in *. simpl. lia.
  - split; intros x; rewrite (in_blocks_app (la ++ [q])), ?(in_blocks_app (la ++ [q])), !in_blocks_cons; unfold covers, r, sizeof_Header in *; cbn [fst snd].
    + intuition lia.
    + intros Hx [(c & Hc & Hcx)|[Hbx|(c & Hc & Hcx)]]; unfold covers, before, sizeof_Header in *; [specialize (H1 c Hc); lia|lia|specialize (H2 c Hc); lia].
Qed.

Lemma heap_cut base start h fl live brk hs' fl' q r n :
  heap_ok base start h fl live brk → ring base hs' fl' → q ∈ fl'.*1 → cut_out fl fl' r n → 0 < n →
  (∀ a m, live !! a = Some m → hs' !! a = hdrs h !! a) → (∃ ptr, hs' !! r = Some (mkHeader ptr n)) →
  live !! r = None ∧ heap_ok base start (mkHeap (Some q) hs') fl' (<[r := n]> live) brk.
Proof.
  intros K R Hq [Hcut Hoff] Hn Hsame Hr.
  assert (Hrf : ∀ x, covers (r, n) x → in_live live x → False).
  { intros x Hx Hl. apply (hk_apart _ _ _ _ _ _ K x Hl), Hcut. by right. }
  assert (Hnew : live !! r = None).
  { destruct (live !! r) as [m|] eqn:E; [|done]. exfalso. destruct (hk_live _ _ _ _ _ _ K r m E) as [Hm _].
    apply (Hrf r); [by apply covers_first|]. exists r, m. split; [done|by apply covers_first]. }
  assert (Hlx : ∀ x, in_live (<[r := n]> live) x ↔ covers (r, n) x ∨ in_live live x).
  { intros x. split.
    - intros (a & m & Ha & Hc). apply lookup_insert_Some in Ha as [[<- <-]|[_ Ha]]; [by left|right; by exists a, m].
    - intros [Hc|(a & m & Ha & Hc)]; [exists r, n; by rewrite lookup_insert_eq|]. exists a, m. rewrite lookup_insert_ne; [done|congruence]. }
  split; [done|]. split; [done|by exists q| | | | |apply K|apply K].
  - intros a m Ha. apply lookup_insert_Some in Ha as [[<- <-]|[_ Ha]]; [done|]. cbn [hdrs]. rewrite (Hsame _ _ Ha). by apply K.
  - intros x Hl Hb. apply Hlx in Hl as [Hl|Hl]; [by apply (Hoff x)|]. apply (hk_apart _ _ _ _ _ _ K x Hl), Hcut. by left.
  - intros a m a' m' x Ha Ha' Hc Hc'. apply lookup_insert_Some in Ha as [[<- <-]|[_ Ha]]; apply lookup_insert_Some in Ha' as [[<- <-]|[_ Ha']]; [done| | |].
    + exfalso. apply (Hrf x Hc). by exists a', m'.
    + exfalso. apply (Hrf x Hc'). by exists a, m.
    + by apply (hk_disj _ _ _ _ _ _ K a m a' m' x).
  - intros x. rewrite (hk_all _ _ _ _ _ _ K), Hlx, Hcut. tauto.
Qed.

Lemma take_ok base start h la q b lb live brk n :
  heap_ok base start h (la ++ q :: b :: lb) live brk → 0 < n ≤ b.2 →
  ∃ r h' fl', take_block h n q.1 b.1 (mkHeader (first lb base) b.2) = (r + sizeof_Header, h') ∧ live !! r = None ∧
    heap_ok base start h' fl' (<[r := n]> live) brk.
Proof.
  intros K Hn. pose proof (hk_ring _ _ _ _ _ _ K) as R.
  assert (Hlive : ∀ a m, live !! a = Some m → a ≠ q.1 ∧ a ≠ b.1).
  { intros a m Ha. pose proof (live_not_free _ _ _ _ _ _ _ _ K Ha) as Hf. rewrite fmap_app in Hf. set_solver. }
  unfold take_block. cbn [h_size h_ptr]. destruct (Z.eqb_spec b.2 n) as [E|E].
  - destruct (take_exact base h la q b lb R ltac:(lia)) as [R' Hc]. exists b.1. eexists _, (la ++ q :: lb). split; [done|].
    eapply heap_cut; [exact K|exact R'|rewrite fmap_app; set_solver|by rewrite <-E|lia| |].
    + intros a m Ha. unfold set_ptr. rewrite lookup_insert_ne; [done|]. destruct (Hlive a m Ha). congruence.
    + exists (first lb base). unfold set_ptr. rewrite lookup_insert_ne; [|destruct (ring_nodup _ _ _ _ _ R); set_solver].
      rewrite <-E. by apply (ring_next base (hdrs h) (la ++ [q]) b lb); rewrite <-app_assoc.
  - destruct (take_tail base h la q b lb n R ltac:(lia)) as (R' & Hc & Hr). eexists _, _, (la ++ q :: (b.1, b.2 - n) :: lb). split; [done|].
    assert (Hrl : ∀ a m, live !! a = Some m → a ≠ b.1 + sizeof_Header * (b.2 - n)).
    { intros a m Ha ->. destruct (hk_live _ _ _ _ _ _ K _ _ Ha) as [Hm _].
      apply (hk_apart _ _ _ _ _ _ K (b.1 + sizeof_Header * (b.2 - n))); [eexists _, m; split; [done|by apply covers_first]|].
      apply Hc. right. apply covers_first. lia. }
    eapply heap_cut; [exact K|exact R'|rewrite fmap_app; set_solver|done|lia| |].
    + intros a m Ha. destruct (Hlive a m Ha). unfold set_size. rewrite !lookup_insert_ne; [done|congruence|]. specialize (Hrl a m Ha). congruence.
    + unfold set_size. rewrite lookup_insert_eq. by eexists.
Qed.

(** * The walk of malloc *)

Definition last_addr (prevp : Z) l : Z := match last l with Some b => b.1 | None => prevp end.

Lemma last_addr_cons prevp b l : last_addr prevp (b :: l) = last_addr b.1 l.
Proof. unfold last_addr. rewrite last_cons. by destruct (last l). Qed.

Lemma last_addr_snoc prevp l b : last_addr prevp (l ++ [b]) = b.1.
Proof. unfold last_addr. by rewrite last_snoc. Qed.

(** Blocks too small are passed by. *)
Lemma walk_unfit h n e fuel prevp ra rb :
  lseg (hdrs h) (ra ++ rb) e → (∀ b, b ∈ ra → b.2 < n ∧ freep h ≠ Some b.1) →
  malloc_loop (length ra + fuel) h n prevp (first (ra ++ rb) e) = malloc_loop fuel h n (last_addr prevp ra) (first rb e).
Proof.
  revert prevp. induction ra as [|b ra IH]; intros prevp Hs Hra; [done|]. destruct Hs as [Hb Hs].
  cbn [length Nat.add app first malloc_loop]. rewrite Hb. cbn [h_size h_ptr]. destruct (Hra b ltac:(by left)) as [Hbn Hbf].
  rewrite (proj2 (Z.leb_gt _ _)) by done. rewrite bool_decide_false by done. rewrite last_addr_cons. apply IH; [done|]. intros c Hc. apply Hra. by right.
Qed.

Lemma first_fit n l : (∀ b, b ∈ l → b.2 < n) ∨ ∃ ra b rb, l = ra ++ b :: rb ∧ n ≤ b.2 ∧ ∀ c, c ∈ ra → c.2 < n.
Proof.
  induction l as [|b l IH]; [left; set_solver|]. destruct (decide (n ≤ b.2)); [right; exists [], b, l; set_solver|].
  destruct IH as [IH|(ra & c & rb & -> & H1 & H2)].
  - left. intros c Hc. apply elem_of_cons in Hc as [->|Hc]; [lia|by apply IH].
  - right. exists (b :: ra), c, rb. split_and!; [done|done|]. intros d Hd. apply elem_of_cons in Hd as [->|Hd]; [lia|by apply H2].
Qed.

(** The block before [b] in the ring is the one the walk from [f] sees before
    it. *)
Lemma ring_pred l1 (f : block) l2 ra b rb :
  l2 ++ l1 ++ [f] = ra ++ b :: rb → head (l1 ++ f :: l2) ≠ Some b →
  ∃ la q lb, l1 ++ f :: l2 = la ++ q :: b :: lb ∧ q.1 = last_addr f.1 ra.
Proof.
  intros E Hh. apply app_eq_app in E as (l & [[-> E]|[-> E]]).
  - destruct l as [|c l]; simplify_eq/=; [by destruct l1; simplify_eq/=|].
    destruct (exists_last (l := f :: ra)) as (la & q & Eq); [done|]. exists (l1 ++ la), q, l. rewrite <-app_assoc. split.
    + f_equal. by rewrite app_comm_cons, Eq, <-app_assoc.
    + rewrite <-last_addr_cons with (prevp := 0), Eq. by rewrite last_addr_snoc.
  - destruct l as [|c0 l0] using rev_ind; [simpl in E; by destruct l1; simplify_eq/=|]. clear IHl0.
    exists l0, c0. rewrite app_assoc, last_addr_snoc. rewrite <-app_assoc in E. cbn [app] in E.
    destruct rb as [|d rb] using rev_ind.
    + change (c0 :: [b]) with ([c0] ++ [b]) in E. rewrite app_assoc in E. apply app_inj_tail in E as [-> ->]. exists l2. by rewrite <-app_assoc.
    + clear IHrb. rewrite !app_comm_cons, app_assoc in E. apply app_inj_tail in E as [-> ->]. eexists. split; [|done]. rewrite <-!app_assoc. done.
Qed.

(** One round of the ring: a block that fits, or back at [freep]. *)
Lemma malloc_round base h fl f n :
  ring base (hdrs h) fl → freep h = Some f → f ∈ fl.*1 → 0 < n →
  ∃ hp, hdrs h !! f = Some hp ∧
    ((∃ la q b lb, fl = la ++ q :: b :: lb ∧ n ≤ b.2 ∧ ∀ fuel, (length fl ≤ fuel)%nat →
        malloc_loop fuel h n f (h_ptr hp) = mret (take_block h n q.1 b.1 (mkHeader (first lb base) b.2))) ∨
     (∀ b, b ∈ fl → b.2 < n) ∧ h_size hp < n ∧
       ∀ fuel, ∃ prevp, malloc_loop (length fl + fuel) h n f (h_ptr hp) = malloc_loop (S fuel) h n prevp f).
Proof.
  intros R Hf Hin Hn. apply list_elem_of_fmap in Hin as (c & -> & Hc). apply list_elem_of_split in Hc as (l1 & l2 & ->).
  pose proof (ring_next _ _ _ _ _ R) as Hnext. pose proof (r_head _ _ _ R) as Hh. destruct (ring_nodup _ _ _ _ _ R) as [Hd1 Hd2].
  assert (Hrot : lseg (hdrs h) ((l2 ++ l1) ++ [c]) (first l2 base) ∧ first ((l2 ++ l1) ++ [c]) (first l2 base) = first l2 base).
  { pose proof (lseg_rotate (hdrs h) l1 c l2) as Hr. pose proof (r_seg _ _ _ R) as Hs.
    assert (Hb : first (l1 ++ c :: l2) 0 = base) by (by destruct l1; simplify_eq/=). rewrite Hb in Hr. destruct (Hr Hs) as [Hr1 Hr2].
    split; [by apply lseg_app|]. rewrite Hnext in Hr1. injection Hr1 as Hr1. by rewrite (first_app (l2 ++ l1)). }
  destruct Hrot as [Hseg Efirst]. eexists. split; [exact Hnext|]. cbn [h_ptr h_size].
  assert (Hnf : ∀ b, b ∈ l2 ++ l1 → freep h ≠ Some b.1).
  { intros b Hb. rewrite Hf. intros E. injection E as E. rewrite E in Hd1, Hd2. apply elem_of_app in Hb as [Hb|Hb]; [apply Hd2|apply Hd1]; by apply list_elem_of_fmap_2. }
  destruct (first_fit n ((l2 ++ l1) ++ [c])) as [Hall|(ra & b & rb & E & Hfit & Hra)].
  - right. split_and!; [intros b Hb; apply Hall; set_solver|apply Hall; set_solver|]. intros fuel. exists (last_addr c.1 (l2 ++ l1)).
    replace (length (l1 ++ c :: l2) + fuel)%nat with (length (l2 ++ l1) + S fuel)%nat by (rewrite !length_app; simpl; lia).
    pose proof (walk_unfit h n _ (S fuel) c.1 (l2 ++ l1) [c] Hseg) as W. rewrite Efirst in W. apply W. intros b Hb. split; [apply Hall; set_solver|by apply Hnf].
  - left. rewrite E in Hseg, Efirst. destruct (ring_pred l1 c l2 ra b rb) as (la & q & lb & Efl & Eq); [by rewrite app_assoc| |].
    { rewrite Hh. intros Ebb. injection Ebb as <-. simpl in Hfit. lia. }
    exists la, q, b, lb. split_and!; [done|done|]. intros fuel Hfuel.
    assert (Hlen : (length ra < length (l1 ++ c :: l2))%nat).
    { apply (f_equal length) in E. rewrite !length_app in *. simpl in *. lia. }
    replace fuel with (length ra + S (fuel - length ra - 1))%nat by lia. 
    pose proof (walk_unfit h n _ (S (fuel - length ra - 1)) c.1 ra (b :: rb) Hseg) as W. rewrite Efirst in W. rewrite W.
    + cbn [malloc_loop first]. rewrite Efl in R.
      rewrite (ring_next base (hdrs h) (la ++ [q]) b lb) by (by rewrite <-app_assoc). cbn [h_size]. rewrite (proj2 (Z.leb_le _ _)) by done. by rewrite Eq.
    + intros d Hd. split; [by apply Hra|]. apply Hnf. destruct rb as [|d' rb _] using rev_ind; [by apply app_inj_tail in E as [-> _]|].
      rewrite app_comm_cons, app_assoc in E. apply app_inj_tail in E as [-> _]. set_solver.
Qed.

(** Blocks of a ring do not touch, so a covered range lies in one of them. *)
Lemma ring_contiguous base hs fl a n :
  ring base hs fl → 0 < n → (∀ x, covers (a, n) x → in_blocks fl x) → ∃ b, b ∈ fl ∧ n ≤ b.2.
Proof.
  intros R Hn Hc. destruct (Hc a (covers_first a n Hn)) as (b & Hb & Hba). exists b. split; [done|].
  destruct (decide (n ≤ b.2)) as [|Hlt]; [done|exfalso]. unfold covers, sizeof_Header in *. cbn [fst snd] in *.
  destruct (Hc (b.1 + 16 * b.2) ltac:(lia)) as (b' & Hb' & Hx). apply list_elem_of_split in Hb as (l1 & l2 & ->).
  destruct (ring_split _ _ _ _ _ R) as (H1 & H2 & _). unfold before, covers, sizeof_Header in *.
  apply elem_of_app in Hb' as [Hb'|Hb']; [specialize (H1 b' Hb'); lia|]. apply elem_of_cons in Hb' as [->|Hb']; [lia|]. specialize (H2 b' Hb'). lia.
Qed.

(** Memory above the break joins the heap when it is freed. *)
Lemma heap_extend fuel base start h fl live brk nu :
  heap_ok base start h fl live brk → 0 < nu → brk + nu * sizeof_Header ≤ 2 ^ 36 → (length fl ≤ fuel)%nat →
  ∃ p h' fl', free fuel (mkHeap (freep h) (set_size brk nu (hdrs h))) (brk + sizeof_Header) = Some h' ∧ freep h' = Some p ∧
    heap_ok base start h' fl' live (brk + nu * sizeof_Header) ∧ (length fl' ≤ S (length fl))%nat ∧ ∃ b, b ∈ fl' ∧ nu ≤ b.2.
Proof.
  intros K Hn H36 Hfuel. pose proof (hk_ring _ _ _ _ _ _ K) as R. pose proof (hk_start _ _ _ _ _ _ K) as Hst.
  destruct (hk_freep _ _ _ _ _ _ K) as (f & Hf & Hfin).
  assert (Hold : ∀ x, in_blocks fl x ∨ in_live live x → x < brk) by (intros x Hx; apply (hk_all _ _ _ _ _ _ K) in Hx; lia).
  assert (Hbf : brk ∉ fl.*1).
  { intros Hin. apply list_elem_of_fmap in Hin as (b & -> & Hb). destruct (r_sizes _ _ _ R b Hb) as (_ & Hz & _).
    enough (Hi : in_blocks fl b.1 ∨ in_live live b.1) by (specialize (Hold _ Hi); lia). left. exists b. split; [done|]. unfold covers, sizeof_Header. lia. }
  assert (Hbl : live !! brk = None).
  { destruct (live !! brk) as [m|] eqn:E; [|done]. destruct (hk_live _ _ _ _ _ _ K _ _ E) as [Hm _].
    enough (Hi : in_blocks fl brk ∨ in_live live brk) by (specialize (Hold _ Hi); lia). right. exists brk, m. split; [done|by apply covers_first]. }
  destruct (free_run fuel base (mkHeap (freep h) (set_size brk nu (hdrs h))) fl f brk (mkHeader (default 0 (h_ptr <$> hdrs h !! brk)) nu)) as (p & hs' & fl' & E & R' & Hp & Hlen & Hfr & Hx).
  - destruct R. split; try done. by apply lseg_insert.
  - done.
  - done.
  - lia.
  - apply lookup_insert_eq.
  - done.
  - unfold sizeof_Header in *. simpl. lia.
  - intros x Hc Hb. specialize (Hold x (or_introl Hb)). unfold covers in Hc. simpl in Hc. lia.
  - done.
  - cbn [h_size hdrs] in *. exists p, (mkHeap (Some p) hs'), fl'. split_and!; [exact E|done| |done|].
    + split; [done|by exists p| | |apply K| |unfold sizeof_Header in *; lia|lia].
      * intros a m Ha. destruct (hk_live _ _ _ _ _ _ K a m Ha) as [Hm Hptr]. split; [done|]. cbn [hdrs].
        rewrite Hfr; [|by eapply live_not_free|congruence]. unfold set_size. rewrite lookup_insert_ne; [done|congruence].
      * intros x Hl Hb. apply Hx in Hb as [Hb|Hb]; [by apply (hk_apart _ _ _ _ _ _ K x)|]. specialize (Hold x (or_intror Hl)).
        unfold covers in Hb. simpl in Hb. lia.
      * intros x. rewrite Hx. assert (Hc : covers (brk, nu) x ↔ brk ≤ x < brk + nu * sizeof_Header) by (unfold covers; simpl; rewrite Z.mul_comm; done).
        rewrite Hc. pose proof (hk_all _ _ _ _ _ _ K x) as Hall. unfold sizeof_Header in *.
        clear -Hall Hst Hn. destruct (decide (x < brk)); intuition lia.
    + apply (ring_contiguous base hs' fl' brk nu); [done|done|]. intros x Hc. apply Hx. by right.
Qed.

(** [morecore] adds a block that is large enough to the ring, or fails. *)
Lemma morecore_run fuel base start limit h fl live brk n :
  heap_ok base start h fl live brk → 0 < n → n * sizeof_Header < 2 ^ 31 → limit ≤ 2 ^ 36 → (length fl ≤ fuel)%nat →
  (run (grow limit) (morecore fuel h n) brk = (Returned (None, h), brk) ∧ limit < brk + Z.max 4096 n * sizeof_Header) ∨
  ∃ q h' fl' brk', run (grow limit) (morecore fuel h n) brk = (Returned (Some q, h'), brk') ∧ freep h' = Some q ∧
    heap_ok base start h' fl' live brk' ∧ brk < brk' ≤ limit ∧ (length fl' ≤ S (length fl))%nat ∧ ∃ b, b ∈ fl' ∧ n ≤ b.2.
Proof.
  intros K Hn H31 Hlim Hfuel. unfold morecore. set (nu := if n <? 4096 then 4096 else n).
  assert (Enu : nu = Z.max 4096 n) by (unfold nu; destruct (Z.ltb_spec n 4096); lia). rewrite prog_run_bind. cbn [sys run grow].
  assert (E32 : s32 (nu * sizeof_Header) = nu * sizeof_Header) by (unfold s32, swrap, sizeof_Header in *; rewrite Z.mod_small; lia).
  rewrite E32, <-Enu. clearbody nu. destruct (Z.leb_spec (brk + nu * sizeof_Header) limit) as [Hl|Hl]; [right|by left].
  pose proof (hk_start _ _ _ _ _ _ K). pose proof (r_base _ _ _ (hk_ring _ _ _ _ _ _ K)).
  destruct (heap_extend fuel base start h fl live brk nu) as (p & h' & fl' & E & Hp & K' & Hlen & b & Hb & Hbn); [done|lia|lia|done|].
  exists p, h', fl', (brk + nu * sizeof_Header). rewrite (proj2 (Z.eqb_neq _ _)) by lia. rewrite E, Hp.
  unfold sizeof_Header in *. split_and!; try done; [lia|]. exists b. split; [done|lia].
Qed.

Lemma units_eq nbytes : 0 ≤ nbytes < 2 ^ 32 → units nbytes = (nbytes + 15) / 16 + 1.
Proof.
  intros H. unfold units, u32, u64, sizeof_Header. rewrite (Z.mod_small _ (2 ^ 64)) by lia.
  replace (nbytes + 16 - 1) with (nbytes + 15) by lia.
  assert (0 ≤ (nbytes + 15) / 16 ≤ 2 ^ 28) by (split; [apply Z.div_pos; lia|apply Z.lt_succ_r, Z.div_lt_upper_bound; lia]).
  rewrite Z.mod_small; lia.
Qed.

(** C17: [malloc] ends and hands out a block that holds the bytes asked for and
    overlaps no other block that is live or free, with the heap well-formed
    again; it returns 0 only when the process cannot grow. *)
Theorem malloc_spec fuel base start limit h fl live brk nbytes :
  heap_ok base start (malloc_init base h) fl live brk → 0 ≤ nbytes ≤ 2 ^ 31 - 64 → limit ≤ 2 ^ 36 →
  (2 * length fl + 2 ≤ fuel)%nat →
  ∃ r h' brk', run (grow limit) (malloc fuel base h nbytes) brk = (Returned (r, h'), brk') ∧
    (r = 0 ∧ h' = malloc_init base h ∧ brk' = brk ∧ limit < brk + Z.max 4096 (units nbytes) * sizeof_Header ∨
     ∃ bp fl', r = bp + sizeof_Header ∧ brk ≤ brk' ∧ nbytes ≤ sizeof_Header * (units nbytes - 1) ∧ live !! bp = None ∧
       heap_ok base start h' fl' (<[bp := units nbytes]> live) brk').
Proof.
  intros K Hnb Hlim Hfuel. assert (Hu : 0 < units nbytes ∧ units nbytes * 16 < 2 ^ 31 ∧ nbytes ≤ 16 * (units nbytes - 1)).
  { rewrite units_eq by lia. pose proof (Z_div_mod_eq_full (nbytes + 15) 16). pose proof (Z.mod_pos_bound (nbytes + 15) 16). lia. }
  unfold malloc. generalize dependent (malloc_init base h). clear h. intros h K. generalize dependent (units nbytes). intros n Hn.
  destruct (hk_freep _ _ _ _ _ _ K) as (f & Hf & Hfin). destruct (malloc_round base h fl f n (hk_ring _ _ _ _ _ _ K) Hf Hfin ltac:(lia)) as (hp & Hhp & Hcase).
  rewrite Hf, Hhp. destruct Hcase as [(la & q & b & lb & -> & Hfit & E)|(Hall & Hsz & E)].
  - destruct (take_ok _ _ _ _ _ _ _ _ _ n K ltac:(lia)) as (r & h' & fl' & Et & Hr & K'). rewrite E by lia. rewrite Et.
    eexists _, _, brk. split; [done|]. right. exists r, fl'. unfold sizeof_Header in *. split_and!; try done; lia.
  - destruct (E (fuel - length fl)%nat) as (prevp & E'). replace (length fl + (fuel - length fl))%nat with fuel in E' by lia. rewrite E'. clear E E'.
    cbn [malloc_loop]. rewrite Hhp, (proj2 (Z.leb_gt _ _)), bool_decide_true by done. rewrite prog_run_bind.
    destruct (morecore_run (fuel - length fl) base start limit h fl live brk n K) as [[-> Hl]|(q & h' & fl' & brk' & -> & Hq & K' & Hbrk & Hlen & b & Hb & Hbn)]; try (unfold sizeof_Header; lia).
    + eexists _, _, _. split; [done|]. left. done.
    + destruct (hk_freep _ _ _ _ _ _ K') as (f' & Hf' & Hfin'). rewrite Hq in Hf'. simplify_eq.
      destruct (malloc_round base h' fl' f' n (hk_ring _ _ _ _ _ _ K') Hq Hfin' ltac:(lia)) as (hp' & Hhp' & [(la & q' & b' & lb & -> & Hfit & E)|(Hall' & _)]).
      * destruct (take_ok _ _ _ _ _ _ _ _ _ n K' ltac:(lia)) as (r & h2 & fl2 & Et & Hr & K2). rewrite Hhp', E by lia. rewrite Et.
        eexists _, _, brk'. split; [done|]. right. exists r, fl2. unfold sizeof_Header in *. split_and!; try done; lia.
      * specialize (Hall' b Hb). lia.
Qed.

(** The heap of a program that has not allocated yet. *)
Lemma heap_start base start : 0 ≤ base < start → start ≤ 2 ^ 36 → heap_ok base start (malloc_init base (mkHeap None ∅)) [(base, 0)] ∅ start.
Proof.
  intros Hb Hs. split; [split| | | | | | |]; try done.
  - split; [apply lookup_insert_eq|done].
  - repeat constructor.
  - intros b Hin. apply list_elem_of_singleton in Hin as ->. unfold sizeof_Header. simpl. lia.
  - lia.
  - exists base. split; [done|]. simpl. set_solver.
  - intros x (a & n & Ha & _). by rewrite lookup_empty in Ha.
  - intros x. split; [lia|]. intros [(b & Hin & Hx)|(a & n & Ha & _)]; [|by rewrite lookup_empty in Ha].
    apply list_elem_of_singleton in Hin as ->. unfold covers, sizeof_Header in Hx. simpl in Hx. lia.
  - lia.
Qed.

Lemma malloc_spec_witness :
  ∃ h brk, run (grow 0x40000) (malloc 4 0x800 (mkHeap None ∅) 100) 0x3000 = (Returned (0x12F90, h), brk).
Proof.
  destruct (malloc_spec 4 0x800 0x3000 0x40000 (mkHeap None ∅) [(0x800, 0)] ∅ 0x3000 100) as (r & h & brk & E & _).
  - apply heap_start; lia.
  - lia.
  - lia.
  - simpl. lia.
  - exists h, brk. rewrite E. vm_compute in E. simplify_eq. done.
Defined.

(** A request near 2^32 bytes gets a block of 16: the int that [sbrk] takes
    holds the low bits of the size. *)
Lemma malloc_huge :
  ∃ h, run (grow 0x40000) (malloc 4 0x800 (mkHeap None ∅) 0xFFFFFFFF) 0x3000 = (Returned (0x3010, h), 0x3010).
Proof. eexists. vm_compute. reflexivity. Qed.

Lemma free_spec_witness :
  ∃ h' fl', free 4 (mkHeap (Some 0x800) {[0x800 := mkHeader 0x800 0; 0x3000 := mkHeader 0 2]}) 0x3010 = Some h' ∧
    heap_ok 0x800 0x3000 h' fl' ∅ 0x3020.
Proof.
  destruct (free_spec 4 0x800 0x3000 (mkHeap (Some 0x800) {[0x800 := mkHeader 0x800 0; 0x3000 := mkHeader 0 2]}) [(0x800, 0)] {[0x3000 := 2]} 0x3020 0x3000 2)
    as (h' & fl' & E & K & _).
  - split; [split| | | | | | |]; try done.
    + repeat constructor.
    + intros b Hin. apply list_elem_of_singleton in Hin as ->. vm_compute. naive_solver.
    + exists 0x800. split; [done|]. simpl. set_solver.
    + intros a n Ha. apply lookup_singleton_Some in Ha as [<- <-]. split; [lia|]. by exists 0.
    + intros x (a & n & Ha & Hx) (b & Hin & Hbx). apply lookup_singleton_Some in Ha as [<- <-]. apply list_elem_of_singleton in Hin as ->.
      unfold covers, sizeof_Header in *. simpl in *. lia.
    + intros a n a' n' x Ha Ha' _ _. apply lookup_singleton_Some in Ha as [<- <-]. by apply lookup_singleton_Some in Ha' as [<- <-].
    + intros x. split.
      * intros Hx. right. exists 0x3000, 2. split; [done|]. unfold covers, sizeof_Header. simpl. lia.
      * intros [(b & Hin & Hx)|(a & n & Ha & Hx)]; [apply list_elem_of_singleton in Hin as ->|apply lookup_singleton_Some in Ha as [<- <-]];
          unfold covers, sizeof_Header in *; simpl in *; lia.
  - done.
  - simpl. lia.
  - exists h', fl'. split; [exact E|]. by rewrite delete_singleton_eq in K.
Defined.
End heap.
