(* ===== verification/Usertests.v ===== *)
(** The tests of the kernel, user/usertests.c, as programs.

    The global [buf] is passed from test to test. Where a test goes on for as
    long as reads or allocations succeed, [fuel] bounds it. What the compiler
    and the linker decide is a parameter: [base], the address of the header
    umalloc.c starts with, and [rdi], what a register holds when [validateint]
    makes its call. *)

From stdpp Require Import base list strings.
From Stdlib Require Import ZArith Lia.
From S2P Require Import Prelude CString Bytes Kstate Ucall Ulib Uprog Umalloc.

Definition stdout : Z := 1.
Definition echoargv : list (list Z) := [str "echo"; str "ALL"; str "TESTS"; str "PASSED"].
Definition sizeof_buf : Z := 8192.

(** A line of text. *)
Definition ln (s : string) : list Z := str s ++ [10].

(** [if (b) { printf(...); exit(); }]. *)
Definition fail_if (b : bool) (msg : list Z) (args : list uarg) : prog unit :=
  if b then printf stdout msg args;; exit_ else mret tt.

(** What is at the start of [buf] after [bs] has been stored there. *)
Definition fill (bs buf : list Z) : list Z := bs ++ drop (length bs) buf.

(** A loop whose body changes a variable. *)
Fixpoint foldP {A S} (f : S → A → prog S) (s : S) (l : list A) : prog S :=
  match l with
  | [] => mret s
  | x :: l => s ← f s x; foldP f s l
  end.

(** The values of [for (i = from; i < limit; i += by)]. *)
Definition range (from limit by_ : Z) : list Z :=
  (λ k, from + by_ * k) <$> seqZ 0 ((limit - from + by_ - 1) / by_).

(** The descriptors of [pipe(fds)]; they are undefined when it fails. *)
Definition pipe_fds (bs : list Z) : Z * Z := (s32 (get32 bs 0), s32 (get32 bs 4)).

(** * Inodes and transactions *)

Definition iputtest : prog unit :=
  printf stdout (ln "iput test") [];;
  r ← sys (UMkdir (str "iputdir"));
  fail_if (r <? 0) (ln "mkdir failed") [];;
  r ← sys (UChdir (str "iputdir"));
  fail_if (r <? 0) (ln "chdir iputdir failed") [];;
  r ← sys (UUnlink (str "../iputdir"));
  fail_if (r <? 0) (ln "unlink ../iputdir failed") [];;
  r ← sys (UChdir (str "/"));
  fail_if (r <? 0) (ln "chdir / failed") [];;
  printf stdout (ln "iput test ok") [].

Definition exitiputtest : prog unit :=
  printf stdout (ln "exitiput test") [];;
  pid ← sys UFork;
  fail_if (pid <? 0) (ln "fork failed") [];;
  whenP (pid =? 0) (
    r ← sys (UMkdir (str "iputdir"));
    fail_if (r <? 0) (ln "mkdir failed") [];;
    r ← sys (UChdir (str "iputdir"));
    fail_if (r <? 0) (ln "child chdir failed") [];;
    r ← sys (UUnlink (str "../iputdir"));
    fail_if (r <? 0) (ln "unlink ../iputdir failed") [];;
    exit_);;
  sys UWait;;
  printf stdout (ln "exitiput test ok") [].

Definition openiputtest : prog unit :=
  printf stdout (ln "openiput test") [];;
  r ← sys (UMkdir (str "oidir"));
  fail_if (r <? 0) (ln "mkdir oidir failed") [];;
  pid ← sys UFork;
  fail_if (pid <? 0) (ln "fork failed") [];;
  whenP (pid =? 0) (
    fd ← sys (UOpen (str "oidir") O_RDWR);
    fail_if (0 <=? fd) (ln "open directory for write succeeded") [];;
    exit_);;
  sys (USleep 1);;
  r ← sys (UUnlink (str "oidir"));
  fail_if (negb (r =? 0)) (ln "unlink failed") [];;
  sys UWait;;
  printf stdout (ln "openiput test ok") [].

(** * Simple file system tests *)

Definition opentest : prog unit :=
  printf stdout (ln "open test") [];;
  fd ← sys (UOpen (str "echo") 0);
  fail_if (fd <? 0) (ln "open echo failed!") [];;
  sys (UClose fd);;
  fd ← sys (UOpen (str "doesnotexist") 0);
  fail_if (0 <=? fd) (ln "open doesnotexist succeeded!") [];;
  printf stdout (ln "open test ok") [].

Definition writetest (buf : list Z) : prog (list Z) :=
  printf stdout (ln "small file test") [];;
  fd ← sys (UOpen (str "small") (Z.lor O_CREATE O_RDWR));
  (if 0 <=? fd then printf stdout (ln "creat small succeeded; ok") []
   else printf stdout (ln "error: creat small failed!") [];; exit_);;
  eachP (λ i,
    r ← sys (UWrite fd (str "aaaaaaaaaa"));
    fail_if (negb (r =? 10)) (ln "error: write aa %d new file failed") [UInt i];;
    r ← sys (UWrite fd (str "bbbbbbbbbb"));
    fail_if (negb (r =? 10)) (ln "error: write bb %d new file failed") [UInt i]) (seqZ 0 100);;
  printf stdout (ln "writes ok") [];;
  sys (UClose fd);;
  fd ← sys (UOpen (str "small") O_RDONLY);
  (if 0 <=? fd then printf stdout (ln "open small succeeded ok") []
   else printf stdout (ln "error: open small failed!") [];; exit_);;
  '(i, bs) ← sys_bytes (URead fd 2000);
  (if i =? 2000 then printf stdout (ln "read succeeded ok") []
   else printf stdout (ln "read failed") [];; exit_);;
  sys (UClose fd);;
  r ← sys (UUnlink (str "small"));
  fail_if (r <? 0) (ln "unlink small failed") [];;
  printf stdout (ln "small file test ok") [];;
  mret (fill bs buf).

Definition createtest : prog unit :=
  printf stdout (ln "many creates, followed by unlink test") [];;
  eachP (λ i, fd ← sys (UOpen [97; 48 + i] (Z.lor O_CREATE O_RDWR)); sys (UClose fd);; mret tt) (seqZ 0 52);;
  eachP (λ i, sys (UUnlink [97; 48 + i]);; mret tt) (seqZ 0 52);;
  printf stdout (ln "many creates, followed by unlink; ok") [].

Definition dirtest : prog unit :=
  printf stdout (ln "mkdir test") [];;
  r ← sys (UMkdir (str "dir0"));
  fail_if (r <? 0) (ln "mkdir failed") [];;
  r ← sys (UChdir (str "dir0"));
  fail_if (r <? 0) (ln "chdir dir0 failed") [];;
  r ← sys (UChdir (str ".."));
  fail_if (r <? 0) (ln "chdir .. failed") [];;
  r ← sys (UUnlink (str "dir0"));
  fail_if (r <? 0) (ln "unlink dir0 failed") [];;
  printf stdout (ln "mkdir test ok") [].

Definition exectest : prog unit :=
  printf stdout (ln "exec test") [];;
  r ← sys (UExec (str "echo") echoargv);
  fail_if (r <? 0) (ln "exec echo failed") [].

Section tests.
Context (fuel : nat).

(** The reading half of [writetest1], up to the end of the file. *)
Fixpoint big_read (k : nat) (fd : Z) (buf : list Z) (n : Z) : prog (list Z) :=
  match k with
  | O => Stuck
  | S k =>
      '(i, bs) ← sys_bytes (URead fd 512);
      let buf := fill bs buf in
      if i =? 0 then fail_if (n =? MAXFILE - 1) (str "read only %d blocks from big") [UInt n];; mret buf else
      fail_if (negb (i =? 512)) (ln "read failed %d") [UInt i];;
      let at0 := s32 (get32 buf 0) in
      fail_if (negb (at0 =? n)) (ln "read content of block %d is %d") [UInt n; UInt at0];;
      big_read k fd buf (n + 1)
  end.

Definition writetest1 (buf : list Z) : prog (list Z) :=
  printf stdout (ln "big files test") [];;
  fd ← sys (UOpen (str "big") (Z.lor O_CREATE O_RDWR));
  fail_if (fd <? 0) (ln "error: creat big failed!") [];;
  buf ← foldP (λ buf i,
    let buf := fill (le_bytes 4 i) buf in
    r ← sys (UWrite fd (take 512 buf));
    fail_if (negb (r =? 512)) (ln "error: write big file failed") [UInt i];;
    mret buf) buf (seqZ 0 MAXFILE);
  sys (UClose fd);;
  fd ← sys (UOpen (str "big") O_RDONLY);
  fail_if (fd <? 0) (ln "error: open big failed!") [];;
  buf ← big_read fuel fd buf 0;
  sys (UClose fd);;
  r ← sys (UUnlink (str "big"));
  fail_if (r <? 0) (ln "unlink big failed") [];;
  printf stdout (ln "big files ok") [];;
  mret buf.

(** * Processes and pipes *)

(** [buf[i] = seq++], [n] times. *)
Definition seq_bytes (seq n : Z) : list Z := u8 <$> seqZ seq n.

(** The parent reads, twice as much every time; a byte that is wrong makes
    [pipe1] return. *)
Fixpoint pipe1_read (k : nat) (fd : Z) (buf : list Z) (seq cc total : Z) : prog (list Z * option Z) :=
  match k with
  | O => Stuck
  | S k =>
      '(n, bs) ← sys_bytes (URead fd cc);
      let buf := fill bs buf in
      if n <=? 0 then mret (buf, Some total) else
      if negb (bool_decide (take (Z.to_nat n) buf = seq_bytes seq n)) then
        printf 1 (ln "pipe1 oops 2") [];; mret (buf, None)
      else pipe1_read k fd buf (seq + n) (Z.min (cc * 2) sizeof_buf) (total + n)
  end.

Definition pipe1 (buf : list Z) : prog (list Z) :=
  '(r, bs) ← sys_bytes UPipe;
  fail_if (negb (r =? 0)) (ln "pipe() failed") [];;
  let '(fd0, fd1) := pipe_fds bs in
  pid ← sys UFork;
  if pid =? 0 then
    sys (UClose fd0);;
    eachP (λ n,
      r ← sys (UWrite fd1 (seq_bytes (n * 1033) 1033));
      fail_if (negb (r =? 1033)) (ln "pipe1 oops 1") []) (seqZ 0 5);;
    exit_
  else if 0 <? pid then
    sys (UClose fd1);;
    '(buf, total) ← pipe1_read fuel fd0 buf 0 1 0;
    match total with
    | None => mret buf
    | Some total =>
        fail_if (negb (total =? 5 * 1033)) (ln "pipe1 oops 3 total %d") [UInt total];;
        sys (UClose fd0);;
        sys UWait;;
        printf 1 (ln "pipe1 ok") [];;
        mret buf
    end
  else printf 1 (ln "fork() failed") [];; exit_.

(** The children loop for ever. *)
Definition preempt (buf : list Z) : prog (list Z) :=
  printf 1 (str "preempt: ") [];;
  pid1 ← sys UFork;
  whenP (pid1 =? 0) Stuck;;
  pid2 ← sys UFork;
  whenP (pid2 =? 0) Stuck;;
  '(r, bs) ← sys_bytes UPipe;
  whenP (negb (r =? 0)) Stuck;;
  let '(fd0, fd1) := pipe_fds bs in
  pid3 ← sys UFork;
  whenP (pid3 =? 0) (
    sys (UClose fd0);;
    r ← sys (UWrite fd1 (str "x"));
    whenP (negb (r =? 1)) (printf 1 (str "preempt write error") []);;
    sys (UClose fd1);;
    Stuck);;
  sys (UClose fd1);;
  '(r, bs) ← sys_bytes (URead fd0 sizeof_buf);
  let buf := fill bs buf in
  if negb (r =? 1) then printf 1 (str "preempt read error") [];; mret buf else
  sys (UClose fd0);;
  printf 1 (str "kill... ") [];;
  sys (UKill pid1);;
  sys (UKill pid2);;
  sys (UKill pid3);;
  printf 1 (str "wait... ") [];;
  sys UWait;;
  sys UWait;;
  sys UWait;;
  printf 1 (ln "preempt ok") [];;
  mret buf.

Fixpoint exitwait_loop (n : nat) : prog unit :=
  match n with
  | O => printf 1 (ln "exitwait ok") []
  | S n =>
      pid ← sys UFork;
      if pid <? 0 then printf 1 (ln "fork failed") [] else
      if pid =? 0 then exit_ else
      w ← sys UWait;
      if negb (w =? pid) then printf 1 (ln "wait wrong pid") [] else exitwait_loop n
  end.
Definition exitwait : prog unit := exitwait_loop 100.

(** * Memory *)

Section mem.
Context (base : Z).

(** Blocks until there are no more, each one with the address of the last. *)
Fixpoint mem_take (k : nat) (h : heap) (m1 : Z) : prog (Z * heap) :=
  match k with
  | O => Stuck
  | S k =>
      '(m2, h) ← malloc fuel base h 10001;
      if m2 =? 0 then mret (m1, h) else
      sys (UStore m2 (le_bytes 8 m1));;
      mem_take k h m2
  end.

Fixpoint mem_give (k : nat) (h : heap) (m1 : Z) : prog heap :=
  match k with
  | O => Stuck
  | S k =>
      if m1 =? 0 then mret h else
      '(_, bs) ← sys_bytes (ULoad m1 8);
      match free fuel h m1 with
      | Some h => mem_give k h (get64 bs 0)
      | None => Stuck
      end
  end.

Definition mem : prog unit :=
  printf 1 (ln "mem test") [];;
  ppid ← sys UGetpid;
  pid ← sys UFork;
  if pid =? 0 then
    '(m1, h) ← mem_take fuel (mkHeap None ∅) 0;
    h ← mem_give fuel h m1;
    '(m1, h) ← malloc fuel base h (1024 * 20);
    if m1 =? 0 then
      printf 1 (ln "couldn't allocate mem?!!") [];;
      sys (UKill ppid);;
      exit_
    else
      match free fuel h m1 with
      | Some _ => printf 1 (ln "mem ok") [];; exit_
      | None => Stuck
      end
  else sys UWait;; mret tt.
End mem.

(** * More file system tests *)

(** The writes of one process; the first short one ends them. *)
Fixpoint sharedfd_write (n : nat) (fd : Z) (bs : list Z) : prog unit :=
  match n with
  | O => mret tt
  | S n =>
      r ← sys (UWrite fd bs);
      if negb (r =? 10) then printf 1 (ln "fstests: write sharedfd failed") [] else sharedfd_write n fd bs
  end.

(** Counts in all ten bytes, whatever was read. *)
Fixpoint sharedfd_count (k : nat) (fd : Z) (buf : list Z) (nc np : Z) : prog (Z * Z) :=
  match k with
  | O => Stuck
  | S k =>
      '(n, bs) ← sys_bytes (URead fd 10);
      let buf := fill bs buf in
      if n <=? 0 then mret (nc, np) else
      let count c := Z.of_nat (length (filter (λ b, b = c) buf)) in
      sharedfd_count k fd buf (nc + count 99) (np + count 112)
  end.

Definition sharedfd : prog unit :=
  printf 1 (ln "sharedfd test") [];;
  sys (UUnlink (str "sharedfd"));;
  fd ← sys (UOpen (str "sharedfd") (Z.lor O_CREATE O_RDWR));
  if fd <? 0 then printf 1 (str "fstests: cannot open sharedfd for writing") [] else
  pid ← sys UFork;
  let buf := replicate 10 (if pid =? 0 then 99 else 112) in
  sharedfd_write 1000 fd buf;;
  if pid =? 0 then exit_ else
  sys UWait;;
  sys (UClose fd);;
  fd ← sys (UOpen (str "sharedfd") 0);
  if fd <? 0 then printf 1 (ln "fstests: cannot open sharedfd for reading") [] else
  '(nc, np) ← sharedfd_count fuel fd buf 0 0;
  sys (UClose fd);;
  sys (UUnlink (str "sharedfd"));;
  if (nc =? 10000) && (np =? 10000) then printf 1 (ln "sharedfd ok") []
  else printf 1 (ln "sharedfd oops %d %d") [UInt nc; UInt np];; exit_.

Definition names : list (list Z) := [str "f0"; str "f1"; str "f2"; str "f3"].

(** What the child that has the file [pi] does. *)
Definition fourfiles_child (buf : list Z) (pi : Z) : prog unit :=
  fd ← sys (UOpen (names !!! Z.to_nat pi) (Z.lor O_CREATE O_RDWR));
  fail_if (fd <? 0) (ln "create failed") [];;
  let buf := fill (replicate 512 (48 + pi)) buf in
  eachP (λ _,
    n ← sys (UWrite fd (take 500 buf));
    fail_if (negb (n =? 500)) (ln "write failed %d") [UInt n]) (seqZ 0 12);;
  exit_.

Fixpoint fourfiles_read (k : nat) (fd c : Z) (buf : list Z) (total : Z) : prog (list Z * Z) :=
  match k with
  | O => Stuck
  | S k =>
      '(n, bs) ← sys_bytes (URead fd sizeof_buf);
      let buf := fill bs buf in
      if n <=? 0 then mret (buf, total) else
      fail_if (negb (forallb (λ b, b =? c) (take (Z.to_nat n) buf))) (ln "wrong char") [];;
      fourfiles_read k fd c buf (total + n)
  end.

Definition fourfiles (buf : list Z) : prog (list Z) :=
  printf 1 (ln "fourfiles test") [];;
  eachP (λ pi,
    sys (UUnlink (names !!! Z.to_nat pi));;
    pid ← sys UFork;
    fail_if (pid <? 0) (ln "fork failed") [];;
    whenP (pid =? 0) (fourfiles_child buf pi)) (seqZ 0 4);;
  eachP (λ _, sys UWait;; mret tt) (seqZ 0 4);;
  buf ← foldP (λ buf i,
    fd ← sys (UOpen (names !!! Z.to_nat i) 0);
    '(buf, total) ← fourfiles_read fuel fd (48 + i) buf 0;
    sys (UClose fd);;
    fail_if (negb (total =? 12 * 500)) (ln "wrong length %d") [UInt total];;
    sys (UUnlink (names !!! Z.to_nat i));;
    mret buf) buf (seqZ 0 2);
  printf 1 (ln "fourfiles ok") [];;
  mret buf.

Definition createdelete_child (pi : Z) : prog unit :=
  eachP (λ i,
    fd ← sys (UOpen [112 + pi; 48 + i] (Z.lor O_CREATE O_RDWR));
    fail_if (fd <? 0) (ln "create failed") [];;
    sys (UClose fd);;
    whenP ((0 <? i) && (i mod 2 =? 0)) (
      r ← sys (UUnlink [112 + pi; 48 + i / 2]);
      fail_if (r <? 0) (ln "unlink failed") [])) (seqZ 0 20);;
  exit_.

(** The names the last loop removes are made of [i] alone. *)
Definition createdelete : prog unit :=
  let N := 20 in
  printf 1 (ln "createdelete test") [];;
  eachP (λ pi,
    pid ← sys UFork;
    fail_if (pid <? 0) (ln "fork failed") [];;
    whenP (pid =? 0) (createdelete_child pi)) (seqZ 0 4);;
  eachP (λ _, sys UWait;; mret tt) (seqZ 0 4);;
  eachP (λ i, eachP (λ pi,
    let name := [112 + pi; 48 + i] in
    fd ← sys (UOpen name 0);
    (if ((i =? 0) || (N / 2 <=? i)) && (fd <? 0) then
       printf 1 (ln "oops createdelete %s didn't exist") [UStr (Some name)];; exit_
     else if ((1 <=? i) && (i <? N / 2)) && (0 <=? fd) then
       printf 1 (ln "oops createdelete %s did exist") [UStr (Some name)];; exit_
     else mret tt);;
    whenP (0 <=? fd) (sys (UClose fd);; mret tt)) (seqZ 0 4)) (seqZ 0 N);;
  eachP (λ i, eachP (λ _, sys (UUnlink [112 + i; 48 + i]);; mret tt) (seqZ 0 4)) (seqZ 0 N);;
  printf 1 (ln "createdelete ok") [].

Definition unlinkread (buf : list Z) : prog (list Z) :=
  printf 1 (ln "unlinkread test") [];;
  fd ← sys (UOpen (str "unlinkread") (Z.lor O_CREATE O_RDWR));
  fail_if (fd <? 0) (ln "create unlinkread failed") [];;
  sys (UWrite fd (str "hello"));;
  sys (UClose fd);;
  fd ← sys (UOpen (str "unlinkread") O_RDWR);
  fail_if (fd <? 0) (ln "open unlinkread failed") [];;
  r ← sys (UUnlink (str "unlinkread"));
  fail_if (negb (r =? 0)) (ln "unlink unlinkread failed") [];;
  fd1 ← sys (UOpen (str "unlinkread") (Z.lor O_CREATE O_RDWR));
  sys (UWrite fd1 (str "yyy"));;
  sys (UClose fd1);;
  '(r, bs) ← sys_bytes (URead fd sizeof_buf);
  let buf := fill bs buf in
  fail_if (negb (r =? 5)) (str "unlinkread read failed") [];;
  fail_if (negb (buf !!! 0%nat =? 104)) (ln "unlinkread wrong data") [];;
  r ← sys (UWrite fd (take 10 buf));
  fail_if (negb (r =? 10)) (ln "unlinkread write failed") [];;
  sys (UClose fd);;
  sys (UUnlink (str "unlinkread"));;
  printf 1 (ln "unlinkread ok") [];;
  mret buf.

Definition linktest (buf : list Z) : prog (list Z) :=
  printf 1 (ln "linktest") [];;
  sys (UUnlink (str "lf1"));;
  sys (UUnlink (str "lf2"));;
  fd ← sys (UOpen (str "lf1") (Z.lor O_CREATE O_RDWR));
  fail_if (fd <? 0) (ln "create lf1 failed") [];;
  r ← sys (UWrite fd (str "hello"));
  fail_if (negb (r =? 5)) (ln "write lf1 failed") [];;
  sys (UClose fd);;
  r ← sys (ULink (str "lf1") (str "lf2"));
  fail_if (r <? 0) (ln "link lf1 lf2 failed") [];;
  sys (UUnlink (str "lf1"));;
  r ← sys (UOpen (str "lf1") 0);
  fail_if (0 <=? r) (ln "unlinked lf1 but it is still there!") [];;
  fd ← sys (UOpen (str "lf2") 0);
  fail_if (fd <? 0) (ln "open lf2 failed") [];;
  '(r, bs) ← sys_bytes (URead fd sizeof_buf);
  fail_if (negb (r =? 5)) (ln "read lf2 failed") [];;
  sys (UClose fd);;
  r ← sys (ULink (str "lf2") (str "lf2"));
  fail_if (0 <=? r) (ln "link lf2 lf2 succeeded! oops") [];;
  sys (UUnlink (str "lf2"));;
  r ← sys (ULink (str "lf2") (str "lf1"));
  fail_if (0 <=? r) (ln "link non-existant succeeded! oops") [];;
  r ← sys (ULink (str ".") (str "lf1"));
  fail_if (0 <=? r) (ln "link . lf1 succeeded! oops") [];;
  printf 1 (ln "linktest ok") [];;
  mret (fill bs buf).

(** One of the forty files: parent and child both make it, or a link to C0. *)
Definition concreate_make (i : Z) : prog unit :=
  let file := [67; 48 + i] in
  sys (UUnlink file);;
  pid ← sys UFork;
  (if negb (pid =? 0) && (i mod 3 =? 1) then sys (ULink (str "C0") file);; mret tt
   else if (pid =? 0) && (i mod 5 =? 1) then sys (ULink (str "C0") file);; mret tt
   else
     fd ← sys (UOpen file (Z.lor O_CREATE O_RDWR));
     fail_if (fd <? 0) (ln "concreate create %s failed") [UStr (Some file)];;
     sys (UClose fd);;
     mret tt);;
  if pid =? 0 then exit_ else sys UWait;; mret tt.

(** [de] keeps what a short read leaves of it. *)
Fixpoint concreate_scan (k : nat) (fd : Z) (de fa : list Z) (n : Z) : prog Z :=
  match k with
  | O => Stuck
  | S k =>
      '(r, bs) ← sys_bytes (URead fd 16);
      let de := fill bs de in
      if r <=? 0 then mret n else
      if get16 de 0 =? 0 then concreate_scan k fd de fa n else
      let name := drop 2 de in
      if (name !!! 0%nat =? 67) && (name !!! 2%nat =? 0) then
        let i := s8 (name !!! 1%nat) - 48 in
        fail_if ((i <? 0) || (40 <=? i)) (ln "concreate weird file %s") [UStr (Some (cstr name 14))];;
        fail_if (negb (fa !!! Z.to_nat i =? 0)) (ln "concreate duplicate file %s") [UStr (Some (cstr name 14))];;
        concreate_scan k fd de (<[Z.to_nat i := 1]> fa) (n + 1)
      else concreate_scan k fd de fa n
  end.

Definition times4 (p : prog unit) : prog unit := p;; p;; p;; p.

Definition concreate_remove (i : Z) : prog unit :=
  let file := [67; 48 + i] in
  pid ← sys UFork;
  fail_if (pid <? 0) (ln "fork failed") [];;
  (if ((i mod 3 =? 0) && (pid =? 0)) || ((i mod 3 =? 1) && negb (pid =? 0)) then
     times4 (fd ← sys (UOpen file 0); sys (UClose fd);; mret tt)
   else times4 (sys (UUnlink file);; mret tt));;
  if pid =? 0 then exit_ else sys UWait;; mret tt.

Definition concreate : prog unit :=
  printf 1 (ln "concreate test") [];;
  eachP concreate_make (seqZ 0 40);;
  fd ← sys (UOpen (str ".") 0);
  n ← concreate_scan fuel fd (replicate 16 0) (replicate 40 0) 0;
  sys (UClose fd);;
  fail_if (negb (n =? 40)) (ln "concreate not enough files in directory listing") [];;
  eachP concreate_remove (seqZ 0 40);;
  printf 1 (ln "concreate ok") [].

Definition linkunlink : prog unit :=
  printf 1 (ln "linkunlink test") [];;
  sys (UUnlink (str "x"));;
  pid ← sys UFork;
  fail_if (pid <? 0) (ln "fork failed") [];;
  foldP (λ x _,
    let x := u32 (x * 1103515245 + 12345) in
    (if x mod 3 =? 0 then fd ← sys (UOpen (str "x") (Z.lor O_RDWR O_CREATE)); sys (UClose fd)
     else if x mod 3 =? 1 then sys (ULink (str "cat") (str "x"))
     else sys (UUnlink (str "x")));;
    mret x) (if pid =? 0 then 97 else 1) (seqZ 0 100);;
  (if pid =? 0 then exit_ else sys UWait);;
  printf 1 (ln "linkunlink ok") [].

Definition bigdir_name (i : Z) : list Z := [120; 48 + i / 64; 48 + i mod 64].

Definition bigdir : prog unit :=
  printf 1 (ln "bigdir test") [];;
  sys (UUnlink (str "bd"));;
  fd ← sys (UOpen (str "bd") O_CREATE);
  fail_if (fd <? 0) (ln "bigdir create failed") [];;
  sys (UClose fd);;
  eachP (λ i,
    r ← sys (ULink (str "bd") (bigdir_name i));
    fail_if (negb (r =? 0)) (ln "bigdir link failed") []) (seqZ 0 500);;
  sys (UUnlink (str "bd"));;
  eachP (λ i,
    r ← sys (UUnlink (bigdir_name i));
    fail_if (negb (r =? 0)) (str "bigdir unlink failed") []) (seqZ 0 500);;
  printf 1 (ln "bigdir ok") [].

(** Directories in directories: the first half makes them and files in them and
    moves about. *)
Definition subdir_make (buf : list Z) : prog (list Z) :=
  printf 1 (ln "subdir test") [];;
  sys (UUnlink (str "ff"));;
  r ← sys (UMkdir (str "dd"));
  fail_if (negb (r =? 0)) (ln "subdir mkdir dd failed") [];;
  fd ← sys (UOpen (str "dd/ff") (Z.lor O_CREATE O_RDWR));
  fail_if (fd <? 0) (ln "create dd/ff failed") [];;
  sys (UWrite fd (str "ff"));;
  sys (UClose fd);;
  r ← sys (UUnlink (str "dd"));
  fail_if (0 <=? r) (ln "unlink dd (non-empty dir) succeeded!") [];;
  r ← sys (UMkdir (str "/dd/dd"));
  fail_if (negb (r =? 0)) (ln "subdir mkdir dd/dd failed") [];;
  fd ← sys (UOpen (str "dd/dd/ff") (Z.lor O_CREATE O_RDWR));
  fail_if (fd <? 0) (ln "create dd/dd/ff failed") [];;
  sys (UWrite fd (str "FF"));;
  sys (UClose fd);;
  fd ← sys (UOpen (str "dd/dd/../ff") 0);
  fail_if (fd <? 0) (ln "open dd/dd/../ff failed") [];;
  '(cc, bs) ← sys_bytes (URead fd sizeof_buf);
  let buf := fill bs buf in
  fail_if (negb (cc =? 2) || negb (buf !!! 0%nat =? 102)) (ln "dd/dd/../ff wrong content") [];;
  sys (UClose fd);;
  r ← sys (ULink (str "dd/dd/ff") (str "dd/dd/ffff"));
  fail_if (negb (r =? 0)) (ln "link dd/dd/ff dd/dd/ffff failed") [];;
  r ← sys (UUnlink (str "dd/dd/ff"));
  fail_if (negb (r =? 0)) (ln "unlink dd/dd/ff failed") [];;
  r ← sys (UOpen (str "dd/dd/ff") O_RDONLY);
  fail_if (0 <=? r) (ln "open (unlinked) dd/dd/ff succeeded") [];;
  r ← sys (UChdir (str "dd"));
  fail_if (negb (r =? 0)) (ln "chdir dd failed") [];;
  r ← sys (UChdir (str "dd/../../dd"));
  fail_if (negb (r =? 0)) (ln "chdir dd/../../dd failed") [];;
  r ← sys (UChdir (str "dd/../../../dd"));
  fail_if (negb (r =? 0)) (ln "chdir dd/../../dd failed") [];;
  r ← sys (UChdir (str "./.."));
  fail_if (negb (r =? 0)) (ln "chdir ./.. failed") [];;
  fd ← sys (UOpen (str "dd/dd/ffff") 0);
  fail_if (fd <? 0) (ln "open dd/dd/ffff failed") [];;
  '(r, bs) ← sys_bytes (URead fd sizeof_buf);
  let buf := fill bs buf in
  fail_if (negb (r =? 2)) (ln "read dd/dd/ffff wrong len") [];;
  sys (UClose fd);;
  mret buf.

(** The second half tries what must fail, then removes everything. *)
Definition subdir_refuse : prog unit :=
  r ← sys (UOpen (str "dd/dd/ff") O_RDONLY);
  fail_if (0 <=? r) (ln "open (unlinked) dd/dd/ff succeeded!") [];;
  r ← sys (UOpen (str "dd/ff/ff") (Z.lor O_CREATE O_RDWR));
  fail_if (0 <=? r) (ln "create dd/ff/ff succeeded!") [];;
  r ← sys (UOpen (str "dd/xx/ff") (Z.lor O_CREATE O_RDWR));
  fail_if (0 <=? r) (ln "create dd/xx/ff succeeded!") [];;
  r ← sys (UOpen (str "dd") O_CREATE);
  fail_if (0 <=? r) (ln "create dd succeeded!") [];;
  r ← sys (UOpen (str "dd") O_RDWR);
  fail_if (0 <=? r) (ln "open dd rdwr succeeded!") [];;
  r ← sys (UOpen (str "dd") O_WRONLY);
  fail_if (0 <=? r) (ln "open dd wronly succeeded!") [];;
  r ← sys (ULink (str "dd/ff/ff") (str "dd/dd/xx"));
  fail_if (r =? 0) (ln "link dd/ff/ff dd/dd/xx succeeded!") [];;
  r ← sys (ULink (str "dd/xx/ff") (str "dd/dd/xx"));
  fail_if (r =? 0) (ln "link dd/xx/ff dd/dd/xx succeeded!") [];;
  r ← sys (ULink (str "dd/ff") (str "dd/dd/ffff"));
  fail_if (r =? 0) (ln "link dd/ff dd/dd/ffff succeeded!") [];;
  r ← sys (UMkdir (str "dd/ff/ff"));
  fail_if (r =? 0) (ln "mkdir dd/ff/ff succeeded!") [];;
  r ← sys (UMkdir (str "dd/xx/ff"));
  fail_if (r =? 0) (ln "mkdir dd/xx/ff succeeded!") [];;
  r ← sys (UMkdir (str "dd/dd/ffff"));
  fail_if (r =? 0) (ln "mkdir dd/dd/ffff succeeded!") [];;
  r ← sys (UUnlink (str "dd/xx/ff"));
  fail_if (r =? 0) (ln "unlink dd/xx/ff succeeded!") [];;
  r ← sys (UUnlink (str "dd/ff/ff"));
  fail_if (r =? 0) (ln "unlink dd/ff/ff succeeded!") [];;
  r ← sys (UChdir (str "dd/ff"));
  fail_if (r =? 0) (ln "chdir dd/ff succeeded!") [];;
  r ← sys (UChdir (str "dd/xx"));
  fail_if (r =? 0) (ln "chdir dd/xx succeeded!") [];;
  r ← sys (UUnlink (str "dd/dd/ffff"));
  fail_if (negb (r =? 0)) (ln "unlink dd/dd/ff failed") [];;
  r ← sys (UUnlink (str "dd/ff"));
  fail_if (negb (r =? 0)) (ln "unlink dd/ff failed") [];;
  r ← sys (UUnlink (str "dd"));
  fail_if (r =? 0) (ln "unlink non-empty dd succeeded!") [];;
  r ← sys (UUnlink (str "dd/dd"));
  fail_if (r <? 0) (ln "unlink dd/dd failed") [];;
  r ← sys (UUnlink (str "dd"));
  fail_if (r <? 0) (ln "unlink dd failed") [];;
  printf 1 (ln "subdir ok") [].

Definition subdir (buf : list Z) : prog (list Z) :=
  buf ← subdir_make buf;
  subdir_refuse;;
  mret buf.

Definition bigwrite (buf : list Z) : prog unit :=
  printf 1 (ln "bigwrite test") [];;
  sys (UUnlink (str "bigwrite"));;
  eachP (λ sz,
    fd ← sys (UOpen (str "bigwrite") (Z.lor O_CREATE O_RDWR));
    fail_if (fd <? 0) (ln "cannot create bigwrite") [];;
    eachP (λ _,
      cc ← sys (UWrite fd (take (Z.to_nat sz) buf));
      fail_if (negb (cc =? sz)) (ln "write(%d) ret %d") [UInt sz; UInt cc]) (seqZ 0 2);;
    sys (UClose fd);;
    sys (UUnlink (str "bigwrite"));;
    mret tt) (range 499 (12 * 512) 471);;
  printf 1 (ln "bigwrite ok") [].

Fixpoint bigfile_read (k : nat) (fd : Z) (buf : list Z) (i total : Z) : prog (list Z * Z) :=
  match k with
  | O => Stuck
  | S k =>
      '(cc, bs) ← sys_bytes (URead fd 300);
      let buf := fill bs buf in
      fail_if (cc <? 0) (ln "read bigfile failed") [];;
      if cc =? 0 then mret (buf, total) else
      fail_if (negb (cc =? 300)) (ln "short read bigfile") [];;
      fail_if (negb (s8 (buf !!! 0%nat) =? i / 2) || negb (s8 (buf !!! 299%nat) =? i / 2)) (ln "read bigfile wrong data") [];;
      bigfile_read k fd buf (i + 1) (total + cc)
  end.

Definition bigfile (buf : list Z) : prog (list Z) :=
  printf 1 (ln "bigfile test") [];;
  sys (UUnlink (str "bigfile"));;
  fd ← sys (UOpen (str "bigfile") (Z.lor O_CREATE O_RDWR));
  fail_if (fd <? 0) (str "cannot create bigfile") [];;
  buf ← foldP (λ buf i,
    let buf := fill (replicate 600 i) buf in
    r ← sys (UWrite fd (take 600 buf));
    fail_if (negb (r =? 600)) (ln "write bigfile failed") [];;
    mret buf) buf (seqZ 0 20);
  sys (UClose fd);;
  fd ← sys (UOpen (str "bigfile") 0);
  fail_if (fd <? 0) (ln "cannot open bigfile") [];;
  '(buf, total) ← bigfile_read fuel fd buf 0 0;
  sys (UClose fd);;
  fail_if (negb (total =? 20 * 600)) (ln "read bigfile wrong total") [];;
  sys (UUnlink (str "bigfile"));;
  printf 1 (ln "bigfile test ok") [];;
  mret buf.

Definition fourteen : prog unit :=
  printf 1 (ln "fourteen test") [];;
  r ← sys (UMkdir (str "12345678901234"));
  fail_if (negb (r =? 0)) (ln "mkdir 12345678901234 failed") [];;
  r ← sys (UMkdir (str "12345678901234/123456789012345"));
  fail_if (negb (r =? 0)) (ln "mkdir 12345678901234/123456789012345 failed") [];;
  fd ← sys (UOpen (str "123456789012345/123456789012345/123456789012345") O_CREATE);
  fail_if (fd <? 0) (ln "create 123456789012345/123456789012345/123456789012345 failed") [];;
  sys (UClose fd);;
  fd ← sys (UOpen (str "12345678901234/12345678901234/12345678901234") 0);
  fail_if (fd <? 0) (ln "open 12345678901234/12345678901234/12345678901234 failed") [];;
  sys (UClose fd);;
  r ← sys (UMkdir (str "12345678901234/12345678901234"));
  fail_if (r =? 0) (ln "mkdir 12345678901234/12345678901234 succeeded!") [];;
  r ← sys (UMkdir (str "123456789012345/12345678901234"));
  fail_if (r =? 0) (ln "mkdir 12345678901234/123456789012345 succeeded!") [];;
  printf 1 (ln "fourteen ok") [].

Definition rmdot : prog unit :=
  printf 1 (ln "rmdot test") [];;
  r ← sys (UMkdir (str "dots"));
  fail_if (negb (r =? 0)) (ln "mkdir dots failed") [];;
  r ← sys (UChdir (str "dots"));
  fail_if (negb (r =? 0)) (ln "chdir dots failed") [];;
  r ← sys (UUnlink (str "."));
  fail_if (r =? 0) (ln "rm . worked!") [];;
  r ← sys (UUnlink (str ".."));
  fail_if (r =? 0) (ln "rm .. worked!") [];;
  r ← sys (UChdir (str "/"));
  fail_if (negb (r =? 0)) (ln "chdir / failed") [];;
  r ← sys (UUnlink (str "dots/."));
  fail_if (r =? 0) (ln "unlink dots/. worked!") [];;
  r ← sys (UUnlink (str "dots/.."));
  fail_if (r =? 0) (ln "unlink dots/.. worked!") [];;
  r ← sys (UUnlink (str "dots"));
  fail_if (negb (r =? 0)) (ln "unlink dots failed!") [];;
  printf 1 (ln "rmdot ok") [].

Definition dirfile : prog unit :=
  printf 1 (ln "dir vs file") [];;
  fd ← sys (UOpen (str "dirfile") O_CREATE);
  fail_if (fd <? 0) (ln "create dirfile failed") [];;
  sys (UClose fd);;
  r ← sys (UChdir (str "dirfile"));
  fail_if (r =? 0) (ln "chdir dirfile succeeded!") [];;
  fd ← sys (UOpen (str "dirfile/xx") 0);
  fail_if (0 <=? fd) (ln "create dirfile/xx succeeded!") [];;
  fd ← sys (UOpen (str "dirfile/xx") O_CREATE);
  fail_if (0 <=? fd) (ln "create dirfile/xx succeeded!") [];;
  r ← sys (UMkdir (str "dirfile/xx"));
  fail_if (r =? 0) (ln "mkdir dirfile/xx succeeded!") [];;
  r ← sys (UUnlink (str "dirfile/xx"));
  fail_if (r =? 0) (ln "unlink dirfile/xx succeeded!") [];;
  r ← sys (ULink (str "README") (str "dirfile/xx"));
  fail_if (r =? 0) (ln "link to dirfile/xx succeeded!") [];;
  r ← sys (UUnlink (str "dirfile"));
  fail_if (negb (r =? 0)) (ln "unlink dirfile failed!") [];;
  fd ← sys (UOpen (str ".") O_RDWR);
  fail_if (0 <=? fd) (ln "open . for writing succeeded!") [];;
  fd ← sys (UOpen (str ".") 0);
  r ← sys (UWrite fd (str "x"));
  fail_if (0 <? r) (ln "write . succeeded!") [];;
  sys (UClose fd);;
  printf 1 (ln "dir vs file OK") [].

Definition iref : prog unit :=
  printf 1 (ln "empty file name") [];;
  eachP (λ _,
    r ← sys (UMkdir (str "irefd"));
    fail_if (negb (r =? 0)) (ln "mkdir irefd failed") [];;
    r ← sys (UChdir (str "irefd"));
    fail_if (negb (r =? 0)) (ln "chdir irefd failed") [];;
    sys (UMkdir []);;
    sys (ULink (str "README") []);;
    fd ← sys (UOpen [] O_CREATE);
    whenP (0 <=? fd) (sys (UClose fd);; mret tt);;
    fd ← sys (UOpen (str "xx") O_CREATE);
    whenP (0 <=? fd) (sys (UClose fd);; mret tt);;
    sys (UUnlink (str "xx"));;
    mret tt) (seqZ 0 (50 + 1));;
  sys (UChdir (str "/"));;
  printf 1 (ln "empty file name OK") [].

(** * Running out of processes and memory *)

Fixpoint forktest_wait (n : nat) : prog unit :=
  match n with
  | O => mret tt
  | S n =>
      r ← sys UWait;
      fail_if (r <? 0) (ln "wait stopped early") [];;
      forktest_wait n
  end.

Definition forktest : prog unit :=
  printf 1 (ln "fork test") [];;
  n ← forktest_forks 1000 0;
  fail_if (n =? 1000) (ln "fork claimed to work 1000 times!") [];;
  forktest_wait (Z.to_nat n);;
  r ← sys UWait;
  fail_if (negb (r =? -1)) (ln "wait got too many") [];;
  printf 1 (ln "fork test OK") [].

Definition BIG : Z := 100 * 1024 * 1024.

(** A byte at a time, and after a fork. *)
Definition sbrk_small : prog unit :=
  a ← sys (USbrk 0);
  a ← foldP (λ a i,
    b ← sys (USbrk 1);
    fail_if (negb (b =? a)) (ln "sbrk test failed %d %x %x") [UInt i; UInt a; UInt b];;
    sys (UStore b [1]);;
    mret (b + 1)) a (seqZ 0 5000);
  pid ← sys UFork;
  fail_if (pid <? 0) (ln "sbrk test fork failed") [];;
  sys (USbrk 1);;
  c ← sys (USbrk 1);
  fail_if (negb (c =? a + 1)) (ln "sbrk test failed post-fork") [];;
  whenP (pid =? 0) exit_;;
  sys UWait;;
  mret tt.

(** Up to [BIG], a page back, that page again, and down to [oldbrk]. *)
Definition sbrk_big (oldbrk : Z) : prog unit :=
  a ← sys (USbrk 0);
  p ← sys (USbrk (s32 (u32 (BIG - u32 a))));
  fail_if (negb (p =? a)) (ln "sbrk test failed to grow big address space; enough phys mem?") [];;
  let lastaddr := BIG - 1 in
  sys (UStore lastaddr [99]);;
  a ← sys (USbrk 0);
  c ← sys (USbrk (-4096));
  fail_if (c =? -1) (ln "sbrk could not deallocate") [];;
  c ← sys (USbrk 0);
  fail_if (negb (c =? a - 4096)) (ln "sbrk deallocation produced wrong address, a %x c %x") [UInt a; UInt c];;
  a ← sys (USbrk 0);
  c ← sys (USbrk 4096);
  ok ← (if negb (c =? a) then mret false else b ← sys (USbrk 0); mret (b =? a + 4096));
  fail_if (negb ok) (ln "sbrk re-allocation failed, a %x c %x") [UInt a; UInt c];;
  '(_, bs) ← sys_bytes (ULoad lastaddr 1);
  fail_if (bool_decide (bs = [99])) (ln "sbrk de-allocation didn't really deallocate") [];;
  a ← sys (USbrk 0);
  b ← sys (USbrk 0);
  c ← sys (USbrk (s32 (- (b - oldbrk))));
  fail_if (negb (c =? a)) (ln "sbrk downsize failed, a %x c %x") [UInt a; UInt c].

(** A child that reads the kernel's memory at [a]. *)
Definition sbrk_kernel (a : Z) : prog unit :=
  ppid ← sys UGetpid;
  pid ← sys UFork;
  fail_if (pid <? 0) (ln "fork failed") [];;
  whenP (pid =? 0) (
    '(_, bs) ← sys_bytes (ULoad a 1);
    printf stdout (ln "oops could read %x = %x") [UInt a; UInt (s8 (bs !!! 0%nat))];;
    sys (UKill ppid);;
    exit_);;
  sys UWait;;
  mret tt.

(** [for (;;) sleep(1000)]. *)
Fixpoint sit_around (k : nat) : prog unit :=
  match k with
  | O => Stuck
  | S k => sys (USleep 1000);; sit_around k
  end.

(** Ten children take what memory there is; the result is what [sbrk] says
    after that. *)
Definition sbrk_oom : prog unit :=
  '(r, bs) ← sys_bytes UPipe;
  fail_if (negb (r =? 0)) (ln "pipe() failed") [];;
  let '(fd0, fd1) := pipe_fds bs in
  pids ← foldP (λ pids _,
    pid ← sys UFork;
    whenP (pid =? 0) (
      b ← sys (USbrk 0);
      sys (USbrk (s32 (u32 (BIG - u32 b))));;
      sys (UWrite fd1 (str "x"));;
      sit_around fuel);;
    whenP (negb (pid =? -1)) (sys (URead fd0 1);; mret tt);;
    mret (pids ++ [pid])) [] (seqZ 0 10);
  c ← sys (USbrk 4096);
  eachP (λ pid, whenP (negb (pid =? -1)) (sys (UKill pid);; sys UWait;; mret tt)) pids;;
  fail_if (c =? -1) (ln "failed sbrk leaked memory") [].

Definition sbrktest : prog unit :=
  printf stdout (ln "sbrk test") [];;
  oldbrk ← sys (USbrk 0);
  sbrk_small;;
  sbrk_big oldbrk;;
  eachP sbrk_kernel (range 0xffff800000000000 (0xffff800000000000 + 2000000) 50000);;
  sbrk_oom;;
  b ← sys (USbrk 0);
  whenP (oldbrk <? b) (b ← sys (USbrk 0); sys (USbrk (s32 (- (b - oldbrk))));; mret tt);;
  printf stdout (ln "sbrk test OK") [].

(** * Bad arguments *)

(** The call takes its argument from [rdi], not from the stack at [p]. *)
Definition validateint (rdi : Z → Z) (p : Z) : prog unit := sys (USleep (s32 (rdi p)));; mret tt.

Definition validatetest (rdi : Z → Z) : prog unit :=
  printf stdout (ln "validate test") [];;
  let hi := 1100 * 1024 in
  eachP (λ p,
    pid ← sys UFork;
    whenP (pid =? 0) (validateint rdi p;; exit_);;
    sys (USleep 0);;
    sys (USleep 0);;
    sys (UKill pid);;
    sys UWait;;
    r ← sys (ULinkAt (str "nosuchfile") p);
    fail_if (negb (r =? -1)) (ln "link should not succeed") []) (range 0 (hi + 1) 4096);;
  printf stdout (ln "validate ok") [].

Definition bsstest (uninit : list Z) : prog unit :=
  printf stdout (ln "bss test") [];;
  fail_if (negb (forallb (λ b, b =? 0) uninit)) (ln "bss test failed") [];;
  printf stdout (ln "bss test ok") [].

Definition bigarg : list Z := ln "bigargs test: failed" ++ replicate 199 32.

Definition bigargtest : prog unit :=
  sys (UUnlink (str "bigarg-ok"));;
  pid ← sys UFork;
  (if pid =? 0 then
     printf stdout (ln "bigarg test") [];;
     sys (UExec (str "echo") (replicate (Z.to_nat (MAXARG - 1)) bigarg));;
     printf stdout (ln "bigarg test ok") [];;
     fd ← sys (UOpen (str "bigarg-ok") O_CREATE);
     sys (UClose fd);;
     exit_
   else fail_if (pid <? 0) (ln "bigargtest: fork failed") []);;
  sys UWait;;
  fd ← sys (UOpen (str "bigarg-ok") 0);
  fail_if (fd <? 0) (ln "bigarg test failed!") [];;
  sys (UClose fd);;
  sys (UUnlink (str "bigarg-ok"));;
  mret tt.

(** * A full disk *)

Definition fsfull_name (nfiles : Z) : list Z :=
  [102; u8 (48 + nfiles / 1000); 48 + nfiles mod 1000 / 100; 48 + nfiles mod 100 / 10; 48 + nfiles mod 10].

Fixpoint fsfull_write (k : nat) (fd : Z) (buf : list Z) (total : Z) : prog Z :=
  match k with
  | O => Stuck
  | S k =>
      cc ← sys (UWrite fd (take 512 buf));
      if cc <? 512 then mret total else fsfull_write k fd buf (total + cc)
  end.

Fixpoint fsfull_files (k : nat) (buf : list Z) (nfiles : Z) : prog Z :=
  match k with
  | O => Stuck
  | S k =>
      let name := fsfull_name nfiles in
      printf 1 (ln "writing %s") [UStr (Some name)];;
      fd ← sys (UOpen name (Z.lor O_CREATE O_RDWR));
      if fd <? 0 then printf 1 (ln "open %s failed") [UStr (Some name)];; mret nfiles else
      total ← fsfull_write fuel fd buf 0;
      printf 1 (ln "wrote %d bytes") [UInt total];;
      sys (UClose fd);;
      if total =? 0 then mret nfiles else fsfull_files k buf (nfiles + 1)
  end.

Definition fsfull (buf : list Z) : prog unit :=
  printf 1 (ln "fsfull test") [];;
  nfiles ← fsfull_files fuel buf 0;
  eachP (λ n, sys (UUnlink (fsfull_name n));; mret tt) (reverse (seqZ 0 (nfiles + 1)));;
  printf 1 (ln "fsfull test finished") [].

(** * Ports *)

Definition RTC_ADDR : Z := 0x70.
Definition RTC_DATA : Z := 0x71.

Definition uio : prog unit :=
  printf 1 (ln "uio test") [];;
  pid ← sys UFork;
  (if pid =? 0 then
     sys (UOutb RTC_ADDR 0x09);;
     sys (UInb RTC_DATA);;
     printf 1 (ln "uio: uio succeeded; test FAILED") [];;
     exit_
   else fail_if (pid <? 0) (ln "fork failed") []);;
  sys UWait;;
  printf 1 (ln "uio test done") [].

Definition argptest : prog unit :=
  fd ← sys (UOpen (str "init") O_RDONLY);
  (if fd <? 0 then printf 2 (ln "open failed") [];; exit_ else mret tt);;
  b ← sys (USbrk 0);
  sys (UReadAt fd (b - 1) (-1));;
  sys (UClose fd);;
  printf 1 (ln "arg test passed") [].

(** The value and the new [randstate]. *)
Definition rand (randstate : Z) : Z * Z :=
  let randstate := u64 (randstate * 1664525 + 1013904223) in
  (u32 randstate, randstate).

(** * All of them *)

Definition usertests_main (base : Z) (rdi : Z → Z) : prog unit :=
  printf 1 (ln "usertests starting") [];;
  fd ← sys (UOpen (str "usertests.ran") 0);
  fail_if (0 <=? fd) (ln "already ran user tests -- rebuild fs.img") [];;
  fd ← sys (UOpen (str "usertests.ran") O_CREATE);
  sys (UClose fd);;
  let buf := replicate (Z.to_nat sizeof_buf) 0 in
  argptest;; createdelete;; linkunlink;; concreate;;
  buf ← fourfiles buf;
  sharedfd;;
  bigargtest;; bigwrite buf;; bigargtest;; bsstest (replicate 10000 0);; sbrktest;; validatetest rdi;;
  opentest;;
  buf ← writetest buf;
  buf ← writetest1 buf;
  createtest;;
  openiputtest;; exitiputtest;; iputtest;;
  mem base;;
  buf ← pipe1 buf;
  buf ← preempt buf;
  exitwait;;
  rmdot;; fourteen;;
  buf ← bigfile buf;
  buf ← subdir buf;
  buf ← linktest buf;
  unlinkread buf;;
  dirfile;; iref;; forktest;; bigdir;;
  uio;;
  exectest;;
  exit_.
End tests.
