(* ===== verification/Sh.v ===== *)
(** The shell, user/sh.c.

    The parser works on the line it read, [text]; a position in it is the
    number of the character, and what is left to parse is a suffix of [text].
    The nodes of the tree hold positions, as the pointers of the source do, and
    [nulterminate] writes the NULs into the line afterwards. [malloc] is taken
    to succeed.

    It is shown here that [runcmd] never returns; ShParse.v is about the
    parser. *)

From stdpp Require Import base list sets strings.
From Stdlib Require Import ZArith Lia.
From S2P Require Import Prelude CString Bytes Ucall Ulib.

(** * Commands *)

(** A token: where it starts and where it ends. *)
Notation token := (nat * nat)%type.

(** The nodes, over what stands for a string: a token of the line, or the
    string itself. *)
Inductive cmd (T : Type) :=
| EXEC (argv : list T)
| REDIR (c : cmd T) (file : T) (mode fd : Z)
| PIPE (lcmd rcmd : cmd T)
| LIST (lcmd rcmd : cmd T)
| BACK (c : cmd T).
Arguments EXEC {T} argv.
Arguments REDIR {T} c file mode fd.
Arguments PIPE {T} lcmd rcmd.
Arguments LIST {T} lcmd rcmd.
Arguments BACK {T} c.

Definition MAXARGS : nat := 10.

(** What a parsing function does: go on, [panic], or run out of fuel. *)
Inductive parse (A : Type) := Parsed (a : A) | Panics (msg : list Z) | NoFuel.
Arguments Parsed {A} a.
Arguments Panics {A} msg.
Arguments NoFuel {A}.

#[global] Instance parse_ret : MRet parse := λ A a, Parsed a.
#[global] Instance parse_bind : MBind parse := λ A B f p,
  match p with
  | Parsed a => f a
  | Panics msg => Panics msg
  | NoFuel => NoFuel
  end.

(** * The parser *)

Definition whitespace : list Z := [32; 9; 13; 10; 11].
Definition symbols : list Z := str "<|>&;()".

Definition is_white (c : Z) : bool := bool_decide (is_Some (strchr whitespace c)).
Definition is_symbol (c : Z) : bool := bool_decide (is_Some (strchr symbols c)).
Definition is_word (c : Z) : bool := negb (is_white c) && negb (is_symbol c).

Fixpoint skip (p : Z → bool) (s : list Z) : list Z :=
  match s with
  | [] => []
  | c :: s' => if p c then skip p s' else s
  end.

(** The kind of the token at [s], and what follows it. *)
Definition token_at (s : list Z) : Z * list Z :=
  match s with
  | [] => (0, [])
  | c :: s' =>
      if bool_decide (c ∈ str "|();&<") then (c, s')
      else if c =? 62 then
        match s' with
        | c' :: s'' => if c' =? 62 then (43, s'') else (62, s')
        | [] => (62, [])
        end
      else (97, skip is_word s)
  end.

(** The redirections wrap the command, the last one outermost. In [parseexec]
    they wrap the EXEC node before all its arguments are stored in it. *)
Definition wrap {T} (c : cmd T) (rs : list (T * Z * Z)) : cmd T := foldl (λ c '(file, mode, fd), REDIR c file mode fd) c rs.

Section parser.
Context (len : nat).

(** The number of the character at which the suffix [s] starts. *)
Definition at_ (s : list Z) : nat := (len - length s)%nat.

Definition gettoken (s : list Z) : Z * token * list Z :=
  let s := skip is_white s in
  let '(ret, e) := token_at s in
  (ret, (at_ s, at_ e), skip is_white e).

Definition peek (s toks : list Z) : bool * list Z :=
  let s := skip is_white s in
  (match s with [] => false | c :: _ => bool_decide (is_Some (strchr toks c)) end, s).

(** A redirection of [parseredirs]: the file, the mode and the descriptor. *)
Notation redir := (token * Z * Z)%type.

Fixpoint parseredirs (fuel : nat) (rs : list redir) (s : list Z) : parse (list redir * list Z) :=
  match fuel with
  | O => NoFuel
  | S fuel =>
      let '(b, s) := peek s (str "<>") in
      if negb b then mret (rs, s) else
      let '(tok, _, s) := gettoken s in
      let '(kind, file, s) := gettoken s in
      if negb (kind =? 97) then Panics (str "missing file for redirection") else
      let r := if tok =? 60 then (file, O_RDONLY, 0) else (file, Z.lor O_WRONLY O_CREATE, 1) in
      parseredirs fuel (rs ++ [r]) s
  end.

(** The while loop of [parseexec]. *)
Fixpoint parseargs (fuel : nat) (argv : list token) (rs : list redir) (s : list Z) : parse (list token * list redir * list Z) :=
  match fuel with
  | O => NoFuel
  | S fuel =>
      let '(b, s) := peek s (str "|)&;") in
      if b then mret (argv, rs, s) else
      let '(tok, q, s) := gettoken s in
      if tok =? 0 then mret (argv, rs, s) else
      if negb (tok =? 97) then Panics (str "syntax") else
      let argv := argv ++ [q] in
      if (MAXARGS <=? length argv)%nat then Panics (str "too many args") else
      '(rs, s) ← parseredirs fuel rs s;
      parseargs fuel argv rs s
  end.

(** The while loop of [parseline]. *)
Fixpoint parsebacks (fuel : nat) (c : cmd token) (s : list Z) : parse (cmd token * list Z) :=
  match fuel with
  | O => NoFuel
  | S fuel =>
      let '(b, s) := peek s (str "&") in
      if b then parsebacks fuel (BACK c) (gettoken s).2 else mret (c, s)
  end.

Fixpoint parseline (fuel : nat) (s : list Z) : parse (cmd token * list Z) :=
  match fuel with
  | O => NoFuel
  | S fuel =>
      '(c, s) ← parsepipe fuel s;
      '(c, s) ← parsebacks fuel c s;
      let '(b, s) := peek s (str ";") in
      if b then
        '(rcmd, s) ← parseline fuel (gettoken s).2;
        mret (LIST c rcmd, s)
      else mret (c, s)
  end
with parsepipe (fuel : nat) (s : list Z) : parse (cmd token * list Z) :=
  match fuel with
  | O => NoFuel
  | S fuel =>
      '(c, s) ← parseexec fuel s;
      let '(b, s) := peek s (str "|") in
      if b then
        '(rcmd, s) ← parsepipe fuel (gettoken s).2;
        mret (PIPE c rcmd, s)
      else mret (c, s)
  end
with parseblock (fuel : nat) (s : list Z) : parse (cmd token * list Z) :=
  match fuel with
  | O => NoFuel
  | S fuel =>
      let '(b, s) := peek s (str "(") in
      if negb b then Panics (str "parseblock") else
      '(c, s) ← parseline fuel (gettoken s).2;
      let '(b, s) := peek s (str ")") in
      if negb b then Panics (str "syntax - missing )") else
      '(rs, s) ← parseredirs fuel [] (gettoken s).2;
      mret (wrap c rs, s)
  end
with parseexec (fuel : nat) (s : list Z) : parse (cmd token * list Z) :=
  match fuel with
  | O => NoFuel
  | S fuel =>
      let '(b, s) := peek s (str "(") in
      if b then parseblock fuel s else
      '(rs, s) ← parseredirs fuel [] s;
      '(argv, rs, s) ← parseargs fuel [] rs s;
      mret (wrap (EXEC argv) rs, s)
  end.
End parser.

(** The NULs go to the ends of the tokens. *)
Fixpoint nulterminate (c : cmd token) (buf : list Z) : list Z :=
  match c with
  | EXEC argv => foldl (λ buf t, <[t.2 := 0]> buf) buf argv
  | REDIR c file _ _ => <[file.2 := 0]> (nulterminate c buf)
  | PIPE lcmd rcmd | LIST lcmd rcmd => nulterminate rcmd (nulterminate lcmd buf)
  | BACK c => nulterminate c buf
  end.

(** The tree and the line with its NULs; a syntax error gives its message and
    what is left of the line, if that is the error. *)
Definition parsecmd (fuel : nat) (text : list Z) : parse (cmd token * list Z) + list Z :=
  match parseline (length text) fuel text with
  | Parsed (c, s) =>
      match (peek s []).2 with
      | [] => inl (Parsed (c, nulterminate c (text ++ [0])))
      | s => inr s
      end
  | Panics msg => inl (Panics msg)
  | NoFuel => inl NoFuel
  end.

(** * Running commands *)

Definition panic (s : list Z) : prog unit := printf 2 (str "%s" ++ [10]) [UStr (Some s)];; exit_.

Definition fork1 : prog Z :=
  pid ← sys UFork;
  whenP (pid =? -1) (panic (str "fork"));;
  mret pid.

(** The C string at a position of the line. *)
Definition string_at (buf : list Z) (t : token) : list Z := cstr (drop t.1 buf) (length buf).

Fixpoint runcmd (buf : list Z) (c : cmd token) : prog unit :=
  match c with
  | EXEC [] => exit_
  | EXEC ((a :: _) as argv) =>
      sys (UExec (string_at buf a) (string_at buf <$> argv));;
      printf 2 (str "exec %s failed" ++ [10]) [UStr (Some (string_at buf a))];;
      exit_
  | REDIR c file mode fd =>
      sys (UClose fd);;
      r ← sys (UOpen (string_at buf file) mode);
      if r <? 0 then printf 2 (str "open %s failed" ++ [10]) [UStr (Some (string_at buf file))];; exit_ else
      runcmd buf c;;
      exit_
  | LIST lcmd rcmd =>
      pid ← fork1;
      whenP (pid =? 0) (runcmd buf lcmd);;
      sys UWait;;
      runcmd buf rcmd;;
      exit_
  | PIPE lcmd rcmd =>
      '(r, p) ← sys_bytes UPipe;
      whenP (r <? 0) (panic (str "pipe"));;
      let p0 := s32 (get32 p 0) in
      let p1 := s32 (get32 p 4) in
      pid ← fork1;
      whenP (pid =? 0) (
        sys (UClose 1);; sys (UDup p1);; sys (UClose p0);; sys (UClose p1);;
        runcmd buf lcmd);;
      pid ← fork1;
      whenP (pid =? 0) (
        sys (UClose 0);; sys (UDup p0);; sys (UClose p0);; sys (UClose p1);;
        runcmd buf rcmd);;
      sys (UClose p0);; sys (UClose p1);;
      sys UWait;; sys UWait;;
      exit_
  | BACK c =>
      pid ← fork1;
      whenP (pid =? 0) (runcmd buf c);;
      exit_
  end.

(** [getcmd]: the line, or the end of the input. *)
Definition getcmd : prog (option (list Z)) :=
  printf 2 (str "$ ") [];;
  buf ← gets 100;
  let buf := cstr buf (length buf) in
  mret (match buf with [] => None | _ => Some buf end).

(** The child: parse the line and run it. *)
Definition runline (fuel : nat) (buf : list Z) : prog unit :=
  match parsecmd fuel buf with
  | inl (Parsed (c, buf)) => runcmd buf c
  | inl (Panics msg) => panic msg
  | inl NoFuel => Stuck
  | inr s => printf 2 (str "leftovers: %s" ++ [10]) [UStr (Some s)];; panic (str "syntax")
  end.

Fixpoint sh_loop (fuel : nat) : prog unit :=
  match fuel with
  | O => Stuck
  | S fuel' =>
      line ← getcmd;
      match line with
      | None => exit_
      | Some buf =>
          if bool_decide (take 3 buf = str "cd ") then
            let dir := drop 3 (take (length buf - 1) buf) in
            r ← sys (UChdir dir);
            whenP (r <? 0) (printf 2 (str "cannot cd %s" ++ [10]) [UStr (Some dir)]);;
            sh_loop fuel'
          else
            pid ← fork1;
            whenP (pid =? 0) (runline fuel buf);;
            sys UWait;;
            sh_loop fuel'
      end
  end.

Fixpoint open_console (fuel : nat) : prog unit :=
  match fuel with
  | O => Stuck
  | S fuel =>
      fd ← sys (UOpen (str "console") O_RDWR);
      if 0 <=? fd then if 3 <=? fd then sys (UClose fd);; mret tt else open_console fuel else mret tt
  end.

Definition sh_main (fuel : nat) : prog unit := open_console fuel;; sh_loop fuel.

Section never_returns.
Context {S : Type} (answer : ucall → S → Z * list Z * S).

Definition exits {A} (p : prog A) : Prop := ∀ s, (run answer p s).1 = Exited.
Definition proceeds {A} (p : prog A) : Prop := ∀ s, (run answer p s).1 ≠ Unfinished.

Lemma exits_proceeds {A} (p : prog A) : exits p → proceeds p.
Proof. intros H s. by rewrite H. Qed.

Lemma proceeds_sys c : proceeds (sys c).
Proof. intros s. simpl. by destruct (answer c s) as [[r bs] s']. Qed.

Lemma proceeds_sys_bytes c : proceeds (sys_bytes c).
Proof. intros s. simpl. by destruct (answer c s) as [[r bs] s']. Qed.

Lemma proceeds_bind {A B} (p : prog A) (f : A → prog B) : proceeds p → (∀ a, proceeds (f a)) → proceeds (p ≫= f).
Proof.
  intros Hp Hf s. rewrite prog_run_bind. specialize (Hp s). destruct (run answer p s) as [[a| |] s']; [apply Hf|done|done].
Qed.

Lemma exits_bind {A B} (p : prog A) (f : A → prog B) : proceeds p → (∀ a, exits (f a)) → exits (p ≫= f).
Proof.
  intros Hp Hf s. rewrite prog_run_bind. specialize (Hp s). destruct (run answer p s) as [[a| |] s']; [apply Hf|done|done].
Qed.

Lemma proceeds_when b p : proceeds p → proceeds (whenP b p).
Proof. by destruct b. Qed.

Lemma proceeds_printf fd fmt args text : printf_text fmt args = Some text → proceeds (printf fd fmt args).
Proof.
  intros H. unfold printf. rewrite H. clear. induction text as [|c l IH]; [done|]. cbn [eachP].
  apply proceeds_bind; [|done]. apply proceeds_bind; [apply proceeds_sys|done].
Qed.

Lemma exits_panic msg : exits (panic msg).
Proof. apply exits_bind; [|done]. eapply proceeds_printf. done. Qed.

Lemma proceeds_fork1 : proceeds fork1.
Proof.
  apply proceeds_bind; [apply proceeds_sys|intros pid]. apply proceeds_bind; [|done]. apply proceeds_when, exits_proceeds, exits_panic.
Qed.

Hint Resolve proceeds_sys proceeds_sys_bytes proceeds_fork1 proceeds_when exits_panic exits_proceeds : prog.
Hint Extern 1 (proceeds (printf _ _ _)) => eapply proceeds_printf; done : prog.
Hint Extern 1 (proceeds (_ ≫= _)) => apply proceeds_bind; intros : prog.
Hint Extern 1 (exits exit_) => done : prog.

(** C37: [runcmd] never returns to its caller, in whatever way the system calls
    turn out, so a child of the shell never goes on to read commands. *)
Theorem runcmd_never_returns buf c : exits (runcmd buf c).
Proof.
  induction c as [[|a argv]|c IH file mode fd|l IHl r IHr|l IHl r IHr|c IH]; cbn [runcmd]; [done|..];
    repeat first [apply exits_bind; [by eauto 12 with prog|intros]|done].
  - case_match; repeat first [apply exits_bind; [by eauto 12 with prog|intros]|done].
  - destruct a as [r' p]. cbv zeta. repeat first [apply exits_bind; [by eauto 12 with prog|intros]|done].
Qed.
End never_returns.
