(* ===== verification/ShParse.v ===== *)
(** The parser of the shell: it terminates on every line, and it recovers every
    command from its printed form, with arguments and file names as the strings
    [exec] and [open] will see after [nulterminate]. *)

From stdpp Require Import base list sets strings.
From Stdlib Require Import ZArith Lia.
From S2P Require Import Prelude CString Bytes Ucall Ulib Sh.

(** * The commands as text *)

(** The command with its strings in place of the tokens. *)
Fixpoint strings (buf : list Z) (c : cmd token) : cmd (list Z) :=
  match c with
  | EXEC argv => EXEC (string_at buf <$> argv)
  | REDIR c file mode fd => REDIR (strings buf c) (string_at buf file) mode fd
  | PIPE l r => PIPE (strings buf l) (strings buf r)
  | LIST l r => LIST (strings buf l) (strings buf r)
  | BACK c => BACK (strings buf c)
  end.

Definition paren (b : bool) (s : list Z) : list Z := if b then str "( " ++ s ++ str ") " else s.
Definition print_words (ws : list (list Z)) : list Z := concat ((λ w, w ++ [32]) <$> ws).

(** A command as text, with parentheses where the grammar needs them: a line is
    at level 0, what [&] applies to at level 1, a pipe at level 2, a side of a
    pipe at level 3. *)
Fixpoint print (lvl : nat) (c : cmd (list Z)) : list Z :=
  match c with
  | EXEC argv => print_words argv
  | REDIR c file mode fd => print 3 c ++ str (if mode =? O_RDONLY then "< " else "> ") ++ file ++ [32]
  | PIPE l r => paren (2 <? lvl)%nat (print 3 l ++ str "| " ++ print 2 r)
  | BACK c => paren (1 <? lvl)%nat (print 1 c ++ str "& ")
  | LIST l r => paren (0 <? lvl)%nat (print 1 l ++ str "; " ++ print 0 r)
  end.

Definition valid_word (w : list Z) : Prop := w ≠ [] ∧ Forall (λ c, is_word c = true ∧ c ≠ 0) w.

Fixpoint valid (c : cmd (list Z)) : Prop :=
  match c with
  | EXEC argv => Forall valid_word argv ∧ (length argv < MAXARGS)%nat
  | REDIR c file mode fd =>
      valid c ∧ valid_word file ∧ (mode = O_RDONLY ∧ fd = 0 ∨ mode = Z.lor O_WRONLY O_CREATE ∧ fd = 1)
  | PIPE l r | LIST l r => valid l ∧ valid r
  | BACK c => valid c
  end.


(** * Tokens *)

Notation skipw := (skip is_white).

Section tokens.
Implicit Types (s k w : list Z) (t : token).

Lemma skip_short p s : (length (skip p s) ≤ length s)%nat.
Proof. induction s as [|c s IH]; [done|]. cbn [skip]. destruct (p c); simpl; lia. Qed.

Lemma skip_skip s : skipw (skipw s) = skipw s.
Proof. induction s as [|c s IH]; [done|]. cbn [skip]. destruct (is_white c) eqn:E; [done|]. cbn [skip]. by rewrite E. Qed.

Lemma skip_suffix p s : skip p s `suffix_of` s.
Proof. induction s as [|c s IH]; [done|]. cbn [skip]. destruct (p c); [by apply suffix_cons_r|done]. Qed.

Lemma skip_blank s : skipw (32 :: s) = skipw s.
Proof. done. Qed.

Lemma word_not_white c : is_word c = true → is_white c = false.
Proof. unfold is_word. by destruct (is_white c). Qed.

(** No word character is a symbol. *)
Lemma word_not_symbol c : is_word c = true → c ∉ symbols.
Proof.
  intros H Hin. unfold is_word, is_symbol in H. apply andb_true_iff in H as [_ H].
  assert (E : bool_decide (is_Some (strchr symbols c)) = true) by (repeat (apply elem_of_cons in Hin as [->|Hin]; [done|]); by apply not_elem_of_nil in Hin).
  by rewrite E in H.
Qed.

Lemma skip_word w k : w ≠ [] → Forall (λ c, is_word c = true) w → skipw (w ++ k) = w ++ k.
Proof. intros Hw H. destruct H as [|c w Hc H]; [done|]. cbn [app skip]. by rewrite word_not_white. Qed.

(** The character after a word. *)
Definition ends_word k : Prop := match k with [] => True | c :: _ => is_word c = false end.

Lemma skip_over w k : Forall (λ c, is_word c = true) w → ends_word k → skip is_word (w ++ k) = k.
Proof.
  intros H Hk. induction H as [|c w Hc H IH]; [|cbn [app skip]; by rewrite Hc]. destruct k as [|c k]; [done|].
  simpl in Hk. cbn [app skip]. by rewrite Hk.
Qed.

Lemma word_other c : is_white c = false → c ∉ str "|();&<" → c ≠ 62 → is_word c = true.
Proof.
  intros Hw Hs Hg. unfold is_word. rewrite Hw. cbn [negb andb]. unfold is_symbol. rewrite bool_decide_false; [done|].
  intros [q Hq]. assert (Hin : c ∈ symbols).
  { revert q Hq. generalize symbols. induction l as [|x l IH]; intros q Hq; [done|]. cbn [strchr] in Hq.
    destruct (Z.eqb_spec x c) as [->|]; [by left|right; by eapply IH]. }
  repeat (apply elem_of_cons in Hin as [->|Hin]; [first [done|set_solver]|]). by apply not_elem_of_nil in Hin.
Qed.

(** Going on from a token shortens what is left. *)
Lemma gettoken_shorter len s : (length (gettoken len s).2 ≤ length (skipw s) - 1)%nat.
Proof.
  unfold gettoken. pose proof (skip_skip s) as Hs. destruct (token_at (skipw s)) as [ret e] eqn:E. cbn [snd].
  etransitivity; [apply skip_short|]. unfold token_at in E. destruct (skipw s) as [|c s1]; [by simplify_eq|].
  assert (Hw : is_white c = false).
  { destruct (is_white c) eqn:Ew; [|done]. cbn [skip] in Hs. rewrite Ew in Hs. apply (f_equal length) in Hs.
    pose proof (skip_short is_white s1). simpl in Hs. lia. }
  case_bool_decide; [simplify_eq/=; lia|]. destruct (Z.eqb_spec c 62).
  - destruct s1 as [|c' s1]; [simplify_eq/=; lia|]. destruct (c' =? 62); simplify_eq/=; lia.
  - simplify_eq. cbn [skip]. rewrite word_other by done. pose proof (skip_short is_word s1). simpl. lia.
Qed.
End tokens.

(** * Termination *)

(** Four calls for every character, and four more. *)
Definition parse_fuel (text : list Z) : nat := (4 * length text + 4)%nat.

(** A parse ends, with at most [n] characters left. *)
Definition ends_by {A} (n : nat) (r : parse (A * list Z)) : Prop :=
  match r with
  | Parsed (_, s) => (length s ≤ n)%nat
  | Panics _ => True
  | NoFuel => False
  end.

Section termination.
Context (len : nat).
Implicit Types (s : list Z).

Lemma ends_mono {A} n m (r : parse (A * list Z)) : (n ≤ m)%nat → ends_by n r → ends_by m r.
Proof. destruct r as [[a s]| |]; simpl; [lia|done|done]. Qed.

Lemma ends_bind {A B} n m (r : parse (A * list Z)) (f : A * list Z → parse (B * list Z)) :
  ends_by n r → (∀ a s, (length s ≤ n)%nat → ends_by m (f (a, s))) → ends_by m (r ≫= f).
Proof. destruct r as [[a s]| |]; simpl; [naive_solver|done|done]. Qed.

(** What [peek] leaves is not longer; when it finds something, a token
    follows. *)
Lemma peek_length s toks : (length (peek s toks).2 ≤ length s)%nat.
Proof. apply skip_short. Qed.

Lemma peek_token s toks : (peek s toks).1 = true → (length (gettoken len (peek s toks).2).2 < length s)%nat.
Proof.
  intros H. pose proof (gettoken_shorter len (peek s toks).2) as Hg. pose proof (peek_length s toks) as Hp.
  unfold peek in *. cbn [fst snd] in *. rewrite skip_skip in Hg. destruct (skipw s) as [|c s']; [done|]. simpl in *. lia.
Qed.

Lemma token_length s : (length (gettoken len s).2 ≤ length s)%nat.
Proof. pose proof (gettoken_shorter len s). pose proof (skip_short is_white s). lia. Qed.

Lemma redirs_end fuel rs s : (length s < fuel)%nat → ends_by (length s) (parseredirs len fuel rs s).
Proof.
  revert rs s. induction fuel as [|fuel IH]; intros rs s Hf; [lia|]. cbn [parseredirs].
  pose proof (peek_token s (str "<>")) as Hp. pose proof (peek_length s (str "<>")) as Hl. destruct (peek s (str "<>")) as [b s1]. cbn [fst snd] in *.
  destruct b; [specialize (Hp eq_refl)|exact Hl]. cbn [negb]. destruct (gettoken len s1) as [[tok q1] s2]. cbn [snd] in Hp.
  pose proof (token_length s2) as Ht. destruct (gettoken len s2) as [[kind file] s3]. cbn [snd] in Ht. destruct (kind =? 97); [|done]. cbn [negb].
  eapply ends_mono; [|apply IH]; lia.
Qed.

Lemma args_end fuel argv rs s : (length s < fuel)%nat → ends_by (length s) (parseargs len fuel argv rs s).
Proof.
  revert argv rs s. induction fuel as [|fuel IH]; intros argv rs s Hf; [lia|]. cbn [parseargs].
  pose proof (peek_length s (str "|)&;")) as Hl. assert (Hs : (peek s (str "|)&;")).2 = skipw s) by done.
  destruct (peek s (str "|)&;")) as [b s1]. cbn [snd] in *. subst s1. destruct b; [exact Hl|].
  pose proof (gettoken_shorter len (skipw s)) as Ht. rewrite skip_skip in Ht. destruct (gettoken len (skipw s)) as [[tok q] s2] eqn:Eg. cbn [snd] in Ht.
  destruct (Z.eqb_spec tok 0) as [|Ht0]; [simpl; lia|]. destruct (tok =? 97); [|done]. cbn [negb]. destruct (_ <=? _)%nat; [done|].
  assert (Hne : skipw s ≠ []) by (intros E; unfold gettoken in Eg; rewrite skip_skip, E in Eg; by simplify_eq/=).
  assert (length s2 < length s)%nat by (destruct (skipw s); [done|simpl in *; lia]).
  eapply ends_bind; [apply redirs_end; lia|]. intros rs' s3 H3. eapply ends_mono; [|apply IH]; lia.
Qed.

Lemma backs_end fuel c s : (length s < fuel)%nat → ends_by (length s) (parsebacks len fuel c s).
Proof.
  revert c s. induction fuel as [|fuel IH]; intros c s Hf; [lia|]. cbn [parsebacks].
  pose proof (peek_token s (str "&")) as Hp. pose proof (peek_length s (str "&")) as Hl. destruct (peek s (str "&")) as [b s1]. cbn [fst snd] in *.
  destruct b; [specialize (Hp eq_refl)|exact Hl]. eapply ends_mono; [|apply IH]; lia.
Qed.

(** The four functions of the grammar: a level costs one unit of fuel, and four
    levels consume a character. *)
Lemma grammar_end fuel s :
  ((4 * length s + 4 ≤ fuel)%nat → ends_by (length s) (parseline len fuel s)) ∧
  ((4 * length s + 3 ≤ fuel)%nat → ends_by (length s) (parsepipe len fuel s)) ∧
  ((4 * length s + 1 ≤ fuel)%nat → ends_by (length s) (parseblock len fuel s)) ∧
  ((4 * length s + 2 ≤ fuel)%nat → ends_by (length s) (parseexec len fuel s)).
Proof.
  revert s. induction fuel as [|fuel IH]; intros s; [split_and!; lia|]. split_and!; intros Hf.
  - cbn [parseline]. eapply ends_bind; [apply (IH s); lia|]. intros c s1 H1. eapply ends_bind; [apply backs_end; lia|]. intros c' s2 H2.
    pose proof (peek_token s2 (str ";")) as Hp. pose proof (peek_length s2 (str ";")) as Hl. destruct (peek s2 (str ";")) as [b s3]. cbn [fst snd] in *.
    destruct b; [specialize (Hp eq_refl)|simpl; lia]. eapply ends_bind; [apply IH; lia|]. intros r s4 H4. simpl. lia.
  - cbn [parsepipe]. eapply ends_bind; [apply (IH s); lia|]. intros c s2 H2.
    pose proof (peek_token s2 (str "|")) as Hp. pose proof (peek_length s2 (str "|")) as Hl. destruct (peek s2 (str "|")) as [b s3]. cbn [fst snd] in *.
    destruct b; [specialize (Hp eq_refl)|simpl; lia]. eapply ends_bind; [apply IH; lia|]. intros r s4 H4. simpl. lia.
  - cbn [parseblock]. pose proof (peek_token s (str "(")) as Hp. destruct (peek s (str "(")) as [b s1]. cbn [fst snd] in *.
    destruct b; [specialize (Hp eq_refl)|done]. cbn [negb]. eapply ends_bind; [apply IH; lia|]. intros c s2 H2.
    pose proof (peek_token s2 (str ")")) as Hp2. destruct (peek s2 (str ")")) as [b s3]. cbn [fst snd] in *.
    destruct b; [specialize (Hp2 eq_refl)|done]. cbn [negb]. eapply ends_bind; [apply redirs_end; lia|]. intros rs s4 H4. simpl. lia.
  - cbn [parseexec]. pose proof (peek_length s (str "(")) as Hl. destruct (peek s (str "(")) as [b s1]. cbn [fst snd] in *.
    destruct b; [eapply ends_mono; [exact Hl|apply IH; lia]|]. eapply ends_bind; [apply redirs_end; lia|]. intros rs s2 H2.
    eapply (ends_bind (length s2)); [apply args_end; lia|]. intros [argv rs'] s3 H3. simpl. lia.
Qed.
End termination.

(** C36: the parser of the shell ends on every line: [parse_fuel] calls are
    enough. *)
Theorem parsecmd_terminates fuel text :
  (parse_fuel text ≤ fuel)%nat → parsecmd fuel text ≠ inl NoFuel.
Proof.
  unfold parse_fuel. intros Hf. unfold parsecmd. pose proof (proj1 (grammar_end (length text) fuel text) Hf) as H.
  destruct (parseline (length text) fuel text) as [[c s]| |]; [by destruct (peek s []).2|done|done].
Qed.

Lemma parsecmd_terminates_witness : parsecmd 44 (str "(((a ; | >") ≠ inl NoFuel.
Proof. apply (parsecmd_terminates 44 (str "(((a ; | >")). vm_compute. lia. Defined.

(** * Round trip *)

(** A redirection as text. *)
Notation aredir := (list Z * Z * Z)%type.
Definition print_redir (r : aredir) : list Z := str (if r.1.2 =? O_RDONLY then "< " else "> ") ++ r.1.1 ++ [32].
Definition print_redirs (rs : list aredir) : list Z := concat (print_redir <$> rs).
Definition valid_redir (r : aredir) : Prop :=
  valid_word r.1.1 ∧ (r.1.2 = O_RDONLY ∧ r.2 = 0 ∨ r.1.2 = Z.lor O_WRONLY O_CREATE ∧ r.2 = 1).

(** What follows starts with one of [toks], or nothing does. *)
Definition stops (toks k : list Z) : Prop := match skipw k with [] => True | c :: _ => c ∈ toks end.

Section roundtrip.
Context (text : list Z).
Notation len := (length text).
Implicit Types (s k w : list Z) (t : token).

(** The token [t] of the line is the word [w]. *)
Definition tok_word t w : Prop :=
  drop t.1 text = w ++ drop t.2 text ∧ (t.1 + length w = t.2)%nat ∧ (t.2 ≤ len)%nat ∧ valid_word w ∧ ends_word (drop t.2 text).

Definition redir_means (r : token * Z * Z) (a : aredir) : Prop := tok_word r.1.1 a.1.1 ∧ r.1.2 = a.1.2 ∧ r.2 = a.2.

Fixpoint means (p : cmd token) (c : cmd (list Z)) : Prop :=
  match p, c with
  | EXEC ts, EXEC ws => Forall2 tok_word ts ws
  | REDIR p t mode fd, REDIR c w mode' fd' => means p c ∧ redir_means (t, mode, fd) (w, mode', fd')
  | PIPE l r, PIPE l' r' | LIST l r, LIST l' r' => means l l' ∧ means r r'
  | BACK p, BACK c => means p c
  | _, _ => False
  end.

Lemma strchr_elem l c : is_Some (strchr l c) ↔ c ∈ l.
Proof.
  induction l as [|x l IH]; cbn [strchr]; [split; [intros [? ?]; done|intros H; by apply not_elem_of_nil in H]|].
  destruct (Z.eqb_spec x c) as [->|]; [split; [by left|by eexists]|]. rewrite IH, elem_of_cons. naive_solver.
Qed.

Lemma peek_true s c s' toks : skipw s = c :: s' → c ∈ toks → peek s toks = (true, c :: s').
Proof. intros E H. unfold peek. rewrite E, bool_decide_true; [done|by apply strchr_elem]. Qed.

Lemma peek_false s toks toks' : stops toks' s → (∀ c, c ∈ toks' → c ∉ toks) → peek s toks = (false, skipw s).
Proof.
  intros Hs H. unfold peek, stops in *. destruct (skipw s) as [|c s']; [done|]. rewrite bool_decide_false; [done|].
  rewrite strchr_elem. by apply H.
Qed.

Lemma peek_word w k toks : valid_word w → toks ⊆ symbols → peek (w ++ k) toks = (false, w ++ k).
Proof.
  intros [Hw Hc] Ht. unfold peek. rewrite skip_word; [|done|eapply Forall_impl; [exact Hc|naive_solver]].
  destruct w as [|c w]; [done|]. cbn [app]. apply Forall_cons_1 in Hc as [[Hc _] _]. rewrite bool_decide_false; [done|].
  rewrite strchr_elem. intros Hin. apply (word_not_symbol c Hc). by apply Ht.
Qed.

Lemma suffix_of_app s k : s ++ k `suffix_of` text → k `suffix_of` text.
Proof. intros [l ->]. exists (l ++ s). by rewrite app_assoc. Qed.

Lemma at_suffix s : s `suffix_of` text → drop (at_ len s) text = s ∧ (at_ len s ≤ len)%nat ∧ (at_ len s + length s = len)%nat.
Proof.
  intros [l E]. rewrite E. unfold at_. rewrite length_app. replace (length l + length s - length s)%nat with (length l) by lia.
  rewrite drop_app_length. split_and!; [done|lia|lia].
Qed.

Lemma gettoken_word w k :
  w ++ k `suffix_of` text → valid_word w → ends_word k → ∃ t, gettoken len (w ++ k) = (97, t, skipw k) ∧ tok_word t w.
Proof.
  intros Hs [Hw Hc] Hk. assert (Hc' : Forall (λ c, is_word c = true) w) by (eapply Forall_impl; [exact Hc|naive_solver]).
  unfold gettoken. rewrite skip_word by done. assert (E : token_at (w ++ k) = (97, k)).
  { unfold token_at. rewrite skip_over by done. destruct w as [|c w]; [done|]. cbn [app]. apply Forall_cons_1 in Hc' as [Hc0 _].
    pose proof (word_not_symbol c Hc0) as Hsym. rewrite bool_decide_false; [|intros Hin; apply Hsym; revert Hin; clear; unfold symbols; cbn; set_solver].
    destruct (Z.eqb_spec c 62) as [->|]; [|done]. exfalso. apply Hsym. unfold symbols. cbn. set_solver. }
  rewrite E. eexists. split; [done|]. destruct (at_suffix _ Hs) as (H1 & H2 & H3). destruct (at_suffix k (suffix_of_app w k Hs)) as (H4 & H5 & H6).
  rewrite length_app in H3. unfold tok_word. cbn [fst snd]. rewrite H1, H4. split_and!; try done; lia.
Qed.

Lemma gettoken_sym c k : c ∈ str "|();&<" → ∃ t, gettoken len (c :: k) = (c, t, skipw k).
Proof.
  intros H. unfold gettoken. assert (E : skipw (c :: k) = c :: k).
  { revert H. cbn. intros H. repeat (apply elem_of_cons in H as [->|H]; [done|]). by apply not_elem_of_nil in H. }
  rewrite E. unfold token_at. rewrite bool_decide_true by done. by eexists.
Qed.

Lemma gettoken_gt k : ∃ t, gettoken len (62 :: 32 :: k) = (62, t, skipw k).
Proof. by eexists. Qed.

(** * Simple commands *)

Lemma word_skip w k : valid_word w → skipw (w ++ k) = w ++ k.
Proof. intros [Hw Hc]. apply skip_word; [done|]. eapply Forall_impl; [exact Hc|naive_solver]. Qed.

(** The symbol of a redirection. *)
Lemma redir_sym (r : aredir) x :
  valid_redir r →
  let s := str (if r.1.2 =? O_RDONLY then "< " else "> ") ++ x in
  skipw s = s ∧ peek s (str "<>") = (true, s) ∧ (length (skipw x) < length s)%nat ∧
  ∃ c t, gettoken len s = (c, t, skipw x) ∧ ∀ f : token, (if c =? 60 then (f, O_RDONLY, 0) else (f, Z.lor O_WRONLY O_CREATE, 1)) = (f, r.1.2, r.2).
Proof.
  pose proof (skip_short is_white x) as Hl. intros [_ [[-> ->]|[-> ->]]]; cbv zeta; (split_and!; [done|done|simpl; lia|]).
  - destruct (gettoken_sym 60 (32 :: x)) as [t Et]; [cbn; set_solver|]. exists 60, t. done.
  - destruct (gettoken_gt x) as [t Et]. exists 62, t. done.
Qed.

Lemma redirs_parse rs fuel acc k :
  print_redirs rs ++ k `suffix_of` text → Forall valid_redir rs → (peek k (str "<>")).1 = false →
  (length (skipw (print_redirs rs ++ k)) < fuel)%nat →
  ∃ ts, parseredirs len fuel acc (skipw (print_redirs rs ++ k)) = Parsed (acc ++ ts, skipw k) ∧ Forall2 redir_means ts rs.
Proof.
  intros Hs Hv Hk. revert fuel acc Hs. induction Hv as [|r rs Hr Hv IH]; intros fuel acc Hs Hf.
  - exists []. rewrite app_nil_r. split; [|constructor]. destruct fuel as [|fuel]; [lia|]. cbn [parseredirs print_redirs concat fmap list_fmap app].
    unfold peek in *. cbn [fst] in Hk. rewrite skip_skip, Hk. done.
  - destruct fuel as [|fuel]; [lia|].
    assert (Ep : print_redirs (r :: rs) ++ k = str (if r.1.2 =? O_RDONLY then "< " else "> ") ++ r.1.1 ++ 32 :: print_redirs rs ++ k).
    { unfold print_redirs. cbn [fmap list_fmap concat]. unfold print_redir at 1. by rewrite <-!app_assoc. }
    rewrite Ep in *. destruct (redir_sym r (r.1.1 ++ 32 :: print_redirs rs ++ k) Hr) as (E1 & E2 & E3 & c & q & E4 & E5). cbv zeta in *.
    rewrite E1 in *. pose proof (suffix_of_app _ _ Hs) as Hs2. pose proof Hr as [Hw _]. rewrite (word_skip r.1.1) in E3, E4 by done.
    destruct (gettoken_word r.1.1 (32 :: print_redirs rs ++ k) Hs2 Hw) as (t & Et & Ht); [done|]. rewrite skip_blank in Et.
    destruct (IH fuel (acc ++ [(t, r.1.2, r.2)])) as (ts & E & Hts).
    { apply suffix_of_app in Hs2. by apply (suffix_of_app [32]) in Hs2. }
    { pose proof (skip_short is_white (print_redirs rs ++ k)). rewrite (length_app r.1.1) in E3. cbn [length] in E3. lia. }
    exists ((t, r.1.2, r.2) :: ts). split; [|by constructor].
    cbn [parseredirs]. rewrite E2. cbn [negb]. rewrite E4, Et, E5. rewrite Z.eqb_refl. cbn [negb]. by rewrite E, <-app_assoc.
Qed.

(** The end of a simple command. *)
Lemma args_stop fuel argv rs k :
  stops (str "|)&;") k → parseargs len (S fuel) argv rs (skipw k) = Parsed (argv, rs, skipw k).
Proof.
  intros H. cbn [parseargs]. unfold stops in H. destruct (skipw k) as [|c s] eqn:E.
  - done.
  - rewrite (peek_true (c :: s) c s) by (first [done|by rewrite <-E, skip_skip]). done.
Qed.

Lemma stops_no_redir k : stops (str "|)&;") k → (peek k (str "<>")).1 = false.
Proof. intros H. by rewrite (peek_false k (str "<>") (str "|)&;") H) by (cbn; set_solver). Qed.

Lemma words_cons w ws k : print_words (w :: ws) ++ k = w ++ 32 :: print_words ws ++ k.
Proof. unfold print_words. cbn [fmap list_fmap concat]. by rewrite <-!app_assoc. Qed.

Lemma args_parse ws rs fuel argv ts k :
  ws ≠ [] → print_words ws ++ print_redirs rs ++ k `suffix_of` text → Forall valid_word ws → Forall valid_redir rs → stops (str "|)&;") k →
  (length argv + length ws < MAXARGS)%nat → (length (print_words ws ++ print_redirs rs ++ k) + 1 < fuel)%nat →
  ∃ ws' rs', parseargs len fuel argv ts (print_words ws ++ print_redirs rs ++ k) = Parsed (argv ++ ws', ts ++ rs', skipw k) ∧
    Forall2 tok_word ws' ws ∧ Forall2 redir_means rs' rs.
Proof.
  intros Hne Hs Hv Hr Hk. revert fuel argv ts Hne Hs. induction Hv as [|w ws Hw Hv IH]; intros fuel argv ts Hne Hs Hlen Hf; [done|].
  destruct fuel as [|fuel]; [lia|]. rewrite words_cons in *. destruct (gettoken_word w (32 :: print_words ws ++ print_redirs rs ++ k) Hs Hw) as (t & Et & Ht); [done|].
  cbn [parseargs]. rewrite peek_word; [|done|unfold symbols; cbn; set_solver]. rewrite Et. change (97 =? 0) with false. change (97 =? 97) with true. cbn [negb]. rewrite skip_blank.
  rewrite (proj2 (Nat.leb_gt _ _)) by (rewrite length_app; simpl in *; lia). apply suffix_of_app, (suffix_of_app [32]) in Hs.
  rewrite (length_app w) in Hf. cbn [length] in Hf, Hlen. destruct ws as [|w2 ws].
  - cbn [print_words fmap list_fmap concat app] in *. pose proof (skip_short is_white (print_redirs rs ++ k)).
    destruct (redirs_parse rs fuel ts k Hs Hr (stops_no_redir k Hk) ltac:(lia)) as (rs' & E & Hrs). rewrite E. cbn [mbind parse_bind].
    destruct fuel as [|fuel]; [lia|]. rewrite args_stop by done. exists [t], rs'. split_and!; [done|by constructor|done].
  - assert (Hw2 : valid_word w2) by (by inversion Hv). rewrite words_cons, word_skip by done. rewrite <-words_cons.
    destruct (redirs_parse [] fuel ts (print_words (w2 :: ws) ++ print_redirs rs ++ k)) as (rs0 & E & H0); [done|done| | |].
    { rewrite words_cons. rewrite peek_word; [done|done|unfold symbols; cbn; set_solver]. }
    { cbn [print_redirs fmap list_fmap concat app]. pose proof (skip_short is_white (print_words (w2 :: ws) ++ print_redirs rs ++ k)). lia. }
    apply Forall2_nil_inv_r in H0 as ->. cbn [print_redirs fmap list_fmap concat app] in E. rewrite words_cons, word_skip, <-words_cons in E by done.
    rewrite E. cbn [mbind parse_bind]. rewrite app_nil_r. destruct (IH fuel (argv ++ [t]) ts) as (ws' & rs' & E' & H1 & H2); [done|done| |lia|].
    { rewrite length_app. simpl in *. lia. }
    exists (t :: ws'), rs'. rewrite E', <-app_assoc. split_and!; [done|by constructor|done].
Qed.

(** * The grammar *)

Lemma skip_grows a k : (length (skipw k) ≤ length (skipw (a ++ k)))%nat.
Proof.
  induction a as [|c a IH]; [done|]. cbn [app skip]. destruct (is_white c); [done|]. pose proof (skip_short is_white k).
  cbn [length]. rewrite length_app. lia.
Qed.

Lemma skip_keeps a c k : is_white c = false → (S (length k) ≤ length (skipw (a ++ c :: k)))%nat.
Proof. intros H. etransitivity; [|apply skip_grows]. cbn [skip]. by rewrite H. Qed.

Lemma stops_weaken toks toks' k : stops toks k → toks ⊆ toks' → stops toks' k.
Proof. unfold stops. destruct (skipw k); [done|]. intros H Hs. by apply Hs. Qed.

Lemma print_wrap c rs : print 3 (wrap c rs) = print 3 c ++ print_redirs rs.
Proof.
  unfold wrap. revert c. induction rs as [|[[w m] f] rs IH]; intros c; [by rewrite app_nil_r|]. cbn [foldl]. rewrite IH. cbn [print].
  unfold print_redirs. cbn [fmap list_fmap concat]. unfold print_redir at 2. cbn [fst snd]. by rewrite <-!app_assoc.
Qed.

Lemma means_wrap p c ts rs : means p c → Forall2 redir_means ts rs → means (wrap p ts) (wrap c rs).
Proof.
  intros Hp H. revert p c Hp. unfold wrap. induction H as [|[[t m] f] [[w m'] f'] ts rs Hr H IH]; intros p c Hp; [done|]. cbn [foldl].
  apply IH. by split.
Qed.

(** What the functions of the grammar do on a printed command; [parsepipe] and
    the loop of [parseline] together, up to what follows. *)
Definition exec_ok (c : cmd (list Z)) : Prop := ∀ fuel k,
  print 3 c ++ k `suffix_of` text → stops (str "|)&;") k → (4 * length (skipw (print 3 c ++ k)) + 2 ≤ fuel)%nat →
  ∃ p, parseexec len fuel (skipw (print 3 c ++ k)) = Parsed (p, skipw k) ∧ means p c.
Definition pipe_ok (c : cmd (list Z)) : Prop := ∀ fuel k,
  print 2 c ++ k `suffix_of` text → stops (str ")&;") k → (4 * length (skipw (print 2 c ++ k)) + 3 ≤ fuel)%nat →
  ∃ p, parsepipe len fuel (skipw (print 2 c ++ k)) = Parsed (p, skipw k) ∧ means p c.
Definition back_ok (c : cmd (list Z)) : Prop := ∀ fuel fuel' k,
  print 1 c ++ k `suffix_of` text → stops (str ")&;") k → (4 * length (skipw (print 1 c ++ k)) + 3 ≤ fuel)%nat →
  (length (skipw (print 1 c ++ k)) < fuel')%nat →
  ∃ p fuel'', (parsepipe len fuel (skipw (print 1 c ++ k)) ≫= λ '(c, s), parsebacks len fuel' c s) = parsebacks len fuel'' p (skipw k) ∧
    means p c ∧ (length (skipw k) < fuel'')%nat.
Definition line_ok (c : cmd (list Z)) : Prop := ∀ fuel k,
  print 0 c ++ k `suffix_of` text → stops (str ")") k → (4 * length (skipw (print 0 c ++ k)) + 4 ≤ fuel)%nat →
  ∃ p, parseline len fuel (skipw (print 0 c ++ k)) = Parsed (p, skipw k) ∧ means p c.

Lemma simple_ok ws rs : valid (EXEC ws) → Forall valid_redir rs → exec_ok (wrap (EXEC ws) rs).
Proof.
  intros [Hv Hlen] Hr fuel k Hs Hk Hf. rewrite print_wrap in *. cbn [print] in *. rewrite <-!app_assoc in *.
  destruct fuel as [|fuel]; [lia|]. cbn [parseexec].
  assert (Hend : stops (str "|)&;") k → (peek k (str "(")).1 = false ∧ (peek k (str "(")).2 = skipw k).
  { intros H. by rewrite (peek_false k (str "(") (str "|)&;") H) by (cbn; set_solver). }
  destruct ws as [|w ws].
  - cbn [print_words fmap list_fmap concat app] in *.
    assert (Ep : peek (skipw (print_redirs rs ++ k)) (str "(") = (false, skipw (print_redirs rs ++ k))).
    { destruct rs as [|r rs]; [cbn [print_redirs fmap list_fmap concat app]; unfold peek in *; cbn [fst snd] in *; rewrite skip_skip; by rewrite (proj1 (Hend Hk))|].
      apply Forall_cons_1 in Hr as [[_ [[Em _]|[Em _]]] _]; unfold print_redirs; cbn [fmap list_fmap concat]; unfold print_redir; rewrite Em; done. }
    rewrite Ep. destruct (redirs_parse rs fuel [] k Hs Hr (stops_no_redir k Hk) ltac:(lia)) as (ts & E & Hts). rewrite E. cbn [mbind parse_bind app].
    destruct fuel as [|fuel]; [lia|]. rewrite args_stop by done. cbn [mbind parse_bind]. eexists. split; [done|]. apply means_wrap; [constructor|done].
  - assert (Hw : valid_word w) by (by inversion Hv). assert (Esk : skipw (print_words (w :: ws) ++ print_redirs rs ++ k) = print_words (w :: ws) ++ print_redirs rs ++ k).
    { rewrite words_cons. by apply word_skip. }
    rewrite Esk in *. rewrite words_cons, peek_word; [|done|unfold symbols; cbn; set_solver]. rewrite <-words_cons.
    assert (Hl : (1 < length (print_words (w :: ws) ++ print_redirs rs ++ k))%nat).
    { rewrite words_cons. destruct Hw as [Hw _]. destruct w; [done|]. simpl. rewrite length_app. simpl. lia. }
    destruct (redirs_parse [] fuel [] (print_words (w :: ws) ++ print_redirs rs ++ k)) as (rs0 & E & H0); [done|done| | |].
    { rewrite words_cons, peek_word; [done|done|unfold symbols; cbn; set_solver]. }
    { cbn [print_redirs fmap list_fmap concat app]. rewrite Esk. lia. }
    apply Forall2_nil_inv_r in H0 as ->. cbn [print_redirs fmap list_fmap concat app] in E. rewrite Esk in E. rewrite E. cbn [mbind parse_bind].
    destruct (args_parse (w :: ws) rs fuel [] [] k) as (ws' & rs' & E' & H1 & H2); [done|done|done|done|done|simpl in *; lia|lia|].
    rewrite E'. cbn [mbind parse_bind app]. eexists. split; [done|]. by apply means_wrap.
Qed.

(** A command in parentheses. *)
Lemma block_ok c rs : print 3 c = paren true (print 0 c) → line_ok c → Forall valid_redir rs → exec_ok (wrap c rs).
Proof.
  intros Hp Hc Hr fuel k Hs Hk Hf. rewrite print_wrap, Hp in *. unfold paren in *.
  assert (E0 : ((str "( " ++ print 0 c ++ str ") ") ++ print_redirs rs) ++ k = 40 :: 32 :: print 0 c ++ 41 :: 32 :: print_redirs rs ++ k).
  { rewrite <-!app_assoc. done. }
  rewrite E0 in *. clear E0. cbn [skip] in *. change (is_white 40) with false in *. cbv iota in *.
  set (k1 := 41 :: 32 :: print_redirs rs ++ k) in *. pose proof (skip_short is_white (print 0 c ++ k1)) as Hl. cbn [length] in Hf.
  apply (suffix_of_app [40; 32]) in Hs. destruct fuel as [|[|fuel]]; [lia|lia|]. cbn [parseexec]. rewrite (peek_true _ 40 (32 :: print 0 c ++ k1)) by (first [done|cbn; set_solver]).
  cbn [parseblock]. rewrite (peek_true _ 40 (32 :: print 0 c ++ k1)) by (first [done|cbn; set_solver]). cbn [negb].
  destruct (gettoken_sym 40 (32 :: print 0 c ++ k1)) as [t Et]; [cbn; set_solver|]. rewrite Et, skip_blank. cbn [snd].
  destruct (Hc fuel k1 Hs) as (p & E & Hm); [by left|lia|]. rewrite E. cbn [mbind parse_bind].
  change (skipw k1) with k1. rewrite (peek_true _ 41 (32 :: print_redirs rs ++ k)) by (first [done|cbn; set_solver]). cbn [negb].
  destruct (gettoken_sym 41 (32 :: print_redirs rs ++ k)) as [t' Et']; [cbn; set_solver|]. rewrite Et', skip_blank. cbn [snd].
  apply suffix_of_app, (suffix_of_app [41; 32]) in Hs. pose proof (skip_short is_white (print_redirs rs ++ k)).
  rewrite length_app in Hf. unfold k1 in Hf. cbn [length] in Hf.
  destruct (redirs_parse rs fuel [] k Hs Hr (stops_no_redir k Hk) ltac:(lia)) as (ts & E2 & Hts). rewrite E2. cbn [mbind parse_bind app].
  eexists. split; [done|]. by apply means_wrap.
Qed.

Lemma exec_pipe c : print 2 c = print 3 c → exec_ok c → pipe_ok c.
Proof.
  intros Hp Hc fuel k Hs Hk Hf. rewrite Hp in *. destruct fuel as [|fuel]; [lia|]. cbn [parsepipe].
  destruct (Hc fuel k Hs) as (p & E & Hm); [eapply stops_weaken; [exact Hk|cbn; set_solver]|lia|]. rewrite E. cbn [mbind parse_bind].
  assert (Hk' : stops (str ")&;") (skipw k)) by (unfold stops in *; by rewrite skip_skip).
  rewrite (peek_false _ _ _ Hk'), skip_skip by (cbn; set_solver). by exists p.
Qed.

Lemma pipe_pipe l r : exec_ok l → pipe_ok r → pipe_ok (PIPE l r).
Proof.
  intros Hl Hr fuel k Hs Hk Hf. change (print 2 (PIPE l r)) with (print 3 l ++ str "| " ++ print 2 r) in *. rewrite <-!app_assoc in *.
  change (str "| " ++ print 2 r ++ k) with (124 :: 32 :: print 2 r ++ k) in *. set (k1 := 124 :: 32 :: print 2 r ++ k) in *.
  destruct fuel as [|fuel]; [lia|]. cbn [parsepipe]. destruct (Hl fuel k1 Hs) as (p & E & Hm); [by left|lia|]. rewrite E. cbn [mbind parse_bind].
  change (skipw k1) with k1. rewrite (peek_true _ 124 (32 :: print 2 r ++ k)) by (first [done|cbn; set_solver]).
  destruct (gettoken_sym 124 (32 :: print 2 r ++ k)) as [t Et]; [cbn; set_solver|]. rewrite Et, skip_blank. cbn [snd].
  pose proof (skip_keeps (print 3 l) 124 (32 :: print 2 r ++ k) eq_refl) as Hlen. fold k1 in Hlen. cbn [length] in Hlen.
  pose proof (skip_short is_white (print 2 r ++ k)). apply suffix_of_app, (suffix_of_app [124; 32]) in Hs.
  destruct (Hr fuel k Hs Hk ltac:(lia)) as (p' & E' & Hm'). rewrite E'. cbn [mbind parse_bind]. by exists (PIPE p p').
Qed.

Lemma pipe_back c : print 1 c = print 2 c → pipe_ok c → back_ok c.
Proof.
  intros Hp Hc fuel fuel' k Hs Hk Hf Hf'. rewrite Hp in *. destruct (Hc fuel k Hs Hk Hf) as (p & E & Hm). rewrite E. cbn [mbind parse_bind].
  exists p, fuel'. split_and!; [done|done|]. pose proof (skip_grows (print 2 c) k). lia.
Qed.

Lemma back_back c : back_ok c → back_ok (BACK c).
Proof.
  intros Hc fuel fuel' k Hs Hk Hf Hf'. change (print 1 (BACK c)) with (print 1 c ++ str "& ") in *. rewrite <-!app_assoc in *.
  change (str "& " ++ k) with (38 :: 32 :: k) in *. destruct (Hc fuel fuel' (38 :: 32 :: k) Hs) as (p & fuel2 & E & Hm & Hl); [unfold stops; cbn; set_solver|done|done|].
  rewrite E. change (skipw (38 :: 32 :: k)) with (38 :: 32 :: k) in *. destruct fuel2 as [|fuel2]; [lia|]. exists (BACK p), fuel2.
  cbn [parsebacks]. rewrite (peek_true _ 38 (32 :: k)) by (first [done|cbn; set_solver]).
  destruct (gettoken_sym 38 (32 :: k)) as [t Et]; [cbn; set_solver|]. rewrite Et, skip_blank. split_and!; [done|done|].
  pose proof (skip_short is_white k). simpl in Hl. lia.
Qed.

(** [parseline] up to the semicolon. *)
Lemma backs_parse c fuel toks k :
  back_ok c → print 1 c ++ k `suffix_of` text → stops toks k → toks ⊆ str ");" → (4 * length (skipw (print 1 c ++ k)) + 4 ≤ S fuel)%nat →
  ∃ p, (parsepipe len fuel (skipw (print 1 c ++ k)) ≫= λ '(c, s), parsebacks len fuel c s) = Parsed (p, skipw k) ∧ means p c.
Proof.
  intros Hc Hs Hk Ht Hf. destruct (Hc fuel fuel k Hs) as (p & fuel2 & E & Hm & Hl); [|lia|lia|].
  { eapply stops_weaken; [exact Hk|]. set_solver. }
  exists p. split; [|done]. rewrite E. destruct fuel2 as [|fuel2]; [lia|]. cbn [parsebacks].
  assert (Hk' : stops toks (skipw k)) by (unfold stops in *; by rewrite skip_skip).
  rewrite (peek_false _ _ _ Hk'), skip_skip; [done|]. intros x Hx. apply Ht in Hx. revert Hx. cbn. set_solver.
Qed.

Lemma parse_assoc {A B C} (r : parse A) (f : A → parse B) (g : B → parse C) : (r ≫= f) ≫= g = r ≫= (λ a, f a ≫= g).
Proof. by destruct r. Qed.

Lemma parseline_S fuel s :
  parseline len (S fuel) s =
    ('(c, s) ← (parsepipe len fuel s ≫= λ '(c, s), parsebacks len fuel c s);
     let '(b, s) := peek s (str ";") in
     if b then '(rcmd, s) ← parseline len fuel (gettoken len s).2; mret (LIST c rcmd, s) else mret (c, s)).
Proof. rewrite parse_assoc. cbn [parseline]. by destruct (parsepipe len fuel s) as [[c s']| |]. Qed.

Lemma back_line c : print 0 c = print 1 c → back_ok c → line_ok c.
Proof.
  intros Hp Hc fuel k Hs Hk Hf. rewrite Hp in *. destruct fuel as [|fuel]; [lia|]. rewrite parseline_S.
  destruct (backs_parse c fuel (str ")") k Hc Hs Hk) as (p & E & Hm); [cbn; set_solver|lia|]. rewrite E. cbn [mbind parse_bind].
  assert (Hk' : stops (str ")") (skipw k)) by (unfold stops in *; by rewrite skip_skip).
  rewrite (peek_false _ _ _ Hk'), skip_skip by (cbn; set_solver). by exists p.
Qed.

Lemma list_line l r : back_ok l → line_ok r → line_ok (LIST l r).
Proof.
  intros Hl Hr fuel k Hs Hk Hf. change (print 0 (LIST l r)) with (print 1 l ++ str "; " ++ print 0 r) in *. rewrite <-!app_assoc in *.
  change (str "; " ++ print 0 r ++ k) with (59 :: 32 :: print 0 r ++ k) in *. set (k1 := 59 :: 32 :: print 0 r ++ k) in *.
  destruct fuel as [|fuel]; [lia|]. rewrite parseline_S. destruct (backs_parse l fuel (str ";") k1 Hl Hs) as (p & E & Hm); [by left|cbn; set_solver|lia|].
  rewrite E. cbn [mbind parse_bind]. change (skipw k1) with k1. rewrite (peek_true _ 59 (32 :: print 0 r ++ k)) by (first [done|cbn; set_solver]).
  destruct (gettoken_sym 59 (32 :: print 0 r ++ k)) as [t Et]; [cbn; set_solver|]. rewrite Et, skip_blank. cbn [snd].
  pose proof (skip_keeps (print 1 l) 59 (32 :: print 0 r ++ k) eq_refl) as Hlen. fold k1 in Hlen. cbn [length] in Hlen.
  pose proof (skip_short is_white (print 0 r ++ k)). apply suffix_of_app, (suffix_of_app [59; 32]) in Hs.
  destruct (Hr fuel k Hs Hk ltac:(lia)) as (p' & E' & Hm'). rewrite E'. cbn [mbind parse_bind]. by exists (LIST p p').
Qed.

Lemma grammar_ok c :
  valid c → line_ok c ∧ back_ok c ∧ pipe_ok c ∧ ∀ rs, Forall valid_redir rs → exec_ok (wrap c rs).
Proof.
  induction c as [ws|c IH w mode fd|l IHl r IHr|l IHl r IHr|c IH]; intros Hv.
  - assert (Hx : ∀ rs, Forall valid_redir rs → exec_ok (wrap (EXEC ws) rs)) by (intros rs; by apply simple_ok).
    pose proof (exec_pipe (EXEC ws) eq_refl (Hx [] (List.Forall_nil _))) as Hp. pose proof (pipe_back (EXEC ws) eq_refl Hp) as Hb.
    split_and!; [by apply back_line|done|done|done].
  - destruct Hv as (Hv & Hw & Hm). destruct (IH Hv) as (_ & _ & _ & IHx).
    assert (Hx : ∀ rs, Forall valid_redir rs → exec_ok (wrap (REDIR c w mode fd) rs)) by (intros rs Hrs; apply (IHx ((w, mode, fd) :: rs)); by constructor).
    pose proof (exec_pipe (REDIR c w mode fd) eq_refl (Hx [] (List.Forall_nil _))) as Hp. pose proof (pipe_back (REDIR c w mode fd) eq_refl Hp) as Hb.
    split_and!; [by apply back_line|done|done|done].
  - destruct Hv as [Hvl Hvr]. destruct (IHl Hvl) as (_ & _ & _ & Hxl). destruct (IHr Hvr) as (_ & _ & Hpr & _).
    pose proof (pipe_pipe l r (Hxl [] (List.Forall_nil _)) Hpr) as Hp. pose proof (pipe_back (PIPE l r) eq_refl Hp) as Hb.
    pose proof (back_line (PIPE l r) eq_refl Hb) as Hl. split_and!; [done|done|done|]. intros rs. by apply block_ok.
  - destruct Hv as [Hvl Hvr]. destruct (IHl Hvl) as (_ & Hbl & _). destruct (IHr Hvr) as (Hlr & _).
    pose proof (list_line l r Hbl Hlr) as Hl. assert (Hx : ∀ rs, Forall valid_redir rs → exec_ok (wrap (LIST l r) rs)) by (intros rs; by apply block_ok).
    pose proof (exec_pipe (LIST l r) eq_refl (Hx [] (List.Forall_nil _))) as Hp. split_and!; [done|by apply pipe_back|done|done].
  - destruct (IH Hv) as (_ & Hb & _). pose proof (back_back c Hb) as Hb'. pose proof (back_line (BACK c) eq_refl Hb') as Hl.
    assert (Hx : ∀ rs, Forall valid_redir rs → exec_ok (wrap (BACK c) rs)) by (intros rs; by apply block_ok).
    pose proof (exec_pipe (BACK c) eq_refl (Hx [] (List.Forall_nil _))) as Hp. done.
Qed.

(** * The NULs *)

Fixpoint token_ends (p : cmd token) : list nat :=
  match p with
  | EXEC ts => ts.*2
  | REDIR p t _ _ => token_ends p ++ [t.2]
  | PIPE l r | LIST l r => token_ends l ++ token_ends r
  | BACK p => token_ends p
  end.

Definition mark (es : list nat) (buf : list Z) : list Z := foldl (λ buf e, <[e := 0]> buf) buf es.

Lemma nulterminate_mark p buf : nulterminate p buf = mark (token_ends p) buf.
Proof.
  unfold mark. revert buf. induction p as [ts|p IH t m f|l IHl r IHr|l IHl r IHr|p IH]; intros buf; cbn [nulterminate token_ends].
  - revert buf. induction ts as [|t ts IH]; intros buf; [done|]. cbn [foldl fmap list_fmap]. apply IH.
  - by rewrite foldl_app, IH.
  - by rewrite foldl_app, IHl, IHr.
  - by rewrite foldl_app, IHl, IHr.
  - apply IH.
Qed.

Lemma mark_lookup es buf i : mark es buf !! i = if decide (i ∈ es) then (λ _, 0) <$> buf !! i else buf !! i.
Proof.
  unfold mark. revert buf. induction es as [|e es IH]; intros buf; [done|]. cbn [foldl]. rewrite IH.
  destruct (decide (i = e)) as [->|Hne].
  - rewrite (decide_True (P := e ∈ e :: es)) by (by left).
    destruct (buf !! e) as [x|] eqn:E.
    + rewrite list_lookup_insert_eq by (by eapply lookup_lt_Some). by destruct (decide (e ∈ es)).
    + rewrite list_insert_ge by (by apply lookup_ge_None). rewrite E. by destruct (decide (e ∈ es)).
  - rewrite list_lookup_insert_ne by done. destruct (decide (i ∈ es)) as [H|H].
    + by rewrite decide_True by (by right).
    + rewrite decide_False; [done|]. rewrite elem_of_cons. naive_solver.
Qed.

Lemma cstr_word w r n : Forall (λ c, is_word c = true ∧ c ≠ 0) w → (length w < n)%nat → cstr (w ++ 0 :: r) n = w.
Proof.
  intros H. revert n. induction H as [|c w [_ Hc] H IH]; intros n Hn; (destruct n as [|n]; [simpl in Hn; lia|]); [done|].
  cbn [cstr app]. rewrite (proj2 (Z.eqb_neq _ _)) by done. rewrite IH; [done|]. simpl in Hn. lia.
Qed.

(** A marked token reads as its word, whatever other ends are marked. *)
Lemma string_marked es t w :
  tok_word t w → t.2 ∈ es → (∀ e, e ∈ es → ends_word (drop e text)) → string_at (mark es (text ++ [0])) t = w.
Proof.
  intros (Ht & Hlen & Hle & [Hne Hw] & Hend) Hin Hes. set (buf := mark es (text ++ [0])).
  assert (Hbl : length buf = S len).
  { unfold buf, mark. clear. assert (H : ∀ b : list Z, length (foldl (λ buf e, <[e := 0]> buf) b es) = length b).
    { induction es as [|e es IH]; intros b; [done|]. cbn [foldl]. by rewrite IH, length_insert. }
    rewrite H, length_app. simpl. lia. }
  assert (E : drop t.1 buf = w ++ 0 :: drop (S t.2) buf).
  { rewrite <-(take_drop (length w) (drop t.1 buf)). rewrite drop_drop, Hlen. f_equal.
    - apply list_eq. intros i. destruct (decide (i < length w)%nat) as [Hi|Hi]; [|rewrite !(proj2 (lookup_ge_None _ _)); [done|lia|rewrite length_take; lia]].
      rewrite lookup_take_lt, lookup_drop by lia. unfold buf. rewrite mark_lookup. assert (Hti : text !! (t.1 + i)%nat = w !! i) by (rewrite <-lookup_drop, Ht, lookup_app_l by done; done).
      destruct (lookup_lt_is_Some_2 w i Hi) as [c Hc]. rewrite decide_False.
      + rewrite lookup_app_l by lia. by rewrite Hti.
      + intros He. apply Hes in He. rewrite (drop_S text c) in He by (by rewrite Hti). simpl in He. apply (Forall_lookup_1 _ _ _ _ Hw) in Hc as [Hc _]. congruence.
    - apply drop_S. unfold buf. rewrite mark_lookup, decide_True by done. destruct (lookup_lt_is_Some_2 (text ++ [0]) t.2) as [x ->]; [rewrite length_app; simpl; lia|done]. }
  unfold string_at. rewrite E. apply cstr_word; [done|]. rewrite Hbl. lia.
Qed.

Lemma strings_means p c es :
  means p c → token_ends p ⊆ es → (∀ e, e ∈ es → ends_word (drop e text)) → strings (mark es (text ++ [0])) p = c.
Proof.
  intros Hm Hsub Hes. revert c Hm Hsub.
  induction p as [ts|p IH t m f|l IHl r IHr|l IHl r IHr|p IH]; intros [ws|c w m' f'|l' r'|l' r'|c] Hm Hsub; try done; cbn [strings means token_ends] in *.
  - f_equal. induction Hm as [|t w ts ws Ht Hm IH]; [done|]. cbn [fmap list_fmap] in *. rewrite IH by set_solver.
    rewrite (string_marked es t w) by (first [done|set_solver]). done.
  - destruct Hm as [Hm (Ht & E1 & E2)]. cbn [fst snd] in *. subst. rewrite (IH c) by (first [done|set_solver]).
    rewrite (string_marked es t w) by (first [done|set_solver]). done.
  - destruct Hm. rewrite (IHl l'), (IHr r') by (first [done|set_solver]). done.
  - destruct Hm. rewrite (IHl l'), (IHr r') by (first [done|set_solver]). done.
  - by rewrite (IH c).
Qed.

Lemma means_ends p c e : means p c → e ∈ token_ends p → ends_word (drop e text).
Proof.
  revert c. induction p as [ts|p IH t m f|l IHl r IHr|l IHl r IHr|p IH]; intros [ws|c w m' f'|l' r'|l' r'|c] Hm He; try done; cbn [means token_ends] in *.
  - apply list_elem_of_fmap in He as (t & -> & Ht). apply list_elem_of_lookup in Ht as [i Hi].
    destruct (Forall2_lookup_l _ _ _ _ _ Hm Hi) as (w & _ & Hw). apply Hw.
  - destruct Hm as [Hm (Ht & _)]. apply elem_of_app in He as [He|He]; [by eapply IH|]. apply list_elem_of_singleton in He as ->. apply Ht.
  - destruct Hm. apply elem_of_app in He as [He|He]; eauto.
  - destruct Hm. apply elem_of_app in He as [He|He]; eauto.
  - by eapply IH.
Qed.
End roundtrip.

Lemma parseline_skip len fuel s : parseline len fuel s = parseline len fuel (skipw s).
Proof.
  assert (Hx : ∀ fuel, parseexec len fuel s = parseexec len fuel (skipw s)).
  { intros [|f]; [done|]. cbn [parseexec]. unfold peek. by rewrite skip_skip. }
  assert (Hp : ∀ fuel, parsepipe len fuel s = parsepipe len fuel (skipw s)) by (intros [|f]; [done|]; cbn [parsepipe]; by rewrite Hx).
  destruct fuel as [|fuel]; [done|]. cbn [parseline]. by rewrite Hp.
Qed.

(** C16: the shell's parser inverts printing: every command, written out with
    the parentheses it needs, parses back to itself, its arguments and file
    names being the C strings that [nulterminate] leaves in the line. *)
Theorem parse_print fuel c :
  valid c → (parse_fuel (print 0 c) ≤ fuel)%nat →
  ∃ p buf, parsecmd fuel (print 0 c) = inl (Parsed (p, buf)) ∧ strings buf p = c.
Proof.
  unfold parse_fuel. intros Hv Hf. destruct (grammar_ok (print 0 c) c Hv) as (Hl & _). destruct (Hl fuel []) as (p & E & Hm).
  { rewrite app_nil_r. done. }
  { done. }
  { rewrite app_nil_r. pose proof (skip_short is_white (print 0 c)). lia. }
  rewrite app_nil_r, <-parseline_skip in E. exists p, (nulterminate p (print 0 c ++ [0])). unfold parsecmd. rewrite E.
  cbn [skip peek snd]. split; [done|]. rewrite nulterminate_mark. eapply strings_means; [exact Hm|done|].
  intros e He. by eapply means_ends.
Qed.

Lemma parse_print_witness :
  ∃ p buf, parsecmd 200 (str "cat a | ( b ; ) > f & ; wc x < g > h ") = inl (Parsed (p, buf)) ∧
    strings buf p = LIST (BACK (PIPE (EXEC [str "cat"; str "a"]) (REDIR (LIST (EXEC [str "b"]) (EXEC [])) (str "f") 0x201 1)))
                         (REDIR (REDIR (EXEC [str "wc"; str "x"]) (str "g") 0 0) (str "h") 0x201 1).
Proof.
  apply (parse_print 200 (LIST (BACK (PIPE (EXEC [str "cat"; str "a"]) (REDIR (LIST (EXEC [str "b"]) (EXEC [])) (str "f") 0x201 1)))
                         (REDIR (REDIR (EXEC [str "wc"; str "x"]) (str "g") 0 0) (str "h") 0x201 1))).
  - cbn [valid]. unfold valid_word. split_and!; try (first [by left|by right|vm_compute; lia|done]); repeat constructor; done.
  - vm_compute. lia.
Defined.
