(* ===== verification/Mkfs.v ===== *)
(** The builder of the file system image, mkfs.c, and that what it builds is a
    file system the kernel reads.

    The image is the sectors of the host file, a sector beyond its end being
    empty. [None] is an end with an error: an assertion, or a read of a sector
    that is not there. Opening and writing files on the host is taken to
    succeed; the files to copy are given with the pieces in which the host
    delivers them. *)

From stdpp Require Import functions base list gmap strings.
From Stdlib Require Import ZArith Lia.
From S2P Require Import Prelude CString Bytes Monad Kstate Spinlock Sched Bio Log Fs Tx Balloc Inode Dinode Writei Dir.

(** * The program *)

Definition NINODES : Z := 200.
Definition nbitmap : Z := FSSIZE / (BSIZE * 8) + 1.
Definition ninodeblocks : Z := NINODES / IPB + 1.
Definition nlog : Z := LOGSIZE.
Definition nmeta : Z := 2 + nlog + ninodeblocks + nbitmap.
Definition nblocks : Z := FSSIZE - nmeta.

(** The value whose bytes are those of [x] in Intel order. *)
Definition xshort (x : Z) : Z := le_val (le_bytes 2 x).
Definition xint (x : Z) : Z := le_val (le_bytes 4 x).

Definition mk_sb : superblock :=
  mkSb (xint FSSIZE) (xint nblocks) (xint NINODES) (xint nlog) (xint 2) (xint (2 + nlog)) (xint (2 + nlog + ninodeblocks)).

Record image := mkImage {
  im_sect : Z → list Z;
  im_freeinode : Z;
  im_freeblock : Z
}.

Definition wsect (sec : Z) (buf : list Z) (m : image) : image :=
  mkImage (<[sec := buf]> (im_sect m)) (im_freeinode m) (im_freeblock m).
Definition rsect (sec : Z) (m : image) : option (list Z) :=
  if decide (length (im_sect m sec) = Z.to_nat BSIZE) then Some (im_sect m sec) else None.

Definition winode (inum : Z) (ip : dinode) (m : image) : option image :=
  let bn := IBLOCK inum mk_sb in
  buf ← rsect bn m;
  Some (wsect bn (put_dinode (dinode_off inum) ip buf) m).

Definition rinode (inum : Z) (m : image) : option dinode :=
  buf ← rsect (IBLOCK inum mk_sb) m;
  Some (get_dinode (dinode_off inum) buf).

(** [freeblock++]. *)
Definition newblock (m : image) : Z * image :=
  (im_freeblock m, mkImage (im_sect m) (im_freeinode m) (u32 (im_freeblock m + 1))).

Definition mk_ialloc (type : Z) (m : image) : option (Z * image) :=
  let inum := im_freeinode m in
  let m := mkImage (im_sect m) (u32 (im_freeinode m + 1)) (im_freeblock m) in
  m ← winode inum (mkDinode (s16 (xshort type)) 0 0 (s16 (xshort 1)) (xint 0) (replicate 13 0)) m;
  Some (inum, m).

(** The bitmap with the bits of the first [used] blocks set. *)
Definition mk_bitmap (used : nat) : list Z :=
  foldl (λ buf i, bit_set (Z.of_nat i) buf) (replicate (Z.to_nat BSIZE) 0) (seq 0 used).

Definition mk_balloc (used : Z) (m : image) : option image :=
  if negb (used <? BSIZE * 8) then None else
  Some (wsect (sb_bmapstart mk_sb) (mk_bitmap (Z.to_nat used)) m).

(** The block of the file in which block [fbn] of it lies, allocated if need
    be; the numbers of the blocks in the inode may change with it. *)
Definition iappend_block (addrs : list Z) (fbn : Z) (m : image) : option (Z * list Z * image) :=
  if fbn <? NDIRECT then
    let '(addrs, m) :=
      if xint (addrs !!! Z.to_nat fbn) =? 0 then
        let '(b, m) := newblock m in (<[Z.to_nat fbn := xint b]> addrs, m)
      else (addrs, m) in
    Some (xint (addrs !!! Z.to_nat fbn), addrs, m)
  else
    let '(addrs, m) :=
      if xint (addrs !!! Z.to_nat NDIRECT) =? 0 then
        let '(b, m) := newblock m in (<[Z.to_nat NDIRECT := xint b]> addrs, m)
      else (addrs, m) in
    let ind := xint (addrs !!! Z.to_nat NDIRECT) in
    indirect ← rsect ind m;
    if get32 indirect (4 * (fbn - NDIRECT)) =? 0 then
      let '(b, m) := newblock m in
      let indirect := put32 (4 * (fbn - NDIRECT)) (xint b) indirect in
      Some (xint (get32 indirect (4 * (fbn - NDIRECT))), addrs, wsect ind indirect m)
    else Some (xint (get32 indirect (4 * (fbn - NDIRECT))), addrs, m).

(** The while loop of [iappend], on what is left of the bytes. *)
Fixpoint iappend_loop (fuel : nat) (addrs : list Z) (off : Z) (p : list Z) (m : image) : option (list Z * Z * image) :=
  match p, fuel with
  | [], _ => Some (addrs, off, m)
  | _, O => None
  | _, S fuel =>
      let fbn := off / BSIZE in
      if negb (fbn <? MAXFILE) then None else
      '(x, addrs, m) ← iappend_block addrs fbn m;
      let n1 := Z.min (Z.of_nat (length p)) ((fbn + 1) * BSIZE - off) in
      buf ← rsect x m;
      let m := wsect x (splice (Z.to_nat (off - fbn * BSIZE)) (take (Z.to_nat n1) p) buf) m in
      iappend_loop fuel addrs (u32 (off + n1)) (drop (Z.to_nat n1) p) m
  end.

Definition iappend (inum : Z) (p : list Z) (m : image) : option image :=
  din ← rinode inum m;
  '(addrs, off, m) ← iappend_loop (length p) (di_addrs din) (xint (di_size din)) p m;
  winode inum (mkDinode (di_type din) (di_major din) (di_minor din) (di_nlink din) (xint off) addrs) m.

(** A directory entry as [main] appends it. *)
Definition mk_dirent (inum : Z) (name : list Z) : list Z := encode_dirent (mkDirent (xshort inum) (strncpy_list name (Z.to_nat DIRSIZ))).

(** The name without a leading underscore. *)
Definition mk_name (arg : list Z) : list Z :=
  match arg with c :: name => if c =? 95 then name else arg | [] => [] end.

(** The body of the loop over the files: the name and the pieces of one. *)
Definition mk_file (rootino : Z) (f : list Z * list (list Z)) (m : image) : option image :=
  if bool_decide (47 ∈ f.1) then None else
  '(inum, m) ← mk_ialloc T_FILE m;
  m ← iappend rootino (mk_dirent inum (mk_name f.1)) m;
  foldl (λ m cc, m ← m; iappend inum cc m) (Some m) f.2.

Definition encode_sb (sb : superblock) : list Z :=
  concat (le_bytes 4 <$> [sb_size sb; sb_nblocks sb; sb_ninodes sb; sb_nlog sb; sb_logstart sb; sb_inodestart sb; sb_bmapstart sb]).

Definition zeroes : list Z := replicate (Z.to_nat BSIZE) 0.

(** The image before the first inode: zeroes and the superblock. *)
Definition mk_empty : image :=
  let m := foldl (λ m i, wsect i zeroes m) (mkImage (λ _, []) 1 nmeta) (seqZ 0 FSSIZE) in
  wsect 1 (splice 0 (encode_sb mk_sb) zeroes) m.

(** The size of the root directory is rounded up, to the next block when it is
    a multiple of the block size. *)
Definition mk_fix_root (rootino : Z) (m : image) : option image :=
  din ← rinode rootino m;
  let off := xint (di_size din) in
  let off := (off / BSIZE + 1) * BSIZE in
  winode rootino (mkDinode (di_type din) (di_major din) (di_minor din) (di_nlink din) (xint off) (di_addrs din)) m.

Definition mkfs (files : list (list Z * list (list Z))) : option image :=
  '(rootino, m) ← mk_ialloc T_DIR mk_empty;
  if negb (rootino =? ROOTINO) then None else
  m ← iappend rootino (mk_dirent rootino (str ".")) m;
  m ← iappend rootino (mk_dirent rootino (str "..")) m;
  m ← foldl (λ m f, m ← m; mk_file rootino f m) (Some m) files;
  m ← mk_fix_root rootino m;
  mk_balloc (im_freeblock m) m.

(** * The disk as the kernel sees it *)

(** The image with the bitmap that [mk_balloc] would write now. *)
Definition seen (fb : Z) (v : Z → list Z) : Z → list Z := <[sb_bmapstart mk_sb := mk_bitmap (Z.to_nat fb)]> v.

(** The log the superblock describes. *)
Definition mk_log : logrec := mkLog 2 30 0 0 1 0 [].

Section ext.
Context (v v' : Z → list Z) (E : ∀ x, v x = v' x).
Implicit Types (sb : superblock) (a : list Z).

Lemma faddr_ext a j : faddr v a j = faddr v' a j.
Proof using E. unfold faddr. by rewrite E. Qed.

Lemma slot_ext a j : slot v a j = slot v' a j.
Proof using E. unfold slot. by rewrite faddr_ext. Qed.

Lemma free_ext sb x : free v sb x = free v' sb x.
Proof using E. unfold free. by rewrite E. Qed.

Lemma file_ok_ext sb a : file_ok v sb a → file_ok v' sb a.
Proof using E.
  intros [H1 H2 H3]. split; [done|..].
  - intros j. rewrite <- slot_ext, <- free_ext. apply H2.
  - intros j1 j2. rewrite <- !slot_ext. apply H3.
Qed.

Lemma file_step_ext sb u a0 a off src : file_step sb u a0 v a off src → file_step sb u a0 v' a off src.
Proof using E.
  intros [H1 H2 H3 H4 H5 H6 H7]. split.
  - by apply file_ok_ext.
  - intros j. rewrite <- slot_ext. apply H2.
  - intros k Hk. unfold fbyte. rewrite <- !faddr_ext, <- E. by apply H3.
  - intros k Hk Ho Hn. unfold fbyte. rewrite <- !faddr_ext, <- E. by apply H4.
  - intros x. rewrite <- free_ext. apply H5.
  - intros x Hx Hf Ho. rewrite <- E. destruct (H6 x Hx Hf Ho) as [H6a H6b]. split; [done|].
    intros (j & Hj & Hs). apply H6b. exists j. by rewrite slot_ext.
  - intros x. rewrite <- E. apply H7.
Qed.
End ext.

Section layout.
Implicit Types (v : Z → list Z) (m : image) (a : list Z).

Lemma mk_sb_eq : mk_sb = mkSb 1000 941 200 30 2 32 58.
Proof. by vm_compute. Qed.

Lemma nmeta_eq : nmeta = 59.
Proof. done. Qed.

Lemma mk_geometry : geometry mk_sb mk_log 1000.
Proof. rewrite mk_sb_eq. split; vm_compute; repeat split; intros; discriminate. Qed.

Lemma mk_data_start : data_start mk_sb = 59.
Proof. by rewrite mk_sb_eq. Qed.

Lemma mk_BBLOCK b : 0 ≤ b < 1000 → BBLOCK b mk_sb = 58 ∧ b mod BPB = b.
Proof.
  intros Hb. assert (BPB = 4096) as Eb by done. split; [|rewrite Eb; apply Z.mod_small; lia].
  rewrite (BBLOCK_eq _ _ _ mk_geometry) by (rewrite mk_sb_eq; simpl; lia). rewrite Eb, Z.div_small by lia. by rewrite mk_sb_eq.
Qed.

Lemma mk_bitmap_S n : mk_bitmap (S n) = bit_set (Z.of_nat n) (mk_bitmap n).
Proof. unfold mk_bitmap. rewrite seq_S, foldl_app. done. Qed.

Lemma length_mk_bitmap n : length (mk_bitmap n) = Z.to_nat BSIZE.
Proof.
  induction n as [|n IH]; [apply length_replicate|]. rewrite mk_bitmap_S. unfold bit_set. by rewrite length_alter.
Qed.

Lemma mk_bitmap_free n b : (n ≤ 4096)%nat → 0 ≤ b < 4096 → bit_free (mk_bitmap n) b = bool_decide (Z.of_nat n ≤ b).
Proof.
  intros Hn Hb. induction n as [|n IH].
  - rewrite bool_decide_true by lia. unfold mk_bitmap, bit_free. cbn [seq foldl]. rewrite lookup_total_replicate_2; [by rewrite Z.land_0_l|].
    unfold bit_byte. pose proof (Z.div_lt_upper_bound b 8 512). pose proof (Z.div_pos b 8). change (Z.to_nat BSIZE) with 512%nat. lia.
  - rewrite mk_bitmap_S, bit_free_set by (rewrite ?length_mk_bitmap; change (Z.to_nat BSIZE) with 512%nat; lia).
    destruct (decide (Z.of_nat n = b)) as [Eb|Eb]; [by rewrite bool_decide_false by lia|]. rewrite IH by lia. apply bool_decide_ext. lia.
Qed.

Lemma seen_58 fb v : seen fb v 58 = mk_bitmap (Z.to_nat fb).
Proof. unfold seen. rewrite mk_sb_eq. cbn [sb_bmapstart]. apply fn_lookup_insert. Qed.

Lemma seen_ne fb v x : x ≠ 58 → seen fb v x = v x.
Proof. intros. unfold seen. rewrite mk_sb_eq. cbn [sb_bmapstart]. by apply fn_lookup_insert_ne. Qed.

Lemma seen_free fb v b : 0 ≤ fb ≤ 1000 → 0 ≤ b < 1000 → free (seen fb v) mk_sb b = bool_decide (fb ≤ b).
Proof.
  intros Hfb Hb. unfold free. destruct (mk_BBLOCK b Hb) as [-> ->]. rewrite seen_58, mk_bitmap_free by lia.
  apply bool_decide_ext. lia.
Qed.

(** Allocation by counting is taking the block in the bitmap. *)
Lemma seen_take fb v x :
  59 ≤ fb < 1000 → v fb = zeroes → take_block mk_sb fb (seen fb v) x = seen (fb + 1) v x.
Proof.
  intros Hfb Hz. unfold take_block. destruct (mk_BBLOCK fb ltac:(lia)) as [-> ->]. rewrite seen_58.
  destruct (decide (x = fb)) as [->|Hne]; [rewrite fn_lookup_insert, seen_ne by lia; done|]. rewrite fn_lookup_insert_ne by done.
  destruct (decide (x = 58)) as [->|Hne']; [|by rewrite fn_lookup_insert_ne, !seen_ne by done].
  rewrite fn_lookup_insert, seen_58. replace (Z.to_nat (fb + 1)) with (S (Z.to_nat fb)) by lia. rewrite mk_bitmap_S. by rewrite Z2Nat.id by lia.
Qed.

Lemma seen_insert fb v x bs y : x ≠ 58 → <[x := bs]> (seen fb v) y = seen fb (<[x := bs]> v) y.
Proof.
  intros Hx. destruct (decide (y = 58)) as [->|Hy]; [by rewrite fn_lookup_insert_ne, !seen_58 by done|].
  rewrite (seen_ne _ (<[x := bs]> v)) by done. destruct (decide (y = x)) as [->|]; [by rewrite !fn_lookup_insert|].
  by rewrite !fn_lookup_insert_ne, seen_ne by done.
Qed.

Lemma xint_small x : 0 ≤ x < 2 ^ 32 → xint x = x.
Proof. intros Hx. unfold xint. rewrite le_val_bytes. by apply Z.mod_small. Qed.
End layout.

(** * Appending to a file *)

Definition view (m : image) : Z → list Z := seen (im_freeblock m) (im_sect m).

Definition blocks (sz : Z) : Z := (sz + BSIZE - 1) / BSIZE.
(** The blocks a file of [sz] bytes holds, the indirect block included. *)
Definition held (sz : Z) : Z := blocks sz + (if NDIRECT <? blocks sz then 1 else 0).
Definition in_slot (sz j : Z) : Prop := if decide (j = -1) then NDIRECT < blocks sz else j < blocks sz.

(** A file holds blocks in the slots [P] and no others. *)
Record laid (w : Z → list Z) (a : list Z) (P : Z → Prop) : Prop := mkLaid {
  ld_ok : file_ok w mk_sb a;
  ld_slot j : -1 ≤ j < MAXFILE → slot w a j ≠ 0 ↔ P j
}.

(** All sectors are there; those from [freeblock] on are still zero. *)
Record sound (m : image) : Prop := mkSound {
  sd_len b : 0 ≤ b < 1000 → length (im_sect m b) = Z.to_nat BSIZE;
  sd_zero b : im_freeblock m ≤ b < 1000 → im_sect m b = zeroes;
  sd_fb : 59 ≤ im_freeblock m ≤ 1000
}.

(** A new block has gone into slot [j] of the file. *)
Record placed (m : image) (a : list Z) (m' : image) (a' : list Z) (off j : Z) : Prop := mkPlaced {
  pl_step : file_step mk_sb (view m) a (view m') a' off [];
  pl_slot j' : -1 ≤ j' < MAXFILE → slot (view m') a' j' = if decide (j' = j) then im_freeblock m else slot (view m) a j';
  pl_sound : sound m';
  pl_fb : im_freeblock m' = im_freeblock m + 1;
  pl_ino : im_freeinode m' = im_freeinode m
}.

Section append.
Implicit Types (m : image) (a : list Z) (off j x : Z).

Lemma view_ne m x : x ≠ 58 → view m x = im_sect m x.
Proof. apply seen_ne. Qed.

Lemma view_free m b : sound m → 0 ≤ b < 1000 → free (view m) mk_sb b = bool_decide (im_freeblock m ≤ b).
Proof. intros [_ _ H] Hb. apply seen_free; lia. Qed.

Lemma newblock_fb m : sound m → im_freeblock m < 1000 → im_freeblock (newblock m).2 = im_freeblock m + 1.
Proof. intros [_ _ H] Hb. simpl. apply u32_small. lia. Qed.

Lemma newblock_sound m : sound m → im_freeblock m < 1000 → sound (newblock m).2.
Proof.
  intros S Hb. pose proof (newblock_fb m S Hb) as E. destruct S as [H1 H2 H3]. split; [done| |lia].
  intros b Hb'. apply H2. lia.
Qed.

(** The view after a block is counted as used. *)
Lemma newblock_view m x :
  sound m → im_freeblock m < 1000 → take_block mk_sb (im_freeblock m) (view m) x = view (newblock m).2 x.
Proof.
  intros S Hb. pose proof (newblock_fb m S Hb) as E. destruct S as [H1 H2 H3]. unfold view. rewrite E.
  apply seen_take; [lia|]. apply H2. lia.
Qed.

Lemma view_bitmap m b : sound m → 0 ≤ b < 1000 → length (view m (BBLOCK b mk_sb)) = Z.to_nat BSIZE.
Proof. intros S Hb. destruct (mk_BBLOCK b Hb) as [-> _]. unfold view. rewrite seen_58. apply length_mk_bitmap. Qed.

Lemma fresh_block m : sound m → im_freeblock m < 1000 → data_start mk_sb ≤ im_freeblock m < sb_size mk_sb ∧ free (view m) mk_sb (im_freeblock m) = true.
Proof.
  intros S Hb. pose proof (sd_fb m S). rewrite mk_data_start, view_free by (done || lia). rewrite mk_sb_eq. simpl. split; [lia|]. by rewrite bool_decide_true.
Qed.

Lemma place_direct m a off j :
  sound m → file_ok (view m) mk_sb a → im_freeblock m < 1000 → 0 ≤ j < NDIRECT → slot (view m) a j = 0 →
  placed m a (newblock m).2 (<[Z.to_nat j := im_freeblock m]> a) off j.
Proof.
  intros S Hok Hb Hj Hs. destruct (fresh_block m S Hb) as [Hd Hf]. rewrite slot_faddr in Hs by lia. pose proof (sd_fb m S). split; [| |by apply newblock_sound|by apply newblock_fb|done].
  - eapply file_step_ext; [intros x; by apply newblock_view|]. apply (direct_step _ _ _ mk_geometry); try done. apply view_bitmap; [done|lia].
  - intros j' Hj'. erewrite <- slot_ext; [|intros x; by apply newblock_view]. by apply (direct_slots _ _ _ mk_geometry).
Qed.

Lemma place_ind m a off :
  sound m → file_ok (view m) mk_sb a → im_freeblock m < 1000 → slot (view m) a (-1) = 0 →
  placed m a (newblock m).2 (<[Z.to_nat NDIRECT := im_freeblock m]> a) off (-1).
Proof.
  intros S Hok Hb Hs. destruct (fresh_block m S Hb) as [Hd Hf]. pose proof (sd_fb m S). split; [| |by apply newblock_sound|by apply newblock_fb|done].
  - eapply file_step_ext; [intros x; by apply newblock_view|]. apply (ind_step _ _ _ mk_geometry); try done. apply view_bitmap; [done|lia].
  - intros j' Hj'. erewrite <- slot_ext; [|intros x; by apply newblock_view]. by apply (ind_slots _ _ _ mk_geometry).
Qed.

Lemma place_entry m a off j :
  sound m → file_ok (view m) mk_sb a → im_freeblock m < 1000 → NDIRECT ≤ j < MAXFILE → ind a ≠ 0 → slot (view m) a j = 0 →
  placed m a (wsect (ind a) (put32 (4 * (j - NDIRECT)) (im_freeblock m) (im_sect m (ind a))) (newblock m).2) a off j.
Proof.
  intros S Hok Hb Hj Hi Hs. destruct (fresh_block m S Hb) as [Hd Hf]. rewrite slot_faddr in Hs by (unfold NDIRECT in Hj; lia). pose proof (sd_fb m S).
  destruct (fo_ind _ _ _ Hok Hi) as [Hr Hu]. rewrite mk_data_start in Hr. rewrite mk_sb_eq in Hr at 1. cbn [sb_size] in Hr.
  rewrite view_free in Hu by (done || lia). apply bool_decide_eq_false in Hu.
  assert (Hlen : length (view m (ind a)) = Z.to_nat BSIZE) by (rewrite view_ne by lia; apply S; lia).
  assert (Hv : ∀ x, set_entry a j (im_freeblock m) (take_block mk_sb (im_freeblock m) (view m)) x =
    view (wsect (ind a) (put32 (4 * (j - NDIRECT)) (im_freeblock m) (im_sect m (ind a))) (newblock m).2) x).
  { intros x. unfold set_entry. rewrite newblock_view, (view_ne (newblock m).2 (ind a)) by (done || lia).
    change (view (wsect ?y ?bs ?m')) with (seen (im_freeblock m') (<[y := bs]> (im_sect m'))). rewrite <- seen_insert by lia.
    destruct (decide (x = ind a)) as [->|]; [by rewrite !fn_lookup_insert|]. rewrite !fn_lookup_insert_ne by done. by apply newblock_view. }
  split.
  - eapply file_step_ext; [exact Hv|]. apply (entry_step _ _ _ mk_geometry); try done. apply view_bitmap; [done|lia].
  - intros j' Hj'. erewrite <- slot_ext; [|exact Hv]. by apply (entry_slots _ _ _ mk_geometry).
  - destruct (newblock_sound m S Hb) as [H1 H2 H3]. split; [| |done].
    + intros b Hb'. cbn [wsect im_sect]. destruct (decide (b = ind a)) as [->|]; [|rewrite fn_lookup_insert_ne by done; by apply H1].
      rewrite fn_lookup_insert, length_put32. apply S. lia.
    + intros b Hb'. cbn [wsect im_sect im_freeblock] in *. rewrite (newblock_fb m S Hb) in Hb'. rewrite fn_lookup_insert_ne by lia. apply S. lia.
  - by apply newblock_fb.
  - done.
Qed.

Lemma blocks_next off :
  0 ≤ off → blocks (off + 1) = off / BSIZE + 1 ∧ blocks off = if off mod BSIZE =? 0 then off / BSIZE else off / BSIZE + 1.
Proof.
  intros Ho. unfold blocks. assert (BSIZE = 512) as -> by done. pose proof (Z.div_mod off 512 ltac:(lia)). pose proof (Z.mod_pos_bound off 512 ltac:(lia)).
  split; [symmetry; apply Z.div_unique with (off mod 512); lia|]. destruct (Z.eqb_spec (off mod 512) 0).
  - symmetry. apply Z.div_unique with 511; lia.
  - symmetry. apply Z.div_unique with (off mod 512 - 1); lia.
Qed.

Lemma laid_placed m a m' a' off j P Q :
  sound m → laid (view m) a P → placed m a m' a' off j → (∀ j', -1 ≤ j' < MAXFILE → Q j' ↔ j' = j ∨ P j') → laid (view m') a' Q.
Proof.
  intros S L [H1 H2 H3 H4 H5] HQ. pose proof (sd_fb m S). split; [apply H1|]. intros j' Hj'. rewrite H2, HQ by done.
  destruct (decide (j' = j)) as [->|Hne]; [split; [by left|lia]|]. rewrite (ld_slot _ _ _ L) by done. naive_solver.
Qed.

Lemma slot_small m a j : sound m → file_ok (view m) mk_sb a → -1 ≤ j < MAXFILE → 0 ≤ slot (view m) a j < 1000 ∧ slot (view m) a j ≠ 58 ∧
  (slot (view m) a j ≠ 0 → 59 ≤ slot (view m) a j < im_freeblock m).
Proof.
  intros S Hok Hj. destruct (decide (slot (view m) a j = 0)) as [->|Hn]; [split_and!; [lia|lia|lia|done]|].
  destruct (fo_slot _ _ _ Hok j Hj Hn) as [Hr Hu]. rewrite mk_data_start in Hr. rewrite mk_sb_eq in Hr at 1. cbn [sb_size] in Hr.
  rewrite view_free in Hu by (done || lia). apply bool_decide_eq_false in Hu. lia.
Qed.

Lemma direct_addr m a j : 0 ≤ j < NDIRECT → slot (view m) a j = a !!! Z.to_nat j.
Proof.
  intros Hj. unfold slot, faddr. rewrite (proj2 (Z.ltb_ge j 0)), (proj2 (Z.ltb_lt j _)) by lia. done.
Qed.

Lemma entry_addr m a j : NDIRECT ≤ j → ind a ≠ 0 → slot (view m) a j = get32 (view m (ind a)) (4 * (j - NDIRECT)).
Proof.
  intros Hj Hi. unfold slot, faddr. rewrite (proj2 (Z.ltb_ge j 0)), (proj2 (Z.ltb_ge j _)), (proj2 (Z.eqb_neq _ _) Hi) by (unfold NDIRECT in *; lia). done.
Qed.

Lemma rsect_ok m b : sound m → 0 ≤ b < 1000 → rsect b m = Some (im_sect m b).
Proof. intros S Hb. unfold rsect. rewrite decide_True; [done|]. by apply S. Qed.

(** The slots of a file that grows by a byte. *)
Lemma in_slot_next off j :
  0 ≤ off < 71680 → -1 ≤ j → in_slot (off + 1) j ↔
    in_slot off j ∨ off mod BSIZE = 0 ∧ (j = off / BSIZE ∨ j = -1 ∧ off / BSIZE = NDIRECT).
Proof.
  intros Ho Hj. destruct (blocks_next off ltac:(lia)) as [E1 E2]. pose proof (Z.div_pos off BSIZE ltac:(lia) ltac:(done)).
  unfold in_slot. rewrite E1, E2. destruct (decide (j = -1)) as [->|Hne]; destruct (Z.eqb_spec (off mod BSIZE) 0); unfold NDIRECT in *; lia.
Qed.

Lemma held_next off : 0 ≤ off → held (off + 1) = held off + (if off mod BSIZE =? 0 then if off / BSIZE =? NDIRECT then 2 else 1 else 0).
Proof.
  intros Ho. destruct (blocks_next off Ho) as [E1 E2]. unfold held. rewrite E1, E2. unfold NDIRECT.
  destruct (Z.eqb_spec (off mod BSIZE) 0); [|lia]. destruct (Z.eqb_spec (off / BSIZE) 12) as [->|]; [done|].
  destruct (Z.ltb_spec 12 (off / BSIZE + 1)), (Z.ltb_spec 12 (off / BSIZE)); lia.
Qed.

(** What [iappend_block] gives: block [fbn] of the file, there now. *)
Record got (m : image) (a : list Z) (m' : image) (a' : list Z) (off x : Z) : Prop := mkGot {
  gt_addr : x = slot (view m') a' (off / BSIZE);
  gt_step : file_step mk_sb (view m) a (view m') a' off [];
  gt_laid : laid (view m') a' (in_slot (off + 1));
  gt_sound : sound m';
  gt_fb : im_freeblock m' = im_freeblock m + held (off + 1) - held off;
  gt_ino : im_freeinode m' = im_freeinode m
}.

Lemma fbn_range off : 0 ≤ off < 71680 → 0 ≤ off / BSIZE < MAXFILE.
Proof. intros Ho. split; [by apply Z.div_pos; [lia|]|]. apply Z.div_lt_upper_bound; [done|]. change (BSIZE * MAXFILE) with 71680. lia. Qed.

Lemma has_block off : 0 ≤ off < 71680 → in_slot off (off / BSIZE) ↔ off mod BSIZE ≠ 0.
Proof.
  intros Ho. pose proof (fbn_range off Ho). destruct (blocks_next off ltac:(lia)) as [_ E]. unfold in_slot. rewrite decide_False, E by lia.
  destruct (Z.eqb_spec (off mod BSIZE) 0); lia.
Qed.

Lemma got_direct m a off :
  sound m → laid (view m) a (in_slot off) → 0 ≤ off < 71680 → off / BSIZE < NDIRECT → im_freeblock m + held (off + 1) - held off ≤ 1000 →
  ∃ x a' m', iappend_block a (off / BSIZE) m = Some (x, a', m') ∧ got m a m' a' off x.
Proof.
  intros S L Ho Hd Hfb. pose proof (fbn_range off Ho) as Hr. pose proof (ld_ok _ _ _ L) as Hok. pose proof (held_next off ltac:(lia)) as Hh.
  destruct (slot_small m a (off / BSIZE) S Hok ltac:(lia)) as (Hs & _ & Hsn). pose proof (sd_fb m S). pose proof (has_block off Ho) as Hhas.
  rewrite <- (ld_slot _ _ _ L) in Hhas by lia. pose proof (in_slot_next off) as Hin. pose proof (direct_addr m a (off / BSIZE) ltac:(lia)) as Ea.
  unfold iappend_block. rewrite (proj2 (Z.ltb_lt _ _) Hd). rewrite <- Ea, xint_small by lia.
  destruct (Z.eqb_spec (slot (view m) a (off / BSIZE)) 0) as [E0|E0].
  - assert (off mod BSIZE = 0) by (destruct (decide (off mod BSIZE = 0)); [done|tauto]). rewrite (proj2 (Z.eqb_eq _ _)), (proj2 (Z.eqb_neq _ NDIRECT)) in Hh by (done || lia).
    pose proof (place_direct m a off (off / BSIZE) S Hok ltac:(lia) ltac:(lia) E0) as Pl.
    cbn beta iota delta [newblock]. rewrite (xint_small (im_freeblock m)) by lia.
    change (mkImage (im_sect m) (im_freeinode m) (u32 (im_freeblock m + 1))) with (newblock m).2. eexists _, _, _. split; [done|].
    rewrite list_lookup_total_insert_eq by (rewrite (fo_len _ _ _ Hok); unfold NDIRECT in *; lia). rewrite (xint_small (im_freeblock m)) by lia.
    split; [|apply Pl| |apply Pl|rewrite (pl_fb _ _ _ _ _ _ Pl); lia|done].
    + rewrite (pl_slot _ _ _ _ _ _ Pl) by lia. by rewrite decide_True.
    + eapply laid_placed; [done|done|exact Pl|]. intros j' Hj'. rewrite Hin by lia. unfold NDIRECT in *. intuition lia.
  - assert (off mod BSIZE ≠ 0) by tauto. rewrite (proj2 (Z.eqb_neq _ _)) in Hh by done. rewrite <- Ea, xint_small by lia. eexists _, _, _. split; [done|].
    split; [done|by apply file_step_refl| |done|lia|done]. split; [done|]. intros j Hj. rewrite (ld_slot _ _ _ L), Hin by lia. intuition lia.
Qed.

(** The indirect block. *)
Definition ind_stage a m : list Z * image :=
  if xint (a !!! Z.to_nat NDIRECT) =? 0 then let '(b, m) := newblock m in (<[Z.to_nat NDIRECT := xint b]> a, m) else (a, m).

Lemma ind_stage_run m a off :
  sound m → laid (view m) a (in_slot off) → 0 ≤ off < 71680 → NDIRECT ≤ off / BSIZE → im_freeblock m + held (off + 1) - held off ≤ 1000 →
  let '(a', m') := ind_stage a m in
  sound m' ∧ laid (view m') a' (λ j, j = -1 ∨ in_slot off j) ∧ file_step mk_sb (view m) a (view m') a' off [] ∧
  im_freeblock m' = im_freeblock m + (if (off mod BSIZE =? 0) && (off / BSIZE =? NDIRECT) then 1 else 0) ∧ im_freeinode m' = im_freeinode m.
Proof.
  intros S L Ho Hd Hfb. pose proof (ld_ok _ _ _ L) as Hok. pose proof (held_next off ltac:(lia)) as Hh. pose proof (sd_fb m S).
  destruct (slot_small m a (-1) S Hok ltac:(done)) as (Hs & _ & Hsn). pose proof (ld_slot _ _ _ L (-1) ltac:(done)) as Hi.
  assert (Hin : in_slot off (-1) ↔ ¬ (off mod BSIZE = 0 ∧ off / BSIZE = NDIRECT)).
  { destruct (blocks_next off ltac:(lia)) as [_ E]. unfold in_slot. rewrite decide_True, E by done. destruct (Z.eqb_spec (off mod BSIZE) 0); lia. }
  rewrite Hin in Hi. unfold ind_stage. change (a !!! Z.to_nat NDIRECT) with (slot (view m) a (-1)). rewrite xint_small by lia.
  destruct (Z.eqb_spec (slot (view m) a (-1)) 0) as [E0|E0].
  - assert (off mod BSIZE = 0 ∧ off / BSIZE = NDIRECT) as [E1 E2] by lia. rewrite E1, E2, !Z.eqb_refl in *. cbn [andb].
    pose proof (place_ind m a off S Hok ltac:(lia) E0) as Pl. cbn [newblock]. rewrite (xint_small (im_freeblock m)) by lia.
    change (mkImage (im_sect m) (im_freeinode m) (u32 (im_freeblock m + 1))) with (newblock m).2.
    split_and!; [apply Pl| |apply Pl|exact (pl_fb _ _ _ _ _ _ Pl)|done]. eapply laid_placed; [done|done|exact Pl|]. done.
  - assert (Hn : ¬ (off mod BSIZE = 0 ∧ off / BSIZE = NDIRECT)) by tauto.
    assert ((off mod BSIZE =? 0) && (off / BSIZE =? NDIRECT) = false) as -> by (destruct (Z.eqb_spec (off mod BSIZE) 0), (Z.eqb_spec (off / BSIZE) NDIRECT); [lia|done..]).
    split_and!; [done| |by apply file_step_refl|lia|done]. split; [done|]. intros j Hj. rewrite (ld_slot _ _ _ L) by done. split; [by right|].
    intros [->|Hj']; [by apply Hin|done].
Qed.

Lemma got_indirect m a off :
  sound m → laid (view m) a (in_slot off) → 0 ≤ off < 71680 → NDIRECT ≤ off / BSIZE → im_freeblock m + held (off + 1) - held off ≤ 1000 →
  ∃ x a' m', iappend_block a (off / BSIZE) m = Some (x, a', m') ∧ got m a m' a' off x.
Proof.
  intros S L Ho Hd Hfb. pose proof (fbn_range off Ho) as Hr. pose proof (held_next off ltac:(lia)) as Hh. pose proof (ind_stage_run m a off S L Ho Hd Hfb) as Hst.
  unfold iappend_block. rewrite (proj2 (Z.ltb_ge _ _) Hd). fold (ind_stage a m). destruct (ind_stage a m) as [a1 m1]. destruct Hst as (S1 & L1 & F1 & Hf1 & Hi1).
  pose proof (ld_ok _ _ _ L1) as Hok. pose proof (sd_fb m1 S1). destruct (slot_small m1 a1 (-1) S1 Hok ltac:(done)) as (Hs & Hs58 & Hsn).
  assert (Hind : ind a1 ≠ 0) by (apply (ld_slot _ _ _ L1 (-1)); [done|by left]). change (slot (view m1) a1 (-1)) with (ind a1) in *.
  change (a1 !!! Z.to_nat NDIRECT) with (ind a1). rewrite xint_small by lia. rewrite rsect_ok by (done || lia). cbn [mbind option_bind].
  destruct (slot_small m1 a1 (off / BSIZE) S1 Hok ltac:(lia)) as (Ht & _ & _). pose proof (entry_addr m1 a1 (off / BSIZE) Hd Hind) as Ee. rewrite view_ne in Ee by done.
  rewrite <- Ee. pose proof (has_block off Ho) as Hhas. pose proof (in_slot_next off) as Hin. pose proof (entry_range (off / BSIZE) ltac:(lia)) as Her.
  assert (Hsl : slot (view m1) a1 (off / BSIZE) ≠ 0 ↔ off mod BSIZE ≠ 0) by (rewrite (ld_slot _ _ _ L1) by lia; intuition lia).
  assert (Hcat : ∀ m' a', file_step mk_sb (view m1) a1 (view m') a' off [] → file_step mk_sb (view m) a (view m') a' off []).
  { intros m' a' F. apply (file_step_trans _ _ _ mk_geometry _ _ _ _ _ _ off [] [] ltac:(lia) ltac:(change (BSIZE * MAXFILE) with 71680; simpl; lia) F1). by rewrite Z.add_0_r. }
  destruct (Z.eqb_spec (slot (view m1) a1 (off / BSIZE)) 0) as [E0|E0].
  - assert (Em : off mod BSIZE = 0) by (destruct (decide (off mod BSIZE = 0)); [done|tauto]). rewrite Em, Z.eqb_refl in *. cbn [andb] in Hf1.
    assert (im_freeblock m1 < 1000) by (destruct (off / BSIZE =? NDIRECT); lia).
    pose proof (place_entry m1 a1 off (off / BSIZE) S1 Hok ltac:(lia) ltac:(lia) Hind E0) as Pl. cbn beta iota delta [newblock].
    change (mkImage (im_sect m1) (im_freeinode m1) (u32 (im_freeblock m1 + 1))) with (newblock m1).2. rewrite (xint_small (im_freeblock m1)) by lia.
    rewrite get32_put32, (u32_small (im_freeblock m1)) by (first [lia|rewrite (sd_len m1 S1) by lia; lia]). rewrite (xint_small (im_freeblock m1)) by lia.
    eexists _, _, _. split; [done|]. split; [|apply Hcat, Pl| |apply Pl| |by rewrite (pl_ino _ _ _ _ _ _ Pl)].
    + rewrite (pl_slot _ _ _ _ _ _ Pl) by lia. by rewrite decide_True.
    + eapply laid_placed; [done|done|exact Pl|]. intros j' Hj'. rewrite Hin by lia. unfold in_slot. destruct (decide (j' = -1)); [|intuition lia].
      destruct (blocks_next off ltac:(lia)) as [_ ->]. rewrite Em. cbn [Z.eqb]. intuition lia.
    + rewrite (pl_fb _ _ _ _ _ _ Pl). destruct (off / BSIZE =? NDIRECT); lia.
  - assert (Em : off mod BSIZE ≠ 0) by tauto. rewrite (proj2 (Z.eqb_neq _ _) Em) in *. cbn [andb] in Hf1. rewrite xint_small by lia.
    eexists _, _, _. split; [done|]. split; [done|done| |done|lia|done]. split; [done|]. intros j Hj. rewrite (ld_slot _ _ _ L1), Hin by lia.
    split; [|intuition lia]. intros [->|H']; [|by left]. left. unfold in_slot. rewrite decide_True by done. destruct (blocks_next off ltac:(lia)) as [_ ->].
    rewrite (proj2 (Z.eqb_neq _ _) Em). lia.
Qed.

Lemma iappend_block_run m a off :
  sound m → laid (view m) a (in_slot off) → 0 ≤ off < 71680 → im_freeblock m + held (off + 1) - held off ≤ 1000 →
  ∃ x a' m', iappend_block a (off / BSIZE) m = Some (x, a', m') ∧ got m a m' a' off x.
Proof. intros S L Ho Hfb. destruct (decide (off / BSIZE < NDIRECT)); [by apply got_direct|apply got_indirect; try done; lia]. Qed.

(** Within a block the number of blocks does not change. *)
Lemma blocks_within off n : 0 ≤ off → 0 < n → off mod BSIZE + n ≤ BSIZE → blocks (off + n) = blocks (off + 1).
Proof.
  intros Ho Hn Hle. destruct (blocks_next off Ho) as [-> _]. unfold blocks. assert (BSIZE = 512) as Eb by done. rewrite Eb in *.
  pose proof (Z.div_mod off 512 ltac:(lia)). pose proof (Z.mod_pos_bound off 512 ltac:(lia)). symmetry. apply Z.div_unique with (off mod 512 + n - 1); lia.
Qed.

Lemma held_mono x y : 0 ≤ x ≤ y → held x ≤ held y.
Proof.
  intros H. unfold held, blocks. pose proof (Z.div_le_mono (x + BSIZE - 1) (y + BSIZE - 1) BSIZE ltac:(done) ltac:(lia)).
  destruct (Z.ltb_spec NDIRECT ((x + BSIZE - 1) / BSIZE)), (Z.ltb_spec NDIRECT ((y + BSIZE - 1) / BSIZE)); lia.
Qed.

Lemma in_slot_blocks x y j : blocks x = blocks y → in_slot x j ↔ in_slot y j.
Proof. intros E. unfold in_slot. by rewrite E. Qed.

Lemma write_run m a off w :
  sound m → laid (view m) a (in_slot (off + 1)) → 0 ≤ off < 71680 → (0 < length w)%nat → off mod BSIZE + Z.of_nat (length w) ≤ BSIZE →
  let x := slot (view m) a (off / BSIZE) in
  let m' := wsect x (splice (Z.to_nat (off mod BSIZE)) w (im_sect m x)) m in
  0 ≤ x < 1000 ∧ file_step mk_sb (view m) a (view m') a off w ∧ laid (view m') a (in_slot (off + Z.of_nat (length w))) ∧ sound m'.
Proof.
  intros S L Ho Hw Hle x m'. pose proof (fbn_range off Ho) as Hr. pose proof (ld_ok _ _ _ L) as Hok. destruct (blocks_next off ltac:(lia)) as [Eb _].
  assert (Hx : x ≠ 0) by (apply (ld_slot _ _ _ L); [lia|]; unfold in_slot; rewrite decide_False, Eb by lia; lia).
  destruct (slot_small m a (off / BSIZE) S Hok ltac:(lia)) as (Hs & H58 & Hsn). fold x in Hs, H58, Hsn. specialize (Hsn Hx).
  assert (Ef : faddr (view m) a (off / BSIZE) = x) by (unfold x; by rewrite slot_faddr by lia).
  assert (Hv : ∀ y, <[x := splice (Z.to_nat (off mod BSIZE)) w (view m x)]> (view m) y = view m' y).
  { intros y. rewrite (view_ne m x) by done. unfold view, m'. cbn [wsect im_freeblock im_sect]. by apply seen_insert. }
  assert (F : file_step mk_sb (view m) a (view m') a off w).
  { eapply file_step_ext; [exact Hv|]. pose proof (byte_step _ _ _ mk_geometry (view m) a off w) as B. cbv zeta in B. rewrite Ef in B. apply B; try done.
    rewrite view_ne by done. apply S. lia. }
  assert (Hsl : ∀ j, slot (view m') a j = slot (view m) a j).
  { intros j. rewrite <- (slot_ext _ _ Hv). unfold slot, faddr. rewrite fn_lookup_insert_ne; [done|]. rewrite <- Ef. eapply fo_ind_ne; [exact Hok|lia|by rewrite Ef]. }
  split_and!; [lia|lia|done| |].
  - split; [apply F|]. intros j Hj. rewrite Hsl, (ld_slot _ _ _ L) by done. apply in_slot_blocks. symmetry. apply blocks_within; lia.
  - destruct S as [H1 H2 H3]. split; [| |done].
    + intros b Hb. unfold m'. cbn [wsect im_sect]. destruct (decide (b = x)) as [->|]; [|rewrite fn_lookup_insert_ne by done; by apply H1].
      rewrite fn_lookup_insert, length_splice. by apply H1.
    + intros b Hb. unfold m' in *. cbn [wsect im_sect im_freeblock] in *. rewrite fn_lookup_insert_ne by lia. by apply H2.
Qed.

(** The contract of the loop of [iappend]. *)
Record appended m a m' a' off (p : list Z) : Prop := mkAppended {
  ap_step : file_step mk_sb (view m) a (view m') a' off p;
  ap_laid : laid (view m') a' (in_slot (off + Z.of_nat (length p)));
  ap_sound : sound m';
  ap_fb : im_freeblock m' = im_freeblock m + held (off + Z.of_nat (length p)) - held off;
  ap_ino : im_freeinode m' = im_freeinode m
}.

Lemma iappend_loop_run fuel m a off p :
  sound m → laid (view m) a (in_slot off) → 0 ≤ off → off + Z.of_nat (length p) ≤ 71680 →
  im_freeblock m + held (off + Z.of_nat (length p)) - held off ≤ 1000 → (length p ≤ fuel)%nat →
  ∃ a' m', iappend_loop fuel a off p m = Some (a', off + Z.of_nat (length p), m') ∧ appended m a m' a' off p.
Proof.
  revert m a off p. induction fuel as [|fuel IH]; intros m a off p S L Ho Hmax Hfb Hf; destruct p as [|c p]; cbn [iappend_loop].
  1, 3: exists a, m; rewrite Z.add_0_r; split; [done|]; split; rewrite ?Z.add_0_r; [apply file_step_refl, L|done|done|lia|done].
  { simpl in Hf. lia. }
  set (q := c :: p) in *. assert (Hq : (0 < length q)%nat) by (simpl; lia). assert (EB : BSIZE = 512) by done. pose proof (Z.mod_pos_bound off BSIZE ltac:(done)) as Hmod.
  pose proof (fbn_range off ltac:(lia)) as Hr. rewrite (proj2 (Z.ltb_lt _ _)) by lia. cbn [negb]. pose proof (held_mono (off + 1) (off + Z.of_nat (length q)) ltac:(lia)) as Hm1.
  destruct (iappend_block_run m a off S L ltac:(lia) ltac:(lia)) as (x & a1 & m1 & -> & [Hx F1 L1 S1 Hf1 Hi1]). cbn [mbind option_bind].
  set (n1 := Z.min (Z.of_nat (length q)) ((off / BSIZE + 1) * BSIZE - off)). pose proof (Z.div_mod off BSIZE ltac:(done)) as Hdm.
  assert (Hn1 : 0 < n1 ≤ Z.of_nat (length q) ∧ off mod BSIZE + n1 ≤ BSIZE) by (unfold n1; lia).
  set (w := take (Z.to_nat n1) q). assert (Hw : length w = Z.to_nat n1) by (unfold w; rewrite length_take; lia).
  destruct (write_run m1 a1 off w S1 L1 ltac:(lia) ltac:(lia) ltac:(lia)) as (Hxr & F2 & L2 & S2). rewrite <- Hx in *. rewrite rsect_ok by (done || lia). cbn [mbind option_bind].
  replace (off - off / BSIZE * BSIZE) with (off mod BSIZE) by lia. rewrite u32_small by lia. set (m2 := wsect x _ m1) in *.
  assert (Hd : Z.of_nat (length (drop (Z.to_nat n1) q)) = Z.of_nat (length q) - n1) by (rewrite length_drop; lia).
  assert (E2 : off + Z.of_nat (length w) = off + n1) by lia. rewrite E2 in L2. pose proof (blocks_within off n1 ltac:(lia) ltac:(lia) ltac:(lia)) as Hbw.
  assert (Hh : held (off + n1) = held (off + 1)) by (unfold held; by rewrite Hbw). assert (Ef2 : im_freeblock m2 = im_freeblock m1) by done.
  destruct (IH m2 a1 (off + n1) (drop (Z.to_nat n1) q)) as (a' & m' & E & A); [done|done|lia|lia| |rewrite length_drop; simpl in *; lia|].
  { rewrite Hd, Ef2, Hf1, Hh. replace (off + n1 + (Z.of_nat (length q) - n1)) with (off + Z.of_nat (length q)) by lia. lia. }
  exists a', m'. rewrite E. rewrite Hd. replace (off + n1 + (Z.of_nat (length q) - n1)) with (off + Z.of_nat (length q)) by lia. split; [done|].
  destruct A as [F3 L3 S3 Hf3 Hi3]. rewrite Hd in L3, Hf3. replace (off + n1 + (Z.of_nat (length q) - n1)) with (off + Z.of_nat (length q)) in L3, Hf3 by lia.
  split; [|done|done|rewrite Hf3, Ef2, Hf1, Hh; lia|rewrite Hi3; exact Hi1].
  assert (Eq : q = [] ++ w ++ drop (Z.to_nat n1) q) by (symmetry; apply take_drop). rewrite Eq.
  assert (Hlen : off + Z.of_nat (length (w ++ drop (Z.to_nat n1) q)) ≤ BSIZE * MAXFILE) by (unfold w; rewrite take_drop; change (BSIZE * MAXFILE) with 71680; lia).
  eapply (file_step_trans _ _ _ mk_geometry); [lia|done|exact F1|]. rewrite Z.add_0_r.
  eapply (file_step_trans _ _ _ mk_geometry); [lia|done|exact F2|]. by rewrite E2.
Qed.
End append.

(** * Files in the image *)

(** Inode [inum] of the disk [w] is a file of type [ty] with these contents,
    held in the blocks [a] names. *)
Record file_on (w : Z → list Z) (inum ty : Z) (content a : list Z) : Prop := mkFileOn {
  fn_disk : ondisk w mk_sb inum = mkDinode ty 0 0 1 (Z.of_nat (length content)) a;
  fn_laid : laid w a (in_slot (Z.of_nat (length content)));
  fn_bytes : fbytes w a 0 (Z.of_nat (length content)) = content;
  fn_max : Z.of_nat (length content) ≤ 71680;
  fn_type : s16_ok ty
}.

(** The sector of the superblock. *)
Definition super_block : list Z := splice 0 (encode_sb mk_sb) zeroes.

Definition total_held (fs : list (Z * list Z)) : Z := foldr (λ f n, held (Z.of_nat (length f.2)) + n) 0 fs.

(** The image holds the files [fs] as inodes 1, 2, ..., with their blocks in
    [A], all of them different; blocks are used up to [freeblock]. *)
Record image_ok (m : image) (fs : list (Z * list Z)) (A : list (list Z)) : Prop := mkImageOk {
  ik_sound : sound m;
  ik_ino : im_freeinode m = 1 + Z.of_nat (length fs);
  ik_len : length A = length fs;
  ik_file i ty c a : fs !! i = Some (ty, c) → A !! i = Some a → file_on (view m) (Z.of_nat i + 1) ty c a;
  ik_disj i j a b x : A !! i = Some a → A !! j = Some b → i ≠ j → owns (view m) a x → owns (view m) b x → x = 0;
  ik_fb : im_freeblock m = nmeta + total_held fs;
  ik_super : im_sect m 1 = super_block
}.

Section files.
Implicit Types (m : image) (a b : list Z) (w : Z → list Z).

(** A file beside the one that changes. *)
Lemma keep_file w a w' a' off p b P :
  file_step mk_sb w a w' a' off p → laid w b P → (∀ x, owns w a x → owns w b x → x = 0) →
  (∀ j, slot w' b j = slot w b j) ∧ laid w' b P ∧
  (∀ k, 0 ≤ k < 71680 → faddr w b (k / BSIZE) ≠ 0 → fbyte w' b k = fbyte w b k) ∧
  (∀ x, owns w' a' x → owns w' b x → x = 0).
Proof.
  intros F L Hd. pose proof (ld_ok _ _ _ L) as Hok. pose proof (data_start_pos _ _ _ mk_geometry).
  assert (Hother : ∀ j, -1 ≤ j < MAXFILE → slot w b j ≠ 0 → w' (slot w b j) = w (slot w b j) ∧ ¬ owns w' a' (slot w b j) ∧ free w' mk_sb (slot w b j) = false).
  { intros j Hj Hn. destruct (fo_slot _ _ _ Hok j Hj Hn) as [Hr Hu]. destruct (fs_other _ _ _ _ _ _ _ F (slot w b j) Hr Hu) as [H1 H2].
    - intros Ho. apply Hn, Hd; [done|]. by exists j.
    - split_and!; [done|done|]. apply (fs_used _ _ _ _ _ _ _ F); [lia|done]. }
  assert (Hfa : ∀ j, faddr w' b j = faddr w b j).
  { intros j. unfold faddr. destruct (j <? NDIRECT); [done|]. destruct (Z.eqb_spec (ind b) 0) as [|Hi]; [done|].
    destruct (Hother (-1) ltac:(done) Hi) as [E _]. change (slot w b (-1)) with (ind b) in E. by rewrite E. }
  assert (Hsl : ∀ j, slot w' b j = slot w b j) by (intros j; unfold slot; by rewrite Hfa).
  split_and!; [done| | |].
  - split; [split|].
    + apply Hok.
    + intros j Hj. rewrite Hsl. intros Hn. destruct (fo_slot _ _ _ Hok j Hj Hn) as [Hr _]. split; [done|]. by apply Hother.
    + intros j1 j2. rewrite !Hsl. apply (fo_inj _ _ _ Hok).
    + intros j Hj. rewrite Hsl. by apply L.
  - intros k Hk Hn. unfold fbyte. rewrite Hfa. pose proof (fbn_range k Hk). rewrite <- slot_faddr in * by lia. destruct (Hother (k / BSIZE) ltac:(lia) Hn) as [-> _]. done.
  - intros x Ha (j & Hj & E). rewrite Hsl in E. destruct (decide (x = 0)) as [|Hx]; [done|]. exfalso. destruct (Hother j Hj ltac:(congruence)) as (_ & Hno & _). by rewrite E in Hno.
Qed.

(** The struct inode of a file, as [iupdate] would store it. *)
Definition ghost (inum ty sz : Z) a : inode := mkInode 1 inum 0 sleep_zero 0 ty 0 0 1 sz a.

Lemma mk_IBLOCK inum : 0 ≤ inum < 200 → 32 ≤ IBLOCK inum mk_sb < 58.
Proof.
  intros Hi. rewrite (IBLOCK_eq _ _ _ mk_geometry) by (rewrite mk_sb_eq; simpl; lia). rewrite mk_sb_eq. cbn [sb_inodestart].
  assert (IPB = 8) as -> by done. pose proof (Z.div_pos inum 8). pose proof (Z.div_lt_upper_bound inum 8 25). lia.
Qed.

Lemma rinode_run m inum : sound m → 0 ≤ inum < 200 → rinode inum m = Some (ondisk (view m) mk_sb inum).
Proof.
  intros S Hi. pose proof (mk_IBLOCK inum Hi). unfold rinode. rewrite rsect_ok by (done || lia). cbn [mbind option_bind].
  unfold ondisk. by rewrite view_ne by lia.
Qed.

Lemma winode_run m inum ty sz a :
  sound m → 0 ≤ inum < 200 →
  ∃ m', winode inum (mkDinode ty 0 0 1 sz a) m = Some m' ∧ sound m' ∧ (∀ x, store mk_sb (ghost inum ty sz a) (view m) x = view m' x) ∧
    im_freeblock m' = im_freeblock m ∧ im_freeinode m' = im_freeinode m ∧ im_sect m' 1 = im_sect m 1.
Proof.
  intros S Hi. pose proof (mk_IBLOCK inum Hi) as HI. unfold winode. rewrite rsect_ok by (done || lia). cbn [mbind option_bind]. pose proof (sd_fb m S).
  eexists. split; [done|]. split_and!; [|..|done|done|by (cbn [wsect im_sect]; rewrite fn_lookup_insert_ne by lia)].
  - destruct S as [H1 H2 H3]. split; [| |done].
    + intros b Hb. cbn [wsect im_sect]. destruct (decide (b = IBLOCK inum mk_sb)) as [->|]; [|rewrite fn_lookup_insert_ne by done; by apply H1].
      rewrite fn_lookup_insert, length_put_dinode. by apply H1.
    + intros b Hb. cbn [wsect im_sect im_freeblock] in *. rewrite fn_lookup_insert_ne by lia. by apply H2.
  - intros x. unfold store, view. cbn [ghost i_inum wsect im_freeblock im_sect]. rewrite <- seen_insert by lia. by rewrite (seen_ne _ _ (IBLOCK inum mk_sb)) by lia.
Qed.

(** Storing an inode changes no file. *)
Lemma keep_store w w' inum ty sz a b P :
  (∀ x, store mk_sb (ghost inum ty sz a) w x = w' x) → 0 ≤ inum < 200 → laid w b P →
  (∀ j, slot w' b j = slot w b j) ∧ laid w' b P ∧ (∀ k, 0 ≤ k < 71680 → faddr w b (k / BSIZE) ≠ 0 → fbyte w' b k = fbyte w b k).
Proof.
  intros E Hi [Hok Hs]. destruct (store_file mk_sb mk_log 1000 w (ghost inum ty sz a) b mk_geometry) as (H1 & H2 & H3 & H4); [rewrite mk_sb_eq; exact Hi|done|].
  assert (Hsl : ∀ j, slot w' b j = slot w b j) by (intros j; rewrite <- (slot_ext _ _ E); unfold slot; by rewrite H2).
  split_and!; [done|split; [by eapply file_ok_ext|intros j Hj; rewrite Hsl; by apply Hs]|].
  intros k Hk Hn. unfold fbyte. rewrite <- (faddr_ext _ _ E), <- E. by apply H3.
Qed.

Lemma byte_slot k n : 0 ≤ k < n → in_slot n (k / BSIZE).
Proof.
  intros Hk. unfold in_slot. assert (BSIZE = 512) as EB by done. pose proof (Z.div_pos k 512 ltac:(lia) ltac:(lia)). rewrite decide_False by (rewrite EB; lia).
  unfold blocks. rewrite EB. apply Z.lt_le_trans with (k / 512 + 1); [lia|]. replace (k / 512 + 1) with ((k + 512) / 512) by (rewrite <- Z.div_add by lia; f_equal; lia).
  apply Z.div_le_mono; lia.
Qed.

Lemma laid_byte w a n k : laid w a (in_slot n) → 0 ≤ k < n → n ≤ 71680 → faddr w a (k / BSIZE) ≠ 0.
Proof.
  intros L Hk Hn. pose proof (fbn_range k ltac:(lia)). rewrite <- slot_faddr by lia. apply (ld_slot _ _ _ L); [lia|]. by apply byte_slot.
Qed.

Lemma fbytes_ext w w' a a' off n : (∀ k, off ≤ k < off + n → fbyte w' a' k = fbyte w a k) → fbytes w' a' off n = fbytes w a off n.
Proof. intros H. unfold fbytes. apply list_fmap_ext. intros i k Hk%lookup_seqZ. apply H. lia. Qed.

Lemma keep_file_on w w' inum ty c b :
  file_on w inum ty c b → laid w' b (in_slot (Z.of_nat (length c))) →
  (∀ k, 0 ≤ k < 71680 → faddr w b (k / BSIZE) ≠ 0 → fbyte w' b k = fbyte w b k) → ondisk w' mk_sb inum = ondisk w mk_sb inum →
  file_on w' inum ty c b.
Proof.
  intros [H1 H2 H3 H4 H5] L Hk Hd. split; [by rewrite Hd|done| |done|done]. rewrite <- H3 at 2. apply fbytes_ext. intros k Hk'. apply Hk; [lia|].
  eapply laid_byte; [exact H2|lia|done].
Qed.

(** The file that grows. *)
Lemma grown_bytes w a w' a' c p :
  file_step mk_sb w a w' a' (Z.of_nat (length c)) p → laid w a (in_slot (Z.of_nat (length c))) → fbytes w a 0 (Z.of_nat (length c)) = c →
  Z.of_nat (length (c ++ p)) ≤ 71680 → fbytes w' a' 0 (Z.of_nat (length (c ++ p))) = c ++ p.
Proof.
  intros F L Hc Hmax. rewrite length_app, Nat2Z.inj_add in *. rewrite fbytes_app by lia. f_equal.
  - rewrite <- Hc at 2. apply fbytes_ext. intros k Hk. apply (fs_old _ _ _ _ _ _ _ F); [change (BSIZE * MAXFILE) with 71680; lia|lia|]. eapply laid_byte; [exact L|lia|lia].
  - apply fbytes_eq. intros k Hk. apply (fs_new _ _ _ _ _ _ _ F). lia.
Qed.

Lemma total_held_insert fs i ty c c' :
  fs !! i = Some (ty, c) → total_held (<[i := (ty, c')]> fs) = total_held fs + held (Z.of_nat (length c')) - held (Z.of_nat (length c)).
Proof.
  revert i. induction fs as [|f fs IH]; intros [|i] H; simplify_eq/=; [lia|]. rewrite (IH i H). lia.
Qed.

Lemma ondisk_ext w w' inum : (∀ x, w x = w' x) → ondisk w mk_sb inum = ondisk w' mk_sb inum.
Proof. intros E. unfold ondisk. by rewrite E. Qed.

(** The inodes after one of them is stored. *)
Lemma ondisk_stored w w' inum ty sz a j :
  (∀ x, store mk_sb (ghost inum ty sz a) w x = w' x) → 0 ≤ inum < 200 → 0 ≤ j < 200 →
  length (w (IBLOCK inum mk_sb)) = Z.to_nat BSIZE → dinode_ok (mkDinode ty 0 0 1 sz a) →
  ondisk w' mk_sb j = if decide (j = inum) then mkDinode ty 0 0 1 sz a else ondisk w mk_sb j.
Proof.
  intros E Hi Hj Hl Hd. rewrite <- (ondisk_ext _ _ _ E). destruct (decide (j = inum)) as [->|Hne].
  - apply (ondisk_store mk_sb w (ghost inum ty sz a)); [simpl; lia|exact Hl|exact Hd].
  - apply (ondisk_store_ne _ _ _ mk_geometry); [rewrite mk_sb_eq; simpl; lia|rewrite mk_sb_eq; simpl; lia|done].
Qed.

Lemma laid_dinode m a ty sz P : sound m → laid (view m) a P → s16_ok ty → 0 ≤ sz ≤ 71680 → dinode_ok (mkDinode ty 0 0 1 sz a).
Proof.
  intros S L Ht Hsz. pose proof (ld_ok _ _ _ L) as Hok. split; try done; [simpl; lia|apply Hok|]. intros k Hk. cbn [di_addrs].
  assert (∃ j, -1 ≤ j < MAXFILE ∧ slot (view m) a j = a !!! k) as (j & Hj & <-).
  { destruct (decide (k = 12%nat)) as [->|]; [by exists (-1)|]. exists (Z.of_nat k). assert (MAXFILE = 140) by done. split; [lia|].
    rewrite direct_addr by (unfold NDIRECT; lia). by rewrite Nat2Z.id. }
  destruct (slot_small m a j S Hok Hj). lia.
Qed.

Lemma owns_slots w w' a x : (∀ j, slot w' a j = slot w a j) → owns w' a x ↔ owns w a x.
Proof. intros H. unfold owns. by setoid_rewrite H. Qed.

(** Both together: what the rest of the image is after one file has changed. *)
Record kept m m' b : Prop := mkKept {
  kp_slot j : slot (view m') b j = slot (view m) b j;
  kp_laid P : laid (view m) b P → laid (view m') b P;
  kp_byte k : 0 ≤ k < 71680 → faddr (view m) b (k / BSIZE) ≠ 0 → fbyte (view m') b k = fbyte (view m) b k
}.

Lemma kept_trans m1 m2 m3 b : kept m1 m2 b → kept m2 m3 b → kept m1 m3 b.
Proof.
  intros [H1 H2 H3] [H4 H5 H6]. split; [intros; by rewrite H4, H1|intros; by apply H5, H2|].
  intros k Hk Hn. rewrite H6, H3; try done. pose proof (fbn_range k Hk). rewrite <- slot_faddr in * by lia. by rewrite H1.
Qed.

Lemma kept_step m m' a a' off p b Q :
  file_step mk_sb (view m) a (view m') a' off p → laid (view m) b Q → (∀ x, owns (view m) a x → owns (view m) b x → x = 0) →
  kept m m' b ∧ ∀ x, owns (view m') a' x → owns (view m') b x → x = 0.
Proof.
  intros F L Hd. destruct (keep_file _ _ _ _ _ _ _ _ F L Hd) as (H1 & H2 & H3 & H4). split; [|done]. split; [done| |done].
  intros P LP. by destruct (keep_file _ _ _ _ _ _ _ _ F LP Hd) as (_ & ? & _).
Qed.

Lemma kept_store m m' inum ty sz a b Q :
  (∀ x, store mk_sb (ghost inum ty sz a) (view m) x = view m' x) → 0 ≤ inum < 200 → laid (view m) b Q → kept m m' b.
Proof.
  intros Hv Hi L. destruct (keep_store _ _ _ _ _ _ _ _ Hv Hi L) as (H1 & H2 & H3). split; [done| |done].
  intros P LP. by destruct (keep_store _ _ _ _ _ _ _ _ Hv Hi LP) as (_ & ? & _).
Qed.

Lemma step_ondisk m m' a a' off p j :
  file_step mk_sb (view m) a (view m') a' off p → 0 ≤ j < 200 → ondisk (view m') mk_sb j = ondisk (view m) mk_sb j.
Proof.
  intros F Hj. unfold ondisk. rewrite (fs_meta _ _ _ _ _ _ _ F); [done|]. pose proof (mk_IBLOCK j Hj). rewrite mk_sb_eq at 2. simpl. lia.
Qed.

(** [iappend] makes the file longer and leaves all others as they are. *)
Lemma iappend_run m fs A i ty c p :
  image_ok m fs A → fs !! i = Some (ty, c) → (length fs ≤ 199)%nat → Z.of_nat (length (c ++ p)) ≤ 71680 →
  im_freeblock m + held (Z.of_nat (length (c ++ p))) - held (Z.of_nat (length c)) ≤ 1000 →
  ∃ m' a', iappend (Z.of_nat i + 1) p m = Some m' ∧ image_ok m' (<[i := (ty, c ++ p)]> fs) (<[i := a']> A).
Proof.
  intros [S Hino Hlen Hfile Hdisj Hfb Hsup] Hi Hn Hmax Hroom. pose proof (lookup_lt_Some _ _ _ Hi) as Hil.
  assert (∃ a, A !! i = Some a) as [a Ha] by (apply lookup_lt_is_Some_2; by rewrite Hlen).
  pose proof (Hfile i ty c a Hi Ha) as Fi. pose proof Fi as [Fd Fl Fb Fm Ft]. unfold iappend. rewrite rinode_run by (done || lia). cbn [mbind option_bind].
  rewrite Fd. cbn [di_addrs di_size di_type di_major di_minor di_nlink]. rewrite xint_small by lia. pose proof Hmax as Hmax'. rewrite length_app, Nat2Z.inj_add in Hmax, Hroom.
  destruct (iappend_loop_run (length p) m a (Z.of_nat (length c)) p S Fl ltac:(lia) ltac:(lia) ltac:(lia) ltac:(lia)) as (a' & m1 & -> & [F1 L1 S1 Hf1 Hi1]).
  cbn [mbind option_bind]. rewrite xint_small by lia. set (n := Z.of_nat (length c) + Z.of_nat (length p)) in *.
  destruct (winode_run m1 (Z.of_nat i + 1) ty n a' S1 ltac:(lia)) as (m2 & -> & S2 & Hv & Hf2 & Hi2 & Hs2). exists m2, a'. split; [done|].
  assert (En : Z.of_nat (length (c ++ p)) = n) by (rewrite length_app; lia).
  assert (Hod : ∀ j, 0 ≤ j < 200 → ondisk (view m2) mk_sb j = if decide (j = Z.of_nat i + 1) then mkDinode ty 0 0 1 n a' else ondisk (view m) mk_sb j).
  { intros j Hj. rewrite (ondisk_stored _ _ _ _ _ _ j Hv); [by rewrite (step_ondisk _ _ _ _ _ _ j F1 Hj)|lia|lia| |].
    - pose proof (mk_IBLOCK (Z.of_nat i + 1) ltac:(lia)). rewrite view_ne by lia. apply (sd_len m1 S1). lia.
    - eapply laid_dinode; [exact S1|exact L1|done|lia]. }
  pose proof (kept_store _ _ _ _ _ _ a' _ Hv ltac:(lia) L1) as Ka.
  assert (Kb : ∀ j b, A !! j = Some b → j ≠ i → kept m m2 b ∧ ∀ x, owns (view m2) a' x → owns (view m2) b x → x = 0).
  { intros j b Hb Hne. assert (∃ f, fs !! j = Some f) as [[tj cj] Hj] by (apply lookup_lt_is_Some_2; rewrite <- Hlen; by eapply lookup_lt_Some).
    pose proof (fn_laid _ _ _ _ _ (Hfile j tj cj b Hj Hb)) as Lb. destruct (kept_step _ _ _ _ _ _ b _ F1 Lb) as [K1 D1]; [intros x; by apply (Hdisj i j a b)|].
    pose proof (kept_store _ _ _ _ _ _ b _ Hv ltac:(lia) (kp_laid _ _ _ K1 _ Lb)) as K2. split; [by eapply kept_trans|].
    intros x. rewrite (owns_slots _ _ _ _ (kp_slot _ _ _ Ka)), (owns_slots _ _ _ _ (kp_slot _ _ _ K2)). apply D1. }
  split; [done|by rewrite Hi2, Hi1, length_insert|by rewrite !length_insert| | | |].
  - intros j tj cj b Hj Hb. destruct (decide (j = i)) as [->|Hne].
    + rewrite list_lookup_insert_eq in Hj by done. rewrite list_lookup_insert_eq in Hb by lia. simplify_eq. split; [|by rewrite En; apply Ka| |lia|done].
      * rewrite Hod by lia. rewrite decide_True by done. by rewrite En.
      * rewrite <- (grown_bytes _ _ _ _ c p F1 Fl Fb ltac:(lia)) at 2. rewrite En. apply fbytes_ext. intros k Hk. apply (kp_byte _ _ _ Ka); [lia|]. eapply laid_byte; [exact L1|lia|lia].
    + rewrite list_lookup_insert_ne in Hj by done. rewrite list_lookup_insert_ne in Hb by done. destruct (Kb j b Hb Hne) as [[K1 K2 K3] _]. pose proof (Hfile j tj cj b Hj Hb) as Fj. pose proof (lookup_lt_Some _ _ _ Hj).
      eapply keep_file_on; [exact Fj|apply K2, Fj|exact K3|]. rewrite Hod by lia. by rewrite decide_False by lia.
  - intros j k b1 b2 x Hj Hk Hne. destruct (decide (j = i)) as [->|Hji]; [|destruct (decide (k = i)) as [->|Hki]].
    + rewrite list_lookup_insert_eq in Hj by lia. rewrite list_lookup_insert_ne in Hk by done. simplify_eq. by apply (Kb k b2).
    + rewrite list_lookup_insert_eq in Hk by lia. rewrite list_lookup_insert_ne in Hj by done. simplify_eq. intros H1 H2. by apply (proj2 (Kb j b1 Hj Hji)).
    + rewrite list_lookup_insert_ne in Hj by done. rewrite list_lookup_insert_ne in Hk by done. rewrite (owns_slots _ _ _ _ (kp_slot _ _ _ (proj1 (Kb j b1 Hj Hji)))), (owns_slots _ _ _ _ (kp_slot _ _ _ (proj1 (Kb k b2 Hk Hki)))).
      by apply (Hdisj j k).
  - rewrite Hf2, Hf1, (total_held_insert _ _ _ _ (c ++ p) Hi), En. lia.
  - rewrite Hs2, <- Hsup. rewrite <- !(view_ne _ 1) by done. apply (fs_meta _ _ _ _ _ _ _ F1). by rewrite mk_sb_eq.
Qed.

Lemma slot_empty w j : -1 ≤ j < MAXFILE → slot w (replicate 13 0) j = 0.
Proof.
  intros Hj. unfold slot, faddr. destruct (Z.ltb_spec j 0); [done|]. destruct (Z.ltb_spec j NDIRECT) as [Hd|]; [|done].
  apply lookup_total_replicate_2. unfold NDIRECT in Hd. lia.
Qed.

Lemma laid_empty w : laid w (replicate 13 0) (in_slot 0).
Proof.
  split; [split; [done|..]|].
  - intros j Hj. by rewrite slot_empty.
  - intros j1 j2 H1 _. by rewrite slot_empty.
  - intros j Hj. rewrite slot_empty by done. split; [done|]. unfold in_slot, blocks. change ((0 + BSIZE - 1) / BSIZE) with 0. unfold NDIRECT. destruct (decide (j = -1)); lia.
Qed.

Lemma total_held_app fs gs : total_held (fs ++ gs) = total_held fs + total_held gs.
Proof. induction fs as [|f fs IH]; simpl; lia. Qed.

Lemma mk_ialloc_run m fs A ty :
  image_ok m fs A → (length fs ≤ 198)%nat → 0 < ty < 2 ^ 15 →
  ∃ m', mk_ialloc ty m = Some (1 + Z.of_nat (length fs), m') ∧ image_ok m' (fs ++ [(ty, [])]) (A ++ [replicate 13 0]).
Proof.
  intros [S Hino Hlen Hfile Hdisj Hfb Hsup] Hn Hty. unfold mk_ialloc. rewrite Hino. set (n := 1 + Z.of_nat (length fs)).
  set (m0 := mkImage _ _ _). assert (S0 : sound m0) by (destruct S; by split).
  assert (s16 (xshort ty) = ty) as -> by (unfold xshort; rewrite le_val_bytes; change (256 ^ Z.of_nat 2) with 65536; apply s16_u16; unfold s16_ok; lia).
  destruct (winode_run m0 n ty 0 (replicate 13 0) S0 ltac:(lia)) as (m' & E & S' & Hv & Hf' & Hi' & Hs'). change (s16 (xshort 1)) with 1. change (xint 0) with 0. rewrite E. cbn [mbind option_bind].
  exists m'. split; [done|]. pose proof (laid_empty (view m0)) as L0.
  assert (Hty' : s16_ok ty) by (unfold s16_ok; lia).
  assert (Hod : ∀ j, 0 ≤ j < 200 → ondisk (view m') mk_sb j = if decide (j = n) then mkDinode ty 0 0 1 0 (replicate 13 0) else ondisk (view m0) mk_sb j).
  { intros j Hj. apply (ondisk_stored _ _ _ _ _ _ j Hv); [lia|lia| |].
    - pose proof (mk_IBLOCK n ltac:(lia)). rewrite view_ne by lia. apply (sd_len m0 S0). lia.
    - eapply laid_dinode; [exact S0|exact L0|done|lia]. }
  assert (Hown : ∀ x, owns (view m') (replicate 13 0) x → x = 0) by (intros x (j & Hj & <-); by apply slot_empty).
  assert (K : ∀ j b, A !! j = Some b → kept m0 m' b).
  { intros j b Hb. assert (∃ f, fs !! j = Some f) as [[tj cj] Hj] by (apply lookup_lt_is_Some_2; rewrite <- Hlen; by eapply lookup_lt_Some).
    eapply kept_store; [exact Hv|lia|]. exact (fn_laid _ _ _ _ _ (Hfile j tj cj b Hj Hb)). }
  split; [done|..].
  - rewrite Hi', length_app. cbn [m0 im_freeinode length]. rewrite u32_small by lia. lia.
  - rewrite !length_app. simpl. lia.
  - intros i ti ci b Hi Hb. apply lookup_app_Some in Hi as [Hi|[Hge Hi]].
    + pose proof (lookup_lt_Some _ _ _ Hi). rewrite lookup_app_l in Hb by lia. pose proof (Hfile i ti ci b Hi Hb) as Fi. destruct (K i b Hb) as [K1 K2 K3].
      eapply (keep_file_on (view m0)); [exact Fi|apply K2, Fi|exact K3|]. rewrite Hod by lia. by rewrite decide_False by lia.
    + apply list_lookup_singleton_Some in Hi as [Hi0 [= <- <-]]. rewrite lookup_app_r in Hb by lia. replace (i - length A)%nat with 0%nat in Hb by lia. simplify_eq/=.
      split; [|apply laid_empty|done|simpl; lia|done]. rewrite Hod by lia. by rewrite decide_True by lia.
  - intros i j a b x Hi Hj Hne. apply lookup_app_Some in Hi as [Hi|[Hge Hi]]; [|apply list_lookup_singleton_Some in Hi as [_ <-]; by intros ?%Hown].
    apply lookup_app_Some in Hj as [Hj|[Hge Hj]]; [|apply list_lookup_singleton_Some in Hj as [_ <-]; by intros _ ?%Hown].
    rewrite (owns_slots _ _ _ _ (kp_slot _ _ _ (K i a Hi))), (owns_slots _ _ _ _ (kp_slot _ _ _ (K j b Hj))). by apply (Hdisj i j).
  - rewrite Hf', total_held_app. change (total_held [(ty, [])]) with 0. change (im_freeblock m0) with (im_freeblock m). lia.
  - by rewrite Hs'.
Qed.
End files.
