(* ===== verification/MkfsSpec.v ===== *)
(** The image mkfs.c builds from a list of files is the file system with just
    these files: the kernel finds each under its name in the root directory
    with its contents, no two share a block, and the bitmap marks what is
    used and nothing else. *)

From stdpp Require Import functions base list gmap strings.
From Stdlib Require Import ZArith Lia.
From S2P Require Import Prelude CString Bytes Monad Kstate Spinlock Sched Bio Log Fs Tx Balloc Inode Dinode Writei Dir Mkfs.

(** * What the image is to hold *)

(** A file to copy: its name on the command line and the pieces read of it. *)
Notation input := (list Z * list (list Z))%type.

Definition new_entry (inum : Z) (name : list Z) : dirent := mkDirent inum (strncpy_list name (Z.to_nat DIRSIZ)).

(** The root directory: itself, its parent, and the files from inode 2 on. *)
Definition root_entries (files : list input) : list dirent :=
  new_entry 1 (str ".") :: new_entry 1 (str "..") :: imap (λ i f, new_entry (Z.of_nat i + 2) (mk_name f.1)) files.
Definition root_bytes (files : list input) : list Z := concat (encode_dirent <$> root_entries files).
(** The inodes in their order, with type and contents. *)
Definition fs_of (files : list input) : list (Z * list Z) :=
  (T_DIR, root_bytes files) :: ((λ f, (T_FILE, concat f.2)) <$> files).
(** The size left in the inode of the root directory. *)
Definition root_size (files : list input) : Z := (Z.of_nat (length (root_bytes files)) / BSIZE + 1) * BSIZE.

Definition named (name : list Z) : list Z := cstr name (Z.to_nat DIRSIZ).

Section content.
Implicit Types (files d : list input) (f : input).

Lemma length_new_entry i nm : length (encode_dirent (new_entry i nm)) = 16%nat.
Proof. apply length_encode. cbn [de_name new_entry]. apply length_strncpy_list. Qed.

Lemma root_entries_16 files : Forall (λ e, length (encode_dirent e) = 16%nat) (root_entries files).
Proof.
  unfold root_entries. do 2 (apply Forall_cons; split; [apply length_new_entry|]). apply Forall_forall. intros e (i & He)%list_elem_of_lookup.
  rewrite list_lookup_imap in He. destruct (files !! i); [|done]. injection He as <-. apply length_new_entry.
Qed.

Lemma length_root_entries files : length (root_entries files) = (2 + length files)%nat.
Proof. unfold root_entries. simpl. by rewrite length_imap. Qed.

Lemma length_chunks {A} (g : A → list Z) n l : Forall (λ e, length (g e) = n) l → length (concat (g <$> l)) = (n * length l)%nat.
Proof. induction 1 as [|x l Hx _ IH]; [simpl; lia|]. rewrite fmap_cons, concat_cons, length_app, IH, Hx. simpl. lia. Qed.

Lemma chunk_at {A} (g : A → list Z) n l k e :
  Forall (λ e, length (g e) = n) l → l !! k = Some e → take n (drop (n * k) (concat (g <$> l))) = g e.
Proof.
  intros H. revert k. induction H as [|x l Hx H IH]; intros k Hk; [done|]. destruct k as [|k]; rewrite fmap_cons, concat_cons.
  - injection Hk as <-. rewrite Nat.mul_0_r, drop_0. by rewrite take_app_length' by done.
  - cbn in Hk. rewrite drop_app_ge by lia. replace (n * S k - length (g x))%nat with (n * k)%nat by lia. by apply IH.
Qed.

Lemma length_root files : Z.of_nat (length (root_bytes files)) = 16 * (2 + Z.of_nat (length files)).
Proof. unfold root_bytes. rewrite (length_chunks _ 16) by apply root_entries_16. rewrite length_root_entries. lia. Qed.

Lemma mk_dirent_new i nm : 0 ≤ i < 2 ^ 16 → mk_dirent i nm = encode_dirent (new_entry i nm).
Proof.
  intros Hi. unfold mk_dirent, new_entry, xshort. rewrite le_val_bytes. do 2 f_equal. apply Z.mod_small. simpl. lia.
Qed.

Lemma root_snoc d f : (length d ≤ 198)%nat → root_bytes (d ++ [f]) = root_bytes d ++ mk_dirent (Z.of_nat (length d) + 2) (mk_name f.1).
Proof.
  intros Hd. unfold root_bytes, root_entries. rewrite imap_app. cbn [imap]. rewrite !fmap_cons, fmap_app, !concat_cons, concat_app. cbn [fmap list_fmap concat].
  rewrite app_nil_r, !app_assoc, mk_dirent_new by lia. unfold compose. by rewrite Nat.add_0_r.
Qed.

Lemma held_nonneg n : 0 ≤ n → 0 ≤ held n.
Proof. intros. change 0 with (held 0) at 1. apply held_mono. lia. Qed.

Lemma total_held_nonneg fs : 0 ≤ total_held fs.
Proof. induction fs as [|f fs IH]; [done|]. cbn [total_held foldr]. pose proof (held_nonneg (Z.of_nat (length f.2)) ltac:(lia)). unfold total_held in IH. lia. Qed.

(** The space needed only grows. *)
Lemma total_held_snoc d rest : total_held (fs_of d) ≤ total_held (fs_of (d ++ rest)).
Proof.
  unfold fs_of. cbn [total_held foldr]. rewrite fmap_app. fold (total_held ((λ f : input, (T_FILE, concat f.2)) <$> d)).
  fold (total_held (((λ f : input, (T_FILE, concat f.2)) <$> d) ++ ((λ f : input, (T_FILE, concat f.2)) <$> rest))). rewrite total_held_app.
  pose proof (total_held_nonneg ((λ f : input, (T_FILE, concat f.2)) <$> rest)).
  pose proof (held_mono (Z.of_nat (length (root_bytes d))) (Z.of_nat (length (root_bytes (d ++ rest))))) as H1. rewrite !length_root, length_app in H1.
  cbn [snd]. rewrite !length_root, length_app. lia.
Qed.
End content.

(** * Building it *)

Section building.
Implicit Types (m : image) (files d rest : list input) (f : input) (fs : list (Z * list Z)).

(** The pieces of a file, one after the other. *)
Lemma pieces_run m fs A i ty c ps :
  image_ok m fs A → fs !! i = Some (ty, c) → (length fs ≤ 199)%nat → Z.of_nat (length (c ++ concat ps)) ≤ 71680 →
  nmeta + total_held (<[i := (ty, c ++ concat ps)]> fs) ≤ 1000 →
  ∃ m' A', foldl (λ om cc, m ← om; iappend (Z.of_nat i + 1) cc m) (Some m) ps = Some m' ∧ image_ok m' (<[i := (ty, c ++ concat ps)]> fs) A'.
Proof.
  revert m fs A c. induction ps as [|p ps IH]; intros m fs A c I Hi Hn Hmax Hroom.
  - exists m, A. rewrite app_nil_r, list_insert_id by done. done.
  - cbn [concat] in *. rewrite app_assoc in *. cbn [foldl mbind option_bind]. rewrite (total_held_insert _ _ _ _ _ Hi) in Hroom. rewrite length_app in Hmax, Hroom.
    pose proof (held_mono (Z.of_nat (length (c ++ p))) (Z.of_nat (length (c ++ p) + length (concat ps))) ltac:(lia)).
    destruct (iappend_run m fs A i ty c p I Hi Hn ltac:(lia)) as (m1 & a1 & E1 & I1); [rewrite (ik_fb _ _ _ I); lia|]. rewrite E1.
    pose proof (lookup_lt_Some _ _ _ Hi) as Hl.
    destruct (IH m1 _ _ (c ++ p) I1) as (m2 & A2 & E2 & I2).
    + by apply list_lookup_insert_eq.
    + by rewrite length_insert.
    + rewrite length_app. lia.
    + rewrite list_insert_insert_eq, (total_held_insert _ _ _ _ _ Hi), length_app. lia.
    + exists m2, A2. rewrite list_insert_insert_eq in I2. done.
Qed.

Lemma mk_file_run m d f A :
  image_ok m (fs_of d) A → (length d ≤ 197)%nat → 47 ∉ f.1 → Z.of_nat (length (concat f.2)) ≤ 71680 →
  nmeta + total_held (fs_of (d ++ [f])) ≤ 1000 →
  ∃ m' A', mk_file 1 f m = Some m' ∧ image_ok m' (fs_of (d ++ [f])) A'.
Proof.
  intros I Hd Hs Hmax Hroom. unfold mk_file. rewrite bool_decide_false by done.
  assert (Hlen : length (fs_of d) = S (length d)) by (unfold fs_of; simpl; by rewrite length_fmap).
  destruct (mk_ialloc_run m (fs_of d) A T_FILE I ltac:(lia) ltac:(done)) as (m1 & -> & I1). cbn [mbind option_bind]. rewrite Hlen.
  replace (1 + Z.of_nat (S (length d))) with (Z.of_nat (length d) + 2) by lia. set (ent := mk_dirent _ _).
  set (files := (λ f : input, (T_FILE, concat f.2)) <$> d) in *.
  assert (Er : root_bytes (d ++ [f]) = root_bytes d ++ ent) by (apply root_snoc; lia).
  assert (Efs : fs_of (d ++ [f]) = <[S (length d) := (T_FILE, [] ++ concat f.2)]> ((T_DIR, root_bytes d ++ ent) :: files ++ [(T_FILE, [])])).
  { unfold fs_of. rewrite Er, fmap_app. fold files. cbn [fmap list_fmap]. change (<[S ?k := ?y]> (?x :: ?l)) with (x :: <[k := y]> l). f_equal.
    rewrite insert_app_r_alt by (unfold files; rewrite length_fmap; lia). unfold files. rewrite length_fmap, Nat.sub_diag. done. }
  pose proof (length_root (d ++ [f])) as Hlr. rewrite length_app in Hlr. cbn [length] in Hlr. rewrite Er in Hlr.
  assert (Hfs1 : (fs_of d ++ [(T_FILE, [])]) !! 0%nat = Some (T_DIR, root_bytes d)) by done.
  pose proof (total_held_insert _ _ _ _ (root_bytes d ++ ent) Hfs1) as Ht. change (<[0%nat := ?y]> (fs_of d ++ _)) with (y :: files ++ [(T_FILE, [])]) in Ht.
  assert (Hfs2 : ((T_DIR, root_bytes d ++ ent) :: files ++ [(T_FILE, [])]) !! S (length d) = Some (T_FILE, [])).
  { rewrite lookup_cons_ne_0 by done. cbn [pred]. rewrite lookup_app_r by (unfold files; rewrite length_fmap; lia). unfold files. by rewrite length_fmap, Nat.sub_diag. }
  rewrite Efs in *. pose proof (total_held_insert _ _ _ _ ([] ++ concat f.2) Hfs2) as Ht2. change (held (Z.of_nat (length []))) with 0 in Ht2.
  pose proof (held_nonneg (Z.of_nat (length ([] ++ concat f.2))) ltac:(lia)).
  destruct (iappend_run m1 _ _ 0 T_DIR (root_bytes d) ent I1 Hfs1) as (m2 & a2 & E2 & I2); [rewrite length_app, Hlen; simpl; lia|lia|rewrite (ik_fb _ _ _ I1); lia|].
  change (Z.of_nat 0 + 1) with 1 in E2. rewrite E2. cbn [mbind option_bind]. change (<[0%nat := ?y]> (fs_of d ++ _)) with (y :: files ++ [(T_FILE, [])]) in I2.
  destruct (pieces_run m2 _ _ (S (length d)) T_FILE [] f.2 I2 Hfs2) as (m3 & A3 & E3 & I3); [simpl; rewrite length_app; unfold files; rewrite length_fmap; simpl; lia|done|done|].
  exists m3, A3. split; [|done]. replace (Z.of_nat (S (length d)) + 1) with (Z.of_nat (length d) + 2) in E3 by lia. exact E3.
Qed.

(** A file that can be copied. *)
Definition copyable f : Prop := 47 ∉ f.1 ∧ Z.of_nat (length (concat f.2)) ≤ 71680.

Lemma files_run m d rest A :
  image_ok m (fs_of d) A → (length (d ++ rest) ≤ 198)%nat → Forall copyable rest →
  nmeta + total_held (fs_of (d ++ rest)) ≤ 1000 →
  ∃ m' A', foldl (λ om f, m ← om; mk_file 1 f m) (Some m) rest = Some m' ∧ image_ok m' (fs_of (d ++ rest)) A'.
Proof.
  revert m d A. induction rest as [|f rest IH]; intros m d A I Hn Hc Hroom.
  - exists m, A. by rewrite app_nil_r.
  - apply Forall_cons in Hc as [[Hf1 Hf2] Hc]. rewrite length_app in Hn. cbn [length] in Hn. cbn [foldl mbind option_bind].
    change (f :: rest) with ([f] ++ rest) in *. rewrite app_assoc in *. pose proof (total_held_snoc (d ++ [f]) rest).
    destruct (mk_file_run m d f A I ltac:(lia) Hf1 Hf2 ltac:(lia)) as (m1 & A1 & -> & I1).
    apply (IH m1 (d ++ [f]) A1 I1); [rewrite !length_app; simpl; lia|done|done].
Qed.
End building.

(** * The beginning and the end *)

Section ends.
Implicit Types (m : image) (files : list input).

Lemma wsect_all (l : list Z) m b :
  im_sect (foldl (λ m i, wsect i zeroes m) m l) b = if decide (b ∈ l) then zeroes else im_sect m b.
Proof.
  revert m. induction l as [|i l IH]; intros m; [done|]. cbn [foldl]. rewrite IH. cbn [wsect im_sect].
  destruct (decide (b ∈ l)); [by rewrite decide_True by set_solver|]. destruct (decide (b = i)) as [->|].
  - rewrite decide_True by set_solver. apply fn_lookup_insert.
  - rewrite decide_False by set_solver. by apply fn_lookup_insert_ne.
Qed.

Lemma wsect_count (l : list Z) m :
  let m' := foldl (λ m i, wsect i zeroes m) m l in im_freeblock m' = im_freeblock m ∧ im_freeinode m' = im_freeinode m.
Proof. revert m. induction l as [|i l IH]; intros m; [done|]. apply (IH (wsect i zeroes m)). Qed.

Lemma blank_ok m :
  im_freeblock m = nmeta → im_freeinode m = 1 → (∀ b, 0 ≤ b < 1000 → im_sect m b = zeroes) → image_ok (wsect 1 super_block m) [] [].
Proof.
  intros Hf Hi Hz. split; [split|..]; cbn [wsect im_sect im_freeblock im_freeinode]; rewrite ?Hf, ?Hi; try done.
  - intros b Hb. destruct (decide (b = 1)) as [->|]; [by rewrite fn_lookup_insert|]. rewrite fn_lookup_insert_ne, Hz by done. done.
  - rewrite nmeta_eq. intros b Hb. rewrite fn_lookup_insert_ne by lia. apply Hz. lia.
Qed.

Lemma empty_ok : image_ok mk_empty [] [].
Proof.
  unfold mk_empty. fold super_block. apply blank_ok.
  - by rewrite (proj1 (wsect_count _ _)).
  - by rewrite (proj2 (wsect_count _ _)).
  - intros b Hb. rewrite wsect_all, decide_True; [done|]. apply elem_of_seqZ. unfold FSSIZE. lia.
Qed.

(** The image with the empty root directory. *)
Lemma root_run : ∃ m1 m2 m A,
  mk_ialloc T_DIR mk_empty = Some (1, m1) ∧ iappend 1 (mk_dirent 1 (str ".")) m1 = Some m2 ∧
  iappend 1 (mk_dirent 1 (str "..")) m2 = Some m ∧ image_ok m (fs_of []) A.
Proof.
  destruct (mk_ialloc_run mk_empty [] [] T_DIR empty_ok ltac:(simpl; lia) ltac:(done)) as (m1 & -> & I1).
  destruct (iappend_run m1 _ _ 0 T_DIR [] (mk_dirent 1 (str ".")) I1 eq_refl) as (m2 & a2 & E2 & I2); [simpl; lia|done|rewrite (ik_fb _ _ _ I1); done|].
  destruct (iappend_run m2 _ _ 0 T_DIR _ (mk_dirent 1 (str "..")) I2 eq_refl) as (m3 & a3 & E3 & I3); [simpl; lia|done|rewrite (ik_fb _ _ _ I2); done|].
  exists m1, m2, m3. eexists. split_and!; [done|exact E2|exact E3|]. exact I3.
Qed.

Lemma root_size_bounds files : (length files ≤ 198)%nat → Z.of_nat (length (root_bytes files)) < root_size files ≤ 4096.
Proof.
  intros H. unfold root_size. rewrite length_root. assert (BSIZE = 512) as -> by done.
  pose proof (Z.div_mod (16 * (2 + Z.of_nat (length files))) 512 ltac:(lia)). pose proof (Z.mod_pos_bound (16 * (2 + Z.of_nat (length files))) 512 ltac:(lia)). lia.
Qed.
End ends.

(** The disk holds the files: as inodes from 2 on, in blocks of their own, with
    the root directory as inode 1 and its blocks [root]. *)
Record built (v : Z → list Z) (files : list input) (root : list Z) (A : list (list Z)) : Prop := mkBuilt {
  bu_super : decode_sb (v 1) = mk_sb;
  bu_free b : 0 ≤ b < 1000 → free v mk_sb b = bool_decide (nmeta + total_held (fs_of files) ≤ b);
  bu_len : length A = length files;
  bu_file i f a : files !! i = Some f → A !! i = Some a → file_on v (Z.of_nat i + 2) T_FILE (concat f.2) a;
  bu_disj i j a b x : (root :: A) !! i = Some a → (root :: A) !! j = Some b → i ≠ j → owns v a x → owns v b x → x = 0;
  bu_root : ondisk v mk_sb 1 = mkDinode T_DIR 0 0 1 (root_size files) root;
  bu_root_ok : file_ok v mk_sb root;
  bu_dir : take (2 + length files) (entries v root (root_size files / dirent_size)) = root_entries files
}.

Section finish.
Implicit Types (m : image) (files : list input).

(** The entries of a directory are read off its contents. *)
Lemma entries_content v a (l : list dirent) cnt :
  fbytes v a 0 (Z.of_nat (length (concat (encode_dirent <$> l)))) = concat (encode_dirent <$> l) →
  Forall (λ e, length (de_name e) = Z.to_nat DIRSIZ ∧ 0 ≤ de_inum e < 2 ^ 16) l → Z.of_nat (length l) ≤ cnt →
  take (length l) (entries v a cnt) = l.
Proof.
  intros Hb Hl Hc. assert (H16 : Forall (λ e, length (encode_dirent e) = 16%nat) l) by (eapply Forall_impl; [exact Hl|]; intros e [He _]; by apply length_encode).
  apply list_eq_same_length with (length l); [done|rewrite length_take, length_entries; lia|].
  intros k x y Hk. rewrite lookup_take_lt by lia. unfold entries. rewrite list_lookup_fmap, lookup_seqZ_lt by lia. intros [= <-] Hy.
  destruct (proj1 (Forall_lookup _ _) Hl k y Hy) as [Hn Hi]. rewrite <- (decode_encode y) by done. unfold entry_at. f_equal.
  rewrite <- (chunk_at encode_dirent 16 l k y) by done. rewrite <- Hb. rewrite (length_chunks _ 16) by done. unfold fbytes. rewrite <- fmap_drop, <- fmap_take. unfold dirent_size.
  f_equal. apply list_eq. intros j. destruct (decide (j < 16)%nat) as [Hj|Hj].
  - rewrite lookup_take_lt, lookup_drop, !lookup_seqZ_lt by lia. f_equal. lia.
  - rewrite lookup_take_ge by lia. apply lookup_seqZ_ge. lia.
Qed.

Lemma root_entries_fine files :
  (length files ≤ 198)%nat → Forall (λ e, length (de_name e) = Z.to_nat DIRSIZ ∧ 0 ≤ de_inum e < 2 ^ 16) (root_entries files).
Proof.
  intros Hn. unfold root_entries. do 2 (apply Forall_cons; split; [split; [apply length_strncpy_list|done]|]). apply Forall_lookup. intros i e He.
  rewrite list_lookup_imap in He. destruct (files !! i) eqn:Hi; [|done]. injection He as <-. apply lookup_lt_Some in Hi.
  split; [apply length_strncpy_list|]. cbn [new_entry de_inum]. lia.
Qed.

Lemma super_ok : decode_sb super_block = mk_sb.
Proof. by vm_compute. Qed.

(** The size of the root directory is set, and nothing else changes. *)
Lemma fix_root_run m files A :
  image_ok m (fs_of files) A → (length files ≤ 198)%nat →
  ∃ m' root A', mk_fix_root 1 m = Some m' ∧ im_freeblock m' = nmeta + total_held (fs_of files) ∧ sound m' ∧ built (view m') files root A'.
Proof.
  intros [Sd Hino Hlen Hfile Hdisj Hfb Hsup] Hn. destruct A as [|root A]; [done|]. simpl in Hlen. rewrite length_fmap in Hlen.
  pose proof (Hfile 0%nat _ _ root eq_refl eq_refl) as Fr. change (Z.of_nat 0 + 1) with 1 in Fr. pose proof Fr as [Rd Rl Rb Rm Rt].
  pose proof (root_size_bounds files Hn) as Hrs. pose proof (length_root files) as Hlr.
  unfold mk_fix_root. rewrite rinode_run by (done || lia). cbn [mbind option_bind]. rewrite Rd. cbn [di_addrs di_size di_type di_major di_minor di_nlink].
  rewrite (xint_small (Z.of_nat _)) by lia. fold (root_size files). rewrite xint_small by lia.
  destruct (winode_run m 1 T_DIR (root_size files) root Sd ltac:(lia)) as (m' & -> & S' & Hv & Hf' & Hi' & Hs'). exists m', root, A. split; [done|]. split; [lia|]. split; [done|].
  assert (Hod : ∀ j, 0 ≤ j < 200 → ondisk (view m') mk_sb j = if decide (j = 1) then mkDinode T_DIR 0 0 1 (root_size files) root else ondisk (view m) mk_sb j).
  { intros j Hj. apply (ondisk_stored _ _ _ _ _ _ j Hv); [lia|lia| |].
    - pose proof (mk_IBLOCK 1 ltac:(lia)). rewrite view_ne by lia. apply (sd_len m Sd). lia.
    - eapply laid_dinode; [exact Sd|exact Rl|done|lia]. }
  assert (K : ∀ j b, (root :: A) !! j = Some b → kept m m' b).
  { intros j b Hb. assert (∃ f, fs_of files !! j = Some f) as [[tj cj] Hj] by (apply lookup_lt_is_Some_2; unfold fs_of; simpl; rewrite length_fmap, <- Hlen; by apply lookup_lt_Some in Hb).
    eapply kept_store; [exact Hv|lia|]. exact (fn_laid _ _ _ _ _ (Hfile j tj cj b Hj Hb)). }
  pose proof (K 0%nat root eq_refl) as [K1 K2 K3]. split.
  - rewrite view_ne by done. rewrite Hs', Hsup. apply super_ok.
  - intros b Hb. by rewrite view_free, Hf', Hfb by done.
  - lia.
  - intros i f a Hi Ha. pose proof (lookup_lt_Some _ _ _ Hi). assert (Hfi : fs_of files !! S i = Some (T_FILE, concat f.2)) by (unfold fs_of; simpl; by rewrite list_lookup_fmap, Hi).
    pose proof (Hfile (S i) _ _ a Hfi Ha) as Fi. destruct (K (S i) a Ha) as [Q1 Q2 Q3]. replace (Z.of_nat i + 2) with (Z.of_nat (S i) + 1) by lia.
    eapply keep_file_on; [exact Fi|apply Q2, Fi|exact Q3|]. rewrite Hod by lia. by rewrite decide_False by lia.
  - intros i j a b x Ha Hb Hne. rewrite (owns_slots _ _ _ _ (kp_slot _ _ _ (K i a Ha))), (owns_slots _ _ _ _ (kp_slot _ _ _ (K j b Hb))). by apply (Hdisj i j).
  - rewrite Hod by lia. done.
  - exact (ld_ok _ _ _ (K2 _ Rl)).
  - rewrite <- length_root_entries. apply entries_content; [|by apply root_entries_fine|].
    + change (concat _) with (root_bytes files). rewrite <- Rb at 2. apply fbytes_ext. intros k Hk. apply K3; [lia|]. eapply laid_byte; [exact Rl|lia|lia].
    + rewrite length_root_entries. unfold dirent_size. apply Z.div_le_lower_bound; lia.
Qed.

(** * Names in the root directory *)

Lemma dir_get_app name (l1 l2 : list dirent) : dir_get name (l1 ++ l2) = match dir_get name l1 with Some i => Some i | None => dir_get name l2 end.
Proof. induction l1 as [|e l1 IH]; [done|]. cbn [app]. rewrite !dir_get_cons. by destruct (entry_matches name e). Qed.

Lemma dir_get_first (l : list (Z * list Z)) name k i nm :
  Forall (λ p, p.1 ≠ 0 ∧ Forall (λ c, 0 ≤ c < 2 ^ 8) p.2) l → Forall (λ c, 0 ≤ c < 2 ^ 8) name →
  NoDup (named ∘ snd <$> l) → l !! k = Some (i, nm) → named name = named nm →
  dir_get name ((λ p, new_entry p.1 p.2) <$> l) = Some i.
Proof.
  intros Hl Hn. revert k. induction Hl as [|[i' nm'] l [Hi' Hnm'] Hl IH]; intros k Hd Hk E; [done|]. cbn [fst snd] in *.
  rewrite fmap_cons, dir_get_cons. cbn [fst snd]. unfold new_entry at 1. rewrite matches_new by done. fold (named name) (named nm'). rewrite fmap_cons in Hd. apply NoDup_cons in Hd as [Hni Hd].
  destruct k as [|k]; cbn in Hk.
  - simplify_eq. by rewrite bool_decide_true.
  - rewrite bool_decide_false; [by eapply IH|]. intros E'. apply Hni. cbn. rewrite <- E', E. apply list_elem_of_fmap. exists (i, nm). split; [done|]. by eapply list_elem_of_lookup_2.
Qed.
End finish.

(** * The theorem *)

(** The names in the root directory with their inodes. *)
Definition root_names (files : list input) : list (Z * list Z) :=
  (1, str ".") :: (1, str "..") :: imap (λ i f, (Z.of_nat i + 2, mk_name f.1)) files.

Lemma root_entries_names files : root_entries files = (λ p, new_entry p.1 p.2) <$> root_names files.
Proof. unfold root_entries, root_names. rewrite !fmap_cons. do 2 f_equal. by rewrite fmap_imap. Qed.

Lemma root_names_fine files :
  Forall (λ f : input, Forall (λ c, 0 ≤ c < 2 ^ 8) f.1) files → Forall (λ p, p.1 ≠ 0 ∧ Forall (λ c, 0 ≤ c < 2 ^ 8) p.2) (root_names files).
Proof.
  intros H. unfold root_names. do 2 (apply Forall_cons; split; [split; [done|cbn [snd]; repeat constructor; vm_compute; intuition congruence]|]).
  apply Forall_lookup. intros i [j nm] He. rewrite list_lookup_imap in He. destruct (files !! i) as [f|] eqn:Hi; [|done]. injection He as <- <-.
  cbn [fst snd]. split; [lia|]. pose proof (proj1 (Forall_lookup _ _) H i f Hi) as Hf. unfold mk_name. destruct f as [[|c nm] ps]; [done|]. cbn [fst] in *.
  destruct (c =? 95); [|done]. by apply Forall_cons in Hf as [_ Hf].
Qed.

(** C5: mkfs builds a file system with just the given files. *)
Theorem mkfs_spec (files : list input) :
  (length files ≤ 198)%nat → Forall copyable files → nmeta + total_held (fs_of files) ≤ FSSIZE →
  ∃ m root A, mkfs files = Some m ∧ built (im_sect m) files root A ∧
    (Forall (λ f : input, Forall (λ c, 0 ≤ c < 2 ^ 8) f.1) files → NoDup (named ∘ snd <$> root_names files) →
     ∀ i f name, files !! i = Some f → Forall (λ c, 0 ≤ c < 2 ^ 8) name → named name = named (mk_name f.1) →
       dir_get name (entries (im_sect m) root (root_size files / dirent_size)) = Some (Z.of_nat i + 2)).
Proof.
  intros Hn Hc Hroom. change FSSIZE with 1000 in Hroom. destruct root_run as (m1 & m2 & m3 & A3 & E1 & E2 & E3 & I3).
  unfold mkfs. rewrite E1. cbn [mbind option_bind]. change (negb (1 =? ROOTINO)) with false. cbn iota. rewrite E2. cbn [mbind option_bind]. rewrite E3. cbn [mbind option_bind].
  destruct (files_run m3 [] files A3 I3 Hn Hc Hroom) as (m4 & A4 & -> & I4). cbn [mbind option_bind].
  destruct (fix_root_run m4 files A4 I4 Hn) as (m5 & root & A & -> & Hfb & Sd & B). cbn [mbind option_bind].
  unfold mk_balloc. rewrite (proj2 (Z.ltb_lt _ _)) by (change (BSIZE * 8) with 4096; lia). cbn [negb]. eexists _, root, A. split; [done|]. split; [exact B|].
  intros Hby Hd i f name Hi Hnm E. rewrite <- (take_drop (2 + length files) (entries _ _ _)). change (im_sect (wsect _ _ m5)) with (view m5). rewrite dir_get_app, (bu_dir _ _ _ _ B), root_entries_names.
  rewrite (dir_get_first _ name (2 + i) (Z.of_nat i + 2) (mk_name f.1)); [done|by apply root_names_fine|done|done| |done].
  change (root_names files !! (2 + i)%nat) with (imap (λ i (f : input), (Z.of_nat i + 2, mk_name f.1)) files !! i). by rewrite list_lookup_imap, Hi.
Qed.

(** Two files, one of them larger than a block and read in two pieces. *)
Definition sample_files : list input := [(str "_cat", [replicate 512 65; [66; 67]]); (str "README", [])].

Lemma mkfs_spec_witness : ∃ m root A, mkfs sample_files = Some m ∧ built (im_sect m) sample_files root A ∧
  dir_get (str "cat") (entries (im_sect m) root (root_size sample_files / dirent_size)) = Some 2.
Proof.
  destruct (mkfs_spec sample_files) as (m & root & A & E & B & D).
  - simpl. lia.
  - unfold copyable. repeat constructor; try (vm_compute; congruence); intros H; repeat (apply elem_of_cons in H as [H|H]; [done|]); by apply not_elem_of_nil in H.
  - vm_compute. congruence.
  - exists m, root, A. split; [done|]. split; [done|]. apply (D ltac:(repeat constructor; vm_compute; intuition congruence)) with (i := 0%nat) (f := (str "_cat", [replicate 512 65; [66; 67]])).
    + by apply (bool_decide_unpack _); vm_compute.
    + done.
    + repeat constructor; vm_compute; intuition congruence.
    + by vm_compute.
Defined.
