(* ===== verification/Bus.v ===== *)
(** The machine below the kernel: port and memory-mapped I/O, and the state of
    the drivers that use them.

    What the hardware does is not the kernel's code: a [Bus] is a state with
    the six accesses of include/xv6/x86.h and of volatile memory, and the
    drivers are written for every bus. [logged] adds to a bus the record of the
    commands sent over it, which the theorems on command sequences read and no
    driver does. The drivers' static variables are with the rest of the kernel
    in [board]. *)

From stdpp Require Import base list gmap strings.
From Stdlib Require Import ZArith Lia.
From S2P Require Import Prelude Monad Kstate.

(** * Buses *)

(** [inb], [outb], [insl] (the bytes of [cnt] 32-bit words), [outsl], and a
    32-bit load and store of device memory. *)
Class Bus (D : Type) := {
  bus_in : Z → D → Z * D;
  bus_out : Z → Z → D → D;
  bus_ins : Z → nat → D → list Z * D;
  bus_outs : Z → list Z → D → D;
  bus_load : Z → D → Z * D;
  bus_store : Z → Z → D → D
}.

(** A command sent over the bus. *)
Inductive command := Out (port v : Z) | Outs (port : Z) (bytes : list Z) | Store (addr v : Z).

Record log_bus (D : Type) := mkLogged { lb_dev : D; lb_log : list command }.
Arguments mkLogged {D} _ _.
Arguments lb_dev {D} _.
Arguments lb_log {D} _.

#[global] Instance logged {D} `{Bus D} : Bus (log_bus D) := {|
  bus_in p d := let '(v, d') := bus_in p (lb_dev d) in (v, mkLogged d' (lb_log d));
  bus_out p v d := mkLogged (bus_out p v (lb_dev d)) (lb_log d ++ [Out p v]);
  bus_ins p n d := let '(l, d') := bus_ins p n (lb_dev d) in (l, mkLogged d' (lb_log d));
  bus_outs p l d := mkLogged (bus_outs p l (lb_dev d)) (lb_log d ++ [Outs p l]);
  bus_load a d := let '(v, d') := bus_load a (lb_dev d) in (v, mkLogged d' (lb_log d));
  bus_store a v d := mkLogged (bus_store a v (lb_dev d)) (lb_log d ++ [Store a v])
|}.

(** * The machine *)

(** [lapic] and [ioapic], the addresses mp.c finds (0 a null pointer), the
    queue of kernel/ide/ide.c with the [qnext] of each buffer, and
    [havedisk1]. *)
Record drivers := mkDrv {
  dr_lapic : Z;
  dr_ioapic : Z;
  dr_idequeue : option nat;
  dr_qnext : list (option nat);
  dr_havedisk1 : Z
}.

Record board (D : Type) := mkBoard { m_k : kstate; m_drv : drivers; m_bus : D }.
Arguments mkBoard {D} _ _ _.
Arguments m_k {D} _.
Arguments m_drv {D} _.
Arguments m_bus {D} _.

Section board.
Context {D : Type} `{Bus D}.

Definition getd {A} (f : drivers → A) : M (board D) A := gets (λ m, f (m_drv m)).
Definition modd (f : drivers → drivers) : M (board D) unit := modify (λ m, mkBoard (m_k m) (f (m_drv m)) (m_bus m)).

(** Code of the kernel proper; while it runs the rest does not change, but it
    may when the thread gives up the CPU. *)
Fixpoint olift {A} (v : drivers) (d : D) (o : out kstate A) : out (board D) A :=
  match o with
  | Ret a s => Ret a (mkBoard s v d)
  | Panic msg s => Panic msg (mkBoard s v d)
  | Spin s => Spin (mkBoard s v d)
  | NoFuel s => NoFuel (mkBoard s v d)
  | Swtch s k => Swtch (mkBoard s v d) (λ m, olift (m_drv m) (m_bus m) (k (m_k m)))
  end.
Definition kern {A} (c : M kstate A) : M (board D) A := λ fuel m, olift (m_drv m) (m_bus m) (c fuel (m_k m)).

(** An access that reads the bus, and one that does not. *)
Definition bus_get {A} (f : D → A * D) : M (board D) A :=
  λ fuel m, let '(a, d) := f (m_bus m) in Ret a (mkBoard (m_k m) (m_drv m) d).
Definition bus_put (f : D → D) : M (board D) unit := modify (λ m, mkBoard (m_k m) (m_drv m) (f (m_bus m))).

Definition inb (port : Z) : M (board D) Z := v ← bus_get (bus_in port); mret (u8 v).
Definition outb (port v : Z) : M (board D) unit := bus_put (bus_out port (u8 v)).
Definition insl (port : Z) (cnt : nat) : M (board D) (list Z) := bus_get (bus_ins port cnt).
Definition outsl (port : Z) (bytes : list Z) : M (board D) unit := bus_put (bus_outs port bytes).
Definition load32 (addr : Z) : M (board D) Z := v ← bus_get (bus_load addr); mret (u32 v).
Definition store32 (addr v : Z) : M (board D) unit := bus_put (bus_store addr (u32 v)).

Lemma kern_ret {A} (c : M kstate A) fuel m a s : c fuel (m_k m) = Ret a s → kern c fuel m = Ret a (mkBoard s (m_drv m) (m_bus m)).
Proof. intros E. unfold kern. by rewrite E. Qed.

Lemma kern_panic {A} (c : M kstate A) fuel m msg s : c fuel (m_k m) = Panic msg s → kern c fuel m = Panic msg (mkBoard s (m_drv m) (m_bus m)).
Proof. intros E. unfold kern. by rewrite E. Qed.

Lemma kern_swtch {A} (c : M kstate A) fuel m s k :
  c fuel (m_k m) = Swtch s k → kern c fuel m = Swtch (mkBoard s (m_drv m) (m_bus m)) (λ m', olift (m_drv m') (m_bus m') (k (m_k m'))).
Proof. intros E. unfold kern. by rewrite E. Qed.
End board.
