(* ===== verification/Apic.v ===== *)
(** The interrupt controllers: kernel/ioapic.c, kernel/lapic.c and
    kernel/picirq.c on an arbitrary bus.

    [IoApic] states what the drivers rely on of an I/O APIC, from its data
    sheet: the register written to [ioapic->reg] is the one [ioapic->data]
    accesses, and each redirection entry keeps the bits written to it. [Lapic]
    says of a local APIC that the delivery status of an interrupt command
    clears after finitely many reads. *)

From stdpp Require Import functions base list gmap strings.
From Stdlib Require Import ZArith Lia.
From S2P Require Import Prelude Monad Kstate Bus Trap.

(** * The I/O APIC *)

Definition REG_ID : Z := 0x00.
Definition REG_VER : Z := 0x01.
Definition REG_TABLE : Z := 0x10.
Definition INT_DISABLED : Z := 0x00010000.
Definition INT_LEVEL : Z := 0x00008000.
Definition INT_ACTIVELOW : Z := 0x00002000.
Definition INT_LOGICAL : Z := 0x00000800.

(** struct ioapic: [reg] at offset 0, [data] at offset 16. *)
Definition ioapic_data_off : Z := 16.

Section ioapic.
Context {D : Type} `{Bus D}.

Definition ioapicread (reg : Z) : M (board D) Z :=
  io ← getd dr_ioapic;
  store32 io reg;;
  load32 (io + ioapic_data_off).

Definition ioapicwrite (reg data : Z) : M (board D) unit :=
  io ← getd dr_ioapic;
  store32 io reg;;
  store32 (io + ioapic_data_off) data.

Definition ioapicinit : M (board D) unit :=
  ver ← ioapicread REG_VER;
  let maxintr := Z.land (Z.shiftr ver 16) 0xff in
  forM (Z.to_nat (maxintr + 1)) 0 (λ i,
    ioapicwrite (REG_TABLE + 2 * i) (Z.lor INT_DISABLED (T_IRQ0 + i));;
    ioapicwrite (REG_TABLE + 2 * i + 1) 0;;
    mret (None (A := unit)));;
  mret tt.

Definition ioapicenable (irq cpunum : Z) : M (board D) unit :=
  ioapicwrite (REG_TABLE + 2 * irq) (T_IRQ0 + irq);;
  ioapicwrite (REG_TABLE + 2 * irq + 1) (Z.shiftl cpunum 24).
End ioapic.

(** * The local APIC *)

(** Register indices. *)
Definition ID : Z := 0x0020 / 4.
Definition VER : Z := 0x0030 / 4.
Definition TPR : Z := 0x0080 / 4.
Definition EOI : Z := 0x00B0 / 4.
Definition SVR : Z := 0x00F0 / 4.
Definition ENABLE : Z := 0x00000100.
Definition ESR : Z := 0x0280 / 4.
Definition ICRLO : Z := 0x0300 / 4.
Definition INIT : Z := 0x00000500.
Definition STARTUP : Z := 0x00000600.
Definition DELIVS : Z := 0x00001000.
Definition ASSERT : Z := 0x00004000.
Definition LEVEL : Z := 0x00008000.
Definition BCAST : Z := 0x00080000.
Definition ICRHI : Z := 0x0310 / 4.
Definition TIMER : Z := 0x0320 / 4.
Definition X1 : Z := 0x0000000B.
Definition PERIODIC : Z := 0x00020000.
Definition PCINT : Z := 0x0340 / 4.
Definition LINT0 : Z := 0x0350 / 4.
Definition LINT1 : Z := 0x0360 / 4.
Definition ERROR : Z := 0x0370 / 4.
Definition MASKED : Z := 0x00010000.
Definition TICR : Z := 0x0380 / 4.
Definition TDCR : Z := 0x03E0 / 4.
Definition IRQ_ERROR : Z := 19.

Section lapic.
Context {D : Type} `{Bus D}.

(** [lapic[index]]. *)
Definition lapicr (index : Z) : M (board D) Z :=
  lapic ← getd dr_lapic;
  load32 (lapic + 4 * index).

Definition lapicw (index value : Z) : M (board D) unit :=
  lapic ← getd dr_lapic;
  store32 (lapic + 4 * index) value;;
  lapicr ID;;
  mret tt.

Definition lapicinit : M (board D) unit :=
  lapic ← getd dr_lapic;
  if lapic =? 0 then mret tt else
  lapicw SVR (Z.lor ENABLE (T_IRQ0 + IRQ_SPURIOUS));;
  lapicw TDCR X1;;
  lapicw TIMER (Z.lor PERIODIC (T_IRQ0 + IRQ_TIMER));;
  lapicw TICR 10000000;;
  lapicw LINT0 MASKED;;
  lapicw LINT1 MASKED;;
  ver ← lapicr VER;
  whenM (4 <=? Z.land (Z.shiftr ver 16) 0xff) (lapicw PCINT MASKED);;
  lapicw ERROR (T_IRQ0 + IRQ_ERROR);;
  lapicw ESR 0;;
  lapicw ESR 0;;
  lapicw EOI 0;;
  lapicw ICRHI 0;;
  lapicw ICRLO (Z.lor (Z.lor BCAST INIT) LEVEL);;
  whileM (λ _ : unit,
    v ← lapicr ICRLO;
    mret (if negb (Z.land v DELIVS =? 0) then inl tt else inr tt)) tt;;
  lapicw TPR 0.

(** An int, from the unsigned register. *)
Definition lapicid : M (board D) Z :=
  lapic ← getd dr_lapic;
  if lapic =? 0 then mret 0 else
  v ← lapicr ID;
  mret (Z.shiftr v 24).

Definition lapiceoi : M (board D) unit :=
  lapic ← getd dr_lapic;
  whenM (negb (lapic =? 0)) (lapicw EOI 0).

Definition microdelay (us : Z) : M (board D) unit := mret tt.

Definition lapicstartap (apicid addr : Z) : M (board D) unit :=
  lapicw ICRHI (Z.shiftl apicid 24);;
  lapicw ICRLO (Z.lor (Z.lor INIT LEVEL) ASSERT);;
  microdelay 200;;
  forM 2 0 (λ _,
    lapicw ICRHI (Z.shiftl apicid 24);;
    lapicw ICRLO (Z.lor STARTUP (Z.shiftr addr 12));;
    microdelay 200;;
    mret (None (A := unit)));;
  mret tt.

(** * The old interrupt controllers *)

Definition IO_PIC1 : Z := 0x20.
Definition IO_PIC2 : Z := 0xA0.

Definition picinit : M (board D) unit :=
  outb (IO_PIC1 + 1) 0xff;;
  outb (IO_PIC2 + 1) 0xff.
End lapic.

(** * What the hardware promises *)

(** The bits of a redirection entry that are stored as written: not the
    delivery status (12), the remote IRR (14) and the reserved ones. *)
Definition low_ok (v : Z) : Prop := 0 ≤ v < 2 ^ 17 ∧ Z.testbit v 12 = false ∧ Z.testbit v 14 = false.
Definition high_ok (v : Z) : Prop := ∃ dest, 0 ≤ dest < 256 ∧ v = Z.shiftl dest 24.

(** An I/O APIC at address [base]: the selected register, the version register
    and the entries of the redirection table, as far as software writes them. *)
Class IoApic (D : Type) `{Bus D} (base : Z) := {
  io_sel : D → Z;
  io_ver : Z;
  io_low : D → Z → Z;
  io_high : D → Z → Z;
  io_entries := Z.land (Z.shiftr io_ver 16) 0xff + 1;
  io_ver_range : 0 ≤ io_ver < 2 ^ 32;
  io_select d r : let d' := bus_store base r d in io_sel d' = r ∧ io_low d' = io_low d ∧ io_high d' = io_high d;
  io_read_ver d : io_sel d = REG_VER →
    let '(v, d') := bus_load (base + ioapic_data_off) d in v = io_ver ∧ io_low d' = io_low d ∧ io_high d' = io_high d;
  io_write_low d i v : 0 ≤ i < io_entries → io_sel d = REG_TABLE + 2 * i → low_ok v →
    let d' := bus_store (base + ioapic_data_off) v d in io_low d' = <[i := v]> (io_low d) ∧ io_high d' = io_high d;
  io_write_high d i v : 0 ≤ i < io_entries → io_sel d = REG_TABLE + 2 * i + 1 → high_ok v →
    let d' := bus_store (base + ioapic_data_off) v d in io_low d' = io_low d ∧ io_high d' = <[i := v]> (io_high d)
}.

(** What becomes of interrupt line [i]: masked, or delivered as a vector to a
    CPU. *)
Definition routing {D} `{Bus D} base `{!IoApic D base} (d : D) (i : Z) : option (Z * Z) :=
  if Z.testbit (io_low d i) 16 then None else Some (Z.land (io_low d i) 0xff, Z.shiftr (io_high d i) 24).

(** A local APIC at [base]: the reads of ICRLO that still show a command under
    way, at most [lp_bound]. *)
Class Lapic (D : Type) `{Bus D} (base : Z) := {
  lp_busy : D → nat;
  lp_bound : nat;
  lp_busy_le d : (lp_busy d ≤ lp_bound)%nat;
  lp_read d : let '(v, d') := bus_load (base + 4 * ICRLO) d in
    Z.testbit v 12 = bool_decide (lp_busy d ≠ 0%nat) ∧ lp_busy d' = pred (lp_busy d)
}.

Section io_run.
Context {D : Type} `{HB : Bus D} (base : Z) `{HI : !IoApic D base} (fuel : nat).
Implicit Types (m : board D) (d : D).

Lemma entries_range : 1 ≤ io_entries ≤ 256.
Proof.
  unfold io_entries. change 0xff with (Z.ones 8). rewrite Z.land_ones by lia.
  pose proof (Z.mod_pos_bound (Z.shiftr io_ver 16) (2 ^ 8) ltac:(lia)). lia.
Qed.

Definition same_but_bus m m' : Prop := m_k m' = m_k m ∧ m_drv m' = m_drv m.

Lemma write_low_run m i v :
  dr_ioapic (m_drv m) = base → 0 ≤ i < io_entries → low_ok v →
  ∃ m', ioapicwrite (REG_TABLE + 2 * i) v fuel m = Ret tt m' ∧ same_but_bus m m' ∧
    io_low (m_bus m') = <[i := v]> (io_low (m_bus m)) ∧ io_high (m_bus m') = io_high (m_bus m).
Proof.
  intros Hb Hi Hv. pose proof entries_range as Hent. unfold ioapicwrite, getd, store32, bus_put. mred. eexists. split; [done|]. split; [done|]. cbn [m_bus m_drv].
  rewrite Hb, !u32_small by (unfold REG_TABLE; destruct Hv; lia). destruct (io_select (m_bus m) (REG_TABLE + 2 * i)) as (H1 & H2 & H3).
  destruct (io_write_low (bus_store base (REG_TABLE + 2 * i) (m_bus m)) i v) as [H4 H5]; [done..|]. by rewrite H4, H5, H2, H3.
Qed.

Lemma write_high_run m i v :
  dr_ioapic (m_drv m) = base → 0 ≤ i < io_entries → high_ok v →
  ∃ m', ioapicwrite (REG_TABLE + 2 * i + 1) v fuel m = Ret tt m' ∧ same_but_bus m m' ∧
    io_low (m_bus m') = io_low (m_bus m) ∧ io_high (m_bus m') = <[i := v]> (io_high (m_bus m)).
Proof.
  intros Hb Hi Hv. pose proof entries_range as Hent. unfold ioapicwrite, getd, store32, bus_put. mred. eexists. split; [done|]. split; [done|]. cbn [m_bus m_drv].
  assert (0 ≤ v < 2 ^ 32) by (destruct Hv as (c & Hc & ->); rewrite Z.shiftl_mul_pow2; lia).
  rewrite Hb, !u32_small by (unfold REG_TABLE; lia). destruct (io_select (m_bus m) (REG_TABLE + 2 * i + 1)) as (H1 & H2 & H3).
  destruct (io_write_high (bus_store base (REG_TABLE + 2 * i + 1) (m_bus m)) i v) as [H4 H5]; [done..|]. by rewrite H4, H5, H2, H3.
Qed.

Lemma entry_run m i v w :
  dr_ioapic (m_drv m) = base → 0 ≤ i < io_entries → low_ok v → high_ok w →
  ∃ m', (ioapicwrite (REG_TABLE + 2 * i) v;; ioapicwrite (REG_TABLE + 2 * i + 1) w) fuel m = Ret tt m' ∧ same_but_bus m m' ∧
    io_low (m_bus m') = <[i := v]> (io_low (m_bus m)) ∧ io_high (m_bus m') = <[i := w]> (io_high (m_bus m)).
Proof.
  intros Hb Hi Hv Hw. destruct (write_low_run m i v Hb Hi Hv) as (m1 & E1 & [K1 V1] & L1 & H1).
  destruct (write_high_run m1 i w ltac:(by rewrite V1) Hi Hw) as (m2 & E2 & [K2 V2] & L2 & H2). mred. rewrite E1. mred. rewrite E2.
  exists m2. split; [done|]. split; [split; congruence|]. split; congruence.
Qed.

Lemma testbit_small x n k : 0 ≤ x < 2 ^ n → 0 ≤ n ≤ k → Z.testbit x k = false.
Proof. intros Hx Hk. apply Z.testbit_false; [lia|]. rewrite Z.div_small; [done|]. pose proof (Z.pow_le_mono_r 2 n k). lia. Qed.

Lemma low_ok_vector i : 0 ≤ i < 224 → low_ok (T_IRQ0 + i).
Proof.
  intros Hi. unfold low_ok, T_IRQ0. split; [lia|]. by rewrite !(testbit_small (32 + i) 8) by lia.
Qed.

Lemma disabled_sum i : 0 ≤ i < 224 → Z.lor INT_DISABLED (T_IRQ0 + i) = 2 ^ 16 + (T_IRQ0 + i).
Proof.
  intros Hi. change INT_DISABLED with (Z.shiftl 1 16). rewrite <- Z.lxor_lor, <- Z.add_nocarry_lxor; [done|..].
  all: apply Z.bits_inj'; intros n Hn; rewrite Z.land_spec, Z.bits_0, Z.shiftl_spec by done; destruct (decide (n < 16)); [by rewrite Z.testbit_neg_r by lia|].
  all: by rewrite (testbit_small (T_IRQ0 + i) 8), andb_false_r by (unfold T_IRQ0; lia).
Qed.

Lemma low_ok_disabled i : 0 ≤ i < 224 → low_ok (Z.lor INT_DISABLED (T_IRQ0 + i)).
Proof.
  intros Hi. rewrite disabled_sum by done. destruct (low_ok_vector i Hi) as (H1 & H2 & H3). unfold T_IRQ0 in *. split; [lia|].
  rewrite !Z.testbit_false by lia. split.
  - replace ((2 ^ 16 + (32 + i)) / 2 ^ 12) with (16 + (32 + i) / 2 ^ 12) by (rewrite <- Z.div_add_l by lia; f_equal; lia). by rewrite (Z.div_small (32 + i)) by lia.
  - replace ((2 ^ 16 + (32 + i)) / 2 ^ 14) with (4 + (32 + i) / 2 ^ 14) by (rewrite <- Z.div_add_l by lia; f_equal; lia). by rewrite (Z.div_small (32 + i)) by lia.
Qed.

Lemma routing_disabled d i : 0 ≤ i < 224 → io_low d i = Z.lor INT_DISABLED (T_IRQ0 + i) → routing base d i = None.
Proof.
  intros Hi E. unfold routing. rewrite E, disabled_sum by done. assert (Z.testbit (2 ^ 16 + (T_IRQ0 + i)) 16 = true) as ->; [|done].
  apply Z.testbit_true; [lia|]. unfold T_IRQ0. replace ((2 ^ 16 + (32 + i)) / 2 ^ 16) with (1 + (32 + i) / 2 ^ 16) by (rewrite <- Z.div_add_l by lia; f_equal; lia).
  by rewrite (Z.div_small (32 + i)) by lia.
Qed.

Lemma routing_enabled d i cpu :
  0 ≤ i < 224 → 0 ≤ cpu → io_low d i = T_IRQ0 + i → io_high d i = Z.shiftl cpu 24 → routing base d i = Some (T_IRQ0 + i, cpu).
Proof.
  intros Hi Hc El Eh. unfold routing. rewrite El, Eh. unfold T_IRQ0. rewrite (testbit_small (32 + i) 8) by lia.
  change 255 with (Z.ones 8). rewrite Z.land_ones, Z.mod_small by lia.
  by rewrite Z.shiftr_shiftl_l, Z.shiftl_0_r by lia.
Qed.

Definition table_reset d (n : Z) : Prop := ∀ i, 0 ≤ i < n → io_low d i = Z.lor INT_DISABLED (T_IRQ0 + i) ∧ io_high d i = 0.

Lemma ioapicinit_run m :
  dr_ioapic (m_drv m) = base → io_entries ≤ 224 →
  ∃ m', ioapicinit fuel m = Ret tt m' ∧ same_but_bus m m' ∧ table_reset (m_bus m') io_entries.
Proof.
  intros Hb Hn. pose proof entries_range as Hent. unfold ioapicinit, ioapicread, getd, store32, bus_put, load32, bus_get. mred. cbn [m_bus m_drv m_k]. rewrite Hb.
  destruct (io_select (m_bus m) REG_VER) as (Hs & _ & _). change (u32 REG_VER) with REG_VER.
  pose proof (io_read_ver (bus_store base REG_VER (m_bus m)) Hs) as Hr. destruct (bus_load _ _) as [v d1]. destruct Hr as (-> & _ & _). mred.
  rewrite (u32_small io_ver) by apply io_ver_range. fold io_entries. set (m1 := mkBoard _ _ d1).
  destruct (forM_ok (S := board D) (R := unit) (λ i, ioapicwrite (REG_TABLE + 2 * i) (Z.lor INT_DISABLED (T_IRQ0 + i));; ioapicwrite (REG_TABLE + 2 * i + 1) 0;; mret None)
    (λ i m', same_but_bus m m' ∧ table_reset (m_bus m') i) fuel (Z.to_nat io_entries) 0 m1) as (m2 & E & [K2 T2]).
  - split; [done|]. intros i Hi. lia.
  - intros i m' Hi [[K V] T]. rewrite Z2Nat.id in Hi by lia.
    destruct (write_low_run m' i (Z.lor INT_DISABLED (T_IRQ0 + i))) as (m3 & E3 & [K3 V3] & L3 & H3); [congruence|lia|apply low_ok_disabled; lia|].
    destruct (write_high_run m3 i 0) as (m4 & E4 & [K4 V4] & L4 & H4); [congruence|lia|by exists 0|].
    exists m4. mred. rewrite E3. mred. rewrite E4. mred. split; [done|]. split; [split; congruence|].
    intros j Hj. rewrite L4, L3, H4, H3. destruct (decide (j = i)) as [->|]; [by rewrite !fn_lookup_insert|].
    rewrite !fn_lookup_insert_ne by done. apply T. lia.
  - rewrite E. mred. exists m2. split; [done|]. split; [done|]. by rewrite Z2Nat.id in T2 by lia.
Qed.

(** The calls of [ioapicenable] the drivers make, and the CPU the last of them
    names for line [i]. *)
Fixpoint enable_all (l : list (Z * Z)) : M (board D) unit :=
  match l with
  | [] => mret tt
  | (irq, cpunum) :: l => ioapicenable irq cpunum;; enable_all l
  end.
Definition asked (l : list (Z * Z)) (i : Z) : option Z := foldl (λ r p, if p.1 =? i then Some p.2 else r) None l.

Lemma asked_snoc l p i : asked (l ++ [p]) i = if p.1 =? i then Some p.2 else asked l i.
Proof. unfold asked. by rewrite foldl_app. Qed.

Lemma enable_all_run m l0 l :
  dr_ioapic (m_drv m) = base → io_entries ≤ 224 →
  (∀ p, p ∈ l → 0 ≤ p.1 < io_entries ∧ 0 ≤ p.2 < 256) →
  (∀ i, 0 ≤ i < io_entries → routing base (m_bus m) i = (λ c, (T_IRQ0 + i, c)) <$> asked l0 i) →
  ∃ m', enable_all l fuel m = Ret tt m' ∧ same_but_bus m m' ∧
    ∀ i, 0 ≤ i < io_entries → routing base (m_bus m') i = (λ c, (T_IRQ0 + i, c)) <$> asked (l0 ++ l) i.
Proof.
  revert m l0. induction l as [|[irq cpu] l IH]; intros m l0 Hb Hn Hl Hr.
  - exists m. rewrite app_nil_r. done.
  - destruct (Hl (irq, cpu) ltac:(set_solver)) as [Hi Hc]. cbn [fst snd] in Hi, Hc. cbn [enable_all]. unfold ioapicenable.
    destruct (entry_run m irq (T_IRQ0 + irq) (Z.shiftl cpu 24)) as (m1 & E1 & [K1 V1] & L1 & H1); [done|done|apply low_ok_vector; lia|by exists cpu|].
    mred. revert E1. mred. intros ->. cbn [obind].
    destruct (IH m1 (l0 ++ [(irq, cpu)])) as (m2 & E2 & [K2 V2] & R2); [congruence|done|set_solver| |].
    + intros i Hi'. rewrite asked_snoc. cbn [fst snd]. destruct (Z.eqb_spec irq i) as [->|Hne].
      * simpl. apply routing_enabled; [lia|lia|by rewrite L1, fn_lookup_insert|by rewrite H1, fn_lookup_insert].
      * rewrite <- Hr by done. unfold routing. rewrite L1, H1, !fn_lookup_insert_ne by done. done.
    + exists m2. rewrite E2. rewrite <- app_assoc in R2. split; [done|]. split; [split; congruence|done].
Qed.

(** C25: After [ioapicinit] and the drivers' calls of [ioapicenable], every line
    of the I/O APIC that was asked for is delivered as vector [T_IRQ0 + irq] to
    the CPU last named for it, every other line is masked, and nothing else of
    the kernel has changed. *)
Theorem ioapic_routes m l :
  dr_ioapic (m_drv m) = base → io_entries ≤ 224 → (∀ p, p ∈ l → 0 ≤ p.1 < io_entries ∧ 0 ≤ p.2 < 256) →
  ∃ m', (ioapicinit;; enable_all l) fuel m = Ret tt m' ∧ same_but_bus m m' ∧
    ∀ i, 0 ≤ i < io_entries → routing base (m_bus m') i = (λ c, (T_IRQ0 + i, c)) <$> asked l i.
Proof.
  intros Hb Hn Hl. destruct (ioapicinit_run m Hb Hn) as (m1 & E1 & [K1 V1] & T1). mred. rewrite E1. mred.
  destruct (enable_all_run m1 [] l) as (m2 & E2 & [K2 V2] & R2); [congruence|done|done| |].
  - intros i Hi. apply routing_disabled; [lia|]. by apply T1.
  - exists m2. rewrite E2. split; [done|]. split; [split; congruence|done].
Qed.
End io_run.

(** * Programming the local APIC *)

Section lapic_run.
Context {D : Type} `{HB : Bus D} (base : Z) (fuel : nat).
Implicit Types (m : board (log_bus D)).

Definition lapic_store (p : Z * Z) : command := Store (base + 4 * p.1) p.2.

(** [m'] is [m] after the local APIC's registers have been written so. *)
Definition wrote m m' (l : list (Z * Z)) : Prop :=
  m_k m' = m_k m ∧ m_drv m' = m_drv m ∧ lb_log (m_bus m') = lb_log (m_bus m) ++ (lapic_store <$> l).

Lemma wrote_trans m1 m2 m3 l1 l2 : wrote m1 m2 l1 → wrote m2 m3 l2 → wrote m1 m3 (l1 ++ l2).
Proof. intros (K1 & V1 & L1) (K2 & V2 & L2). split_and!; [congruence|congruence|]. by rewrite L2, L1, fmap_app, app_assoc. Qed.

Lemma lapicr_run m r : ∃ v m', lapicr r fuel m = Ret v m' ∧ wrote m m' [].
Proof.
  unfold lapicr, getd, load32, bus_get. mred. cbn [bus_load logged]. destruct (bus_load _ _) as [v d]. mred. eexists _, _. split; [done|].
  split_and!; [done|done|]. cbn. by rewrite app_nil_r.
Qed.

Lemma lapicw_run m r v : dr_lapic (m_drv m) = base → 0 ≤ v < 2 ^ 32 → ∃ m', lapicw r v fuel m = Ret tt m' ∧ wrote m m' [(r, v)].
Proof.
  intros Hb Hv. unfold lapicw, getd, store32, bus_put. mred. rewrite u32_small by done. set (m1 := mkBoard _ _ _).
  destruct (lapicr_run m1 ID) as (v' & m2 & E & W). rewrite E. mred. exists m2. split; [done|].
  apply (wrote_trans m m1 m2 [(r, v)] []); [|done]. split_and!; [done|done|]. cbn. by rewrite Hb.
Qed.

Context `{HL : !Lapic D base}.

Lemma land_bit v k : 0 ≤ k → (Z.land v (2 ^ k) =? 0) = negb (Z.testbit v k).
Proof.
  intros Hk. apply eq_true_iff_eq. rewrite Z.eqb_eq, negb_true_iff. split.
  - intros E. apply (f_equal (λ x, Z.testbit x k)) in E. by rewrite Z.land_spec, Z.pow2_bits_true, Z.bits_0, andb_true_r in E.
  - intros E. apply Z.bits_inj'. intros j Hj. rewrite Z.land_spec, Z.bits_0. destruct (decide (j = k)) as [->|]; [by rewrite E|]. by rewrite Z.pow2_bits_false, andb_false_r by done.
Qed.

Lemma read_icr_run m :
  dr_lapic (m_drv m) = base → let busy := lp_busy (lb_dev (m_bus m)) in
  ∃ v m', lapicr ICRLO fuel m = Ret v m' ∧ wrote m m' [] ∧ (Z.land v DELIVS =? 0) = bool_decide (busy = 0%nat) ∧ lp_busy (lb_dev (m_bus m')) = pred busy.
Proof.
  intros Hb busy. unfold lapicr, getd, load32, bus_get. mred. rewrite Hb. cbn [bus_load logged].
  pose proof (lp_read (lb_dev (m_bus m))) as Hr. destruct (bus_load _ _) as [v d] eqn:El. destruct Hr as [Hv Hd]. mred. eexists _, _. split; [done|].
  split; [split_and!; [done|done|cbn; by rewrite app_nil_r]|]. split; [|exact Hd]. change DELIVS with (2 ^ 12). rewrite land_bit by lia. unfold u32.
  rewrite Z.mod_pow2_bits_low, Hv by lia. fold busy. by destruct busy.
Qed.

(** The loop that waits for the command to be delivered ends. *)
Lemma deliver_run n m :
  dr_lapic (m_drv m) = base → (lp_busy (lb_dev (m_bus m)) < n)%nat →
  ∃ m', loop_fuel n (λ _ : unit, v ← lapicr ICRLO; mret (if negb (Z.land v DELIVS =? 0) then inl tt else inr tt)) tt fuel m = Ret tt m' ∧ wrote m m' [].
Proof.
  revert m. induction n as [|n IH]; intros m Hb Hn; [lia|]. rewrite loop_fuel_S. destruct (read_icr_run m Hb) as (v & m1 & E1 & W1 & Ez & Hd).
  rewrite (run_bind _ _ _ _ _ _ E1), Ez. destruct (lp_busy (lb_dev (m_bus m))) as [|k] eqn:Hk.
  - by exists m1.
  - destruct (IH m1) as (m2 & E & W2); [by destruct W1 as (_ & -> & _)|rewrite Hd; simpl; lia|]. exists m2. split; [exact E|]. exact (wrote_trans _ _ _ [] [] W1 W2).
Qed.

(** The registers [lapicinit] programs, in order; [pc] when the APIC has a
    performance counter entry. *)
Definition lapic_program (pc : bool) : list (Z * Z) :=
  [(SVR, 0x13f); (TDCR, 0xb); (TIMER, 0x20020); (TICR, 10000000); (LINT0, MASKED); (LINT1, MASKED)] ++
  (if pc then [(PCINT, MASKED)] else []) ++
  [(ERROR, 51); (ESR, 0); (ESR, 0); (EOI, 0); (ICRHI, 0); (ICRLO, 0x88500); (TPR, 0)].

Lemma whenM_lapicw m (b : bool) r v :
  dr_lapic (m_drv m) = base → 0 ≤ v < 2 ^ 32 → ∃ m', whenM b (lapicw r v) fuel m = Ret tt m' ∧ wrote m m' (if b then [(r, v)] else []).
Proof.
  intros Hb Hv. destruct b; [by apply lapicw_run|]. exists m. split; [done|]. split_and!; [done|done|]. by rewrite app_nil_r.
Qed.

(** The next register written, added to what is known to be written. *)
Ltac lw W Hd := match goal with |- context [lapicw ?r ?v ?f ?m] =>
  let m' := fresh "m" in let W' := fresh "W" in let E := fresh in
  destruct (lapicw_run m r v (Hd _ _ W)) as (m' & E & W'); [vm_compute; split; congruence|]; rewrite E; clear E; mred;
  apply (wrote_trans _ _ _ _ _ W) in W'; clear W; rename W' into W; cbn [app] in W end.

(** With a local APIC that delivers its commands, [lapicinit] ends; it has
    programmed the timer, masked the local lines and enabled interrupts last;
    without one it does nothing. *)
Theorem lapicinit_spec m :
  dr_lapic (m_drv m) = base → (lp_bound < fuel)%nat →
  ∃ m', lapicinit fuel m = Ret tt m' ∧ if base =? 0 then m' = m else ∃ pc, wrote m m' (lapic_program pc).
Proof.
  intros Hb Hf. unfold lapicinit, getd. mred. rewrite Hb. destruct (base =? 0); [by exists m|].
  assert (Hd : ∀ m' l, wrote m m' l → dr_lapic (m_drv m') = base) by (intros m' l (_ & E & _); by rewrite E).
  assert (W0 : wrote m m []) by (split_and!; [done|done|by rewrite app_nil_r]).
  mred.
  lw W0 Hd. lw W0 Hd. lw W0 Hd. lw W0 Hd. lw W0 Hd. lw W0 Hd.
  destruct (lapicr_run m5 VER) as (ver & m6 & E & W). rewrite E. mred. apply (wrote_trans _ _ _ _ _ W0) in W. clear E W0. rewrite app_nil_r in W.
  destruct (whenM_lapicw m6 (4 <=? Z.land (Z.shiftr ver 16) 0xff) PCINT MASKED (Hd _ _ W) ltac:(done)) as (m7 & E & W1). rewrite E. mred. apply (wrote_trans _ _ _ _ _ W) in W1. clear E W.
  set (pc := 4 <=? _) in *. 
  lw W1 Hd. lw W1 Hd. lw W1 Hd. lw W1 Hd. lw W1 Hd. lw W1 Hd. unfold whileM. mred.
  destruct (deliver_run fuel m13 (Hd _ _ W1)) as (m14 & E & W2); [pose proof (lp_busy_le (lb_dev (m_bus m13))); lia|]. rewrite E. mred. apply (wrote_trans _ _ _ _ _ W1) in W2. clear E W1. rewrite app_nil_r in W2.
  lw W2 Hd. eexists. split; [done|]. exists pc. revert W2. unfold lapic_program. by destruct pc.
Qed.
End lapic_run.

(** * An I/O APIC *)

(** A device with the registers of an I/O APIC at address 0xfec00000 with 24
    lines and nothing else on the bus. *)
Record io_regs := mkIo { ir_sel : Z; ir_low : Z → Z; ir_high : Z → Z }.
Definition io_base : Z := 0xfec00000.
Definition io_store (a v : Z) (d : io_regs) : io_regs :=
  if a =? io_base then mkIo v (ir_low d) (ir_high d) else
  if a =? io_base + ioapic_data_off then
    let i := (ir_sel d - REG_TABLE) / 2 in
    if ir_sel d <? REG_TABLE then d else
    if Z.even (ir_sel d) then mkIo (ir_sel d) (<[i := v]> (ir_low d)) (ir_high d)
    else mkIo (ir_sel d) (ir_low d) (<[i := v]> (ir_high d))
  else d.

#[global] Instance io_bus : Bus io_regs := {|
  bus_in p d := (0xff, d);
  bus_out p v d := d;
  bus_ins p n d := (replicate (4 * n) 0xff, d);
  bus_outs p l d := d;
  bus_load a d := (if (a =? io_base + ioapic_data_off) && (ir_sel d =? REG_VER) then 0x00170011 else 0, d);
  bus_store := io_store
|}.

#[global] Instance io_apic : IoApic io_regs io_base.
Proof.
  refine {| io_sel := ir_sel; io_ver := 0x00170011; io_low := ir_low; io_high := ir_high |}.
  - done.
  - done.
  - intros d E. cbn. by rewrite E.
  - intros d i v Hi E Hv. cbn [bus_store io_bus]. unfold io_store. rewrite E.
    assert (Z.even (REG_TABLE + 2 * i) = true) as -> by (unfold REG_TABLE; by rewrite Z.even_add_mul_2).
    assert (((REG_TABLE + 2 * i - REG_TABLE) / 2) = i) as -> by (replace (REG_TABLE + 2 * i - REG_TABLE) with (i * 2) by lia; by apply Z.div_mul).
    cbn. rewrite (proj2 (Z.ltb_ge _ _)) by (unfold REG_TABLE; lia). done.
  - intros d i v Hi E Hv. cbn [bus_store io_bus]. unfold io_store. rewrite E.
    assert (Z.even (REG_TABLE + 2 * i + 1) = false) as -> by (unfold REG_TABLE; replace (16 + 2 * i + 1) with (1 + 2 * (8 + i)) by lia; by rewrite Z.even_add_mul_2).
    assert (((REG_TABLE + 2 * i + 1 - REG_TABLE) / 2) = i) as -> by (symmetry; apply Z.div_unique with 1; lia).
    cbn. rewrite (proj2 (Z.ltb_ge _ _)) by (unfold REG_TABLE; lia). done.
Defined.
