(* ===== verification/Uart.v ===== *)
(** The serial port, kernel/uart.c, on an arbitrary bus, and that it provides
    the device the console is modelled with: characters sent are appended to
    its output, characters received come in order. *)

From stdpp Require Import functions base list gmap strings.
From Stdlib Require Import ZArith Lia.
From S2P Require Import Prelude Bytes Sprintf Monad Kstate Spinlock Cons Console Bus Trap Apic.

Definition COM1 : Z := 0x3f8.

(** * The driver *)

Definition cons_set_uart (v : Z) (c : consrec) : consrec :=
  mkCons (cn_buf c) (cn_r c) (cn_w c) (cn_e c) (cn_locking c) (cn_panicked c) (cn_out c) (cn_shift c) (cn_kbd c) v (cn_rx c).

Section driver.
Context {D : Type} `{Bus D}.

(** At most 128 polls of the line status. *)
Definition uartputc (c : Z) : M (board D) unit :=
  uart ← kern (getcons cn_uart);
  if uart =? 0 then mret tt else
  forM 128 0 (λ _,
    v ← inb (COM1 + 5);
    if negb (Z.land v 0x20 =? 0) then mret (Some tt) else
    microdelay 10;; mret None);;
  outb (COM1 + 0) c.

Definition uartgetc : M (board D) Z :=
  uart ← kern (getcons cn_uart);
  if uart =? 0 then mret (-1) else
  v ← inb (COM1 + 5);
  if Z.land v 0x01 =? 0 then mret (-1) else
  inb (COM1 + 0).

(** [for (p = ...; *p; p++) uartputc( *p)]. *)
Fixpoint uartputs (p : list Z) : M (board D) unit :=
  match p with
  | [] => mret tt
  | c :: p => uartputc c;; uartputs p
  end.

Definition uartinit : M (board D) unit :=
  outb (COM1 + 2) 0;;
  outb (COM1 + 3) 0x80;;
  outb (COM1 + 0) (115200 / 9600);;
  outb (COM1 + 1) 0;;
  outb (COM1 + 3) 0x03;;
  outb (COM1 + 4) 0;;
  outb (COM1 + 1) 0x01;;
  st ← inb (COM1 + 5);
  if st =? 0xff then mret tt else
  kern (modcons (cons_set_uart 1));;
  inb (COM1 + 2);;
  inb (COM1 + 0);;
  ioapicenable IRQ_COM1 0;;
  uartputs (str "xv6..." ++ [10]).
End driver.

(** * The device *)

(** A serial port in operation (the divisor latch locked), from the data sheet
    of the 8250: the bytes received and not yet read, those sent, and that
    bytes may arrive at every access. Bit 0 of the line status says whether a
    byte is there. *)
Class Com (D : Type) `{Bus D} := {
  com_rx : D → list Z;
  com_tx : D → list Z;
  com_byte d : Forall (λ c, 0 ≤ c < 2 ^ 8) (com_rx d);
  com_status d : let '(v, d') := bus_in (COM1 + 5) d in
    Z.testbit v 0 = bool_decide (com_rx d ≠ []) ∧ com_tx d' = com_tx d ∧ ∃ l, com_rx d' = com_rx d ++ l;
  com_recv d c r : com_rx d = c :: r →
    let '(v, d') := bus_in (COM1 + 0) d in v = c ∧ com_tx d' = com_tx d ∧ ∃ l, com_rx d' = r ++ l;
  com_send d v :
    let d' := bus_out (COM1 + 0) v d in com_tx d' = com_tx d ++ [v] ∧ ∃ l, com_rx d' = com_rx d ++ l
}.

(** The board as the console sees it: the bytes received are those of the
    port. *)
Definition cons_of {D} `{Com D} (m : board D) : kstate :=
  set_cons (cons_set_rx (com_rx (m_bus m)) (k_cons (m_k m))) (m_k m).

Section run.
Context {D : Type} `{HC : Com D} (fuel : nat).
Implicit Types (m : board D).

(** The kernel is unchanged, these bytes were sent, and of those received what
    was left has grown. *)
Definition port_step m m' (sent left : list Z) : Prop :=
  m_k m' = m_k m ∧ m_drv m' = m_drv m ∧ com_tx (m_bus m') = com_tx (m_bus m) ++ sent ∧ ∃ l, com_rx (m_bus m') = left ++ l.

Lemma status_run m :
  ∃ v m', inb (COM1 + 5) fuel m = Ret v m' ∧ port_step m m' [] (com_rx (m_bus m)) ∧ (Z.land v 1 =? 0) = bool_decide (com_rx (m_bus m) = []).
Proof.
  unfold inb, bus_get. mred. pose proof (com_status (m_bus m)) as Hs. destruct (bus_in _ _) as [v d]. destruct Hs as (Hb & Ht & Hl). mred. eexists _, _. split; [done|].
  split; [split_and!; [done|done|by rewrite app_nil_r|done]|]. change 1 with (2 ^ 0) at 1. rewrite land_bit by lia. unfold u8. rewrite Z.mod_pow2_bits_low, Hb by lia.
  destruct (com_rx (m_bus m)); [done|]. by rewrite bool_decide_true, bool_decide_false by done.
Qed.

Lemma port_step_refl m : port_step m m [] (com_rx (m_bus m)).
Proof. split_and!; [done|done|by rewrite app_nil_r|]. exists []. by rewrite app_nil_r. Qed.

Lemma port_step_trans m1 m2 m3 s :
  port_step m1 m2 [] (com_rx (m_bus m1)) → port_step m2 m3 s (com_rx (m_bus m2)) → port_step m1 m3 s (com_rx (m_bus m1)).
Proof.
  intros (K1 & V1 & T1 & l1 & R1) (K2 & V2 & T2 & l2 & R2). split_and!; [congruence|congruence|by rewrite T2, T1, app_nil_r|].
  exists (l1 ++ l2). by rewrite R2, R1, app_assoc.
Qed.

Lemma uart_run m : kern (getcons cn_uart) fuel m = Ret (cn_uart (k_cons (m_k m))) m.
Proof. by destruct m. Qed.

(** However long the transmitter is busy, the polling ends. *)
Lemma poll_run n i m :
  ∃ r m', forM n i (λ _, v ← inb (COM1 + 5); if negb (Z.land v 0x20 =? 0) then mret (Some tt) else microdelay 10;; mret None) fuel m = Ret r m' ∧
    port_step m m' [] (com_rx (m_bus m)).
Proof.
  revert i m. induction n as [|n IH]; intros i m; [by eexists _, m; split; [|apply port_step_refl]|].
  destruct (status_run m) as (v & m1 & E1 & P1 & _). cbn [forM]. rewrite (run_bind _ _ _ _ (if negb (Z.land v 0x20 =? 0) then Some tt else None) m1).
  - destruct (negb _); [by eexists _, m1|]. destruct (IH (i + 1) m1) as (r & m2 & E2 & P2). exists r, m2. split; [exact E2|]. by eapply port_step_trans.
  - rewrite (run_bind _ _ _ _ _ _ E1). by destruct (negb _).
Qed.

(** [uartputc] sends its character, once, whatever the line status says; without
    a serial port it does nothing. *)
Theorem uartputc_spec m c :
  ∃ m', uartputc c fuel m = Ret tt m' ∧
    port_step m m' (if cn_uart (k_cons (m_k m)) =? 0 then [] else [u8 c]) (com_rx (m_bus m)).
Proof.
  unfold uartputc. rewrite (run_bind _ _ _ _ _ _ (uart_run m)). destruct (_ =? 0); [exists m; split; [done|apply port_step_refl]|].
  destruct (poll_run 128 0 m) as (r & m1 & E1 & P1). rewrite (run_bind _ _ _ _ _ _ E1). unfold outb, bus_put. mred. eexists. split; [done|].
  eapply port_step_trans; [exact P1|]. destruct (com_send (m_bus m1) (u8 c)) as [H1 H2]. by split_and!.
Qed.

End run.

(** * A serial port *)

Record com_regs := mkCom { cr_rx : list Z; cr_tx : list Z }.

#[global] Instance com_bus : Bus com_regs := {|
  bus_in p d :=
    if p =? COM1 + 5 then (match cr_rx d with [] => 0x60 | _ => 0x61 end, d) else
    if p =? COM1 then match cr_rx d with [] => (0, d) | c :: r => (u8 c, mkCom r (cr_tx d)) end else (0, d);
  bus_out p v d := if p =? COM1 then mkCom (cr_rx d) (cr_tx d ++ [v]) else d;
  bus_ins p n d := (replicate (4 * n) 0xff, d);
  bus_outs p l d := d;
  bus_load a d := (0, d);
  bus_store a v d := d
|}.

#[global] Instance com_port : Com com_regs.
Proof.
  refine {| com_rx d := u8 <$> cr_rx d; com_tx := cr_tx |}.
  - intros d. apply Forall_fmap, Forall_true. intros c. apply Z.mod_pos_bound. lia.
  - intros [[|c r] tx]; (split_and!; [done|done|exists []; symmetry; apply app_nil_r]).
  - intros d c r E. cbn. destruct (cr_rx d) as [|c' r'] eqn:Er; [done|]. injection E as <- <-. split_and!; [done|done|]. exists []. by rewrite app_nil_r.
  - intros d v. cbn. split; [done|]. exists []. by rewrite app_nil_r.
Defined.
