(* ===== verification/Ide.v ===== *)
(** The disk driver kernel/ide/ide.c on an arbitrary bus: its request queue is
    first in, first out, and with a disk that answers every request is
    completed.

    A [struct buf **] of [iderw] is the buffer whose [qnext] it points to, or
    [None] for [idequeue]. *)

From stdpp Require Import functions base list gmap strings.
From Stdlib Require Import ZArith Lia.
From S2P Require Import Prelude Monad Kstate Spinlock Sched Bio Bus Trap Apic.

Definition SECTOR_SIZE : Z := 512.
Definition IDE_BSY : Z := 0x80.
Definition IDE_DRDY : Z := 0x40.
Definition IDE_DF : Z := 0x20.
Definition IDE_ERR : Z := 0x01.
Definition IDE_CMD_READ : Z := 0x20.
Definition IDE_CMD_WRITE : Z := 0x30.
Definition IDE_CMD_RDMUL : Z := 0xc4.
Definition IDE_CMD_WRMUL : Z := 0xc5.

(** * The driver *)

Definition set_idequeue (v : option nat) (r : drivers) : drivers :=
  mkDrv (dr_lapic r) (dr_ioapic r) v (dr_qnext r) (dr_havedisk1 r).
Definition set_qnext (b : nat) (v : option nat) (r : drivers) : drivers :=
  mkDrv (dr_lapic r) (dr_ioapic r) (dr_idequeue r) (<[b := v]> (dr_qnext r)) (dr_havedisk1 r).
Definition set_havedisk1 (v : Z) (r : drivers) : drivers :=
  mkDrv (dr_lapic r) (dr_ioapic r) (dr_idequeue r) (dr_qnext r) v.

(** [*pp] and [*pp = v]. *)
Definition rd_pp (pp : option nat) (r : drivers) : option nat :=
  match pp with None => dr_idequeue r | Some c => dr_qnext r !!! c end.
Definition wr_pp (pp v : option nat) : drivers → drivers :=
  match pp with None => set_idequeue v | Some c => set_qnext c v end.

Section driver.
Context {D : Type} `{Bus D}.

(** One poll of the status port: again, or ready with this status. *)
Definition idepoll (_ : unit) : M (board D) (unit + Z) :=
  r ← inb 0x1f7;
  mret (if negb (Z.land r (Z.lor IDE_BSY IDE_DRDY) =? IDE_DRDY) then inl tt else inr r).

Definition idewait (checkerr : bool) : M (board D) Z :=
  r ← whileM idepoll tt;
  mret (if checkerr && negb (Z.land r (Z.lor IDE_DF IDE_ERR) =? 0) then -1 else 0)%bool.

(** The probe for disk 1. *)
Definition probe_disk1 (i : Z) : M (board D) (option unit) :=
  v ← inb 0x1f7;
  if negb (v =? 0) then modd (set_havedisk1 1);; mret (Some tt) else mret None.

Definition ideinit : M (board D) unit :=
  kern (initlock LkIde "ide");;
  ncpu ← kern (getx (λ x, length (x_cpus x)));
  ioapicenable IRQ_IDE (Z.of_nat ncpu - 1);;
  idewait false;;
  outb 0x1f6 (Z.lor 0xe0 (Z.shiftl 1 4));;
  forM 1000 0 probe_disk1;;
  outb 0x1f6 (Z.lor 0xe0 (Z.shiftl 0 4)).

Definition idestart (b : option nat) : M (board D) unit :=
  match b with
  | None => panic "idestart"
  | Some b =>
      bf ← kern (get_buf b);
      if FSSIZE <=? b_blockno bf then panic "incorrect blockno" else
      let sector_per_block := BSIZE / SECTOR_SIZE in
      let sector := b_blockno bf * sector_per_block in
      let read_cmd := if sector_per_block =? 1 then IDE_CMD_READ else IDE_CMD_RDMUL in
      let write_cmd := if sector_per_block =? 1 then IDE_CMD_WRITE else IDE_CMD_WRMUL in
      if 7 <? sector_per_block then panic "idestart" else
      idewait false;;
      outb 0x3f6 0;;
      outb 0x1f2 sector_per_block;;
      outb 0x1f3 (Z.land sector 0xff);;
      outb 0x1f4 (Z.land (Z.shiftr sector 8) 0xff);;
      outb 0x1f5 (Z.land (Z.shiftr sector 16) 0xff);;
      outb 0x1f6 (Z.lor (Z.lor 0xe0 (Z.shiftl (Z.land (b_dev bf) 1) 4)) (Z.land (Z.shiftr sector 24) 0x0f));;
      if negb (Z.land (b_flags bf) B_DIRTY =? 0) then
        outb 0x1f7 write_cmd;;
        outsl 0x1f0 (b_data bf)
      else outb 0x1f7 read_cmd
  end.

(** The data of a request to read, unless the disk reports an error. *)
Definition ide_input (b : nat) : M (board D) unit :=
  r ← idewait true;
  whenM (0 <=? r)
    (data ← insl 0x1f0 (Z.to_nat (BSIZE / 4));
     kern (upd_buf b (buf_set_data data))).

Definition ideintr : M (board D) unit :=
  kern (acquire LkIde);;
  q ← getd dr_idequeue;
  match q with
  | None => kern (release LkIde)
  | Some b =>
      next ← getd (λ r, dr_qnext r !!! b);
      modd (set_idequeue next);;
      bf ← kern (get_buf b);
      whenM (Z.land (b_flags bf) B_DIRTY =? 0) (ide_input b);;
      kern (upd_buf b (λ bf, buf_set_flags (Z.lor (b_flags bf) B_VALID) bf));;
      kern (upd_buf b (λ bf, buf_set_flags (Z.land (b_flags bf) (Z.lnot B_DIRTY)) bf));;
      kern (wakeup (ChBuf b));;
      q ← getd dr_idequeue;
      (match q with None => mret tt | Some _ => idestart q end);;
      kern (release LkIde)
  end.

(** The end of the queue. *)
Definition ide_last : M (board D) (option nat) :=
  whileM (λ pp,
    v ← getd (rd_pp pp);
    mret (match v with Some c => inl (Some c) | None => inr pp end)) None.

Definition ide_done (bf : buf) : bool := Z.land (b_flags bf) (Z.lor B_VALID B_DIRTY) =? B_VALID.

(** A round of the loop that waits for the request. *)
Definition ide_sleep (b : nat) (_ : unit) : M (board D) (unit + unit) :=
  bf ← kern (get_buf b);
  if ide_done bf then mret (inr tt) else
  kern (sleep (ChBuf b) (Some LkIde));;
  mret (inl tt).

Definition iderw (b : nat) : M (board D) unit :=
  h ← kern (holdingsleep (SlBuf b));
  if negb h then panic "iderw: buf not locked" else
  bf ← kern (get_buf b);
  if ide_done bf then panic "iderw: nothing to do" else
  d1 ← getd dr_havedisk1;
  if negb (b_dev bf =? 0) && (d1 =? 0) then panic "iderw: ide disk 1 not present" else
  kern (acquire LkIde);;
  modd (set_qnext b None);;
  pp ← ide_last;
  modd (wr_pp pp (Some b));;
  q ← getd dr_idequeue;
  whenM (bool_decide (q = Some b)) (idestart (Some b));;
  whileM (ide_sleep b) tt;;
  kern (release LkIde).
End driver.

(** * The disk *)

(** A disk that becomes ready: the polls of its status that still find it busy,
    at most [ata_bound]. *)
Class Ata (D : Type) `{Bus D} := {
  ata_busy : D → nat;
  ata_bound : nat;
  ata_busy_le d : (ata_busy d ≤ ata_bound)%nat;
  ata_status d : let '(v, d') := bus_in 0x1f7 d in
    (Z.land (u8 v) (Z.lor IDE_BSY IDE_DRDY) =? IDE_DRDY) = bool_decide (ata_busy d = 0%nat) ∧
    (ata_busy d ≠ 0%nat → ata_busy d' < ata_busy d)%nat
}.

(** * The queue *)

(** From [h] along [qn] lie the buffers [q]. *)
Fixpoint chain (qn : list (option nat)) (h : option nat) (q : list nat) : Prop :=
  match q with
  | [] => h = None
  | b :: q => h = Some b ∧ (b < length qn)%nat ∧ chain qn (qn !!! b) q
  end.

(** A request that waits for the disk. *)
Definition pending (bf : buf) : Prop := ide_done bf = false ∧ b_blockno bf < FSSIZE.

Record ide_inv {D} (m : board D) (q : list nat) : Prop := mkIde {
  iq_chain : chain (dr_qnext (m_drv m)) (dr_idequeue (m_drv m)) q;
  iq_nodup : NoDup q;
  iq_pending b : b ∈ q → (b < length (k_bc (m_k m)))%nat ∧ pending (k_bc (m_k m) !!! b)
}.

Section queue.
Implicit Types (qn : list (option nat)) (q : list nat) (h : option nat) (r : drivers).

Lemma chain_insert qn h q b v : b ∉ q → chain qn h q → chain (<[b := v]> qn) h q.
Proof.
  revert h. induction q as [|c q IH]; intros h Hb Hc; [done|]. destruct Hc as (-> & Hl & Hc). apply not_elem_of_cons in Hb as [Hne Hb].
  split; [done|]. split; [by rewrite length_insert|]. rewrite list_lookup_total_insert_ne by done. by apply IH.
Qed.

(** Where the walk of [iderw] ends. *)
Definition last_pp (pp : option nat) q : option nat := foldl (λ _ c, Some c) pp q.

Lemma last_pp_snoc pp q c : last_pp pp (q ++ [c]) = Some c.
Proof. unfold last_pp. by rewrite foldl_app. Qed.

(** Hanging a buffer on the end. *)
Lemma chain_snoc qn h q c b :
  chain qn h (q ++ [c]) → NoDup (q ++ [c]) → b ∉ q ++ [c] → qn !! b = Some None → chain (<[c := Some b]> qn) h ((q ++ [c]) ++ [b]).
Proof.
  revert h. induction q as [|d q IH]; intros h Hc Hn Hb Hqb; cbn [app chain] in *.
  - destruct Hc as (-> & Hl & _). apply not_elem_of_cons in Hb as [Hne _]. split; [done|]. rewrite length_insert. split; [done|]. split; [by apply list_lookup_total_insert_eq|].
    split; [by apply lookup_lt_Some in Hqb|]. rewrite list_lookup_total_insert_ne by done. by apply list_lookup_total_correct.
  - destruct Hc as (-> & Hl & Hc). apply NoDup_cons in Hn as [Hd Hn]. apply not_elem_of_cons in Hb as [Hne Hb]. split; [done|]. rewrite length_insert. split; [done|].
    rewrite list_lookup_total_insert_ne by set_solver. by apply IH.
Qed.

Lemma append_chain r q b :
  chain (dr_qnext r) (dr_idequeue r) q → NoDup q → b ∉ q → (b < length (dr_qnext r))%nat →
  let r1 := set_qnext b None r in let r2 := wr_pp (last_pp None q) (Some b) r1 in
  chain (dr_qnext r1) (dr_idequeue r1) q ∧ chain (dr_qnext r2) (dr_idequeue r2) (q ++ [b]) ∧
  dr_idequeue r2 = (if decide (q = []) then Some b else dr_idequeue r) ∧ length (dr_qnext r2) = length (dr_qnext r).
Proof.
  intros Hc Hn Hb Hl r1 r2. assert (C1 : chain (dr_qnext r1) (dr_idequeue r1) q) by (by apply chain_insert). split; [done|].
  destruct q as [|c q _] using rev_ind.
  - cbn. split_and!; [done|by rewrite length_insert|by rewrite list_lookup_total_insert_eq|done|by rewrite length_insert].
  - unfold r2. rewrite last_pp_snoc. cbn [wr_pp set_qnext dr_qnext dr_idequeue]. split_and!; [|by destruct q|rewrite length_insert; apply length_insert].
    apply chain_snoc; [done|done|done|]. by apply list_lookup_insert_eq.
Qed.
End queue.

(** * Running the driver *)

Section run.
Context {D : Type} `{HA : Ata D} (fuel : nat).
Implicit Types (m : board D) (q : list nat) (b : nat).

(** Only the bus has changed. *)
Definition bus_step m m' : Prop := m_k m' = m_k m ∧ m_drv m' = m_drv m.

Lemma poll_loop n m :
  (ata_busy (m_bus m) < n)%nat → ∃ v m', loop_fuel n idepoll tt fuel m = Ret v m' ∧ bus_step m m'.
Proof.
  revert m. induction n as [|n IH]; intros m Hn; [lia|]. rewrite loop_fuel_S. unfold idepoll at 2, inb, bus_get. mred.
  pose proof (ata_status (m_bus m)) as Hs. destruct (bus_in _ _) as [v d]. destruct Hs as [Hv Hd]. mred. rewrite Hv. case_bool_decide as Hb; cbn [negb].
  - eexists _, _. split; [done|]. done.
  - specialize (Hd Hb). edestruct (IH (mkBoard (m_k m) (m_drv m) d)) as (v' & m' & E & [K V]); [cbn; lia|]. exists v', m'. split; [exact E|done].
Qed.

Hypothesis Hfuel : (ata_bound < fuel)%nat.

Lemma idewait_run m chk : ∃ r m', idewait chk fuel m = Ret r m' ∧ bus_step m m'.
Proof.
  unfold idewait, whileM. mred. destruct (poll_loop fuel m) as (v & m' & E & S); [pose proof (ata_busy_le (m_bus m)); lia|].
  rewrite E. mred. by eexists _, m'.
Qed.

Lemma bus_step_trans m1 m2 m3 : bus_step m1 m2 → bus_step m2 m3 → bus_step m1 m3.
Proof. intros [] []. split; congruence. Qed.

Lemma get_buf_board m b : kern (get_buf b) fuel m = Ret (k_bc (m_k m) !!! b) m.
Proof. by destruct m. Qed.

Lemma upd_buf_board m b f : kern (upd_buf b f) fuel m = Ret tt (mkBoard (set_bc (alter f b (k_bc (m_k m))) (m_k m)) (m_drv m) (m_bus m)).
Proof. done. Qed.

(** A request that waits can be started. *)
Lemma idestart_run m b : b_blockno (k_bc (m_k m) !!! b) < FSSIZE → ∃ m', idestart (Some b) fuel m = Ret tt m' ∧ bus_step m m'.
Proof.
  intros Hb. unfold idestart. mred. rewrite get_buf_board. cbn [obind]. rewrite (proj2 (Z.leb_gt _ _)) by done. change (7 <? BSIZE / SECTOR_SIZE) with false. cbn iota. mred.
  destruct (idewait_run m false) as (r & m1 & E1 & S1). rewrite E1. mred. unfold outb, outsl, bus_put. mred.
  destruct (negb _); mred; eexists; (split; [done|]); by eapply bus_step_trans.
Qed.

(** The walk to the end of the queue. *)
Lemma last_run n m q pp :
  chain (dr_qnext (m_drv m)) (rd_pp pp (m_drv m)) q → (length q < n)%nat →
  loop_fuel n (λ pp, v ← getd (rd_pp pp); mret (match v with Some c => inl (Some c) | None => inr pp end)) pp fuel m = Ret (last_pp pp q) m.
Proof.
  revert q pp. induction n as [|n IH]; intros q pp Hc Hn; [lia|]. rewrite loop_fuel_S. unfold getd at 2. mred. destruct q as [|c q]; cbn in Hc.
  - by rewrite Hc.
  - destruct Hc as (-> & Hl & Hc). apply (IH q (Some c)); [done|simpl in Hn; lia].
Qed.

(** * The interrupt *)

(** CPU [i] can take the locks of the handler. *)
Definition can_handle m (i : nat) : Prop :=
  cpu_ok (k_ctx (m_k m)) i ∧ lock_free (k_ctx (m_k m)) LkIde ∧ lock_free (k_ctx (m_k m)) LkPtable.

Definition finished (bf : buf) : buf := buf_set_flags (Z.land (Z.lor (b_flags bf) B_VALID) (Z.lnot B_DIRTY)) bf.

Lemma finished_done bf : ide_done (finished bf) = true.
Proof.
  unfold ide_done, finished. cbn [b_flags buf_set_flags]. apply Z.eqb_eq. rewrite <- Z.land_assoc. change (Z.land (Z.lnot B_DIRTY) (Z.lor B_VALID B_DIRTY)) with 2. change B_VALID with 2.
  rewrite Z.land_lor_distr_l, Z.land_diag. apply Z.bits_inj'. intros n Hn. rewrite Z.lor_spec, Z.land_spec. by destruct (Z.testbit (b_flags bf) n), (Z.testbit 2 n).
Qed.

Lemma input_run m b :
  ∃ data m', ide_input b fuel m = Ret tt m' ∧ m_drv m' = m_drv m ∧ m_k m' = set_bc (alter (buf_set_data data) b (k_bc (m_k m))) (m_k m).
Proof.
  unfold ide_input. mred. destruct (idewait_run m true) as (r & m1 & E1 & [K1 V1]). rewrite E1. mred. destruct (0 <=? r); mred.
  - unfold insl, bus_get. mred. destruct (bus_ins _ _ _) as [data d]. mred. eexists data, _. split; [done|]. cbn. split; [done|]. by rewrite K1.
  - exists (b_data (k_bc (m_k m) !!! b)), m1. split; [done|]. split; [done|]. rewrite K1. replace (alter _ b _) with (k_bc (m_k m)); [by destruct (m_k m)|].
    apply list_eq. intros j. rewrite list_lookup_alter. destruct (decide _) as [->|]; [|done]. destruct (k_bc (m_k m) !! j) as [bf|] eqn:E; [|done].
    rewrite (list_lookup_total_correct _ _ _ E). by destruct bf.
Qed.

(** The optional input: the data of the buffer may change. *)
Lemma when_input_run m b (w : bool) :
  ∃ data m', whenM w (ide_input b) fuel m = Ret tt m' ∧ m_drv m' = m_drv m ∧
    m_k m' = set_bc (alter (λ bf, if w then buf_set_data data bf else bf) b (k_bc (m_k m))) (m_k m).
Proof.
  destruct w; [apply input_run|]. exists [], m. split; [done|]. split; [done|]. replace (alter _ b _) with (k_bc (m_k m)); [by destruct (m_k m)|].
  symmetry. apply list_alter_id. done.
Qed.

Lemma finish_bufs b bf0 (bc : list buf) data :
  bc !!! b = bf0 → (b < length bc)%nat →
  alter (λ bf, buf_set_flags (Z.land (b_flags bf) (Z.lnot B_DIRTY)) bf) b
    (alter (λ bf, buf_set_flags (Z.lor (b_flags bf) B_VALID) bf) b
       (alter (λ bf, if Z.land (b_flags bf0) B_DIRTY =? 0 then buf_set_data data bf else bf) b bc)) =
  alter (λ bf, finished (if Z.land (b_flags bf) B_DIRTY =? 0 then buf_set_data data bf else bf)) b bc.
Proof.
  intros <- Hb. apply list_eq. intros j. rewrite !list_lookup_alter. destruct (decide (b = j)) as [->|]; [|done]. rewrite !decide_True by done.
  destruct (bc !! j) as [bf|] eqn:Ej; [|done]. cbn. rewrite (list_lookup_total_correct _ _ _ Ej). by destruct (_ =? 0).
Qed.

Lemma ideintr_idle m i : can_handle m i → dr_idequeue (m_drv m) = None → ideintr fuel m = Ret tt m.
Proof.
  intros (Hok & Hl & Hp) Hq. unfold ideintr. rewrite (run_bind _ _ _ _ _ _ (kern_ret _ _ _ _ _ (acquire_run fuel (m_k m) i LkIde Hok Hl))). unfold getd. mred. cbn [m_drv]. rewrite Hq.
  erewrite kern_ret by (cbn [m_k]; apply (release_run _ _ (k_ctx (m_k m)) i); done). cbn. rewrite set_ctx_set_ctx, set_ctx_id. by destruct m.
Qed.

(** The interrupt completes the first request, whatever the disk delivers, and
    starts the next. *)
Lemma ideintr_run m i b q :
  can_handle m i → ide_inv m (b :: q) →
  ∃ data m', ideintr fuel m = Ret tt m' ∧ ide_inv m' q ∧ k_ctx (m_k m') = k_ctx (m_k m) ∧ length (dr_qnext (m_drv m')) = length (dr_qnext (m_drv m)) ∧
    k_bc (m_k m') = alter (λ bf, finished (if Z.land (b_flags bf) B_DIRTY =? 0 then buf_set_data data bf else bf)) b (k_bc (m_k m)) ∧
    k_pt (m_k m') = pt_upd (map (wake_proc (ChBuf b))) (k_pt (m_k m)).
Proof.
  intros (Hok & Hl & Hp) [Hc Hn Hpd]. destruct Hc as (Hq & Hbl & Hc). destruct (Hpd b ltac:(set_solver)) as [Hlb Hpb]. apply NoDup_cons in Hn as [Hbq Hn].
  unfold ideintr. rewrite (run_bind _ _ _ _ _ _ (kern_ret _ _ _ _ _ (acquire_run fuel (m_k m) i LkIde Hok Hl))). unfold getd, modd. mred. cbn [m_drv]. rewrite Hq. mred.
  rewrite get_buf_board. cbn [obind m_k m_drv m_bus]. set (x := x_acq i LkIde (k_ctx (m_k m))). change (k_bc (set_ctx x (m_k m))) with (k_bc (m_k m)).
  set (m1 := mkBoard _ _ _). set (w := Z.land (b_flags (k_bc (m_k m) !!! b)) B_DIRTY =? 0).
  destruct (when_input_run m1 b w) as (data & m2 & E2 & V2 & K2). rewrite (run_bind _ _ _ _ _ _ E2). mred.
  set (bc' := alter (λ bf, finished (if Z.land (b_flags bf) B_DIRTY =? 0 then buf_set_data data bf else bf)) b (k_bc (m_k m))).
  set (s3 := set_bc bc' (set_ctx x (m_k m))).
  rewrite !upd_buf_board. mred. rewrite upd_buf_board. mred. cbn [m_k m_drv m_bus]. rewrite V2, K2.
  pose proof (finish_bufs b _ (k_bc (m_k m)) data eq_refl Hlb) as Ef. fold bc' w in Ef.
  set (m3 := mkBoard _ _ _). assert (m3 = mkBoard s3 (m_drv m1) (m_bus m2)) as -> by (unfold m3, s3; rewrite <- Ef; done). clear E2 Ef.
  erewrite kern_ret by (apply (wakeup_run _ _ i); [by apply cpu_ok_acq|by apply lock_free_acq]). mred. cbn [m_drv m1 set_idequeue dr_idequeue].
  set (m4 := mkBoard _ _ _). set (next := dr_qnext (m_drv m) !!! b) in *.
  assert (I4 : ide_inv m4 q).
  { split; [done|done|]. intros c Hcq. destruct (Hpd c ltac:(set_solver)) as [Hlc Hpc]. cbn. unfold bc'. rewrite length_alter. split; [done|].
    rewrite list_lookup_total_alter_ne by (intros ->; done). done. }
  assert (∃ m5, (match next with Some _ => idestart next | None => mret tt end) fuel m4 = Ret tt m5 ∧ bus_step m4 m5) as (m5 & E5 & [K5 V5]).
  { destruct q as [|c q]; cbn in Hc; [rewrite Hc; by exists m4|]. destruct Hc as (-> & _). apply idestart_run. destruct (iq_pending _ _ I4 c ltac:(set_solver)) as [_ [_ Hbl4]]. done. }
  rewrite E5. mred. erewrite kern_ret by (apply (release_run _ _ (k_ctx (m_k m)) i); [done|done|by rewrite K5]).
  exists data. eexists. split; [done|]. cbn [m_k m_drv]. rewrite K5, V5. split; [|done]. destruct I4 as [J1 J2 J3]. split; [done|done|exact J3].
Qed.

(** * Requests *)

(** Process [p] on CPU [i] holds buffer [b] and nothing else, and asks for a
    transfer. *)
Record can_request m (i p b : nat) : Prop := mkReq {
  rq_thread : thread (k_ctx (m_k m)) i p;
  rq_ncli : c_ncli (x_cpus (k_ctx (m_k m)) !!! i) = 0;
  rq_ide : lock_free (k_ctx (m_k m)) LkIde;
  rq_pt : lock_free (k_ctx (m_k m)) LkPtable;
  rq_buf : lock_free (k_ctx (m_k m)) (LkBuf b);
  rq_held : slk_locked (sl_of (m_k m) (SlBuf b)) ≠ 0 ∧ slk_pid (sl_of (m_k m) (SlBuf b)) = p_pid (pt_proc (k_pt (m_k m)) !!! p);
  rq_pending : pending (k_bc (m_k m) !!! b);
  rq_disk : b_dev (k_bc (m_k m) !!! b) = 0 ∨ dr_havedisk1 (m_drv m) ≠ 0;
  rq_bc : (b < length (k_bc (m_k m)))%nat;
  rq_qnext : (b < length (dr_qnext (m_drv m)))%nat;
  rq_proc : (p < length (pt_proc (k_pt (m_k m))))%nat
}.

(** [iderw] puts the request at the end of the queue, starts the disk if the
    queue was empty, and sleeps; switched back to when the request is done, it
    returns without the lock. *)
Lemma iderw_run m i p b q :
  can_request m i p b → ide_inv m q → b ∉ q → (S (length q) < fuel)%nat →
  ∃ m' k, iderw b fuel m = Swtch m' k ∧ ide_inv m' (q ++ [b]) ∧
    m_k m' = set_pt (pt_upd (alter (asleep (ChBuf b)) p) (k_pt (m_k m))) (set_ctx (x_acq i LkPtable (k_ctx (m_k m))) (m_k m)) ∧
    length (dr_qnext (m_drv m')) = length (dr_qnext (m_drv m)) ∧
    ∀ m2 x2 j, in_sched (m_k m2) x2 j LkIde → hw_if (x_hw x2) = hw_if (x_hw (k_ctx (m_k m))) → ide_done (k_bc (m_k m2) !!! b) = true →
      ∃ s3, k m2 = Ret tt (mkBoard s3 (m_drv m2) (m_bus m2)) ∧ k_ctx s3 = x2 ∧ k_bc s3 = k_bc (m_k m2).
Proof.
  intros [Ht H0 Hl Hp Hlb Hh Hpd Hd Hbc Hqn Hpr] [Hc Hn Hpend] Hbq Hf. pose proof (thread_ok _ _ _ Ht) as Hok.
  unfold iderw. rewrite (run_bind _ _ _ _ _ _ (kern_ret _ _ _ _ _ (holdingsleep_run fuel (m_k m) i p (SlBuf b) Ht Hlb))).
  destruct Hh as [Hh1 Hh2]. rewrite (proj2 (Z.eqb_neq _ _) Hh1), Hh2, Z.eqb_refl. cbn [negb andb]. mred. rewrite get_buf_board. cbn [obind m_k].
  destruct Hpd as [Hpd1 Hpd2]. rewrite Hpd1. unfold getd. mred. cbn [m_drv].
  assert ((negb (b_dev (k_bc (m_k m) !!! b) =? 0) && (dr_havedisk1 (m_drv m) =? 0))%bool = false) as ->.
  { destruct Hd as [->|Hd]; [done|]. rewrite (proj2 (Z.eqb_neq _ _) Hd). apply andb_false_r. }
  erewrite run_bind by (apply kern_ret, (acquire_run fuel (m_k m) i LkIde Hok Hl)). unfold modd. mred. cbn [m_k m_drv m_bus].
  destruct (append_chain (m_drv m) q b Hc Hn Hbq Hqn) as (C1 & C2 & Hq2 & Hl2).
  unfold ide_last, whileM. erewrite last_run; [|exact C1|lia]. mred. cbn [m_k m_drv m_bus]. set (r2 := wr_pp _ _ _) in *.
  set (x := k_ctx (m_k m)) in *. set (m0 := mkBoard _ r2 _).
  assert (∃ m1, whenM (bool_decide (dr_idequeue r2 = Some b)) (idestart (Some b)) fuel m0 = Ret tt m1 ∧ bus_step m0 m1) as (m1 & E1 & [K1 V1]).
  { destruct (bool_decide _); [by apply idestart_run|by exists m0]. }
  rewrite E1. mred. assert (∃ n, fuel = S (S n)) as [n Ef] by (exists (fuel - 2)%nat; lia).
  replace (loop_fuel fuel (ide_sleep (D := D) b)) with (loop_fuel (S (S n)) (ide_sleep (D := D) b)) by (by rewrite Ef). rewrite loop_fuel_S. unfold ide_sleep at 2. mred. rewrite get_buf_board, K1. cbn [obind m0 m_k].
  change (k_bc (set_ctx _ (m_k m))) with (k_bc (m_k m)). rewrite Hpd1. mred.
  destruct (sleep_run fuel (m_k m1) x i p (ChBuf b) LkIde) as (k0 & E0 & Hk0); [done|done|done|done|done|by rewrite K1|by rewrite K1|].
  rewrite (kern_swtch _ _ _ _ _ E0), K1, V1. cbn [obind m0 m_k m_drv]. eexists _, _. split; [reflexivity|].
  assert (Hpend' : ∀ c, c ∈ q ++ [b] → (c < length (k_bc (m_k m)))%nat ∧ pending (k_bc (m_k m) !!! c)).
  { intros c [Hcq| ->%list_elem_of_singleton]%elem_of_app; [by apply Hpend|]. done. }
  split; [split; [exact C2| |exact Hpend']|]. { apply NoDup_app. split; [done|]. split; [|apply NoDup_singleton]. intros c Hcq ->%list_elem_of_singleton. done. }
  split; [done|]. split; [exact Hl2|]. intros m2 x2 j (Hok2 & H02 & Hl2' & Hp2 & Hs2) Hif Hdone. cbn [m_k].
  rewrite (Hk0 (m_k m2) x2 j) by done. cbn [olift obind]. mred. rewrite loop_fuel_S. unfold ide_sleep at 2. mred. rewrite get_buf_board. cbn [obind m_k m_drv m_bus].
  change (k_bc (set_ctx _ _)) with (k_bc (m_k m2)). rewrite Hdone. mred.
  erewrite kern_ret by (cbn [m_k]; apply (release_run _ _ x2 j); done). eexists. split; [reflexivity|]. done.
Qed.
End run.

(** * Every request is completed *)

Inductive label := Intr | Request (b : nat) | Other.

Section live.
Context {D : Type} `{HA : Ata D} (fuel nbuf : nat).
Implicit Types (m : board D) (q : list nat) (b : nat).

(** What happens to the driver: an interrupt of the disk, a request of a process
    that goes to sleep for it, or anything else, which leaves the queue and the
    buffers in it alone. A process requests only a buffer it has locked, which
    is then not already in the queue. *)
Inductive ide_step : label → board D → board D → Prop :=
| step_intr m m' i : can_handle m i → ideintr fuel m = Ret tt m' → ide_step Intr m m'
| step_request m m' i p b k :
    can_request m i p b → (∀ q, ide_inv m q → b ∉ q) → iderw b fuel m = Swtch m' k → ide_step (Request b) m m'
| step_other m m' :
    m_drv m' = m_drv m → length (k_bc (m_k m')) = length (k_bc (m_k m)) →
    (∀ q b, ide_inv m q → b ∈ q → k_bc (m_k m') !!! b = k_bc (m_k m) !!! b) → ide_step Other m m'.

(** Those asleep for [b] are runnable. *)
Definition woken m m' b : Prop :=
  ∀ p, p_state (pt_proc (k_pt (m_k m)) !!! p) = SLEEPING → p_chan (pt_proc (k_pt (m_k m)) !!! p) = Some (ChBuf b) →
    (p < length (pt_proc (k_pt (m_k m))))%nat → p_state (pt_proc (k_pt (m_k m')) !!! p) = RUNNABLE.

Definition next_queue (l : label) q : list nat :=
  match l with Intr => tail q | Request b => q ++ [b] | Other => q end.

Hypothesis Hfuel : (ata_bound < fuel)%nat.
Hypothesis Hbuf : (S nbuf < fuel)%nat.

Lemma queue_short m q : ide_inv m q → (length q ≤ length (k_bc (m_k m)))%nat.
Proof.
  intros [_ Hn Hp]. rewrite <- (length_seq (length (k_bc (m_k m))) 0). apply submseteq_length, NoDup_submseteq; [done|].
  intros b Hb. destruct (Hp b Hb). apply elem_of_seq. lia.
Qed.

Lemma ide_step_inv l m m' q :
  ide_step l m m' → ide_inv m q → length (k_bc (m_k m)) = nbuf →
  ide_inv m' (next_queue l q) ∧ length (k_bc (m_k m')) = nbuf ∧
  (l = Intr → ∀ b, head q = Some b → ide_done (k_bc (m_k m') !!! b) = true ∧ woken m m' b).
Proof.
  intros Hs I Hn. destruct Hs as [m m' i Hc E|m m' i p b k Hr Hb E|m m' Hd Hl Hu]; cbn [next_queue].
  - destruct q as [|b q].
    { rewrite (ideintr_idle _ _ i Hc) in E by apply I. injection E as <-. done. }
    destruct (ideintr_run fuel Hfuel m i b q Hc I) as (data & m1 & E1 & I1 & _ & _ & Hbc & Hpt). rewrite E in E1. injection E1 as <-.
    destruct (iq_pending _ _ I b ltac:(set_solver)) as [Hlb _]. cbn [tail]. split; [done|]. split; [by rewrite Hbc, length_alter|].
    intros _ b' [= <-]. split; [rewrite Hbc, list_lookup_total_alter, decide_True by done; apply finished_done|].
    intros p Hsl Hch Hp. rewrite Hpt. cbn. destruct (lookup_lt_is_Some_2 _ _ Hp) as [pr Hpr]. rewrite (list_lookup_total_correct _ _ _ Hpr) in Hsl, Hch.
    erewrite list_lookup_total_correct; [|rewrite list_lookup_fmap, Hpr; reflexivity]. unfold wake_proc. by rewrite bool_decide_true by done.
  - pose proof (queue_short _ _ I). destruct (iderw_run fuel Hfuel m i p b q Hr I (Hb q I) ltac:(lia)) as (m1 & k1 & E1 & I1 & K1 & _). rewrite E in E1. injection E1 as <- _.
    split; [done|]. split; [by rewrite K1|done].
  - split; [|split; [lia|done]]. destruct I as [I1 I2 I3]. split; [by rewrite Hd|done|]. intros b Hb. rewrite Hl, (Hu q b) by done. by apply I3.
Qed.

Context (tr : nat → board D) (lb : nat → label).
Hypothesis Hrun : ∀ n, ide_step (lb n) (tr n) (tr (S n)).
Hypothesis Hfair : ∀ n, ∃ n', (n ≤ n')%nat ∧ lb n' = Intr.

(** The invariant along the run. *)
Lemma run_inv q0 n : ide_inv (tr 0) q0 → length (k_bc (m_k (tr 0))) = nbuf → ∃ q, ide_inv (tr n) q ∧ length (k_bc (m_k (tr n))) = nbuf.
Proof.
  intros I Hn. induction n as [|n (q & Iq & Hq)]; [by exists q0|]. destruct (ide_step_inv _ _ _ q (Hrun n) Iq Hq) as (I' & Hn' & _). by eexists.
Qed.

(** Until the next interrupt the queue only grows. *)
Lemma next_intr d n q :
  ide_inv (tr n) q → length (k_bc (m_k (tr n))) = nbuf → lb (n + d) = Intr →
  ∃ n1 q1, (n ≤ n1)%nat ∧ lb n1 = Intr ∧ ide_inv (tr n1) (q ++ q1) ∧ length (k_bc (m_k (tr n1))) = nbuf.
Proof.
  revert n q. induction d as [|d IH]; intros n q I Hn Hd.
  - rewrite Nat.add_0_r in Hd. exists n, []. rewrite app_nil_r. done.
  - destruct (lb n) as [|b|] eqn:El; [exists n, []; by rewrite app_nil_r|..].
    all: destruct (ide_step_inv _ _ _ q (Hrun n) I Hn) as (I' & Hn' & _); rewrite El in I'; cbn in I'; replace (n + S d)%nat with (S n + d)%nat in Hd by lia.
    all: destruct (IH (S n) _ I' Hn' Hd) as (n1 & q1 & H1 & H2 & H3 & H4).
    + exists n1, ([b] ++ q1). rewrite <- app_assoc in H3. split_and!; (done || lia).
    + exists n1, q1. split_and!; (done || lia).
Qed.

Lemma served k n q b :
  ide_inv (tr n) q → length (k_bc (m_k (tr n))) = nbuf → q !! k = Some b →
  ∃ n', (n ≤ n')%nat ∧ lb n' = Intr ∧ ide_done (k_bc (m_k (tr (S n'))) !!! b) = true ∧ woken (tr n') (tr (S n')) b.
Proof.
  revert n q. induction k as [|k IH]; intros n q I Hn Hk; destruct (Hfair n) as (nf & Hnf & Hf).
  all: replace nf with (n + (nf - n))%nat in Hf by lia; destruct (next_intr _ n q I Hn Hf) as (n1 & q1 & H1 & H2 & H3 & H4).
  all: destruct (ide_step_inv _ _ _ _ (Hrun n1) H3 H4) as (I' & Hn' & Hd'); rewrite H2 in I'; cbn in I'; destruct q as [|c q]; [done|].
  - injection Hk as ->. destruct (Hd' H2 b eq_refl). by exists n1.
  - destruct (IH (S n1) _ I' Hn') as (n' & J1 & J2 & J3); [cbn; by rewrite lookup_app_l by (by eapply lookup_lt_Some)|]. exists n'. split; [lia|done].
Qed.

End live.
