(* ===== verification/Mp.v ===== *)
(** The processors and interrupt controllers of the machine, kernel/mp.c: the
    walk of the ACPI tables of include/xv6/mp.h.

    The tables are read in memory at their kernel addresses. [ncpu] is the
    length of [x_cpus]: the entries of [cpus] beyond it are still as the loader
    zeroed them. The address of [cpus], the linker's, is a parameter. *)

From stdpp Require Import base list gmap strings.
From Stdlib Require Import ZArith Lia.
From S2P Require Import Prelude Seg CString Bytes Sprintf Monad Kstate Spinlock Cons Kalloc Vm Bus.

Definition rd32 (m : mem) (a : Z) : Z := le_val (rd_bytes m a 4).

(** Offsets in struct rsdp_desc, sdt_header, rsdt, madt, madt_header, madt_lapic
    and madt_ioapic. *)
Definition rsdp_rsdt_addr : Z := 16.
Definition sdt_len : Z := 4.
Definition sdt_header_size : Z := 36.
Definition madt_lapic_addr : Z := 36.
Definition madt_size : Z := 44.

Definition sum (m : mem) (addr len : Z) : Z :=
  u8 (foldl (λ acc b, s32 (acc + b)) 0 (rd_bytes m addr (Z.to_nat (s32 len)))).

(** [memcmp(header->signature, "APIC", 4) == 0 && sum((uchar * )header, header->len) == 0]. *)
Definition is_madt (m : mem) (header : Z) : bool :=
  bool_decide (rd_bytes m header 4 = str "APIC") && (sum m header (rd32 m (header + sdt_len)) =? 0).

(** [rsdt->children[i]], as a kernel address. *)
Definition rsdt_child (m : mem) (rsdt i : Z) : Z := P2V (rd32 m (rsdt + sdt_header_size + 4 * i)).

Fixpoint find_madt_loop (m : mem) (rsdt : Z) (n : nat) (i : Z) : option Z :=
  match n with
  | O => None
  | S n =>
      let header := rsdt_child m rsdt i in
      if is_madt m header then Some header else find_madt_loop m rsdt n (i + 1)
  end.

Definition nr_other_sdts (m : mem) (rsdt : Z) : Z :=
  s32 (Z.shiftr (u64 (rd32 m (rsdt + sdt_len) - sdt_header_size)) 2).

Definition find_madt (m : mem) (rsdp_desc : Z) : option Z :=
  let rsdt := P2V (rd32 m (rsdp_desc + rsdp_rsdt_addr)) in
  find_madt_loop m rsdt (Z.to_nat (nr_other_sdts m rsdt)) 0.

(** [sizeof(struct cpu)]. *)
Definition cpu_size : Z := 200.

(** [cpus[ncpu].apicid = id; ncpu++]. *)
Definition new_cpu (cpus : Z) (n : nat) (id : Z) : cpu :=
  mkCpu (cpus + cpu_size * Z.of_nat n) id ts_zero (replicate NSEGS SEGDESC_NULL) 0 0 false None.
Definition add_cpu (cpus id : Z) : K unit :=
  modx (λ x, mkCtx (x_hw x) (x_cpus x ++ [new_cpu cpus (length (x_cpus x)) id]) (x_locks x)).

Definition set_lapic (v : Z) (r : drivers) : drivers := mkDrv v (dr_ioapic r) (dr_idequeue r) (dr_qnext r) (dr_havedisk1 r).
Definition set_ioapic (v : Z) (r : drivers) : drivers := mkDrv (dr_lapic r) v (dr_idequeue r) (dr_qnext r) (dr_havedisk1 r).

Section mp.
Context {D : Type} {HB : Bus D}.

(** The cases of the loop's switch. *)
Definition lapic_entry (cpus header : Z) : M (board D) unit :=
  m ← kern (getmem (λ m, m));
  n ← kern (getx (λ x, length (x_cpus x)));
  let flags := rd32 m (header + 4) in
  let id := rd m (header + 3) in
  if (Z.of_nat n <? NCPU) && negb (Z.land flags 1 =? 0) then
    kern (cprintf (str "CPU[%d]: APIC PID: %d APIC ID: %d FLAGS: 0x%x" ++ [10])
      [VInt (Z.of_nat n); VInt (rd m (header + 2)); VInt id; VLong flags]);;
    kern (add_cpu cpus id)
  else mret tt.

Definition ioapic_entry (header : Z) : M (board D) unit :=
  m ← kern (getmem (λ m, m));
  let addr := rd32 m (header + 4) in
  let gsi_base := rd32 m (header + 8) in
  kern (cprintf (str "IOAPIC: ID:%d GSI:%d at 0x%x") [VInt (rd m (header + 2)); VInt gsi_base; VLong addr]);;
  if negb (gsi_base =? 0) then kern (cprintf (str " - ignored" ++ [10]) [])
  else
    kern (cprintf [10] []);;
    modd (set_ioapic (P2V addr)).

(** One round; the next header is [header->len] bytes on. *)
Definition madt_round (cpus madt_end header : Z) : M (board D) (Z + unit) :=
  if negb (header <? madt_end) then mret (inr tt) else
  m ← kern (getmem (λ m, m));
  let type := rd m header in
  (if type =? 0 then lapic_entry cpus header
   else if type =? 1 then ioapic_entry header
   else mret tt);;
  mret (inl (u64 (header + rd m (header + 1)))).

Definition mpinit (cpus rsdp_desc : Z) : M (board D) unit :=
  m ← kern (getmem (λ m, m));
  match find_madt m rsdp_desc with
  | None => panic "MADT not found"
  | Some madt =>
      let lapic_addr := rd32 m (madt + madt_lapic_addr) in
      modd (set_lapic (P2V lapic_addr));;
      kern (cprintf (str "LAPIC: found at 0x%x" ++ [10]) [VLong lapic_addr]);;
      let madt_end := u64 (madt + rd32 m (madt + sdt_len)) in
      whileM (madt_round cpus madt_end) (madt + madt_size);;
      kern (kmap_add 0xfec00000 0x100000000 PTE_W 0)
  end.
End mp.

(** * What it finds *)

(** The entries of the table, and their bytes. *)
Inductive madt_entry := ELapic (pid id flags : Z) | EIoapic (id addr gsi_base : Z) | EOther (type : Z) (body : list Z).

Definition entry_bytes (e : madt_entry) : list Z :=
  match e with
  | ELapic pid id flags => [0; 8; pid; id] ++ le_bytes 4 flags
  | EIoapic id addr gsi_base => [1; 12; id; 0] ++ le_bytes 4 addr ++ le_bytes 4 gsi_base
  | EOther type body => [type; 2 + Z.of_nat (length body)] ++ body
  end.

Definition entry_ok (e : madt_entry) : Prop :=
  match e with
  | ELapic pid id flags => 0 ≤ flags < 2 ^ 32
  | EIoapic id addr gsi_base => 0 ≤ addr < 2 ^ 32 ∧ 0 ≤ gsi_base < 2 ^ 32
  | EOther type body => type ≠ 0 ∧ type ≠ 1
  end.

Definition table_bytes (es : list madt_entry) : list Z := concat (entry_bytes <$> es).

(** The processors the table says can be enabled, and the controller that
    serves the first interrupts. *)
Definition enabled (es : list madt_entry) : list Z :=
  omap (λ e, match e with ELapic _ id flags => if Z.odd flags then Some id else None | _ => None end) es.
Definition first_ioapic (es : list madt_entry) (d : Z) : Z :=
  foldl (λ d e, match e with EIoapic _ addr 0 => P2V addr | _ => d end) d es.

Definition cpus_for (cpus : Z) (n : nat) (ids : list Z) : list cpu := imap (λ k id, new_cpu cpus (n + k) id) ids.

Lemma rd_bytes_app m a n1 n2 : rd_bytes m a (n1 + n2) = rd_bytes m a n1 ++ rd_bytes m (a + Z.of_nat n1) n2.
Proof.
  revert a. induction n1 as [|n1 IH]; intros a; simpl; [by rewrite Z.add_0_r|]. rewrite IH. do 3 f_equal. lia.
Qed.

Lemma rd_bytes_prefix m a l1 l2 :
  rd_bytes m a (length (l1 ++ l2)) = l1 ++ l2 → rd_bytes m a (length l1) = l1 ∧ rd_bytes m (a + Z.of_nat (length l1)) (length l2) = l2.
Proof. rewrite length_app, rd_bytes_app. intros E. apply app_inj_1 in E; [done|]. by rewrite length_rd_bytes. Qed.

Lemma rd32_at m a v : 0 ≤ v < 2 ^ 32 → rd_bytes m a 4 = le_bytes 4 v → rd32 m a = v.
Proof. intros Hv E. unfold rd32. rewrite E, le_val_bytes. by apply Z.mod_small. Qed.

Lemma odd_land v : negb (Z.land v 1 =? 0) = Z.odd v.
Proof.
  change 1 with (Z.ones 1). rewrite Z.land_ones by lia. change (2 ^ 1) with 2. rewrite Zmod_odd. by destruct (Z.odd v).
Qed.

(** Memory where an entry lies. *)
Lemma entry_head m a e :
  rd_bytes m a (length (entry_bytes e)) = entry_bytes e →
  rd m a = match e with ELapic _ _ _ => 0 | EIoapic _ _ _ => 1 | EOther ty _ => ty end ∧ rd m (a + 1) = Z.of_nat (length (entry_bytes e)).
Proof.
  destruct e as [pid id flags|id addr gsi|ty body]; intros E.
  - cbn in E. by injection E as -> -> _.
  - cbn in E. by injection E as -> -> _.
  - cbn [entry_bytes app length rd_bytes] in *. injection E as -> -> _. split; [done|]. lia.
Qed.

Lemma lapic_fields m a pid id flags :
  0 ≤ flags < 2 ^ 32 → rd_bytes m a (length (entry_bytes (ELapic pid id flags))) = entry_bytes (ELapic pid id flags) →
  rd m (a + 3) = id ∧ rd32 m (a + 4) = flags.
Proof.
  intros Hf E. cbn [entry_bytes] in E. destruct (rd_bytes_prefix _ _ _ _ E) as [E1 E2]. cbn in E1. split.
  - injection E1 as _ _ _ E3. by rewrite <- E3, <- !Z.add_assoc.
  - by apply rd32_at.
Qed.

Lemma ioapic_fields m a id addr gsi :
  0 ≤ addr < 2 ^ 32 ∧ 0 ≤ gsi < 2 ^ 32 → rd_bytes m a (length (entry_bytes (EIoapic id addr gsi))) = entry_bytes (EIoapic id addr gsi) →
  rd32 m (a + 4) = addr ∧ rd32 m (a + 8) = gsi.
Proof.
  intros [Ha Hg] E. cbn [entry_bytes] in E. destruct (rd_bytes_prefix _ _ _ _ E) as [_ E2]. destruct (rd_bytes_prefix _ _ _ _ E2) as [E3 E4].
  split; [by apply rd32_at|]. rewrite <- Z.add_assoc in E4. by apply rd32_at.
Qed.

Section spec.
Context {D : Type} {HB : Bus D}.
Implicit Types (b : board D) (fuel : nat).

(** Text on the console. *)
Definition bprint (cs : list Z) b : board D := mkBoard (printed cs (m_k b)) (m_drv b) (m_bus b).

(** Before [consoleinit] the console's lock is not used. *)
Definition early b : Prop := cn_locking (k_cons (m_k b)) = 0 ∧ cn_panicked (k_cons (m_k b)) = 0.

Lemma cprintf_board fmt args n fuel b :
  fmt_bound (S (length fmt)) fmt args = Some n → (n < 512)%nat → early b → ∃ cs, kern (cprintf fmt args) fuel b = Ret tt (bprint cs b).
Proof.
  intros Hn Hlt [Hl Hp]. destruct (cprintf_run fmt args n fuel (m_k b) Hn Hlt) as [cs E]; [by split; [|left]|].
  exists cs. by apply kern_ret.
Qed.

(** Runs the next [cprintf]. *)
Ltac print_next :=
  match goal with |- context [(kern (cprintf ?fmt ?args) ≫= _) ?fuel ?b] =>
    let cs := fresh "cs" in let E := fresh "E" in
    edestruct (cprintf_board fmt args _ fuel b eq_refl) as [cs E]; [cbn; lia|done|rewrite (run_bind _ _ _ _ _ _ E); clear E]
  end.

Lemma bprint_bprint x y b : bprint y (bprint x b) = bprint (x ++ y) b.
Proof. unfold bprint. simpl. by rewrite printed_printed. Qed.

(** What one entry changes, printing apart. *)
Definition entry_step (cpus : Z) b (e : madt_entry) : board D :=
  let x := k_ctx (m_k b) in let n := length (x_cpus x) in
  match e with
  | ELapic _ id flags =>
      if (Z.of_nat n <? NCPU) && Z.odd flags
      then mkBoard (set_ctx (mkCtx (x_hw x) (x_cpus x ++ [new_cpu cpus n id]) (x_locks x)) (m_k b)) (m_drv b) (m_bus b) else b
  | EIoapic _ addr 0 => mkBoard (m_k b) (set_ioapic (P2V addr) (m_drv b)) (m_bus b)
  | _ => b
  end.

Lemma entry_step_print cpus b e cs : entry_step cpus (bprint cs b) e = bprint cs (entry_step cpus b e).
Proof. destruct e as [pid id flags|id addr [| |]|]; try done. unfold entry_step. cbn [m_k bprint printed set_cons k_ctx]. by destruct (_ && _). Qed.

Lemma entry_step_mem cpus b e : k_mem (m_k (entry_step cpus b e)) = k_mem (m_k b) ∧ (early b → early (entry_step cpus b e)) ∧ m_bus (entry_step cpus b e) = m_bus b.
Proof. destruct e as [pid id flags|id addr [| |]|]; try done. unfold entry_step. by destruct (_ && _). Qed.

Lemma lapic_entry_run cpus a pid id flags fuel b :
  rd (k_mem (m_k b)) (a + 3) = id → rd32 (k_mem (m_k b)) (a + 4) = flags → early b →
  ∃ cs, lapic_entry cpus a fuel b = Ret tt (bprint cs (entry_step cpus b (ELapic pid id flags))).
Proof.
  intros Hid Hf He. unfold lapic_entry. rewrite (run_bind _ _ _ _ (k_mem (m_k b)) b) by (by destruct b).
  rewrite (run_bind _ _ _ _ (length (x_cpus (k_ctx (m_k b)))) b) by (by destruct b). rewrite Hid, Hf, odd_land. unfold entry_step.
  destruct (_ && _).
  - print_next. by exists cs.
  - exists []. unfold bprint, printed, cons_put. rewrite app_nil_r. by destruct b as [[???????????? [] ?] ? ?].
Qed.

Lemma ioapic_entry_run cpus a id addr gsi fuel b :
  rd32 (k_mem (m_k b)) (a + 4) = addr → rd32 (k_mem (m_k b)) (a + 8) = gsi → early b →
  ∃ cs, ioapic_entry a fuel b = Ret tt (bprint cs (entry_step cpus b (EIoapic id addr gsi))).
Proof.
  intros Ha Hg He. unfold ioapic_entry. rewrite (run_bind _ _ _ _ (k_mem (m_k b)) b) by (by destruct b). rewrite Ha, Hg.
  print_next. unfold entry_step.
  destruct gsi as [|g|g]; cbn [Z.eqb negb].
  - print_next. rewrite bprint_bprint. by eexists.
  - destruct (cprintf_board (str " - ignored" ++ [10]) [] _ fuel (bprint cs b) eq_refl) as [cs' ->]; [cbn; lia|done|]. rewrite bprint_bprint. by eexists.
  - destruct (cprintf_board (str " - ignored" ++ [10]) [] _ fuel (bprint cs b) eq_refl) as [cs' ->]; [cbn; lia|done|]. rewrite bprint_bprint. by eexists.
Qed.

Lemma madt_round_run cpus a madt_end e fuel b :
  entry_ok e → rd_bytes (k_mem (m_k b)) a (length (entry_bytes e)) = entry_bytes e → 0 ≤ a → a + Z.of_nat (length (entry_bytes e)) ≤ madt_end → madt_end < 2 ^ 64 → early b →
  ∃ cs, madt_round cpus madt_end a fuel b = Ret (inl (a + Z.of_nat (length (entry_bytes e)))) (bprint cs (entry_step cpus b e)).
Proof.
  intros Hok Hb Ha Hend Hw He. destruct (entry_head _ _ _ Hb) as [Hty Hlen].
  assert (0 < length (entry_bytes e))%nat by (destruct e; simpl; lia).
  unfold madt_round. rewrite (proj2 (Z.ltb_lt _ _)) by lia. cbn [negb].
  rewrite (run_bind _ _ _ _ (k_mem (m_k b)) b) by (by destruct b). rewrite Hty, Hlen, u64_small by lia.
  enough (∃ cs, (match e with ELapic _ _ _ => lapic_entry cpus a | EIoapic _ _ _ => ioapic_entry a | _ => mret tt end) fuel b = Ret tt (bprint cs (entry_step cpus b e))) as [cs E].
  { exists cs. erewrite run_bind; [reflexivity|]. destruct e as [| |ty body]; [exact E..|]. destruct Hok as [H0 H1].
    by rewrite (proj2 (Z.eqb_neq _ _) H0), (proj2 (Z.eqb_neq _ _) H1). }
  destruct e as [pid id flags|id addr gsi|ty body].
  - destruct (lapic_fields _ _ _ _ _ Hok Hb). by apply lapic_entry_run.
  - destruct (ioapic_fields _ _ _ _ _ Hok Hb). by apply ioapic_entry_run.
  - exists []. unfold bprint, printed, cons_put. rewrite app_nil_r. by destruct b as [[???????????? [] ?] ? ?].
Qed.

Lemma bprint_nil b : bprint [] b = b.
Proof. unfold bprint, printed, cons_put. rewrite app_nil_r. by destruct b as [[???????????? [] ?] ? ?]. Qed.

Lemma madt_loop_run cpus madt_end es a n fuel b :
  Forall entry_ok es → rd_bytes (k_mem (m_k b)) a (length (table_bytes es)) = table_bytes es → 0 ≤ a → a + Z.of_nat (length (table_bytes es)) = madt_end →
  madt_end < 2 ^ 64 → early b → (length es < n)%nat →
  ∃ cs, loop_fuel n (madt_round cpus madt_end) a fuel b = Ret tt (bprint cs (foldl (entry_step cpus) b es)).
Proof.
  revert a n b. induction es as [|e es IH]; intros a [|n] b Hok Hb Ha Hend Hw He Hn; [simpl in Hn; lia..| |simpl in Hn; lia|].
  - exists []. rewrite bprint_nil, loop_fuel_S. unfold madt_round. rewrite (proj2 (Z.ltb_ge _ _)) by (simpl in Hend; lia). done.
  - apply Forall_cons in Hok as [Hok1 Hok]. unfold table_bytes in *. rewrite fmap_cons in *. cbn [concat] in *. fold (table_bytes es) in *.
    destruct (rd_bytes_prefix _ _ _ _ Hb) as [Hb1 Hb2]. rewrite length_app in Hend.
    destruct (madt_round_run cpus a madt_end e fuel b) as [cs E]; [done|done|done|lia|done|done|].
    rewrite loop_fuel_S, E. cbn [obind]. destruct (entry_step_mem cpus b e) as (Em & Ee & _).
    destruct (IH (a + Z.of_nat (length (entry_bytes e))) n (bprint cs (entry_step cpus b e))) as [cs' E']; [done|cbn; by rewrite Em|lia|lia|done|by apply Ee|simpl in Hn; lia|].
    exists (cs ++ cs'). rewrite E'. cbn [foldl]. f_equal. rewrite <- bprint_bprint. f_equal. clear. generalize (entry_step cpus b e) as c.
    induction es as [|e' es IH]; intros c; [done|]. cbn [foldl]. by rewrite entry_step_print, IH.
Qed.

(** The effect of a table in closed form. *)
Definition with_cpus (l : list cpu) (x : cpuctx) : cpuctx := mkCtx (x_hw x) l (x_locks x).
Definition found (cpus : Z) (es : list madt_entry) b : board D :=
  let x := k_ctx (m_k b) in let n := length (x_cpus x) in
  mkBoard (set_ctx (with_cpus (x_cpus x ++ cpus_for cpus n (take (Z.to_nat NCPU - n) (enabled es))) x) (m_k b))
    (set_ioapic (first_ioapic es (dr_ioapic (m_drv b))) (m_drv b)) (m_bus b).

Lemma found_cons cpus e es b : found cpus es (entry_step cpus b e) = found cpus (e :: es) b.
Proof.
  destruct e as [pid id flags|id addr [| |]|]; try done.
  unfold entry_step, found. set (x := k_ctx (m_k b)). set (n := length (x_cpus x)). change (enabled (ELapic pid id flags :: es)) with (omap (M := list) (λ e, match e with ELapic _ id flags => if Z.odd flags then Some id else None | _ => None end) (ELapic pid id flags :: es)).
  cbn [omap list_omap]. fold (enabled es). destruct (Z.odd flags); rewrite ?andb_true_r, ?andb_false_r; [|done].
  destruct (Z.ltb_spec (Z.of_nat n) NCPU) as [Hn|Hn].
  - cbn [m_k m_drv m_bus set_ctx k_ctx x_cpus]. rewrite length_app. cbn [length]. fold n.
    replace (Z.to_nat NCPU - n)%nat with (S (Z.to_nat NCPU - (n + 1))) by lia. cbn [take]. unfold cpus_for. cbn [imap]. f_equal.
    unfold with_cpus. cbn [x_hw x_locks]. rewrite <- app_assoc. cbn [app]. rewrite Nat.add_0_r. unfold set_ctx. cbn. do 4 f_equal.
    apply imap_ext. intros k y _. simpl. f_equal. lia.
  - cbn [m_k]. fold x. fold n. replace (Z.to_nat NCPU - n)%nat with 0%nat by lia. by rewrite !take_0.
Qed.

Lemma found_nil cpus b : found cpus [] b = b.
Proof.
  unfold found, enabled, cpus_for, with_cpus. cbn. rewrite take_nil. simpl. rewrite app_nil_r.
  by destruct b as [[[]] [] ?].
Qed.

Lemma foldl_found cpus es b : foldl (entry_step cpus) b es = found cpus es b.
Proof. revert b. induction es as [|e es IH]; intros b; cbn [foldl]; [by rewrite found_nil|]. by rewrite IH, found_cons. Qed.

Lemma mpinit_run cpus rsdp fuel b es madt :
  let m := k_mem (m_k b) in let km := k_km (m_k b) in
  find_madt m rsdp = Some madt → rd_bytes m (madt + madt_size) (length (table_bytes es)) = table_bytes es →
  rd32 m (madt + sdt_len) = madt_size + Z.of_nat (length (table_bytes es)) → 0 ≤ madt < 2 ^ 64 - madt_size - Z.of_nat (length (table_bytes es)) →
  Forall entry_ok es → early b → kmap_cur km < Z.of_nat KMAP_MAX_SIZE → (length es < fuel)%nat →
  ∃ cs, mpinit cpus rsdp fuel b = Ret tt (bprint cs (found cpus es
    (mkBoard (set_km (km_set_kmap (Z.to_nat (kmap_cur km)) (mkKmap 0xfec00000 0x100000000 PTE_W 0) km) (m_k b))
       (set_lapic (P2V (rd32 m (madt + madt_lapic_addr))) (m_drv b)) (m_bus b)))).
Proof.
  intros m km Hf Hb Hlen Hm Hok He Hk Hfuel. unfold mpinit. rewrite (run_bind _ _ _ _ m b) by (by destruct b). rewrite Hf.
  set (b1 := mkBoard (m_k b) (set_lapic (P2V (rd32 m (madt + madt_lapic_addr))) (m_drv b)) (m_bus b)).
  rewrite (run_bind _ _ _ _ tt b1) by done. print_next. rewrite Hlen, u64_small by (unfold madt_size in *; lia).
  destruct (madt_loop_run cpus (madt + (madt_size + Z.of_nat (length (table_bytes es)))) es (madt + madt_size) fuel fuel (bprint cs b1)) as [cs' E];
    [done|exact Hb|unfold madt_size; lia|lia|unfold madt_size in *; lia|exact He|done|].
  rewrite foldl_found in E. unfold whileM. erewrite run_bind by exact E.
  erewrite kern_ret by (by apply kmap_add_run). exists (cs ++ cs'). rewrite <- bprint_bprint. done.
Qed.

(** On a machine whose tables are in order [mpinit] ends, whatever their
    entries are: the processors the table says can be enabled are entered in
    [cpus], in the table's order and at most [NCPU] in all, [lapic] is the
    address the table gives and [ioapic] that of the last controller for
    interrupt 0; without a table with a good checksum it panics. *)
Theorem mpinit_spec cpus rsdp fuel b es :
  let m := k_mem (m_k b) in let km := k_km (m_k b) in let x := k_ctx (m_k b) in
  (∀ madt, find_madt m rsdp = Some madt → rd_bytes m (madt + madt_size) (length (table_bytes es)) = table_bytes es ∧
     rd32 m (madt + sdt_len) = madt_size + Z.of_nat (length (table_bytes es)) ∧ 0 ≤ madt < 2 ^ 64 - madt_size - Z.of_nat (length (table_bytes es))) →
  Forall entry_ok es → early b → kmap_cur km < Z.of_nat KMAP_MAX_SIZE → (length es < fuel)%nat →
  match find_madt m rsdp with
  | None => mpinit cpus rsdp fuel b = Panic "MADT not found" b
  | Some madt => ∃ b', mpinit cpus rsdp fuel b = Ret tt b' ∧
      x_cpus (k_ctx (m_k b')) = x_cpus x ++ cpus_for cpus (length (x_cpus x)) (take (Z.to_nat NCPU - length (x_cpus x)) (enabled es)) ∧
      dr_lapic (m_drv b') = P2V (rd32 m (madt + madt_lapic_addr)) ∧ dr_ioapic (m_drv b') = first_ioapic es (dr_ioapic (m_drv b)) ∧
      k_km (m_k b') = km_set_kmap (Z.to_nat (kmap_cur km)) (mkKmap 0xfec00000 0x100000000 PTE_W 0) km ∧ k_mem (m_k b') = m ∧ m_bus b' = m_bus b
  end.
Proof.
  intros m km x Ht Hok He Hk Hf. destruct (find_madt m rsdp) as [madt|] eqn:Ef.
  - destruct (Ht madt eq_refl) as (Hb & Hlen & Hm). destruct (mpinit_run cpus rsdp fuel b es madt) as [cs E]; [done..|].
    eexists. split; [exact E|]. done.
  - unfold mpinit. rewrite (run_bind _ _ _ _ m b) by (by destruct b). by rewrite Ef.
Qed.
End spec.
