(* ===== verification/Mb2.v ===== *)
(** What the boot loader tells the kernel, kernel/mb2.c: the walk of the
    multiboot information, and the table of memory ranges it fills.

    The information lies in low memory, which is mapped twice when [mb2_init]
    runs: a low address [a] is read where the kernel's address [P2V a] is. The
    symbols of the linker are parameters. The processor halts with interrupts
    off: [hlt] is the outcome [Spin]. *)

From stdpp Require Import base list gmap strings.
From Stdlib Require Import ZArith Lia.
From S2P Require Import Prelude CString Bytes Sprintf Monad Kstate Spinlock Cons Kalloc Vm Fb Bus Mp.

Definition MULTIBOOT_TAG_TYPE_MMAP : Z := 6.
Definition MULTIBOOT_TAG_TYPE_FRAMEBUFFER : Z := 8.
Definition MULTIBOOT_TAG_TYPE_ACPI_OLD : Z := 14.
Definition MULTIBOOT_TAG_TYPE_ACPI_NEW : Z := 15.

Definition MULTIBOOT_MEMORY_AVAILABLE : Z := 1.
Definition MULTIBOOT_MEMORY_RESERVED : Z := 2.
Definition MULTIBOOT_MEMORY_ACPI_RECLAIMABLE : Z := 3.
Definition MULTIBOOT_MEMORY_NVS : Z := 4.
Definition MULTIBOOT_MEMORY_BADRAM : Z := 5.

Definition KERNOFFSET : Z := 0x100000.

(** The linker's symbols. *)
Record ldsyms := mkSymbols { ld_etext : Z; ld_data : Z; ld_end : Z; ld_cpus : Z }.

(** Reads at low addresses. *)
Definition low8 (m : mem) (a : Z) : Z := rd m (P2V a).
Definition low32 (m : mem) (a : Z) : Z := rd32 m (P2V a).
Definition low64 (m : mem) (a : Z) : Z := rd64 m (P2V a).

(** [~7U] is a 32-bit number: the upper half of the address is dropped. *)
Definition ALIGNUP8 (a : Z) : Z := Z.land (u64 (a + 7)) 0xfffffff8.

(** The tags of interest, by their addresses. *)
Record tags := mkTags { fb_tag : option Z; mmap_tag : option Z; new_acpi_tag : option Z; old_acpi_tag : option Z }.

Definition note_tag (type p : Z) (t : tags) : tags :=
  if type =? MULTIBOOT_TAG_TYPE_FRAMEBUFFER then mkTags (Some p) (mmap_tag t) (new_acpi_tag t) (old_acpi_tag t)
  else if type =? MULTIBOOT_TAG_TYPE_MMAP then mkTags (fb_tag t) (Some p) (new_acpi_tag t) (old_acpi_tag t)
  else if type =? MULTIBOOT_TAG_TYPE_ACPI_NEW then mkTags (fb_tag t) (mmap_tag t) (Some p) (old_acpi_tag t)
  else if type =? MULTIBOOT_TAG_TYPE_ACPI_OLD then mkTags (fb_tag t) (mmap_tag t) (new_acpi_tag t) (Some p)
  else t.

Definition tag_round (info_end : Z) (st : Z * tags) : K ((Z * tags) + tags) :=
  let '(p, t) := st in
  if negb (p <? info_end) then mret (inr t) else
  m ← getmem (λ m, m);
  mret (inl (ALIGNUP8 (p + low32 m (p + 4)), note_tag (low32 m p) p t)).

Definition memory_kind (type : Z) : list Z :=
  str (if type =? MULTIBOOT_MEMORY_AVAILABLE then "available"
       else if type =? MULTIBOOT_MEMORY_RESERVED then "reserved"
       else if type =? MULTIBOOT_MEMORY_ACPI_RECLAIMABLE then "ACPI reclaimable"
       else if type =? MULTIBOOT_MEMORY_NVS then "NVS"
       else if type =? MULTIBOOT_MEMORY_BADRAM then "bad RAM" else "other").

(** [i] is the static counter. *)
Definition print_mmap_entry (i addr len type : Z) : K unit :=
  cprintf (str "[%2d] 0x%016x-0x%016x %s" ++ [10]) [VInt i; VLong addr; VLong (u64 (addr + len)); VStr (memory_kind type)].

(** The loop over the memory map; [i] counts the entries printed. *)
Definition mmap_round (ld_end mmap_end entry_size : Z) (st : Z * Z) : K ((Z * Z) + unit) :=
  let '(entry, i) := st in
  if negb (entry <? mmap_end) then mret (inr tt) else
  m ← getmem (λ m, m);
  let addr := low64 m entry in
  let len := low64 m (entry + 8) in
  let type := low32 m (entry + 16) in
  print_mmap_entry i addr len type;;
  (if type =? MULTIBOOT_MEMORY_AVAILABLE then
     let pa_start := if addr <? V2P ld_end then V2P ld_end else addr in
     let pa_end := u64 (addr + len) in
     if pa_end <=? pa_start then mret tt else kmap_add pa_start pa_end (Z.lor PTE_XD PTE_W) 1
   else mret tt);;
  mret (inl (u64 (entry + entry_size), s32 (i + 1))).

Section mb2.
Context {D : Type} {HB : Bus D}.

Definition hlt_if_null (p : option Z) : M (board D) Z := match p with Some a => mret a | None => spin end.

Definition mb2_init (ld : ldsyms) (mb2_info_ptr : Z) : M (board D) fb_info :=
  p ← hlt_if_null (if mb2_info_ptr =? 0 then None else Some mb2_info_ptr);
  m ← kern (getmem (λ m, m));
  let mb2_info_size := low32 m p in
  t ← kern (whileM (tag_round (u64 (p + mb2_info_size))) (u64 (p + 8), mkTags None None None None));
  f ← hlt_if_null (fb_tag t);
  fbi ← kern (fb_init (low64 m (f + 8)) (s32 (low32 m (f + 20))) (s32 (low32 m (f + 24))) (low8 m (f + 28)) (s32 (low32 m (f + 16))));
  match new_acpi_tag t, old_acpi_tag t with
  | Some a, _ => mpinit (ld_cpus ld) (P2V (a + 8))
  | None, Some a => mpinit (ld_cpus ld) (P2V (a + 8))
  | None, None => panic "RSDP not found"
  end;;
  match mmap_tag t with
  | None => panic "memory map not found"
  | Some a =>
      kern (whileM (mmap_round (ld_end ld) (u64 (a + low32 m (a + 4))) (low32 m (a + 8))) (a + 16, 0));;
      fbi ← kern (fb_setup_double_buffering fbi);
      kern (kmap_add KERNOFFSET (V2P (ld_etext ld)) 0 0);;
      kern (kmap_add (V2P (ld_etext ld)) (V2P (ld_data ld)) PTE_XD 0);;
      kern (kmap_add (V2P (ld_data ld)) (V2P (ld_end ld)) (Z.lor PTE_XD PTE_W) 0);;
      kern (kmap_add 0 KERNOFFSET (Z.lor PTE_XD PTE_W) 0);;
      mret fbi
  end.
End mb2.

(** * The tags *)

Section walk.
Implicit Types (m : mem) (s : kstate) (fuel : nat).

(** The tags of the information from address [p] on, with their types. *)
Inductive tag_chain m (info_end : Z) : Z → list (Z * Z) → Prop :=
| chain_end p : info_end ≤ p → tag_chain m info_end p []
| chain_tag p l : p < info_end → tag_chain m info_end (ALIGNUP8 (p + low32 m (p + 4))) l → tag_chain m info_end p ((low32 m p, p) :: l).

Definition noted (l : list (Z * Z)) (t : tags) : tags := foldl (λ t x, note_tag x.1 x.2 t) t l.

Lemma tags_run info_end p l t n fuel s :
  tag_chain (k_mem s) info_end p l → (length l < n)%nat →
  loop_fuel n (tag_round info_end) (p, t) fuel s = Ret (noted l t) s.
Proof.
  intros Hc. revert n t. induction Hc as [p Hp|p l Hp Hc IH]; intros [|n] t Hn; try (simpl in Hn; lia); rewrite loop_fuel_S.
  - assert (tag_round info_end (p, t) fuel s = Ret (inr t) s) as -> by (unfold tag_round; by rewrite (proj2 (Z.ltb_ge _ _)) by lia). done.
  - assert (tag_round info_end (p, t) fuel s = Ret (inl (ALIGNUP8 (p + low32 (k_mem s) (p + 4)), note_tag (low32 (k_mem s) p) p t)) s) as ->
      by (unfold tag_round; by rewrite (proj2 (Z.ltb_lt _ _)) by lia).
    cbn [obind]. rewrite IH by (simpl in Hn; lia). done.
Qed.

Lemma last_filter_snoc {A} (P : A → Prop) `{!∀ x, Decision (P x)} l x :
  last (filter P (l ++ [x])) = if decide (P x) then Some x else last (filter P l).
Proof. rewrite filter_app, filter_cons, filter_nil. case_decide; [apply last_snoc|by rewrite app_nil_r]. Qed.

(** The last tag of a type is the one that counts. *)
Lemma noted_last l t :
  let last_of ty := last (filter (λ x : Z * Z, x.1 = ty) l) in
  noted l t = mkTags (from_option (λ x, Some x.2) (fb_tag t) (last_of 8)) (from_option (λ x, Some x.2) (mmap_tag t) (last_of 6))
    (from_option (λ x, Some x.2) (new_acpi_tag t) (last_of 15)) (from_option (λ x, Some x.2) (old_acpi_tag t) (last_of 14)).
Proof.
  cbv zeta. induction l as [|[ty p] l IH] using rev_ind; [by destruct t|]. unfold noted in *. rewrite foldl_app. cbn [foldl]. rewrite IH. clear IH.
  rewrite !last_filter_snoc. unfold note_tag. cbn [fst snd fb_tag mmap_tag new_acpi_tag old_acpi_tag].
  unfold MULTIBOOT_TAG_TYPE_FRAMEBUFFER, MULTIBOOT_TAG_TYPE_MMAP, MULTIBOOT_TAG_TYPE_ACPI_NEW, MULTIBOOT_TAG_TYPE_ACPI_OLD.
  destruct (Z.eqb_spec ty 8), (Z.eqb_spec ty 6), (Z.eqb_spec ty 15), (Z.eqb_spec ty 14); try lia; by repeat (case_decide; try lia).
Qed.

(** * The memory map *)

Record region := mkRegion { rg_addr : Z; rg_len : Z; rg_type : Z }.
Definition region_at m (a : Z) : region := mkRegion (low64 m a) (low64 m (a + 8)) (low32 m (a + 16)).

(** The part of a region that is memory for the allocator. *)
Definition usable (kend : Z) (r : region) : option kmapent :=
  let start := Z.max (rg_addr r) kend in let end_ := u64 (rg_addr r + rg_len r) in
  if (rg_type r =? MULTIBOOT_MEMORY_AVAILABLE) && (start <? end_) then Some (mkKmap start end_ (Z.lor PTE_XD PTE_W) 1) else None.

Definition kmap_push (km : kmemrec) (e : kmapent) : kmemrec := km_set_kmap (Z.to_nat (kmap_cur km)) e km.

Lemma kmap_cur_push l km : kmap_cur (foldl kmap_push km l) = kmap_cur km + Z.of_nat (length l).
Proof. revert km. induction l as [|e l IH]; intros km; cbn [foldl]; [simpl; lia|]. rewrite IH. simpl. lia. Qed.

(** Entering ranges leaves the free list alone. *)
Definition same_heap (km km' : kmemrec) : Prop := kmem_freelist km' = kmem_freelist km ∧ kmem_end km' = kmem_end km.

Lemma same_heap_push l km : same_heap km (foldl kmap_push km l).
Proof. revert km. induction l as [|e l IH]; intros km; [done|]. cbn [foldl]. exact (IH (kmap_push km e)). Qed.

Lemma set_km_set_km v w s : set_km v (set_km w s) = set_km v s.
Proof. done. Qed.

Definition quiet s : Prop := cn_locking (k_cons s) = 0 ∧ cn_panicked (k_cons s) = 0.

Lemma print_region_run i addr len type fuel s : quiet s → ∃ cs, print_mmap_entry i addr len type fuel s = Ret tt (printed cs s).
Proof.
  intros [H1 H2]. unfold print_mmap_entry. set (a := u64 (addr + len)). clearbody a.
  assert (∃ n, memory_kind type = n ∧ (length n ≤ 16)%nat) as (n & -> & Hn).
  { eexists. split; [reflexivity|]. unfold memory_kind. repeat (destruct (type =? _); [cbn; lia|]). cbn. lia. }
  eapply cprintf_run; [reflexivity| |by split; [|left]]. cbn. lia.
Qed.

(** One round: the region is printed and its usable part entered. *)
Lemma mmap_round_run kend mmap_end esz a i fuel s :
  let r := region_at (k_mem s) a in
  a < mmap_end → 0 ≤ a → 0 < esz → a + esz < 2 ^ 64 → quiet s → kmap_cur (k_km s) + Z.of_nat (length (option_list (usable (V2P kend) r))) ≤ Z.of_nat KMAP_MAX_SIZE →
  ∃ cs, mmap_round kend mmap_end esz (a, i) fuel s =
    Ret (inl (a + esz, s32 (i + 1))) (printed cs (set_km (foldl kmap_push (k_km s) (option_list (usable (V2P kend) r))) s)).
Proof.
  intros r Ha H0 Hz Hw Hq Hk. unfold mmap_round. rewrite (proj2 (Z.ltb_lt _ _)) by lia. cbn [negb].
  rewrite (run_bind _ _ _ _ (k_mem s) s) by done.
  destruct (print_region_run i (low64 (k_mem s) a) (low64 (k_mem s) (a + 8)) (low32 (k_mem s) (a + 16)) fuel s Hq) as [cs E].
  rewrite (run_bind _ _ _ _ _ _ E). clear E. exists cs. rewrite u64_small by lia. fold r.
  change (low64 (k_mem s) a) with (rg_addr r) in *. change (low64 (k_mem s) (a + 8)) with (rg_len r) in *. change (low32 (k_mem s) (a + 16)) with (rg_type r) in *.
  assert (Em : (if rg_addr r <? V2P kend then V2P kend else rg_addr r) = Z.max (rg_addr r) (V2P kend)) by (destruct (Z.ltb_spec (rg_addr r) (V2P kend)); lia).
  revert Hk. unfold usable. rewrite Em. destruct (rg_type r =? MULTIBOOT_MEMORY_AVAILABLE); cbn [andb].
  - rewrite Z.leb_antisym. destruct (Z.max (rg_addr r) (V2P kend) <? u64 (rg_addr r + rg_len r)); cbn [negb option_list foldl length]; intros Hk.
    + erewrite run_bind; [reflexivity|]. change (length _) with 1%nat in Hk. rewrite kmap_add_run by (cbn [k_km printed set_cons]; lia). done.
    + erewrite run_bind; [reflexivity|]. by destruct s.
  - cbn [option_list foldl]. erewrite run_bind; [reflexivity|]. by destruct s.
Qed.

Lemma mmap_run kend mmap_end esz rs a i n fuel s :
  let push := omap (usable (V2P kend)) rs in
  (∀ k, (k < length rs)%nat → rs !! k = Some (region_at (k_mem s) (a + Z.of_nat k * esz))) →
  0 < esz → 0 ≤ a → a + Z.of_nat (length rs) * esz = mmap_end → mmap_end < 2 ^ 64 → quiet s →
  kmap_cur (k_km s) + Z.of_nat (length push) ≤ Z.of_nat KMAP_MAX_SIZE → (length rs < n)%nat →
  ∃ cs, loop_fuel n (mmap_round kend mmap_end esz) (a, i) fuel s = Ret tt (printed cs (set_km (foldl kmap_push (k_km s) push) s)).
Proof.
  revert a i n s. induction rs as [|r rs IH]; intros a i [|n] s push Hr Hesz Ha Hend Hw Hq Hk Hn; try (simpl in Hn; lia); rewrite loop_fuel_S.
  - assert (mmap_round kend mmap_end esz (a, i) fuel s = Ret (inr tt) s) as -> by (unfold mmap_round; by rewrite (proj2 (Z.ltb_ge _ _)) by (simpl in Hend; lia)).
    exists []. unfold printed, cons_put. cbn. rewrite app_nil_r. by destruct s as [???????????? [] ?].
  - cbn [length] in *. pose proof (Hr 0%nat ltac:(lia)) as H0. simpl in H0. rewrite Z.add_0_r in H0. injection H0 as ->.
    assert (Ep : push = option_list (usable (V2P kend) (region_at (k_mem s) a)) ++ omap (usable (V2P kend)) rs).
    { unfold push. cbn [omap list_omap]. by destruct (usable _ _). }
    rewrite Ep, length_app in Hk. destruct (mmap_round_run kend mmap_end esz a i fuel s) as [cs E]; [nia|done|done|nia|done|lia|].
    rewrite E. cbn [obind]. clear E. set (s1 := printed cs _).
    destruct (IH (a + esz) (s32 (i + 1)) n s1) as [cs' E].
    + intros k Hk'. pose proof (Hr (S k) ltac:(lia)) as Hs. simpl in Hs. rewrite Hs. do 2 f_equal. lia.
    + done. + lia. + nia. + done. + exact Hq.
    + cbn [k_km s1 printed set_km set_cons]. rewrite kmap_cur_push. lia.
    + lia.
    + exists (cs ++ cs'). rewrite E. cbn [k_km s1 printed set_km set_cons]. rewrite Ep, foldl_app. unfold s1. f_equal. unfold printed, cons_put. cbn. by rewrite <- app_assoc.
Qed.

(** * The table of ranges *)

Lemma kmap_is_push km l e : kmap_is km l → (length l < KMAP_MAX_SIZE)%nat → used_ent e = true → kmap_is (kmap_push km e) (l ++ [e]).
Proof.
  intros [Ht Hc Hl Hu] Hlt He. split; unfold kmap_push, km_set_kmap; cbn [kmap_tab kmap_cur].
  - rewrite Ht, Hc, Nat2Z.id, insert_app_r_alt, Nat.sub_diag by lia. rewrite length_app. cbn [length].
    replace (KMAP_MAX_SIZE - length l)%nat with (S (KMAP_MAX_SIZE - (length l + 1))) by lia. cbn. by rewrite <- app_assoc.
  - rewrite length_app. simpl. lia.
  - rewrite length_app. simpl. lia.
  - apply Forall_app. by repeat constructor.
Qed.

Lemma kmap_is_pushes km l l' :
  kmap_is km l → (length l + length l' ≤ KMAP_MAX_SIZE)%nat → Forall (λ e, used_ent e = true) l' → kmap_is (foldl kmap_push km l') (l ++ l').
Proof.
  revert km l. induction l' as [|e l' IH]; intros km l Hk Hl Hu; cbn [foldl]; [by rewrite app_nil_r|]. apply Forall_cons in Hu as [He Hu]. cbn [length] in Hl.
  change (e :: l') with ([e] ++ l'). rewrite app_assoc. apply IH; [apply kmap_is_push; [done|lia|done]|rewrite length_app; simpl; lia|done].
Qed.

(** The range the double buffer is taken from, and the table afterwards. *)
Definition big (f : fb_info) (e : kmapent) : bool := negb (km_heap e =? 0) && (fb_size f <? km_phys_end e - km_phys_start e).
Definition buf_start (e : kmapent) : Z := PGROUNDUP (km_phys_start e).
Definition buf_end (f : fb_info) (e : kmapent) : Z := PGROUNDUP (buf_start e + fb_size f).
Definition carved (f : fb_info) (l : list kmapent) : list kmapent :=
  match list_find (λ e, big f e = true) l with
  | Some (i, e) => <[i := mkKmap (buf_end f e) (km_phys_end e) (km_perm e) (km_heap e)]> l ++ [mkKmap (buf_start e) (buf_end f e) PTE_W 0]
  | None => l
  end.

Lemma kmap_is_lookup km l j : kmap_is km l → kmap_tab km !!! j = default (mkKmap 0 0 0 0) (l !! j).
Proof.
  intros [Ht _ Hl _]. rewrite Ht. destruct (l !! j) as [e|] eqn:E; cbn.
  - apply list_lookup_total_correct. by apply lookup_app_l_Some.
  - apply lookup_ge_None in E. rewrite lookup_total_app_r by done. destruct (decide (j - length l < KMAP_MAX_SIZE - length l)%nat).
    + by apply lookup_total_replicate_2.
    + rewrite list_lookup_total_alt, lookup_ge_None_2; [done|rewrite length_replicate; unfold KMAP_MAX_SIZE in *; lia].
Qed.

Lemma fb_init_run fb_pa w h pitch fuel s :
  quiet s → kmap_cur (k_km s) < Z.of_nat KMAP_MAX_SIZE →
  ∃ cs, fb_init fb_pa w h 32 pitch fuel s =
    Ret (mkFb (P2V fb_pa) (pitch * h) (P2V fb_pa) w h pitch (w / FWIDTH) (h / FHEIGHT) 0 0 0 0 0 0 false)
      (printed cs (set_km (kmap_push (k_km s) (mkKmap fb_pa (fb_pa + pitch * h) PTE_W 0)) s)).
Proof.
  intros [H1 H2] Hk. unfold fb_init. change (Z.shiftl FB_DEPTH 3) with 32. cbn [Z.eqb Pos.eqb negb].
  edestruct (cprintf_run (str "Found framebuffer at 0x%x-0x%x" ++ [10]) [VLong fb_pa; VLong (fb_pa + pitch * h)] _ fuel s eq_refl) as [cs E]; [cbn; lia|by split; [|left]|].
  rewrite (run_bind _ _ _ _ _ _ E). erewrite run_bind by (by apply kmap_add_run). by exists cs.
Qed.

Lemma PGROUNDUP_bounds x : 0 ≤ x < 2 ^ 64 - PGSIZE → x ≤ PGROUNDUP x < x + PGSIZE.
Proof.
  intros Hx. unfold PGROUNDUP, PGSIZE in *. rewrite u64_small by lia. change (u64 (Z.lnot (4096 - 1))) with (2 ^ 64 - 2 ^ 12).
  rewrite land_mask64 by lia. change (2 ^ 12) with 4096. pose proof (Z.div_mod (x + 4096 - 1) 4096 ltac:(lia)). pose proof (Z.mod_pos_bound (x + 4096 - 1) 4096 ltac:(lia)). lia.
Qed.

(** Where the buffer lies when the range has room for the rounding. *)
Lemma buf_bounds f e :
  0 ≤ km_phys_start e → 0 < fb_size f → km_phys_end e + 2 * PGSIZE < 2 ^ 64 → big f e = true →
  km_phys_start e ≤ buf_start e ∧ buf_start e + fb_size f ≤ buf_end f e < km_phys_end e + 2 * PGSIZE.
Proof.
  intros H0 Hf He [_ Hb%Z.ltb_lt]%andb_true_iff. unfold buf_end, buf_start. unfold PGSIZE in *.
  pose proof (PGROUNDUP_bounds (km_phys_start e) ltac:(unfold PGSIZE; lia)) as H1. unfold PGSIZE in *.
  pose proof (PGROUNDUP_bounds (PGROUNDUP (km_phys_start e) + fb_size f) ltac:(unfold PGSIZE; lia)). unfold PGSIZE in *. lia.
Qed.

Lemma fb_round_idle f l j e fuel s :
  kmap_is (k_km s) l → l !! j = Some e → big f e = false → fb_setup_round f (Z.of_nat j) fuel s = Ret None s.
Proof.
  intros Hk Hj Hb. unfold fb_setup_round. rewrite (run_bind _ _ _ _ e s) by (unfold getkm; mred; rewrite Nat2Z.id, (kmap_is_lookup _ _ _ Hk), Hj; done).
  assert (used_ent e = true) as Hu%negb_true_iff by (eapply (Forall_lookup_1 _ _ _ _ (ki_used _ _ Hk) Hj)). rewrite Hu. unfold big in Hb. by rewrite Hb.
Qed.

Lemma kmap_is_alter km l i e e' :
  kmap_is km l → l !! i = Some e → used_ent (e' e) = true →
  kmap_is (mkKmem (kmem_use_lock km) (kmem_freelist km) (kmem_end km) (alter e' i (kmap_tab km)) (kmap_cur km) (kpml4 km)) (<[i := e' e]> l).
Proof.
  intros [Ht Hc Hl Hu] Hi He. pose proof (lookup_lt_Some _ _ _ Hi). split; cbn [kmap_tab kmap_cur]; rewrite ?length_insert; try done.
  - rewrite Ht, alter_app_l by done. f_equal. apply list_eq. intros j. rewrite list_lookup_alter, list_lookup_insert.
    destruct (decide (i = j)) as [<-|]; [|rewrite !decide_False by tauto; done]. by rewrite !decide_True, Hi by done.
  - by apply Forall_insert.
Qed.

Lemma fb_round_take f l i e fuel s :
  quiet s → kmap_is (k_km s) l → (length l < KMAP_MAX_SIZE)%nat → 0 < fb_size f → l !! i = Some e → big f e = true →
  0 ≤ km_phys_start e → km_phys_end e + 2 * PGSIZE < 2 ^ 64 →
  ∃ s', fb_setup_round f (Z.of_nat i) fuel s = Ret (Some (set_buf (P2V (buf_start e)) f)) s' ∧
    kmap_is (k_km s') (<[i := mkKmap (buf_end f e) (km_phys_end e) (km_perm e) (km_heap e)]> l ++ [mkKmap (buf_start e) (buf_end f e) PTE_W 0]) ∧
    quiet s' ∧ k_ctx s' = k_ctx s ∧ same_heap (k_km s) (k_km s') ∧ k_mem s' = memmove (k_mem s) (P2V (buf_start e)) (fb f) (fb_size f).
Proof.
  intros Hq Hk Hl Hf Hi Hb H0 He. destruct (buf_bounds f e H0 Hf He Hb) as (B1 & B2 & _).
  assert (Hu : ∀ x, used_ent (mkKmap x (buf_end f e) PTE_W 0) = true) by (intros x; unfold used_ent; cbn; rewrite (proj2 (Z.eqb_neq (buf_end f e) 0)), andb_false_r by lia; done).
  assert (Hu' : ∀ a b, used_ent (mkKmap (buf_end f e) (km_phys_end e) a b) = true) by (intros a b; unfold used_ent; cbn; rewrite (proj2 (Z.eqb_neq (buf_end f e) 0)) by lia; done).
  unfold fb_setup_round. rewrite (run_bind _ _ _ _ e s) by (unfold getkm; mred; rewrite Nat2Z.id, (kmap_is_lookup _ _ _ Hk), Hi; done).
  assert (used_ent e = true) as ->%negb_true_iff by (eapply (Forall_lookup_1 _ _ _ _ (ki_used _ _ Hk) Hi)).
  unfold big in Hb. rewrite Hb. fold (buf_start e). fold (buf_end f e). rewrite Nat2Z.id.
  pose proof (kmap_is_alter _ _ _ _ (λ e0, mkKmap (buf_end f e) (km_phys_end e0) (km_perm e0) (km_heap e0)) Hk Hi (Hu' _ _)) as Hk1. cbv beta in Hk1.
  set (km1 := mkKmem _ _ _ _ _ _) in Hk1. rewrite (run_bind _ _ _ _ tt (set_km km1 s)) by done.
  erewrite run_bind by (apply kmap_add_run; cbn [k_km set_km]; rewrite (ki_cur _ _ Hk1), length_insert; lia).
  rewrite (run_bind _ _ _ _ tt (set_mem (memmove (k_mem s) (P2V (buf_start e)) (fb f) (fb_size f)) (set_km (kmap_push km1 (mkKmap (buf_start e) (buf_end f e) PTE_W 0)) s))) by done.
  edestruct (cprintf_run (str "Using framebuffer buffer at 0x%x-0x%x" ++ [10]) [VLong (buf_start e); VLong (buf_end f e)]) as [cs E]; [reflexivity| | |].
  3: { rewrite (run_bind _ _ _ _ _ _ E). eexists. split; [reflexivity|]. split; [|done]. apply kmap_is_push; [exact Hk1|by rewrite length_insert|apply Hu]. }
  - cbn. lia.
  - destruct Hq. split; [done|by left].
Qed.

(** What [fb_setup_double_buffering] does to the table and to [buf]. *)
Lemma fb_setup_run f l fuel s :
  quiet s → kmap_is (k_km s) l → (length l < KMAP_MAX_SIZE)%nat → 0 < fb_size f →
  (∀ e, e ∈ l → big f e = true → 0 ≤ km_phys_start e ∧ km_phys_end e + 2 * PGSIZE < 2 ^ 64) →
  ∃ f' s', fb_setup_double_buffering f fuel s = Ret f' s' ∧ kmap_is (k_km s') (carved f l) ∧ quiet s' ∧ k_ctx s' = k_ctx s ∧ same_heap (k_km s) (k_km s').
Proof.
  intros Hq Hk Hl Hf Hb. unfold fb_setup_double_buffering. assert (En : length (kmap_tab (k_km s)) = KMAP_MAX_SIZE).
  { rewrite (ki_tab _ _ Hk), length_app, length_replicate. lia. }
  rewrite (run_bind _ _ _ _ KMAP_MAX_SIZE s) by (unfold getkm; mred; by rewrite En).
  unfold carved. destruct (list_find _ l) as [[i e]|] eqn:Ef.
  - apply list_find_Some in Ef as (Hi & He & Hmin). pose proof (lookup_lt_Some _ _ _ Hi).
    destruct (Hb e) as [H0 H1]; [by eapply list_elem_of_lookup_2|done|].
    destruct (fb_round_take f l i e fuel s) as (s' & E & Hk' & Hq' & Hx & Hh & _); [done..|].
    exists (set_buf (P2V (buf_start e)) f), s'. split; [|done]. rewrite (run_bind _ _ _ _ (Some (set_buf (P2V (buf_start e)) f)) s'); [done|]. apply (forM_exit _ _ _ i); [|by rewrite Z.add_0_l|lia].
    intros j Hj. rewrite Z.add_0_l in Hj. rewrite <- (Z2Nat.id j) by lia. destruct (lookup_lt_is_Some_2 l (Z.to_nat j) ltac:(lia)) as [y Hy].
    eapply fb_round_idle; [done|exact Hy|]. apply not_true_iff_false, (Hmin _ _ Hy). lia.
  - apply list_find_None in Ef. rewrite Forall_forall in Ef.
    assert (∃ cs, fb_setup_round f (Z.of_nat (length l)) fuel s = Ret (Some f) (printed cs s)) as [cs E].
    { unfold fb_setup_round. rewrite (run_bind _ _ _ _ (mkKmap 0 0 0 0) s) by (unfold getkm; mred; rewrite Nat2Z.id, (kmap_is_lookup _ _ _ Hk), lookup_ge_None_2 by done; done).
      edestruct (cprintf_run (str "Framebuffer buffer not found" ++ [10]) []) as [cs E]; [reflexivity| | |]; [cbn; lia|destruct Hq; split; [done|by left]|].
      exists cs. cbn [km_phys_start km_phys_end Z.eqb andb]. by rewrite (run_bind _ _ _ _ _ _ E). }
    exists f, (printed cs s). split; [|done]. rewrite (run_bind _ _ _ _ (Some f) (printed cs s)); [done|]. apply (forM_exit _ _ _ (length l)); [|by rewrite Z.add_0_l|lia].
    intros j Hj. rewrite Z.add_0_l in Hj. rewrite <- (Z2Nat.id j) by lia. destruct (lookup_lt_is_Some_2 l (Z.to_nat j) ltac:(lia)) as [y Hy].
    eapply fb_round_idle; [done|exact Hy|]. by apply not_true_iff_false, Ef, (list_elem_of_lookup_2 _ _ _ Hy).
Qed.
End walk.

(** * The whole of it *)

Definition rsdp_of (t : tags) : option Z :=
  match new_acpi_tag t, old_acpi_tag t with Some a, _ => Some (P2V (a + 8)) | None, o => (λ a, P2V (a + 8)) <$> o end.

(** A boot loader that keeps to the specification: the tags follow each other,
    there is a framebuffer of 32 bits, an ACPI table, and a memory map of
    regions that do not wrap around. *)
Record handed_over (m : mem) (p : Z) (tl : list (Z * Z)) (ft at_ rsdp madt esz : Z) (es : list madt_entry) (rs : list region) : Prop := {
  ho_ptr : 0 < p ∧ p + 8 < 2 ^ 64 ∧ 0 ≤ p + low32 m p < 2 ^ 64;
  ho_tags : tag_chain m (p + low32 m p) (p + 8) tl;
  ho_fb : fb_tag (noted tl (mkTags None None None None)) = Some ft;
  ho_depth : low8 m (ft + 28) = 32;
  ho_screen : 0 ≤ low64 m (ft + 8) ∧ 0 < s32 (low32 m (ft + 16)) * s32 (low32 m (ft + 24));
  ho_acpi : rsdp_of (noted tl (mkTags None None None None)) = Some rsdp;
  ho_madt : find_madt m rsdp = Some madt;
  ho_entries : rd_bytes m (madt + madt_size) (length (table_bytes es)) = table_bytes es;
  ho_madt_len : rd32 m (madt + sdt_len) = madt_size + Z.of_nat (length (table_bytes es)) ∧ 0 ≤ madt < 2 ^ 64 - madt_size - Z.of_nat (length (table_bytes es));
  ho_entries_ok : Forall entry_ok es;
  ho_mmap : mmap_tag (noted tl (mkTags None None None None)) = Some at_ ∧ 0 ≤ at_ ∧ at_ + low32 m (at_ + 4) < 2 ^ 64;
  ho_esz : low32 m (at_ + 8) = esz ∧ 0 < esz;
  ho_regions : at_ + low32 m (at_ + 4) = at_ + 16 + Z.of_nat (length rs) * esz ∧ ∀ k, (k < length rs)%nat → rs !! k = Some (region_at m (at_ + 16 + Z.of_nat k * esz));
  ho_bounds : Forall (λ r, 0 ≤ rg_addr r ∧ 0 ≤ rg_len r ∧ rg_addr r + rg_len r + 2 * PGSIZE < 2 ^ 64) rs
}.

Definition screen (m : mem) (ft : Z) : fb_info :=
  let w := s32 (low32 m (ft + 20)) in let h := s32 (low32 m (ft + 24)) in let pitch := s32 (low32 m (ft + 16)) in let a := P2V (low64 m (ft + 8)) in
  mkFb a (pitch * h) a w h pitch (w / FWIDTH) (h / FHEIGHT) 0 0 0 0 0 0 false.
Definition screen_range (m : mem) (ft : Z) : kmapent :=
  mkKmap (low64 m (ft + 8)) (low64 m (ft + 8) + fb_size (screen m ft)) PTE_W 0.
Definition apic_range : kmapent := mkKmap 0xfec00000 0x100000000 PTE_W 0.
Definition kernel_ranges (ld : ldsyms) : list kmapent :=
  [mkKmap KERNOFFSET (V2P (ld_etext ld)) 0 0; mkKmap (V2P (ld_etext ld)) (V2P (ld_data ld)) PTE_XD 0;
   mkKmap (V2P (ld_data ld)) (V2P (ld_end ld)) (Z.lor PTE_XD PTE_W) 0; mkKmap 0 KERNOFFSET (Z.lor PTE_XD PTE_W) 0].

(** The ranges known after start-up. *)
Definition boot_ranges (ld : ldsyms) (m : mem) (ft : Z) (rs : list region) : list kmapent :=
  carved (screen m ft) ([screen_range m ft; apic_range] ++ omap (usable (V2P (ld_end ld))) rs) ++ kernel_ranges ld.

Lemma usable_spec kend r e :
  usable kend r = Some e → 0 ≤ rg_addr r → 0 ≤ rg_len r → rg_addr r + rg_len r < 2 ^ 64 →
  rg_type r = MULTIBOOT_MEMORY_AVAILABLE ∧ km_heap e = 1 ∧ kend ≤ km_phys_start e ∧ rg_addr r ≤ km_phys_start e ∧ km_phys_start e < km_phys_end e ∧ km_phys_end e = rg_addr r + rg_len r.
Proof.
  unfold usable. intros H H0 H1 H2. rewrite u64_small in H by lia. destruct (Z.eqb_spec (rg_type r) MULTIBOOT_MEMORY_AVAILABLE); cbn [andb] in H; [|done].
  destruct (Z.ltb_spec (Z.max (rg_addr r) kend) (rg_addr r + rg_len r)); [|done]. injection H as <-. cbn. lia.
Qed.

(** The allocator's part of the table. *)
Lemma carved_heap f l e : e ∈ carved f l → km_heap e ≠ 0 → ∃ e0, e0 ∈ l ∧ km_heap e0 = km_heap e ∧ km_phys_end e = km_phys_end e0 ∧ (e = e0 ∨ big f e0 = true ∧ km_phys_start e = buf_end f e0).
Proof.
  unfold carved. destruct (list_find _ l) as [[i e0]|] eqn:Ef; [|intros; exists e; auto].
  apply list_find_Some in Ef as (Hi & Hb & _). intros [H|H%list_elem_of_singleton]%elem_of_app Hh; [|by subst].
  apply list_elem_of_lookup in H as [j Hj]. apply list_lookup_insert_Some in Hj as [(-> & <- & _)|[_ Hj]].
  - exists e0. split; [by eapply list_elem_of_lookup_2|]. auto.
  - exists e. split; [by eapply list_elem_of_lookup_2|]. auto.
Qed.

Section boot.
Context {D : Type} {HB : Bus D}.
Implicit Types (b : board D) (fuel : nat).

Lemma kern_kmap_add a z perm heap fuel b :
  kmap_cur (k_km (m_k b)) < Z.of_nat KMAP_MAX_SIZE →
  kern (kmap_add a z perm heap) fuel b = Ret tt (mkBoard (set_km (kmap_push (k_km (m_k b)) (mkKmap a z perm heap)) (m_k b)) (m_drv b) (m_bus b)).
Proof. intros H. by apply kern_ret, kmap_add_run. Qed.

Lemma length_carved f l : (length (carved f l) ≤ S (length l))%nat.
Proof. unfold carved. destruct (list_find _ l) as [[i e]|]; [rewrite length_app, length_insert; simpl; lia|lia]. Qed.

(** From the memory map on. *)
Lemma mb2_ranges ld m f at_ esz rs l fuel b :
  let l' := l ++ omap (usable (V2P (ld_end ld))) rs in
  k_mem (m_k b) = m → quiet (m_k b) → kmap_is (k_km (m_k b)) l → 0 ≤ at_ → at_ + low32 m (at_ + 4) < 2 ^ 64 → low32 m (at_ + 8) = esz → 0 < esz →
  at_ + low32 m (at_ + 4) = at_ + 16 + Z.of_nat (length rs) * esz → (∀ k, (k < length rs)%nat → rs !! k = Some (region_at m (at_ + 16 + Z.of_nat k * esz))) →
  Forall (λ r, 0 ≤ rg_addr r ∧ 0 ≤ rg_len r ∧ rg_addr r + rg_len r + 2 * PGSIZE < 2 ^ 64) rs →
  (∀ e, e ∈ l → km_heap e = 0) → (length l' + 5 ≤ KMAP_MAX_SIZE)%nat → 0 < fb_size f → 0 < V2P (ld_etext ld) → 0 < V2P (ld_data ld) → (length rs < fuel)%nat →
  ∃ f' b', (kern (whileM (mmap_round (ld_end ld) (u64 (at_ + low32 m (at_ + 4))) (low32 m (at_ + 8))) (at_ + 16, 0));;
      fbi ← kern (fb_setup_double_buffering f);
      kern (kmap_add KERNOFFSET (V2P (ld_etext ld)) 0 0);;
      kern (kmap_add (V2P (ld_etext ld)) (V2P (ld_data ld)) PTE_XD 0);;
      kern (kmap_add (V2P (ld_data ld)) (V2P (ld_end ld)) (Z.lor PTE_XD PTE_W) 0);;
      kern (kmap_add 0 KERNOFFSET (Z.lor PTE_XD PTE_W) 0);;
      mret fbi) fuel b = Ret f' b' ∧
    kmap_is (k_km (m_k b')) (carved f l' ++ kernel_ranges ld) ∧ k_ctx (m_k b') = k_ctx (m_k b) ∧ m_drv b' = m_drv b ∧ same_heap (k_km (m_k b)) (k_km (m_k b')).
Proof.
  intros l' Hm Hq Hk Ha Hw Hesz Hesz0 Hsz Hr Hb Hl Hcap Hf Het Hda Hfuel. rewrite Hesz, u64_small by lia.
  assert (Hb' : ∀ e, e ∈ omap (usable (V2P (ld_end ld))) rs → 0 ≤ km_phys_start e ∧ km_phys_start e < km_phys_end e ∧ km_phys_end e + 2 * PGSIZE < 2 ^ 64).
  { intros e (r & Hin & He)%list_elem_of_omap. rewrite Forall_forall in Hb. destruct (Hb r Hin) as (? & ? & ?). unfold PGSIZE in *. destruct (usable_spec _ _ _ He); lia. }
  unfold l' in Hcap. rewrite length_app in Hcap.
  destruct (mmap_run (ld_end ld) (at_ + low32 m (at_ + 4)) esz rs (at_ + 16) 0 fuel fuel (m_k b)) as [cs E];
    [by rewrite Hm|done|lia|lia|done|done|rewrite (ki_cur _ _ Hk); lia|done|].
  assert (Hk1 : kmap_is (foldl kmap_push (k_km (m_k b)) (omap (usable (V2P (ld_end ld))) rs)) l').
  { apply kmap_is_pushes; [done|lia|]. apply Forall_forall. intros e He. unfold used_ent. rewrite (proj2 (Z.eqb_neq (km_phys_end e) 0)) by (pose proof (Hb' e He); lia). by rewrite andb_false_r. }
  unfold whileM at 1. erewrite run_bind by (apply kern_ret; exact E). set (b1 := mkBoard _ (m_drv b) (m_bus b)).
  destruct (fb_setup_run f l' fuel (m_k b1)) as (f' & s' & E' & Hk2 & Hq' & Hx & Hh); [exact Hq|exact Hk1|unfold l'; rewrite length_app; lia|done| |].
  { intros e [He|He]%elem_of_app Hbig; [|destruct (Hb' e He); lia]. exfalso. unfold big in Hbig. by rewrite (Hl e He) in Hbig. }
  rewrite (run_bind _ _ _ _ _ _ (kern_ret _ _ _ _ _ E')). exists f'.
  pose proof (length_carved f l') as Hlc. assert (Hll : length l' = (length l + length (omap (usable (V2P (ld_end ld))) rs))%nat) by (unfold l'; apply length_app).
  assert (Hk3 : kmap_is (foldl kmap_push (k_km s') (kernel_ranges ld)) (carved f l' ++ kernel_ranges ld)).
  { apply kmap_is_pushes; [done|cbn [kernel_ranges length]; lia|]. unfold kernel_ranges, used_ent. repeat constructor; cbn; rewrite ?(proj2 (Z.eqb_neq (V2P (ld_etext ld)) 0)), ?(proj2 (Z.eqb_neq (V2P (ld_data ld)) 0)) by lia; done. }
  pose proof (ki_cur _ _ Hk2) as Hc. unfold kernel_ranges in Hk3. cbn [foldl] in Hk3.
  do 4 (erewrite run_bind by (apply kern_kmap_add; cbn [m_k k_km set_km kmap_push km_set_kmap kmap_cur]; lia)).
  eexists. split; [reflexivity|]. split; [exact Hk3|]. split_and!; [done|done|].
  destruct (same_heap_push (omap (usable (V2P (ld_end ld))) rs) (k_km (m_k b))) as [H1 H2]. destruct Hh as [H3 H4]. unfold same_heap. cbn in *. by rewrite H3, H4, H1, H2.
Qed.

Lemma boot_ranges_safe ld m ft rs e :
  Forall (λ r, 0 ≤ rg_addr r ∧ 0 ≤ rg_len r ∧ rg_addr r + rg_len r + 2 * PGSIZE < 2 ^ 64) rs → 0 < fb_size (screen m ft) →
  e ∈ boot_ranges ld m ft rs → km_heap e ≠ 0 → ∃ r, r ∈ rs ∧ rg_type r = MULTIBOOT_MEMORY_AVAILABLE ∧
    V2P (ld_end ld) ≤ km_phys_start e ∧ rg_addr r ≤ km_phys_start e < km_phys_end e + 2 * PGSIZE ∧ km_phys_end e = rg_addr r + rg_len r.
Proof.
  intros Hb Hf [He|He]%elem_of_app Hh.
  2: { unfold kernel_ranges in He. repeat (apply elem_of_cons in He as [->|He]; [done|]). by apply elem_of_nil in He. }
  destruct (carved_heap _ _ _ He Hh) as (e0 & He0 & Eh & Ee & Hs). apply elem_of_app in He0 as [He0|(r & Hr & Hu)%list_elem_of_omap].
  { exfalso. apply Hh. rewrite <- Eh. repeat (apply elem_of_cons in He0 as [->|He0]; [done|]). by apply elem_of_nil in He0. }
  rewrite Forall_forall in Hb. destruct (Hb r Hr) as (H0 & H1 & H2). unfold PGSIZE in H2.
  destruct (usable_spec _ _ _ Hu) as (U1 & U2 & U3 & U4 & U5 & U6); [lia..|]. exists r. split_and!; [done|done| | | |lia].
  all: destruct Hs as [->|[Hbig ->]]; [unfold PGSIZE; lia|]; destruct (buf_bounds (screen m ft) e0) as (B1 & B2 & B3); [pose proof (Z.mod_pos_bound (ld_end ld - KERNBASE) (2 ^ 64)); lia|done|unfold PGSIZE; lia|done|lia].
Qed.

Lemma acpi_choice ld t rsdp : rsdp_of t = Some rsdp →
  match new_acpi_tag t, old_acpi_tag t with
  | Some a, _ => mpinit (ld_cpus ld) (P2V (a + 8))
  | None, Some a => mpinit (ld_cpus ld) (P2V (a + 8))
  | None, None => panic "RSDP not found"
  end = mpinit (D := D) (ld_cpus ld) rsdp.
Proof. unfold rsdp_of. destruct (new_acpi_tag t), (old_acpi_tag t); intros [= <-]; done. Qed.

(** The processors and interrupt controllers of the ACPI table, and the table
    of ranges, from what the boot loader hands over. *)
Lemma mb2_init_run ld p tl ft at_ rsdp madt esz es rs fuel b :
  let m := k_mem (m_k b) in let x := k_ctx (m_k b) in let n := length (x_cpus x) in
  handed_over m p tl ft at_ rsdp madt esz es rs → early b → kmap_is (k_km (m_k b)) [] →
  (length (omap (usable (V2P (ld_end ld))) rs) + 7 ≤ KMAP_MAX_SIZE)%nat → 0 < V2P (ld_etext ld) → 0 < V2P (ld_data ld) →
  (length tl < fuel)%nat → (length es < fuel)%nat → (length rs < fuel)%nat →
  ∃ f' b', mb2_init ld p fuel b = Ret f' b' ∧ kmap_is (k_km (m_k b')) (boot_ranges ld m ft rs) ∧
    x_cpus (k_ctx (m_k b')) = x_cpus x ++ cpus_for (ld_cpus ld) n (take (Z.to_nat NCPU - n) (enabled es)) ∧
    dr_lapic (m_drv b') = P2V (rd32 m (madt + madt_lapic_addr)) ∧ dr_ioapic (m_drv b') = first_ioapic es (dr_ioapic (m_drv b)) ∧
    same_heap (k_km (m_k b)) (k_km (m_k b')).
Proof.
  intros m x n Ho He Hk Hcap Het Hda Htl Hes Hrs.
  destruct Ho as [(Hp1 & Hp2 & Hp3) Htags Hft Hdepth [Hs1 Hs2] Hacpi Hmadt Hent [Hml Hmb] Hok (Hmm & Ha & Haw) [Hez Hez0] [Hsz Hr] Hb].
  set (t := noted tl _) in *. unfold mb2_init. rewrite (proj2 (Z.eqb_neq p 0)) by lia. rewrite (run_bind _ _ _ _ p b) by done.
  rewrite (run_bind _ _ _ _ m b) by (by destruct b). rewrite !(u64_small (p + _)) by lia.
  rewrite (run_bind _ _ _ _ t b) by (rewrite (kern_ret _ _ _ t (m_k b)) by (by apply tags_run); by destruct b).
  rewrite Hft. rewrite (run_bind _ _ _ _ ft b) by done. rewrite Hdepth.
  pose proof (ki_cur _ _ Hk) as Hc. unfold KMAP_MAX_SIZE in Hcap.
  destruct (fb_init_run (low64 m (ft + 8)) (s32 (low32 m (ft + 20))) (s32 (low32 m (ft + 24))) (s32 (low32 m (ft + 16))) fuel (m_k b) He) as [cs E]; [rewrite Hc; done|].
  rewrite (run_bind _ _ _ _ _ _ (kern_ret _ _ _ _ _ E)). clear E. fold (screen m ft). set (b1 := mkBoard (printed cs _) _ _).
  assert (Hk1 : kmap_is (k_km (m_k b1)) [screen_range m ft]).
  { apply (kmap_is_push _ []); [done|simpl; unfold KMAP_MAX_SIZE; lia|]. unfold used_ent. cbn [km_phys_start km_phys_end screen_range fb_size screen]. rewrite (proj2 (Z.eqb_neq (low64 m (ft + 8) + _) 0)) by lia. by rewrite andb_false_r. }
  rewrite (acpi_choice _ _ _ Hacpi). destruct (mpinit_run (ld_cpus ld) rsdp fuel b1 es madt) as [cs' E];
    [exact Hmadt|exact Hent|exact Hml|exact Hmb|done|exact He|rewrite (ki_cur _ _ Hk1); simpl; unfold KMAP_MAX_SIZE; lia|done|].
  rewrite (run_bind _ _ _ _ _ _ E). clear E. rewrite Hmm. set (b2 := bprint cs' _).
  assert (Hk2 : kmap_is (k_km (m_k b2)) [screen_range m ft; apic_range]) by (apply (kmap_is_push _ [_] apic_range Hk1); [simpl; unfold KMAP_MAX_SIZE; lia|done]).
  destruct (mb2_ranges ld m (screen m ft) at_ esz rs [screen_range m ft; apic_range] fuel b2) as (f' & b' & E & Hk3 & Hx & Hd & Hh);
    [done|exact He|exact Hk2|done|done|done|done|done|done|done| |rewrite length_app; cbn [length]; unfold KMAP_MAX_SIZE; lia|done|done|done|done|].
  { intros e He'. repeat (apply elem_of_cons in He' as [->|He']; [done|]). by apply elem_of_nil in He'. }
  exists f', b'. split; [exact E|]. split; [exact Hk3|]. rewrite Hx, Hd. by split_and!.
Qed.
End boot.

(** The test for a large enough range does not allow for the rounding to pages:
    the second buffer can reach beyond the range it is taken from. *)
Theorem buffer_overrun : ∃ f e, big f e = true ∧ km_phys_end e < buf_end f e.
Proof.
  exists (mkFb 0 8294400 0 1920 1080 7680 240 67 0 0 0 0 0 0 false), (mkKmap 0x200001 (0x200001 + 8294401) 0 1).
  vm_compute. done.
Qed.
