(* ===== verification/Kinit.v ===== *)
(** The page allocator after start-up: [freerange] and [kinit1] of
    kernel/kalloc.c on the table of ranges that kernel/mb2.c leaves. *)

From stdpp Require Import base list gmap strings.
From Stdlib Require Import ZArith Lia.
From S2P Require Import Prelude CString Bytes Monad Kstate Spinlock Cons Log Kalloc Vm Fb Bus Mp Mb2.

Section kinit.
Implicit Types (s : kstate) (l : list Z) (fuel : nat).

(** The whole pages between two addresses. *)
Definition page_count (vstart vend : Z) : nat := Z.to_nat ((vend - PGROUNDUP vstart) / PGSIZE).
Definition pages (vstart vend : Z) : list Z := (λ k, PGROUNDUP vstart + PGSIZE * Z.of_nat k) <$> seq 0 (page_count vstart vend).

(** The allocator as [kfree] leaves it: only the list and memory change. *)
Definition freed s s' : Prop := ∃ m v, s' = set_km (km_set_freelist v (k_km s)) (set_mem m s).

Lemma freed_refl s : freed s s.
Proof. exists (k_mem s), (kmem_freelist (k_km s)). by destruct s as [?? [] ???????????]. Qed.

Lemma freed_trans s1 s2 s3 : freed s1 s2 → freed s2 s3 → freed s1 s3.
Proof. intros (m & v & ->) (m' & v' & ->). by exists m', v'. Qed.

Lemma freerange_loop n p vend l k fuel s :
  kmem_use_lock (k_km s) = 0 → km_ok s l → let ps := (λ k, p + PGSIZE * Z.of_nat k) <$> seq 0 n in
  p mod PGSIZE = 0 → 0 < p → kmem_end (k_km s) ≤ p → (n = 0%nat ∨ p + PGSIZE * Z.of_nat n ≤ vend) → vend < p + PGSIZE * (Z.of_nat n + 1) → vend < 2 ^ 64 - PGSIZE → p + PGSIZE < 2 ^ 64 →
  (∀ v, v ∈ ps → v ∉ l) → (n < k)%nat →
  ∃ s', loop_fuel k (λ p, if u64 (p + PGSIZE) <=? vend then kfree p;; mret (inl (u64 (p + PGSIZE))) else mret (inr tt)) p fuel s = Ret tt s' ∧
    km_ok s' (reverse ps ++ l) ∧ freed s s'.
Proof.
  revert p l k s. induction n as [|n IH]; intros p l [|k] s Hu Hk ps Hp Hp0 Hend Hn Hn' Hv Hw Hd Hlt; try lia; rewrite loop_fuel_S; unfold PGSIZE in *; rewrite u64_small by lia.
  - rewrite (proj2 (Z.leb_gt _ _)) by lia. exists s. split; [done|]. split; [done|apply freed_refl].
  - rewrite (proj2 (Z.leb_le _ _)) by lia.
    destruct (kfree_page s 0 p l fuel) as (m & E & Hk1 & _); [by left|done| |split; [done|unfold PGSIZE; lia]|done|].
    { apply Hd. unfold ps. cbn [seq fmap list_fmap]. apply elem_of_cons. left. lia. }
    rewrite (run_bind _ _ _ _ _ _ E). cbn [mret M_ret obind]. set (s1 := set_km _ _) in *.
    assert (Eps : ps = p :: ((λ k, p + 4096 + 4096 * Z.of_nat k) <$> seq 0 n)).
    { unfold ps. cbn [seq fmap list_fmap]. f_equal; [lia|]. rewrite <- fmap_S_seq, <- list_fmap_compose. apply list_fmap_ext. intros i x _. simpl. lia. }
    destruct (IH (p + 4096) (p :: l) k s1) as (s' & E' & Hk' & Hf); try done; try lia.
    + rewrite <- Zplus_mod_idemp_r. change (4096 mod 4096) with 0. by rewrite Z.add_0_r.
    + cbn. lia.
    + intros v Hv' [->|Hin]%elem_of_cons; [|by eapply Hd; [rewrite Eps; right|]]. apply list_elem_of_fmap in Hv' as (j & Ej & _). lia.
    + exists s'. split; [exact E'|]. rewrite Eps, reverse_cons, <- app_assoc. split; [done|]. eapply freed_trans; [|exact Hf]. by eexists m, p.
Qed.

Lemma PGROUNDUP_aligned x : 0 ≤ x < 2 ^ 64 - PGSIZE → PGROUNDUP x mod PGSIZE = 0.
Proof.
  intros Hx. unfold PGROUNDUP, PGSIZE in *. rewrite u64_small by lia. change (u64 (Z.lnot (4096 - 1))) with (2 ^ 64 - 2 ^ 12).
  rewrite land_mask64 by lia. apply Z.mod_mul. lia.
Qed.

Lemma freerange_run vstart vend l fuel s :
  kmem_use_lock (k_km s) = 0 → km_ok s l → 0 < vstart → kmem_end (k_km s) ≤ vstart → vstart < 2 ^ 64 - 2 * PGSIZE → vend < 2 ^ 64 - PGSIZE →
  (∀ v, v ∈ pages vstart vend → v ∉ l) → (page_count vstart vend < fuel)%nat →
  ∃ s', freerange vstart vend fuel s = Ret tt s' ∧ km_ok s' (reverse (pages vstart vend) ++ l) ∧ freed s s'.
Proof.
  intros Hu Hk H0 Hend Hle Hv Hd Hf. pose proof (PGROUNDUP_bounds vstart) as B. unfold PGSIZE in *.
  pose proof (Z.div_mod (vend - PGROUNDUP vstart) 4096 ltac:(lia)). pose proof (Z.mod_pos_bound (vend - PGROUNDUP vstart) 4096 ltac:(lia)).
  apply freerange_loop; unfold PGSIZE in *; try done; try (unfold page_count, PGSIZE in *; lia). apply PGROUNDUP_aligned. unfold PGSIZE. lia.
Qed.

(** The pages of a range of the table, and of all of it. *)
Definition range_pages (e : kmapent) : list Z := if km_heap e =? 0 then [] else pages (P2V (km_phys_start e)) (P2V (km_phys_end e)).
Definition heap_pages (T : list kmapent) : list Z := concat (range_pages <$> T).

(** A range the allocator can be given: above the kernel, in the addresses the
    kernel maps. *)
Definition range_ok (kend : Z) (e : kmapent) : Prop :=
  km_heap e ≠ 0 → 0 ≤ km_phys_start e < 2 ^ 46 ∧ 0 ≤ km_phys_end e < 2 ^ 46 ∧ kend ≤ P2V (km_phys_start e).

Lemma P2V_low a : 0 ≤ a < 2 ^ 46 → P2V a = a + KERNBASE.
Proof. intros Ha. unfold P2V, KERNBASE. apply u64_small. lia. Qed.

Definition kinit1_body (e : kmapent) : K (option unit) :=
  whenM (negb (km_heap e =? 0)) (freerange (P2V (km_phys_start e)) (P2V (km_phys_end e)));; mret None.

Lemma kinit1_range e l fuel s :
  kmem_use_lock (k_km s) = 0 → km_ok s l → range_ok (kmem_end (k_km s)) e → (∀ v, v ∈ range_pages e → v ∉ l) → (length (range_pages e) < fuel)%nat →
  ∃ s', kinit1_body e fuel s = Ret None s' ∧ km_ok s' (reverse (range_pages e) ++ l) ∧ freed s s'.
Proof.
  intros Hu Hk Hr Hd Hf. unfold kinit1_body, range_ok, range_pages in *. destruct (Z.eqb_spec (km_heap e) 0) as [Ez|Ez]; cbn [negb whenM].
  - exists s. split; [done|]. split; [done|apply freed_refl].
  - destruct (Hr Ez) as (H1 & H2 & H3). unfold pages in Hf. rewrite length_fmap, length_seq in Hf.
    destruct (freerange_run (P2V (km_phys_start e)) (P2V (km_phys_end e)) l fuel s) as (s' & E & Hk' & Hf'); try done.
    + rewrite P2V_low by lia. unfold KERNBASE. lia.
    + rewrite P2V_low by lia. unfold KERNBASE, PGSIZE. lia.
    + rewrite P2V_low by lia. unfold KERNBASE, PGSIZE. lia.
    + exists s'. by rewrite (run_bind _ _ _ _ _ _ E).
Qed.

Lemma kmap_is_freed s s' T : freed s s' → kmap_is (k_km s) T → kmap_is (k_km s') T.
Proof. intros (m & v & ->) []. by split. Qed.

Lemma heap_pages_app T1 T2 : heap_pages (T1 ++ T2) = heap_pages T1 ++ heap_pages T2.
Proof. unfold heap_pages. by rewrite fmap_app, concat_app. Qed.

Lemma kinit1_run T fuel s :
  kmap_is (k_km s) T → (length T < KMAP_MAX_SIZE)%nat → kmem_freelist (k_km s) = 0 → Forall (range_ok (kmem_end (k_km s))) T → NoDup (heap_pages T) →
  (length (heap_pages T) < fuel)%nat → (length T < fuel)%nat →
  ∃ s', kinit1 fuel s = Ret tt s' ∧ km_ok s' (reverse (heap_pages T)) ∧ x_cpus (k_ctx s') = x_cpus (k_ctx s).
Proof.
  intros Ht Hlen Hfl Hr Hnd Hf Hf'. unfold kinit1. set (s1 := set_ctx (mkCtx (x_hw (k_ctx s)) (x_cpus (k_ctx s)) (<[LkKmem := mkSpin 0 "kmem" None]> (x_locks (k_ctx s)))) s).
  rewrite (run_bind _ _ _ _ tt s1) by done. set (s2 := set_km (km_set_use_lock 0 (k_km s1)) s1). rewrite (run_bind _ _ _ _ tt s2) by done.
  assert (Ht2 : kmap_is (k_km s2) T) by (destruct Ht; by split).
  destruct (for_kmap_run (λ T1 s', freed s2 s' ∧ km_ok s' (reverse (heap_pages T1))) (λ _, False) kinit1_body T fuel s2 Hlen Hf')
    as (r & s' & E & [[-> [(m & v & ->) Hk]]|[_ []]]).
  - intros T1 s' [Hfr _]. by eapply kmap_is_freed.
  - split; [apply freed_refl|]. split; [|split; [constructor|done]]. exact Hfl.
  - intros T1 e T2 s' ET [Hfr Hk]. rewrite ET, heap_pages_app in *. apply NoDup_app in Hnd as (_ & Hdis & _).
    apply Forall_app in Hr as [_ [Hre _]%Forall_cons]. change (e :: T2) with ([e] ++ T2) in *. rewrite heap_pages_app, !length_app in *.
    assert (Ee : heap_pages [e] = range_pages e) by apply app_nil_r. rewrite Ee in *.
    destruct (kinit1_range e (reverse (heap_pages T1)) fuel s') as (s3 & E3 & Hk3 & Hf3); try (by destruct Hfr as (? & ? & ->)); [|lia|].
    + intros w Hw Hw'. rewrite elem_of_reverse in Hw'. apply (Hdis w Hw'). apply elem_of_app. by left.
    + exists s3. left. split; [done|]. split; [by eapply freed_trans|]. by rewrite reverse_app.
  - eexists. split; [|split; [exact Hk|done]]. by rewrite (run_bind _ _ _ _ _ _ E).
Qed.

(** * Where the pages are *)

Lemma range_pages_in e v :
  km_heap e ≠ 0 → 0 ≤ km_phys_start e < 2 ^ 46 → 0 ≤ km_phys_end e < 2 ^ 46 → v ∈ range_pages e →
  km_phys_start e + KERNBASE ≤ v ∧ v + PGSIZE ≤ km_phys_end e + KERNBASE.
Proof.
  intros Hh H1 H2 Hv. unfold range_pages in Hv. rewrite (proj2 (Z.eqb_neq _ _) Hh) in Hv. unfold pages, page_count in Hv. rewrite !P2V_low in Hv by lia.
  apply list_elem_of_fmap in Hv as (k & -> & Hk%elem_of_seq). pose proof (PGROUNDUP_bounds (km_phys_start e + KERNBASE)) as B. unfold KERNBASE, PGSIZE in *.
  pose proof (Z.div_mod (km_phys_end e + 0xffff800000000000 - PGROUNDUP (km_phys_start e + 0xffff800000000000)) 4096 ltac:(lia)).
  pose proof (Z.mod_pos_bound (km_phys_end e + 0xffff800000000000 - PGROUNDUP (km_phys_start e + 0xffff800000000000)) 4096 ltac:(lia)). lia.
Qed.

Lemma NoDup_range_pages e : NoDup (range_pages e).
Proof.
  unfold range_pages. destruct (_ =? 0); [constructor|]. apply NoDup_fmap_2; [|apply NoDup_seq]. intros a b. unfold PGSIZE. lia.
Qed.

(** The allocator's ranges do not overlap. *)
Definition apart (e1 e2 : kmapent) : Prop := km_heap e1 = 0 ∨ km_heap e2 = 0 ∨ km_phys_end e1 ≤ km_phys_start e2 ∨ km_phys_end e2 ≤ km_phys_start e1.
Fixpoint all_apart (T : list kmapent) : Prop := match T with [] => True | e :: T => Forall (apart e) T ∧ all_apart T end.

Lemma elem_of_heap_pages v T : v ∈ heap_pages T → ∃ e, e ∈ T ∧ v ∈ range_pages e.
Proof.
  unfold heap_pages. induction T as [|e T IH]; cbn; [by intros ?%not_elem_of_nil|]. intros [Hv|Hv]%elem_of_app; [exists e; split; [left|done]|].
  destruct (IH Hv) as (e' & He' & Hv'). exists e'. split; [by right|done].
Qed.

Lemma range_pages_heap v e : v ∈ range_pages e → km_heap e ≠ 0.
Proof. unfold range_pages. destruct (Z.eqb_spec (km_heap e) 0); [by intros ?%not_elem_of_nil|done]. Qed.

Lemma NoDup_heap_pages kend T : Forall (range_ok kend) T → all_apart T → NoDup (heap_pages T).
Proof.
  induction T as [|e T IH]; cbn; [constructor|]. intros [Hr HT]%Forall_cons [Ha Hall]. apply NoDup_app. split; [apply NoDup_range_pages|].
  split; [|by apply IH]. intros v Hv (e2 & He2 & Hv2)%elem_of_heap_pages. rewrite Forall_forall in HT, Ha.
  pose proof (range_pages_heap _ _ Hv) as H1. pose proof (range_pages_heap _ _ Hv2) as H2.
  destruct (Hr H1) as (? & ? & _), (HT e2 He2 H2) as (? & ? & _). destruct (range_pages_in e v), (range_pages_in e2 v); try done.
  unfold PGSIZE in *. destruct (Ha e2 He2) as [?|[?|?]]; lia.
Qed.

(** Shrinking ranges keeps them apart. *)
Definition within (e' e : kmapent) : Prop := km_heap e' = km_heap e ∧ km_phys_start e ≤ km_phys_start e' ∧ km_phys_end e' = km_phys_end e.

Lemma all_apart_within T' T : Forall2 within T' T → all_apart T → all_apart T'.
Proof.
  induction 1 as [|e' e T' T (H1 & H2 & H3) HT IH]; [done|]. intros [Ha Hall]. split; [|by apply IH]. clear IH Hall.
  induction HT as [|f' f T' T (H4 & H5 & H6) HT IH]; [constructor|]. apply Forall_cons in Ha as [Hf Ha]. constructor; [|by apply IH].
  unfold apart in *. lia.
Qed.

Lemma all_apart_app T1 T2 : all_apart T1 → all_apart T2 → (∀ e1 e2, e1 ∈ T1 → e2 ∈ T2 → apart e1 e2) → all_apart (T1 ++ T2).
Proof.
  induction T1 as [|e T1 IH]; intros H1 H2 H; [done|]. destruct H1 as [Ha H1]. cbn. split.
  - apply Forall_app. split; [done|]. apply Forall_forall. intros e2 He2. apply H; [left|done].
  - apply IH; [done|done|]. intros e1 e2 He1. apply H. by right.
Qed.

Lemma all_apart_none T : Forall (λ e, km_heap e = 0) T → all_apart T.
Proof. induction 1 as [|e T He HT IH]; [done|]. split; [|done]. eapply Forall_impl; [exact HT|]. intros x _. by left. Qed.
End kinit.

(** * The allocator after start-up *)

Section boot.
Context {D : Type} {HB : Bus D}.
Implicit Types (b : board D) (fuel : nat).

Definition regions_apart (r1 r2 : region) : Prop := rg_addr r1 + rg_len r1 ≤ rg_addr r2 ∨ rg_addr r2 + rg_len r2 ≤ rg_addr r1.
Fixpoint all_regions_apart (rs : list region) : Prop := match rs with [] => True | r :: rs => Forall (regions_apart r) rs ∧ all_regions_apart rs end.

Definition region_ok (r : region) : Prop := 0 ≤ rg_addr r ∧ 0 ≤ rg_len r ∧ rg_addr r + rg_len r + 2 * PGSIZE < 2 ^ 46.

Lemma usable_apart kend rs : Forall region_ok rs → all_regions_apart rs → all_apart (omap (usable kend) rs).
Proof.
  induction rs as [|r rs IH]; [done|]. intros [Hr Hrs]%Forall_cons [Ha Hall]. cbn [omap list_omap]. destruct (usable kend r) as [e|] eqn:Eu; [|by apply IH].
  split; [|by apply IH]. apply Forall_forall. intros e2 (r2 & Hin & Eu2)%list_elem_of_omap. rewrite Forall_forall in Hrs, Ha.
  destruct Hr as (? & ? & ?), (Hrs r2 Hin) as (? & ? & ?). unfold PGSIZE in *.
  destruct (usable_spec _ _ _ Eu) as (_ & _ & _ & ? & _ & ?), (usable_spec _ _ _ Eu2) as (_ & _ & _ & ? & _ & ?); try lia.
  destruct (Ha r2 Hin); unfold apart; lia.
Qed.

Lemma carved_within f l :
  0 < fb_size f → (∀ e, e ∈ l → big f e = true → 0 ≤ km_phys_start e ∧ km_phys_end e + 2 * PGSIZE < 2 ^ 64) →
  ∃ l' l'', carved f l = l' ++ l'' ∧ Forall2 within l' l ∧ Forall (λ e, km_heap e = 0) l''.
Proof.
  intros Hf Hb. assert (Hrefl : Forall2 within l l) by (apply Forall_Forall2_diag, Forall_forall; intros e _; split_and!; [done|lia|done]).
  unfold carved. destruct (list_find _ l) as [[i e]|] eqn:Ef; [|exists l, []; rewrite app_nil_r; by split_and!].
  apply list_find_Some in Ef as (Hi & Hbig & _). eexists _, _. split; [reflexivity|]. split; [|by repeat constructor].
  rewrite <- (list_insert_id l i e Hi) at 2. apply Forall2_insert; [done|]. destruct (Hb e) as [? ?]; [by eapply list_elem_of_lookup_2|done|].
  destruct (buf_bounds f e) as (? & ? & _); [done..|]. split_and!; cbn; [done|lia|done].
Qed.

Lemma boot_ranges_apart ld m ft rs :
  Forall region_ok rs → all_regions_apart rs → 0 < fb_size (screen m ft) → all_apart (boot_ranges ld m ft rs).
Proof.
  intros Hrs Ha Hf. unfold boot_ranges. set (l := [screen_range m ft; apic_range] ++ _).
  assert (Hl : all_apart l).
  { apply all_apart_app; [apply all_apart_none; by repeat constructor|by apply usable_apart|]. intros e1 e2 He1 _.
    repeat (apply elem_of_cons in He1 as [->|He1]; [by left|]). by apply elem_of_nil in He1. }
  destruct (carved_within (screen m ft) l Hf) as (l' & l'' & -> & Hw & Hz).
  { intros e [He|(r & Hr & Eu)%list_elem_of_omap]%elem_of_app Hb.
    - exfalso. repeat (apply elem_of_cons in He as [->|He]; [done|]). by apply elem_of_nil in He.
    - rewrite Forall_forall in Hrs. destruct (Hrs r Hr) as (? & ? & ?). unfold PGSIZE in *. destruct (usable_spec _ _ _ Eu) as (_ & _ & _ & ? & _ & ?); lia. }
  rewrite <- app_assoc. assert (Hz' : Forall (λ e, km_heap e = 0) (l'' ++ kernel_ranges ld)) by (apply Forall_app; split; [done|by repeat constructor]).
  apply all_apart_app; [by eapply all_apart_within|by apply all_apart_none|]. intros e1 e2 _ He2. right. left. rewrite Forall_forall in Hz'. by apply Hz'.
Qed.

Lemma boot_ranges_ok ld m ft rs :
  Forall region_ok rs → 0 < fb_size (screen m ft) → KERNBASE ≤ ld_end ld < 2 ^ 64 → Forall (range_ok (ld_end ld)) (boot_ranges ld m ft rs).
Proof.
  intros Hrs Hf Hend. apply Forall_forall. intros e He Hh. destruct (boot_ranges_safe ld m ft rs e) as (r & Hr & _ & H1 & [H2 H3] & H4); [|done..|].
  - eapply Forall_impl; [exact Hrs|]. intros r (? & ? & ?). unfold PGSIZE in *. lia.
  - rewrite Forall_forall in Hrs. destruct (Hrs r Hr) as (? & ? & ?). unfold V2P in H1. rewrite u64_small in H1 by (unfold KERNBASE in *; lia).
    unfold PGSIZE in *. split_and!; [lia..|]. rewrite P2V_low by lia. lia.
Qed.

Lemma boot_page ld m ft rs v :
  Forall region_ok rs → 0 < fb_size (screen m ft) → KERNBASE ≤ ld_end ld < 2 ^ 64 → v ∈ heap_pages (boot_ranges ld m ft rs) →
  ∃ r, r ∈ rs ∧ rg_type r = MULTIBOOT_MEMORY_AVAILABLE ∧ ld_end ld ≤ v ∧ P2V (rg_addr r) ≤ v ∧ v + PGSIZE ≤ P2V (rg_addr r) + rg_len r.
Proof.
  intros Hrs Hf Hend (e & He & Hv)%elem_of_heap_pages. pose proof (range_pages_heap _ _ Hv) as Hh.
  pose proof (boot_ranges_ok ld m ft rs Hrs Hf Hend) as Hok. rewrite Forall_forall in Hok. destruct (Hok e He Hh) as (B1 & B2 & B3).
  destruct (range_pages_in e v Hh B1 B2 Hv) as [P1 P2]. rewrite P2V_low in B3 by done.
  destruct (boot_ranges_safe ld m ft rs e) as (r & Hr & Hty & _ & [H2 _] & H4); [|done..|].
  - eapply Forall_impl; [exact Hrs|]. intros r (? & ? & ?). unfold PGSIZE in *. lia.
  - exists r. rewrite Forall_forall in Hrs. destruct (Hrs r Hr) as (? & ? & ?). unfold PGSIZE in *. rewrite P2V_low by lia. split_and!; [done|done|lia|lia|lia].
Qed.

End boot.
