(* ===== verification/Start.v ===== *)
(** Starting the machine, kernel/main.c, and what kernel/bin/entryother.S
    makes of what it finds.

    What the linker and the build provide is a parameter: the addresses of
    symbols, the image of entryother.S, the first program, the vectors. So is
    [others], what the other processors do between two looks of [startothers]
    at [c->started]. *)

From stdpp Require Import base list gmap strings.
From Stdlib Require Import ZArith Lia.
From S2P Require Import Prelude Seg CString Bytes Sprintf Monad Kstate Spinlock Sched Cons Bio Log Kalloc Vm File Proc Console Trap Fb Bus Apic Uart Ide Mp Mb2.

Record build := mkBuild {
  bd_ld : ldsyms;
  bd_vectors : Z → Z;
  bd_idt : Z;
  bd_entry_pml4 : Z;
  bd_mpenter : Z;
  bd_entryother : list Z;
  bd_initcode : list Z
}.

(** [P2V(0x7000UL)]. *)
Definition ap_code : Z := P2V 0x7000.

Section start.
Context {D : Type} {HB : Bus D} (bd : build) (others : board D → board D).

(** [xchg(&(mycpu()->started), 1)]. *)
Definition cpu_set_started (v : Z) (c : cpu) : cpu :=
  mkCpu (c_addr c) (c_apicid c) (c_ts c) (c_gdt c) v (c_ncli c) (c_intena c) (c_proc c).

Definition mpmain : M (board D) unit :=
  i ← kern cpuid;
  kern (cprintf (str "cpu%d: starting %d" ++ [10]) [VInt (Z.of_nat i); VInt (Z.of_nat i)]);;
  kern (idtinit (bd_idt bd));;
  i ← kern mycpu;
  kern (upd_cpu i (cpu_set_started 1));;
  kern scheduler.

Definition mpenter : M (board D) unit :=
  kern switchkvm;;
  kern seginit;;
  lapicinit;;
  mpmain.

(** [while (c->started == 0);]. *)
Definition wait_started (i : nat) (_ : unit) : M (board D) (unit + unit) :=
  c ← kern (get_cpu i);
  if c_started c =? 0 then modify others;; mret (inl tt) else mret (inr tt).

(** What the other processor is told, in the words below its code. *)
Definition tell_ap (stack : Z) : K unit :=
  modmem (λ m, wr64 m (ap_code - 8) (u64 (stack + KSTACKSIZE)));;
  modmem (λ m, wr64 m (ap_code - 16) (bd_mpenter bd));;
  modmem (λ m, wr64 m (ap_code - 24) (V2P (bd_entry_pml4 bd))).

Definition start_cpu (i : Z) : M (board D) (option unit) :=
  me ← kern mycpu;
  if bool_decide (Z.to_nat i = me) then mret None else
  stack ← kern kalloc;
  kern (tell_ap stack);;
  c ← kern (get_cpu (Z.to_nat i));
  lapicstartap (c_apicid c) (u32 (V2P ap_code));;
  whileM (wait_started (Z.to_nat i)) tt;;
  mret None.

Definition startothers : M (board D) unit :=
  kern (modmem (λ m, wr_bytes m ap_code (bd_entryother bd)));;
  ncpu ← kern (getx (λ x, length (x_cpus x)));
  forM ncpu 0 start_cpu;;
  mret tt.

Definition main (mb2_info_ptr : Z) : M (board D) unit :=
  mb2_init (bd_ld bd) mb2_info_ptr;;
  kern kinit1;;
  kern kvmalloc;;
  lapicinit;;
  kern seginit;;
  picinit;;
  ioapicinit;;
  kern consoleinit;;
  ioapicenable IRQ_KBD 0;;
  uartinit;;
  kern pinit;;
  kern (tvinit (bd_vectors bd));;
  kern binit;;
  kern fileinit;;
  Ide.ideinit;;
  kern kinit2;;
  kern (userinit console_devsw (bd_initcode bd));;
  startothers;;
  mpmain.
End start.

(** entryother.S: the page table it loads (32 bits of it), the stack it
    switches to, and the function it calls. *)
Record ap_start := mkAp { ap_cr3 : Z; ap_rsp : Z; ap_call : Z }.
Definition entryother (m : mem) : ap_start :=
  mkAp (rd32 m (ap_code - 24)) (rd64 m (ap_code - 8)) (rd64 m (ap_code - 16)).

Section ap.
Context {D : Type} {HB : Bus D} (bd : build) (others : board (log_bus D) → board (log_bus D)).
Implicit Types (b : board (log_bus D)) (fuel : nat).

(** What is stored is what entryother.S loads, if the page table lies in the
    first four gigabytes. *)
Lemma tell_ap_run stack fuel s :
  0 ≤ stack < 2 ^ 64 - KSTACKSIZE → 0 ≤ bd_mpenter bd < 2 ^ 64 → 0 ≤ V2P (bd_entry_pml4 bd) < 2 ^ 32 →
  ∃ m, tell_ap bd stack fuel s = Ret tt (set_mem m s) ∧ entryother m = mkAp (V2P (bd_entry_pml4 bd)) (stack + KSTACKSIZE) (bd_mpenter bd).
Proof.
  intros Hs Hm Hp. unfold tell_ap, modmem. mred. eexists. split; [reflexivity|]. unfold entryother. cbn [k_mem set_mem].
  rewrite (rd64_wr64_ne _ (ap_code - 8)), (rd64_wr64_ne _ (ap_code - 8)), rd64_wr64 by lia.
  rewrite (rd64_wr64_ne _ (ap_code - 16)), rd64_wr64 by lia. rewrite !(u64_small (stack + KSTACKSIZE)), (u64_small (bd_mpenter bd)) by (unfold KSTACKSIZE in *; lia). f_equal.
  unfold rd32. set (m1 := wr64 _ (ap_code - 16) _). clearbody m1. unfold wr64.
  assert (E : rd_bytes (wr_bytes m1 (ap_code - 24) (le_bytes 8 (V2P (bd_entry_pml4 bd)))) (ap_code - 24) (4 + 4) = le_bytes 8 (V2P (bd_entry_pml4 bd))) by apply (rd_bytes_wr_bytes _ _ (le_bytes 8 _)).
  rewrite rd_bytes_app in E. apply (f_equal (take 4)) in E. rewrite take_app_length' in E by done.
  change (take 4 (le_bytes 8 ?v)) with (le_bytes 4 v) in E. rewrite E, le_val_bytes. by apply Z.mod_small.
Qed.

Lemma nat_least (P : nat → Prop) `{!∀ n, Decision (P n)} n : P n → ∃ k, (k ≤ n)%nat ∧ P k ∧ ∀ j, (j < k)%nat → ¬ P j.
Proof.
  induction n as [n IH] using lt_wf_ind. intros Hn. destruct (decide (Exists P (seq 0 n))) as [(j & Hj%elem_of_seq & Pj)%Exists_exists|Hno].
  - destruct (IH j) as (k & ? & ? & ?); [lia|done|]. exists k. split_and!; [lia|done|done].
  - exists n. split_and!; [done|done|]. intros j Hj Pj. apply Hno, Exists_exists. exists j. split; [apply elem_of_seq; lia|done].
Qed.

Lemma wait_run i n k fuel b :
  (∀ j, (j < n)%nat → c_started (x_cpus (k_ctx (m_k (Nat.iter j others b))) !!! i) = 0) →
  c_started (x_cpus (k_ctx (m_k (Nat.iter n others b))) !!! i) ≠ 0 → (n < k)%nat →
  loop_fuel k (wait_started others i) tt fuel b = Ret tt (Nat.iter n others b).
Proof.
  revert n b. induction k as [|k IH]; intros n b Hz Hn Hk; [lia|]. rewrite loop_fuel_S.
  assert (Ew : wait_started others i tt fuel b = if c_started (x_cpus (k_ctx (m_k b)) !!! i) =? 0 then Ret (inl tt) (others b) else Ret (inr tt) b).
  { unfold wait_started. rewrite (run_bind _ _ _ _ (x_cpus (k_ctx (m_k b)) !!! i) b) by (by destruct b). by destruct (_ =? 0). }
  rewrite Ew. destruct n as [|n].
  - simpl in Hn. by rewrite (proj2 (Z.eqb_neq _ _) Hn).
  - pose proof (Hz 0%nat ltac:(lia)) as H0. simpl in H0. rewrite H0. cbn [Z.eqb obind]. rewrite Nat.iter_succ_r in Hn. rewrite Nat.iter_succ_r. apply IH; [|done|lia].
    intros j Hj. specialize (Hz (S j) ltac:(lia)). by rewrite Nat.iter_succ_r in Hz.
Qed.

(** The commands that start a processor, in order. *)
Definition startup (apicid : Z) : list (Z * Z) :=
  [(ICRHI, 2 ^ 24 * apicid); (ICRLO, 0xc500); (ICRHI, 2 ^ 24 * apicid); (ICRLO, 0x607); (ICRHI, 2 ^ 24 * apicid); (ICRLO, 0x607)].

Lemma lapicw_next base r v fuel b b1 l :
  dr_lapic (m_drv b) = base → wrote base b b1 l → 0 ≤ v < 2 ^ 32 → ∃ b2, lapicw r v fuel b1 = Ret tt b2 ∧ wrote base b b2 (l ++ [(r, v)]).
Proof.
  intros Hb W Hv. destruct (lapicw_run base fuel b1 r v) as (b2 & E & W2); [destruct W as (_ & -> & _); done|done|].
  exists b2. split; [done|]. by apply (wrote_trans _ _ b1).
Qed.

(** One INIT or STARTUP: the destination, then the command. *)
Lemma ipi_run {A} base apicid cmd (k : M (board (log_bus D)) A) fuel b b1 l :
  dr_lapic (m_drv b) = base → wrote base b b1 l → 0 ≤ apicid < 256 → 0 ≤ cmd < 2 ^ 32 →
  ∃ b2, (lapicw ICRHI (Z.shiftl apicid 24);; lapicw ICRLO cmd;; microdelay 200;; k) fuel b1 = k fuel b2 ∧ wrote base b b2 (l ++ [(ICRHI, 2 ^ 24 * apicid); (ICRLO, cmd)]).
Proof.
  intros Hb W Ha Hc. rewrite Z.shiftl_mul_pow2, Z.mul_comm by lia.
  destruct (lapicw_next base ICRHI (2 ^ 24 * apicid) fuel b b1 l Hb W) as (b2 & E & W2); [lia|]. rewrite (run_bind _ _ _ _ _ _ E).
  destruct (lapicw_next base ICRLO cmd fuel b b2 _ Hb W2 Hc) as (b3 & E' & W3). rewrite (run_bind _ _ _ _ _ _ E').
  exists b3. split; [done|]. by rewrite <- app_assoc in W3.
Qed.

Lemma startap_run base apicid fuel b :
  dr_lapic (m_drv b) = base → 0 ≤ apicid < 256 → ∃ b', lapicstartap apicid (u32 (V2P ap_code)) fuel b = Ret tt b' ∧ wrote base b b' (startup apicid).
Proof.
  intros Hb Ha. unfold lapicstartap. change (Z.lor (Z.lor INIT LEVEL) ASSERT) with 0xc500.
  change (Z.lor STARTUP (Z.shiftr (u32 (V2P ap_code)) 12)) with 0x607.
  assert (W0 : wrote base b b []) by (split_and!; [done|done|by rewrite app_nil_r]).
  edestruct (ipi_run (A := unit) base apicid 0xc500) as (b1 & E1 & W1); [exact Hb|exact W0|done|done|]. rewrite E1. clear E1 W0.
  edestruct (ipi_run base apicid 0x607 (mret (None (A := unit)))) as (b2 & E2 & W2); [exact Hb|exact W1|done|done|].
  edestruct (ipi_run base apicid 0x607 (mret (None (A := unit)))) as (b3 & E3 & W3); [exact Hb|exact W2|done|done|].
  cbn [forM]. exists b3. split; [|exact W3]. erewrite run_bind; [reflexivity|]. rewrite (run_bind _ _ _ _ _ _ E2), (run_bind _ _ _ _ _ _ E3). done.
Qed.

(** A processor that [startothers] starts is sent INIT and twice STARTUP for
    the page of its code, after the words below it say what it needs: the
    address space, [mpenter], and the end of a stack that is a page nobody else
    has. [startothers] goes on as soon as the processor says it has started,
    and not before. *)
Theorem start_cpu_spec i me c stack l fuel b :
  let x := k_ctx (m_k b) in let ci := x_cpus x !!! Z.to_nat i in
  oncpu x me c → hw_if (x_hw x) = false → Z.to_nat i ≠ me → 0 ≤ c_apicid ci < 256 → km_lockable (m_k b) me → km_ok (m_k b) (stack :: l) → stack < 2 ^ 64 - KSTACKSIZE →
  0 ≤ bd_mpenter bd < 2 ^ 64 → 0 ≤ V2P (bd_entry_pml4 bd) < 2 ^ 32 →
  (∀ b1, entryother (k_mem (m_k b1)) = mkAp (V2P (bd_entry_pml4 bd)) (stack + KSTACKSIZE) (bd_mpenter bd) →
     ∃ n, (n < fuel)%nat ∧ c_started (x_cpus (k_ctx (m_k (Nat.iter n others b1))) !!! Z.to_nat i) ≠ 0) →
  ∃ b0 b1 n, start_cpu bd others i fuel b = Ret None (Nat.iter n others b1) ∧ k_ctx (m_k b1) = x ∧ page stack ∧ stack ∉ l ∧ m_bus b0 = m_bus b ∧
    wrote (dr_lapic (m_drv b)) b0 b1 (startup (c_apicid ci)) ∧
    entryother (k_mem (m_k b1)) = mkAp (V2P (bd_entry_pml4 bd)) (stack + KSTACKSIZE) (bd_mpenter bd) ∧
    c_started (x_cpus (k_ctx (m_k (Nat.iter n others b1))) !!! Z.to_nat i) ≠ 0 ∧
    ∀ j, (j < n)%nat → c_started (x_cpus (k_ctx (m_k (Nat.iter j others b1))) !!! Z.to_nat i) = 0.
Proof.
  intros x ci Hc Hif Hi Ha Hl Hk Hst Hmp Hp Hup. unfold start_cpu.
  rewrite (run_bind _ _ _ _ me b) by (rewrite (kern_ret _ _ _ me (m_k b)) by (by apply (mycpu_run _ _ _ c)); by destruct b).
  rewrite bool_decide_false by done. destruct (kalloc_page (m_k b) me (stack :: l) fuel Hl Hk) as (f & Ek & _ & Hpg & Hnin). set (km := km_set_freelist f (k_km (m_k b))) in *.
  rewrite (run_bind _ _ _ _ _ _ (kern_ret _ _ _ _ _ Ek)).
  destruct (tell_ap_run stack fuel (set_km km (m_k b))) as (m & Et & Hm); [destruct Hpg as (_ & ? & _); lia|done|done|].
  rewrite (run_bind _ _ _ _ _ _ (kern_ret _ fuel (mkBoard (set_km km (m_k b)) (m_drv b) (m_bus b)) _ _ Et)). set (b0 := mkBoard (set_mem m (set_km km (m_k b))) (m_drv b) (m_bus b)).
  rewrite (run_bind _ _ _ _ ci b0) by done.
  destruct (startap_run (dr_lapic (m_drv b)) (c_apicid ci) fuel b0) as (b1 & Es & W); [done|done|]. rewrite (run_bind _ _ _ _ _ _ Es).
  assert (Hm1 : entryother (k_mem (m_k b1)) = mkAp (V2P (bd_entry_pml4 bd)) (stack + KSTACKSIZE) (bd_mpenter bd)) by (by destruct W as (-> & _)).
  destruct (Hup b1 Hm1) as (n0 & Hn0 & Hs0).
  destruct (nat_least (λ j, c_started (x_cpus (k_ctx (m_k (Nat.iter j others b1))) !!! Z.to_nat i) ≠ 0) n0 Hs0) as (n & Hle & Hn & Hmin).
  assert (Hz : ∀ j, (j < n)%nat → c_started (x_cpus (k_ctx (m_k (Nat.iter j others b1))) !!! Z.to_nat i) = 0).
  { intros j Hj. apply dec_stable, Hmin, Hj. }
  exists b0, b1, n. split; [|split_and!; try done; by destruct W as (-> & _)].
  rewrite (run_bind _ _ _ _ tt (Nat.iter n others b1)); [done|]. apply wait_run; [done|done|lia].
Qed.
End ap.
