(* ===== verification/Hardware.v ===== *)
(** Boards the theorems on the drivers apply to: the machine of Boot.v with an
    I/O APIC, a serial port or a disk on its bus. *)

From stdpp Require Import functions base list gmap strings.
From Stdlib Require Import ZArith Lia.
From S2P Require Import Prelude Bytes Sprintf Monad Kstate Spinlock Sched Cons Bio Console Kalloc Vm Fb Trap Boot Bus Mp Mb2 Kinit Apic Uart Ide.

Definition drivers0 : drivers := mkDrv 0xfee00000 io_base None (replicate (S NBUF) None) 1.

(** * Interrupt routing *)

(** The lines the kernel enables: keyboard, serial port, disk (to CPU 1). *)
Definition io_board : board io_regs := mkBoard (machine0 zeros) drivers0 (mkIo 0 (λ _, 0) (λ _, 0)).

Lemma ioapic_routes_witness :
  ∃ m', (ioapicinit;; enable_all [(IRQ_KBD, 0); (IRQ_COM1, 0); (IRQ_IDE, 1)]) 1%nat io_board = Ret tt m' ∧
    routing io_base (m_bus m') 14 = Some (46, 1) ∧ routing io_base (m_bus m') 0 = None.
Proof.
  destruct (ioapic_routes io_base 1 io_board [(IRQ_KBD, 0); (IRQ_COM1, 0); (IRQ_IDE, 1)]) as (m' & E & _ & R).
  - done.
  - vm_compute. congruence.
  - intros p Hp. repeat (apply elem_of_cons in Hp as [->|Hp]; [vm_compute; intuition congruence|]). by apply not_elem_of_nil in Hp.
  - exists m'. split; [exact E|]. rewrite !R by (vm_compute; intuition congruence). split; reflexivity.
Defined.

(** * The serial port *)

Definition com_board : board com_regs := mkBoard (machine0 zeros) drivers0 (mkCom [104; 105] []).


(** * Sleeping *)


(** * A disk *)

(** A disk that is busy for one poll after every command and delivers
    [ad_data]. *)
Record ata_regs := mkAta { ad_busy : bool; ad_data : list Z }.

#[global] Instance ata_bus : Bus ata_regs := {|
  bus_in p d := if p =? 0x1f7 then (if ad_busy d then 0x80 else 0x40, mkAta false (ad_data d)) else (0, d);
  bus_out p v d := if p =? 0x1f7 then mkAta true (ad_data d) else d;
  bus_ins p n d := (ad_data d, d);
  bus_outs p l d := d;
  bus_load a d := (0, d);
  bus_store a v d := d
|}.

#[global] Instance ata_disk : Ata ata_regs.
Proof.
  refine {| ata_busy d := if ad_busy d then 1%nat else 0%nat; ata_bound := 1%nat |}.
  - intros d. destruct (ad_busy d); lia.
  - intros d. cbn. destruct (ad_busy d); cbn; split; try done; lia.
Defined.

(** Buffer 0 locked by the process, to be read from block 5 of disk 1. *)
Definition ide_machine : kstate :=
  set_bc (<[0%nat := mkBuf 0 1 5 (mkSleep 1 "buffer" 1) 1 0 0 (replicate 512 0)]> (k_bc (machine0 zeros))) (machine0 zeros).
Definition ide_board : board ata_regs := mkBoard ide_machine drivers0 (mkAta false (replicate 512 7)).

Lemma ide_board_request : can_request ide_board 0 0 0.
Proof.
  split; [split; [apply ctx0_ok|done]|done|by apply free_lock, static_in|by apply free_lock, static_in| |by split|by split|by right|simpl; lia..].
  apply free_lock, static_in. cbn [static_lock]. unfold NBUF, MAXOPBLOCKS. lia.
Qed.

Lemma ide_board_inv : ide_inv ide_board [].
Proof. split; [done|constructor|]. intros b []%not_elem_of_nil. Qed.


(** A disk that is ready with an error: [IDE_DRDY | IDE_ERR]. *)
Record bad_disk := mkBad {}.

#[global] Instance bad_bus : Bus bad_disk := {|
  bus_in p d := (0x41, d);
  bus_out p v d := d;
  bus_ins p n d := (replicate (4 * n) 0, d);
  bus_outs p l d := d;
  bus_load a d := (0, d);
  bus_store a v d := d
|}.

(** Buffer 0, which holds the bytes of another block, waits to be read. *)
Definition stale_board : board bad_disk :=
  mkBoard (set_bc (<[0%nat := mkBuf 0 1 5 (mkSleep 1 "buffer" 1) 1 0 0 (replicate 512 9)]> (k_bc (machine0 zeros))) (machine0 zeros))
    (set_idequeue (Some 0%nat) drivers0) mkBad.

(** The handler ignores the error of a read: the buffer becomes valid with the
    bytes it held before. *)
Lemma ide_read_error_valid :
  match ideintr 10%nat stale_board with
  | Ret _ m => ide_done (k_bc (m_k m) !!! 0%nat) = true ∧ b_data (k_bc (m_k m) !!! 0%nat) = replicate 512 9
  | _ => False
  end.
Proof. vm_compute. done. Qed.

(** * Boot information *)

(** A machine with one processor and one I/O APIC, a small screen, and one
    megabyte of memory above the first. *)
Definition madt_entries : list madt_entry := [ELapic 0 3 1; EIoapic 0 0xfec00000 0; EOther 2 [0; 0]].
Definition madt_bytes : list Z :=
  let body := str "APIC" ++ le_bytes 4 (44 + Z.of_nat (length (table_bytes madt_entries))) ++ [1] in
  let rest := replicate 26 0 ++ le_bytes 4 0xfee00000 ++ le_bytes 4 0 ++ table_bytes madt_entries in
  body ++ [(- foldl Z.add 0 (body ++ rest)) mod 256] ++ rest.
Definition rsdt_bytes : list Z := str "RSDT" ++ le_bytes 4 40 ++ replicate 28 0 ++ le_bytes 4 0x21000.

Definition fb_tag_bytes : list Z :=
  le_bytes 4 8 ++ le_bytes 4 32 ++ le_bytes 8 0xfd000000 ++ le_bytes 4 64 ++ le_bytes 4 16 ++ le_bytes 4 16 ++ [32; 1; 0; 0].
Definition mmap_tag_bytes : list Z :=
  le_bytes 4 6 ++ le_bytes 4 40 ++ le_bytes 4 24 ++ le_bytes 4 0 ++ le_bytes 8 0x100000 ++ le_bytes 8 0x100000 ++ le_bytes 4 1 ++ le_bytes 4 0.
Definition acpi_tag_bytes : list Z := le_bytes 4 15 ++ le_bytes 4 28 ++ replicate 16 0 ++ le_bytes 4 0x20000 ++ le_bytes 4 0.
Definition info_bytes : list Z := le_bytes 4 120 ++ le_bytes 4 0 ++ fb_tag_bytes ++ mmap_tag_bytes ++ acpi_tag_bytes ++ le_bytes 4 0 ++ le_bytes 4 8.

Definition boot_mem : mem := wr_bytes (wr_bytes (wr_bytes ∅ (P2V 0x10000) info_bytes) (P2V 0x20000) rsdt_bytes) (P2V 0x21000) madt_bytes.

Definition boot_tags : list (Z * Z) := [(8, 0x10008); (6, 0x10028); (15, 0x10050); (0, 0x10070)].

Lemma boot_handed_over :
  handed_over boot_mem 0x10000 boot_tags 0x10008 0x10028 (P2V 0x10058) (P2V 0x21000) 24 madt_entries [mkRegion 0x100000 0x100000 1].
Proof.
  split.
  - split_and!; by vm_compute.
  - unfold boot_tags.
    apply (chain_tag boot_mem _ 0x10008); [by vm_compute|]. apply (chain_tag boot_mem _ 0x10028); [by vm_compute|].
    apply (chain_tag boot_mem _ 0x10050); [by vm_compute|]. apply (chain_tag boot_mem _ 0x10070); [by vm_compute|].
    apply chain_end. by vm_compute.
  - by vm_compute.
  - by vm_compute.
  - split; by vm_compute.
  - by vm_compute.
  - by vm_compute.
  - by vm_compute.
  - split_and!; by vm_compute.
  - repeat constructor; by vm_compute.
  - split_and!; by vm_compute.
  - split; by vm_compute.
  - split; [by vm_compute|]. intros [|k] Hk; [by vm_compute|simpl in Hk; lia].
  - repeat constructor; by vm_compute.
Qed.

Definition symbols0 : ldsyms := mkSymbols (P2V 0x110000) (P2V 0x118000) (P2V 0x120000) (P2V 0x119000).
Definition early_kstate : kstate :=
  set_cons (mkCons (replicate 128 0) 0 0 0 0 0 [] 0 [] 0 [])
    (set_km (mkKmem 0 0 (P2V 0x120000) (replicate KMAP_MAX_SIZE (mkKmap 0 0 0 0)) 0 0)
      (set_mem boot_mem (set_ctx (mkCtx (mkHw 3 false 0 sys0) [] ∅) (machine0 zeros)))).
Definition early_board : board com_regs := mkBoard early_kstate (mkDrv 0 0 None [] 0) (mkCom [] []).

