(* ===== verification/Asm.v ===== *)
(** The assembly of the kernel: the context switch kernel/swtch.S, the trap
    entry and exit kernel/trapasm.S with the entry points kernel/vectors.pl
    generates, and the first page tables of kernel/entry.S.

    A listing is a list of instructions, run on registers and on memory, which
    is taken in the 8-byte words that these listings access (the stack pointer
    is always a multiple of 8). *)

From stdpp Require Import functions base list gmap strings.
From Stdlib Require Import ZArith Lia.
From S2P Require Import Prelude Seg Monad Kstate.

(** * The processor *)

Inductive reg := RAX | RBX | RCX | RDX | RSI | RDI | RBP | RSP | R8 | R9 | R10 | R11 | R12 | R13 | R14 | R15.
Inductive sreg := CS | DS | ES | FS | GS | SS.
#[global] Instance reg_eq_dec : EqDecision reg.
Proof. solve_decision. Defined.
#[global] Instance sreg_eq_dec : EqDecision sreg.
Proof. solve_decision. Defined.

Record cpustate := mkCpuState {
  gp : reg → Z;
  sg : sreg → Z;
  rip : Z;
  rflags : Z;
  words : Z → Z
}.

Inductive instr :=
| pushq (r : reg)              (* pushq %r *)
| pushq_imm (v : Z)            (* pushq $v *)
| popq (r : reg)               (* popq %r *)
| movq (r1 r2 : reg)           (* movq %r1, %r2 *)
| movq_to (r1 r2 : reg)        (* movq %r1, (%r2) *)
| xorq (r : reg)               (* xorq %r, %r *)
| movw_from (s : sreg)         (* movw %s, %ax *)
| movw_imm (v : Z)             (* movw $v, %ax *)
| movw_to (s : sreg)           (* movw %ax, %s *)
| addq_rsp (v : Z)             (* addq $v, %rsp *)
| retq
| iretq.

Definition set_gp (r : reg) (v : Z) (s : cpustate) : cpustate := mkCpuState (<[r := v]> (gp s)) (sg s) (rip s) (rflags s) (words s).
Definition set_sg (r : sreg) (v : Z) (s : cpustate) : cpustate := mkCpuState (gp s) (<[r := v]> (sg s)) (rip s) (rflags s) (words s).
Definition set_word (a v : Z) (s : cpustate) : cpustate := mkCpuState (gp s) (sg s) (rip s) (rflags s) (<[a := v]> (words s)).
Definition set_rip (v : Z) (s : cpustate) : cpustate := mkCpuState (gp s) (sg s) v (rflags s) (words s).
Definition set_rflags (v : Z) (s : cpustate) : cpustate := mkCpuState (gp s) (sg s) (rip s) v (words s).

Definition push (v : Z) (s : cpustate) : cpustate :=
  let sp := gp s RSP - 8 in set_word sp v (set_gp RSP sp s).
(** The word on top of the stack, and the stack without it. *)
Definition top (s : cpustate) : Z := words s (gp s RSP).
Definition drop_top (s : cpustate) : cpustate := set_gp RSP (gp s RSP + 8) s.

(** Replacing the low 16 bits of [%rax]. *)
Definition set_ax (v : Z) (s : cpustate) : cpustate := set_gp RAX (gp s RAX - gp s RAX mod 2 ^ 16 + v mod 2 ^ 16) s.

Definition step (i : instr) (s : cpustate) : cpustate :=
  match i with
  | pushq r => push (gp s r) s
  | pushq_imm v => push v s
  | popq r => set_gp r (top s) (drop_top s)
  | movq r1 r2 => set_gp r2 (gp s r1) s
  | movq_to r1 r2 => set_word (gp s r2) (gp s r1) s
  | xorq r => set_gp r 0 s
  | movw_from r => set_ax (sg s r) s
  | movw_imm v => set_ax v s
  | movw_to r => set_sg r (gp s RAX mod 2 ^ 16) s
  | addq_rsp v => set_gp RSP (gp s RSP + v) s
  | retq => set_rip (top s) (drop_top s)
  | iretq =>
      let sp := gp s RSP in
      set_gp RSP (words s (sp + 24)) (set_rip (words s sp) (set_sg CS (words s (sp + 8) mod 2 ^ 16)
        (set_rflags (words s (sp + 16)) (set_sg SS (words s (sp + 32) mod 2 ^ 16) s))))
  end.

Definition run (l : list instr) (s : cpustate) : cpustate := foldl (λ s i, step i s) s l.

(** * The context switch *)

(** swtch.S: [void swtch(struct context **old, struct context *new)]. *)
Definition swtch_S : list instr :=
  [pushq RBX; pushq RBP; pushq R12; pushq R13; pushq R14; pushq R15;
   movq_to RSP RDI; movq RSI RSP;
   popq R15; popq R14; popq R13; popq R12; popq RBP; popq RBX; retq].

(** struct context. *)
Record context := mkContext { c_r15 : Z; c_r14 : Z; c_r13 : Z; c_r12 : Z; c_rbp : Z; c_rbx : Z; c_rip : Z }.

Definition context_at (w : Z → Z) (p : Z) : context :=
  mkContext (w p) (w (p + 8)) (w (p + 16)) (w (p + 24)) (w (p + 32)) (w (p + 40)) (w (p + 48)).

(** * Traps *)

(** What the processor does at an interrupt from user mode: it switches to the
    stack [rsp0] of the task state segment, saves where it came from and, for
    some traps, an error code. *)
Definition hw_trap (rsp0 : Z) (err : option Z) (s : cpustate) : cpustate :=
  let s1 := set_gp RSP rsp0 s in
  let s2 := push (rip s) (push (sg s CS) (push (rflags s) (push (gp s RSP) (push (sg s SS) s1)))) in
  match err with Some e => push e s2 | None => s2 end.

(** The traps for which the processor pushes an error code, after vectors.pl. *)
Definition has_error (i : Z) : bool := (i =? 8) || ((10 <=? i) && (i <=? 14)) || (i =? 17).

(** [vector<i>]. *)
Definition vector (i : Z) : list instr := (if has_error i then [] else [pushq_imm 0]) ++ [pushq_imm i].

(** trapasm.S up to the call of [trap] and from [trapret] on. *)
Definition alltraps : list instr :=
  [pushq RBX; pushq RBP; pushq R12; pushq R13; pushq R14; pushq R15;
   pushq RAX;
   pushq RDI; pushq RSI; pushq RDX; pushq RCX; pushq R8; pushq R9;
   xorq RAX; movw_from DS; pushq RAX; movw_from ES; pushq RAX; movw_from FS; pushq RAX; movw_from GS; pushq RAX;
   movw_imm (Z.shiftl SEG_KDATA 3); movw_to DS; movw_to ES; movw_to SS;
   movq RSP RDI].

Definition trapret : list instr :=
  [popq RAX; movw_to GS; popq RAX; movw_to FS; popq RAX; movw_to ES; popq RAX; movw_to DS;
   popq R9; popq R8; popq RCX; popq RDX; popq RSI; popq RDI;
   popq RAX;
   popq R15; popq R14; popq R13; popq R12; popq RBP; popq RBX;
   addq_rsp 16; iretq].

(** struct trapframe in memory. *)
Definition trapframe_at (w : Z → Z) (p : Z) : trapframe :=
  mkTf (w p mod 2 ^ 16) (w (p + 8) mod 2 ^ 16) (w (p + 16) mod 2 ^ 16) (w (p + 24) mod 2 ^ 16)
    (w (p + 32)) (w (p + 40)) (w (p + 48)) (w (p + 56)) (w (p + 64)) (w (p + 72)) (w (p + 80))
    (w (p + 88)) (w (p + 96)) (w (p + 104)) (w (p + 112)) (w (p + 120)) (w (p + 128))
    (w (p + 136) mod 2 ^ 32) (w (p + 144)) (w (p + 152)) (w (p + 160) mod 2 ^ 16) (w (p + 168)) (w (p + 176)) (w (p + 184) mod 2 ^ 16).

(** * Pushing and popping *)

Definition pushes (vs : list Z) (s : cpustate) : cpustate := foldl (λ s v, push v s) s vs.

Lemma pushes_rsp vs s : gp (pushes vs s) RSP = gp s RSP - 8 * Z.of_nat (length vs).
Proof.
  revert s. induction vs as [|v vs IH]; intros s; cbn [pushes foldl length]; [lia|]. unfold pushes in IH. rewrite IH. cbn. rewrite fn_lookup_insert. lia.
Qed.

Lemma pushes_frame vs s a : gp s RSP ≤ a ∨ a < gp s RSP - 8 * Z.of_nat (length vs) → words (pushes vs s) a = words s a.
Proof.
  revert s. induction vs as [|v vs IH]; intros s Ha; [done|]. cbn [pushes foldl length] in *. unfold pushes in IH. rewrite IH.
  - cbn. apply fn_lookup_insert_ne. lia.
  - cbn. rewrite fn_lookup_insert. lia.
Qed.

(** The words pushed lie above the new stack pointer, the last first. *)
Lemma pushes_at vs s j v : reverse vs !! j = Some v → words (pushes vs s) (gp s RSP - 8 * Z.of_nat (length vs) + 8 * Z.of_nat j) = v.
Proof.
  revert s j. induction vs as [|w vs IH]; intros s j Hj; [by rewrite reverse_nil in Hj|]. rewrite reverse_cons in Hj. cbn [pushes foldl length].
  fold (pushes vs (push w s)). apply lookup_app_Some in Hj as [Hj|[Hge Hj]].
  - pose proof (lookup_lt_Some _ _ _ Hj) as Hl. rewrite length_reverse in Hl. rewrite <- (IH (push w s) j Hj). f_equal. cbn. rewrite fn_lookup_insert. lia.
  - apply list_lookup_singleton_Some in Hj as [Hj <-]. rewrite length_reverse in Hge, Hj. rewrite pushes_frame; [|left; cbn; rewrite fn_lookup_insert; lia].
    cbn. replace (gp s RSP - 8 * Z.of_nat (S (length vs)) + 8 * Z.of_nat j) with (gp s RSP - 8) by lia. apply fn_lookup_insert.
Qed.

Lemma pushes_gp vs s r : r ≠ RSP → gp (pushes vs s) r = gp s r.
Proof.
  intros Hr. revert s. induction vs as [|v vs IH]; intros s; [done|]. cbn [pushes foldl]. unfold pushes in IH. rewrite IH. cbn. by apply fn_lookup_insert_ne.
Qed.

(** * Switching contexts *)

(** The context [swtch] is to save: the caller's registers and the return
    address on top of its stack. *)
Definition context_of (s : cpustate) : context :=
  mkContext (gp s R15) (gp s R14) (gp s R13) (gp s R12) (gp s RBP) (gp s RBX) (top s).

Definition saved (s : cpustate) : list Z := [gp s RBX; gp s RBP; gp s R12; gp s R13; gp s R14; gp s R15].

(** [s] calls [swtch] with the arguments in [%rdi] and [%rsi]: neither the
    pointer to be stored nor the new context lies where the old one is saved. *)
Definition swtch_args (s : cpustate) : Prop :=
  (gp s RDI < gp s RSP - 48 ∨ gp s RSP + 8 ≤ gp s RDI) ∧
  (gp s RSI + 56 ≤ gp s RSP - 48 ∨ gp s RSP ≤ gp s RSI) ∧
  (gp s RDI < gp s RSI ∨ gp s RSI + 56 ≤ gp s RDI).

Lemma swtch_words s : words (run swtch_S s) = <[gp s RDI := gp s RSP - 48]> (words (pushes (saved s) s)).
Proof.
  replace (gp s RSP - 48) with (gp s RSP - 8 - 8 - 8 - 8 - 8 - 8) by lia. vm_compute. reflexivity.
Qed.

Lemma swtch_saves s : swtch_args s →
  let w := words (run swtch_S s) in w (gp s RDI) = gp s RSP - 48 ∧ context_at w (gp s RSP - 48) = context_of s.
Proof.
  intros (H1 & H2 & H3) w. unfold w. rewrite swtch_words. rewrite fn_lookup_insert. split; [done|].
  assert (Hlen : length (saved s) = 6%nat) by done. unfold context_at, context_of. rewrite !fn_lookup_insert_ne by lia.
  pose proof (pushes_at (saved s) s) as P. rewrite Hlen in P. f_equal.
  - rewrite <- (P 0%nat (gp s R15) eq_refl). f_equal; lia.
  - rewrite <- (P 1%nat (gp s R14) eq_refl). f_equal; lia.
  - rewrite <- (P 2%nat (gp s R13) eq_refl). f_equal; lia.
  - rewrite <- (P 3%nat (gp s R12) eq_refl). f_equal; lia.
  - rewrite <- (P 4%nat (gp s RBP) eq_refl). f_equal; lia.
  - rewrite <- (P 5%nat (gp s RBX) eq_refl). f_equal; lia.
  - rewrite pushes_frame by lia. unfold top. f_equal; lia.
Qed.

(** The processor continues in context [c] with its stack above [p]. *)
Definition continues (s : cpustate) (c : context) (p : Z) : Prop :=
  mkContext (gp s R15) (gp s R14) (gp s R13) (gp s R12) (gp s RBP) (gp s RBX) (rip s) = c ∧ gp s RSP = p + 56.

Lemma swtch_loads s : swtch_args s → continues (run swtch_S s) (context_at (words s) (gp s RSI)) (gp s RSI).
Proof.
  intros (H1 & H2 & H3). set (w := words (run swtch_S s)).
  assert (Hw : ∀ k, 0 ≤ k < 56 → w (gp s RSI + k) = words s (gp s RSI + k)).
  { intros k Hk. unfold w. rewrite swtch_words, fn_lookup_insert_ne by lia. apply pushes_frame. cbn [length saved]. lia. }
  assert (Hsp : gp (run swtch_S s) RSP = gp s RSI + 8 + 8 + 8 + 8 + 8 + 8 + 8) by (vm_compute; reflexivity).
  assert (H15 : gp (run swtch_S s) R15 = w (gp s RSI)) by (vm_compute; reflexivity).
  assert (H14 : gp (run swtch_S s) R14 = w (gp s RSI + 8)) by (vm_compute; reflexivity).
  assert (H13 : gp (run swtch_S s) R13 = w (gp s RSI + 8 + 8)) by (vm_compute; reflexivity).
  assert (H12 : gp (run swtch_S s) R12 = w (gp s RSI + 8 + 8 + 8)) by (vm_compute; reflexivity).
  assert (Hbp : gp (run swtch_S s) RBP = w (gp s RSI + 8 + 8 + 8 + 8)) by (vm_compute; reflexivity).
  assert (Hbx : gp (run swtch_S s) RBX = w (gp s RSI + 8 + 8 + 8 + 8 + 8)) by (vm_compute; reflexivity).
  assert (Hrip : rip (run swtch_S s) = w (gp s RSI + 8 + 8 + 8 + 8 + 8 + 8)) by (vm_compute; reflexivity).
  split; [|rewrite Hsp; lia]. rewrite H15, H14, H13, H12, Hbp, Hbx, Hrip, <- !Z.add_assoc. unfold context_at. rewrite <- (Z.add_0_r (gp s RSI)) at 1 8. by rewrite !Hw by lia.
Qed.

(** C20: A thread that [swtch] has switched away from continues, when some thread
    switches back to the saved context, after its call with its callee-saved
    registers, its stack and its return address as they were, whatever the
    others did meanwhile, provided they left its saved context alone. *)
Theorem swtch_back s t :
  swtch_args s → let p := words (run swtch_S s) (gp s RDI) in
  swtch_args t → gp t RSI = p → (∀ k, 0 ≤ k < 56 → words t (p + k) = words (run swtch_S s) (p + k)) →
  p = gp s RSP - 48 ∧ continues (run swtch_S t) (context_of s) p.
Proof.
  intros Hs p Ht Hp Hk. destruct (swtch_saves s Hs) as [E1 E2]. fold p in E1. split; [done|]. pose proof (swtch_loads t Ht) as L. rewrite Hp in L.
  rewrite <- E2, <- E1. enough (context_at (words t) p = context_at (words (run swtch_S s)) p) as <- by done.
  unfold context_at. rewrite <- (Z.add_0_r p) at 1 8. by rewrite !Hk by lia.
Qed.

(** * Entering and leaving the kernel *)

(** The error code the trap frame shows. *)
Definition err_code (i e : Z) : Z := if has_error i then e else 0.

(** From the interrupt to the call of [trap]. *)
Definition trap_entry (rsp0 i e : Z) (s : cpustate) : cpustate :=
  run (vector i ++ alltraps) (hw_trap rsp0 (if has_error i then Some e else None) s).

(** What is pushed, in order. *)
Definition frame_words (i e : Z) (s : cpustate) : list Z :=
  [sg s SS; gp s RSP; rflags s; sg s CS; rip s; err_code i e; i;
   gp s RBX; gp s RBP; gp s R12; gp s R13; gp s R14; gp s R15; gp s RAX; gp s RDI; gp s RSI; gp s RDX; gp s RCX; gp s R8; gp s R9;
   sg s DS; sg s ES; sg s FS; sg s GS].

(** Segment registers have 16 bits. *)
Definition segs_ok (s : cpustate) : Prop := ∀ r, 0 ≤ sg s r < 2 ^ 16.

Lemma ax_new d v : 0 ≤ d < 2 ^ 16 → 0 ≤ v < 2 ^ 16 → d mod 2 ^ 16 - d mod 2 ^ 16 mod 2 ^ 16 + v mod 2 ^ 16 = v.
Proof. intros Hd Hv. rewrite !Z.mod_small by lia. lia. Qed.

Lemma entry_words rsp0 i e s : segs_ok s → words (trap_entry rsp0 i e s) = words (pushes (frame_words i e s) (set_gp RSP rsp0 s)).
Proof.
  intros Hs. set (x := sg s DS mod 2 ^ 16). set (y := x - x mod 2 ^ 16 + sg s ES mod 2 ^ 16). set (z := y - y mod 2 ^ 16 + sg s FS mod 2 ^ 16).
  set (u := z - z mod 2 ^ 16 + sg s GS mod 2 ^ 16).
  assert (Ex : x = sg s DS) by (apply Z.mod_small, Hs). assert (Ey : y = sg s ES) by (unfold y; rewrite Ex, !Z.mod_small by apply Hs; lia).
  assert (Ez : z = sg s FS) by (unfold z; rewrite Ey, !Z.mod_small by apply Hs; lia). assert (Eu : u = sg s GS) by (unfold u; rewrite Ez, !Z.mod_small by apply Hs; lia).
  transitivity (words (pushes [sg s SS; gp s RSP; rflags s; sg s CS; rip s; err_code i e; i;
     gp s RBX; gp s RBP; gp s R12; gp s R13; gp s R14; gp s R15; gp s RAX; gp s RDI; gp s RSI; gp s RDX; gp s RCX; gp s R8; gp s R9; x; y; z; u] (set_gp RSP rsp0 s))).
  - unfold u, z, y, x, trap_entry, vector, err_code. clear. destruct (has_error i); cbv -[Z.sub Z.add Z.modulo Z.eq_dec Z.pow]; reflexivity.
  - by rewrite Ex, Ey, Ez, Eu.
Qed.

Lemma entry_regs rsp0 i e s : gp (trap_entry rsp0 i e s) RSP = rsp0 - 192 ∧ gp (trap_entry rsp0 i e s) RDI = rsp0 - 192.
Proof.
  assert (H : gp (trap_entry rsp0 i e s) RSP = gp (pushes (frame_words i e s) (set_gp RSP rsp0 s)) RSP ∧
    gp (trap_entry rsp0 i e s) RDI = gp (pushes (frame_words i e s) (set_gp RSP rsp0 s)) RSP).
  { unfold trap_entry, vector. destruct (has_error i); cbv -[Z.sub Z.add Z.modulo Z.eq_dec Z.pow]; done. }
  destruct H as [-> ->]. rewrite pushes_rsp. cbn. rewrite fn_lookup_insert. lia.
Qed.

(** The registers of the interrupted program as a trap frame. *)
Definition frame_of (i e : Z) (s : cpustate) : trapframe :=
  mkTf (sg s GS) (sg s FS) (sg s ES) (sg s DS) (gp s R9) (gp s R8) (gp s RCX) (gp s RDX) (gp s RSI) (gp s RDI) (gp s RAX)
    (gp s R15) (gp s R14) (gp s R13) (gp s R12) (gp s RBP) (gp s RBX) i (err_code i e) (rip s) (sg s CS) (rflags s) (gp s RSP) (sg s SS).

(** The next word of the frame. *)
Ltac slot P n := let Q := fresh in pose proof (P n _ eq_refl) as Q;
  let k := eval vm_compute in (8 * Z.of_nat n) in change (8 * Z.of_nat n) with k in Q; rewrite Q; clear Q.

Lemma frame_pushed rsp0 i e s :
  segs_ok s → 0 ≤ i < 256 →
  let t := trap_entry rsp0 i e s in trapframe_at (words t) (gp t RDI) = frame_of i e s.
Proof.
  intros Hs Hi t. destruct (entry_regs rsp0 i e s) as [H1 H2]. fold t in H1, H2. rewrite H2.
  pose proof (entry_words rsp0 i e s Hs) as Hw. fold t in Hw.
  assert (P : ∀ j v, reverse (frame_words i e s) !! j = Some v → words t (rsp0 - 192 + 8 * Z.of_nat j) = v).
  { intros j v Hj. rewrite Hw, <- (pushes_at _ (set_gp RSP rsp0 s) j v Hj). done. }
  assert (Hm : ∀ r, sg s r mod 2 ^ 16 = sg s r) by (intros r; apply Z.mod_small, Hs).
  unfold trapframe_at, frame_of. set (w := words t) in *. clearbody w. clear Hw H1 H2 t.
  pose proof (P 0%nat _ eq_refl) as P0. rewrite Z.add_0_r in P0. rewrite P0. clear P0.
  slot P 1%nat. slot P 2%nat. slot P 3%nat. slot P 4%nat. slot P 5%nat. slot P 6%nat. slot P 7%nat. slot P 8%nat. slot P 9%nat. slot P 10%nat. slot P 11%nat.
  slot P 12%nat. slot P 13%nat. slot P 14%nat. slot P 15%nat. slot P 16%nat. slot P 17%nat. slot P 18%nat. slot P 19%nat. slot P 20%nat. slot P 21%nat. slot P 22%nat. slot P 23%nat.
  rewrite !Hm, (Z.mod_small i) by lia. done.
Qed.

(** C23: [trap] is called with a pointer to the registers of the interrupted
    program: the words pushed by the processor, the vector and [alltraps] are a
    struct trapframe with them in its fields. *)
Theorem trap_frame rsp0 i e s :
  segs_ok s → 0 ≤ i < 256 →
  let t := trap_entry rsp0 i e s in
  gp t RDI = gp t RSP ∧ trapframe_at (words t) (gp t RDI) = frame_of i e s.
Proof.
  intros Hs Hi t. destruct (entry_regs rsp0 i e s) as [H1 H2]. split; [by unfold t; rewrite H1, H2|]. by apply frame_pushed.
Qed.

(** [trapret] loads every register of the frame; it has nothing for [%r10] and
    [%r11]. *)
Lemma trapret_loads i e t :
  let s := run trapret t in let f := trapframe_at (words t) (gp t RSP) in
  frame_of i e s = mkTf (tf_gs f) (tf_fs f) (tf_es f) (tf_ds f) (tf_r9 f) (tf_r8 f) (tf_rcx f) (tf_rdx f) (tf_rsi f) (tf_rdi f) (tf_rax f)
    (tf_r15 f) (tf_r14 f) (tf_r13 f) (tf_r12 f) (tf_rbp f) (tf_rbx f) i (err_code i e) (tf_rip f) (tf_cs f) (tf_rflags f) (tf_rsp f) (tf_ss f) ∧
  gp s R10 = gp t R10 ∧ gp s R11 = gp t R11.
Proof.
  set (a := gp t RSP + 8 + 8 + 8 + 8). set (b := a + 8 + 8 + 8 + 8 + 8 + 8 + 8). set (c := b + 8 + 8 + 8 + 8 + 8 + 8 + 16). set (w := words t).
  assert (H : frame_of i e (run trapret t) =
    mkTf (w (gp t RSP) mod 2 ^ 16) (w (gp t RSP + 8) mod 2 ^ 16) (w (gp t RSP + 8 + 8) mod 2 ^ 16) (w (gp t RSP + 8 + 8 + 8) mod 2 ^ 16)
      (w a) (w (a + 8)) (w (a + 8 + 8)) (w (a + 8 + 8 + 8)) (w (a + 8 + 8 + 8 + 8)) (w (a + 8 + 8 + 8 + 8 + 8)) (w (a + 8 + 8 + 8 + 8 + 8 + 8))
      (w b) (w (b + 8)) (w (b + 8 + 8)) (w (b + 8 + 8 + 8)) (w (b + 8 + 8 + 8 + 8)) (w (b + 8 + 8 + 8 + 8 + 8)) i (err_code i e)
      (w c) (w (c + 8) mod 2 ^ 16) (w (c + 16)) (w (c + 24)) (w (c + 32) mod 2 ^ 16)).
  { unfold c, b, a, w. cbv -[Z.sub Z.add Z.modulo Z.eq_dec Z.pow err_code]. reflexivity. }
  split; [|split; cbv -[Z.sub Z.add Z.modulo Z.eq_dec Z.pow]; reflexivity]. rewrite H. unfold c, b, a. rewrite <- !Z.add_assoc. reflexivity.
Qed.

(** C22: An interrupt of a user program is transparent but for two registers:
    whatever [trap] does, provided it leaves the frame and the stack pointer as
    they were, the program continues where it was with its flags, its segment
    registers and its general registers, except [%r10] and [%r11], which
    trapasm.S does not save and which come back as [trap] leaves them. *)
Theorem trap_transparent rsp0 i e s t' :
  segs_ok s → 0 ≤ i < 256 → let t := trap_entry rsp0 i e s in
  gp t' RSP = gp t RSP → (∀ k, 0 ≤ k < 192 → words t' (gp t RSP + k) = words t (gp t RSP + k)) →
  let s' := run trapret t' in frame_of i e s' = frame_of i e s ∧ gp s' R10 = gp t' R10 ∧ gp s' R11 = gp t' R11.
Proof.
  intros Hs Hi t Hsp Hk s'. destruct (trapret_loads i e t') as (E & H10 & H11). fold s' in E, H10, H11. split; [|done]. rewrite E, Hsp.
  assert (Hf : trapframe_at (words t') (gp t RSP) = trapframe_at (words t) (gp t RSP)).
  { unfold trapframe_at. rewrite <- (Z.add_0_r (gp t RSP)) at 1 25. by rewrite !Hk by lia. }
  assert (Ht : trapframe_at (words t) (gp t RSP) = frame_of i e s).
  { destruct (entry_regs rsp0 i e s) as [H1 H2]. fold t in H1, H2. pose proof (frame_pushed rsp0 i e s Hs Hi) as F. cbn zeta in F. fold t in F. by rewrite <- F, H1, H2. }
  rewrite Hf, Ht. done.
Qed.

Lemma words_set_gp r v s a : words (set_gp r v s) a = words s a.
Proof. done. Qed.

Lemma gp_set_gp_ne r r' v s : r ≠ r' → gp (set_gp r v s) r' = gp s r'.
Proof. apply fn_lookup_insert_ne. Qed.

Lemma gp_set_gp r v s : gp (set_gp r v s) r = v.
Proof. apply fn_lookup_insert. Qed.

(** An interrupted program with 1 in every register, and a handler that, as the
    calling convention allows, leaves 7 in [%r10]. *)
Definition user0 : cpustate := mkCpuState (λ _, 1) (λ _, 0x1b) 0x1000 0x202 (λ _, 0).
Definition handled0 : cpustate := set_gp R10 7 (trap_entry 0x9000 32 0 user0).

Lemma trap_transparent_witness : frame_of 32 0 (run trapret handled0) = frame_of 32 0 user0 ∧ gp (run trapret handled0) R10 = 7.
Proof.
  destruct (trap_transparent 0x9000 32 0 user0 handled0) as (E & H10 & _).
  - intros r. unfold user0. cbn. lia.
  - lia.
  - by apply gp_set_gp_ne.
  - intros k Hk. apply words_set_gp.
  - split; [exact E|]. rewrite H10. apply gp_set_gp.
Defined.

Lemma trap_frame_witness : trapframe_at (words (trap_entry 0x9000 32 0 user0)) 0x8f40 = frame_of 32 0 user0.
Proof.
  destruct (trap_frame 0x9000 32 0 user0) as [_ E]; [intros r; unfold user0; cbn; lia|lia|]. by rewrite (proj2 (entry_regs _ _ _ _)) in E.
Defined.

(** Two threads: the first switches to the second, which switches back. *)
Definition thread_a : cpustate := mkCpuState (λ r, match r with RSP => 0x1000 | RDI => 0x10 | RSI => 0x3000 | _ => 5 end) (λ _, 0) 0 0 (λ _, 9).
Definition thread_b (w : Z → Z) : cpustate :=
  mkCpuState (λ r, match r with RSP => 0x4000 | RDI => 0x20 | RSI => 0x1000 - 48 | _ => 6 end) (λ _, 0) 0 0 w.

Lemma thread_b_words w a : words (thread_b w) a = w a.
Proof. done. Qed.

Lemma swtch_back_witness : continues (run swtch_S (thread_b (words (run swtch_S thread_a)))) (context_of thread_a) (0x1000 - 48).
Proof.
  destruct (swtch_back thread_a (thread_b (words (run swtch_S thread_a)))) as [E C].
  - unfold swtch_args. cbn. lia.
  - unfold swtch_args. cbn. lia.
  - by vm_compute.
  - intros k Hk. apply thread_b_words.
  - rewrite E in C. exact C.
Defined.

(** * The first page tables *)

(** The loop of entry.S over the entries of [entry_pml3]: [%eax] and [%ebx] are
    the low and the high half of an entry, [%edx] its address; [last] is the
    end of the table. The comparison is signed. *)
Fixpoint entry_loop (fuel : nat) (last eax ebx edx : Z) (w : Z → Z) : option (Z → Z) :=
  match fuel with
  | O => None
  | S fuel =>
      let w := <[edx := ebx * 2 ^ 32 + eax]> w in
      let eax := u32 (eax + 1024 * 1024 * 1024) in
      let edx := u32 (edx + 8) in
      let ebx := if eax =? 0x83 then u32 (ebx + 1) else ebx in
      if s32 edx <? s32 last then entry_loop fuel last eax ebx edx w else Some w
  end.

(** [movl %eax, (a)]: the low half of a word. *)
Definition set_low (a v : Z) (w : Z → Z) : Z → Z := <[a := w a - w a mod 2 ^ 32 + v]> w.

Definition entry_tables (fuel : nat) (pml4 pml3 : Z) (w : Z → Z) : option (Z → Z) :=
  let eax := Z.lor pml3 3 in
  entry_loop fuel (pml3 + 4096) 0x83 0 pml3 (set_low (pml4 + 2048) eax (set_low pml4 eax w)).

Lemma entry_loop_run i fuel pml3 w :
  0 ≤ pml3 → pml3 + 4096 < 2 ^ 31 → 0 ≤ i < 512 → (512 ≤ i + Z.of_nat fuel) →
  ∃ w', entry_loop fuel (pml3 + 4096) (i mod 4 * 2 ^ 30 + 0x83) (i / 4) (pml3 + 8 * i) w = Some w' ∧
    (∀ j, i ≤ j < 512 → w' (pml3 + 8 * j) = j * 2 ^ 30 + 0x83) ∧ (∀ a, a < pml3 + 8 * i ∨ pml3 + 4096 ≤ a → w' a = w a).
Proof.
  intros Hp Hp2. revert i w. induction fuel as [|fuel IH]; intros i w Hi Hf; [lia|]. cbn [entry_loop].
  set (w1 := <[pml3 + 8 * i := i / 4 * 2 ^ 32 + (i mod 4 * 2 ^ 30 + 0x83)]> w). pose proof (Z.div_mod i 4 ltac:(lia)) as Hd. pose proof (Z.mod_pos_bound i 4 ltac:(lia)) as Hm.
  assert (Hv : i / 4 * 2 ^ 32 + (i mod 4 * 2 ^ 30 + 0x83) = i * 2 ^ 30 + 0x83) by lia.
  assert (Hs : ∀ x, 0 ≤ x < 2 ^ 31 → s32 x = x) by (intros x Hx; unfold s32, swrap; rewrite Z.mod_small by lia; lia).
  rewrite (u32_small (pml3 + 8 * i + 8)), !Hs by lia.
  assert (Ha : u32 (i mod 4 * 2 ^ 30 + 131 + 1024 * 1024 * 1024) = (i + 1) mod 4 * 2 ^ 30 + 0x83).
  { unfold u32. destruct (decide (i mod 4 = 3)) as [E|E].
    - rewrite E. assert ((i + 1) mod 4 = 0) as -> by (apply Z.mod_divide; [lia|]; exists (i / 4 + 1); lia). done.
    - assert ((i + 1) mod 4 = i mod 4 + 1) as -> by (symmetry; apply Z.mod_unique with (i / 4); lia). rewrite Z.mod_small; lia. }
  rewrite Ha. assert (Hb : (if (i + 1) mod 4 * 2 ^ 30 + 0x83 =? 0x83 then u32 (i / 4 + 1) else i / 4) = (i + 1) / 4).
  { pose proof (Z.div_mod (i + 1) 4 ltac:(lia)). pose proof (Z.mod_pos_bound (i + 1) 4 ltac:(lia)). destruct (Z.eqb_spec ((i + 1) mod 4 * 2 ^ 30 + 0x83) 0x83); [rewrite u32_small by lia|]; lia. }
  rewrite Hb. destruct (Z.ltb_spec (pml3 + 8 * i + 8) (pml3 + 4096)) as [Hlt|Hge].
  - replace (pml3 + 8 * i + 8) with (pml3 + 8 * (i + 1)) by lia. destruct (IH (i + 1) w1 ltac:(lia) ltac:(lia)) as (w' & E & H1 & H2). exists w'. split; [exact E|]. split.
    + intros j Hj. destruct (decide (j = i)) as [->|]; [|apply H1; lia]. rewrite H2 by lia. unfold w1. by rewrite fn_lookup_insert.
    + intros a Ha'. rewrite H2 by lia. unfold w1. by rewrite fn_lookup_insert_ne by lia.
  - exists w1. split; [done|]. split.
    + intros j Hj. replace j with i by lia. unfold w1. by rewrite fn_lookup_insert.
    + intros a Ha'. unfold w1. by rewrite fn_lookup_insert_ne by lia.
Qed.

(** The tables map the first 512 gigabytes, twice, to themselves in pages of one
    gigabyte, present and writable. *)
Theorem entry_identity fuel pml4 pml3 w :
  0 ≤ pml3 → pml3 + 4096 < 2 ^ 31 → pml3 mod 4096 = 0 → (pml4 + 4096 ≤ pml3 ∨ pml3 + 4096 ≤ pml4) → w pml4 = 0 → w (pml4 + 2048) = 0 → (512 ≤ fuel)%nat →
  ∃ w', entry_tables fuel pml4 pml3 w = Some w' ∧ w' pml4 = pml3 + 3 ∧ w' (pml4 + 2048) = pml3 + 3 ∧
    ∀ i, 0 ≤ i < 512 → w' (pml3 + 8 * i) = i * 2 ^ 30 + 0x83.
Proof.
  intros H0 H1 Ha Hd Hz1 Hz2 Hf. unfold entry_tables. assert (Z.lor pml3 3 = pml3 + 3) as ->.
  { rewrite <- Z.lxor_lor, <- Z.add_nocarry_lxor; [done|..]; apply Z.bits_inj'; intros n Hn; rewrite Z.land_spec, Z.bits_0; destruct (decide (n < 2)).
    1, 3: replace pml3 with (pml3 / 4096 * 2 ^ 12) by (pose proof (Z.div_mod pml3 4096 ltac:(lia)); lia); rewrite Z.mul_pow2_bits_low by lia; done.
    all: rewrite (Z.bits_above_log2 3 n); [by rewrite andb_false_r|lia|]; change (Z.log2 3) with 1; lia. }
  set (w1 := set_low (pml4 + 2048) (pml3 + 3) (set_low pml4 (pml3 + 3) w)).
  destruct (entry_loop_run 0 fuel pml3 w1 H0 H1 ltac:(lia) ltac:(lia)) as (w' & E & F1 & F2). exists w'. rewrite Z.mul_0_r, Z.add_0_r in E. split; [exact E|].
  assert (E1 : w1 pml4 = pml3 + 3) by (unfold w1, set_low; rewrite fn_lookup_insert_ne, fn_lookup_insert, Hz1 by lia; done).
  assert (E2 : w1 (pml4 + 2048) = pml3 + 3) by (unfold w1, set_low; rewrite fn_lookup_insert, fn_lookup_insert_ne, Hz2 by lia; done).
  rewrite !F2 by lia. split_and!; [done|done|]. intros i Hi. apply F1. lia.
Qed.
