(* ===== verification/Session.v ===== *)
(** Runs of the whole system.

    The kernel boots, on one CPU, from the disk mkfs makes; then init and the
    shell run the commands that are typed, or tests of usertests.c run as the
    first process. The runs are evaluated when this file is compiled, and what
    the console printed is compared with what it should be. They show that the
    parts of the model fit together; they are tests, not theorems on all runs. *)

From stdpp Require Import base list gmap strings.
From Stdlib Require Import ZArith Lia.
From S2P Require Import Prelude Seg CString Bytes Sprintf Monad Kstate Spinlock Sched Cons Bio Log Fs Kalloc Panic Vm Pipe File Proc Console Syscall Umode Exec Trap Ucall Ulib Uprog Sh System Usertests Mkfs Start.

(** * The disk *)

(** A program on the disk: an ELF header and one segment of two pages. What it
    does is its tree of calls. *)
Definition elf_image : list Z :=
  le_bytes 4 ELF_MAGIC ++ replicate 20 0 ++ le_bytes 8 0 ++ le_bytes 8 64 ++ replicate 16 0 ++ le_bytes 2 1 ++ replicate 6 0 ++
  le_bytes 4 1 ++ le_bytes 4 7 ++ le_bytes 8 120 ++ le_bytes 8 0 ++ le_bytes 8 0 ++ le_bytes 8 0 ++ le_bytes 8 0x2000 ++ le_bytes 8 4096.

Definition disk_files : list (list Z * list (list Z)) :=
  [(str "README", [str "xv6"]); (str "_init", [elf_image]); (str "_sh", [elf_image]); (str "_echo", [elf_image]); (str "_cat", [elf_image])].
Definition sectors (o : option image) : list (list Z) :=
  match o with Some m => im_sect m <$> seqZ 0 1000 | None => [] end.

(** * The machine *)

(** Before [main]: the memory map has one range, of [npages] pages. *)
Definition power_on (npages : Z) : kstate :=
  mkK (mkCtx (mkHw 0 false 0 (mkSys 8 16 16 16 0 0 40 (0, 0) (0, 0)))
         [mkCpu 0x80000 0 ts_zero (replicate NSEGS SEGDESC_NULL) 0 0 false None] ∅)
    (mkPtab (replicate 64 proc_zero) None 1)
    (mkKmem 0 0 (P2V 0x200000) (mkKmap 0x200000 (0x200000 + npages * 4096) PTE_W 1 :: replicate (KMAP_MAX_SIZE - 1) (mkKmap 0 0 0 0)) 1 0)
    ∅ (mkDisk [] []) (replicate (S NBUF) (mkBuf 0 0 0 (mkSleep 0 "" 0) 0 0 0 (replicate 512 0)))
    (mkLog 0 0 0 0 0 0 (replicate 30 0)) (mkSb 0 0 0 0 0 0 0)
    (replicate NINODE (mkInode 0 0 0 (mkSleep 0 "" 0) 0 0 0 0 0 0 (replicate 13 0)))
    (replicate NFILE (mkFile FD_NONE 0 0 0 0 None 0)) ∅ 0
    (mkCons (replicate 128 0) 0 0 0 0 0 [] 0 [] 1 []) (replicate 256 gate_zero).

(** [main] and [mpmain] up to the loop of the scheduler, without the calls that
    only set up devices. *)
Definition boot (img : list (list Z)) : K unit :=
  kinit1;; kvmalloc;; seginit;; consoleinit;; pinit;; tvinit (λ i, i);; binit;; fileinit;; ideinit img;; kinit2;;
  userinit console_devsw (replicate 32 0);;
  i ← cpuid;
  cprintf (str "cpu%d: starting %d" ++ [10]) [VInt (Z.of_nat i); VInt (Z.of_nat i)];;
  idtinit 0x1000;;
  upd_cpu i (cpu_set_started 1);;
  upd_cpu i (cpu_set_proc None).

(** What the files on the disk do. *)
Definition programs (path : list Z) (argv : list (list Z)) : prog unit :=
  if bool_decide (path = str "/init") then init_main 3 else
  if bool_decide (path = str "sh") then sh_main 100 else
  if bool_decide (path = str "echo") then echo_main (drop 1 argv) else
  if bool_decide (path = str "cat") then cat_main 100 (drop 1 argv) else Stuck.

(** * Runs *)

Definition run_fuel : nat := Z.to_nat 5000.

(** Why a run ended, and what the console printed. *)
Definition ending (m : mode) : string * list Z :=
  match m with
  | Halted s => ("idle", cn_out (k_cons s))
  | Died msg s =>
      match panic_body (str msg) 0 run_fuel s with
      | Spin s => ("panic", cn_out (k_cons s))
      | _ => (msg, cn_out (k_cons s))
      end
  | _ => ("running", [])
  end.

(** Boots and runs the first process, with the lines [typed]. *)
Definition session (npages : Z) (first : prog unit) (typed : list (list Z)) (n : nat) : string * list Z :=
  ending (steps run_fuel n (AtSched (boot (sectors (mkfs disk_files)) run_fuel (power_on npages)))
            (mkSystem programs typed {[0%nat := New first]} true)).1.

Definition text (ls : list string) : list Z := concat (ln <$> ls).

Definition banner : list string :=
  ["cpu0: starting 0"; "sb: size 1000 nblocks 941 ninodes 200 nlog 30 logstart 2 inodestart 32 bmap start 58"].

(** From power on, the kernel finds the file system mkfs made, runs init and the
    shell, and does what is typed: output to a file, then the file as the input
    of a program with a pipe to another. When nothing is left to do all processes
    wait, with the prompt on the screen. *)
Definition shell_run : string * list Z :=
  Eval vm_compute in session 90 initcode [ln "echo hi there > f"; ln "cat < f | cat"] 3000.

Example shell_run_prints :
  shell_run = ("idle", text (banner ++ ["init: starting sh"; "$ echo hi there > f"; "$ cat < f | cat"; "hi there"]) ++ str "$ ").
Proof. reflexivity. Qed.

(** The tests that take few steps, in the order of usertests.c. *)
Definition console_fds : prog unit :=
  sys (UMknod (str "console") 1 1);;
  sys (UOpen (str "console") O_RDWR);;
  sys (UDup 0);;
  sys (UDup 0);;
  mret tt.

Definition some_tests : prog unit :=
  let buf := replicate (Z.to_nat sizeof_buf) 0 in
  console_fds;;
  sys (USbrk 12288);;
  argptest;;
  sbrk_kernel KERNBASE;;
  opentest;;
  openiputtest;; exitiputtest;; iputtest;;
  buf ← preempt buf;
  rmdot;; fourteen;;
  buf ← subdir buf;
  buf ← linktest buf;
  unlinkread buf;;
  dirfile;;
  uio;;
  exectest;;
  exit_.

(** The kernel passes thirteen tests of its own suite, run one after the other as
    the first process: a program that reads the kernel's memory is killed, and
    those on open, transactions, preemption, names, directories, links and
    unlinked files succeed. The one on port access fails: a program may use the
    ports of the clock. The first process is the only one that may not exit, so
    at the end there is a panic. *)
Definition usertests_run : string * list Z := Eval vm_compute in session 64 some_tests [] 10000.

Example usertests_run_prints :
  usertests_run =
    ("panic", text (banner ++
      ["arg test passed"; "pid 2 initcode: trap 14 err 4 on cpu 0 rip 0x0 addr 0xffff800000000000--kill proc"; "open test"; "open test ok"; "openiput test"; "openiput test ok"; "exitiput test"; "exitiput test ok";
       "iput test"; "iput test ok"; "preempt: kill... wait... preempt ok"; "rmdot test"; "rmdot ok"; "fourteen test"; "fourteen ok";
       "subdir test"; "subdir ok"; "linktest"; "linktest ok"; "unlinkread test"; "unlinkread ok"; "dir vs file"; "dir vs file OK";
       "uio test"; "uio: uio succeeded; test FAILED"; "uio test done"; "exec test"; "ALL TESTS PASSED"; "lapicid 0: panic: init exiting"]) ++ str " 0 0 0 0 0 0 0 0 0 0").
Proof. reflexivity. Qed.
